(* ===== verification/_CoqProject ===== *)
-Q . S2P
Prelude.v
GoFloat.v
GoTime.v
GoString.v
GoDate.v
GoMath.v
GoUrl.v
GoQuery.v
Http.v
Mux.v
GoRunes.v
GoHtml.v
GoTemplate.v
HtmlEscape.v
Markup.v
Templates.v
Token.v
ClientConfig.v
Wire.v
Sketch.v
Ring.v
Sampler.v
Series.v
Adapters.v
Recorder.v
Uploader.v
Concurrency.v
Flush.v
Closing.v
Storage.v
Sql.v
Auth.v
Writer.v
Lifecycle.v
Guardrail.v
Control.v
Ingest.v
Format.v
Views.v
Query.v
Rollup.v
EndToEnd.v
Range.v
Verdict.v
Diagnosis.v
Pages.v
Chart.v
ChartMarkup.v
Dashboard.v
Scoped.v
Routes.v
Docs.v
ViewData.v
Render.v
Migrations.v
App.v
Server.v
PageSafety.v
Links.v
Tenancy.v
Wiring.v
Insert.v
Codec.v
Transport.v
Boot.v
