(* ===== verification/Prelude.v ===== *)
(** * mAPI-ng: a verification library for the client and the collector

    mAPI-ng watches HTTP services. A client library runs inside the instrumented process,
    folds every request into per-window aggregates and uploads them; a collector
    authenticates the uploads, guards its tenants, stores rows in ClickHouse and shows them
    on a dashboard whose organizations, members and keys live in Postgres. This library
    models both programs as they are written in Go and proves what each part promises and
    what the parts promise together.

    ** The program and the files that model it

    This file is the prelude: machine integers, saturating counters, list, sorting and
    reachability lemmas, the hint databases. Below, a path is relative to [src/].

    The language and its standard library, as far as the code uses them: [GoFloat]
    (binary64 on the kernel's primitive floats, decimal printing), [GoTime] (instants and
    durations as nanoseconds with Go's saturating subtraction), [GoDate] (calendar dates and
    layouts), [GoString] (package strings, [ParseInt], raw-URL base64), [GoMath] ([math.Log]
    and [math.Pow]), [GoUrl] and [GoQuery] ([net/url]), [Http] (responses, cookies,
    redirects), [Mux] ([http.ServeMux]: patterns, their conflicts, the choice of a
    handler), [GoRunes] (UTF-8), [GoHtml], [GoTemplate] and [HtmlEscape] (the escapers, the
    template language with its type checker, the contextual escaper of [html/template]).
    [Markup] is the reader's side: the tokenizer of a browser.

    The client, in the order a request goes through it:
    - [Adapters]: client/nethttp, chi, gin, echo, beego, adapterutil, downstream.go. What
      each middleware reads of an exchange, and the response writer it wraps.
    - [Series], [Sketch]: client/series.go, client/sketch. One series' counters, error
      classes, exemplars and its latency sketch.
    - [Recorder], [Concurrency], [Flush], [Closing]: client/maping.go and [swapShards]. The
      sharded table and the swap of a window; the races that the sequential model leaves
      out; the flushes of the sixteen shards while requests keep coming; the closed flag and
      the last flush of [Shutdown].
    - [Sampler]: client/sampler.go and the linux readers. One resource window per flush.
    - [Ring], [Uploader]: client/internal/buffer, client/uploader.go. The bounded queue of
      unsent requests and the loop that fills and drains it, up to the shutdown drain.
    - [Token], [ClientConfig], [Transport], [Codec]: proto/token, client/config.go,
      client/internal/transport, proto/mapingcompress. The key, the endpoint it may choose,
      the header that carries it and the codec of the body. [Wire]: the messages of
      proto/maping/v1.

    The collector's data plane:
    - [Ingest], [Wiring]: server/internal/ingest and [buildIngestWiring] of
      server/app/app.go. One upload through authentication, rate limit, size guards,
      timestamp policy and cardinality cap to the sinks, then a node serving a sequence of
      uploads with its caches.
    - [Guardrail]: server/internal/guardrail. Cardinality, plan limits, rate limits.
    - [Storage], [Writer], [Insert], [Lifecycle]: server/internal/storage rows and
      writer.go, what an insert writes under which columns, and [Serve] of
      server/app/app.go around the writer.
    - [Rollup], [Sql], [Query], [Scoped]: the materialized views of
      server/internal/storage/migrations/clickhouse, the SQL functions of the statements,
      every query over the stored rows, and the handle that fixes the tenant.
    - [EndToEnd]: client windows to dashboard points.

    The control plane and the dashboard:
    - [Control]: server/internal/control. The tables, every operation as statements of a
      database monad (each may fail, lose its reply, or abort its transaction), the caching
      key resolver.
    - [Auth]: server/internal/auth. Signed cookies, the OAuth flow, the session gate.
    - [Format], [Views], [Range], [Verdict], [Diagnosis], [Pages], [Chart]:
      server/internal/web, the pure part: what a page shows for the rows it is given.
    - [Dashboard], [Routes]: the handlers of server/internal/web over an abstract control
      plane, and the table of routes the theorems quantify over.
    - [Templates], [ViewData], [Render]: every page template of server/internal/web,
      server/internal/auth and server/docs, byte for byte; the Go structs the templates read;
      the pages as the chunks their execution writes. [ChartMarkup], [PageSafety] and [Links]
      put them together with the handlers and the router.
    - [App], [Server], [Boot]: server/app. The collaborators, the routed server with the
      options and routes of a composed build, and the start-up; [Tenancy] runs the routed
      server over two databases.
    - [Migrations], [Docs]: the schema migrations of both stores and server/docs.

    ** How state and effects are modelled

    A Go integer is a [Z] with its wrap-around written out ([u64], [i64], [u32] below); a
    [float64] is a primitive float; a map is a [gmap], unless its order of iteration matters,
    in which case the order is an argument and the theorem quantifies over it. A goroutine
    that shares memory is a step relation ([Concurrency.Swap], [Concurrency.InFlight],
    [Writer.step], [Lifecycle.step]) with theorems by induction on reachable states; the
    uploader's select loop is a function on events. A handler takes the state and the
    response in progress and returns both; a panic is a value of the result type. Clock
    readings, random bytes and the replies of databases and peers are inputs of the step
    that reads them, so a theorem holds for all of them.

    Code that is not under [src/] is a class or a record whose laws are named:
    [GoMath.MathLib] with [Sketch.Span] (the logarithm spans the bucket range; proved of the
    portable algorithm [go_math]), [Sql.SqlLib] (the database's pow), [Auth.MacLib]
    (HMAC-SHA256), [GoUrl.NetIP], [Control.DBLib] with [Control.DBLaws] (uuids differ,
    SHA-256 has no collisions: the usual idealisation), [Guardrail.RateLib] with
    [Guardrail.RateLaws] (the token bucket of golang.org/x/time/rate), [Insert.Driver] with
    [Insert.DriverLaws] (the conversions clickhouse-go documents), [Codec.ZstdLib] with
    [Codec.ZstdLaws] (the coder of klauspost/compress, whose decoder is dead once closed),
    [GoRunes.CaseTable] (the upper case of package unicode), and [Auth.MemberStore],
    the interface through which the login handlers use the control plane and which
    [Control.control_store] implements. Every theorem under such laws is
    applied at a concrete instance by its witness.

    ** What the theorems show

    - From request to chart: the points of a time series are the sums, the rate and the
      quantile of the requests observed ([EndToEnd]); the rollup tiers answer as the raw
      rows do ([Rollup]); sketches merge as if their samples were fed to one, and the
      server's quantile is the client's ([Sketch], [Storage]).
    - Delivery: the recorder's window is a group-by of what was observed ([Recorder]),
      and under any schedule without the known race each request is in one window, once
      ([Flush]); [Shutdown] leaves no request behind that was let in ([Closing]); no upload
      reads what another left in a pooled decoder ([Codec]); the uploader sends in order,
      reports every summary it dropped, and at a shutdown with the network up sends all it
      holds but what its full ring evicts, which it reports ([Uploader]); the first upload
      with a fresh key is stored where the recorder reports to the deployment that issued it
      ([Transport]); the batcher is a queue ([Writer]), a graceful shutdown keeps every
      accepted row ([Lifecycle]), and what a batch inserts fits its table and reads back, to
      the millisecond, as the rows that landed ([Insert]).
    - Isolation and authority: a stored row was uploaded with a key its tenant held
      ([Wiring]); a handle reads its tenant's rows only, the average size of a row apart, which
      is measured over the whole table ([Scoped]); a request reads and
      changes its session's organization only ([Routes], [App], and for any request the
      routers can be given [Server]); a visitor without a session sees the open surface only
      and every page answers at its address ([Server]); two databases that agree on the
      session's organization are the same server to it, the disk estimate apart ([Tenancy]);
      whatever fails between two statements, an organization has a founding admin, an address
      one home, and a key was issued for the organization it names ([Control]); sessions and form tokens
      that verify were issued ([Auth], [Routes]); a key resolves only through the database,
      and not longer than the cache lifetime after its revocation ([Control]).
    - Limits and errors: cardinality and rate limits enforce the plan ([Guardrail]); an
      upload accounts for each of its summaries ([Ingest]); a query answers completely or
      fails ([Scoped]); every route answers every request, and a JSON route says when it
      cannot encode its figures by an empty body ([Routes]); the server comes up
      exactly when each of its start-up steps succeeds ([Boot]); migrations follow a plan
      and may be rerun ([Migrations]).
    - Pages: on every request the assembled server can be given, the HTML page of the response
      runs to its end, and whatever the database, the session and the request hold, no data
      leaves the text or the attribute value it is printed in ([PageSafety]); the charts are
      balanced fragments ([ChartMarkup]); the link of a row, read by a browser and routed by
      the server, opens the endpoint of that row ([Links]).
    - Presentation: verdicts and diagnoses are threshold tables ([Verdict], [Diagnosis]),
      links reopen the range they show ([Range]), keys and wire forms round-trip ([Token],
      [Sketch]).

    Where the code does something else than its comments promise, a theorem states what it
    does: the races of [Concurrency], the rows lost by a late or broken shutdown and the
    pool closed under running jobs in [Lifecycle], the batch written twice in [Insert], the cookies without domain separation in [Auth], the window start that no
    policy bounds in [Insert].

    ** Bounds and termination

    Recursion follows the data: lists of rows, events, bytes or entries. The loops of the
    code that are not structural have a bound the code itself gives: the quantile walk over
    2048 buckets, the drain of the ring (its length, at most its capacity), the final insert
    of a batch ([Writer.finalFlushBatch], three attempts). A template calls another to a depth
    that is an argument of [Render.execute]; [Render.call_depth], three, is enough for
    every page (Go allows 100000), and the page theorems hold for any depth from there. [Serve]
    takes at most seven steps from listening to returned ([Lifecycle.pool_closes_under_live_jobs]).
    Step relations are unbounded.

    ** Not modelled

    Postgres and ClickHouse as engines: statements of the control plane are their effect on
    the tables, those of the data plane their result over a list of rows; identifiers are
    compared as they are printed, so another spelling of a uuid is another identifier. Rollup windows that
    are not aligned to their tier, retention (TTL), and the day tier in a zone other than
    UTC. What a composed build's own routes, jobs and factories do. What a style sheet means
    and the two scripts, which are static text of the pages; contexts of [html/template] that
    these templates do not reach; Markdown rendering, whose output is taken as a balanced
    fragment. Connect, gRPC and the generated protobuf code; patterns with a host. Two calls
    of [Shutdown] at the same time. Listening sockets, signals and TLS. The darwin and
    windows variants of the sampler. The example applications and the traffic generator. *)

From Stdlib Require Import ZArith Lia.
From stdpp Require Import base gmap sets list strings fin_maps numbers sorting.

(** ** Notation scope *)

Declare Scope go_scope.
Delimit Scope go_scope with go.
Local Open Scope Z_scope.

(** ** Fixed-width integers

    A Go integer is a [Z] in the range of its type; every operation of the model
    that can leave the range wraps explicitly. *)

Definition u64 (z : Z) : Z := z `mod` 2 ^ 64.
Definition u32 (z : Z) : Z := z `mod` 2 ^ 32.
Definition u8 (z : Z) : Z := z `mod` 2 ^ 8.
Definition i64 (z : Z) : Z := (z + 2 ^ 63) `mod` 2 ^ 64 - 2 ^ 63.
Definition i32 (z : Z) : Z := (z + 2 ^ 31) `mod` 2 ^ 32 - 2 ^ 31.

Notation "x +u y" := (u64 (x + y)) (at level 50, left associativity) : go_scope.
Notation "x -u y" := (u64 (x - y)) (at level 50, left associativity) : go_scope.

Definition is_u64 (z : Z) : Prop := 0 ≤ z < 2 ^ 64.
Definition is_i64 (z : Z) : Prop := - 2 ^ 63 ≤ z < 2 ^ 63.
Definition is_i32 (z : Z) : Prop := - 2 ^ 31 ≤ z < 2 ^ 31.

Create HintDb go.
Create Rewrite HintDb go.

Lemma u64_small z : is_u64 z → u64 z = z.
Proof. unfold is_u64, u64. intros. by apply Z.mod_small. Qed.

Lemma u64_range z : is_u64 (u64 z).
Proof. unfold is_u64, u64. apply Z.mod_pos_bound. lia. Qed.

Lemma u64_idemp z : u64 (u64 z) = u64 z.
Proof. apply u64_small, u64_range. Qed.

Lemma u64_add_l a b : u64 (u64 a + b) = u64 (a + b).
Proof. unfold u64. by rewrite Zplus_mod_idemp_l. Qed.

Lemma u64_add_r a b : u64 (a + u64 b) = u64 (a + b).
Proof. unfold u64. by rewrite Zplus_mod_idemp_r. Qed.

Lemma u64_sub_r a b : u64 (a - u64 b) = u64 (a - b).
Proof. unfold u64. by rewrite Zminus_mod_idemp_r. Qed.

Lemma u64_sub_l a b : u64 (u64 a - b) = u64 (a - b).
Proof. unfold u64. by rewrite Zminus_mod_idemp_l. Qed.

Lemma i64_small z : is_i64 z → i64 z = z.
Proof. unfold is_i64, i64. intros. rewrite Z.mod_small; lia. Qed.

Lemma i64_range z : is_i64 (i64 z).
Proof.
  unfold is_i64, i64.
  pose proof (Z.mod_pos_bound (z + 2 ^ 63) (2 ^ 64) ltac:(lia)). lia.
Qed.

Lemma i64_add_l a b : i64 (i64 a + b) = i64 (a + b).
Proof.
  unfold i64. f_equal.
  replace ((a + 2 ^ 63) `mod` 2 ^ 64 - 2 ^ 63 + b + 2 ^ 63)
    with ((a + 2 ^ 63) `mod` 2 ^ 64 + b) by lia.
  rewrite Zplus_mod_idemp_l. f_equal. lia.
Qed.

Lemma i32_small z : is_i32 z → i32 z = z.
Proof. unfold is_i32, i32. intros. rewrite Z.mod_small; lia. Qed.

Lemma i32_range z : is_i32 (i32 z).
Proof.
  unfold is_i32, i32.
  pose proof (Z.mod_pos_bound (z + 2 ^ 31) (2 ^ 32) ltac:(lia)). lia.
Qed.

#[export] Hint Resolve u64_range i64_range i32_range : go.
#[export] Hint Rewrite u64_idemp u64_add_l u64_add_r u64_sub_l u64_sub_r : go.

(** [solve_u64] closes an equation between sums of [uint64] values: both sides are
    pushed to one residue and compared as integers. *)
Ltac solve_u64 :=
  autorewrite with go; solve [ done | f_equal; lia | lia ].

(** ** Panics and errors

    [outcome] is a computation that may panic (a Go run-time panic is never an
    error value); [result] is Go's [(value, error)] pair, where exactly one side is
    meaningful in every function of the program. *)

Inductive outcome (A : Type) : Type :=
  | Ret (a : A)
  | Panic (why : string).
Arguments Ret {A} a.
Arguments Panic {A} why.

Inductive result (E A : Type) : Type :=
  | Ok (a : A)
  | Err (e : E).
Arguments Ok {E A} a.
Arguments Err {E A} e.

Definition is_ok {E A} (r : result E A) : bool :=
  match r with Ok _ => true | Err _ => false end.

Definition outcome_bind {A B} (o : outcome A) (f : A → outcome B) : outcome B :=
  match o with Ret a => f a | Panic w => Panic w end.

Definition result_bind {E A B} (r : result E A) (f : A → result E B) : result E B :=
  match r with Ok a => f a | Err e => Err e end.

Notation "'let!' x := o 'in' k" := (outcome_bind o (λ x, k))
  (at level 10, x name, o at level 100, k at level 200) : go_scope.
Notation "'let?' x := r 'in' k" := (result_bind r (λ x, k))
  (at level 10, x name, r at level 100, k at level 200) : go_scope.

(** What every result satisfies, if the computation returns at all; and that it returns one
    that does. [in_step] relates two computations: both return, related results, or both
    panic alike, which only happens if [S] holds. *)
Definition ends {A} (P : A → Prop) (o : outcome A) : Prop :=
  match o with Ret a => P a | Panic _ => True end.
Definition returns {A} (P : A → Prop) (o : outcome A) : Prop :=
  match o with Ret a => P a | Panic _ => False end.
Definition in_step {A B} (S : Prop) (R : A → B → Prop) (x : outcome A) (y : outcome B) : Prop :=
  match x, y with
  | Ret a, Ret b => R a b
  | Panic why, Panic why' => why = why' ∧ S
  | _, _ => False
  end.

Section outcomes.
Context {A B C D : Type}.

Lemma ends_bind (P : A → Prop) (Q : B → Prop) o f :
  ends P o → (∀ a, P a → ends Q (f a)) → ends Q (outcome_bind o f).
Proof. destruct o; cbn; auto. Qed.
Lemma ends_Ret (P : A → Prop) o a : ends P o → o = Ret a → P a.
Proof. by intros Ho ->. Qed.
Lemma returns_bind (P : A → Prop) (Q : B → Prop) o f :
  returns P o → (∀ a, P a → returns Q (f a)) → returns Q (outcome_bind o f).
Proof. destruct o; cbn; [auto|done]. Qed.
Lemma returns_spec (P : A → Prop) o : returns P o ↔ ∃ a, o = Ret a ∧ P a.
Proof. destruct o; cbn; naive_solver. Qed.
Lemma in_step_bind S (R : A → B → Prop) (Q : C → D → Prop) x y f g :
  in_step S R x y → (∀ a b, R a b → in_step S Q (f a) (g b)) → in_step S Q (outcome_bind x f) (outcome_bind y g).
Proof. destruct x, y; cbn; auto; done. Qed.
End outcomes.

(** ** Maps of counters

    [bump m k n] is Go's [m[k] += n] on a [map[K]uint64]: a missing key reads as
    zero, and the sum wraps. *)

Section counters.
Context `{Countable K}.
Implicit Types (m : gmap K Z) (k : K).

Definition count_at m k : Z := default 0 (m !! k).
Definition bump m k (n : Z) : gmap K Z := <[k := u64 (count_at m k + n)]> m.

Lemma bump_same m k n : bump m k n !! k = Some (u64 (count_at m k + n)).
Proof. apply lookup_insert_eq. Qed.

Lemma bump_other m k k' n : k ≠ k' → bump m k n !! k' = m !! k'.
Proof. intros. by apply lookup_insert_ne. Qed.

Lemma bump_dom m k n : dom (bump m k n) = {[k]} ∪ dom m.
Proof. apply dom_insert_L. Qed.

Lemma bump_size_le m k n : (size (bump m k n) ≤ S (size m))%nat.
Proof.
  unfold bump. destruct (m !! k) eqn:Hk.
  - rewrite map_size_insert_Some by done. lia.
  - rewrite map_size_insert_None by done. lia.
Qed.

Lemma bump_size_present m k n : is_Some (m !! k) → size (bump m k n) = size m.
Proof. intros ?. unfold bump. by rewrite map_size_insert_Some. Qed.

Lemma bump_size_absent m k n : m !! k = None → size (bump m k n) = S (size m).
Proof. intros ?. unfold bump. by rewrite map_size_insert_None. Qed.

Lemma bump_comm m k1 n1 k2 n2 :
  bump (bump m k1 n1) k2 n2 = bump (bump m k2 n2) k1 n1.
Proof.
  apply map_eq. intros k. unfold bump, count_at.
  destruct (decide (k1 = k2)) as [->|Hne].
  - rewrite !insert_insert_eq, !lookup_insert_eq. simpl.
    destruct (decide (k = k2)) as [->|];
      [rewrite !lookup_insert_eq | rewrite !lookup_insert_ne by done; done].
    f_equal. autorewrite with go. f_equal. lia.
  - rewrite !(lookup_insert_ne _ k1 k2), !(lookup_insert_ne _ k2 k1) by congruence.
    rewrite insert_insert_ne by congruence. done.
Qed.

(** Every count of the map is a [uint64]. *)
Definition counts_ok m : Prop := map_Forall (λ _ c, is_u64 c) m.

Lemma counts_ok_empty : counts_ok ∅.
Proof. apply map_Forall_empty. Qed.

Lemma bump_counts_ok m k n : counts_ok m → counts_ok (bump m k n).
Proof. intros. apply map_Forall_insert_2; [apply u64_range | done]. Qed.

Lemma count_at_range m k : counts_ok m → is_u64 (count_at m k).
Proof.
  intros Hm. unfold count_at. destruct (m !! k) eqn:Hk; simpl.
  - eapply Hm; eauto.
  - unfold is_u64; lia.
Qed.
End counters.

#[export] Hint Resolve counts_ok_empty bump_counts_ok count_at_range : go.

(** ** Lists *)

Section lists.
Context {A B : Type}.
Implicit Types l : list A.

Lemma fold_left_invariant (P : B → Prop) (f : B → A → B) l b :
  P b → (∀ b a, P b → P (f b a)) → P (fold_left f l b).
Proof. intros Hb Hf. revert b Hb. induction l; simpl; auto. Qed.

Lemma fold_left_snoc (f : B → A → B) l x b :
  fold_left f (l ++ [x]) b = f (fold_left f l b) x.
Proof. by rewrite fold_left_app. Qed.

(** Reordering the input of a fold whose steps commute does not change it: the
    justification for picking an order where Go ranges over a map. *)
Lemma fold_left_permutation (f : B → A → B) :
  (∀ b x y, f (f b x) y = f (f b y) x) →
  ∀ l1 l2, l1 ≡ₚ l2 → ∀ b, fold_left f l1 b = fold_left f l2 b.
Proof.
  intros Hc l1 l2 Hp. induction Hp; intros b; simpl; auto.
  - by rewrite Hc.
  - by rewrite IHHp1.
Qed.

Lemma sum_list_with_Z_app (f : A → Z) l1 l2 :
  foldr (λ x s, f x + s) 0 (l1 ++ l2) =
  foldr (λ x s, f x + s) 0 l1 + foldr (λ x s, f x + s) 0 l2.
Proof. induction l1; simpl; lia. Qed.
End lists.

Lemma list_alter_at {A} (f : A → A) (l : list A) i x :
  l !! i = Some x → alter f i l = <[i := f x]> l.
Proof.
  intros Hi. apply list_eq. intros j. destruct (decide (i = j)) as [->|].
  - rewrite list_lookup_alter_eq, Hi, list_lookup_insert_eq by eauto using lookup_lt_Some. done.
  - by rewrite list_lookup_alter_ne, list_lookup_insert_ne.
Qed.

(** Sum of a list of integers. *)
Definition sumZ (l : list Z) : Z := foldr Z.add 0 l.

Lemma sumZ_app l1 l2 : sumZ (l1 ++ l2) = sumZ l1 + sumZ l2.
Proof. unfold sumZ. induction l1; simpl; lia. Qed.

Lemma sumZ_perm l1 l2 : l1 ≡ₚ l2 → sumZ l1 = sumZ l2.
Proof. unfold sumZ. induction 1; simpl; lia. Qed.

Lemma sumZ_nonneg l : Forall (λ z, 0 ≤ z) l → 0 ≤ sumZ l.
Proof. unfold sumZ. induction 1; simpl; lia. Qed.

Lemma sumZ_replicate_0 n : sumZ (replicate n 0) = 0.
Proof. unfold sumZ. induction n; simpl; lia. Qed.

Lemma sumZ_zip_add l1 l2 :
  length l1 = length l2 → sumZ (zip_with Z.add l1 l2) = sumZ l1 + sumZ l2.
Proof.
  unfold sumZ. revert l2.
  induction l1; intros [|b l2] Hl; simpl in *; try lia.
  rewrite IHl1; lia.
Qed.

Lemma sumZ_alter (f : Z → Z) l i x :
  l !! i = Some x → sumZ (alter f i l) = sumZ l - x + f x.
Proof.
  unfold sumZ. revert i. induction l as [|a l IH]; intros [|i] Hi; simplify_eq/=; [lia|].
  rewrite (IH i) by done. lia.
Qed.

Lemma sumZ_insert l i x y :
  l !! i = Some x → sumZ (<[i:=y]> l) = sumZ l - x + y.
Proof. intros. rewrite list_insert_alter. by erewrite sumZ_alter. Qed.

(** ** Sums over a map

    [msum f m] adds [f k v] over the entries of [m]; the order of the entries does not
    matter. *)

Section msum.
Context `{Countable K} {V : Type}.
Implicit Types (m : gmap K V) (f g : K → V → Z).

Definition msum f m : Z := sumZ ((λ kv, f kv.1 kv.2) <$> map_to_list m).

Lemma msum_empty f : msum f ∅ = 0.
Proof. unfold msum. by rewrite map_to_list_empty. Qed.

Lemma msum_insert f m k v : m !! k = None → msum f (<[k:=v]> m) = f k v + msum f m.
Proof. intros Hk. unfold msum. by rewrite (sumZ_perm _ _ (fmap_Permutation _ _ _ (map_to_list_insert _ _ _ Hk))). Qed.

Lemma msum_ext f g m : (∀ k v, m !! k = Some v → f k v = g k v) → msum f m = msum g m.
Proof.
  intros Hfg. unfold msum. f_equal. apply list_fmap_ext. intros i [k v] Hi.
  apply Hfg, elem_of_map_to_list. by eapply list_elem_of_lookup_2.
Qed.

Lemma msum_add f g m : msum (λ k v, f k v + g k v) m = msum f m + msum g m.
Proof.
  unfold msum. generalize (map_to_list m). intros l. unfold sumZ.
  induction l as [|kv l IH]; [done|]. rewrite !fmap_cons. cbn [foldr]. lia.
Qed.

Lemma msum_const_0 m : msum (λ _ _, 0) m = 0.
Proof. unfold msum. generalize (map_to_list m). intros l. unfold sumZ.
  induction l as [|kv l IH]; [done|]. rewrite fmap_cons. cbn [foldr]. lia.
Qed.

Lemma msum_indicator m k0 :
  is_Some (m !! k0) → msum (λ k _, if decide (k = k0) then 1 else 0) m = 1.
Proof.
  intros [v Hv]. rewrite <-(insert_delete_id m k0 v Hv), msum_insert by apply lookup_delete_eq.
  rewrite decide_True by done. rewrite (msum_ext _ (λ _ _, 0)), msum_const_0; [done|].
  intros k w Hk. rewrite decide_False; [done|]. intros ->. by rewrite lookup_delete_eq in Hk.
Qed.

Lemma msum_u64 f g m :
  (∀ k v, m !! k = Some v → u64 (f k v) = u64 (g k v)) → u64 (msum f m) = u64 (msum g m).
Proof.
  intros Hfg. unfold msum.
  assert (Hl : ∀ kv, kv ∈ map_to_list m → u64 (f kv.1 kv.2) = u64 (g kv.1 kv.2)).
  { intros [k v] Hkv. by apply Hfg, elem_of_map_to_list. }
  revert Hl. generalize (map_to_list m). intros l Hl. unfold sumZ.
  induction l as [|kv l IH]; [done|]. rewrite !fmap_cons. cbn [foldr].
  rewrite <-u64_add_l, <-u64_add_r, Hl, IH by set_solver. autorewrite with go. done.
Qed.
End msum.

(** ** Stable sorting

    Go's [sort.SliceStable] with a strict order [less] returns the unique stable
    arrangement, and so does this insertion sort: an element moves left only past
    elements it is strictly [less] than. *)

Section sort.
Context {A : Type} (less : A → A → bool).

(* [x] comes after the elements already placed: it goes left past those it is less than. *)
Fixpoint insert_right (x : A) (l : list A) : list A :=
  match l with
  | [] => [x]
  | y :: l' => if less x y then x :: y :: l' else y :: insert_right x l'
  end.

Definition sort_stable (l : list A) : list A :=
  fold_left (λ acc x, insert_right x acc) l [].

Lemma insert_right_perm x l : insert_right x l ≡ₚ x :: l.
Proof.
  induction l as [|y l IH]; simpl; [done|].
  destruct (less x y); [done|]. rewrite IH. constructor.
Qed.

Lemma fold_insert_perm l acc :
  fold_left (λ acc x, insert_right x acc) l acc ≡ₚ acc ++ l.
Proof.
  revert acc. induction l as [|x l IH]; intros acc; simpl.
  - by rewrite app_nil_r.
  - rewrite IH, insert_right_perm. simpl. apply Permutation_middle.
Qed.

Lemma sort_stable_perm l : sort_stable l ≡ₚ l.
Proof. apply fold_insert_perm. Qed.

Lemma sort_stable_length l : length (sort_stable l) = length l.
Proof. by rewrite sort_stable_perm. Qed.

(** No later element is strictly [less] than an earlier one. *)
Definition in_order : list A → Prop := StronglySorted (λ x y, less y x = false).

(** [less] is asymmetric and its complement transitive on the elements that satisfy [P]:
    incomparability is an equivalence there. Go's float order needs [P] to exclude NaN. *)
Section on.
Variable P : A → Prop.
Hypothesis less_asym : ∀ x y, P x → P y → less x y = true → less y x = false.
Hypothesis nless_trans : ∀ x y z, P x → P y → P z →
  less y x = false → less z y = false → less z x = false.

Lemma insert_right_sorted_on x l : P x → Forall P l → in_order l → in_order (insert_right x l).
Proof.
  intros Hx Hl Ho. induction Ho as [|y l Ho IH Hy]; simpl; [repeat constructor|].
  apply Forall_cons in Hl as [HPy Hl]. rewrite Forall_forall in Hl.
  rewrite Forall_forall in Hy. destruct (less x y) eqn:Hxy.
  - constructor; [constructor; [done | by apply Forall_forall]|].
    constructor; [by apply less_asym|]. apply Forall_forall. intros z Hz.
    eapply (nless_trans x y z); eauto.
  - constructor; [apply IH; by apply Forall_forall|]. apply Forall_forall. intros z Hz.
    rewrite insert_right_perm in Hz. apply elem_of_cons in Hz as [->|Hz]; [done|]. auto.
Qed.

Lemma sort_stable_sorted_on l : Forall P l → in_order (sort_stable l).
Proof.
  unfold sort_stable. intros Hl.
  assert (H : ∀ acc, Forall P acc → in_order acc →
    in_order (fold_left (λ acc x, insert_right x acc) l acc)); [|apply H; constructor].
  induction Hl as [|x l Hx Hl IH]; intros acc Hacc Ho; [done|]. simpl. apply IH.
  - rewrite insert_right_perm. by constructor.
  - by apply insert_right_sorted_on.
Qed.

(** The head of the sorted list is below every element of the input. *)
Lemma sort_stable_head_on l x rest :
  Forall P l → sort_stable l = x :: rest → ∀ y, y ∈ l → less y x = false.
Proof.
  intros HP Hs y Hy. pose proof (sort_stable_sorted_on l HP) as Ho. rewrite Hs in Ho.
  inversion Ho as [|? ? _ Hx]; subst.
  assert (HPx : P x).
  { rewrite Forall_forall in HP. apply HP. rewrite <-(sort_stable_perm l), Hs. by left. }
  rewrite <-(sort_stable_perm l), Hs in Hy. apply elem_of_cons in Hy as [->|Hy].
  - destruct (less x x) eqn:E; [|done]. pose proof (less_asym _ _ HPx HPx E). congruence.
  - rewrite Forall_forall in Hx. auto.
Qed.
End on.

Hypothesis less_asym : ∀ x y, less x y = true → less y x = false.
Hypothesis nless_trans : ∀ x y z, less y x = false → less z y = false → less z x = false.

Lemma sort_stable_sorted l : in_order (sort_stable l).
Proof.
  apply (sort_stable_sorted_on (λ _, True)); [eauto | eauto | by apply Forall_true].
Qed.
End sort.

Lemma filter_nil_all {A} (P : A → Prop) `{∀ x, Decision (P x)} l : Forall (λ x, ¬ P x) l → filter P l = [].
Proof. induction 1 as [|x l Hx _ IH]; [done|]. by rewrite filter_cons_False. Qed.

(** ** The best element of a list

    [R x y]: [x] is at least as good as [y]. Among equally good elements the first wins. *)

Section best.
Context {A : Type} (R : A → A → bool).

Definition better (x : A) (acc : option A) : option A :=
  match acc with Some y => if R x y then Some x else Some y | None => Some x end.
Definition best_of (l : list A) : option A := foldr better None l.

Lemma best_of_in l x : best_of l = Some x → x ∈ l.
Proof.
  revert x. induction l as [|a l IH]; [done|]. intros x. change (better a (best_of l) = Some x → x ∈ a :: l).
  unfold better. destruct (best_of l) as [y|]; [|intros [= ->]; by left].
  destruct (R a y); intros [= ->]; [by left|right; by apply IH].
Qed.

Lemma best_of_None l : best_of l = None → l = [].
Proof.
  destruct l as [|a l]; [done|]. change (better a (best_of l) = None → a :: l = []). unfold better.
  destruct (best_of l) as [y|]; [|done]. by destruct (R a y).
Qed.

Lemma best_of_spec l x :
  (∀ a b, a ∈ l → b ∈ l → R a b = true ∨ R b a = true) →
  (∀ a b c, a ∈ l → b ∈ l → c ∈ l → R a b = true → R b c = true → R a c = true) →
  best_of l = Some x → ∀ y, y ∈ l → R x y = true.
Proof.
  revert x. induction l as [|a l IH]; intros x Htot Htr Hx y Hy; [by apply elem_of_nil in Hy|].
  assert (Hrefl : ∀ b, b ∈ a :: l → R b b = true) by (intros b Hb; by destruct (Htot b b Hb Hb)).
  change (better a (best_of l) = Some x) in Hx. unfold better in Hx. destruct (best_of l) as [b|] eqn:Eb.
  - pose proof (best_of_in _ _ Eb) as Hb.
    assert (Hall : ∀ z, z ∈ l → R b z = true).
    { apply IH; [intros ????; apply Htot; by right|intros ??????; apply Htr; by right|done]. }
    destruct (R a b) eqn:Eab; injection Hx as <-.
    + apply elem_of_cons in Hy as [->|Hy]; [apply Hrefl; by left|].
      apply (Htr a b y); [by left|by right|by right|done|by apply Hall].
    + apply elem_of_cons in Hy as [->|Hy]; [|by apply Hall].
      destruct (Htot a b); [by left|by right|congruence|done].
  - injection Hx as <-. apply best_of_None in Eb as ->.
    apply elem_of_cons in Hy as [->|Hy]; [apply Hrefl; by left|by apply elem_of_nil in Hy].
Qed.
End best.

(** ** Reachability of a step relation *)

Section reach.
Context {S : Type} (init : S → Prop) (step : S → S → Prop).

Inductive reachable : S → Prop :=
  | reach_init s : init s → reachable s
  | reach_step s s' : reachable s → step s s' → reachable s'.

Lemma reachable_invariant (I : S → Prop) :
  (∀ s, init s → I s) → (∀ s s', I s → step s s' → I s') →
  ∀ s, reachable s → I s.
Proof. intros Hi Hs s. induction 1; eauto. Qed.

Lemma reachable_rtc s s' : reachable s → rtc step s s' → reachable s'.
Proof. intros Hr. induction 1; eauto using reach_step. Qed.
End reach.

(** ** Tactics *)

(** Case on every [if] and [match] scrutinee of the goal, keeping equations. *)
Ltac case_all := repeat case_match; simplify_eq/=.

