(* ===== verification/GoFloat.v ===== *)
(** * Go's [float64]

    A [float64] is the kernel's binary64 number: arithmetic and comparison are
    IEEE 754 with rounding to nearest even, as the Go specification requires of
    a conforming implementation that does not fuse operations. This file adds what
    the program uses of the language and of its standard library on top of that:
    conversions from and to integers, [math.IsNaN], [math.Ceil], [math.Round] and
    the [strconv.FormatFloat] formats ['f'] and ['g'], all computed exactly from
    the sign, mantissa and exponent. The lemmas give the order its usual laws,
    with NaN excluded by a true comparison. *)

From Stdlib Require Import ZArith Lia Floats SpecFloat.
From stdpp Require Import base list strings pretty.
From S2P Require Import Prelude.

Local Open Scope Z_scope.

Abbreviation f64 := PrimFloat.float.

Declare Scope f64_scope.
Delimit Scope f64_scope with f64.
Notation "x <? y" := (PrimFloat.ltb x y) : f64_scope.
Notation "x <=? y" := (PrimFloat.leb x y) : f64_scope.
Notation "x >? y" := (PrimFloat.ltb y x) (only parsing) : f64_scope.
Notation "x >=? y" := (PrimFloat.leb y x) (only parsing) : f64_scope.
Notation "x + y" := (PrimFloat.add x y) : f64_scope.
Notation "x - y" := (PrimFloat.sub x y) : f64_scope.
Notation "x * y" := (PrimFloat.mul x y) : f64_scope.
Notation "x / y" := (PrimFloat.div x y) : f64_scope.

(** ** Conversions *)

(** [float64(n)] for an integer [n]: round to nearest even. *)
Definition f64_of_Z (n : Z) : f64 := SF2Prim (binary_normalize 53 1024 n 0 false).

Definition is_nan (x : f64) : bool := negb (PrimFloat.eqb x x).

(** The integer part of a finite number, toward zero; [None] for NaN and infinities. *)
Definition trunc (x : f64) : option Z :=
  match Prim2SF x with
  | S754_zero _ => Some 0
  | S754_finite s m e =>
      let a := if 0 <=? e then Z.pos m * 2 ^ e else Z.pos m / 2 ^ (- e) in
      Some (if s then - a else a)
  | _ => None
  end.

(** [int(x)]: a value that [int] cannot represent leaves the result to the
    implementation; the model takes the minimum, and no theorem depends on it. *)
Definition int_of_f64 (x : f64) : Z :=
  match trunc x with
  | Some z => if (- 2 ^ 63 <=? z) && (z <? 2 ^ 63) then z else - 2 ^ 63
  | None => - 2 ^ 63
  end.

(** [uint64(x)], with the same remark. *)
Definition uint64_of_f64 (x : f64) : Z :=
  match trunc x with
  | Some z => if (0 <=? z) && (z <? 2 ^ 64) then z else 2 ^ 63
  | None => 2 ^ 63
  end.

Lemma int_of_f64_range x : is_i64 (int_of_f64 x).
Proof.
  unfold int_of_f64, is_i64. destruct (trunc x) as [z|]; [|lia].
  destruct (_ && _) eqn:E; [|lia]. apply andb_true_iff in E as [?%Z.leb_le ?%Z.ltb_lt]. lia.
Qed.

Lemma uint64_of_f64_range x : is_u64 (uint64_of_f64 x).
Proof.
  unfold uint64_of_f64, is_u64. destruct (trunc x) as [z|]; [|lia].
  destruct (_ && _) eqn:E; [|lia]. apply andb_true_iff in E as [?%Z.leb_le ?%Z.ltb_lt]. lia.
Qed.

#[export] Hint Resolve int_of_f64_range uint64_of_f64_range : go.

(** [m * 2^e] rounded up, for a positive [m]. *)
Definition ceil_pos (m : positive) (e : Z) : Z :=
  if 0 <=? e then Z.pos m * 2 ^ e else - (- Z.pos m / 2 ^ (- e)).

(** [math.Ceil]: zeros, infinities and NaN are fixed points, and a negative number
    above -1 goes to negative zero. *)
Definition ceil (x : f64) : f64 :=
  match Prim2SF x with
  | S754_finite s m e =>
      if 0 <=? e then x
      else if s then
        let q := Z.pos m / 2 ^ (- e) in
        if q =? 0 then PrimFloat.neg_zero else f64_of_Z (- q)
      else f64_of_Z (ceil_pos m e)
  | _ => x
  end.

(** [math.Round]: to nearest, halves away from zero. *)
Definition round (x : f64) : f64 :=
  match Prim2SF x with
  | S754_finite s m e =>
      if 0 <=? e then x
      else
        let q := (2 * Z.pos m + 2 ^ (- e)) / (2 * 2 ^ (- e)) in
        if q =? 0 then (if s then PrimFloat.neg_zero else PrimFloat.zero)
        else f64_of_Z (if s then - q else q)
  | _ => x
  end.

(** ** Order

    [SFcompare] orders the finite numbers by sign, exponent and mantissa; mapping
    that key into the integers makes the laws linear arithmetic. *)

Section order.
Local Ltac sf_cases x :=
  destruct x as [[]|[]| |[] ? ?].

Local Ltac cmp_facts :=
  repeat match goal with
  | H : context [Z.compare ?a ?b] |- _ => destruct (Z.compare_spec a b)
  | |- context [Z.compare ?a ?b] => destruct (Z.compare_spec a b)
  | H : context [Pos.compare_cont Eq ?a ?b] |- _ =>
      change (Pos.compare_cont Eq a b) with (Pos.compare a b) in H;
      destruct (Pos.compare_spec a b)
  | |- context [Pos.compare_cont Eq ?a ?b] =>
      change (Pos.compare_cont Eq a b) with (Pos.compare a b);
      destruct (Pos.compare_spec a b)
  end.

Lemma SFleb_trans x y z : SFleb x y = true → SFleb y z = true → SFleb x z = true.
Proof.
  unfold SFleb, SFcompare. sf_cases x; sf_cases y; sf_cases z; intros; try discriminate; auto;
  cmp_facts; simpl in *; try discriminate; auto; exfalso; subst; lia.
Qed.

Lemma SFltb_leb_trans x y z : SFltb x y = true → SFleb y z = true → SFltb x z = true.
Proof.
  unfold SFltb, SFleb, SFcompare.
  sf_cases x; sf_cases y; sf_cases z; intros; try discriminate; auto;
  cmp_facts; simpl in *; try discriminate; auto; exfalso; subst; lia.
Qed.

Lemma SFleb_ltb_trans x y z : SFleb x y = true → SFltb y z = true → SFltb x z = true.
Proof.
  unfold SFltb, SFleb, SFcompare.
  sf_cases x; sf_cases y; sf_cases z; intros; try discriminate; auto;
  cmp_facts; simpl in *; try discriminate; auto; exfalso; subst; lia.
Qed.

Lemma SFltb_leb x y : SFltb x y = true → SFleb x y = true.
Proof.
  unfold SFltb, SFleb. destruct (SFcompare x y) as [[]|]; done.
Qed.

Lemma SFltb_nleb x y : SFltb x y = true → SFleb y x = false.
Proof.
  unfold SFltb, SFleb, SFcompare. sf_cases x; sf_cases y; intros; try discriminate; auto;
  cmp_facts; simpl in *; try discriminate; auto; exfalso; subst; lia.
Qed.

Lemma SF_total x y :
  SFeqb x x = true → SFeqb y y = true → SFleb x y = false → SFltb y x = true.
Proof.
  unfold SFeqb, SFltb, SFleb, SFcompare. sf_cases x; sf_cases y; intros; try discriminate; auto;
  cmp_facts; simpl in *; try discriminate; auto; exfalso; subst; lia.
Qed.

Lemma SFeqb_leb x y : SFeqb x y = SFleb x y && SFleb y x.
Proof.
  unfold SFeqb, SFleb, SFcompare. sf_cases x; sf_cases y; auto;
  cmp_facts; simpl in *; auto; exfalso; subst; lia.
Qed.
End order.

Local Open Scope f64_scope.

Lemma eqb_leb x y : PrimFloat.eqb x y = (x <=? y) && (y <=? x).
Proof. rewrite FloatAxioms.eqb_spec, !FloatAxioms.leb_spec. apply SFeqb_leb. Qed.

Lemma leb_trans x y z : (x <=? y) = true → (y <=? z) = true → (x <=? z) = true.
Proof. rewrite !FloatAxioms.leb_spec. apply SFleb_trans. Qed.

Lemma ltb_leb_trans x y z : (x <? y) = true → (y <=? z) = true → (x <? z) = true.
Proof. rewrite FloatAxioms.leb_spec, !FloatAxioms.ltb_spec. apply SFltb_leb_trans. Qed.

Lemma leb_ltb_trans x y z : (x <=? y) = true → (y <? z) = true → (x <? z) = true.
Proof. rewrite FloatAxioms.leb_spec, !FloatAxioms.ltb_spec. apply SFleb_ltb_trans. Qed.

Lemma ltb_leb x y : (x <? y) = true → (x <=? y) = true.
Proof. rewrite FloatAxioms.leb_spec, FloatAxioms.ltb_spec. apply SFltb_leb. Qed.

Lemma ltb_trans x y z : (x <? y) = true → (y <? z) = true → (x <? z) = true.
Proof. intros ? ?%ltb_leb. by eapply ltb_leb_trans. Qed.

Lemma ltb_nleb x y : (x <? y) = true → (y <=? x) = false.
Proof. rewrite FloatAxioms.leb_spec, FloatAxioms.ltb_spec. apply SFltb_nleb. Qed.

Lemma ltb_asym x y : (x <? y) = true → (y <? x) = false.
Proof.
  intros H. destruct (y <? x) eqn:E; [|done].
  apply ltb_nleb in H. apply ltb_leb in E. congruence.
Qed.

Lemma ltb_irrefl x : (x <? x) = false.
Proof. destruct (x <? x) eqn:E; [|done]. by rewrite (ltb_asym _ _ E) in E. Qed.

Lemma leb_total x y :
  is_nan x = false → is_nan y = false → (x <=? y) = false → (y <? x) = true.
Proof.
  unfold is_nan. rewrite !negb_false_iff, !FloatAxioms.eqb_spec, FloatAxioms.leb_spec, FloatAxioms.ltb_spec. apply SF_total.
Qed.

(** Away from NaN, a number is at most another exactly when it is not above it. *)
Lemma leb_nltb x y : is_nan x = false → is_nan y = false → (x <=? y) = negb (y <? x).
Proof.
  intros Hx Hy. destruct (x <=? y) eqn:E1, (y <? x) eqn:E2; try done.
  - apply ltb_nleb in E2. congruence.
  - by rewrite (leb_total _ _ Hx Hy E1) in E2.
Qed.

(** "Not less than" is transitive away from NaN. *)
Lemma nltb_trans x y z :
  is_nan x = false → is_nan y = false → is_nan z = false →
  (y <? x) = false → (z <? y) = false → (z <? x) = false.
Proof.
  intros Hx Hy Hz H1 H2. destruct (z <? x) eqn:E; [|done].
  destruct (x <=? y) eqn:E1; [|by rewrite (leb_total _ _ Hx Hy E1) in H1].
  destruct (y <=? z) eqn:E2; [|by rewrite (leb_total _ _ Hy Hz E2) in H2].
  pose proof (leb_trans _ _ _ E1 E2). apply ltb_nleb in E. congruence.
Qed.

(** Order facts between two literals are decided by evaluation. *)
Ltac f64_lit := vm_compute; reflexivity.

(** ** [strconv.FormatFloat] *)

Local Close Scope f64_scope.

(** [n / d] rounded to nearest even, for [d > 0] and [n >= 0]. *)
Definition div_rne (n d : Z) : Z :=
  let q := n / d in
  match Z.compare (2 * (n mod d)) d with
  | Lt => q
  | Eq => if Z.even q then q else q + 1
  | Gt => q + 1
  end.

(** The rational [m * 2^e * 10^p], as a numerator and a denominator. *)
Definition scaled (m : positive) (e p : Z) : Z * Z :=
  (Z.pos m * 2 ^ Z.max 0 e * 10 ^ Z.max 0 p, 2 ^ Z.max 0 (- e) * 10 ^ Z.max 0 (- p)).

Definition dec (z : Z) : string := pretty z.

(** A decimal numeral padded with zeros on the left to [n] digits. *)
Definition pad_zeros (n : nat) (s : string) : string :=
  String.append (String.concat "" (replicate (n - String.length s) "0")) s.

(** The numeral of [n / 10^prec]. *)
Definition fixed_digits (n : Z) (prec : nat) : string :=
  let ip := n / 10 ^ Z.of_nat prec in
  let fp := n mod 10 ^ Z.of_nat prec in
  match prec with
  | O => dec ip
  | _ => String.append (dec ip) (String.append "." (pad_zeros prec (dec fp)))
  end.

Definition sign_str (s : bool) : string := if s then "-" else "".

(** Format ['f'] with [prec] digits after the point. *)
Definition format_f (x : f64) (prec : nat) : string :=
  match Prim2SF x with
  | S754_nan => "NaN"
  | S754_infinity s => if s then "-Inf" else "+Inf"
  | S754_zero s => String.append (sign_str s) (fixed_digits 0 prec)
  | S754_finite s m e =>
      let '(n, d) := scaled m e (Z.of_nat prec) in
      String.append (sign_str s) (fixed_digits (div_rne n d) prec)
  end.

(** The decimal exponent [dp] with [10^(dp-1) <= m * 2^e < 10^dp], searched upward
    from a lower bound; 700 steps span the range of binary64. *)
Fixpoint find_dp (fuel : nat) (m : positive) (e dp : Z) : Z :=
  match fuel with
  | O => dp
  | S fuel =>
      let '(n, d) := scaled m e (- dp) in
      if n <? d then dp else find_dp fuel m e (dp + 1)
  end.

(** Drop the trailing zeros of [d], which has [nd] digits. *)
Fixpoint trim_zeros (nd : nat) (d : Z) : nat * Z :=
  match nd with
  | S (S _ as nd') => if d mod 10 =? 0 then trim_zeros nd' (d / 10) else (nd, d)
  | _ => (nd, d)
  end.

Definition exp_str (x : Z) : string :=
  String.append (if x <? 0 then "e-" else "e+") (pad_zeros 2 (dec (Z.abs x))).

(** Format ['g'] with [prec] significant digits ([prec > 0]): fixed notation unless
    the decimal exponent is below -4 or at least the number of digits. *)
Definition format_g (x : f64) (prec : nat) : string :=
  match Prim2SF x with
  | S754_nan => "NaN"
  | S754_infinity s => if s then "-Inf" else "+Inf"
  | S754_zero s => String.append (sign_str s) "0"
  | S754_finite s m e =>
      let dp0 := find_dp 700 m e (-330) in
      let '(n, d) := scaled m e (Z.of_nat prec - dp0) in
      let r := div_rne n d in
      let carry := r =? 10 ^ Z.of_nat prec in
      let dp := if carry then dp0 + 1 else dp0 in
      let '(nd, digs) := trim_zeros prec (if carry then 10 ^ (Z.of_nat prec - 1) else r) in
      let eprec :=
        if (Z.of_nat nd <? Z.of_nat prec) && (dp <=? Z.of_nat nd) then Z.of_nat nd
        else Z.of_nat prec in
      let ex := dp - 1 in
      String.append (sign_str s)
        (if (ex <? -4) || (eprec <=? ex) then
           String.append (fixed_digits digs (nd - 1)) (exp_str ex)
         else
           let decimals := Z.max 0 (Z.of_nat nd - dp) in
           fixed_digits (digs * 10 ^ Z.max 0 (dp - Z.of_nat nd)) (Z.to_nat decimals))
  end.

Example format_f_half_even : format_f 0.125 2 = "0.12"%string.
Proof. vm_compute. reflexivity. Qed.
Example format_f_rounds : format_f 2.675 2 = "2.67"%string.
Proof. vm_compute. reflexivity. Qed.
Example format_f_carry : format_f 999.96 1 = "1000.0"%string.
Proof. vm_compute. reflexivity. Qed.
Example format_g_small : format_g 0.0000123 2 = "1.2e-05"%string.
Proof. vm_compute. reflexivity. Qed.
Example format_g_frac : format_g 0.0567 2 = "0.057"%string.
Proof. vm_compute. reflexivity. Qed.
Example format_g_carry : format_g 0.999 2 = "1"%string.
Proof. vm_compute. reflexivity. Qed.
