(* ===== verification/GoTime.v ===== *)
(** * Go's [time] package

    A [time.Time] is the number of nanoseconds since the Unix epoch, unbounded (Go's
    range of about 290 billion years either way covers every value the program
    builds); a [time.Duration] is an [int64] of nanoseconds. *)

From Stdlib Require Import ZArith Lia.
From stdpp Require Import base strings.
From S2P Require Import Prelude.

Local Open Scope Z_scope.

Abbreviation Time := Z.
Abbreviation Duration := Z.

Definition Nanosecond : Duration := 1.
Definition Millisecond : Duration := 1000000.
Definition Second : Duration := 1000 * Millisecond.
Definition Minute : Duration := 60 * Second.
Definition Hour : Duration := 60 * Minute.

Definition maxDuration : Duration := 2 ^ 63 - 1.
Definition minDuration : Duration := - 2 ^ 63.

(** January 1, year 1, 00:00:00 UTC: the zero [time.Time]. *)
Definition zero_time : Time := - 62135596800 * Second.

Definition time_add (t : Time) (d : Duration) : Time := t + d.

(** [t.Sub(u)]: saturates at the extreme durations. *)
Definition time_sub (t u : Time) : Duration :=
  if t - u <? minDuration then minDuration
  else if maxDuration <? t - u then maxDuration
  else t - u.

(** Negation of a [Duration]: the minimum is its own opposite. *)
Definition dur_neg (d : Duration) : Duration := i64 (- d).

Definition time_after (t u : Time) : bool := u <? t.
Definition time_before (t u : Time) : bool := t <? u.

Definition UnixMilli (ms : Z) : Time := ms * Millisecond.
Definition to_unix_milli (t : Time) : Z := t / Millisecond.
Definition to_unix_sec (t : Time) : Z := t / Second.
Definition UnixSec (s : Z) : Time := s * Second.

Lemma time_sub_small t u : is_i64 (t - u) → time_sub t u = t - u.
Proof.
  unfold is_i64, time_sub, minDuration, maxDuration. intros.
  destruct (Z.ltb_spec (t - u) (-2 ^ 63)); [lia|].
  destruct (Z.ltb_spec (2 ^ 63 - 1) (t - u)); lia.
Qed.

Lemma time_sub_range t u : is_i64 (time_sub t u).
Proof.
  unfold is_i64, time_sub, minDuration, maxDuration.
  destruct (Z.ltb_spec (t - u) (-2 ^ 63)); [lia|].
  destruct (Z.ltb_spec (2 ^ 63 - 1) (t - u)); lia.
Qed.

Lemma to_unix_milli_UnixMilli ms : to_unix_milli (UnixMilli ms) = ms.
Proof. unfold to_unix_milli, UnixMilli. apply Z.div_mul. unfold Millisecond. lia. Qed.

Lemma to_unix_sec_UnixSec s : to_unix_sec (UnixSec s) = s.
Proof. unfold to_unix_sec, UnixSec. apply Z.div_mul. unfold Second, Millisecond. lia. Qed.

#[export] Hint Rewrite to_unix_milli_UnixMilli to_unix_sec_UnixSec : go.

(** [time.Unix(s, 0)]: the seconds since year 1 are an [int64] and wrap. *)
Definition Unix (s : Z) : Time := UnixSec (i64 (s + 62135596800) - 62135596800).

Lemma Unix_small s : is_i64 (s + 62135596800) → Unix s = UnixSec s.
Proof. intros. unfold Unix. rewrite i64_small by done. f_equal. lia. Qed.
