(* ===== verification/GoString.v ===== *)
(** * Go strings and the codecs of the standard library the program uses

    A Go string is a sequence of bytes, so [String.string] (a list of 8-bit
    characters) is the type. The file holds the functions of package [strings] in
    use, [strconv.ParseInt] in base 10 and [base64.RawURLEncoding], whose decoder
    skips line breaks and ignores the unused bits of the last character, as Go's
    does. *)

From Stdlib Require Import ZArith Lia Ascii OrderedTypeEx.
From Stdlib Require String.
From stdpp Require Import base option sets strings pretty list.
From S2P Require Import Prelude.

Local Open Scope Z_scope.

Abbreviation str_app := String.append.

Fixpoint str_concat (l : list string) : string :=
  match l with
  | [] => ""%string
  | s :: l => str_app s (str_concat l)
  end.

(** [sort.Strings]. *)
Definition sort_Strings (l : list string) : list string := sort_stable String.ltb l.

Definition bytes_of (s : string) : list ascii := String.list_ascii_of_string s.
Definition of_bytes (l : list ascii) : string := String.string_of_list_ascii l.

Lemma of_bytes_of s : of_bytes (bytes_of s) = s.
Proof. apply String.string_of_list_ascii_of_string. Qed.

Lemma bytes_of_of l : bytes_of (of_bytes l) = l.
Proof. apply String.list_ascii_of_string_of_list_ascii. Qed.

Lemma str_app_cons a s t : str_app (String.String a s) t = String.String a (str_app s t).
Proof. done. Qed.

Lemma bytes_of_app s t : bytes_of (str_app s t) = bytes_of s ++ bytes_of t.
Proof. unfold bytes_of. induction s as [|a s IH]; [done|]. rewrite str_app_cons. cbn. by rewrite IH. Qed.

Lemma of_bytes_app l k : of_bytes (l ++ k) = str_app (of_bytes l) (of_bytes k).
Proof. unfold of_bytes. induction l as [|a l IH]; [done|]. cbn. by rewrite IH, str_app_cons. Qed.

(** The code of a byte, between 0 and 255. *)
Definition byte_of (a : ascii) : Z := Z.of_N (N_of_ascii a).
Definition ascii_of (z : Z) : ascii := ascii_of_N (Z.to_N z).

Lemma byte_of_range a : 0 ≤ byte_of a < 256.
Proof. unfold byte_of. pose proof (N_ascii_bounded a). lia. Qed.

Lemma ascii_of_byte_of a : ascii_of (byte_of a) = a.
Proof. unfold ascii_of, byte_of. rewrite N2Z.id. apply ascii_N_embedding. Qed.

Lemma byte_of_ascii_of z : 0 ≤ z < 256 → byte_of (ascii_of z) = z.
Proof.
  intros. unfold ascii_of, byte_of. rewrite N_ascii_embedding by lia. lia.
Qed.

(** ** Package [strings] *)

Fixpoint hasPrefix_bytes (p s : list ascii) : bool :=
  match p, s with
  | [], _ => true
  | a :: p, b :: s => bool_decide (a = b) && hasPrefix_bytes p s
  | _, [] => false
  end.
Definition HasPrefix (s p : string) : bool := hasPrefix_bytes (bytes_of p) (bytes_of s).
Definition HasSuffix (s p : string) : bool :=
  hasPrefix_bytes (rev (bytes_of p)) (rev (bytes_of s)).

(** [s[n:]]. *)
Definition str_drop (n : nat) (s : string) : string := of_bytes (drop n (bytes_of s)).
(** [s[:n]]. *)
Definition str_take (n : nat) (s : string) : string := of_bytes (take n (bytes_of s)).

Definition TrimPrefix (s p : string) : string :=
  if HasPrefix s p then str_drop (String.length p) s else s.
Definition TrimSuffix (s p : string) : string :=
  if HasSuffix s p then str_take (String.length s - String.length p) s else s.

(** [strings.IndexByte]: [None] for -1. *)
Fixpoint index_byte (c : ascii) (l : list ascii) : option nat :=
  match l with
  | [] => None
  | a :: l => if decide (a = c) then Some O else S <$> index_byte c l
  end.
Definition IndexByte (s : string) (c : ascii) : option nat := index_byte c (bytes_of s).

(** [strings.TrimRight] with a one-byte cutset. *)
Fixpoint drop_while (f : ascii → bool) (l : list ascii) : list ascii :=
  match l with
  | [] => []
  | a :: l => if f a then drop_while f l else a :: l
  end.
Definition trim_right_bytes (f : ascii → bool) (l : list ascii) : list ascii :=
  rev (drop_while f (rev l)).
Definition TrimRight (s : string) (c : ascii) : string :=
  of_bytes (trim_right_bytes (λ a, bool_decide (a = c)) (bytes_of s)).

(** [strings.TrimSpace] on the ASCII white space; the program applies it to header and
    environment values. *)
Definition is_space (a : ascii) : bool :=
  bool_decide (byte_of a ∈ [9; 10; 11; 12; 13; 32]).
Definition TrimSpace (s : string) : string :=
  of_bytes (trim_right_bytes is_space (drop_while is_space (bytes_of s))).

(** [strings.ToLower] on ASCII. *)
Definition lower_byte (a : ascii) : ascii :=
  if (65 <=? byte_of a) && (byte_of a <=? 90) then ascii_of (byte_of a + 32) else a.
Definition ToLower (s : string) : string := of_bytes (lower_byte <$> bytes_of s).

(** [strings.Split] on a one-byte separator, and [strings.SplitN]. *)
Fixpoint split_bytes (c : ascii) (l cur : list ascii) : list (list ascii) :=
  match l with
  | [] => [rev cur]
  | a :: l => if decide (a = c) then rev cur :: split_bytes c l [] else split_bytes c l (a :: cur)
  end.
Definition Split (s : string) (c : ascii) : list string :=
  of_bytes <$> split_bytes c (bytes_of s) [].

Fixpoint splitn_bytes (n : nat) (c : ascii) (l cur : list ascii) : list (list ascii) :=
  match l with
  | [] => [rev cur]
  | a :: l' =>
      match n with
      | S (S n') =>
          if decide (a = c) then rev cur :: splitn_bytes (S n') c l' []
          else splitn_bytes n c l' (a :: cur)
      | _ => [rev cur ++ l]
      end
  end.
(** [n > 0]: at most [n] parts, the last one unsplit. *)
Definition SplitN (s : string) (c : ascii) (n : nat) : list string :=
  of_bytes <$> splitn_bytes n c (bytes_of s) [].

Fixpoint Join (l : list string) (sep : string) : string :=
  match l with
  | [] => ""%string
  | [s] => s
  | s :: l => str_app s (str_app sep (Join l sep))
  end.

(** ** [strconv] *)

Definition Itoa (z : Z) : string := pretty z.

Fixpoint digits_value (l : list ascii) (acc : Z) : option Z :=
  match l with
  | [] => Some acc
  | a :: l =>
      if (48 <=? byte_of a) && (byte_of a <=? 57)
      then digits_value l (10 * acc + (byte_of a - 48)) else None
  end.

(** [strconv.ParseInt(s, 10, 64)]: an optional sign and at least one digit; a value
    outside [int64] is an error. *)
Definition ParseInt (s : string) : option Z :=
  let '(neg, ds) :=
    match bytes_of s with
    | a :: ds => if byte_of a =? 45 then (true, ds)
                 else if byte_of a =? 43 then (false, ds) else (false, a :: ds)
    | [] => (false, [])
    end in
  match ds with
  | [] => None
  | _ => v ← digits_value ds 0;
         let v := if neg : bool then - v else v in
         if (- 2 ^ 63 <=? v) && (v <? 2 ^ 63) then Some v else None
  end.

(** ** [base64.RawURLEncoding] *)

Definition b64_char (n : Z) : ascii :=
  ascii_of (if n <? 26 then 65 + n else if n <? 52 then 97 + (n - 26)
            else if n <? 62 then 48 + (n - 52) else if n =? 62 then 45 else 95).

Definition b64_value (a : ascii) : option Z :=
  let z := byte_of a in
  if (65 <=? z) && (z <=? 90) then Some (z - 65)
  else if (97 <=? z) && (z <=? 122) then Some (z - 97 + 26)
  else if (48 <=? z) && (z <=? 57) then Some (z - 48 + 52)
  else if z =? 45 then Some 62
  else if z =? 95 then Some 63
  else None.

(** Three bytes to four sextets; one or two trailing bytes to two or three. *)
Fixpoint b64_encode_bytes (l : list Z) : list Z :=
  match l with
  | a :: b :: c :: l =>
      a / 4 :: (a mod 4) * 16 + b / 16 :: (b mod 16) * 4 + c / 64 :: c mod 64
        :: b64_encode_bytes l
  | [a; b] => [a / 4; (a mod 4) * 16 + b / 16; (b mod 16) * 4]
  | [a] => [a / 4; (a mod 4) * 16]
  | [] => []
  end.

Fixpoint b64_decode_sextets (l : list Z) : option (list Z) :=
  match l with
  | a :: b :: c :: d :: l =>
      r ← b64_decode_sextets l;
      Some (a * 4 + b / 16 :: (b mod 16) * 16 + c / 4 :: (c mod 4) * 64 + d :: r)
  | [a; b; c] => Some [a * 4 + b / 16; (b mod 16) * 16 + c / 4]
  | [a; b] => Some [a * 4 + b / 16]
  | [_] => None
  | [] => Some []
  end.

Definition is_newline (a : ascii) : bool := bool_decide (byte_of a = 10 ∨ byte_of a = 13).

Definition b64_encode (s : string) : string :=
  of_bytes (b64_char <$> b64_encode_bytes (byte_of <$> bytes_of s)).

Definition b64_decode (s : string) : option string :=
  sextets ← mapM b64_value (filter (λ a, is_newline a = false) (bytes_of s));
  raw ← b64_decode_sextets sextets;
  Some (of_bytes (ascii_of <$> raw)).

Example b64_example : b64_encode "https://x" = "aHR0cHM6Ly94"%string.
Proof. vm_compute. reflexivity. Qed.

Definition is_sextet (z : Z) : Prop := 0 ≤ z < 64.

Lemma b64_char_props n :
  is_sextet n → b64_value (b64_char n) = Some n ∧ is_newline (b64_char n) = false ∧
                b64_char n ≠ "."%char.
Proof.
  intros Hn.
  assert (H : Forall (λ n, b64_value (b64_char n) = Some n ∧ is_newline (b64_char n) = false ∧
                           b64_char n ≠ "."%char) (seqZ 0 64)).
  { repeat (constructor; [by vm_compute|]). constructor. }
  rewrite Forall_forall in H. apply H. apply elem_of_seqZ. unfold is_sextet in Hn. lia.
Qed.

(** Induction three elements at a time. *)
Lemma list_ind3 {A} (P : list A → Prop) :
  P [] → (∀ a, P [a]) → (∀ a b, P [a; b]) → (∀ a b c l, P l → P (a :: b :: c :: l)) → ∀ l, P l.
Proof.
  intros H0 H1 H2 H3. fix IH 1. intros [|a [|b [|c l]]]; [done | auto | auto |].
  apply H3, IH.
Qed.

Lemma b64_encode_sextets l :
  Forall (λ z, 0 ≤ z < 256) l → Forall is_sextet (b64_encode_bytes l).
Proof.
  induction l as [|a|a b|a b c l IH] using list_ind3; intros HF; cbn;
    rewrite ?Forall_cons in *; destruct_and?; unfold is_sextet in *;
    repeat (constructor; try (Z.to_euclidean_division_equations; lia)); auto.
Qed.

Lemma b64_sextets_roundtrip l :
  Forall (λ z, 0 ≤ z < 256) l → b64_decode_sextets (b64_encode_bytes l) = Some l.
Proof.
  induction l as [|a|a b|a b c l IH] using list_ind3; intros HF; cbn;
    rewrite ?Forall_cons in *; destruct_and?; try done.
  - do 2 f_equal. Z.to_euclidean_division_equations; lia.
  - do 2 f_equal; [|f_equal]; Z.to_euclidean_division_equations; lia.
  - rewrite IH by done. cbn. do 2 f_equal; [|f_equal; [|f_equal]];
      Z.to_euclidean_division_equations; lia.
Qed.

Lemma b64_chars_roundtrip l :
  Forall is_sextet l →
  mapM b64_value (filter (λ a, is_newline a = false) (b64_char <$> l)) = Some l.
Proof.
  induction 1 as [|n l Hn _ IH]; [done|]. destruct (b64_char_props n Hn) as (H1 & H2 & _).
  rewrite fmap_cons, filter_cons_True by done. cbn. rewrite H1. cbn. by rewrite IH.
Qed.

Lemma byte_list_range (l : list ascii) : Forall (λ z, 0 ≤ z < 256) (byte_of <$> l).
Proof. apply Forall_fmap, Forall_true. intros. apply byte_of_range. Qed.

(** Decoding undoes encoding, for every byte string. *)
Lemma b64_roundtrip s : b64_decode (b64_encode s) = Some s.
Proof.
  unfold b64_decode, b64_encode. rewrite bytes_of_of, b64_chars_roundtrip; cycle 1.
  { apply b64_encode_sextets, byte_list_range. }
  cbn. rewrite b64_sextets_roundtrip by apply byte_list_range. cbn. f_equal.
  rewrite <-list_fmap_compose. rewrite <-(of_bytes_of s) at 2. f_equal.
  rewrite <-(list_fmap_id (bytes_of s)) at 2. apply list_fmap_ext.
  intros i x _. apply ascii_of_byte_of.
Qed.

(** An encoded string never contains a dot: the separator of every token format. *)
Lemma b64_no_dot s : "."%char ∉ bytes_of (b64_encode s).
Proof.
  unfold b64_encode. rewrite bytes_of_of, list_elem_of_fmap. intros (n & Hn & Hin).
  pose proof (b64_encode_sextets _ (byte_list_range (bytes_of s))) as HF.
  rewrite Forall_forall in HF. destruct (b64_char_props n) as (_ & _ & H); [by apply HF|].
  congruence.
Qed.

(** White space does not occur in an encoding. *)
Lemma b64_no_space s : Forall (λ a, is_space a = false) (bytes_of (b64_encode s)).
Proof.
  unfold b64_encode. rewrite bytes_of_of. apply Forall_fmap.
  pose proof (b64_encode_sextets _ (byte_list_range (bytes_of s))) as HF.
  eapply Forall_impl; [exact HF|]. intros n Hn. cbn.
  assert (H : Forall (λ n, is_space (b64_char n) = false) (seqZ 0 64)).
  { repeat (constructor; [by vm_compute|]). constructor. }
  rewrite Forall_forall in H. apply H. apply elem_of_seqZ. unfold is_sextet in Hn. lia.
Qed.

(** ** Lemmas on the string functions *)

Lemma drop_while_none f l : Forall (λ a, f a = false) l → drop_while f l = l.
Proof. intros Hl. destruct Hl as [|a l Ha _]; [done|]. cbn. by rewrite Ha. Qed.

Lemma TrimSpace_none s : Forall (λ a, is_space a = false) (bytes_of s) → TrimSpace s = s.
Proof.
  intros Hs. unfold TrimSpace, trim_right_bytes. rewrite (drop_while_none _ (bytes_of s)) by done.
  rewrite drop_while_none by by apply Forall_rev. rewrite rev_involutive. apply of_bytes_of.
Qed.

Lemma str_app_assoc s t u : str_app (str_app s t) u = str_app s (str_app t u).
Proof. induction s as [|a s IH]; [done|]. rewrite !str_app_cons. by rewrite IH. Qed.

Lemma str_app_nil_r s : str_app s ""%string = s.
Proof. induction s as [|a s IH]; [done|]. rewrite str_app_cons. by rewrite IH. Qed.

Lemma length_bytes_of s : length (bytes_of s) = String.length s.
Proof. unfold bytes_of. induction s as [|a s IH]; [done|]. cbn. by rewrite IH. Qed.

Lemma hasPrefix_bytes_spec p s : hasPrefix_bytes p s = true ↔ ∃ r, s = p ++ r.
Proof.
  revert s. induction p as [|a p IH]; intros s; cbn.
  - split; [by eexists | done].
  - destruct s as [|b s]; [split; [done | by intros [r ?]]|].
    rewrite andb_true_iff, bool_decide_eq_true, IH. split.
    + intros [-> [r ->]]. by exists r.
    + intros [r Hr]. simplify_eq/=. split; [done | by exists r].
Qed.

Lemma HasPrefix_spec s p : HasPrefix s p = true ↔ ∃ r, s = str_app p r.
Proof.
  unfold HasPrefix. rewrite hasPrefix_bytes_spec. split.
  - intros [r Hr]. exists (of_bytes r). rewrite <-(of_bytes_of s), Hr, of_bytes_app.
    by rewrite of_bytes_of.
  - intros [r ->]. exists (bytes_of r). apply bytes_of_app.
Qed.

Lemma str_drop_app p s : str_drop (String.length p) (str_app p s) = s.
Proof.
  unfold str_drop. rewrite bytes_of_app, <-length_bytes_of, drop_app_length. apply of_bytes_of.
Qed.

Lemma str_take_app p s : str_take (String.length p) (str_app p s) = p.
Proof.
  unfold str_take. rewrite bytes_of_app, <-length_bytes_of, take_app_length. apply of_bytes_of.
Qed.

(** The first occurrence of a byte after a prefix without it. *)
Lemma index_byte_app c l k :
  c ∉ l → index_byte c (l ++ c :: k) = Some (length l).
Proof.
  induction l as [|a l IH]; intros Hc; cbn.
  - by rewrite decide_True.
  - rewrite decide_False by set_solver. rewrite IH by set_solver. done.
Qed.

Lemma index_byte_Some c l i :
  index_byte c l = Some i → ∃ k, drop i l = c :: k ∧ (i < length l)%nat ∧ c ∉ take i l.
Proof.
  revert i. induction l as [|a l IH]; intros i; cbn; [done|]. case_decide as Ha.
  - intros [= <-]. subst. exists l. cbn. split_and!; [done | lia | by apply not_elem_of_nil].
  - destruct (index_byte c l) as [j|]; [|done]. intros [= <-].
    destruct (IH j eq_refl) as (k & Hd & Hl & Hn). exists k. cbn.
    split; [done|]. split; [lia|]. apply not_elem_of_cons. split; [congruence | done].
Qed.

Lemma index_byte_None c l : index_byte c l = None → c ∉ l.
Proof.
  induction l as [|a l IH]; cbn; [intros _; apply not_elem_of_nil|]. case_decide; [done|].
  destruct (index_byte c l); [done|]. intros _. apply not_elem_of_cons. split; [congruence | auto].
Qed.

Lemma IndexByte_app c s t :
  c ∉ bytes_of s → IndexByte (str_app s (String.String c t)) c = Some (String.length s).
Proof.
  intros. unfold IndexByte. rewrite bytes_of_app.
  change (bytes_of (String.String c t)) with (c :: bytes_of t).
  rewrite index_byte_app by done. by rewrite length_bytes_of.
Qed.

Lemma split_bytes_none c l cur : c ∉ l → split_bytes c l cur = [rev cur ++ l].
Proof.
  revert cur. induction l as [|a l IH]; intros cur Hc; cbn; [by rewrite app_nil_r|].
  rewrite decide_False by set_solver. rewrite IH by set_solver. cbn. by rewrite <-app_assoc.
Qed.

Lemma split_bytes_app c l k cur :
  c ∉ l → split_bytes c (l ++ c :: k) cur = (rev cur ++ l) :: split_bytes c k [].
Proof.
  revert cur. induction l as [|a l IH]; intros cur Hc; cbn.
  - by rewrite decide_True, app_nil_r.
  - rewrite decide_False by set_solver. rewrite IH by set_solver. cbn. by rewrite <-app_assoc.
Qed.

Lemma split_bytes_nonnil c l cur : split_bytes c l cur ≠ [].
Proof. revert cur. induction l as [|a l IH]; intros cur; cbn; [done|]. by case_decide. Qed.

Lemma Join_cons s l sep : l ≠ [] → Join (s :: l) sep = str_app s (str_app sep (Join l sep)).
Proof. by destruct l. Qed.

Lemma Join_split_bytes c l cur :
  Join (of_bytes <$> split_bytes c l cur) (of_bytes [c]) = of_bytes (rev cur ++ l).
Proof.
  revert cur. induction l as [|a l IH]; intros cur; [by rewrite app_nil_r|].
  cbn [split_bytes]. case_decide as Ha.
  - subst a. rewrite fmap_cons, Join_cons, IH, <-!of_bytes_app; [done|].
    intros Hn%fmap_nil_inv. by apply split_bytes_nonnil in Hn.
  - rewrite IH. cbn [rev]. by rewrite <-app_assoc.
Qed.

Lemma Join_Split s c : Join (Split s c) (of_bytes [c]) = s.
Proof. unfold Split. rewrite Join_split_bytes. apply of_bytes_of. Qed.

(** ** Decimal numerals *)

Definition is_digit (a : ascii) : Prop := 48 ≤ byte_of a ≤ 57.

Lemma digit_char x : (x < 10)%N → byte_of (pretty_N_char x) = 48 + Z.of_N x.
Proof.
  intros. assert (x = 0 ∨ x = 1 ∨ x = 2 ∨ x = 3 ∨ x = 4 ∨ x = 5 ∨ x = 6 ∨ x = 7 ∨ x = 8 ∨ x = 9)%N
    as Hx by lia.
  by destruct_or? Hx; subst.
Qed.

Lemma digits_value_char x l acc :
  (x < 10)%N → digits_value (pretty_N_char x :: l) acc = digits_value l (10 * acc + Z.of_N x).
Proof.
  intros Hx. cbn. rewrite digit_char by done.
  destruct (Z.leb_spec 48 (48 + Z.of_N x)); [|lia].
  destruct (Z.leb_spec (48 + Z.of_N x) 57); [|lia]. cbn. f_equal. lia.
Qed.

Lemma pretty_go_digits x s :
  Forall is_digit (bytes_of s) → Forall is_digit (bytes_of (pretty_N_go x s)).
Proof.
  revert s. induction (N.lt_wf_0 x) as [x _ IH]; intros s Hs.
  destruct (decide (x = 0)%N) as [->|Hx]; [by rewrite pretty_N_go_0|].
  rewrite pretty_N_go_step by lia. apply IH; [apply N.div_lt; lia|].
  change (bytes_of (String.String ?a s)) with (a :: bytes_of s). constructor; [|done].
  assert (Hm : (x `mod` 10 < 10)%N) by (apply N.mod_lt; lia).
  unfold is_digit. rewrite digit_char by done. revert Hm. generalize (x `mod` 10)%N. lia.
Qed.

Lemma pretty_go_value x s :
  ∃ k, ∀ acc, digits_value (bytes_of (pretty_N_go x s)) acc =
              digits_value (bytes_of s) (acc * 10 ^ Z.of_nat k + Z.of_N x).
Proof.
  revert s. induction (N.lt_wf_0 x) as [x _ IH]; intros s.
  destruct (decide (x = 0)%N) as [->|Hx].
  { exists 0%nat. intros acc. rewrite pretty_N_go_0. f_equal. lia. }
  rewrite pretty_N_go_step by lia.
  assert (Hm : (x `mod` 10 < 10)%N) by (apply N.mod_lt; lia).
  destruct (IH (x `div` 10)%N ltac:(apply N.div_lt; lia)
              (String.String (pretty_N_char (x `mod` 10)) s)) as [k Hk].
  exists (S k). intros acc. rewrite Hk.
  change (bytes_of (String.String ?a s)) with (a :: bytes_of s).
  rewrite digits_value_char by done. f_equal.
  rewrite Nat2Z.inj_succ, Z.pow_succ_r by lia. rewrite N2Z.inj_div, N2Z.inj_mod.
  pose proof (Z.div_mod (Z.of_N x) 10 ltac:(lia)). lia.
Qed.

Lemma pretty_N_value (n : N) : digits_value (bytes_of (pretty n)) 0 = Some (Z.of_N n).
Proof.
  unfold pretty, pretty_N. case_decide as H; [by subst|].
  destruct (pretty_go_value n "") as [k Hk]. by rewrite Hk.
Qed.

Lemma pretty_N_digits (n : N) :
  Forall is_digit (bytes_of (pretty n)) ∧ bytes_of (pretty n) ≠ [].
Proof.
  split.
  - unfold pretty, pretty_N. case_decide; [|by apply pretty_go_digits].
    repeat constructor; vm_compute; done.
  - intros Hn. pose proof (pretty_N_value n) as Hv. rewrite Hn in Hv. cbn in Hv.
    injection Hv as Hv. assert (n = 0%N) as -> by lia. done.
Qed.

(** [ParseInt] reads back what [Itoa] writes. *)
Lemma ParseInt_Itoa z : is_i64 z → ParseInt (Itoa z) = Some z.
Proof.
  intros Hz. unfold is_i64 in Hz.
  assert (Hgen : ∀ (n : N) neg, Z.of_N n = Z.abs z → (neg = true ↔ z < 0) →
    (v ← digits_value (bytes_of (pretty n)) 0;
     let v := if neg : bool then - v else v in
     if (- 2 ^ 63 <=? v) && (v <? 2 ^ 63) then Some v else None) = Some z).
  { intros n neg Hn Hneg. rewrite pretty_N_value. cbn.
    assert ((if neg then - Z.of_N n else Z.of_N n) = z) as ->.
    { destruct neg; [assert (z < 0) by (by apply Hneg); lia|].
      assert (¬ z < 0) by (intros ?%Hneg; done). lia. }
    destruct (Z.leb_spec (-2 ^ 63) z); [|lia]. by destruct (Z.ltb_spec z (2 ^ 63)); [|lia]. }
  unfold ParseInt, Itoa. destruct (decide (z < 0)) as [Hneg|Hpos].
  - destruct z as [|p|p]; try lia.
    change (bytes_of (pretty (Z.neg p))) with ("-"%char :: bytes_of (pretty (N.pos p))).
    cbn [byte_of]. change (byte_of "-"%char =? 45) with true. cbn iota beta.
    destruct (pretty_N_digits (N.pos p)) as [_ Hne].
    destruct (bytes_of (pretty (N.pos p))) as [|a l] eqn:E; [done|].
    rewrite <-E. apply (Hgen (N.pos p) true); [done | split; [lia | done]].
  - assert (Hb : bytes_of (pretty z) = bytes_of (pretty (Z.to_N z))) by (destruct z; [done|done|lia]).
    rewrite Hb. destruct (pretty_N_digits (Z.to_N z)) as [Hd Hne].
    destruct (bytes_of (pretty (Z.to_N z))) as [|a l] eqn:E; [done|].
    inversion Hd as [|? ? Ha _]; subst. unfold is_digit in Ha.
    destruct (Z.eqb_spec (byte_of a) 45); [lia|]. destruct (Z.eqb_spec (byte_of a) 43); [lia|].
    rewrite <-E. apply (Hgen (Z.to_N z) false); [lia | split; [done | lia]].
Qed.

(** A numeral holds digits and possibly a minus sign, nothing else. *)
Lemma Itoa_bytes z a : a ∈ bytes_of (Itoa z) → a = "-"%char ∨ is_digit a.
Proof.
  unfold Itoa. intros Ha. destruct z as [|p|p].
  - right. apply list_elem_of_singleton in Ha as ->. vm_compute. done.
  - right. destruct (pretty_N_digits (N.pos p)) as [Hd _]. rewrite Forall_forall in Hd. by apply Hd.
  - change (bytes_of (pretty (Z.neg p))) with ("-"%char :: bytes_of (pretty (N.pos p))) in Ha.
    apply elem_of_cons in Ha as [->|Ha]; [by left|]. right.
    destruct (pretty_N_digits (N.pos p)) as [Hd _]. rewrite Forall_forall in Hd. by apply Hd.
Qed.

(** [strings.Split] undoes [strings.Join] on parts without the separator. *)
Lemma split_bytes_Join c (l : list string) cur s :
  Forall (λ s, c ∉ bytes_of s) (s :: l) →
  split_bytes c (bytes_of (Join (s :: l) (of_bytes [c]))) cur = (rev cur ++ bytes_of s) :: (bytes_of <$> l).
Proof.
  revert s cur. induction l as [|s' l IH]; intros s cur Hl; inversion_clear Hl as [|?? Hs Hl'].
  - cbn. by rewrite split_bytes_none.
  - rewrite Join_cons by done. rewrite !bytes_of_app, bytes_of_of. cbn [app].
    rewrite split_bytes_app by done. by rewrite IH.
Qed.

Lemma Split_Join c (l : list string) :
  l ≠ [] → Forall (λ s, c ∉ bytes_of s) l → Split (Join l (of_bytes [c])) c = l.
Proof.
  intros Hne Hl. destruct l as [|s l]; [done|]. unfold Split. rewrite split_bytes_Join by done. cbn.
  rewrite of_bytes_of. f_equal. rewrite <-list_fmap_compose. rewrite <-(list_fmap_id l) at 2.
  apply list_fmap_ext. intros ? ? ?. apply of_bytes_of.
Qed.

(** ** Byte order *)

Lemma ltb_lt s t : String.ltb s t = true ↔ String_as_OT.lt s t.
Proof.
  unfold String.ltb. rewrite <-String_as_OT.cmp_lt. unfold String_as_OT.cmp.
  destruct (String.compare s t); naive_solver.
Qed.

Lemma str_ltb_trans s t u : String.ltb s t = true → String.ltb t u = true → String.ltb s u = true.
Proof. rewrite !ltb_lt. apply String_as_OT.lt_trans. Qed.

Lemma str_ltb_irrefl s : String.ltb s s = false.
Proof.
  destruct (String.ltb s s) eqn:E; [|done]. apply ltb_lt, String_as_OT.lt_not_eq in E. done.
Qed.

Lemma str_ltb_asym s t : String.ltb s t = true → String.ltb t s = false.
Proof.
  intros H1. destruct (String.ltb t s) eqn:H2; [|done].
  pose proof (str_ltb_trans _ _ _ H1 H2) as H. by rewrite str_ltb_irrefl in H.
Qed.

Lemma str_ltb_total s t : String.ltb s t = false → String.ltb t s = false → s = t.
Proof.
  unfold String.ltb. rewrite (String.compare_antisym s t).
  destruct (String.compare t s) eqn:E; simpl; try done. intros _ _.
  symmetry. by apply String.compare_eq_iff.
Qed.

Lemma str_nltb_trans s t u :
  String.ltb t s = false → String.ltb u t = false → String.ltb u s = false.
Proof.
  intros H1 H2. destruct (String.ltb u s) eqn:E; [|done].
  destruct (String.ltb s t) eqn:E1.
  - by rewrite (str_ltb_trans _ _ _ E E1) in H2.
  - rewrite (str_ltb_total _ _ E1 H1) in E. congruence.
Qed.
