(* ===== verification/GoDate.v ===== *)
(** * Calendar dates and the [time.Format] layouts of the dashboard

    The Gregorian civil date of an instant in UTC, and the four layouts the web layer
    uses: ["15:04:05"], ["2006-01-02"], ["2006-01-02 15:04:05 UTC"] and ["Jan 2 15:04"]. *)

From Stdlib Require Import ZArith Lia.
From Stdlib Require String.
From stdpp Require Import base strings list list_numbers.
From S2P Require Import Prelude GoFloat GoTime GoString.

Local Open Scope Z_scope.
Local Infix "+++" := String.append (at level 60, right associativity).

(** Days since 1970-01-01 to (year, month, day). The year of the computation starts in
    March, so that the leap day is its last. *)
Definition civil (days : Z) : Z * Z * Z :=
  let z := days + 719468 in
  let era := z / 146097 in
  let doe := z mod 146097 in
  let yoe := (doe - doe / 1460 + doe / 36524 - doe / 146096) / 365 in
  let doy := doe - (365 * yoe + yoe / 4 - yoe / 100) in
  let mp := (5 * doy + 2) / 153 in
  let d := doy - (153 * mp + 2) / 5 + 1 in
  let m := if mp <? 10 then mp + 3 else mp - 9 in
  (yoe + era * 400 + (if m <=? 2 then 1 else 0), m, d).

(** The inverse computation. *)
Definition days_of_civil (y m d : Z) : Z :=
  let y := if m <=? 2 then y - 1 else y in
  let mp := if 2 <? m then m - 3 else m + 9 in
  let yoe := y mod 400 in
  let doy := (153 * mp + 2) / 5 + d - 1 in
  y / 400 * 146097 + (yoe * 365 + yoe / 4 - yoe / 100 + doy) - 719468.

Definition two_digits (n : Z) : string := pad_zeros 2 (dec n).
Definition four_digits (n : Z) : string :=
  if n <? 0 then "-" +++ pad_zeros 4 (dec (- n)) else pad_zeros 4 (dec n).

Definition date_parts (t : Time) : Z * Z * Z := civil (to_unix_sec t / 86400).

(** ["15:04:05"] and ["15:04"]. *)
Definition format_hm (t : Time) : string :=
  let s := to_unix_sec t mod 86400 in two_digits (s / 3600) +++ ":" +++ two_digits (s / 60 mod 60).
Definition format_hms (t : Time) : string :=
  format_hm t +++ ":" +++ two_digits (to_unix_sec t mod 60).

(** ["2006-01-02"]. *)
Definition format_date (t : Time) : string :=
  let '(y, m, d) := date_parts t in four_digits y +++ "-" +++ two_digits m +++ "-" +++ two_digits d.

Definition month_names : list string :=
  ["Jan"; "Feb"; "Mar"; "Apr"; "May"; "Jun"; "Jul"; "Aug"; "Sep"; "Oct"; "Nov"; "Dec"].

(** ["Jan 2 15:04"]. *)
Definition format_short (t : Time) : string :=
  let '(_, m, d) := date_parts t in
  nth (Z.to_nat (m - 1)) month_names "" +++ " " +++ dec d +++ " " +++ format_hm t.

Example civil_epoch : civil 0 = (1970, 1, 1). Proof. reflexivity. Qed.
Example civil_leap : civil 11016 = (2000, 2, 29). Proof. reflexivity. Qed.
Example civil_roundtrip :
  forallb (λ n, let '(y, m, d) := civil n in days_of_civil y m d =? n) (seqZ 10900 800) = true.
Proof. vm_compute. reflexivity. Qed.
Example formats :
  let t := UnixSec 1751328305 in
  (format_date t, format_hms t, format_short t) = ("2025-07-01", "00:05:05", "Jul 1 00:05")%string.
Proof. vm_compute. reflexivity. Qed.
