(* ===== verification/GoMath.v ===== *)
(** * Go's [math.Log] and [math.Pow]

    The sketch uses two functions of Go's standard library whose last bit depends
    on the platform. They are a class [MathLib], and every definition that uses them
    takes the class as an argument. [go_math] is the instance for evaluation: the
    portable algorithms of the standard library ([math/log.go], [math/pow.go] for an
    integral exponent), in plain binary64 operations. *)

From Stdlib Require Import ZArith Lia Floats SpecFloat.
From stdpp Require Import base.
From S2P Require Import Prelude GoFloat.

Local Open Scope Z_scope.

Class MathLib := {
  math_log : f64 → f64;
  math_pow : f64 → f64 → f64;
}.

(** [math.Frexp] and [math.Ldexp] on finite numbers. *)
Definition frexp (x : f64) : f64 * Z := Z.frexp x.
Definition ldexp (x : f64) (e : Z) : f64 := Z.ldexp x e.

Section portable.
Local Open Scope float_scope.

Definition go_log (x : f64) : f64 :=
  if is_nan x || (x =? infinity) then x
  else if x <? 0 then nan
  else if x =? 0 then neg_infinity
  else
    let '(f1, ki) := frexp x in
    let '(f1, ki) := if f1 <? 0x1.6a09e667f3bcdp-1 then (f1 * 2, (ki - 1)%Z) else (f1, ki) in
    let f := f1 - 1 in
    let k := f64_of_Z ki in
    let s := f / (2 + f) in
    let s2 := s * s in
    let s4 := s2 * s2 in
    let t1 := s2 * (6.666666666666735130e-01 + s4 * (2.857142874366239149e-01 +
              s4 * (1.818357216161805012e-01 + s4 * 1.479819860511658591e-01))) in
    let t2 := s4 * (3.999999999940941908e-01 + s4 * (2.222219843214978396e-01 +
              s4 * 1.531383769920937332e-01)) in
    let r := t1 + t2 in
    let hfsq := 0.5 * f * f in
    k * 6.93147180369123816490e-01 -
      ((hfsq - (s * (hfsq + r) + k * 1.90821492927058770002e-10)) - f).

(** The squaring loop of [math.Pow] on an integral exponent [yi > 0]. *)
Fixpoint pow_loop (yi : positive) (a1 : f64) (ae : Z) (x1 : f64) (xe : Z) : f64 * Z :=
  let step a1 ae :=
    let x1' := x1 * x1 in
    let xe' := (2 * xe)%Z in
    if x1' <? 0.5 then (a1, ae, x1' + x1', (xe' - 1)%Z) else (a1, ae, x1', xe') in
  match yi with
  | xH => (a1 * x1, (ae + xe)%Z)
  | xO p => let '(a1, ae, x1, xe) := step a1 ae in pow_loop p a1 ae x1 xe
  | xI p => let '(a1, ae, x1, xe) := step (a1 * x1) (ae + xe)%Z in pow_loop p a1 ae x1 xe
  end.

(** [math.Pow] for a base above zero and a finite integral exponent: the only use
    the program makes of it. Elsewhere the result is NaN. *)
Definition go_pow (x y : f64) : f64 :=
  match trunc y with
  | None => nan
  | Some 0%Z => 1
  | Some 1%Z => x
  | Some n =>
      let '(x1, xe) := frexp x in
      let '(a1, ae) := pow_loop (Z.to_pos (Z.abs n)) 1 0 x1 xe in
      if (n <? 0)%Z then ldexp (1 / a1) (- ae) else ldexp a1 ae
  end.
End portable.

Definition go_math : MathLib := {| math_log := go_log; math_pow := go_pow |}.
