(* ===== verification/GoUrl.v ===== *)
(** * [net/url.Parse]

    The parts of Go's URL parser whose outcome the program reads: whether parsing fails,
    the scheme and the host (with [Hostname]). Paths, queries and fragments are only
    checked for the escapes that make [Parse] fail. Whether a bracketed host is an IPv6
    literal is decided by [net/netip], a parameter here. *)

From Stdlib Require Import ZArith Lia Ascii.
From stdpp Require Import base option sets strings list.
From S2P Require Import Prelude GoString.

Local Open Scope Z_scope.

(** [netip.ParseAddr] succeeds on an address that is not IPv4. *)
Class NetIP := { ipv6_literal : list ascii → bool }.

Record URL := mkURL { Scheme : string; Host : string; OpaqueURL : bool }.

Definition is_ctl (a : ascii) : bool := (byte_of a <? 32) || (byte_of a =? 127).
Definition is_alpha (a : ascii) : bool :=
  ((65 <=? byte_of a) && (byte_of a <=? 90)) || ((97 <=? byte_of a) && (byte_of a <=? 122)).
Definition is_num (a : ascii) : bool := (48 <=? byte_of a) && (byte_of a <=? 57).
Definition is_hex (a : ascii) : bool :=
  is_num a || ((65 <=? byte_of a) && (byte_of a <=? 70)) || ((97 <=? byte_of a) && (byte_of a <=? 102)).
Definition unhex (a : ascii) : Z :=
  if is_num a then byte_of a - 48
  else if 97 <=? byte_of a then byte_of a - 97 + 10 else byte_of a - 65 + 10.

Definition one_of (s : string) (a : ascii) : bool := existsb (Ascii.eqb a) (bytes_of s).
Definition quote_char : ascii := ascii_of 34.

(** [shouldEscape] of a byte in a host. *)
Definition host_byte_ok (a : ascii) : bool :=
  is_alpha a || is_num a || one_of "!$&'()*+,;=:[]<>-_.~" a || Ascii.eqb a quote_char.

Inductive encoding := encodeHost | encodeZone | encodeOther.

(** [unescape]: [None] on an invalid escape or an invalid host byte. *)
Fixpoint unescape (mode : encoding) (s : list ascii) : option (list ascii) :=
  match s with
  | [] => Some []
  | "%"%char :: s =>
      match s with
      | h :: l :: s =>
          let v := 16 * unhex h + unhex l in
          if negb (is_hex h && is_hex l) then None
          else if match mode with
                  | encodeHost => (unhex h <? 8) && negb (v =? 37)
                  | encodeZone => negb (v =? 37) && negb (v =? 32) && negb (host_byte_ok (ascii_of v))
                  | encodeOther => false
                  end then None
          else cons (ascii_of v) <$> unescape mode s
      | _ => None
      end
  | a :: s =>
      if match mode with
         | encodeOther => false
         | _ => (byte_of a <? 128) && negb (host_byte_ok a)
         end then None
      else cons a <$> unescape mode s
  end.

(** The last occurrence of a byte. *)
Definition last_index (c : ascii) (l : list ascii) : option nat :=
  match index_byte c (rev l) with Some i => Some (length l - S i)%nat | None => None end.

Definition validOptionalPort (port : list ascii) : bool :=
  match port with
  | [] => true
  | c :: ds => Ascii.eqb c ":" && forallb is_num ds
  end.

Definition validUserinfo (s : list ascii) : bool :=
  forallb (λ a, is_alpha a || is_num a || one_of "-._:~!$&'()*+,;=%@" a) s.

(** [strings.Cut] at the first [c]. *)
Definition cut (c : ascii) (l : list ascii) : list ascii * list ascii :=
  match index_byte c l with
  | Some i => (take i l, drop (S i) l)
  | None => (l, [])
  end.

(** The index of the substring [%25]. *)
Fixpoint zone_index (l : list ascii) : option nat :=
  match l with
  | [] => None
  | a :: l' => if hasPrefix_bytes (bytes_of "%25") l then Some 0%nat else S <$> zone_index l'
  end.

Section parse.
Context `{NetIP}.

Definition parseHost (host : list ascii) : option (list ascii) :=
  match last_index "[" host with
  | Some (S _) => None
  | Some O =>
      match last_index "]" host with
      | None => None
      | Some close =>
          let colonPort := drop (S close) host in
          let hostname := drop 1 (take close host) in
          if negb (validOptionalPort colonPort) then None
          else
            port ← unescape encodeHost colonPort;
            name ← match zone_index hostname with
                   | Some z =>
                       h ← unescape encodeHost (take z hostname);
                       zone ← unescape encodeZone (drop z hostname);
                       Some (h ++ zone)
                   | None => unescape encodeHost hostname
                   end;
            if ipv6_literal name then Some ("["%char :: name ++ "]"%char :: port) else None
      end
  | None =>
      match index_byte ":" host with
      | Some i => if validOptionalPort (drop i host) then unescape encodeHost host else None
      | None => unescape encodeHost host
      end
  end.

(** The host of the authority; the user information is checked and dropped. *)
Definition parseAuthority (authority : list ascii) : option (list ascii) :=
  match last_index "@" authority with
  | None => parseHost authority
  | Some i =>
      host ← parseHost (drop (S i) authority);
      let userinfo := take i authority in
      if negb (validUserinfo userinfo) then None
      else
        let '(u, p) := cut ":" userinfo in
        _ ← unescape encodeOther u; _ ← unescape encodeOther p; Some host
  end.

(** [getScheme]: [None] is the missing-scheme error, [Some ([], s)] no scheme. *)
Fixpoint getScheme_from (i : nat) (seen s : list ascii) (raw : list ascii)
  : option (list ascii * list ascii) :=
  match s with
  | [] => Some ([], raw)
  | c :: s' =>
      if is_alpha c then getScheme_from (S i) (c :: seen) s' raw
      else if is_num c || one_of "+-." c then
        match i with O => Some ([], raw) | S _ => getScheme_from (S i) (c :: seen) s' raw end
      else if Ascii.eqb c ":" then
        match i with O => None | S _ => Some (rev seen, s') end
      else Some ([], raw)
  end.
Definition getScheme (raw : list ascii) : option (list ascii * list ascii) :=
  getScheme_from 0 [] raw raw.

(** [parse], after the fragment is cut off. *)
Definition parse_url (raw : list ascii) : option URL :=
  if existsb is_ctl raw then None
  else if bool_decide (raw = bytes_of "*") then Some (mkURL "" "" false)
  else
    sr ← getScheme raw;
    let '(scheme, rest) := sr in
    let scheme := of_bytes (lower_byte <$> scheme) in
    let rest := (cut "?" rest).1 in
    let has_scheme := negb (bool_decide (scheme = ""%string)) in
    if negb (hasPrefix_bytes (bytes_of "/") rest) && has_scheme then Some (mkURL scheme "" true)
    else if negb (hasPrefix_bytes (bytes_of "/") rest)
              && existsb (Ascii.eqb ":") (cut "/" rest).1 then None
    else if (has_scheme || negb (hasPrefix_bytes (bytes_of "///") rest))
              && hasPrefix_bytes (bytes_of "//") rest then
      let authority := drop 2 rest in
      let '(auth, path) := match index_byte "/" authority with
                           | Some i => (take i authority, drop i authority)
                           | None => (authority, [])
                           end in
      host ← parseAuthority auth;
      _ ← unescape encodeOther path;
      Some (mkURL scheme (of_bytes host) false)
    else
      _ ← unescape encodeOther rest;
      Some (mkURL scheme "" false).

Definition Parse (rawURL : string) : option URL :=
  let '(u, frag) := cut "#" (bytes_of rawURL) in
  url ← parse_url u;
  _ ← unescape encodeOther frag;
  Some url.
End parse.

(** [u.Hostname()]: the host without its port and brackets. *)
Definition Hostname (u : URL) : string :=
  let host := bytes_of (Host u) in
  let host := match last_index ":" host with
              | Some i => if validOptionalPort (drop i host) then take i host else host
              | None => host
              end in
  if hasPrefix_bytes (bytes_of "[") host && bool_decide (last host = Some "]"%char)
  then of_bytes (drop 1 (take (length host - 1) host)) else of_bytes host.

(** No bracketed host is a literal: enough for the examples. *)
Definition no_ipv6 : NetIP := {| ipv6_literal _ := false |}.

Example parse_1 :
  (λ u, (Scheme u, Host u, Hostname u)) <$> @Parse no_ipv6 "HTTPS://u:p@www.mapi-ng.com:8443/a?b#c" =
  Some ("https", "www.mapi-ng.com:8443", "www.mapi-ng.com")%string.
Proof. vm_compute. done. Qed.
Example parse_2 : @Parse no_ipv6 "://bad" = None ∧ @Parse no_ipv6 "http://a:b:c/" = None.
Proof. vm_compute. done. Qed.
Example parse_3 :
  (λ u, (Scheme u, Host u)) <$> @Parse no_ipv6 "//evil.com/x" = Some ("", "evil.com")%string.
Proof. vm_compute. done. Qed.

(** ** Rooted paths *)

Section rooted.
Context `{NetIP}.

Lemma unescape_no_percent l : "%"%char ∉ l → unescape encodeOther l = Some l.
Proof.
  induction l as [|a l IH]; intros Hl; [done|]. apply not_elem_of_cons in Hl as [Ha Hl].
  assert (unescape encodeOther (a :: l) = cons a <$> unescape encodeOther l) as ->.
  { destruct a as [[] [] [] [] [] [] [] []]; done. }
  by rewrite IH.
Qed.

Lemma cut_none c l : c ∉ l → cut c l = (l, []).
Proof.
  intros Hl. unfold cut. destruct (index_byte c l) as [i|] eqn:E; [|done].
  apply index_byte_Some in E as (k & Hd & _). destruct Hl. rewrite <-(take_drop i l), Hd. set_solver.
Qed.

Lemma cut_fst_subset c l a : a ∈ (cut c l).1 → a ∈ l.
Proof.
  unfold cut. destruct (index_byte c l) as [i|]; [|done]. cbn. intros Ha.
  rewrite <-(take_drop i l). set_solver.
Qed.

Lemma getScheme_rooted l : getScheme ("/"%char :: l) = Some ([], "/"%char :: l).
Proof. reflexivity. Qed.

(** A path with one leading slash, no control byte, no escape and no fragment is parsed
    as a relative reference. *)
Lemma Parse_rooted b l :
  b ≠ "/"%char → Forall (λ a, is_ctl a = false ∧ a ≠ "%"%char ∧ a ≠ "#"%char) (b :: l) →
  Parse (of_bytes ("/"%char :: b :: l)) = Some (mkURL "" "" false).
Proof.
  intros Hb Hl. unfold Parse. rewrite bytes_of_of.
  assert (Hf : "#"%char ∉ "/"%char :: b :: l).
  { rewrite elem_of_cons. intros [|Hin]; [done|]. rewrite Forall_forall in Hl. naive_solver. }
  rewrite cut_none by done. unfold parse_url.
  replace (existsb is_ctl ("/"%char :: b :: l)) with false; last first.
  { symmetry. apply not_true_iff_false. intros (a & Ha & Hc)%existsb_exists.
    apply list_elem_of_In in Ha. apply elem_of_cons in Ha as [->|Ha]; [done|].
    rewrite Forall_forall in Hl. destruct (Hl a Ha). congruence. }
  rewrite bool_decide_eq_false_2 by done. rewrite getScheme_rooted. cbn [mbind option_bind].
  change (of_bytes (lower_byte <$> [])) with ""%string.
  rewrite (bool_decide_eq_true_2 (""%string = ""%string)) by done. cbn [negb].
  assert (Hcut : ∃ k, (cut "?" ("/"%char :: b :: l)).1 = "/"%char :: k ∧ hasPrefix_bytes (bytes_of "/") k = false ∧
                      "%"%char ∉ k).
  { unfold cut.
    change (index_byte "?" ("/"%char :: b :: l)) with (S <$> index_byte "?" (b :: l)).
    destruct (index_byte "?" (b :: l)) as [i|].
    - exists (take i (b :: l)). split; [done|]. split.
      + destruct i as [|i]; [done|]. cbn. by rewrite bool_decide_eq_false_2.
      + intros Hin. pose proof (Forall_take _ i _ Hl) as Ht. rewrite Forall_forall in Ht. naive_solver.
    - exists (b :: l). split; [done|]. split; [cbn; by rewrite bool_decide_eq_false_2|].
      intros Hin. rewrite Forall_forall in Hl. naive_solver. }
  destruct Hcut as (k & -> & Hk & Hp).
  cbn [fst]. replace (hasPrefix_bytes (bytes_of "/") ("/"%char :: k)) with true by done. cbn [negb andb].
  replace (hasPrefix_bytes (bytes_of "//") ("/"%char :: k)) with false
    by (symmetry; exact Hk).
  rewrite andb_false_r. rewrite (unescape_no_percent ("/"%char :: k)); [done|]. set_solver.
Qed.

(** What [Parse] accepts holds no control byte before the fragment. *)
Lemma Parse_no_ctl s u :
  Parse s = Some u → Forall (λ a, is_ctl a = false) (cut "#" (bytes_of s)).1.
Proof.
  unfold Parse. destruct (cut "#" (bytes_of s)) as [l frag]. unfold parse_url. intros Hp.
  destruct (existsb is_ctl l) eqn:E; [done|]. apply Forall_forall. intros a Ha.
  apply not_true_iff_false. intros Hc. apply not_true_iff_false in E. apply E.
  apply existsb_exists. exists a. split; [by apply list_elem_of_In|done].
Qed.
End rooted.
