(* ===== verification/GoQuery.v ===== *)
(** * [net/url.Values]

    Query strings: [QueryEscape], [ParseQuery] as [URL.Query] uses it (a malformed pair
    is dropped), [Get], [Set], [Del] and [Encode] (keys in byte order). The main lemma
    is the round trip: a map with no empty value list survives encoding and parsing. *)

From Stdlib Require Import ZArith Lia Ascii.
From Stdlib Require String.
From stdpp Require Import base option gmap fin_maps sets strings list.
From S2P Require Import Prelude GoString GoUrl.

Local Open Scope Z_scope.

Definition unreserved (a : ascii) : bool := is_alpha a || is_num a || one_of "-_.~" a.

Definition upper_hex (n : Z) : ascii := ascii_of (if n <? 10 then 48 + n else 55 + n).

Definition escape_byte (a : ascii) : list ascii :=
  if unreserved a then [a]
  else if byte_of a =? 32 then ["+"%char]
  else ["%"%char; upper_hex (byte_of a / 16); upper_hex (byte_of a mod 16)].

Definition query_escape (l : list ascii) : list ascii := l ≫= escape_byte.
Definition QueryEscape (s : string) : string := of_bytes (query_escape (bytes_of s)).

Fixpoint query_unescape (l : list ascii) : option (list ascii) :=
  match l with
  | [] => Some []
  | "%"%char :: l =>
      match l with
      | h :: x :: l => if is_hex h && is_hex x then cons (ascii_of (16 * unhex h + unhex x)) <$> query_unescape l
                       else None
      | _ => None
      end
  | "+"%char :: l => cons " "%char <$> query_unescape l
  | a :: l => cons a <$> query_unescape l
  end.
Definition QueryUnescape (s : string) : option string := of_bytes <$> query_unescape (bytes_of s).

Abbreviation Values := (gmap string (list string)) (only parsing).

(** One [key=value] piece between two ampersands: the pair, or nothing. *)
Definition parse_pair (piece : string) : option (string * string) :=
  if one_of piece ";" then None
  else if bool_decide (piece = ""%string) then None
  else
    let '(k, v) := cut "=" (bytes_of piece) in
    k ← query_unescape k;
    v ← query_unescape v;
    Some (of_bytes k, of_bytes v).

Definition add_value (m : Values) (kv : string * string) : Values :=
  <[kv.1 := default [] (m !! kv.1) ++ [kv.2]]> m.

Definition ParseQuery (query : string) : Values :=
  fold_left add_value (omap parse_pair (Split query "&")) ∅.

Definition Get (m : Values) (k : string) : string := default "" (default [] (m !! k) !! 0%nat).
Definition Set_ (m : Values) (k v : string) : Values := <[k := [v]]> m.
Definition Del (m : Values) (k : string) : Values := delete k m.

Definition pairs_of (m : Values) : list (string * string) :=
  sort_stable String.ltb (map_to_list m).*1 ≫= λ k, (k,.) <$> default [] (m !! k).

Definition encode_pair (kv : string * string) : string :=
  of_bytes (query_escape (bytes_of kv.1) ++ "="%char :: query_escape (bytes_of kv.2)).

Definition Encode (m : Values) : string := Join (encode_pair <$> pairs_of m) "&".

(** ** Round trip *)

(** The bytes an escaped string is made of. *)
Definition escaped_byte (a : ascii) : bool := unreserved a || one_of "+%" a.

Lemma escape_byte_spec a :
  Forall (λ b, escaped_byte b = true) (escape_byte a) ∧
  ∀ l, query_unescape (escape_byte a ++ l) = cons a <$> query_unescape l.
Proof. destruct a as [[] [] [] [] [] [] [] []]; split; (repeat constructor; fail) || (intros l; reflexivity). Qed.

Lemma query_escape_bytes l : Forall (λ b, escaped_byte b = true) (query_escape l).
Proof.
  induction l as [|a l IH]; [constructor|]. cbn. apply Forall_app. split; [apply escape_byte_spec | done].
Qed.

Lemma query_unescape_escape l : query_unescape (query_escape l) = Some l.
Proof.
  induction l as [|a l IH]; [done|]. cbn [query_escape mbind list_bind].
  rewrite (proj2 (escape_byte_spec a)). unfold query_escape in IH. by rewrite IH.
Qed.

Lemma not_escaped c l : escaped_byte c = false → c ∉ query_escape l.
Proof.
  intros Hc Hin. pose proof (query_escape_bytes l) as Hl. rewrite Forall_forall in Hl.
  apply Hl in Hin. congruence.
Qed.

Lemma cut_app c l k : c ∉ l → cut c (l ++ c :: k) = (l, k).
Proof.
  intros. unfold cut. rewrite index_byte_app by done. f_equal.
  - by rewrite take_app_length.
  - replace (S (length l)) with (length (l ++ [c])) by (rewrite length_app; cbn; lia).
    by rewrite (app_assoc l [c] k : l ++ c :: k = _), drop_app_length.
Qed.

Lemma one_of_elem s a : one_of s a = true ↔ a ∈ bytes_of s.
Proof.
  unfold one_of. rewrite existsb_exists. setoid_rewrite Ascii.eqb_eq. split.
  - intros (x & Hx & ->). by apply list_elem_of_In.
  - intros. exists a. split; [by apply list_elem_of_In | done].
Qed.

Lemma encode_pair_bytes kv a :
  a ∈ bytes_of (encode_pair kv) → escaped_byte a = true ∨ a = "="%char.
Proof.
  unfold encode_pair. rewrite bytes_of_of, elem_of_app, elem_of_cons.
  intros [H|[->|H]]; [left| by right |left];
    pose proof (query_escape_bytes (bytes_of kv.1)) as H1;
    pose proof (query_escape_bytes (bytes_of kv.2)) as H2; rewrite Forall_forall in H1, H2; auto.
Qed.

Lemma parse_encode_pair kv : parse_pair (encode_pair kv) = Some kv.
Proof.
  unfold parse_pair.
  destruct (one_of (encode_pair kv) ";") eqn:E.
  { apply one_of_elem, encode_pair_bytes in E as [E|E]; done. }
  rewrite bool_decide_false.
  - unfold encode_pair. rewrite bytes_of_of, cut_app by by apply not_escaped.
    rewrite !query_unescape_escape. cbn. rewrite !of_bytes_of. by destruct kv.
  - intros He. apply (f_equal bytes_of) in He. unfold encode_pair in He. rewrite bytes_of_of in He.
    by destruct (query_escape _).
Qed.

Lemma Split_Encode m :
  pairs_of m ≠ [] → omap parse_pair (Split (Encode m) "&") = pairs_of m.
Proof.
  intros Hne. unfold Encode. rewrite (Split_Join "&"%char).
  - generalize (pairs_of m). intros l. induction l as [|kv l IH]; [done|].
    cbn. rewrite parse_encode_pair. by f_equal.
  - by intros ?%fmap_nil_inv.
  - apply Forall_fmap, Forall_true. intros kv Ha.
    by apply encode_pair_bytes in Ha as [Ha|Ha].
Qed.

Lemma fold_add_key m k l :
  fold_left add_value ((k,.) <$> l) m =
  match l with [] => m | _ => <[k := default [] (m !! k) ++ l]> m end.
Proof.
  revert m. induction l as [|v l IH]; intros m; [done|].
  rewrite fmap_cons. cbn [fold_left]. rewrite IH. unfold add_value. cbn [fst snd].
  destruct l as [|v' l]; [done|].
  rewrite lookup_insert_eq, insert_insert_eq. cbn. by rewrite <-app_assoc.
Qed.

Definition no_empty (m : Values) : Prop := map_Forall (λ _ vs, vs ≠ []) m.

Lemma fold_add_keys (m acc : Values) ks :
  NoDup ks → (∀ k, k ∈ ks → acc !! k = None ∧ ∃ vs, m !! k = Some vs ∧ vs ≠ []) →
  fold_left add_value (ks ≫= λ k, (k,.) <$> default [] (m !! k)) acc =
  filter (λ kv, kv.1 ∈ ks) m ∪ acc.
Proof.
  revert acc. induction ks as [|k ks IH]; intros acc Hnd Hks.
  - cbn. assert (Hf : filter (λ kv : string * list string, kv.1 ∈ @nil string) m = ∅).
    { apply map_empty. intros i. rewrite map_lookup_filter. destruct (m !! i); [|done]. cbn.
      rewrite option_guard_False; [done | apply not_elem_of_nil]. }
    by rewrite Hf, (left_id_L ∅ (∪)).
  - apply NoDup_cons in Hnd as [Hk Hnd].
    destruct (Hks k ltac:(by left)) as (Hacc & vs & Hm & Hvs).
    change ((k :: ks) ≫= ?f) with (f k ++ (ks ≫= f)).
    rewrite fold_left_app, Hm. cbn [default]. rewrite fold_add_key.
    destruct vs as [|v vs]; [done|]. rewrite Hacc. cbn [from_option id app]. rewrite IH; [|done|].
    + apply map_eq. intros i. rewrite !lookup_union.
      destruct (decide (i = k)) as [->|Hik].
      * rewrite lookup_insert_eq, Hacc.
        rewrite (map_lookup_filter_None_2 _ m k) by (right; intros; done).
        rewrite (map_lookup_filter_Some_2 _ m k (v :: vs)); [done | done | by left].
      * rewrite lookup_insert_ne by done. f_equal.
        rewrite !map_lookup_filter. destruct (m !! i); [|done]. cbn.
        destruct (decide (i ∈ ks)).
        -- rewrite !option_guard_True; [done | by right | done].
        -- rewrite !option_guard_False; [done | by apply not_elem_of_cons | done].
    + intros i Hi. destruct (Hks i ltac:(by right)) as (? & ?).
      rewrite lookup_insert_ne by set_solver. done.
Qed.

Lemma fold_add_pairs m : no_empty m → fold_left add_value (pairs_of m) ∅ = m.
Proof.
  intros Hm. unfold pairs_of.
  assert (Hp : sort_stable String.ltb (map_to_list m).*1 ≡ₚ (map_to_list m).*1)
    by apply sort_stable_perm.
  rewrite fold_add_keys.
  - rewrite (right_id_L ∅ (∪)). apply map_filter_id. intros i x Hi. cbn.
    rewrite Hp. apply list_elem_of_fmap. exists (i, x). split; [done | by apply elem_of_map_to_list].
  - rewrite Hp. apply NoDup_fst_map_to_list.
  - intros k Hk. rewrite Hp in Hk. split; [apply lookup_empty|].
    apply list_elem_of_fmap in Hk as ([k' vs] & -> & Hk). apply elem_of_map_to_list in Hk.
    exists vs. split; [done | by apply (Hm _ _ Hk)].
Qed.

Lemma ParseQuery_Encode m : no_empty m → ParseQuery (Encode m) = m.
Proof.
  intros Hm. unfold ParseQuery. destruct (decide (pairs_of m = [])) as [He|Hne].
  - rewrite <-(fold_add_pairs m Hm) at 2. unfold Encode. rewrite He. done.
  - rewrite Split_Encode by done. by apply fold_add_pairs.
Qed.

Lemma no_empty_empty : no_empty ∅.
Proof. apply map_Forall_empty. Qed.
Lemma no_empty_Set m k v : no_empty m → no_empty (Set_ m k v).
Proof. intros. by apply map_Forall_insert_2. Qed.
Lemma no_empty_Del m k : no_empty m → no_empty (Del m k).
Proof. intros Hm. by apply map_Forall_delete. Qed.

Lemma no_empty_ParseQuery q : no_empty (ParseQuery q).
Proof.
  unfold ParseQuery. generalize (omap parse_pair (Split q "&")). intros l.
  assert (H : ∀ acc, no_empty acc → no_empty (fold_left add_value l acc)); [|apply H, no_empty_empty].
  induction l as [|kv l IH]; intros acc Hacc; [done|]. apply IH. apply map_Forall_insert_2; [|done].
  by destruct (default [] _).
Qed.

(** The encoded form never contains a byte that ends or splits a query. *)
Lemma Encode_bytes m a :
  a ∈ bytes_of (Encode m) → escaped_byte a = true ∨ a = "="%char ∨ a = "&"%char.
Proof.
  unfold Encode. generalize (pairs_of m). intros l. induction l as [|kv l IH]; [by intros ?%elem_of_nil|].
  destruct (decide (l = [])) as [->|Hne].
  - intros Ha. cbn in Ha. apply encode_pair_bytes in Ha. naive_solver.
  - rewrite fmap_cons, Join_cons by by intros ?%fmap_nil_inv.
    rewrite !bytes_of_app, !elem_of_app. intros [Ha|[Ha|Ha]].
    + apply encode_pair_bytes in Ha. naive_solver.
    + apply list_elem_of_singleton in Ha as ->. auto.
    + auto.
Qed.

#[export] Hint Resolve no_empty_empty no_empty_Set no_empty_Del no_empty_ParseQuery : go.
