(* ===== verification/Http.v ===== *)
(** * net/http as the dashboard uses it

    Responses with their header snapshot, cookies, [http.Error], [http.Redirect] with the
    [path.Clean] it applies to its target, and what a browser makes of the resulting
    [Location]. *)

From Stdlib Require Import ZArith Lia Ascii.
From stdpp Require Import base option strings list.
From S2P Require Import Prelude GoString GoUrl.

Local Open Scope Z_scope.

(** ** Cookies and responses *)

Record Cookie := mkCookie {
  Name : string; Value : string; Path : string; HttpOnly : bool; Secure : bool; MaxAge : Z;
}.

Inductive header :=
| SetCookieHeader (c : Cookie)
| Header (k v : string).

(** What a handler has done so far: the header map, the status line and headers as they
    were when the status was written, and what was written to the body. *)
Record Response (B : Type) := mkResponse {
  pending : list header;
  sent : option (Z * list header);
  body : list B;
}.
Arguments mkResponse {B}.
Arguments pending {B}.
Arguments sent {B}.
Arguments body {B}.

Section response.
Context {B : Type}.
Implicit Types (w : Response B).

Definition fresh_response : Response B := mkResponse [] None [].

Definition is_header (k : string) (h : header) : bool :=
  match h with Header k' _ => bool_decide (k' = k) | SetCookieHeader _ => false end.

(** [w.Header().Set(k, v)]. *)
Definition set_header w (k v : string) : Response B :=
  mkResponse (filter (λ h, is_header k h = false) (pending w) ++ [Header k v]) (sent w) (body w).

(** [http.SetCookie]: adds a Set-Cookie header. *)
Definition SetCookie w (c : Cookie) : Response B :=
  mkResponse (pending w ++ [SetCookieHeader c]) (sent w) (body w).

(** [w.WriteHeader]: the first call fixes the status and the headers that go out. *)
Definition WriteHeader w (code : Z) : Response B :=
  match sent w with
  | Some _ => w
  | None => mkResponse (pending w) (Some (code, pending w)) (body w)
  end.

(** [w.Write]. *)
Definition Write w (b : B) : Response B :=
  let w := WriteHeader w 200 in mkResponse (pending w) (sent w) (body w ++ [b]).

(** What the client receives once the handler has returned. *)
Definition finished w : Z * list header :=
  match sent w with Some s => s | None => (200, pending w) end.

(** [http.Error] with its text. *)
Definition Error w (msg : B) (code : Z) : Response B :=
  Write (WriteHeader (set_header (set_header w "Content-Type" "text/plain; charset=utf-8")
                        "X-Content-Type-Options" "nosniff") code) msg.

Definition cookies_of (hs : list header) : list Cookie :=
  omap (λ h, match h with SetCookieHeader c => Some c | _ => None end) hs.
Definition locations_of (hs : list header) : list string :=
  omap (λ h, match h with Header k v => if decide (k = "Location"%string) then Some v else None
                        | _ => None end) hs.

Lemma Error_status w msg code : sent w = None → (finished (Error w msg code)).1 = code.
Proof. intros Hw. unfold finished, Error, Write, WriteHeader, set_header. cbn. by rewrite Hw. Qed.

Lemma cookies_set_header w k v : cookies_of (pending (set_header w k v)) = cookies_of (pending w).
Proof.
  cbn. unfold cookies_of. rewrite omap_app. cbn. rewrite app_nil_r.
  induction (pending w) as [|[c|k' v'] l IH]; [done|..].
  - rewrite filter_cons_True by done. cbn. by rewrite IH.
  - rewrite filter_cons. destruct (decide _); cbn; by rewrite IH.
Qed.

Lemma WriteHeader_sent w code : is_Some (sent (WriteHeader w code)).
Proof. unfold WriteHeader. by destruct (sent w) eqn:E; rewrite ?E. Qed.

Lemma Write_sent w b : is_Some (sent (Write w b)).
Proof. apply (WriteHeader_sent w 200). Qed.

Lemma Error_sent w msg code : is_Some (sent (Error w msg code)).
Proof. apply Write_sent. Qed.

(** Once the status is written, a later Set-Cookie does not reach the client. *)
Lemma SetCookie_after_sent w c : is_Some (sent w) → finished (SetCookie w c) = finished w.
Proof. unfold finished. cbn. by intros [s ->]. Qed.

Lemma Error_cookies w msg code :
  sent w = None → cookies_of (finished (Error w msg code)).2 = cookies_of (pending w).
Proof.
  intros Hw. unfold finished, Error, Write, WriteHeader. cbn. rewrite Hw. cbn.
  exact (eq_trans (cookies_set_header _ _ _) (cookies_set_header _ _ _)).
Qed.
End response.

(** ** [path.Clean] on a rooted path *)

Fixpoint join_bytes (sep : list ascii) (l : list (list ascii)) : list ascii :=
  match l with
  | [] => []
  | [s] => s
  | s :: l => s ++ sep ++ join_bytes sep l
  end.

(** One path element: empty ones and "." are dropped, ".." backtracks. *)
Definition clean_elem (stack : list (list ascii)) (e : list ascii) : list (list ascii) :=
  if decide (e = [] ∨ e = bytes_of ".") then stack
  else if decide (e = bytes_of "..") then tail stack
  else e :: stack.

Definition Clean (path : list ascii) : list ascii :=
  "/"%char :: join_bytes ["/"%char] (rev (fold_left clean_elem (split_bytes "/" path []) [])).

Example clean_1 : of_bytes (Clean (bytes_of "/a/./b//../c/")) = "/a/c"%string.
Proof. done. Qed.
Example clean_2 : of_bytes (Clean (bytes_of "/../..")) = "/"%string.
Proof. done. Qed.

(** ** [http.Redirect] *)

Definition hex_digit (n : Z) : ascii := if n <? 10 then ascii_of (48 + n) else ascii_of (87 + n).

(** [hexEscapeNonASCII]. *)
Definition hexEscapeNonASCII (l : list ascii) : list ascii :=
  a ← l; if 128 <=? byte_of a
         then ["%"%char; hex_digit (byte_of a / 16); hex_digit (byte_of a `mod` 16)] else [a].

(** The Location of a redirect to [url], a rooted path or an absolute URL: a target with
    neither scheme nor host has its path (everything before the first "?") cleaned. *)
Definition redirect_location `{NetIP} (url : string) : string :=
  let l := bytes_of url in
  let escaped (l : list ascii) := of_bytes (hexEscapeNonASCII l) in
  match Parse url with
  | Some u =>
      if bool_decide (Scheme u = ""%string ∧ Host u = ""%string) then
        let '(path, query) := match index_byte "?" l with
                              | Some i => (take i l, drop i l)
                              | None => (l, [])
                              end in
        let trailing := bool_decide (last path = Some "/"%char) in
        let cleaned := Clean path in
        let cleaned := if trailing && negb (bool_decide (last cleaned = Some "/"%char))
                       then cleaned ++ ["/"%char] else cleaned in
        escaped (cleaned ++ query)
      else escaped l
  | None => escaped l
  end.

Definition Redirect `{NetIP} {B} (w : Response B) (url : string) (code : Z) : Response B :=
  WriteHeader (set_header w "Location" (redirect_location url)) code.

Section redirect_lemmas.
Context `{NetIP} {B : Type}.
Implicit Types (w : Response B).

Lemma Redirect_sent w url code : is_Some (sent (Redirect w url code)).
Proof. apply WriteHeader_sent. Qed.

Lemma Redirect_finished w url code :
  sent w = None →
  finished (Redirect w url code) = (code, pending (set_header w "Location" (redirect_location url))).
Proof. intros Hw. unfold finished, Redirect, WriteHeader. cbn. by rewrite Hw. Qed.

Lemma Redirect_cookies w url code :
  sent w = None → cookies_of (finished (Redirect w url code)).2 = cookies_of (pending w).
Proof. intros Hw. rewrite Redirect_finished by done. apply cookies_set_header. Qed.

Lemma set_header_locations w v :
  locations_of (pending (set_header w "Location" v)) = [v].
Proof.
  cbn. unfold locations_of. rewrite omap_app. cbn.
  induction (pending w) as [|[c|k' v'] l IH]; [done|..].
  - rewrite filter_cons_True by done. cbn. done.
  - rewrite filter_cons. cbn [is_header]. destruct (decide (k' = "Location"%string)) as [->|Hk].
    + rewrite bool_decide_eq_true_2 by done. exact IH.
    + rewrite bool_decide_eq_false_2 by done. rewrite (decide_True (P := false = false)) by done.
      cbn. by rewrite (decide_False (P := k' = "Location"%string)) by done.
Qed.
End redirect_lemmas.

(** ** What a browser makes of a Location

    The WHATWG URL parser, resolving against an http(s) page: leading control bytes and
    spaces are dropped, tabs and line breaks are removed everywhere, and a backslash counts
    as a slash. A reference starting with two slashes names another host. *)
Definition dropped_by_browser (a : ascii) : bool :=
  bool_decide (byte_of a = 9 ∨ byte_of a = 10 ∨ byte_of a = 13).
Definition slash_like (a : ascii) : bool := bool_decide (a = "/"%char ∨ a = "\"%char).

(** The reference is a path of the same origin. *)
Definition same_origin_path (loc : string) : bool :=
  match filter (λ a, dropped_by_browser a = false)
          (drop_while (λ a, byte_of a <=? 32) (bytes_of loc)) with
  | a :: b :: _ => slash_like a && negb (slash_like b)
  | [a] => slash_like a
  | [] => false
  end.

Definition plain_second (b : ascii) : Prop :=
  dropped_by_browser b = false ∧ slash_like b = false.

Lemma same_origin_root : same_origin_path "/" = true.
Proof. done. Qed.

Lemma same_origin_cons b l :
  plain_second b → same_origin_path (of_bytes ("/"%char :: b :: l)) = true.
Proof.
  intros [H1 H2]. unfold same_origin_path. rewrite bytes_of_of. cbn [drop_while].
  replace (byte_of "/" <=? 32) with false by done.
  rewrite filter_cons_True by done. rewrite filter_cons_True by done. cbn. by rewrite H2.
Qed.

(** *** The bytes of a cleaned path *)

Definition elem_ok (P : ascii → Prop) (e : list ascii) : Prop :=
  e ≠ [] ∧ Forall (λ a, P a ∧ a ≠ "/"%char) e.

Lemma split_bytes_elems c (P : ascii → Prop) l cur :
  Forall P l → Forall (λ a, P a ∧ a ≠ c) cur →
  Forall (Forall (λ a, P a ∧ a ≠ c)) (split_bytes c l cur).
Proof.
  intros Hl. revert cur. induction Hl as [|a l Ha Hl IH]; intros cur Hc; cbn.
  - constructor; [|done]. by apply Forall_rev.
  - destruct (decide (a = c)); [|by apply IH; constructor].
    constructor; [by apply Forall_rev|]. apply IH. constructor.
Qed.

Lemma clean_stack_ok (P : ascii → Prop) es stack :
  Forall (Forall (λ a, P a ∧ a ≠ "/"%char)) es → Forall (elem_ok P) stack →
  Forall (elem_ok P) (fold_left clean_elem es stack).
Proof.
  intros Hes. revert stack. induction Hes as [|e es He Hes IH]; intros stack Hs; [done|].
  cbn [fold_left]. apply IH. unfold clean_elem.
  destruct (decide (e = [] ∨ _)) as [|Hne]; [done|]. destruct (decide _).
  - destruct Hs; [constructor|done].
  - constructor; [|done]. split; [naive_solver|done].
Qed.

(** The cleaned path is the root, or a slash followed by a byte of the path other than a
    slash. *)
Lemma Clean_second (P : ascii → Prop) path :
  Forall P path →
  Clean path = ["/"%char] ∨
  ∃ b l, Clean path = "/"%char :: b :: l ∧ P b ∧ b ≠ "/"%char.
Proof.
  intros HP. unfold Clean.
  assert (Hs : Forall (elem_ok P) (rev (fold_left clean_elem (split_bytes "/" path []) []))).
  { apply Forall_rev. apply clean_stack_ok; [|constructor]. apply split_bytes_elems; [done|constructor]. }
  destruct Hs as [|e es [Hne He] _]; [by left|right].
  destruct He as [|b e [Hb Hn] _]; [done|]. destruct es; cbn; eauto.
Qed.
