(* ===== verification/Mux.v ===== *)
(** * [net/http.ServeMux]

    The router the server and the dashboard register their handlers on: patterns with an
    optional method, literal segments, single wildcards, a trailing slash and [{$}]; the
    relation between two patterns, which makes a registration panic when neither is more
    specific; and the choice of a handler, with the redirects, the 404 and the 405 of the
    standard library. Patterns with a host and named multi-segment wildcards, which the
    program does not use, are refused by the parser here. *)

From Stdlib Require Import ZArith Lia Ascii.
From Stdlib Require String.
From stdpp Require Import base option strings list.
From S2P Require Import Prelude GoString GoUrl GoQuery Http.

Local Open Scope Z_scope.
Local Open Scope go_scope.

(** ** Patterns *)

Record segment := mkSegment { seg_s : string; wild : bool; multi : bool }.
Record pattern := mkPattern { method : string; segments : list segment }.

Definition literal (s : string) : segment := mkSegment s false false.
Definition wildcard (s : string) : segment := mkSegment s true false.
Definition subtree : segment := mkSegment "" true true.

(** [pathUnescape]: the text itself when an escape is malformed. *)
Definition pathUnescape (l : list ascii) : list ascii := default l (unescape encodeOther l).

(** [cleanPath]: [path.Clean] that keeps a trailing slash. *)
Definition cleanPath (p : list ascii) : list ascii :=
  match p with
  | [] => ["/"%char]
  | c :: _ =>
      let p := if decide (c = "/"%char) then p else "/"%char :: p in
      let np := Clean p in
      if bool_decide (last p = Some "/"%char) && negb (bool_decide (np = ["/"%char])) then np ++ ["/"%char] else np
  end.

Definition is_token (a : ascii) : bool := is_alpha a || is_num a || one_of "!#$%&'*+-.^_`|~" a.
Definition valid_method (l : list ascii) : bool := negb (bool_decide (l = [])) && forallb is_token l.
Definition valid_name (l : list ascii) : bool :=
  match l with
  | [] => false
  | a :: _ => (is_alpha a || Ascii.eqb a "_") && forallb (λ a, is_alpha a || is_num a || Ascii.eqb a "_") l
  end.

(** One element between slashes; [final]: nothing follows it. *)
Definition parse_element (final : bool) (e : list ascii) : option segment :=
  match index_byte "{" e with
  | None => if final && bool_decide (e = []) then Some subtree else Some (literal (of_bytes (pathUnescape e)))
  | Some (S _) => None
  | Some O =>
      if negb (bool_decide (last e = Some "}"%char)) then None
      else
        let name := drop 1 (take (length e - 1) e) in
        if bool_decide (name = ["$"%char]) then (if final then Some (literal "/") else None)
        else if valid_name name then Some (wildcard (of_bytes name)) else None
  end.

Fixpoint parse_segments (es : list (list ascii)) : option (list segment) :=
  match es with
  | [] => Some []
  | [e] => s ← parse_element true e; Some [s]
  | e :: es => s ← parse_element false e; l ← parse_segments es; Some (s :: l)
  end.

Fixpoint no_dup_names (l : list string) : bool :=
  match l with
  | [] => true
  | s :: l => (bool_decide (s = ""%string) || negb (bool_decide (s ∈ l))) && no_dup_names l
  end.
Definition names (l : list segment) : list string := (λ s, if wild s then seg_s s else ""%string) <$> l.

(** [parsePattern]. *)
Definition is_blank (a : ascii) : bool := bool_decide (byte_of a = 32 ∨ byte_of a = 9).
Fixpoint cut_blank (l : list ascii) : option (list ascii * list ascii) :=
  match l with
  | [] => None
  | a :: l => if is_blank a then Some ([], drop_while is_blank l)
              else (λ mr, (a :: mr.1, mr.2)) <$> cut_blank l
  end.

Definition parsePattern (s : string) : option pattern :=
  let '(m, rest) := default ([], bytes_of s) (cut_blank (bytes_of s)) in
  if negb (bool_decide (m = [])) && negb (valid_method m) then None
  else match rest with
  | "/"%char :: elems =>
      if negb (bool_decide (m = [])) && negb (bool_decide (m = bytes_of "CONNECT"))
         && negb (bool_decide (cleanPath rest = rest)) then None
      else
        l ← parse_segments (split_bytes "/" elems []);
        if no_dup_names (names l) then Some (mkPattern (of_bytes m) l) else None
  | _ => None
  end.

Example pattern_1 : parsePattern "GET /services/{service}/endpoint" =
  Some (mkPattern "GET" [literal "services"; wildcard "service"; literal "endpoint"]).
Proof. reflexivity. Qed.
Example pattern_2 : parsePattern "/" = Some (mkPattern "" [subtree]).
Proof. reflexivity. Qed.
Example pattern_3 : parsePattern "GET /a/./b" = None.
Proof. reflexivity. Qed.

(** ** Which requests a pattern matches *)

(** The segments [firstSegment] splits a path into; a final slash is a segment. *)
Definition path_segments (path : list ascii) : list string :=
  match path with
  | [] => []
  | _ :: elems =>
      let es := split_bytes "/" elems [] in
      imap (λ i e, if bool_decide (e = [] ∧ S i = length es) then "/"%string else of_bytes (pathUnescape e)) es
  end.

(** The wildcards' values. *)
Fixpoint match_segments (ps : list segment) (xs : list string) : option (list (string * string)) :=
  match ps, xs with
  | [], [] => Some []
  | [], _ :: _ => None
  | _ :: _, [] => None
  | p :: ps, x :: xs =>
      if multi p then Some []
      else if wild p then
        if bool_decide (x = "/"%string) then None else cons (seg_s p, x) <$> match_segments ps xs
      else if bool_decide (x = seg_s p) then match_segments ps xs else None
  end.

Definition match_method (pm m : string) : bool :=
  bool_decide (pm = ""%string) || bool_decide (pm = m) || bool_decide (pm = "GET"%string ∧ m = "HEAD"%string).

Definition matches (p : pattern) (m : string) (xs : list string) : bool :=
  match_method (method p) m && bool_decide (is_Some (match_segments (segments p) xs)).

(** ** How two patterns compare (net/http/pattern.go) *)

Inductive relationship := Equivalent | MoreGeneral | MoreSpecific | Disjoint | Overlaps.

Definition combineRelationships (r1 r2 : relationship) : relationship :=
  match r1 with
  | Equivalent => r2
  | Disjoint => Disjoint
  | Overlaps => match r2 with Disjoint => Disjoint | _ => Overlaps end
  | MoreGeneral => match r2 with Equivalent => MoreGeneral | MoreSpecific => Overlaps | _ => r2 end
  | MoreSpecific => match r2 with Equivalent => MoreSpecific | MoreGeneral => Overlaps | _ => r2 end
  end.

Definition compareSegments (s1 s2 : segment) : relationship :=
  if multi s1 && multi s2 then Equivalent
  else if multi s1 then MoreGeneral
  else if multi s2 then MoreSpecific
  else if wild s1 && wild s2 then Equivalent
  else if wild s1 then if bool_decide (seg_s s2 = "/"%string) then Disjoint else MoreGeneral
  else if wild s2 then if bool_decide (seg_s s1 = "/"%string) then Disjoint else MoreSpecific
  else if bool_decide (seg_s s1 = seg_s s2) then Equivalent else Disjoint.

Fixpoint last_multi (l : list segment) : bool :=
  match l with [] => false | [s] => multi s | _ :: l => last_multi l end.

Fixpoint compare_from (m1 m2 : bool) (rel : relationship) (l1 l2 : list segment) : relationship :=
  match l1, l2 with
  | [], [] => rel
  | x :: l1, y :: l2 => compare_from m1 m2 (combineRelationships rel (compareSegments x y)) l1 l2
  | [], _ :: _ => if m1 then combineRelationships rel MoreGeneral else Disjoint
  | _ :: _, [] => if m2 then combineRelationships rel MoreSpecific else Disjoint
  end.
Definition comparePaths (l1 l2 : list segment) : relationship :=
  compare_from (last_multi l1) (last_multi l2) Equivalent l1 l2.

Definition compareMethods (m1 m2 : string) : relationship :=
  if bool_decide (m1 = m2) then Equivalent
  else if bool_decide (m1 = ""%string) then MoreGeneral
  else if bool_decide (m2 = ""%string) then MoreSpecific
  else if bool_decide (m1 = "GET"%string ∧ m2 = "HEAD"%string) then MoreGeneral
  else if bool_decide (m2 = "GET"%string ∧ m1 = "HEAD"%string) then MoreSpecific
  else Disjoint.

Definition comparePathsAndMethods (p1 p2 : pattern) : relationship :=
  combineRelationships (compareMethods (method p1) (method p2)) (comparePaths (segments p1) (segments p2)).

Definition conflictsWith (p1 p2 : pattern) : bool :=
  match comparePathsAndMethods p1 p2 with Equivalent | Overlaps => true | _ => false end.

(** The first matches whatever the second does not exclude. *)
Definition at_least (r : relationship) : bool := match r with Equivalent | MoreSpecific => true | _ => false end.
Definition at_most (r : relationship) : bool := match r with Equivalent | MoreGeneral => true | _ => false end.
Definition joint (r : relationship) : bool := match r with Disjoint => false | _ => true end.

(** ** Dispatch *)

Inductive decision (H : Type) :=
  | Serve (p : pattern) (h : H) (values : list (string * string))
  | MovedPermanently (url : string)
  | MethodNotAllowed (allow : list string)
  | NoRoute.
Arguments Serve {H}.
Arguments MovedPermanently {H}.
Arguments MethodNotAllowed {H}.
Arguments NoRoute {H}.

(** What the router reads of a request: the method, [EscapedPath], [URL.Path] and the
    query. *)
Record target := mkTarget { t_method : string; t_escaped : string; t_path : string; t_query : string }.

(** [URL.String] of a rooted path and a query. *)
Definition path_byte_ok (a : ascii) : bool := is_alpha a || is_num a || one_of "-_.~$&+,/:;=@" a.
Definition escape_path (l : list ascii) : list ascii :=
  a ← l; if path_byte_ok a then [a] else ["%"%char; upper_hex (byte_of a / 16); upper_hex (byte_of a `mod` 16)].
Definition url_string (path : list ascii) (query : string) : string :=
  of_bytes (escape_path path ++ (if bool_decide (query = ""%string) then [] else "?"%char :: bytes_of query)).

Definition count_slashes (l : list ascii) : nat := length (filter (λ a, a = "/"%char) l).
Definition ends_in_slash (l : list ascii) : bool := bool_decide (last l = Some "/"%char).

Section mux.
Context {H : Type}.
Implicit Types (t : list (pattern * H)) (e : pattern * H).

(** [mux.Handle]: a pattern that does not parse, or that conflicts, panics. *)
Definition Handle t (s : string) (h : H) : outcome (list (pattern * H)) :=
  match parsePattern s with
  | None => Panic (str_app "parsing " s)
  | Some p => if existsb (λ e, conflictsWith p e.1) t then Panic (str_app s " conflicts") else Ret (t ++ [(p, h)])
  end.
Fixpoint register t (es : list (string * H)) : outcome (list (pattern * H)) :=
  match es with
  | [] => Ret t
  | (s, h) :: es => let! t := Handle t s h in register t es
  end.

(** The most specific of the matching patterns. *)
Definition candidates t (m : string) (xs : list string) : list (pattern * H) :=
  filter (λ e, matches e.1 m xs = true) t.
Definition more_specific e e' : bool := at_least (comparePathsAndMethods e.1 e'.1).
Definition match_ t (m : string) (path : list ascii) : option (pattern * H) :=
  best_of more_specific (candidates t m (path_segments path)).

Definition exactMatch (e : option (pattern * H)) (path : list ascii) : bool :=
  match e with
  | None => false
  | Some e =>
      if ends_in_slash path then bool_decide (length (segments e.1) = count_slashes path)
      else negb (last_multi (segments e.1))
  end.

(** [matchOrRedirect]: the redirect from [/tree] to [/tree/]. *)
Definition slash_redirect t (r : target) (path : list ascii) : option string :=
  if negb (exactMatch (match_ t (t_method r) path) path) && negb (ends_in_slash path) &&
     exactMatch (match_ t (t_method r) (path ++ ["/"%char])) (path ++ ["/"%char])
  then Some (url_string (cleanPath (bytes_of (t_path r)) ++ ["/"%char]) (t_query r))
  else None.

(** [matchingMethods]: what the 405 allows. *)
Definition matchingMethods t (path : list ascii) : list string :=
  let on (p : list ascii) e := bool_decide (method e.1 ≠ ""%string) &&
                               bool_decide (is_Some (match_segments (segments e.1) (path_segments p))) in
  let ms := (method ∘ fst) <$> filter (λ e, on path e || (negb (ends_in_slash path) && on (path ++ ["/"%char]) e) = true) t in
  let ms := if bool_decide ("GET"%string ∈ ms) then "HEAD"%string :: ms else ms in
  sort_Strings (remove_dups ms).

Definition findHandler t (r : target) : decision H :=
  let escaped := bytes_of (t_escaped r) in
  let connect := bool_decide (t_method r = "CONNECT"%string) in
  let path := if connect then escaped else cleanPath escaped in
  match slash_redirect t r path with
  | Some u => MovedPermanently u
  | None =>
      if negb connect && negb (bool_decide (path = escaped)) then MovedPermanently (url_string path (t_query r))
      else match match_ t (t_method r) path with
           | Some e => Serve e.1 e.2 (default [] (match_segments (segments e.1) (path_segments path)))
           | None => match matchingMethods t path with
                     | [] => NoRoute
                     | allow => MethodNotAllowed allow
                     end
           end
  end.
End mux.

(** [PathValue]. *)
Definition PathValue (values : list (string * string)) (name : string) : string :=
  default ""%string (snd <$> hd_error (filter (λ kv, kv.1 = name) values)).

(** ** The comparison is the order of the requests matched *)

Lemma at_least_combine a b : at_least (combineRelationships a b) = at_least a && at_least b.
Proof. by destruct a, b. Qed.
Lemma at_most_combine a b : at_most (combineRelationships a b) = at_most a && at_most b.
Proof. by destruct a, b. Qed.
Lemma joint_combine a b : joint (combineRelationships a b) = joint a && joint b.
Proof. by destruct a, b. Qed.

(** A subtree segment comes last. *)
Fixpoint wf_segments (l : list segment) : bool :=
  match l with [] => true | [_] => true | s :: l => negb (multi s) && wf_segments l end.

Lemma parse_element_multi e s : parse_element false e = Some s → multi s = false.
Proof.
  unfold parse_element. cbn [andb]. destruct (index_byte "{" e) as [[|i]|]; [|done|by intros [= <-]].
  destruct (negb _); [done|]. destruct (bool_decide _); [done|]. destruct (valid_name _); [|done]. by intros [= <-].
Qed.

Lemma parse_segments_wf es l : parse_segments es = Some l → wf_segments l = true.
Proof.
  revert l. induction es as [|e es IH]; intros l; [by intros [= <-]|]. destruct es as [|e' es].
  - cbn. destruct (parse_element true e); [|done]. by intros [= <-].
  - change (parse_segments (e :: e' :: es)) with
      (parse_element false e ≫= λ s, parse_segments (e' :: es) ≫= λ l, Some (s :: l)).
    destruct (parse_element false e) as [s|] eqn:Es; [|done]. apply parse_element_multi in Es.
    destruct (parse_segments (e' :: es)) as [l'|]; [|done]. intros [= <-]. specialize (IH l' eq_refl).
    destruct l'; [done|]. change (negb (multi s) && wf_segments (s0 :: l') = true). by rewrite Es.
Qed.

Lemma parsePattern_wf s p : parsePattern s = Some p → wf_segments (segments p) = true.
Proof.
  unfold parsePattern. destruct (default _ _) as [m rest]. destruct (negb _ && _); [done|].
  destruct rest as [|a rest]; [done|]. repeat (case_match; try done); intros Hp;
    destruct (parse_segments _) as [l|] eqn:El; try done; cbn in Hp; case_match; try done;
    injection Hp as <-; by apply parse_segments_wf in El.
Qed.

(** Comparing two lists of segments loses information only downwards. *)
Lemma compare_from_at_least m1 m2 rel l1 l2 :
  at_least (compare_from m1 m2 rel l1 l2) = true → at_least rel = true.
Proof.
  revert rel l2. induction l1 as [|x l1 IH]; intros rel [|y l2]; cbn; [done| | |].
  - destruct m1; [|done]. by rewrite at_least_combine, andb_false_r.
  - destruct m2; [|done]. by rewrite at_least_combine, andb_true_r.
  - intros Ha%IH. rewrite at_least_combine in Ha. by apply andb_true_iff in Ha as [].
Qed.

Lemma last_multi_cons s l : multi s = false → last_multi (s :: l) = last_multi l.
Proof. by destruct l. Qed.
Lemma wf_segments_cons s l : wf_segments (s :: l) = true → wf_segments l = true.
Proof. destruct l; [done|]. by intros [_ ?]%andb_true_iff. Qed.

(** A more specific list of segments matches fewer paths. *)
Lemma match_segments_mono m1 rel l1 l2 xs :
  wf_segments l1 = true → wf_segments l2 = true →
  at_least (compare_from m1 (last_multi l2) rel l1 l2) = true →
  is_Some (match_segments l1 xs) → is_Some (match_segments l2 xs).
Proof.
  revert rel l2 xs. induction l1 as [|x l1 IH]; intros rel [|y l2] xs H1 H2; cbn [compare_from]; [done| |done|].
  - destruct m1; [|done]. by rewrite at_least_combine, andb_false_r.
  - intros Ha. pose proof (compare_from_at_least _ _ _ _ _ Ha) as Hs.
    rewrite at_least_combine in Hs. apply andb_true_iff in Hs as [_ Hs]. unfold compareSegments in Hs.
    destruct xs as [|a xs]; [by intros []|]. cbn [match_segments].
    destruct (multi y) eqn:My; [by eexists|]. destruct (multi x) eqn:Mx; cbn in Hs; [done|].
    rewrite (last_multi_cons y l2 My) in Ha.
    specialize (IH _ l2 xs (wf_segments_cons _ _ H1) (wf_segments_cons _ _ H2) Ha).
    destruct (wild x) eqn:Wx, (wild y) eqn:Wy; cbn in Hs.
    + destruct (bool_decide (a = "/"%string)); [done|]. by rewrite !fmap_is_Some.
    + by case_bool_decide.
    + case_bool_decide as Hne; [done|]. case_bool_decide as Ha'; [|by intros []]. subst a.
      rewrite bool_decide_false by done. by rewrite fmap_is_Some.
    + case_bool_decide as He; [|done]. rewrite He. case_bool_decide; [exact IH|by intros []].
Qed.

Lemma match_method_mono m1 m2 m :
  at_least (compareMethods m1 m2) = true → match_method m1 m = true → match_method m2 m = true.
Proof.
  unfold compareMethods, match_method. repeat case_bool_decide; subst; cbn; try done; naive_solver.
Qed.

(** A pattern that compares as at least as specific matches no more requests. *)
Lemma matches_mono p q m xs :
  wf_segments (segments p) = true → wf_segments (segments q) = true →
  at_least (comparePathsAndMethods p q) = true → matches p m xs = true → matches q m xs = true.
Proof.
  intros Hp Hq. unfold comparePathsAndMethods, matches. rewrite at_least_combine, !andb_true_iff, !bool_decide_eq_true.
  intros [Hm Hs] [H1 H2]. split; [by eapply match_method_mono|].
  by apply (match_segments_mono (last_multi (segments p)) Equivalent (segments p) (segments q)).
Qed.

(** *** Two patterns that match one request *)

(** How coarse a pattern is at each segment of a path it matches. *)
Fixpoint ranks (ps : list segment) (xs : list string) : list nat :=
  match ps, xs with
  | p :: ps, x :: xs =>
      if multi p then 2%nat :: (const 2%nat <$> xs) else (if wild p then 1%nat else 0%nat) :: ranks ps xs
  | _, _ => []
  end.
Definition cmp_rank (a b : nat) : relationship :=
  match Nat.compare a b with Lt => MoreSpecific | Eq => Equivalent | Gt => MoreGeneral end.

Lemma combine_absorb_general rel l :
  Forall (λ r, r = Equivalent ∨ r = MoreGeneral) l →
  fold_left combineRelationships l (combineRelationships rel MoreGeneral) = combineRelationships rel MoreGeneral.
Proof. induction 1 as [|r l [->| ->] _ IH]; [done|by destruct rel..]. Qed.
Lemma combine_absorb_specific rel l :
  Forall (λ r, r = Equivalent ∨ r = MoreSpecific) l →
  fold_left combineRelationships l (combineRelationships rel MoreSpecific) = combineRelationships rel MoreSpecific.
Proof. induction 1 as [|r l [->| ->] _ IH]; [done|by destruct rel..]. Qed.

Lemma ranks_bound ps xs : Forall (λ r, r ≤ 2)%nat (ranks ps xs).
Proof.
  revert xs. induction ps as [|p ps IH]; intros [|x xs]; cbn; [constructor..|].
  destruct (multi p); constructor; [lia| |by destruct (wild p); lia|apply IH].
  apply Forall_fmap, Forall_forall. intros ? _. cbn. lia.
Qed.
Lemma ranks_length ps xs : is_Some (match_segments ps xs) → length (ranks ps xs) = length xs.
Proof.
  revert xs. induction ps as [|p ps IH]; intros [|x xs]; cbn; [done|by intros []..|].
  destruct (multi p); [cbn; by rewrite length_fmap|]. destruct (wild p); case_bool_decide; cbn; try by intros [].
  - rewrite fmap_is_Some. intros Hm. by rewrite IH.
  - intros Hm. by rewrite IH.
Qed.

Lemma cmp_twos_l (l : list nat) (xs : list string) :
  Forall (λ r, r ≤ 2)%nat l → Forall (λ r, r = Equivalent ∨ r = MoreGeneral) (zip_with cmp_rank (const 2%nat <$> xs) l).
Proof.
  intros Hl. revert xs. induction Hl as [|r l Hr _ IH]; intros [|x xs]; cbn; try constructor; [|apply IH].
  unfold cmp_rank. destruct (Nat.compare_spec 2 r); [by left|lia|by right].
Qed.
Lemma cmp_twos_r (l : list nat) (xs : list string) :
  Forall (λ r, r ≤ 2)%nat l → Forall (λ r, r = Equivalent ∨ r = MoreSpecific) (zip_with cmp_rank l (const 2%nat <$> xs)).
Proof.
  intros Hl. revert xs. induction Hl as [|r l Hr _ IH]; intros [|x xs]; cbn; try constructor; [|apply IH].
  unfold cmp_rank. destruct (Nat.compare_spec r 2); [by left|by right|lia].
Qed.

Lemma combine_Equivalent rel : combineRelationships rel Equivalent = rel.
Proof. by destruct rel. Qed.
Lemma combine_twos rel (xs ys : list string) :
  fold_left combineRelationships (zip_with cmp_rank (const 2%nat <$> xs) (const 2%nat <$> ys)) rel = rel.
Proof. revert ys. induction xs as [|x xs IH]; intros [|y ys]; cbn; [done..|]. by rewrite combine_Equivalent, IH. Qed.
Lemma combine_idemp rel r : combineRelationships (combineRelationships rel r) r = combineRelationships rel r.
Proof. by destruct rel, r. Qed.
Lemma wf_multi_nil s l : wf_segments (s :: l) = true → multi s = true → l = [].
Proof. destruct l; [done|]. intros [Hs _]%andb_true_iff Hm. by rewrite Hm in Hs. Qed.

(** Where both match, the comparison is that of the ranks, segment by segment. *)
Lemma compare_from_ranks rel l1 l2 xs :
  wf_segments l1 = true → wf_segments l2 = true →
  is_Some (match_segments l1 xs) → is_Some (match_segments l2 xs) →
  compare_from (last_multi l1) (last_multi l2) rel l1 l2 =
    fold_left combineRelationships (zip_with cmp_rank (ranks l1 xs) (ranks l2 xs)) rel.
Proof.
  revert rel l2 xs. induction l1 as [|x l1 IH]; intros rel [|y l2] [|a xs] H1 H2 M1 M2;
    try done; try (by destruct M1); try (by destruct M2).
  cbn [compare_from ranks]. cbn [match_segments] in M1, M2.
  destruct (multi x) eqn:Mx, (multi y) eqn:My.
  - pose proof (wf_multi_nil _ _ H1 Mx) as ->. pose proof (wf_multi_nil _ _ H2 My) as ->.
    cbn. rewrite combine_twos. unfold compareSegments. by rewrite Mx, My.
  - pose proof (wf_multi_nil _ _ H1 Mx) as ->. unfold compareSegments. rewrite Mx, My. cbn.
    assert (Hr : cmp_rank 2 (if wild y then 1 else 0)%nat = MoreGeneral) by by destruct (wild y).
    rewrite Hr, combine_absorb_general by apply cmp_twos_l, ranks_bound.
    rewrite Mx. destruct l2; [done|]. by rewrite combine_idemp.
  - pose proof (wf_multi_nil _ _ H2 My) as ->. unfold compareSegments. rewrite Mx, My. cbn.
    assert (Hr : cmp_rank (if wild x then 1 else 0)%nat 2 = MoreSpecific) by by destruct (wild x).
    rewrite Hr, combine_absorb_specific by apply cmp_twos_r, ranks_bound.
    rewrite My. destruct l1; cbn [compare_from]; [done|]. by rewrite combine_idemp.
  - rewrite (last_multi_cons x l1 Mx), (last_multi_cons y l2 My). cbn [zip_with fold_left].
    assert (Hc : compareSegments x y = cmp_rank (if wild x then 1 else 0)%nat (if wild y then 1 else 0)%nat ∧
                 is_Some (match_segments l1 xs) ∧ is_Some (match_segments l2 xs)); [|destruct Hc as (-> & ? & ?)].
    { unfold compareSegments. rewrite Mx, My. cbn.
      destruct (wild x), (wild y); repeat case_bool_decide; subst; try (by destruct M1); try (by destruct M2);
        try congruence; rewrite ?fmap_is_Some in *; done. }
    apply IH; [by eapply wf_segments_cons|by eapply wf_segments_cons|done|done].
Qed.

Lemma fold_at_least rs rel :
  at_least (fold_left combineRelationships rs rel) = at_least rel && forallb at_least rs.
Proof.
  revert rel. induction rs as [|r rs IH]; intros rel; cbn; [by rewrite andb_true_r|].
  by rewrite IH, at_least_combine, andb_assoc.
Qed.
Lemma fold_at_most rs rel :
  at_most (fold_left combineRelationships rs rel) = at_most rel && forallb at_most rs.
Proof.
  revert rel. induction rs as [|r rs IH]; intros rel; cbn; [by rewrite andb_true_r|].
  by rewrite IH, at_most_combine, andb_assoc.
Qed.
Lemma fold_joint rs rel :
  joint (fold_left combineRelationships rs rel) = joint rel && forallb joint rs.
Proof.
  revert rel. induction rs as [|r rs IH]; intros rel; cbn; [by rewrite andb_true_r|].
  by rewrite IH, joint_combine, andb_assoc.
Qed.

(** The ranks of a pattern at a request, its method's first. *)
Definition method_rank (pm m : string) : nat :=
  if bool_decide (pm = ""%string) then 2%nat else if bool_decide (pm = m) then 0%nat else 1%nat.
Definition rank (m : string) (xs : list string) (p : pattern) : list nat :=
  method_rank (method p) m :: ranks (segments p) xs.

Lemma compare_ranks p q m xs :
  wf_segments (segments p) = true → wf_segments (segments q) = true →
  matches p m xs = true → matches q m xs = true →
  comparePathsAndMethods p q =
    fold_left combineRelationships (zip_with cmp_rank (ranks (segments p) xs) (ranks (segments q) xs))
      (cmp_rank (method_rank (method p) m) (method_rank (method q) m)).
Proof.
  intros Hp Hq. unfold matches. rewrite !andb_true_iff, !bool_decide_eq_true. intros [M1 S1] [M2 S2].
  unfold comparePathsAndMethods, comparePaths. rewrite (compare_from_ranks _ _ _ xs) by done.
  assert (Hm : compareMethods (method p) (method q) = cmp_rank (method_rank (method p) m) (method_rank (method q) m)).
  { unfold match_method in *. unfold compareMethods, method_rank. generalize dependent (method p).
    generalize dependent (method q). intros mq M2 mp M1.
    repeat case_bool_decide; subst; cbn in *; try done; naive_solver. }
  rewrite Hm. generalize (cmp_rank (method_rank (method p) m) (method_rank (method q) m)).
  generalize (zip_with cmp_rank (ranks (segments p) xs) (ranks (segments q) xs)). intros rs.
  assert (Hassoc : ∀ a b c, combineRelationships a (combineRelationships b c) =
                            combineRelationships (combineRelationships a b) c) by by intros [] [] [].
  assert (∀ a b, combineRelationships a (fold_left combineRelationships rs b) =
                 fold_left combineRelationships rs (combineRelationships a b)) as Hfold.
  { induction rs as [|r rs IH]; intros a b; [done|]. cbn. by rewrite IH, Hassoc. }
  intros r. by rewrite Hfold, combine_Equivalent.
Qed.

Lemma zip_at_least l1 l2 :
  length l1 = length l2 → forallb at_least (zip_with cmp_rank l1 l2) = true ↔ Forall2 le l1 l2.
Proof.
  intros Hl. apply Nat.eq_sym in Hl. revert l2 Hl. induction l1 as [|a l1 IH]; intros [|b l2] Hl; try done.
  cbn [zip_with forallb]. rewrite andb_true_iff, Forall2_cons, IH by (cbn in Hl; lia). apply and_iff_compat_r.
  unfold cmp_rank. destruct (Nat.compare_spec a b); cbn; split; intros; first [done | lia].
Qed.
Lemma zip_at_most l1 l2 :
  length l1 = length l2 → forallb at_most (zip_with cmp_rank l1 l2) = true ↔ Forall2 le l2 l1.
Proof.
  intros Hl. apply Nat.eq_sym in Hl. revert l2 Hl. induction l1 as [|a l1 IH]; intros [|b l2] Hl; try done.
  cbn [zip_with forallb]. rewrite andb_true_iff, Forall2_cons, IH by (cbn in Hl; lia). apply and_iff_compat_r.
  unfold cmp_rank. destruct (Nat.compare_spec a b); cbn; split; intros; first [done | lia].
Qed.
Lemma zip_joint l1 l2 : forallb joint (zip_with cmp_rank l1 l2) = true.
Proof.
  revert l2. induction l1 as [|a l1 IH]; intros [|b l2]; try done. cbn [zip_with forallb]. rewrite IH, andb_true_r.
  unfold cmp_rank. by destruct (Nat.compare a b).
Qed.

Section order.
Context (m : string) (xs : list string).

Definition applies (p : pattern) : Prop := wf_segments (segments p) = true ∧ matches p m xs = true.

Lemma rank_length p : applies p → length (rank m xs p) = S (length xs).
Proof.
  intros [_ Hm]. unfold matches in Hm. rewrite andb_true_iff, bool_decide_eq_true in Hm. destruct Hm as [_ Hs].
  cbn. by rewrite ranks_length.
Qed.

Lemma compare_rank p q : applies p → applies q →
  comparePathsAndMethods p q = fold_left combineRelationships (zip_with cmp_rank (rank m xs p) (rank m xs q)) Equivalent.
Proof. intros [Hp Mp] [Hq Mq]. by rewrite (compare_ranks p q m xs). Qed.

Lemma at_least_rank p q : applies p → applies q →
  at_least (comparePathsAndMethods p q) = true ↔ Forall2 le (rank m xs p) (rank m xs q).
Proof.
  intros Hp Hq. rewrite compare_rank, fold_at_least by done. cbn [at_least andb].
  apply zip_at_least. by rewrite !rank_length.
Qed.

Lemma at_least_trans p q r : applies p → applies q → applies r →
  at_least (comparePathsAndMethods p q) = true → at_least (comparePathsAndMethods q r) = true →
  at_least (comparePathsAndMethods p r) = true.
Proof.
  intros Hp Hq Hr. rewrite !at_least_rank by done. generalize (rank m xs r), (rank m xs q), (rank m xs p).
  intros c b a Hab. revert c. induction Hab as [|x y a b Hxy _ IH]; intros c Hc; inversion Hc; subst; constructor; [lia|auto].
Qed.

(** Two patterns that match the same request are comparable or they conflict. *)
Lemma at_least_total p q : applies p → applies q → conflictsWith p q = false →
  at_least (comparePathsAndMethods p q) = true ∨ at_least (comparePathsAndMethods q p) = true.
Proof.
  intros Hp Hq Hc. rewrite !at_least_rank by done. unfold conflictsWith in Hc.
  rewrite compare_rank in Hc by done. pose proof (rank_length p Hp) as Lp. pose proof (rank_length q Hq) as Lq.
  pose proof (fold_at_most (zip_with cmp_rank (rank m xs p) (rank m xs q)) Equivalent) as Hm.
  pose proof (fold_at_least (zip_with cmp_rank (rank m xs p) (rank m xs q)) Equivalent) as Hl.
  pose proof (fold_joint (zip_with cmp_rank (rank m xs p) (rank m xs q)) Equivalent) as Hj.
  rewrite zip_joint in Hj. cbn [at_most at_least joint andb] in Hm, Hl, Hj.
  rewrite <-zip_at_least, <-zip_at_most, <-Hm, <-Hl by by rewrite Lp, Lq.
  destruct (fold_left _ _ _); auto.
Qed.

Lemma at_least_refl p : applies p → at_least (comparePathsAndMethods p p) = true.
Proof. intros Hp. rewrite at_least_rank by done. induction (rank m xs p); constructor; [lia|done]. Qed.
End order.

(** ** A registered table *)

Section registered.
Context {H : Type}.
Implicit Types (t : list (pattern * H)) (e : pattern * H).

(** Patterns are well formed and no later one conflicts with an earlier one. *)
Definition table_ok t : Prop :=
  Forall (λ e, wf_segments (segments e.1) = true) t ∧
  ∀ i j a b, (i < j)%nat → t !! i = Some a → t !! j = Some b → conflictsWith b.1 a.1 = false.

Lemma Handle_ok t s h t' : table_ok t → Handle t s h = Ret t' →
  table_ok t' ∧ ∃ p, parsePattern s = Some p ∧ t' = t ++ [(p, h)].
Proof.
  intros [Hwf Hc]. unfold Handle. destruct (parsePattern s) as [p|] eqn:Hp; [|done].
  destruct (existsb _ t) eqn:Hex; [done|]. intros [= <-]. split; [|by eexists]. split.
  - apply Forall_app. split; [done|]. constructor; [by eapply parsePattern_wf|constructor].
  - intros i j a b Hij Ha Hb. pose proof (lookup_lt_Some _ _ _ Hb) as Hj. rewrite length_app in Hj. cbn in Hj.
    destruct (decide (j < length t)%nat) as [Hlt|Hge].
    + rewrite lookup_app_l in Ha, Hb by lia. exact (Hc i j a b Hij Ha Hb).
    + assert (j = length t) as -> by lia. rewrite lookup_app_l in Ha by lia.
      rewrite lookup_app_r, Nat.sub_diag in Hb by lia. injection Hb as <-. cbn.
      apply not_true_is_false. intros Ht. apply not_true_iff_false in Hex. apply Hex, existsb_exists.
      exists a. split; [|exact Ht]. apply list_elem_of_In. by eapply list_elem_of_lookup_2.
Qed.

Lemma register_ok t es t' : table_ok t → register t es = Ret t' →
  table_ok t' ∧ ∃ ps, Forall2 (λ s p, parsePattern s = Some p) es.*1 ps ∧ t' = t ++ zip ps es.*2.
Proof.
  revert t. induction es as [|[s h] es IH]; intros t Hok; cbn.
  - intros [= <-]. split; [done|]. exists []. split; [constructor|]. by rewrite app_nil_r.
  - destruct (Handle t s h) as [t1|] eqn:E; [|done]. cbn. intros Hr.
    apply Handle_ok in E as [Hok1 (p & Hp & ->)]; [|done]. destruct (IH _ Hok1 Hr) as [? (ps & Hps & ->)].
    split; [done|]. exists (p :: ps). split; [by constructor|]. by rewrite <-app_assoc.
Qed.

Lemma candidates_spec t m xs e :
  table_ok t → e ∈ candidates t m xs ↔ e ∈ t ∧ applies m xs e.1.
Proof.
  intros [Hwf _]. rewrite Forall_forall in Hwf. unfold candidates, applies. rewrite list_elem_of_filter. naive_solver.
Qed.

(** The handler found is at least as specific as every other that matches. *)
Lemma match_best t m path e :
  table_ok t → match_ t m path = Some e →
  e ∈ t ∧ applies m (path_segments path) e.1 ∧
  ∀ e', e' ∈ t → applies m (path_segments path) e'.1 → at_least (comparePathsAndMethods e.1 e'.1) = true.
Proof.
  intros Hok Hb. pose proof Hok as [_ Hc]. unfold match_ in Hb. set (xs := path_segments path) in *.
  destruct (proj1 (candidates_spec _ _ _ _ Hok) (best_of_in _ _ _ Hb)) as [Ht Ha]. split; [done|]. split; [done|].
  intros e' Ht' Ha'. refine (best_of_spec _ _ _ _ _ Hb e' (proj2 (candidates_spec _ _ _ _ Hok) (conj Ht' Ha'))).
  - intros a b [Hat Haa]%candidates_spec [Hbt Hba]%candidates_spec; [|done..]. unfold more_specific.
    apply list_elem_of_lookup in Hat as [i Hi], Hbt as [j Hj]. destruct (Nat.lt_trichotomy i j) as [Hlt|[->|Hgt]].
    + apply or_comm. apply (at_least_total m xs); [done..|]. exact (Hc i j a b Hlt Hi Hj).
    + rewrite Hi in Hj. injection Hj as <-. left. by apply (at_least_refl m xs).
    + apply (at_least_total m xs); [done..|]. exact (Hc j i b a Hgt Hj Hi).
  - intros a b c [_ ?]%candidates_spec [_ ?]%candidates_spec [_ ?]%candidates_spec; [|done..]. by apply (at_least_trans m xs).
Qed.

(** A handler is found exactly when some pattern matches, it is registered under a pattern
    that matches, and that pattern matches no request another matching pattern does not. *)
Lemma match_most_specific t m path :
  table_ok t →
  match match_ t m path with
  | Some e => e ∈ t ∧ matches e.1 m (path_segments path) = true ∧
      ∀ e', e' ∈ t → matches e'.1 m (path_segments path) = true →
        ∀ m' xs', matches e.1 m' xs' = true → matches e'.1 m' xs' = true
  | None => ∀ e', e' ∈ t → matches e'.1 m (path_segments path) = false
  end.
Proof.
  intros Hok. pose proof Hok as [Hwf _]. rewrite Forall_forall in Hwf.
  destruct (match_ t m path) as [e|] eqn:Hb.
  - destruct (match_best _ _ _ _ Hok Hb) as (Ht & [He1 He2] & Hbest). split; [done|]. split; [done|].
    intros e' Ht' Hm' m' xs'. apply matches_mono; [done|by apply Hwf|]. apply Hbest; [done|]. split; [by apply Hwf|done].
  - apply best_of_None in Hb. intros e' Ht'. apply not_true_is_false. intros Hm'.
    assert (He : e' ∈ candidates t m (path_segments path)); [|rewrite Hb in He; by apply elem_of_nil in He].
    apply list_elem_of_filter. by split.
Qed.
End registered.

(** ** A request reaches the handler it is addressed to *)

Lemma split_bytes_snoc c l cur : split_bytes c (l ++ [c]) cur = split_bytes c l cur ++ [[]].
Proof.
  revert cur. induction l as [|a l IH]; intros cur; cbn; [by rewrite decide_True|].
  destruct (decide (a = c)); by rewrite IH.
Qed.
Lemma split_bytes_nonempty c l cur : split_bytes c l cur ≠ [].
Proof. revert cur. induction l as [|a l IH]; intros cur; cbn; [done|]. by destruct (decide (a = c)). Qed.
Lemma split_bytes_last_nil c l cur :
  last (split_bytes c l cur) = Some [] → last l = Some c ∨ l = [] ∧ cur = [].
Proof.
  revert cur. induction l as [|a l IH]; intros cur; cbn [split_bytes].
  - cbn. intros [= Hr%(f_equal length)]. rewrite length_rev in Hr. right. by destruct cur.
  - rewrite (last_cons a). destruct (decide (a = c)) as [->|Hne].
    + rewrite last_cons. pose proof (split_bytes_nonempty c l []) as Hne.
      destruct (last (split_bytes c l [])) as [e|] eqn:E; [|by apply last_None in E].
      intros [= ->]. left. apply IH in E as [->|[-> _]]; done.
    + intros [->|[_ [=]]]%IH. by left.
Qed.

Lemma path_segments_slash elems :
  ends_in_slash ("/"%char :: elems) = false →
  path_segments ("/"%char :: elems ++ ["/"%char]) = path_segments ("/"%char :: elems) ++ ["/"%string].
Proof.
  intros Hs. cbn [path_segments]. rewrite split_bytes_snoc.
  unfold ends_in_slash in Hs. apply bool_decide_eq_false in Hs. rewrite last_cons in Hs.
  pose proof (split_bytes_last_nil "/"%char elems []) as Hlast.
  set (es := split_bytes "/" elems []) in *. rewrite imap_app, length_app. cbn [imap length].
  f_equal.
  - apply imap_ext. intros i e Hi. assert (Hlt := lookup_lt_Some _ _ _ Hi).
    rewrite (bool_decide_false (e = [] ∧ S i = (length es + 1)%nat)) by lia.
    rewrite bool_decide_false; [done|]. intros [-> Hl].
    assert (Hl' : last es = Some []) by (rewrite last_lookup, <-Hl; exact Hi).
    destruct (Hlast Hl') as [Hc|[-> _]]; [by rewrite Hc in Hs|]. by cbn in Hs.
  - by rewrite bool_decide_true by (split; [done|lia]).
Qed.

Lemma path_segments_nonempty elems : path_segments ("/"%char :: elems) ≠ [].
Proof.
  cbn [path_segments]. pose proof (split_bytes_nonempty "/"%char elems []) as Hn.
  destruct (split_bytes "/" elems []); [done|]. by cbn.
Qed.

(** The root's pattern matches every request. *)
Lemma root_matches m elems : matches (mkPattern "" [subtree]) m (path_segments ("/"%char :: elems)) = true.
Proof.
  unfold matches. cbn [method segments match_method andb]. apply bool_decide_eq_true.
  pose proof (path_segments_nonempty elems). destruct (path_segments _); [done|]. by eexists.
Qed.

Section addressed.
Context {H : Type}.
Implicit Types (t : list (pattern * H)).

Lemma table_ok_nil : table_ok (H:=H) [].
Proof. split; [constructor|]. intros ???? _ Ha. by rewrite lookup_nil in Ha. Qed.

(** The table holds the registered handlers under their parsed patterns. *)
Lemma register_elem (es : list (string * H)) t p h :
  register [] es = Ret t → (p, h) ∈ t → ∃ s, (s, h) ∈ es ∧ parsePattern s = Some p.
Proof.
  intros [_ (ps & Hps & ->)]%register_ok Hin; [|apply table_ok_nil].
  cbn in Hin. apply list_elem_of_lookup in Hin as [i Hi].
  apply lookup_zip_Some in Hi as [Hp Hh]. destruct (Forall2_lookup_r _ _ _ _ _ Hps Hp) as (s & Hs & Hparse).
  exists s. split; [|done]. apply list_elem_of_lookup. exists i. rewrite list_lookup_fmap in Hs. rewrite list_lookup_fmap in Hh.
  destruct (es !! i) as [[s' h']|]; [|done]. cbn in *. congruence.
Qed.
Lemma register_in (es : list (string * H)) t s h p :
  register [] es = Ret t → (s, h) ∈ es → parsePattern s = Some p → (p, h) ∈ t.
Proof.
  intros [_ (ps & Hps & ->)]%register_ok Hin Hparse; [|apply table_ok_nil].
  apply list_elem_of_lookup in Hin as [i Hi].
  assert (Hs : es.*1 !! i = Some s) by (by rewrite list_lookup_fmap, Hi).
  destruct (Forall2_lookup_l _ _ _ _ _ Hps Hs) as (p' & Hp' & Hparse'). rewrite Hparse in Hparse'. injection Hparse' as <-.
  apply list_elem_of_lookup. exists i. cbn [app]. apply lookup_zip_Some. split; [done|]. by rewrite list_lookup_fmap, Hi.
Qed.

(** [s'] is registered for requests [s] matches too, and not for fewer of them. *)
Definition outranks (s' s : string) : bool :=
  match parsePattern s', parsePattern s with
  | Some p', Some p => at_least (comparePathsAndMethods p' p)
  | _, _ => false
  end.
(** No request matches both. *)
Definition apart (s' : string) (p : pattern) : bool :=
  match parsePattern s' with Some p' => negb (joint (comparePathsAndMethods p' p)) | None => true end.

Lemma match_exact (es : list (string * H)) t s h p m path :
  NoDup es.*1 → register [] es = Ret t → (s, h) ∈ es → parsePattern s = Some p →
  matches p m (path_segments path) = true →
  (∀ s', s' ∈ es.*1 → s' ≠ s → ∀ p', parsePattern s' = Some p' → matches p' m (path_segments path) = true →
     outranks s' s = false) →
  match_ t m path = Some (p, h).
Proof.
  intros Hnd Hr Hin Hp Hm Hout. pose proof (proj1 (register_ok _ _ _ table_ok_nil Hr)) as Hok.
  pose proof (register_in _ _ _ _ _ Hr Hin Hp) as Ht.
  pose proof (parsePattern_wf _ _ Hp) as Hwf.
  pose proof (match_most_specific t m path Hok) as Hsome.
  destruct (match_ t m path) as [[p' h']|] eqn:Em; [clear Hsome|specialize (Hsome _ Ht); cbn in Hsome; congruence].
  destruct (match_best _ _ _ _ Hok Em) as (Ht' & [Hwf' Hm'] & Hbest).
  destruct (register_elem _ _ _ _ Hr Ht') as (s' & Hin' & Hp'). destruct (decide (s' = s)) as [->|Hne].
  - rewrite Hp in Hp'. injection Hp' as <-. f_equal. f_equal.
    apply list_elem_of_lookup in Hin as [i Hi], Hin' as [j Hj].
    assert (i = j) as ->; [|congruence]. apply (NoDup_lookup _ _ _ s Hnd); by rewrite list_lookup_fmap, ?Hi, ?Hj.
  - specialize (Hbest _ Ht (conj Hwf Hm)). cbn [fst] in Hbest.
    assert (Hs' : s' ∈ es.*1) by (apply list_elem_of_fmap; by exists (s', h')).
    specialize (Hout s' Hs' Hne p' Hp' Hm'). unfold outranks in Hout. rewrite Hp, Hp' in Hout. congruence.
Qed.

Lemma joint_matches p q m xs : applies m xs p → applies m xs q → joint (comparePathsAndMethods p q) = true.
Proof. intros Hp Hq. by rewrite (compare_rank m xs), fold_joint, zip_joint. Qed.

Lemma apart_matches s' p' p m xs :
  parsePattern s' = Some p' → wf_segments (segments p) = true → apart s' p = true →
  matches p m xs = true → matches p' m xs = false.
Proof.
  intros Hp' Hwf Ha Hm. apply not_true_is_false. intros Hm'. unfold apart in Ha. rewrite Hp' in Ha.
  rewrite (joint_matches p' p m xs) in Ha; [done|split; [by eapply parsePattern_wf|done]|by split].
Qed.

(** [s/]: what the redirect to a trailing slash asks for. *)
Definition slashed (p : pattern) : pattern := mkPattern (method p) (segments p ++ [subtree]).

Lemma slashed_wf p : last_multi (segments p) = false → wf_segments (segments p) = true → wf_segments (segments (slashed p)) = true.
Proof.
  cbn. induction (segments p) as [|s l IH]; [done|]. intros Hl Hw. destruct l as [|s' l].
  - cbn in Hl |- *. by rewrite Hl.
  - cbn [app wf_segments] in *. apply andb_true_iff in Hw as [Hm Hw]. rewrite Hm. cbn [andb]. apply IH; [exact Hl|exact Hw].
Qed.
Lemma slashed_matches p m xs :
  last_multi (segments p) = false → wf_segments (segments p) = true →
  matches p m xs = true → matches (slashed p) m (xs ++ ["/"%string]) = true.
Proof.
  unfold matches. rewrite !andb_true_iff, !bool_decide_eq_true. intros Hl Hw [Hm Hs]. split; [done|]. clear Hm. cbn [slashed segments].
  revert xs Hs Hl Hw. induction (segments p) as [|s l IH]; intros [|x xs]; cbn [app match_segments]; try (by intros []).
  intros Hs Hl Hw. destruct (multi s) eqn:E; [by eexists|]. rewrite (last_multi_cons _ _ E) in Hl. apply wf_segments_cons in Hw.
  destruct (wild s).
  - destruct (bool_decide _); [done|]. rewrite fmap_is_Some in *. by apply IH.
  - destruct (bool_decide _); [by apply IH|by destruct Hs].
Qed.

(** A request with a clean path is handed to the pattern it is addressed to, when no other
    that matches outranks it. *)
Lemma findHandler_serve t r p h :
  t_method r ≠ "CONNECT"%string → cleanPath (bytes_of (t_escaped r)) = bytes_of (t_escaped r) →
  match_ t (t_method r) (bytes_of (t_escaped r)) = Some (p, h) → slash_redirect t r (bytes_of (t_escaped r)) = None →
  findHandler t r = Serve p h (default [] (match_segments (segments p) (path_segments (bytes_of (t_escaped r))))).
Proof.
  intros Hc Hclean Hm Hs. unfold findHandler. cbv zeta.
  rewrite (bool_decide_false (t_method r = _)) by done. cbn [negb andb]. rewrite Hclean, Hs, bool_decide_true by done.
  cbn [negb]. by rewrite Hm.
Qed.

Lemma no_slash_redirect t r path p h :
  match_ t (t_method r) path = Some (p, h) → last_multi (segments p) = false → slash_redirect t r path = None.
Proof.
  intros Hm Hl. unfold slash_redirect. rewrite Hm. cbn [exactMatch fst].
  destruct (ends_in_slash path); [by rewrite andb_false_r|]. by rewrite Hl.
Qed.

Lemma root_no_redirect t r elems m h :
  let path := "/"%char :: elems in
  match_ t (t_method r) path = Some (mkPattern m [subtree], h) →
  (ends_in_slash path = false → match_ t (t_method r) (path ++ ["/"%char]) = Some (mkPattern m [subtree], h)) →
  slash_redirect t r path = None.
Proof.
  cbv zeta. intros Hm Hs. unfold slash_redirect. destruct (ends_in_slash ("/"%char :: elems)) eqn:E; [by rewrite andb_false_r|].
  rewrite (Hs eq_refl). cbn [exactMatch fst segments].
  rewrite bool_decide_false; [by match goal with |- context [ends_in_slash ?l] => destruct (ends_in_slash l) end; cbn [last_multi multi subtree negb]; rewrite ?andb_false_r|].
  unfold count_slashes. rewrite filter_app, length_app. cbn [app].
  rewrite (filter_cons_True _ "/"%char elems), (filter_cons_True _ "/"%char []) by done. cbn. lia.
Qed.
End addressed.

Lemma cleanPath_rooted path : ∃ elems, cleanPath path = "/"%char :: elems.
Proof. unfold cleanPath. destruct path as [|c l]; [by eexists|]. cbv zeta. destruct (_ && _); eexists; reflexivity. Qed.

(** ** Two tables with the same patterns

    The router looks at patterns only: tables that differ in their handlers pick related
    handlers for the same request. *)
Section related.
Context {H H' : Type} (R : H → H' → Prop).

Definition entry_rel (e : pattern * H) (e' : pattern * H') : Prop := e.1 = e'.1 ∧ R e.2 e'.2.
Definition decision_rel (d : decision H) (d' : decision H') : Prop :=
  match d, d' with
  | Serve p h v, Serve p' h' v' => p = p' ∧ R h h' ∧ v = v'
  | MovedPermanently u, MovedPermanently u' => u = u'
  | MethodNotAllowed l, MethodNotAllowed l' => l = l'
  | NoRoute, NoRoute => True
  | _, _ => False
  end.

Lemma filter_related (P : pattern → bool) (t : list (pattern * H)) (t' : list (pattern * H')) :
  Forall2 entry_rel t t' → Forall2 entry_rel (filter (λ e, P e.1 = true) t) (filter (λ e, P e.1 = true) t').
Proof.
  induction 1 as [|e e' t t' [He HR] _ IH]; [constructor|]. rewrite !filter_cons, <-He.
  destruct (decide _); [by constructor|done].
Qed.
Lemma best_related (t : list (pattern * H)) (t' : list (pattern * H')) :
  Forall2 entry_rel t t' → option_Forall2 entry_rel (best_of more_specific t) (best_of more_specific t').
Proof.
  induction 1 as [|e e' t t' He _ IH]; [constructor|].
  change (option_Forall2 entry_rel (better more_specific e (best_of more_specific t))
            (better more_specific e' (best_of more_specific t'))).
  unfold better. destruct IH as [y y' Hy|]; [|by constructor].
  unfold more_specific. rewrite <-(proj1 He), <-(proj1 Hy). destruct (at_least _); by constructor.
Qed.
Lemma match_related (t : list (pattern * H)) (t' : list (pattern * H')) m path :
  Forall2 entry_rel t t' → option_Forall2 entry_rel (match_ t m path) (match_ t' m path).
Proof. intros Ht. apply best_related. by apply (filter_related (λ p, matches p m (path_segments path))). Qed.

Lemma exactMatch_related e e' path :
  option_Forall2 entry_rel e e' → exactMatch e path = exactMatch e' path.
Proof. intros [x x' [Hx _]|]; [|done]. cbn. by rewrite Hx. Qed.
Lemma slash_redirect_related (t : list (pattern * H)) (t' : list (pattern * H')) r path :
  Forall2 entry_rel t t' → slash_redirect t r path = slash_redirect t' r path.
Proof.
  intros Ht. unfold slash_redirect.
  rewrite (exactMatch_related _ _ path (match_related t t' (t_method r) path Ht)).
  by rewrite (exactMatch_related _ _ (path ++ ["/"%char]) (match_related t t' (t_method r) _ Ht)).
Qed.
Lemma matchingMethods_related (t : list (pattern * H)) (t' : list (pattern * H')) path : Forall2 entry_rel t t' → matchingMethods t path = matchingMethods t' path.
Proof.
  intros Ht. unfold matchingMethods. cbv zeta.
  match goal with |- context [filter ?P t] => match goal with |- context [filter ?P' t'] =>
    assert (Hf : (method ∘ fst) <$> filter P t = (method ∘ fst) <$> filter P' t') end end; [|by rewrite Hf].
  induction Ht as [|e e' t t' [He _] _ IH]; [done|]. rewrite !filter_cons, <-!He.
  destruct (decide _); cbn; rewrite ?IH, <-?He; done.
Qed.

Lemma findHandler_related (t : list (pattern * H)) (t' : list (pattern * H')) r :
  Forall2 entry_rel t t' → decision_rel (findHandler t r) (findHandler t' r).
Proof.
  intros Ht. unfold findHandler. cbv zeta. rewrite (slash_redirect_related t t') by done.
  destruct (slash_redirect _ _ _); [done|]. destruct (_ && _); [done|].
  rewrite <-(matchingMethods_related t t') by done.
  match goal with |- context [match_ t ?m ?p] => destruct (match_related t t' m p Ht) as [x x' [Hx HR]|] end.
  - rewrite Hx. by split_and!.
  - destruct (matchingMethods _ _); done.
Qed.

Lemma register_related (t : list (pattern * H)) (t' : list (pattern * H')) (es : list (string * H)) (es' : list (string * H')) u :
  Forall2 entry_rel t t' → Forall2 (λ e e', e.1 = e'.1 ∧ R e.2 e'.2) es es' → register t es = Ret u →
  ∃ u', register t' es' = Ret u' ∧ Forall2 entry_rel u u'.
Proof.
  intros Ht Hes. revert t t' Ht. induction Hes as [|[s h] [s' h'] es es' [[= <-] HR] _ IH]; intros t t' Ht; cbn.
  - intros [= <-]. by exists t'.
  - unfold Handle. destruct (parsePattern s) as [p|]; [|done].
    assert (Hex : existsb (λ e, conflictsWith p e.1) t = existsb (λ e, conflictsWith p e.1) t').
    { induction Ht as [|e e' t t' [He _] _ IHt]; [done|]. cbn. by rewrite He, IHt. }
    rewrite <-Hex. destruct (existsb _ t); [done|]. cbn. apply IH. apply Forall2_app; [done|].
    constructor; [by split|constructor].
Qed.
End related.
