(* ===== verification/GoRunes.v ===== *)
(** * Runes: [unicode/utf8] and the functions of [strings] that work on them

    Decoding gives the replacement rune for each byte that starts no valid sequence, as a
    Go [range] over a string does; encoding writes it for a rune out of range. The upper
    case of a rune outside ASCII is the table of package [unicode], a parameter. *)

From Stdlib Require Import ZArith Lia Ascii.
From Stdlib Require String.
From stdpp Require Import base option strings list.
From S2P Require Import Prelude GoString.

Local Open Scope Z_scope.

Definition RuneError : Z := 65533.

(** [utf8.EncodeRune]. *)
Definition EncodeRune (r : Z) : list ascii :=
  let r := if (r <? 0) || (1114111 <? r) || ((55296 <=? r) && (r <=? 57343)) then RuneError else r in
  ascii_of <$>
    (if r <? 128 then [r]
     else if r <? 2048 then [192 + r / 64; 128 + r mod 64]
     else if r <? 65536 then [224 + r / 4096; 128 + (r / 64) mod 64; 128 + r mod 64]
     else [240 + r / 262144; 128 + (r / 4096) mod 64; 128 + (r / 64) mod 64; 128 + r mod 64]).

Definition between (lo hi n : Z) : bool := (lo <=? n) && (n <=? hi).

(** The length of the sequence a first byte announces, and the range of its second byte. *)
Definition lead (b : Z) : option (nat * Z * Z) :=
  if between 194 223 b then Some (2%nat, 128, 191)
  else if b =? 224 then Some (3%nat, 160, 191)
  else if between 225 236 b || between 238 239 b then Some (3%nat, 128, 191)
  else if b =? 237 then Some (3%nat, 128, 159)
  else if b =? 240 then Some (4%nat, 144, 191)
  else if between 241 243 b then Some (4%nat, 128, 191)
  else if b =? 244 then Some (4%nat, 128, 143)
  else None.

(** [utf8.DecodeRune]: the rune and its width. *)
Definition DecodeRune (l : list Z) : Z * nat :=
  match l with
  | [] => (RuneError, O)
  | b :: l =>
      if b <? 128 then (b, 1%nat)
      else
        match lead b, l with
        | Some (2%nat, lo, hi), c :: _ =>
            if between lo hi c then (64 * (b - 192) + (c - 128), 2%nat) else (RuneError, 1%nat)
        | Some (3%nat, lo, hi), c :: d :: _ =>
            if between lo hi c && between 128 191 d
            then (4096 * (b - 224) + 64 * (c - 128) + (d - 128), 3%nat) else (RuneError, 1%nat)
        | Some (4%nat, lo, hi), c :: d :: e :: _ =>
            if between lo hi c && between 128 191 d && between 128 191 e
            then (262144 * (b - 240) + 4096 * (c - 128) + 64 * (d - 128) + (e - 128), 4%nat)
            else (RuneError, 1%nat)
        | _, _ => (RuneError, 1%nat)
        end
  end.

(** [[]rune(s)] and [string(runes)]. *)
Fixpoint decode_runes (fuel : nat) (l : list Z) : list Z :=
  match fuel, l with
  | S fuel, _ :: _ => let '(r, n) := DecodeRune l in r :: decode_runes fuel (drop n l)
  | _, _ => []
  end.
Definition runes_of (s : string) : list Z := decode_runes (String.length s) (byte_of <$> bytes_of s).
Definition string_of_runes (l : list Z) : string := of_bytes (l ≫= EncodeRune).

(** [unicode.IsSpace]. *)
Definition IsSpace (r : Z) : bool :=
  between 9 13 r || bool_decide (r ∈ [32; 133; 160; 5760; 8232; 8233; 8239; 8287; 12288]) || between 8192 8202 r.

(** [strings.Fields], each field as its runes. *)
Fixpoint rune_fields (l cur : list Z) : list (list Z) :=
  match l with
  | [] => match cur with [] => [] | _ => [rev cur] end
  | r :: l =>
      if IsSpace r then match cur with [] => rune_fields l [] | _ => rev cur :: rune_fields l [] end
      else rune_fields l (r :: cur)
  end.
Definition Fields (s : string) : list (list Z) := rune_fields (runes_of s) [].

(** [unicode.ToUpper] outside ASCII. *)
Class CaseTable := { upper_rune : Z → Z }.

Definition ToUpperRunes `{CaseTable} (l : list Z) : string :=
  string_of_runes ((λ r, if between 97 122 r then r - 32 else if r <? 128 then r else upper_rune r) <$> l).

Example runes_two : runes_of "é▦" = [233; 9638].
Proof. vm_compute. reflexivity. Qed.
Example runes_bad : runes_of (of_bytes (ascii_of <$> [226; 32; 255])) = [RuneError; 32; RuneError].
Proof. vm_compute. reflexivity. Qed.
