(* ===== verification/GoHtml.v ===== *)
(** * Escapers of [html/template]

    What the template package applies to a value before it is written into a page: the
    replacement of HTML metacharacters, the filter and the two encoders of URLs, the filter
    of CSS values. Each works byte by byte on a Go string; the bytes of a multi-byte rune
    are never special. [html_decode] is the reader's side: what a browser makes of the
    character references the replacement writes. *)

From Stdlib Require Import ZArith Lia Ascii.
From Stdlib Require String.
From stdpp Require Import base option sets strings list.
From S2P Require Import Prelude GoString GoUrl GoRunes.

Local Open Scope Z_scope.

(** ** HTML (html.go) *)

Definition byte_is (n : Z) (a : ascii) : bool := byte_of a =? n.

(** [htmlReplacementTable]: NUL, the double quote, ampersand, single quote, plus, less and greater. *)
Definition htmlReplacementTable (a : ascii) : option string :=
  if byte_is 0 a then Some (of_bytes (ascii_of <$> [239; 191; 189]))
  else if byte_is 34 a then Some "&#34;"%string
  else if byte_is 38 a then Some "&amp;"%string
  else if byte_is 39 a then Some "&#39;"%string
  else if byte_is 43 a then Some "&#43;"%string
  else if byte_is 60 a then Some "&lt;"%string
  else if byte_is 62 a then Some "&gt;"%string
  else None.

Definition html_replace (a : ascii) : list ascii :=
  match htmlReplacementTable a with Some r => bytes_of r | None => [a] end.
Definition html_replace_all (l : list ascii) : list ascii := l ≫= html_replace.
Definition htmlReplacer (s : string) : string := of_bytes (html_replace_all (bytes_of s)).

(** ** URLs (url.go) *)

Definition filterFailsafe : string := "ZgotmplZ".

(** The runes that fold to an ASCII letter: the letter's other case, and the long s. *)
Fixpoint fold_ascii (l : list ascii) : list ascii :=
  match l with
  | a :: ((b :: l) as l') =>
      if byte_is 197 a && byte_is 191 b then "s"%char :: fold_ascii l else lower_byte a :: fold_ascii l'
  | [a] => [lower_byte a]
  | [] => []
  end.

Definition safe_scheme (p : list ascii) : bool :=
  bool_decide (of_bytes (fold_ascii p) ∈ ["http"; "https"; "mailto"]%string).

(** [isSafeURL]: a URL with a scheme, before any slash, has one of three schemes. *)
Definition isSafeURL (s : string) : bool :=
  match index_byte ":" (bytes_of s) with
  | Some i => let protocol := take i (bytes_of s) in
              bool_decide ("/"%char ∈ protocol) || safe_scheme protocol
  | None => true
  end.

Definition urlFilter (s : string) : string :=
  if isSafeURL s then s else str_app "#" filterFailsafe.

Definition lower_hex (n : Z) : ascii := ascii_of (if n <? 10 then 48 + n else 87 + n).
Definition percent (a : ascii) : list ascii :=
  ["%"%char; lower_hex (byte_of a / 16); lower_hex (byte_of a mod 16)].

(** The reserved bytes a normalizer leaves alone. *)
Definition url_reserved (a : ascii) : bool := one_of "!#$&*+,/:;=?@[]" a.
Definition url_unreserved (a : ascii) : bool := is_alpha a || is_num a || one_of "-._~" a.

(** [processURLOnto]: [norm] keeps reserved bytes and valid escapes. *)
Fixpoint process_url (norm : bool) (l : list ascii) : list ascii :=
  match l with
  | [] => []
  | a :: l =>
      let keep :=
        url_unreserved a || (norm && url_reserved a) ||
        (norm && byte_is 37 a && match l with h :: d :: _ => is_hex h && is_hex d | _ => false end) in
      (if keep then [a] else percent a) ++ process_url norm l
  end.
Definition urlEscaper (s : string) : string := of_bytes (process_url false (bytes_of s)).
Definition urlNormalizer (s : string) : string := of_bytes (process_url true (bytes_of s)).

(** ** CSS values (css.go) *)

Definition hex_value (l : list ascii) : Z := fold_left (λ n a, 16 * n + unhex a) l 0.

(** The hex digits of an escape: at most [n]. *)
Fixpoint hex_run (n : nat) (l : list ascii) : list ascii * list ascii :=
  match n, l with
  | S n, a :: l' => if is_hex a then let '(d, r) := hex_run n l' in (a :: d, r) else ([], l)
  | _, _ => ([], l)
  end.

(** [skipCSSSpace]: one white space, a CRLF counting as one. *)
Definition skipCSSSpace (l : list ascii) : list ascii :=
  match l with
  | a :: l' =>
      if one_of " " a || byte_is 9 a || byte_is 10 a || byte_is 12 a then l'
      else if byte_is 13 a then match l' with b :: l'' => if byte_is 10 b then l'' else l' | [] => l' end
      else l
  | [] => l
  end.

(** [decodeCSS]. Escapes of characters that are not hex digits stand for the character. *)
Fixpoint decode_css (fuel : nat) (l : list ascii) : list ascii :=
  match fuel, l with
  | S fuel, a :: l' =>
      if byte_is 92 a then
        match l' with
        | [] => []
        | b :: l'' =>
            if is_hex b then
              let '(d, rest) := hex_run 6 l' in
              let r := hex_value d in
              if 1114111 <? r
              then EncodeRune (r / 16) ++ decode_css fuel (skipCSSSpace (drop (length d - 1) l'))
              else EncodeRune r ++ decode_css fuel (skipCSSSpace rest)
            else b :: decode_css fuel l''
        end
      else a :: decode_css fuel l'
  | _, _ => []
  end.
Definition decodeCSS (s : string) : list ascii := decode_css (S (String.length s)) (bytes_of s).

Definition css_nmchar (a : ascii) : bool := is_alpha a || is_num a || one_of "-_" a.
Definition css_forbidden (a : ascii) : bool :=
  byte_is 0 a || byte_is 34 a || one_of "'()/;@[\]`{}<>" a.

(** A dash that follows a dash. *)
Fixpoint double_dash (l : list ascii) : bool :=
  match l with
  | a :: ((b :: _) as l') => (byte_is 45 a && byte_is 45 b) || double_dash l'
  | _ => false
  end.
Fixpoint contains_bytes (p l : list ascii) : bool :=
  hasPrefix_bytes p l || match l with [] => false | _ :: l => contains_bytes p l end.

Definition cssValueFilter (s : string) : string :=
  let b := decodeCSS s in
  let id := lower_byte <$> filter (λ a, css_nmchar a = true ∧ a ≠ "-"%char) b in
  if existsb css_forbidden b || double_dash b ||
     contains_bytes (bytes_of "expression") id || contains_bytes (bytes_of "mozbinding") id
  then filterFailsafe else of_bytes b.

Example filter_percent : cssValueFilter "71.4%" = "71.4%"%string.
Proof. vm_compute. reflexivity. Qed.
Example filter_script : urlFilter "javascript:alert(1)" = "#ZgotmplZ"%string.
Proof. vm_compute. reflexivity. Qed.
Example normalize_route : urlNormalizer "/orders/{id}?a b%2f" = "/orders/%7bid%7d?a%20b%2f"%string.
Proof. vm_compute. reflexivity. Qed.

(** ** What the replacement guarantees *)

(** The bytes that end an attribute or open a tag. *)
Definition markup (a : ascii) : bool := byte_is 34 a || byte_is 39 a || byte_is 60 a || byte_is 62 a.

Lemma html_replace_inert a : forallb (λ b, negb (markup b)) (html_replace a) = true.
Proof. destruct a as [[] [] [] [] [] [] [] []]; vm_compute; reflexivity. Qed.

Lemma htmlReplacer_inert s : forallb (λ b, negb (markup b)) (bytes_of (htmlReplacer s)) = true.
Proof.
  unfold htmlReplacer. rewrite bytes_of_of. unfold html_replace_all.
  induction (bytes_of s) as [|a l IH]; [done|]. cbn [mbind list_bind].
  rewrite forallb_app, html_replace_inert. exact IH.
Qed.

(** The reader: the numeric and named references the replacement writes. *)
Definition references : list (string * Z) :=
  [("&#34;", 34); ("&amp;", 38); ("&#39;", 39); ("&#43;", 43); ("&lt;", 60); ("&gt;", 62)]%string.
Definition reference_at (l : list ascii) : option (nat * ascii) :=
  match list_find (λ r, hasPrefix_bytes (bytes_of r.1) l = true) references with
  | Some (_, r) => Some (String.length r.1, ascii_of r.2)
  | None => None
  end.
Fixpoint html_decode_bytes (skip : nat) (l : list ascii) : list ascii :=
  match l with
  | [] => []
  | a :: l' =>
      match skip with
      | S skip => html_decode_bytes skip l'
      | O => match reference_at l with
             | Some (n, b) => b :: html_decode_bytes (n - 1) l'
             | None => a :: html_decode_bytes 0 l'
             end
      end
  end.
Definition html_decode (s : string) : string := of_bytes (html_decode_bytes 0 (bytes_of s)).

Lemma byte_is_elim n a : byte_is n a = true → a = ascii_of n.
Proof. unfold byte_is. intros <-%Z.eqb_eq. by rewrite ascii_of_byte_of. Qed.

Lemma reference_at_amp a l : byte_is 38 a = false → reference_at (a :: l) = None.
Proof.
  intros Ha. assert (Hne : bool_decide ("&"%char = a) = false) by (apply bool_decide_false; intros <-; discriminate Ha).
  unfold reference_at. rewrite (proj2 (list_find_None _ _)); [done|].
  unfold references. repeat apply Forall_cons_2; try apply Forall_nil_2; cbn; rewrite Hne; discriminate.
Qed.

Lemma html_decode_replace a l :
  byte_is 0 a = false → html_decode_bytes 0 (html_replace a ++ l) = a :: html_decode_bytes 0 l.
Proof.
  intros Ha0. unfold html_replace, htmlReplacementTable. rewrite Ha0.
  destruct (byte_is 34 a) eqn:E; [rewrite (byte_is_elim _ _ E); reflexivity|].
  destruct (byte_is 38 a) eqn:Eamp; [rewrite (byte_is_elim _ _ Eamp); reflexivity|].
  clear E. destruct (byte_is 39 a) eqn:E; [rewrite (byte_is_elim _ _ E); reflexivity|].
  clear E. destruct (byte_is 43 a) eqn:E; [rewrite (byte_is_elim _ _ E); reflexivity|].
  clear E. destruct (byte_is 60 a) eqn:E; [rewrite (byte_is_elim _ _ E); reflexivity|].
  clear E. destruct (byte_is 62 a) eqn:E; [rewrite (byte_is_elim _ _ E); reflexivity|].
  cbn. by rewrite reference_at_amp.
Qed.

(** A page shows the value itself: decoding what the replacement wrote gives it back. *)
Lemma html_decode_htmlReplacer s :
  Forall (λ a, byte_is 0 a = false) (bytes_of s) → html_decode (htmlReplacer s) = s.
Proof.
  intros Hs. unfold html_decode, htmlReplacer. rewrite bytes_of_of. unfold html_replace_all.
  rewrite <-(of_bytes_of s) at 2. f_equal. induction (bytes_of s) as [|a l IH]; [done|].
  apply Forall_cons in Hs as [Ha Hl]. cbn [mbind list_bind]. rewrite html_decode_replace by done. f_equal. auto.
Qed.
