(* ===== verification/GoTemplate.v ===== *)
(** * [text/template]: values, syntax, execution, types

    The template language as far as the program's pages use it. Data is what reflection
    shows of a Go value; a template is a tree in which every node carries what follows it;
    execution writes a list of chunks and fails where Go's does: a missing field, a range
    over something that is not a slice, a function applied to a value of another type, a
    template that is not defined. The type checker decides from the type of the data that
    none of these can happen ([exec_sound]). *)

From Stdlib Require Import ZArith Lia Ascii Floats.
From Stdlib Require String.
From stdpp Require Import base option strings list.
From S2P Require Import Prelude GoFloat GoString GoUrl GoHtml.

Local Open Scope Z_scope.
Local Open Scope go_scope.

(** ** Data *)

Inductive numkind := Int | Uint32 | Uint64.
#[export] Instance numkind_eq_dec : EqDecision numkind.
Proof. solve_decision. Defined.

Inductive value :=
  | VNil
  | VString (s : string)
  | VHTML (s : string)  (* template.HTML *)
  | VNum (k : numkind) (n : Z)
  | VFloat (x : f64)
  | VBool (b : bool)
  | VStruct (fields : list (string * value))
  | VSlice (l : list value).

(** Go types of data. *)
Inductive ty :=
  | TNil | TString | THTML | TNum (k : numkind) | TFloat | TBool
  | TStruct (fields : list (string * ty))
  | TSlice (t : ty).

(** The truth of a value in a condition: a struct is always true. *)
Definition truth (v : value) : bool :=
  match v with
  | VNil => false
  | VString s | VHTML s => negb (String.eqb s "")
  | VNum _ n => negb (n =? 0)
  | VFloat x => negb (x =? 0)%float
  | VBool b => b
  | VStruct _ => true
  | VSlice l => match l with [] => false | _ => true end
  end.

(** The first binding of a name. *)
Fixpoint assoc {A} (x : string) (l : list (string * A)) : option A :=
  match l with
  | [] => None
  | (y, a) :: l => if String.eqb x y then Some a else assoc x l
  end.

(** ** Syntax *)

Inductive expr :=
  | EDot
  | EVar (x : string)
  | EField (e : expr) (f : string)
  | EStr (s : string)
  | ECall (f : string) (args : list expr).

(** The escapers [html/template] appends to an action. *)
Inductive escaper :=
  | htmlescaper | rcdataescaper | attrescaper | urlfilter | urlnormalizer | urlescaper | cssvaluefilter.
#[export] Instance escaper_eq_dec : EqDecision escaper.
Proof. solve_decision. Defined.

Inductive tree :=
  | Done
  | Text (s : string) (k : tree)
  | Action (e : expr) (esc : list escaper) (k : tree)
  | Assign (x : string) (e : expr) (k : tree)
  | If (c : expr) (thn els : tree) (k : tree)
  | Range (i x : option string) (e : expr) (body els : tree) (k : tree)
  | Call (name : string) (arg : option expr) (k : tree).

(** A Go raw string literal, in which a double quote is written as a back quote: raw
    literals contain none. *)
Definition raw (s : string) : string :=
  of_bytes ((λ a, if Ascii.eqb a "`" then ascii_of 34 else a) <$> bytes_of s).

(** *** The lexer *)

Inductive token :=
  | TokOperand (e : expr) | TokIdent (s : string) | TokString (s : string)
  | TokOpen | TokClose | TokAssign | TokComma.
Inductive item := ItemText (s : string) | ItemAction (l : list token).

(** The text before and after the first pair of a byte. *)
Fixpoint cut_pair (c : ascii) (l : list ascii) : option (list ascii * list ascii) :=
  match l with
  | a :: ((b :: r) as l') =>
      if Ascii.eqb a c && Ascii.eqb b c then Some ([], r)
      else prod_map (cons a) id <$> cut_pair c l'
  | _ => None
  end.

Definition ident_byte (a : ascii) : bool := is_alpha a || is_num a || Ascii.eqb a "_".

Fixpoint take_ident (l : list ascii) : list ascii * list ascii :=
  match l with
  | a :: l' => if ident_byte a then prod_map (cons a) id (take_ident l') else ([], l)
  | [] => ([], [])
  end.

(** A chain of fields after an operand. *)
Fixpoint lex_fields (fuel : nat) (e : expr) (l : list ascii) : expr * list ascii :=
  match fuel, l with
  | S fuel, "."%char :: l' =>
      match take_ident l' with
      | ([], _) => (e, l)
      | (f, r) => lex_fields fuel (EField e (of_bytes f)) r
      end
  | _, _ => (e, l)
  end.

Fixpoint lex_action (fuel : nat) (l : list ascii) : option (list token) :=
  match fuel with
  | O => None
  | S fuel =>
      match l with
      | [] => Some []
      | a :: l' =>
          if is_space a then lex_action fuel l'
          else if Ascii.eqb a "(" then cons TokOpen <$> lex_action fuel l'
          else if Ascii.eqb a ")" then cons TokClose <$> lex_action fuel l'
          else if Ascii.eqb a "," then cons TokComma <$> lex_action fuel l'
          else if Ascii.eqb a ":" then
            match l' with "="%char :: r => cons TokAssign <$> lex_action fuel r | _ => None end
          else if byte_is 34 a then
            match index_byte (ascii_of 34) l' with
            | Some i => if existsb (byte_is 92) (take i l') then None
                        else cons (TokString (of_bytes (take i l'))) <$> lex_action fuel (drop (S i) l')
            | None => None
            end
          else if Ascii.eqb a "$" then
            let '(x, r) := take_ident l' in
            let '(e, r) := lex_fields fuel (EVar (of_bytes ("$"%char :: x))) r in
            cons (TokOperand e) <$> lex_action fuel r
          else if Ascii.eqb a "." then
            let '(e, r) := lex_fields fuel EDot l in
            cons (TokOperand e) <$> lex_action fuel (match e with EDot => l' | _ => r end)
          else
            match take_ident l with
            | ([], _) => None
            | (x, r) => cons (TokIdent (of_bytes x)) <$> lex_action fuel r
            end
      end
  end.

Fixpoint lex (fuel : nat) (l : list ascii) : option (list item) :=
  match fuel with
  | O => None
  | S fuel =>
      match cut_pair "{" l with
      | None => Some (match l with [] => [] | _ => [ItemText (of_bytes l)] end)
      | Some (text, r) =>
          '(act, r) ← cut_pair "}" r;
          toks ← lex_action (S (length act)) act;
          rest ← lex fuel r;
          Some (match text with [] => [] | _ => [ItemText (of_bytes text)] end ++ ItemAction toks :: rest)
      end
  end.

(** *** The parser *)

Fixpoint parse_cmd (fuel : nat) (l : list token) : option (expr * list token) :=
  match fuel with
  | O => None
  | S fuel =>
      match l with
      | TokIdent f :: l => '(args, l) ← parse_args fuel l; Some (ECall f args, l)
      | _ => parse_operand fuel l
      end
  end
with parse_args (fuel : nat) (l : list token) : option (list expr * list token) :=
  match fuel with
  | O => None
  | S fuel =>
      match l with
      | TokOperand _ :: _ | TokString _ :: _ | TokOpen :: _ =>
          '(e, l) ← parse_operand fuel l; '(es, l) ← parse_args fuel l; Some (e :: es, l)
      | _ => Some ([], l)
      end
  end
with parse_operand (fuel : nat) (l : list token) : option (expr * list token) :=
  match fuel with
  | O => None
  | S fuel =>
      match l with
      | TokOperand e :: l => Some (e, l)
      | TokString s :: l => Some (EStr s, l)
      | TokOpen :: l =>
          '(e, l) ← parse_cmd fuel l;
          match l with TokClose :: l => Some (e, l) | _ => None end
      | _ => None
      end
  end.

(** A whole pipeline of one command. *)
Definition parse_pipe (l : list token) : option expr :=
  match parse_cmd (S (2 * length l)) l with Some (e, []) => Some e | _ => None end.

(** How a list of nodes ends. *)
Inductive terminator := End | Else | ElseIf (c : list token) | Eof.

Definition range_clause (l : list token) : option (option string * option string * expr) :=
  match l with
  | TokOperand (EVar i) :: TokComma :: TokOperand (EVar x) :: TokAssign :: l =>
      (λ e, (Some i, Some x, e)) <$> parse_pipe l
  | _ => (λ e, (None, None, e)) <$> parse_pipe l
  end.

Fixpoint parse_list (fuel : nat) (l : list item) : option (tree * terminator * list item) :=
  match fuel with
  | O => None
  | S fuel =>
      let next (mk : tree → tree) (l : list item) :=
        '(k, t, l) ← parse_list fuel l; Some (mk k, t, l) in
      match l with
      | [] => Some (Done, Eof, [])
      | ItemText s :: l => next (Text s) l
      | ItemAction toks :: l =>
          match toks with
          | [TokIdent "end"] => Some (Done, End, l)
          | [TokIdent "else"] => Some (Done, Else, l)
          | TokIdent "else" :: TokIdent "if" :: c => Some (Done, ElseIf c, l)
          | TokIdent "if" :: c => '(mk, l) ← parse_if fuel c l; next mk l
          | TokIdent "range" :: c =>
              '(i, x, e) ← range_clause c;
              '(body, els, l) ← parse_branches fuel false l;
              next (Range i x e body els) l
          | [TokIdent "template"; TokString n] => next (Call n None) l
          | TokIdent "template" :: TokString n :: c => e ← parse_pipe c; next (Call n (Some e)) l
          | TokOperand (EVar x) :: TokAssign :: c => e ← parse_pipe c; next (Assign x e) l
          | _ => e ← parse_pipe toks; next (Action e []) l
          end
      end
  end
with parse_if (fuel : nat) (c : list token) (l : list item) : option ((tree → tree) * list item) :=
  match fuel with
  | O => None
  | S fuel => e ← parse_pipe c; '(thn, els, l) ← parse_branches fuel true l; Some (If e thn els, l)
  end
(** The two branches; after [if], [else if] is a condition of its own that shares the [end]. *)
with parse_branches (fuel : nat) (chain : bool) (l : list item) : option (tree * tree * list item) :=
  match fuel with
  | O => None
  | S fuel =>
      '(thn, t, l) ← parse_list fuel l;
      match t with
      | End => Some (thn, Done, l)
      | Else => '(els, t, l) ← parse_list fuel l;
                match t with End => Some (thn, els, l) | _ => None end
      | ElseIf c => if chain then '(mk, l) ← parse_if fuel c l; Some (thn, mk Done, l) else None
      | Eof => None
      end
  end.

(** A body without definitions, and a file of definitions. What stands between definitions
    belongs to the file's own template. *)
Definition Parse (s : string) : option tree :=
  items ← lex (S (String.length s)) (bytes_of s);
  match parse_list (S (4 * length items)) items with
  | Some (t, Eof, []) => Some t
  | _ => None
  end.

Fixpoint parse_definitions (fuel : nat) (l : list item) : option (list (string * tree)) :=
  match fuel with
  | O => None
  | S fuel =>
      match l with
      | [] => Some []
      | ItemText _ :: l => parse_definitions fuel l
      | ItemAction [TokIdent "define"; TokString n] :: l =>
          match parse_list (S (4 * length l)) l with
          | Some (t, End, l) => cons (n, t) <$> parse_definitions fuel l
          | _ => None
          end
      | _ => None
      end
  end.
Definition ParseDefinitions (s : string) : option (list (string * tree)) :=
  items ← lex (S (String.length s)) (bytes_of s);
  parse_definitions (S (length items)) items.

Example parse_branch :
  Parse (raw "a{{if eq .Sort `x`}}b{{else if $.Y.Z}}c{{end}}{{range $i, $c := .L}}{{msf $c.V}}{{else}}d{{end}}") =
  Some (Text "a" (If (ECall "eq" [EField EDot "Sort"; EStr "x"]) (Text "b" Done)
          (If (EField (EField (EVar "$") "Y") "Z") (Text "c" Done) Done Done)
          (Range (Some "$i"%string) (Some "$c"%string) (EField EDot "L")
             (Action (ECall "msf" [EField (EVar "$c") "V"]) [] Done) (Text "d" Done) Done))).
Proof. vm_compute. reflexivity. Qed.

(** ** Execution *)

(** A function of the template's [FuncMap], by its parameter type. *)
Inductive gofunc :=
  | FString (f : string → string)
  | FFloat (f : f64 → string)
  | FNum (k : numkind) (f : Z → string).

(** What is written: the template's own text, a value after its escapers, or a
    [template.HTML] value as it is. *)
Inductive chunk := Lit (s : string) | Data (s : string) | Trusted (s : string).
Definition text_of (c : chunk) : string := match c with Lit s | Data s | Trusted s => s end.
Definition output (l : list chunk) : string := str_concat (text_of <$> l).

Definition exec_result := result string.

Definition escape_string (x : escaper) (s : string) : string :=
  match x with
  | htmlescaper | rcdataescaper | attrescaper => htmlReplacer s
  | urlfilter => urlFilter s
  | urlnormalizer => urlNormalizer s
  | urlescaper => urlEscaper s
  | cssvaluefilter => cssValueFilter s
  end.
Definition escape_all (esc : list escaper) (s : string) : string :=
  fold_left (λ s x, escape_string x s) esc s.

(** [fmt.Sprint] of the kinds of values the pages print. *)
Definition stringify (v : value) : option string :=
  match v with
  | VString s => Some s
  | VNum _ n => Some (Itoa n)
  | VBool b => Some (if b then "true" else "false")%string
  | _ => None
  end.

Definition print (esc : list escaper) (v : value) : exec_result chunk :=
  match v with
  | VHTML s => if bool_decide (esc = [htmlescaper]) then Ok (Trusted s) else Err "markup outside text"%string
  | _ => match stringify v with
         | Some s => Ok (Data (escape_all esc s))
         | None => Err "unprintable value"%string
         end
  end.

(** [eq] compares values of one basic kind. *)
Definition basic_eq (v w : value) : option bool :=
  match v, w with
  | VString s, VString t => Some (String.eqb s t)
  | VNum j m, VNum k n => if bool_decide (j = k) then Some (m =? n) else None
  | VBool b, VBool c => Some (Bool.eqb b c)
  | _, _ => None
  end.

Section exec.
Context (funcs : list (string * gofunc)).

Definition compare_values (args : list value) : exec_result bool :=
  match args with
  | [v; w] => match basic_eq v w with Some b => Ok b | None => Err "incompatible types for comparison"%string end
  | _ => Err "wrong number of args"%string
  end.

(** A function takes one argument of exactly its type. *)
Definition apply_func (g : gofunc) (args : list value) : exec_result value :=
  match g, args with
  | FString g, [VString s] => Ok (VString (g s))
  | FFloat g, [VFloat x] => Ok (VString (g x))
  | FNum k g, [VNum j n] => if bool_decide (j = k) then Ok (VString (g n)) else Err "wrong type for value"%string
  | _, _ => Err "wrong type for value"%string
  end.

Definition call_func (f : string) (args : list value) : exec_result value :=
  if String.eqb f "eq" then let? b := compare_values args in Ok (VBool b)
  else if String.eqb f "ne" then let? b := compare_values args in Ok (VBool (negb b))
  else if String.eqb f "not" then
    match args with [v] => Ok (VBool (negb (truth v))) | _ => Err "wrong number of args"%string end
  else match assoc f funcs with Some g => apply_func g args | None => Err "function not defined"%string end.

Definition field (v : value) (f : string) : exec_result value :=
  match v with
  | VStruct fs => match assoc f fs with Some v => Ok v | None => Err "can't evaluate field"%string end
  | _ => Err "can't evaluate field"%string
  end.

(** [and] and [or] stop at the first argument that decides. *)
Definition shortcut (ev : expr → exec_result value) (stop : bool) : value → list expr → exec_result value :=
  fix go (v : value) (l : list expr) : exec_result value :=
    match l with
    | [] => Ok v
    | a :: l => if Bool.eqb (truth v) stop then Ok v else let? v := ev a in go v l
    end.

Definition eval_args (ev : expr → exec_result value) : list expr → exec_result (list value) :=
  fix go (l : list expr) : exec_result (list value) :=
    match l with
    | [] => Ok []
    | a :: l => let? v := ev a in let? vs := go l in Ok (v :: vs)
    end.

Fixpoint eval (vars : list (string * value)) (dot : value) (e : expr) : exec_result value :=
  match e with
  | EDot => Ok dot
  | EVar x => match assoc x vars with Some v => Ok v | None => Err "undefined variable"%string end
  | EField e f => let? v := eval vars dot e in field v f
  | EStr s => Ok (VString s)
  | ECall f args =>
      if String.eqb f "and" || String.eqb f "or" then
        match args with
        | [] => Err "wrong number of args"%string
        | a :: args => let? v := eval vars dot a in shortcut (eval vars dot) (String.eqb f "or") v args
        end
      else let? vs := eval_args (eval vars dot) args in call_func f vs
  end.

(** A template called without an argument runs on nothing. *)
Definition eval_arg (vars : list (string * value)) (dot : value) (arg : option expr) : exec_result value :=
  match arg with Some e => eval vars dot e | None => Ok VNil end.

Definition bind_var (x : option string) (v : value) (vars : list (string * value)) : list (string * value) :=
  match x with Some x => (x, v) :: vars | None => vars end.

Section walk.
Context (call : string → value → exec_result (list chunk)).

(** The state's [walk]. A variable lives until the end of the list that declares it. *)
Fixpoint exec (vars : list (string * value)) (dot : value) (t : tree) : exec_result (list chunk) :=
  match t with
  | Done => Ok []
  | Text s k => let? r := exec vars dot k in Ok (Lit s :: r)
  | Action e esc k =>
      let? v := eval vars dot e in let? c := print esc v in
      let? r := exec vars dot k in Ok (c :: r)
  | Assign x e k => let? v := eval vars dot e in exec ((x, v) :: vars) dot k
  | If c thn els k =>
      let? v := eval vars dot c in
      let? a := if truth v then exec vars dot thn else exec vars dot els in
      let? r := exec vars dot k in Ok (a ++ r)
  | Range i x e body els k =>
      let? v := eval vars dot e in
      let? a := match v with
                | VSlice [] => exec vars dot els
                | VSlice l =>
                    (fix each (n : nat) (l : list value) : exec_result (list chunk) :=
                       match l with
                       | [] => Ok []
                       | v :: l =>
                           let? a := exec (bind_var x v (bind_var i (VNum Int (Z.of_nat n)) vars)) v body in
                           let? r := each (S n) l in Ok (a ++ r)
                       end) O l
                | _ => Err "range can't iterate over"%string
                end in
      let? r := exec vars dot k in Ok (a ++ r)
  | Call name arg k =>
      let? v := eval_arg vars dot arg in
      let? a := call name v in
      let? r := exec vars dot k in Ok (a ++ r)
  end.
End walk.

(** [ExecuteTemplate], with a bound on the depth of calls (Go's is 100000): the data is
    both the cursor and the variable [$]. *)
Fixpoint ExecuteTemplate (depth : nat) (defs : list (string * tree)) (name : string) (data : value) :
  exec_result (list chunk) :=
  match depth with
  | O => Err "exceeded maximum template depth"%string
  | S depth =>
      match assoc name defs with
      | Some t => exec (ExecuteTemplate depth defs) [("$"%string, data)] data t
      | None => Err "template not defined"%string
      end
  end.
End exec.

(** ** Types *)

(** [has_type P t v]: the value has the type, and its [template.HTML] values satisfy [P]. *)
Section typing.
Context (P : string → Prop).

Fixpoint has_type (t : ty) (v : value) : Prop :=
  match t, v with
  | TNil, VNil | TString, VString _ | TFloat, VFloat _ | TBool, VBool _ => True
  | THTML, VHTML s => P s
  | TNum j, VNum k _ => j = k
  | TStruct fts, VStruct fvs =>
      (fix fields (fts : list (string * ty)) (fvs : list (string * value)) : Prop :=
         match fts, fvs with
         | [], [] => True
         | (f, t) :: fts, (g, v) :: fvs => f = g ∧ has_type t v ∧ fields fts fvs
         | _, _ => False
         end) fts fvs
  | TSlice t, VSlice l => Forall (has_type t) l
  | _, _ => False
  end.

Definition vars_typed (ts : list (string * ty)) (vs : list (string * value)) : Prop :=
  Forall2 (λ t v, t.1 = v.1 ∧ has_type t.2 v.2) ts vs.

Lemma has_type_struct fts fvs :
  has_type (TStruct fts) (VStruct fvs) ↔ Forall2 (λ t v, t.1 = v.1 ∧ has_type t.2 v.2) fts fvs.
Proof.
  revert fvs. induction fts as [|[f t] fts IH]; intros [|[g v] fvs]; cbn.
  - split; [by constructor|done].
  - split; [done|intros Hf; by inversion Hf].
  - split; [done|intros Hf; by inversion Hf].
  - rewrite Forall2_cons. cbn. rewrite <-IH. tauto.
Qed.

Lemma assoc_typed ts vs x t :
  vars_typed ts vs → assoc x ts = Some t → ∃ v, assoc x vs = Some v ∧ has_type t v.
Proof.
  induction 1 as [|[y u] [z v] ts vs [Hyz Hv] _ IH]; [done|]. cbn in Hyz, Hv. subst z. cbn.
  destruct (String.eqb x y); [|by apply IH]. intros [= <-]. by exists v.
Qed.

Lemma assoc_fields fts v f t :
  has_type (TStruct fts) v → assoc f fts = Some t → ∃ w, field v f = Ok w ∧ has_type t w.
Proof.
  intros Hv Hf. destruct v as [| | | | | |fvs|]; try done. apply has_type_struct in Hv.
  destruct (assoc_typed _ _ _ _ Hv Hf) as (w & Hw & Ht). exists w. cbn. by rewrite Hw.
Qed.
End typing.

(** *** Expressions *)

Section expr_induction.
Context (Q : expr → Prop).
Context (Qdot : Q EDot) (Qvar : ∀ x, Q (EVar x)) (Qfield : ∀ e f, Q e → Q (EField e f))
  (Qstr : ∀ s, Q (EStr s)) (Qcall : ∀ f args, Forall Q args → Q (ECall f args)).
Fixpoint expr_ind' (e : expr) : Q e :=
  match e with
  | EDot => Qdot
  | EVar x => Qvar x
  | EField e f => Qfield e f (expr_ind' e)
  | EStr s => Qstr s
  | ECall f args => Qcall f args
      ((fix all (l : list expr) : Forall Q l :=
          match l with
          | [] => @List.Forall_nil expr Q
          | a :: l => @List.Forall_cons expr Q a l (expr_ind' a) (all l)
          end) args)
  end.
End expr_induction.

Section checker.
Context (funcs : list (string * gofunc)).

Definition comparable (t u : ty) : bool :=
  match t, u with
  | TString, TString | TBool, TBool => true
  | TNum j, TNum k => bool_decide (j = k)
  | _, _ => false
  end.

Definition func_type (g : gofunc) (args : list ty) : option ty :=
  match g, args with
  | FString _, [TString] | FFloat _, [TFloat] => Some TString
  | FNum k _, [TNum j] => if bool_decide (j = k) then Some TString else None
  | _, _ => None
  end.

Definition call_type (f : string) (args : list ty) : option ty :=
  if String.eqb f "eq" || String.eqb f "ne" then
    match args with [t; u] => if comparable t u then Some TBool else None | _ => None end
  else if String.eqb f "not" then match args with [_] => Some TBool | _ => None end
  else g ← assoc f funcs; func_type g args.

Definition is_bool (t : option ty) : bool := match t with Some TBool => true | _ => false end.

Definition infer_args (inf : expr → option ty) : list expr → option (list ty) :=
  fix go (l : list expr) : option (list ty) :=
    match l with
    | [] => Some []
    | a :: l => t ← inf a; ts ← go l; Some (t :: ts)
    end.

(** The arguments of [and] and [or] are conditions. *)
Fixpoint infer (vars : list (string * ty)) (dot : ty) (e : expr) : option ty :=
  match e with
  | EDot => Some dot
  | EVar x => assoc x vars
  | EField e f => match infer vars dot e with Some (TStruct fs) => assoc f fs | _ => None end
  | EStr _ => Some TString
  | ECall f args =>
      if String.eqb f "and" || String.eqb f "or" then
        if negb (Nat.eqb (length args) 0) && forallb (λ a, is_bool (infer vars dot a)) args
        then Some TBool else None
      else ts ← infer_args (infer vars dot) args; call_type f ts
  end.

Definition infer_arg (vars : list (string * ty)) (dot : ty) (arg : option expr) : option ty :=
  match arg with Some e => infer vars dot e | None => Some TNil end.

Definition printable (esc : list escaper) (t : ty) : bool :=
  match t with
  | TString | TNum _ | TBool => true
  | THTML => bool_decide (esc = [htmlescaper])
  | _ => false
  end.

Definition bind_type (x : option string) (t : ty) (vars : list (string * ty)) : list (string * ty) :=
  match x with Some x => (x, t) :: vars | None => vars end.

Fixpoint well_typed (callee : string → ty → bool) (vars : list (string * ty)) (dot : ty) (t : tree) : bool :=
  match t with
  | Done => true
  | Text _ k => well_typed callee vars dot k
  | Action e esc k =>
      match infer vars dot e with
      | Some t => printable esc t && well_typed callee vars dot k
      | None => false
      end
  | Assign x e k =>
      match infer vars dot e with Some t => well_typed callee ((x, t) :: vars) dot k | None => false end
  | If c thn els k =>
      bool_decide (is_Some (infer vars dot c)) && well_typed callee vars dot thn &&
      well_typed callee vars dot els && well_typed callee vars dot k
  | Range i x e body els k =>
      match infer vars dot e with
      | Some (TSlice t) =>
          well_typed callee (bind_type x t (bind_type i (TNum Int) vars)) t body &&
          well_typed callee vars dot els && well_typed callee vars dot k
      | _ => false
      end
  | Call name arg k =>
      match infer_arg vars dot arg with
      | Some t => callee name t && well_typed callee vars dot k
      | None => false
      end
  end.

Fixpoint template_typed (depth : nat) (defs : list (string * tree)) (name : string) (t : ty) : bool :=
  match depth with
  | O => false
  | S depth =>
      match assoc name defs with
      | Some tr => well_typed (template_typed depth defs) [("$"%string, t)] t tr
      | None => false
      end
  end.

(** *** The checker is right *)

Section soundness.
Context (P : string → Prop).
Abbreviation typed := (has_type P).

Lemma compare_sound t u v w :
  comparable t u = true → typed t v → typed u w → ∃ b, compare_values [v; w] = Ok b.
Proof.
  intros Hc Hv Hw. unfold compare_values. destruct t, u; try discriminate Hc; destruct v; try done; destruct w; try done;
    cbn -[bool_decide] in *; eauto. apply bool_decide_eq_true in Hc. subst.
  eexists. by rewrite bool_decide_eq_true_2.
Qed.

Lemma apply_sound g ts vs t :
  func_type g ts = Some t → Forall2 typed ts vs → ∃ v, apply_func g vs = Ok v ∧ typed t v.
Proof.
  intros Hg Hvs. destruct g, Hvs as [|u v ? ? Hv [|]]; try discriminate Hg; destruct u; try discriminate Hg;
    destruct v; try done; cbn -[bool_decide] in *; simplify_eq; eauto.
  case_bool_decide; [|done]. simplify_eq. by eexists.
Qed.

Lemma call_func_sound f ts vs t :
  call_type f ts = Some t → Forall2 typed ts vs → ∃ v, call_func funcs f vs = Ok v ∧ typed t v.
Proof.
  unfold call_type, call_func. intros Ht Hvs.
  assert (Hcmp : ∀ h : bool → bool, String.eqb f "eq" || String.eqb f "ne" = true →
            ∃ v, (let? b := compare_values vs in Ok (VBool (h b))) = Ok v ∧ typed t v).
  { intros h Hf. rewrite Hf in Ht. destruct Hvs as [|? ? ? ? Hv [|? ? ? ? Hw [|]]]; try discriminate Ht.
    destruct (comparable _ _) eqn:Hc; [|done]. simplify_eq.
    destruct (compare_sound _ _ _ _ Hc Hv Hw) as [b ->]. by eexists. }
  destruct (String.eqb f "eq"); [by apply (Hcmp id)|].
  destruct (String.eqb f "ne"); [by apply Hcmp|]. cbn in Ht. clear Hcmp.
  destruct (String.eqb f "not").
  - destruct Hvs as [|? ? ? ? ? [|]]; simplify_eq. by eexists.
  - destruct (assoc f funcs) as [g|]; [|done]. cbn in Ht. by eapply apply_sound.
Qed.

Section args.
Context (ev : expr → exec_result value) (inf : expr → option ty).
Definition sound_at (e : expr) : Prop := ∀ t, inf e = Some t → ∃ v, ev e = Ok v ∧ typed t v.

Lemma bool_sound e : sound_at e → is_bool (inf e) = true → ∃ v, ev e = Ok v ∧ typed TBool v.
Proof. intros Hs Hb. destruct (inf e) as [[]|] eqn:Hi; try done. by apply Hs. Qed.

Lemma shortcut_sound stop l v :
  Forall sound_at l → forallb (λ a, is_bool (inf a)) l = true → typed TBool v →
  ∃ w, shortcut ev stop v l = Ok w ∧ typed TBool w.
Proof.
  intros Hl. revert v. induction Hl as [|a l Ha _ IH]; intros v Hb Hv; cbn in Hb |- *; [by eexists|].
  apply andb_true_iff in Hb as [Hab Hb]. case (Bool.eqb (truth v) stop); [by eexists|].
  destruct (bool_sound _ Ha Hab) as (w & -> & Hw). by apply IH.
Qed.

Lemma eval_args_sound l us :
  Forall sound_at l → infer_args inf l = Some us → ∃ ws, eval_args ev l = Ok ws ∧ Forall2 typed us ws.
Proof.
  intros Hl. revert us. induction Hl as [|a l Ha _ IH]; intros us Hus; cbn in Hus |- *; [simplify_eq; eauto|].
  apply bind_Some in Hus as (u & Hu & Hus). apply bind_Some in Hus as (us' & Hus' & [= <-]).
  destruct (Ha _ Hu) as (v & -> & Hv). destruct (IH _ Hus') as (ws & -> & Hws). cbn. eauto.
Qed.
End args.

Lemma eval_sound ts vs dt d e :
  vars_typed P ts vs → typed dt d → sound_at (eval funcs vs d) (infer ts dt) e.
Proof.
  intros Hvs Hd. induction e as [|x|e f IH|s|f args IH] using expr_ind'; intros t He; cbn in He |- *.
  - simplify_eq. by eexists.
  - destruct (assoc_typed _ _ _ _ _ Hvs He) as (v & -> & ?). eauto.
  - destruct (infer ts dt e) as [[]|] eqn:Hi; try done. destruct (IH _ Hi) as (v & -> & Hv). cbn.
    by apply (assoc_fields P fields).
  - simplify_eq. by eexists.
  - destruct (String.eqb f "and" || String.eqb f "or").
    + destruct args as [|a args]; [done|]. apply Forall_cons in IH as [Ha IH]. cbn in He.
      destruct (is_bool _) eqn:Hb; [|done]. destruct (forallb _ _) eqn:Hall; [|done].
      injection He as <-. destruct (bool_sound _ _ _ Ha Hb) as (v & -> & Hv). by apply (shortcut_sound _ (infer ts dt)).
    + apply bind_Some in He as (us & Hus & He).
      destruct (eval_args_sound _ _ _ _ IH Hus) as (ws & -> & Hws). cbn. by eapply call_func_sound.
Qed.

(** *** Templates *)

Definition chunk_ok (c : chunk) : Prop := match c with Trusted s => P s | _ => True end.
Definition runs (r : exec_result (list chunk)) : Prop := ∃ cs, r = Ok cs ∧ Forall chunk_ok cs.

Lemma runs_app a b : runs a → runs b → runs (let? x := a in let? y := b in Ok (x ++ y)).
Proof. intros (x & -> & Hx) (y & -> & Hy). eexists. split; [done|]. by apply Forall_app. Qed.

Lemma runs_cons c b : chunk_ok c → runs b → runs (let? y := b in Ok (c :: y)).
Proof. intros Hc (y & -> & Hy). eexists. split; [done|]. by constructor. Qed.

Lemma print_sound esc t v :
  printable esc t = true → typed t v → ∃ c, print esc v = Ok c ∧ chunk_ok c.
Proof.
  intros Hp Hv. destruct t; try discriminate Hp; destruct v; try done; cbn; try by eexists.
  cbn in Hp. rewrite Hp. by eexists.
Qed.

Lemma bind_typed ts vs x t v :
  vars_typed P ts vs → typed t v → vars_typed P (bind_type x t ts) (bind_var x v vs).
Proof. intros Hvs Hv. destruct x; [by constructor|done]. Qed.

Lemma each_sound (body : nat → value → exec_result (list chunk)) t l n :
  Forall (typed t) l → (∀ n v, typed t v → runs (body n v)) →
  runs ((fix each (n : nat) (l : list value) : exec_result (list chunk) :=
           match l with
           | [] => Ok []
           | v :: l => let? a := body n v in let? r := each (S n) l in Ok (a ++ r)
           end) n l).
Proof.
  intros Hl Hb. revert n. induction Hl as [|v l Hv _ IH]; intros n; [by eexists|].
  apply runs_app; [by apply Hb|apply IH].
Qed.

Lemma exec_sound callee call ts vs dt d t :
  (∀ n u v, callee n u = true → typed u v → runs (call n v)) →
  vars_typed P ts vs → typed dt d → well_typed callee ts dt t = true →
  runs (exec funcs call vs d t).
Proof.
  intros Hcall. revert ts vs dt d.
  induction t as [|s k IHk|e esc k IHk|x e k IHk|c thn IHt els IHe k IHk|i x e body IHb els IHe k IHk|n arg k IHk];
    intros ts vs dt d Hvs Hd Hw; cbn in Hw |- *.
  - by eexists.
  - apply runs_cons; [done|]. by eapply IHk.
  - destruct (infer ts dt e) as [t|] eqn:Hi; [|done]. apply andb_true_iff in Hw as [Hp Hw].
    destruct (eval_sound _ _ _ _ _ Hvs Hd _ Hi) as (v & -> & Hv). destruct (print_sound _ _ _ Hp Hv) as (c & Hc & Hok).
    cbn. rewrite Hc. apply runs_cons; [done|]. by eapply IHk.
  - destruct (infer ts dt e) as [t|] eqn:Hi; [|done].
    destruct (eval_sound _ _ _ _ _ Hvs Hd _ Hi) as (v & -> & Hv). eapply IHk; [|done|done]. by constructor.
  - rewrite !andb_true_iff, bool_decide_eq_true in Hw. destruct Hw as [[[[t Hi] Ht] He] Hw].
    destruct (eval_sound _ _ _ _ _ Hvs Hd _ Hi) as (v & -> & Hv).
    apply runs_app; [|by eapply IHk]. destruct (truth v); [by eapply IHt|by eapply IHe].
  - destruct (infer ts dt e) as [[]|] eqn:Hi; try done. rewrite !andb_true_iff in Hw. destruct Hw as [[Hb He] Hw].
    destruct (eval_sound _ _ _ _ _ Hvs Hd _ Hi) as (v & -> & Hv). destruct v as [| | | | | | |l]; try done.
    apply runs_app; [|by eapply IHk]. destruct l as [|v l]; [by eapply IHe|].
    apply (each_sound (λ n v, exec funcs call (bind_var x v (bind_var i (VNum Int (Z.of_nat n)) vs)) v body) t _ _ Hv).
    intros n w Hw'. eapply IHb; [|done|done]. by repeat apply bind_typed.
  - assert (Harg : ∃ u v, infer_arg ts dt arg = Some u ∧
               eval_arg funcs vs d arg = Ok v ∧ typed u v).
    { destruct arg as [e|]; [|by exists TNil, VNil]. cbn in Hw |- *. destruct (infer ts dt e) as [u|] eqn:Hi; [|done].
      destruct (eval_sound _ _ _ _ _ Hvs Hd _ Hi) as (v & Hv & ?). by exists u, v. }
    destruct Harg as (u & v & Hu & Hv & Huv). rewrite Hu in Hw. apply andb_true_iff in Hw as [Hn Hw].
    rewrite Hv. apply runs_app; [by eapply Hcall|by eapply IHk].
Qed.

(** A template checked against a type runs on every value of the type, within any depth of
    calls at least the checker's. *)
Lemma ExecuteTemplate_sound depth depth' defs name t v :
  (depth ≤ depth')%nat → template_typed depth defs name t = true → typed t v →
  runs (ExecuteTemplate funcs depth' defs name v).
Proof.
  revert depth' name t v. induction depth as [|depth IH]; intros depth' name t v Hd Ht Hv; [done|].
  destruct depth' as [|depth']; [lia|]. cbn in Ht |- *. destruct (assoc name defs) as [tr|]; [|done].
  assert (Hvs : vars_typed P [("$"%string, t)] [("$"%string, v)]) by (constructor; [done|constructor]).
  apply (exec_sound (template_typed depth defs) _ [("$"%string, t)] _ t); [|done|done|done].
  intros n u w Hn Hu. apply (IH _ _ u); [lia|done|done].
Qed.
End soundness.
End checker.

(** ** Reflection

    How a Rocq type of view data shows to a template: its Go type, the value, and what it
    takes for its [template.HTML] parts to satisfy a predicate. *)

(** Types whose values hold no [template.HTML]. *)
Fixpoint html_free (t : ty) : bool :=
  match t with
  | THTML => false
  | TStruct fs => forallb (λ f, html_free f.2) fs
  | TSlice t => html_free t
  | _ => true
  end.

Class Reflect (A : Type) := {
  go_type : ty;
  to_value : A → value;
  markup_good : (string → Prop) → A → Prop;
  reflect_typed : ∀ P a, markup_good P a → has_type P go_type (to_value a);
  reflect_free : ∀ P a, html_free go_type = true → markup_good P a;
}.
Arguments go_type A {_}.

#[export] Instance reflect_string : Reflect string :=
  {| go_type := TString; to_value := VString; markup_good _ _ := True; reflect_typed P s := λ H, H;
     reflect_free P s := λ _, I |}.
#[export] Instance reflect_bool : Reflect bool :=
  {| go_type := TBool; to_value := VBool; markup_good _ _ := True; reflect_typed P b := λ H, H;
     reflect_free P s := λ _, I |}.
#[export] Instance reflect_float : Reflect f64 :=
  {| go_type := TFloat; to_value := VFloat; markup_good _ _ := True; reflect_typed P x := λ H, H;
     reflect_free P s := λ _, I |}.
Definition reflect_num (k : numkind) : Reflect Z :=
  {| go_type := TNum k; to_value := VNum k; markup_good _ _ := True; reflect_typed P n := λ _, eq_refl;
     reflect_free P s := λ _, I |}.
Definition reflect_html : Reflect string :=
  {| go_type := THTML; to_value := VHTML; markup_good P s := P s; reflect_typed P s := λ H, H;
     reflect_free P s := λ H, match Bool.diff_false_true H with end |}.

Section slices.
Context {A : Type} `{Reflect A}.
Lemma slice_typed P (l : list A) :
  Forall (markup_good P) l → has_type P (TSlice (go_type A)) (VSlice (to_value <$> l)).
Proof. intros Hl. cbn. apply Forall_fmap. eapply Forall_impl; [done|]. intros a. apply reflect_typed. Qed.
Lemma slice_free P (l : list A) : html_free (TSlice (go_type A)) = true → Forall (markup_good P) l.
Proof. intros Hf. apply Forall_forall. intros a _. by apply reflect_free. Qed.
End slices.
#[export] Instance reflect_slice `{Reflect A} : Reflect (list A) :=
  {| go_type := TSlice (go_type A); to_value l := VSlice (to_value <$> l);
     markup_good P l := Forall (markup_good P) l; reflect_typed := slice_typed; reflect_free := slice_free |}.

(** A struct is its exported fields. *)
Record go_field (A : Type) := mkField {
  f_name : string; f_type : ty; f_get : A → value; f_good : (string → Prop) → A → Prop;
  f_ok : ∀ P a, f_good P a → has_type P f_type (f_get a);
  f_free : ∀ P a, html_free f_type = true → f_good P a;
}.
Arguments f_name {A}.
Arguments f_type {A}.
Arguments f_get {A}.
Arguments f_good {A}.
Arguments f_ok {A}.
Arguments f_free {A}.

Definition field_as {A B} (name : string) (R : Reflect B) (get : A → B) : go_field A :=
  mkField A name (go_type B) (λ a, to_value (get a)) (λ P a, markup_good P (get a))
    (λ P a, reflect_typed P (get a)) (λ P a, reflect_free P (get a)).
Definition field_of {A B} `{R : Reflect B} (name : string) (get : A → B) : go_field A := field_as name R get.
Definition field_num {A} (k : numkind) (name : string) (get : A → Z) : go_field A :=
  field_as name (reflect_num k) get.
Definition field_html {A} (name : string) (get : A → string) : go_field A := field_as name reflect_html get.

Section structs.
Context {A : Type} (fields : list (go_field A)).
Definition struct_type : ty := TStruct ((λ f, (f_name f, f_type f)) <$> fields).
Definition struct_value (a : A) : value := VStruct ((λ f, (f_name f, f_get f a)) <$> fields).
Definition struct_good (P : string → Prop) (a : A) : Prop := Forall (λ f, f_good f P a) fields.

Lemma struct_typed P a : struct_good P a → has_type P struct_type (struct_value a).
Proof.
  intros Hg. apply has_type_struct. unfold struct_good in Hg.
  induction Hg as [|f l Hf _ IH]; [constructor|]. constructor; [|done]. split; [done|]. by apply f_ok.
Qed.

(** Only the fields that may hold [template.HTML] matter. *)
Lemma struct_good_fields P a :
  Forall (λ f, f_good f P a) (filter (λ f, html_free (f_type f) = false) fields) → struct_good P a.
Proof.
  unfold struct_good. rewrite !Forall_forall. intros Hf f Hin.
  destruct (html_free (f_type f)) eqn:Hh; [by apply f_free|]. by apply Hf, list_elem_of_filter.
Qed.
Lemma struct_free P a : html_free struct_type = true → struct_good P a.
Proof.
  unfold struct_good. intros Hf. apply Forall_forall. intros f Hin. apply f_free. cbn in Hf.
  rewrite forallb_forall in Hf. apply (Hf (f_name f, f_type f)), list_elem_of_In, list_elem_of_fmap. by exists f.
Qed.
Definition reflect_struct : Reflect A :=
  {| go_type := struct_type; to_value := struct_value; markup_good := struct_good;
     reflect_typed := struct_typed; reflect_free := struct_free |}.
End structs.
