(* ===== verification/HtmlEscape.v ===== *)
(** * [html/template]: contextual escaping

    Before it runs, a template is rewritten: the text is scanned with the HTML state machine
    of the package, every action receives the escapers its context calls for, and comments
    of style sheets are dropped. The branches of a condition must end in one context and a
    loop in the one it starts from. The rewriting is [escape_tree].

    The contexts are those the program's pages reach: element text, the text of titles
    ([RCDATA]), quoted attribute values (plain, URL and style), and style sheets. Actions
    elsewhere (tag and attribute names, unquoted values, scripts), the [url(...)] of a style
    sheet, HTML comments, character references inside a split attribute value and templates
    called outside element text are errors here. *)

From Stdlib Require Import ZArith Lia Ascii.
From Stdlib Require String.
From stdpp Require Import base option strings list.
From S2P Require Import Prelude GoString GoUrl GoHtml GoTemplate.

Local Open Scope Z_scope.
Local Open Scope go_scope.

(** ** Contexts (context.go) *)

Inductive state :=
  | stateText | stateTag | stateAttrName | stateAfterName | stateBeforeValue
  | stateRCDATA | stateAttr | stateURL | stateJS
  | stateCSS | stateCSSDqStr | stateCSSSqStr | stateCSSBlockCmt | stateCSSLineCmt.
Inductive delim := delimNone | delimDoubleQuote | delimSingleQuote | delimSpaceOrTagEnd.
Inductive urlPart := urlPartNone | urlPartPreQuery | urlPartQueryOrFrag | urlPartUnknown.
Inductive element := elementNone | elementScript | elementStyle | elementTextarea | elementTitle.
Inductive attrKind := attrNone | attrScript | attrStyle | attrURL | attrSrcset.

#[export] Instance state_eq_dec : EqDecision state.
Proof. solve_decision. Defined.
#[export] Instance delim_eq_dec : EqDecision delim.
Proof. solve_decision. Defined.
#[export] Instance urlPart_eq_dec : EqDecision urlPart.
Proof. solve_decision. Defined.
#[export] Instance element_eq_dec : EqDecision element.
Proof. solve_decision. Defined.
#[export] Instance attrKind_eq_dec : EqDecision attrKind.
Proof. solve_decision. Defined.

Record context := mkContext {
  c_state : state; c_delim : delim; c_url : urlPart; c_attr : attrKind; c_element : element;
}.
#[export] Instance context_eq_dec : EqDecision context.
Proof. solve_decision. Defined.

Definition context0 : context := mkContext stateText delimNone urlPartNone attrNone elementNone.
Definition in_state (s : state) (c : context) : context :=
  mkContext s (c_delim c) (c_url c) (c_attr c) (c_element c).
Definition in_url (u : urlPart) (c : context) : context :=
  mkContext (c_state c) (c_delim c) u (c_attr c) (c_element c).
Definition of_element (s : state) (e : element) : context := mkContext s delimNone urlPartNone attrNone e.
Definition is_comment (s : state) : bool :=
  match s with stateCSSBlockCmt | stateCSSLineCmt => true | _ => false end.

(** ** Transitions (transition.go) *)

Definition trans := result string (context * nat).

(** [elementNameMap], [elementContentType] and the types of attributes (attr.go). *)
Definition element_named (name : string) : element :=
  if String.eqb name "script" then elementScript
  else if String.eqb name "style" then elementStyle
  else if String.eqb name "textarea" then elementTextarea
  else if String.eqb name "title" then elementTitle
  else elementNone.

Definition content_state (e : element) : state :=
  match e with
  | elementNone => stateText
  | elementScript => stateJS
  | elementStyle => stateCSS
  | elementTextarea | elementTitle => stateRCDATA
  end.

Definition contains (p s : string) : bool := contains_bytes (bytes_of p) (bytes_of s).

(** Names whose type is neither plain text nor left to the heuristics that follow. *)
Definition url_attributes : list string :=
  ["action"; "archive"; "background"; "cite"; "classid"; "codebase"; "data"; "formaction"; "href";
   "icon"; "longdesc"; "manifest"; "poster"; "profile"; "src"; "usemap"; "xmlns"]%string.

Definition attr_type (name : string) : attrKind :=
  let name := if HasPrefix name "data-" then str_drop 5 name
              else match index_byte ":" (bytes_of name) with
                   | Some i => if String.eqb (str_take i name) "xmlns" then "xmlns"%string else str_drop (S i) name
                   | None => name
                   end in
  if bool_decide (name ∈ url_attributes) then attrURL
  else if String.eqb name "style" then attrStyle
  else if String.eqb name "srcset" then attrSrcset
  else if bool_decide (name ∈ ["srcdoc"; "srclang"]%string) then attrNone
  else if HasPrefix name "on" then attrScript
  else if contains "src" name || contains "uri" name || contains "url" name then attrURL
  else attrNone.

Definition attr_start (a : attrKind) : option state :=
  match a with
  | attrNone => Some stateAttr
  | attrScript => Some stateJS
  | attrStyle => Some stateCSS
  | attrURL => Some stateURL
  | attrSrcset => None
  end.

Definition html_space (a : ascii) : bool :=
  byte_is 32 a || byte_is 9 a || byte_is 10 a || byte_is 12 a || byte_is 13 a.

Fixpoint span_len (f : ascii → bool) (l : list ascii) : nat :=
  match l with a :: l => if f a then S (span_len f l) else O | [] => O end.
Definition eatWhiteSpace (l : list ascii) : nat := span_len html_space l.

Definition attr_name_end (a : ascii) : bool := html_space a || byte_is 61 a || byte_is 62 a.
(** [eatAttrName]: quotes and less-than signs are errors. *)
Definition eatAttrName (l : list ascii) : result string nat :=
  let n := span_len (λ a, negb (attr_name_end a)) l in
  if existsb (λ a, byte_is 39 a || byte_is 34 a || byte_is 60 a) (take n l)
  then Err "in attribute name"%string else Ok n.

Definition alnum (a : ascii) : bool := is_alpha a || is_num a.

(** [eatTagName]: letters and digits, with single inner colons and dashes. *)
Fixpoint tag_name_len (l : list ascii) : nat :=
  match l with
  | a :: l' =>
      if alnum a then S (tag_name_len l')
      else if byte_is 58 a || byte_is 45 a then
        match l' with b :: l'' => if alnum b then S (S (tag_name_len l'')) else O | [] => O end
      else O
  | [] => O
  end.
Definition eatTagName (l : list ascii) : nat * element :=
  match l with
  | a :: _ => if is_alpha a
              then let n := tag_name_len l in (n, element_named (ToLower (of_bytes (take n l))))
              else (O, elementNone)
  | [] => (O, elementNone)
  end.

(** [tText]: up to the next tag. [n] bytes are behind. *)
Fixpoint tText (c : context) (n : nat) (l : list ascii) : trans :=
  match l with
  | [] => Ok (c, n)
  | a :: l' =>
      if byte_is 60 a then
        match l' with
        | [] => Ok (c, S n)
        | b :: r =>
            if hasPrefix_bytes (bytes_of "!--") l' then Err "HTML comment"%string
            else if byte_is 47 b then
              match r with
              | [] => Ok (c, S (S n))
              | _ => match eatTagName r with
                     | (O, _) => tText c (S n) l'
                     | (k, _) => Ok (of_element stateTag elementNone, (S (S n) + k)%nat)
                     end
              end
            else match eatTagName l' with
                 | (O, _) => tText c (S n) l'
                 | (k, e) => Ok (of_element stateTag e, (S n + k)%nat)
                 end
        end
      else tText c (S n) l'
  end.

Definition tTag (c : context) (l : list ascii) : trans :=
  let i := eatWhiteSpace l in
  match drop i l with
  | [] => Ok (c, length l)
  | a :: _ =>
      if byte_is 62 a then Ok (of_element (content_state (c_element c)) (c_element c), S i)
      else
        let? n := eatAttrName (drop i l) in
        match n with
        | O => Err "expected space, attr name, or end of tag"%string
        | _ =>
            let name := ToLower (of_bytes (take n (drop i l))) in
            let attr := if bool_decide (c_element c = elementScript) && String.eqb name "type"
                        then attrNone else attr_type name in
            let j := (i + n)%nat in
            let s := match drop j l with [] => stateAttrName | _ => stateAfterName end in
            Ok (mkContext s delimNone urlPartNone attr (c_element c), j)
        end
  end.

Definition tAttrName (c : context) (l : list ascii) : trans :=
  let? n := eatAttrName l in
  Ok (match drop n l with [] => c | _ => in_state stateAfterName c end, n).

Definition tAfterName (c : context) (l : list ascii) : trans :=
  let i := eatWhiteSpace l in
  match drop i l with
  | [] => Ok (c, length l)
  | a :: _ => if byte_is 61 a then Ok (in_state stateBeforeValue c, S i) else Ok (in_state stateTag c, i)
  end.

Definition tBeforeValue (c : context) (l : list ascii) : trans :=
  let i := eatWhiteSpace l in
  match drop i l with
  | [] => Ok (c, length l)
  | a :: _ =>
      match attr_start (c_attr c) with
      | None => Err "srcset value"%string
      | Some s =>
          let '(d, i) := if byte_is 39 a then (delimSingleQuote, S i)
                         else if byte_is 34 a then (delimDoubleQuote, S i)
                         else (delimSpaceOrTagEnd, i) in
          Ok (mkContext s d (c_url c) (c_attr c) (c_element c), i)
      end
  end.

(** [tURL]: a query or fragment starts at the first question mark or hash. *)
Definition tURL (c : context) (l : list ascii) : context :=
  if existsb (λ a, byte_is 35 a || byte_is 63 a) l then in_url urlPartQueryOrFrag c
  else if negb (length l =? eatWhiteSpace l)%nat && bool_decide (c_url c = urlPartNone)
       then in_url urlPartPreQuery c else c.

(** [tCSS]: strings, comments and [url(...)]. [seen] holds the bytes behind, last first. *)
Fixpoint tCSS (c : context) (seen : list ascii) (l : list ascii) : trans :=
  match l with
  | [] => Ok (c, length seen)
  | a :: l' =>
      if (if byte_is 40 a then hasPrefix_bytes (bytes_of "lru") (lower_byte <$> take 3 (drop_while html_space seen)) else false)
      then Err "url in a style sheet"%string
      else if byte_is 47 a then
        match l' with
        | b :: _ => if byte_is 47 b then Ok (in_state stateCSSLineCmt c, S (S (length seen)))
                    else if byte_is 42 b then Ok (in_state stateCSSBlockCmt c, S (S (length seen)))
                    else tCSS c (a :: seen) l'
        | [] => tCSS c (a :: seen) l'
        end
      else if byte_is 34 a then Ok (in_state stateCSSDqStr c, S (length seen))
      else if byte_is 39 a then Ok (in_state stateCSSSqStr c, S (length seen))
      else tCSS c (a :: seen) l'
  end.

(** [tCSSStr]: up to the closing quote; the URL part of an unclosed string is not tracked. *)
Fixpoint tCSSStr (c : context) (quote : Z) (n : nat) (l : list ascii) : trans :=
  match l with
  | [] => Err "style string split by an action"%string
  | a :: l' =>
      if byte_is 92 a then
        match l' with
        | [] => Err "unfinished escape sequence in CSS string"%string
        | _ :: l'' => tCSSStr c quote (S (S n)) l''
        end
      else if byte_is quote a then Ok (in_state stateCSS c, S n)
      else tCSSStr c quote (S n) l'
  end.

Fixpoint tBlockCmt (c : context) (n : nat) (l : list ascii) : trans :=
  match l with
  | [] => Ok (c, n)
  | a :: l' =>
      match l' with
      | b :: _ => if byte_is 42 a && byte_is 47 b then Ok (in_state stateCSS c, S (S n)) else tBlockCmt c (S n) l'
      | [] => tBlockCmt c (S n) l'
      end
  end.

Definition line_end (a : ascii) : bool := byte_is 10 a || byte_is 12 a || byte_is 13 a.
(** The line break itself is left to the style sheet. *)
Definition tLineCmt (c : context) (l : list ascii) : trans :=
  let n := span_len (λ a, negb (line_end a)) l in
  Ok (if (n =? length l)%nat then c else in_state stateCSS c, n).

(** [indexTagEnd]: the special end tag of the element, followed by a separator. *)
Definition end_tag_name (e : element) : string :=
  match e with
  | elementScript => "script" | elementStyle => "style"
  | elementTextarea => "textarea" | elementTitle => "title" | elementNone => ""
  end.
Definition tag_end_separator (a : ascii) : bool := html_space a && negb (byte_is 13 a) || byte_is 62 a || byte_is 47 a.

Fixpoint index_tag_end (name : list ascii) (n : nat) (l : list ascii) : option nat :=
  match l with
  | [] => None
  | a :: l' =>
      let here := if negb (byte_is 60 a) then false else hasPrefix_bytes ("<"%char :: "/"%char :: name) (lower_byte <$> take (S (S (length name))) l) &&
                  match drop (S (S (length name))) l with s :: _ => tag_end_separator s | [] => false end in
      if here then Some n else index_tag_end name (S n) l'
  end.

(** [tSpecialTagEnd]: at the end tag, the context is text again and nothing is consumed. *)
Definition tSpecialTagEnd (c : context) (l : list ascii) : context * nat :=
  match c_element c with
  | elementNone => (c, length l)
  | e => match index_tag_end (bytes_of (end_tag_name e)) 0 l with
         | Some i => (context0, i)
         | None => (c, length l)
         end
  end.

Definition transition (c : context) (l : list ascii) : trans :=
  match c_state c with
  | stateText => tText c 0 l
  | stateTag => tTag c l
  | stateAttrName => tAttrName c l
  | stateAfterName => tAfterName c l
  | stateBeforeValue => tBeforeValue c l
  | stateRCDATA => Ok (tSpecialTagEnd c l)
  | stateAttr => Ok (c, length l)
  | stateURL => Ok (tURL c l, length l)
  | stateJS => Err "script text"%string
  | stateCSS => tCSS c [] l
  | stateCSSDqStr => tCSSStr c 34 0 l
  | stateCSSSqStr => tCSSStr c 39 0 l
  | stateCSSBlockCmt => tBlockCmt c 0 l
  | stateCSSLineCmt => tLineCmt c l
  end.

(** [html.UnescapeString] leaves text without a character reference alone. An ampersand
    starts one when a hash follows, when the name after it ends in a semicolon, or when the
    name has one of the old entity names as a prefix; other text is not treated here. *)
Definition legacy_entities : list string :=
  [ "AElig"; "AMP"; "Aacute"; "Acirc"; "Agrave"; "Aring"; "Atilde"; "Auml"; "COPY"; "Ccedil"; "ETH";
    "Eacute"; "Ecirc"; "Egrave"; "Euml"; "GT"; "Iacute"; "Icirc"; "Igrave"; "Iuml"; "LT"; "Ntilde";
    "Oacute"; "Ocirc"; "Ograve"; "Oslash"; "Otilde"; "Ouml"; "QUOT"; "REG"; "THORN"; "Uacute"; "Ucirc";
    "Ugrave"; "Uuml"; "Yacute"; "aacute"; "acirc"; "acute"; "aelig"; "agrave"; "amp"; "aring"; "atilde";
    "auml"; "brvbar"; "ccedil"; "cedil"; "cent"; "copy"; "curren"; "deg"; "divide"; "eacute"; "ecirc";
    "egrave"; "eth"; "euml"; "frac12"; "frac14"; "frac34"; "gt"; "iacute"; "icirc"; "iexcl"; "igrave";
    "iquest"; "iuml"; "laquo"; "lt"; "macr"; "micro"; "middot"; "nbsp"; "not"; "ntilde"; "oacute";
    "ocirc"; "ograve"; "ordf"; "ordm"; "oslash"; "otilde"; "ouml"; "para"; "plusmn"; "pound"; "quot";
    "raquo"; "reg"; "sect"; "shy"; "sup1"; "sup2"; "sup3"; "szlig"; "thorn"; "times"; "uacute"; "ucirc";
    "ugrave"; "uml"; "uuml"; "yacute"; "yen"; "yuml" ]%string.

Definition starts_reference (l : list ascii) : bool :=
  let n := span_len alnum l in
  match drop n l with
  | a :: _ => byte_is 59 a || (n =? 0)%nat && byte_is 35 a
  | [] => false
  end || existsb (λ e, hasPrefix_bytes (bytes_of e) l) legacy_entities.

Fixpoint has_reference (l : list ascii) : bool :=
  match l with
  | [] => false
  | a :: l => (if byte_is 38 a then starts_reference l else false) || has_reference l
  end.

(** Inside a value the text does not end, the value's own machine runs to the end. *)
Fixpoint run_transition (fuel : nat) (c : context) (l : list ascii) : result string context :=
  match fuel, l with
  | _, [] => Ok c
  | O, _ => Err "infinite loop"%string
  | S fuel, _ => let? r := transition c l in run_transition fuel r.1 (drop r.2 l)
  end.

Definition delim_ends (d : delim) (a : ascii) : bool :=
  match d with
  | delimNone => false
  | delimDoubleQuote => byte_is 34 a
  | delimSingleQuote => byte_is 39 a
  | delimSpaceOrTagEnd => html_space a || byte_is 62 a
  end.

(** [contextAfterText] (escape.go). *)
Definition contextAfterText (c : context) (l : list ascii) : trans :=
  match c_delim c with
  | delimNone =>
      match c_element c with
      | elementNone => transition c l
      | e => match index_tag_end (bytes_of (end_tag_name e)) 0 l with
             | Some O => Ok (context0, O)
             | Some i => transition c (take i l)
             | None => transition c l
             end
      end
  | d =>
      let i := span_len (λ a, negb (delim_ends d a)) l in
      if bool_decide (d = delimSpaceOrTagEnd) &&
         existsb (λ a, byte_is 34 a || byte_is 39 a || byte_is 60 a || byte_is 61 a || byte_is 96 a) (take i l)
      then Err "in unquoted attr"%string
      else if match drop i l with [] => true | _ => false end then
        if has_reference l then Err "character reference in a split value"%string
        else let? c := run_transition (S (length l)) c l in Ok (c, length l)
      else Ok (of_element stateTag (c_element c), if bool_decide (d = delimSpaceOrTagEnd) then i else S i)
  end.

(** ** Text (escapeText) *)

Definition is_doctype (l : list ascii) : bool :=
  hasPrefix_bytes (bytes_of "<!doctype") (lower_byte <$> take 9 l).

(** In element text, a stray less-than sign is written as a reference: the first [n] bytes
    of [l]. *)
Fixpoint escape_lt (n : nat) (l : list ascii) : list ascii :=
  match n, l with
  | S n, a :: l' =>
      (if byte_is 60 a then if is_doctype l then [a] else bytes_of "&lt;" else [a]) ++ escape_lt n l'
  | _, _ => []
  end.

(** Where the tag that ends a stretch of text starts: its last less-than sign. *)
Definition tag_start (n : nat) (l : list ascii) : nat :=
  match index_byte "<" (rev (take n l)) with Some i => (n - S i)%nat | None => n end.

(** What a stretch of [n] bytes from context [c] to [c1] becomes. *)
Definition rewrite_text (c c1 : context) (n : nat) (l : list ascii) : list ascii :=
  if bool_decide (c_state c = stateText ∨ c_state c = stateRCDATA) then
    let e := if bool_decide (c_state c1 = c_state c) then n else tag_start n l in
    escape_lt e l ++ drop e (take n l)
  else if is_comment (c_state c) && bool_decide (c_delim c = delimNone) then
    match c_state c with stateCSSBlockCmt => [" "%char] | _ => [] end
  else if is_comment (c_state c1) && bool_decide (c_delim c1 = delimNone) &&
          negb (bool_decide (c_state c1 = c_state c)) then take (n - 2) l
  else take n l.

Fixpoint escape_text (fuel : nat) (c : context) (l : list ascii) : result string (list ascii * context) :=
  match fuel, l with
  | _, [] => Ok ([], c)
  | O, _ => Err "infinite loop"%string
  | S fuel, _ =>
      let? r := contextAfterText c l in
      let? q := escape_text fuel r.1 (drop r.2 l) in
      Ok (rewrite_text c r.1 r.2 l ++ q.1, q.2)
  end.

(** ** Actions and control (escape.go) *)

Definition nudge (c : context) : context :=
  match c_state c with
  | stateTag => in_state stateAttrName c
  | stateBeforeValue =>
      match attr_start (c_attr c) with
      | Some s => mkContext s delimSpaceOrTagEnd (c_url c) attrNone (c_element c)
      | None => c
      end
  | stateAfterName => mkContext stateAttrName (c_delim c) (c_url c) attrNone (c_element c)
  | _ => c
  end.

(** [escapeAction]: the escapers of a context, and the context after. *)
Definition action_escapers (c : context) : result string (list escaper) :=
  let? s := match c_state c with
            | stateURL =>
                match c_url c with
                | urlPartNone => Ok [urlfilter; urlnormalizer]
                | urlPartPreQuery => Ok [urlnormalizer]
                | urlPartQueryOrFrag => Ok [urlescaper]
                | urlPartUnknown => Err "ambiguous context within a URL"%string
                end
            | stateCSS => Ok [cssvaluefilter]
            | stateText => Ok [htmlescaper]
            | stateRCDATA => Ok [rcdataescaper]
            | stateAttr => Ok []
            | _ => Err "action outside text and attribute values"%string
            end in
  match c_delim c with
  | delimNone => Ok s
  | delimSpaceOrTagEnd => Err "unquoted attribute value"%string
  | _ => Ok (s ++ [attrescaper])
  end.

(** [join]: the contexts of two branches must agree, up to the part of the URL and to a
    nudge into an attribute. *)
Definition join_same (a b : context) : option context :=
  if bool_decide (a = b) then Some a
  else if bool_decide (in_url (c_url b) a = b) then Some (in_url urlPartUnknown a)
  else None.
Definition join (a b : context) : result string context :=
  match join_same a b with
  | Some c => Ok c
  | None =>
      match join_same (nudge a) (nudge b) with
      | Some c => Ok c
      | None => Err "branches end in different contexts"%string
      end
  end.

Fixpoint escape_tree (c : context) (t : tree) : result string (tree * context) :=
  match t with
  | Done => Ok (Done, c)
  | Text s k =>
      let? r := escape_text (4 * S (String.length s)) c (bytes_of s) in
      let? q := escape_tree r.2 k in Ok (Text (of_bytes r.1) q.1, q.2)
  | Action e _ k =>
      let c := nudge c in
      let? esc := action_escapers c in
      let? q := escape_tree c k in Ok (Action e esc q.1, q.2)
  | Assign x e k => let? q := escape_tree c k in Ok (Assign x e q.1, q.2)
  | If b thn els k =>
      let? p := escape_tree c thn in let? r := escape_tree c els in
      let? c := join p.2 r.2 in
      let? q := escape_tree c k in Ok (If b p.1 r.1 q.1, q.2)
  | Range i x e body els k =>
      let? p := escape_tree c body in
      let? again := escape_tree p.2 body in
      let? c0 := join p.2 again.2 in
      let? r := escape_tree c els in
      let? c := join c0 r.2 in
      let? q := escape_tree c k in Ok (Range i x e p.1 r.1 q.1, q.2)
  | Call name arg k =>
      if bool_decide (c = context0) then let? q := escape_tree c k in Ok (Call name arg q.1, q.2)
      else Err "template called outside text"%string
  end.

(** A template is escaped from element text and must end there. *)
Definition escape_template (t : tree) : result string tree :=
  let? q := escape_tree context0 t in
  if bool_decide (c_state q.2 = stateText) then Ok q.1 else Err "ends in a non-text context"%string.

Fixpoint escape_templates (defs : list (string * tree)) : result string (list (string * tree)) :=
  match defs with
  | [] => Ok []
  | (n, t) :: defs => let? t := escape_template t in let? r := escape_templates defs in Ok ((n, t) :: r)
  end.
