(* ===== verification/Markup.v ===== *)
(** * What a browser makes of a page

    The tokenizer of the HTML standard, byte by byte, as far as markup is concerned: text,
    tags, attributes and their values, the raw text of titles and style sheets. Data is
    confined when no prefix of it moves the tokenizer: it can end neither the text nor the
    attribute value it stands in. [track] follows the tokenizer through a template, whatever
    the data ([track_sound]); it does not look at the contexts of [HtmlEscape], only at the
    escapers they chose. *)

From Stdlib Require Import ZArith Lia Ascii.
From Stdlib Require String.
From stdpp Require Import base option strings list.
From S2P Require Import Prelude GoString GoUrl GoHtml GoTemplate.

Local Open Scope Z_scope.
Local Open Scope go_scope.

(** ** The tokenizer *)

(** States in a tag carry the element whose text is special, or nothing. *)
Inductive hstate :=
  | HText
  | HTagOpen | HEndTagOpen
  | HDecl (dashes : nat) | HBogus | HComment (dashes : nat)
  | HTagName (close : bool) (name : string)
  | HBeforeAttr (e : string) | HAttrName (e : string) | HAfterAttrName (e : string)
  | HBeforeValue (e : string) | HValueDQ (e : string) | HValueSQ (e : string) | HValueUnq (e : string)
  | HAfterValue (e : string) | HSelfClosing (e : string)
  | HSpecial (e : string) | HSpecialLt (e : string) | HSpecialEnd (e : string) (name : string).
#[export] Instance hstate_eq_dec : EqDecision hstate.
Proof. solve_decision. Defined.

Definition hspace (a : ascii) : bool :=
  byte_is 32 a || byte_is 9 a || byte_is 10 a || byte_is 12 a || byte_is 13 a.
Definition rcdata (e : string) : bool := String.eqb e "title" || String.eqb e "textarea".
Definition special (e : string) : bool := rcdata e || String.eqb e "style" || String.eqb e "script".
Definition snoc (s : string) (a : ascii) : string := str_app s (String.String (lower_byte a) "").

(** After the closing angle bracket of a tag. *)
Definition after_tag (e : string) : hstate := if special e then HSpecial e else HText.

Definition after_attr_name (e : string) (a : ascii) : hstate :=
  if hspace a then HAfterAttrName e
  else if byte_is 47 a then HSelfClosing e
  else if byte_is 61 a then HBeforeValue e
  else if byte_is 62 a then after_tag e
  else HAttrName e.
Definition before_attr (e : string) (a : ascii) : hstate :=
  if hspace a then HBeforeAttr e
  else if byte_is 47 a || byte_is 62 a then after_attr_name e a
  else HAttrName e.
Definition in_special (e : string) (a : ascii) : hstate := if byte_is 60 a then HSpecialLt e else HSpecial e.

Definition step (s : hstate) (a : ascii) : hstate :=
  match s with
  | HText => if byte_is 60 a then HTagOpen else HText
  | HTagOpen =>
      if byte_is 33 a then HDecl 0
      else if byte_is 47 a then HEndTagOpen
      else if is_alpha a then HTagName false (snoc "" a)
      else if byte_is 63 a then HBogus
      else if byte_is 60 a then HTagOpen else HText
  | HEndTagOpen => if is_alpha a then HTagName true (snoc "" a) else if byte_is 62 a then HText else HBogus
  | HDecl n => if byte_is 45 a then match n with O => HDecl 1 | _ => HComment 0 end
               else if byte_is 62 a then HText else HBogus
  | HBogus => if byte_is 62 a then HText else HBogus
  | HComment n => if byte_is 45 a then HComment (Nat.min 2 (S n))
                  else if byte_is 62 a && Nat.eqb n 2 then HText else HComment 0
  | HTagName close name =>
      let e := if close then ""%string else if special name then name else ""%string in
      if hspace a then HBeforeAttr e
      else if byte_is 47 a then HSelfClosing e
      else if byte_is 62 a then after_tag e
      else HTagName close (snoc name a)
  | HBeforeAttr e => before_attr e a
  | HAttrName e =>
      if hspace a || byte_is 47 a || byte_is 62 a || byte_is 61 a then after_attr_name e a else HAttrName e
  | HAfterAttrName e => after_attr_name e a
  | HBeforeValue e =>
      if hspace a then HBeforeValue e
      else if byte_is 34 a then HValueDQ e
      else if byte_is 39 a then HValueSQ e
      else if byte_is 62 a then after_tag e
      else HValueUnq e
  | HValueDQ e => if byte_is 34 a then HAfterValue e else HValueDQ e
  | HValueSQ e => if byte_is 39 a then HAfterValue e else HValueSQ e
  | HValueUnq e => if hspace a then HBeforeAttr e else if byte_is 62 a then after_tag e else HValueUnq e
  | HAfterValue e =>
      if byte_is 47 a then HSelfClosing e else if byte_is 62 a then after_tag e else before_attr e a
  | HSelfClosing e => if byte_is 62 a then after_tag e else before_attr e a
  | HSpecial e => in_special e a
  | HSpecialLt e => if byte_is 47 a then HSpecialEnd e "" else in_special e a
  | HSpecialEnd e name =>
      if is_alpha a then HSpecialEnd e (snoc name a)
      else if negb (String.eqb e name) then in_special e a
      else if hspace a then HBeforeAttr ""
      else if byte_is 47 a then HSelfClosing ""
      else if byte_is 62 a then HText
      else in_special e a
  end.

Definition run (s : hstate) (l : list ascii) : hstate := fold_left step l s.
(** A fragment of markup that starts and ends in text. *)
Definition balanced (s : string) : Prop := run HText (bytes_of s) = HText.

Example run_page :
  run HText (bytes_of (raw "<!doctype html><title>a<b</title><style>p>a{x:`<`}</style><p class=`x` open>a</p><br/>")) = HText.
Proof. vm_compute. reflexivity. Qed.

Lemma run_app s l k : run s (l ++ k) = run (run s l) k.
Proof. apply fold_left_app. Qed.

(** Where data may stand: text, the text of titles, quoted values. *)
Definition settled (s : hstate) : bool :=
  match s with
  | HText | HValueDQ _ | HValueSQ _ => true
  | HSpecial e => rcdata e
  | _ => false
  end.

Lemma step_settled s a : settled s = true → markup a = false → step s a = s.
Proof.
  unfold markup. intros Hs Ha. repeat (apply orb_false_iff in Ha as [Ha ?]).
  destruct s; try discriminate Hs; cbn; unfold in_special; by repeat (case_match; try congruence).
Qed.

Lemma run_settled s l :
  settled s = true → forallb (λ a, negb (markup a)) l = true → run s l = s.
Proof.
  intros Hs. induction l as [|a l IH]; [done|]. cbn. intros [Ha Hl]%andb_true_iff.
  rewrite step_settled; [by apply IH|done|]. by apply negb_true_iff.
Qed.

(** ** Confined output *)

Definition out_bytes (cs : list chunk) : list ascii := cs ≫= λ c, bytes_of (text_of c).

Lemma bytes_of_output cs : bytes_of (output cs) = out_bytes cs.
Proof.
  unfold output. induction cs as [|c cs IH]; [done|]. cbn [fmap list_fmap str_concat]. rewrite bytes_of_app, IH. done.
Qed.
Lemma out_bytes_app a b : out_bytes (a ++ b) = out_bytes a ++ out_bytes b.
Proof. unfold out_bytes. apply bind_app. Qed.

(** No prefix of the data moves the tokenizer. *)
Definition stays (s : hstate) (data : string) : Prop :=
  settled s = true ∧ ∀ p, p `prefix_of` bytes_of data → run s p = s.

Fixpoint confined (s : hstate) (cs : list chunk) : Prop :=
  match cs with
  | [] => True
  | c :: cs =>
      match c with Data d => stays s d | _ => True end ∧ confined (run s (bytes_of (text_of c))) cs
  end.

Lemma confined_app s a b : confined s (a ++ b) ↔ confined s a ∧ confined (run s (out_bytes a)) b.
Proof.
  revert s. induction a as [|c a IH]; intros s; [cbn; tauto|].
  cbn [app confined]. rewrite IH. unfold out_bytes. cbn [mbind list_bind]. rewrite run_app. tauto.
Qed.

(** The last escaper of an action writes no markup byte. *)
Definition ends_html (esc : list escaper) : bool :=
  match last esc with Some (htmlescaper | rcdataescaper | attrescaper) => true | _ => false end.

Lemma escape_all_inert esc s :
  ends_html esc = true → forallb (λ a, negb (markup a)) (bytes_of (escape_all esc s)) = true.
Proof.
  unfold ends_html. destruct esc as [|x esc _] using rev_ind; [done|]. rewrite last_snoc.
  unfold escape_all. rewrite fold_left_app. cbn [fold_left].
  destruct x; try discriminate; intros _; apply htmlReplacer_inert.
Qed.

Lemma stays_escaped s esc d : settled s = true → ends_html esc = true → stays s (escape_all esc d).
Proof.
  intros Hs He. split; [done|]. intros p [k Hk]. apply run_settled; [done|].
  pose proof (escape_all_inert esc d He) as H. rewrite Hk, forallb_app in H. by apply andb_true_iff in H as [H _].
Qed.

(** ** Following a template *)

Definition add_state (s : hstate) (l : list hstate) : list hstate := if bool_decide (s ∈ l) then l else s :: l.
Definition merge_states (a b : list hstate) : list hstate := foldr add_state b a.

(** The states an action may stand in: markup of its own only in text. *)
Definition action_ok (esc : list escaper) (S : list hstate) : bool :=
  ends_html esc &&
  forallb (λ s, settled s && (negb (bool_decide (esc = [htmlescaper])) || bool_decide (s = HText))) S.

Section track.
Context (callee : string → bool).

(** The states after a template run from any of [S]. *)
Fixpoint track (S : list hstate) (t : tree) : option (list hstate) :=
  match t with
  | Done => Some S
  | Text s k => track (merge_states ((λ st, run st (bytes_of s)) <$> S) []) k
  | Action _ esc k => if action_ok esc S then track S k else None
  | Assign _ _ k => track S k
  | If _ thn els k => a ← track S thn; b ← track S els; track (merge_states a b) k
  | Range _ _ _ body els k =>
      a ← track S body; b ← track S els;
      if forallb (λ s, bool_decide (s ∈ S)) a then track (merge_states b S) k else None
  | Call n _ k => if bool_decide (S = [HText]) && callee n then track S k else None
  end.
End track.

(** A template that goes from text to text, with those it calls. *)
Fixpoint template_tracked (depth : nat) (defs : list (string * tree)) (name : string) : bool :=
  match depth with
  | O => false
  | S depth =>
      match assoc name defs with
      | Some t => bool_decide (track (template_tracked depth defs) [HText] t = Some [HText])
      | None => false
      end
  end.

Lemma elem_of_add s x l : s ∈ add_state x l ↔ s = x ∨ s ∈ l.
Proof. unfold add_state. case_bool_decide; rewrite ?elem_of_cons; [|tauto]. split; [tauto|]. by intros [->|]. Qed.
Lemma elem_of_merge s a b : s ∈ merge_states a b ↔ s ∈ a ∨ s ∈ b.
Proof.
  unfold merge_states. induction a as [|x a IH]; cbn; [rewrite elem_of_nil; tauto|].
  rewrite elem_of_add, elem_of_cons, IH. tauto.
Qed.

(** From one of the states, the output ends in one of the others and its data is confined. *)
Definition follows (S S' : list hstate) (r : exec_result (list chunk)) : Prop :=
  ∀ s cs, s ∈ S → r = Ok cs → Forall (chunk_ok balanced) cs → confined s cs ∧ run s (out_bytes cs) ∈ S'.

Lemma follows_app S S1 S2 a b :
  follows S S1 a → follows S1 S2 b → follows S S2 (let? x := a in let? y := b in Ok (x ++ y)).
Proof.
  intros Ha Hb s cs Hs Hr Hok. destruct a as [x|]; [|done]. destruct b as [y|]; [|done]. cbn in Hr. simplify_eq.
  apply Forall_app in Hok as [Hx Hy]. destruct (Ha s x Hs eq_refl Hx) as [Hcx Hrx].
  destruct (Hb _ y Hrx eq_refl Hy) as [Hcy Hry].
  rewrite confined_app, out_bytes_app, run_app. tauto.
Qed.

Lemma follows_cons S S1 S2 c b :
  (∀ s, s ∈ S → chunk_ok balanced c →
     match c with Data d => stays s d | _ => True end ∧ run s (bytes_of (text_of c)) ∈ S1) →
  follows S1 S2 b → follows S S2 (let? y := b in Ok (c :: y)).
Proof.
  intros Hc Hb s cs Hs Hr Hok. destruct b as [y|]; [|done]. cbn in Hr. simplify_eq.
  apply Forall_cons in Hok as [Hco Hy]. destruct (Hc s Hs Hco) as [Hd Hrc].
  destruct (Hb _ y Hrc eq_refl Hy) as [Hcy Hry]. cbn [confined]. unfold out_bytes. cbn [mbind list_bind].
  rewrite run_app. tauto.
Qed.

Lemma follows_weaken S S1 S2 r : S1 ⊆ S2 → follows S S1 r → follows S S2 r.
Proof. intros Hsub Hr s cs Hs He Hok. destruct (Hr s cs Hs He Hok). split; [done|]. by apply Hsub. Qed.

Lemma follows_none S r : follows S S (Ok [] : exec_result (list chunk)) ∧ follows S S (Err r).
Proof. split; intros s cs Hs [=]. subst. intros _. split; [exact I|done]. Qed.

Lemma follows_each S (body : nat → value → exec_result (list chunk)) n l :
  (∀ n v, follows S S (body n v)) →
  follows S S ((fix each (n : nat) (l : list value) : exec_result (list chunk) :=
     match l with
     | [] => Ok []
     | v :: l => let? a := body n v in let? r := each (Datatypes.S n) l in Ok (a ++ r)
     end) n l).
Proof.
  intros Hb. revert n. induction l as [|v l IH]; intros n; [apply (follows_none S "")|].
  by eapply follows_app.
Qed.

Lemma print_follows S esc v c :
  action_ok esc S = true → print esc v = Ok c → ∀ s, s ∈ S → chunk_ok balanced c →
  match c with Data d => stays s d | _ => True end ∧ run s (bytes_of (text_of c)) ∈ S.
Proof.
  intros [He Hall]%andb_true_iff Hp s Hs Hok. rewrite forallb_forall in Hall.
  specialize (Hall s (proj1 (list_elem_of_In _ _) Hs)). apply andb_true_iff in Hall as [Hset Htext].
  assert (Hdata : ∀ d, stays s (escape_all esc d) ∧ run s (bytes_of (escape_all esc d)) ∈ S).
  { intros d. pose proof (stays_escaped s esc d Hset He) as Hst. split; [done|].
    destruct Hst as [_ Hst]. by rewrite Hst. }
  destruct v; cbn in Hp; try discriminate Hp; simplify_eq; cbn [text_of]; try apply Hdata.
  case_bool_decide; [|done]. simplify_eq. cbn [text_of]. split; [done|].
  cbn in Htext. apply bool_decide_eq_true in Htext as ->. cbn [chunk_ok] in Hok. unfold balanced in Hok. by rewrite Hok.
Qed.

Section sound.
Context (funcs : list (string * gofunc)).

Lemma track_sound callee call S S' vars dot t :
  (∀ n v, callee n = true → follows [HText] [HText] (call n v)) →
  track callee S t = Some S' → follows S S' (exec funcs call vars dot t).
Proof.
  intros Hcall. revert S S' vars dot.
  induction t as [|s k IHk|e esc k IHk|x e k IHk|c thn IHt els IHe k IHk|i x e body IHb els IHe k IHk|n arg k IHk];
    intros S S' vars dot Ht; cbn in Ht |- *.
  - simplify_eq. apply (follows_none S' "").
  - eapply follows_cons; [|by apply IHk]. intros st Hst _. split; [done|]. cbn [text_of].
    rewrite elem_of_merge. left. apply list_elem_of_fmap. by exists st.
  - destruct (action_ok esc S) eqn:Ha; [|done]. destruct (eval funcs vars dot e) as [v|r]; [|by intros ? ? ? [=]].
    cbn. destruct (print esc v) as [c|r] eqn:Hp; [|by intros ? ? ? [=]].
    eapply follows_cons; [|by apply IHk]. by apply (print_follows S esc v).
  - destruct (eval funcs vars dot e) as [v|r]; [|by intros ? ? ? [=]]. by apply IHk.
  - apply bind_Some in Ht as (a & Ha & Ht). apply bind_Some in Ht as (b & Hb & Ht).
    destruct (eval funcs vars dot c) as [v|r]; [|by intros ? ? ? [=]]. cbn.
    eapply follows_app; [|by apply IHk].
    destruct (truth v); (eapply follows_weaken; [|by first [apply IHt | apply IHe]]); intros st Hst;
      apply elem_of_merge; tauto.
  - apply bind_Some in Ht as (a & Ha & Ht). apply bind_Some in Ht as (b & Hb & Ht).
    destruct (forallb _ a) eqn:Hsub; [|done].
    assert (Hback : a ⊆ S).
    { intros st Hst. rewrite forallb_forall in Hsub. apply list_elem_of_In in Hst. by apply Hsub, bool_decide_eq_true in Hst. }
    destruct (eval funcs vars dot e) as [v|r]; [|by intros ? ? ? [=]]. cbn.
    eapply follows_app; [|by apply IHk]. destruct v as [| | | | | | |l]; try by intros ? ? ? [=].
    destruct l as [|v l].
    + eapply follows_weaken; [|by apply IHe]. intros st Hst. apply elem_of_merge. tauto.
    + eapply follows_weaken; [|apply (follows_each S (λ n v, exec funcs call (bind_var x v (bind_var i (VNum Int (Z.of_nat n)) vars)) v body) 0 (v :: l))].
      * intros st Hst. apply elem_of_merge. tauto.
      * intros m w. eapply follows_weaken; [exact Hback|]. by apply IHb.
  - destruct (bool_decide _ && callee n) eqn:Hn; [|done]. apply andb_true_iff in Hn as [HS Hn].
    apply bool_decide_eq_true in HS as ->. destruct (eval_arg funcs vars dot arg) as [v|r]; [|by intros ? ? ? [=]].
    cbn. eapply follows_app; [by apply Hcall|by apply IHk].
Qed.

(** A tracked template goes from text to text with its data confined, whatever the data. *)
Lemma ExecuteTemplate_tracked depth depth' defs name v :
  template_tracked depth defs name = true →
  follows [HText] [HText] (ExecuteTemplate funcs depth' defs name v).
Proof.
  revert depth' name v. induction depth as [|depth IH]; intros depth' name v Ht; [done|].
  destruct depth' as [|depth']; [by intros ? ? ? [=]|]. cbn in Ht |- *.
  destruct (assoc name defs) as [t|]; [|done]. apply bool_decide_eq_true in Ht.
  eapply track_sound; [|done]. intros n u Hn. by apply IH.
Qed.
End sound.
