(* ===== verification/Templates.v ===== *)
(** * The pages' templates (server/internal/web/templates*.go, server/internal/auth/handlers.go,
    server/docs/render.go, server/docs/render_app.go)

    The template texts, byte for byte, one definition for each named template; a back quote
    stands for a double quote. *)

From Stdlib Require Import ZArith Ascii.
From Stdlib Require String.
From stdpp Require Import base option strings list.
From S2P Require Import Prelude GoString GoTemplate.

Local Open Scope string_scope.

(** [head], templates.go *)
Definition tpl_head : string := raw
  "
{{define `head`}}
  <meta charset=`utf-8`>
  <meta name=`viewport` content=`width=device-width, initial-scale=1`>
  <link rel=`preconnect` href=`https://fonts.googleapis.com`>
  <link rel=`preconnect` href=`https://fonts.gstatic.com` crossorigin>
  <link href=`https://fonts.googleapis.com/css2?family=Hanken+Grotesk:wght@400;500;600;700;800&family=JetBrains+Mono:wght@400;500;600;700&display=swap` rel=`stylesheet`>
  <style>
:root{
  --bg:#0A0C0F; --panel:#10141A; --panel-2:#141A22; --panel-3:#181F28;
  --line:rgba(255,255,255,.08); --line-soft:rgba(255,255,255,.045);
  --txt:#E8EDF3; --txt-2:#9AA4B2; --txt-3:#69727F;
  --ok:#5FE3A1; --warn:#F5C451; --err:#FF6B6B; --violet:#A78BFA; --blue:#5EA0FF;
  --accent:#B4F14A;
  --ui:'Hanken Grotesk',system-ui,sans-serif; --mono:'JetBrains Mono',ui-monospace,monospace;
}
*{box-sizing:border-box;}
html,body{height:100%;}
body{margin:0;background:var(--bg);color:var(--txt);font-family:var(--ui);-webkit-font-smoothing:antialiased;}
a{color:inherit;text-decoration:none;}
@keyframes mp-pulse{0%{transform:scale(.7);opacity:.85}70%{transform:scale(2.6);opacity:0}100%{opacity:0}}
@keyframes mp-fade{from{opacity:0;transform:translateY(10px)}to{opacity:1;transform:none}}
::-webkit-scrollbar{width:10px;height:10px}
::-webkit-scrollbar-thumb{background:rgba(255,255,255,.11);border-radius:8px}
::-webkit-scrollbar-track{background:transparent}
.app{display:grid;grid-template-columns:252px 1fr;height:100vh;width:100%;overflow:hidden;background:var(--bg);}
.main{display:flex;flex-direction:column;overflow:hidden;min-width:0;background:radial-gradient(1200px 600px at 78% -10%,rgba(180,241,74,.05),transparent 60%);}
.scrollbody{flex:1;overflow-y:auto;overflow-x:hidden;padding:28px 30px 60px;}
.mono{font-family:var(--mono);}
/* colour utilities */
.c-txt{color:var(--txt);} .c-txt2{color:var(--txt-2);} .c-txt3{color:var(--txt-3);}
.c-accent{color:var(--accent);} .c-ok{color:var(--ok);} .c-warn{color:var(--warn);}
.c-err{color:var(--err);} .c-violet{color:var(--violet);} .c-blue{color:var(--blue);}
/* method chips */
.chip{font:700 10px var(--mono);padding:3px 7px;border-radius:5px;letter-spacing:.5px;}
.m-get{color:var(--accent);background:rgba(180,241,74,.12);}
.m-post{color:var(--blue);background:rgba(94,160,255,.14);}
.m-delete{color:var(--err);background:rgba(255,107,107,.13);}
.m-put{color:var(--warn);background:rgba(245,196,81,.13);}
.m-patch{color:var(--violet);background:rgba(167,139,250,.14);}
.m-other{color:var(--txt-2);background:var(--panel-3);}
/* health dots */
.dot{width:9px;height:9px;border-radius:50%;display:inline-block;}
.dot-ok{background:var(--ok);box-shadow:0 0 0 3px rgba(95,227,161,.15);}
.dot-warn{background:var(--warn);box-shadow:0 0 0 3px rgba(245,196,81,.15);}
.dot-err{background:var(--err);box-shadow:0 0 0 3px rgba(255,107,107,.15);}
.dot-muted{background:var(--txt-3);}
/* status-breakdown bars */
.bar-ok{background:var(--ok);} .bar-blue{background:var(--blue);} .bar-warn{background:var(--warn);}
.bar-err{background:var(--err);} .bar-txt3{background:var(--txt-3);}
/* cards */
.panel{background:var(--panel);border:1px solid var(--line);border-radius:14px;}
.kpi{background:var(--panel);border:1px solid var(--line);border-radius:13px;padding:16px 17px;}
.kpi-l{font:600 10.5px var(--mono);color:var(--txt-3);letter-spacing:.8px;}
.kpi-v{display:flex;align-items:baseline;gap:7px;margin-top:9px;}
.kpi-num{font:700 25px/1 var(--mono);letter-spacing:-1px;}
.kpi-u{font:600 12px var(--mono);color:var(--txt-3);}
.kpi-sub{font:500 11px var(--mono);color:var(--txt-3);margin-top:8px;}
.kpistrip{display:grid;gap:14px;margin-bottom:24px;}
/* diagnostic disclosure */
.diag{margin-top:18px;}
.diag>summary{list-style:none;cursor:pointer;display:flex;align-items:center;gap:10px;padding:14px 18px;font:700 13.5px var(--ui);color:var(--txt-2);background:var(--panel);border:1px solid var(--line);border-radius:14px;user-select:none;}
.diag>summary::-webkit-details-marker{display:none;}
.diag>summary::before{content:`▸`;color:var(--txt-3);font:600 11px var(--mono);}
.diag[open]>summary::before{content:`▾`;}
/* table */
.thead,.trow{display:grid;align-items:center;}
.thead{padding:12px 20px;border-bottom:1px solid var(--line);font:600 10.5px var(--mono);color:var(--txt-3);letter-spacing:.8px;background:var(--panel-2);}
.trow{padding:13px 20px;border-bottom:1px solid var(--line-soft);cursor:pointer;transition:background .12s;color:inherit;}
.trow:hover{background:var(--panel-2);}
.tnum{text-align:right;font:600 13px var(--mono);}
.tnum-s{text-align:right;font:500 12.5px var(--mono);color:var(--txt-2);}
.sortlink{color:var(--txt-3);}
.sortlink.on{color:var(--accent);}
.note{font:500 11px var(--mono);color:var(--txt-3);margin-top:12px;text-align:right;}
.warnbar{display:flex;align-items:center;gap:11px;background:rgba(245,196,81,.08);border:1px solid rgba(245,196,81,.28);color:var(--warn);border-radius:11px;padding:12px 15px;margin-bottom:20px;font-size:12.5px;}
/* sidebar */
.aside{border-right:1px solid var(--line);background:linear-gradient(180deg,#0C0F14,#0A0C0F);display:flex;flex-direction:column;padding:22px 16px;gap:26px;overflow:hidden;}
.nav-item{display:flex;align-items:center;gap:11px;width:100%;padding:9px 10px;border-radius:9px;font:600 13px var(--ui);color:var(--txt-2);}
.nav-item:hover{background:rgba(255,255,255,.03);}
.nav-item.on{background:rgba(180,241,74,.10);color:var(--txt);}
.nav-ico{width:18px;height:18px;display:grid;place-items:center;color:var(--txt-3);}
.nav-item.on .nav-ico{color:var(--accent);}
.nav-badge{font:600 10px var(--mono);color:var(--txt-2);background:var(--panel-3);padding:2px 6px;border-radius:20px;}
.userbox{display:flex;align-items:center;gap:8px;padding:6px 4px;border-radius:9px;color:inherit;text-decoration:none;}
a.userbox:hover{background:rgba(255,255,255,.04);}
/* topbar */
.header{display:flex;align-items:center;gap:16px;padding:16px 30px;border-bottom:1px solid var(--line);background:rgba(10,12,15,.6);backdrop-filter:blur(8px);}
.crumbs{display:flex;align-items:center;gap:9px;font:600 12.5px var(--mono);color:var(--txt-3);}
.wbtn{border:none;cursor:pointer;font:600 12px var(--mono);padding:5px 11px;border-radius:6px;background:transparent;color:var(--txt-2);}
.wbtn.on{background:var(--accent);color:#0A0C0F;}
.livelink{display:flex;align-items:center;gap:7px;font:600 11.5px var(--mono);color:var(--txt-3);}
.livelink.on{color:var(--txt-2);}
.pulse{position:relative;display:inline-block;}
.pulse span{position:absolute;inset:0;border-radius:50%;}
.pulse .ping{animation:mp-pulse 2.4s ease-out infinite;}
.fade{animation:mp-fade .4s ease both;}
pre{margin:0;padding:16px 17px;font:500 12.5px/1.7 var(--mono);color:var(--txt-2);overflow-x:auto;}
/* framework selector (onboarding wire-up card) — CSS-only, no JS: hidden radios
   drive the visible snippet + active tab via :checked sibling selectors. */
.fw-radio{position:absolute;width:1px;height:1px;opacity:0;pointer-events:none;}
.fw-tabs{display:flex;gap:2px;padding:8px 10px;border-bottom:1px solid var(--line);background:var(--panel-2);overflow-x:auto;}
.fw-tab{font:600 11.5px var(--mono);color:var(--txt-3);padding:5px 11px;border-radius:7px;cursor:pointer;white-space:nowrap;user-select:none;transition:color .12s,background .12s;}
.fw-tab:hover{color:var(--txt-2);}
.fw-pane{display:none;}
#fw-gin:checked~.fw-tabs label[for=fw-gin],
#fw-nethttp:checked~.fw-tabs label[for=fw-nethttp],
#fw-echo:checked~.fw-tabs label[for=fw-echo],
#fw-chi:checked~.fw-tabs label[for=fw-chi],
#fw-beego:checked~.fw-tabs label[for=fw-beego]{color:var(--accent);background:rgba(180,241,74,.12);}
#fw-gin:checked~.fw-panes .fw-pane[data-fw=gin],
#fw-nethttp:checked~.fw-panes .fw-pane[data-fw=nethttp],
#fw-echo:checked~.fw-panes .fw-pane[data-fw=echo],
#fw-chi:checked~.fw-panes .fw-pane[data-fw=chi],
#fw-beego:checked~.fw-panes .fw-pane[data-fw=beego]{display:block;}
#fw-gin:focus-visible~.fw-tabs label[for=fw-gin],
#fw-nethttp:focus-visible~.fw-tabs label[for=fw-nethttp],
#fw-echo:focus-visible~.fw-tabs label[for=fw-echo],
#fw-chi:focus-visible~.fw-tabs label[for=fw-chi],
#fw-beego:focus-visible~.fw-tabs label[for=fw-beego]{outline:2px solid var(--accent);outline-offset:1px;}
  </style>
{{end}}

".

(** [sidebar], templates.go *)
Definition tpl_sidebar : string := raw
  "{{define `sidebar`}}
<aside class=`aside`>
  <div style=`display:flex;align-items:center;gap:11px;padding:0 6px;`>
    <div style=`width:34px;height:34px;display:grid;place-items:center;background:var(--panel-2);border:1px solid var(--line);border-radius:9px;`>
      <svg width=`19` height=`19` viewBox=`0 0 24 24` fill=`none`><path d=`M2 15 L6 15 L8 6 L11 20 L14 3 L16 15 L22 15` stroke=`#B4F14A` stroke-width=`2` stroke-linecap=`round` stroke-linejoin=`round` fill=`none`></path></svg>
    </div>
    <div style=`line-height:1;`>
      <div style=`font-weight:800;font-size:17px;letter-spacing:-.3px;`>m<span class=`c-accent`>API</span>ng</div>
      <div style=`font:500 9.5px/1 var(--mono);color:var(--txt-3);letter-spacing:1.5px;margin-top:3px;`>MONITORED&nbsp;API · NG</div>
    </div>
  </div>
  <div style=`display:flex;align-items:center;gap:10px;width:100%;padding:9px 11px;background:var(--panel);border:1px solid var(--line);border-radius:10px;`>
    <div style=`width:26px;height:26px;border-radius:7px;background:linear-gradient(135deg,var(--accent),#6fae2e);display:grid;place-items:center;font:800 12px var(--ui);color:#0A0C0F;`>{{initials .Org}}</div>
    <div style=`flex:1;line-height:1.2;overflow:hidden;`>
      <div style=`font-size:12.5px;font-weight:600;white-space:nowrap;`>{{.Org}}</div>
      <div style=`font:500 10px/1 var(--mono);color:var(--txt-3);margin-top:2px;`>organization</div>
    </div>
  </div>
  <nav style=`display:flex;flex-direction:column;gap:3px;`>
    <div style=`font:600 10px/1 var(--mono);color:var(--txt-3);letter-spacing:1.4px;padding:0 8px 8px;`>MONITOR</div>
    {{range .Nav}}
      <a href=`{{.Href}}` class=`nav-item{{if .Active}} on{{end}}`>
        <span class=`nav-ico`>{{.Icon}}</span><span style=`flex:1;`>{{.Label}}</span>
        {{if .Badge}}<span class=`nav-badge`>{{.Badge}}</span>{{end}}
      </a>
    {{end}}
  </nav>
  <div style=`margin-top:auto;display:flex;flex-direction:column;gap:12px;`>
    <div style=`background:var(--panel);border:1px solid var(--line);border-radius:11px;padding:12px 13px;`>
      <div style=`display:flex;align-items:center;justify-content:space-between;margin-bottom:9px;`>
        <span style=`font:600 10px var(--mono);color:var(--txt-3);letter-spacing:1px;`>INGEST KEY</span>
        {{if .KeyMask}}
        <span style=`display:flex;align-items:center;gap:5px;font:600 10.5px var(--mono);color:var(--ok);`>
          <span class=`pulse` style=`width:6px;height:6px;`><span style=`background:var(--ok);`></span><span class=`ping` style=`background:var(--ok);`></span></span>LIVE
        </span>
        {{end}}
      </div>
      {{if .KeyMask}}
      <div style=`font:500 11.5px var(--mono);color:var(--txt-2);letter-spacing:.3px;`>mk_live_{{.KeyMask}}</div>
      {{else}}
      <a href=`/setup` style=`font:500 11.5px var(--mono);color:var(--txt-3);letter-spacing:.3px;text-decoration:none;`>no active key</a>
      {{end}}
    </div>
    {{if .AccountHref}}<a href=`{{.AccountHref}}` class=`userbox`>{{else}}<div class=`userbox`>{{end}}
      <div style=`width:30px;height:30px;border-radius:50%;background:var(--panel-3);border:1px solid var(--line);display:grid;place-items:center;font:700 11px var(--ui);color:var(--txt-2);`>{{initials .User}}</div>
      <div style=`line-height:1.2;flex:1;overflow:hidden;`>
        <div style=`font-size:12px;font-weight:600;white-space:nowrap;`>{{.User}}</div>
        <div style=`font:500 10px/1 var(--mono);color:var(--txt-3);margin-top:2px;`>{{.Role}}</div>
      </div>
      {{if .AccountHref}}<span style=`color:var(--txt-3);font-size:15px;line-height:1;`>›</span>{{end}}
    {{if .AccountHref}}</a>{{else}}</div>{{end}}
  </div>
</aside>
{{end}}

".

(** [topbar], templates.go *)
Definition tpl_topbar : string := raw
  "{{define `topbar`}}
<header class=`header`>
  <div style=`flex:1;min-width:0;`>
    <div class=`crumbs`>
      {{range $i, $c := .Crumbs}}
        {{if $i}}<span style=`color:var(--txt-3);opacity:.5;`>/</span>{{end}}
        {{if $c.Href}}<a href=`{{$c.Href}}` class=`c-accent`>{{$c.Label}}</a>{{else}}<span class=`c-txt2`>{{$c.Label}}</span>{{end}}
      {{end}}
    </div>
    <h1 style=`margin:6px 0 0;font-size:21px;font-weight:800;letter-spacing:-.4px;`>{{.PageTitle}}</h1>
  </div>
  {{if .ShowControls}}
  <div style=`display:flex;align-items:center;gap:14px;`>
    {{if .LiveHref}}
    <a href=`{{.LiveHref}}` class=`livelink{{if .Live}} on{{end}}`>
      {{if .Live}}<span class=`pulse` style=`width:7px;height:7px;`><span style=`background:var(--accent);`></span><span class=`ping` style=`background:var(--accent);`></span></span>live · {{.FlushLabel}}{{else}}<span style=`width:7px;height:7px;border-radius:50%;background:var(--txt-3);display:inline-block;`></span>paused · go live{{end}}
    </a>
    {{else}}
    <div style=`display:flex;align-items:center;gap:7px;font:600 11.5px var(--mono);color:var(--txt-2);`>
      <span class=`pulse` style=`width:7px;height:7px;`><span style=`background:var(--accent);`></span><span class=`ping` style=`background:var(--accent);`></span></span>live · {{.FlushLabel}}
    </div>
    {{end}}
    <div style=`display:flex;background:var(--panel);border:1px solid var(--line);border-radius:9px;padding:3px;`>
      {{range .Windows}}<a href=`{{.Href}}` class=`wbtn{{if .Active}} on{{end}}`>{{.Key}}</a>{{end}}
    </div>
  </div>
  {{end}}
</header>
{{end}}

".

(** [shellpage], templates.go *)
Definition tpl_shellpage : string := raw
  "{{define `shellpage`}}<!doctype html>
<html lang=`en`><head>{{template `head`}}<title>mAPI-ng — {{.Title}}</title></head>
<body><div class=`app`>{{template `sidebar` .Shell}}<main class=`main`>{{template `topbar` .Shell}}
<div class=`scrollbody`><div class=`fade`>{{.Content}}</div></div>
</main></div></body></html>{{end}}

".

(** [kpi], templates.go *)
Definition tpl_kpi : string := raw
  "{{define `kpi`}}
<div class=`kpi`>
  <div class=`kpi-l`>{{.Label}}</div>
  <div class=`kpi-v`><span class=`kpi-num {{.ColorClass}}`>{{.Value}}</span>{{if .Unit}}<span class=`kpi-u`>{{.Unit}}</span>{{end}}</div>
  {{if .Sub}}<div class=`kpi-sub`>{{.Sub}}</div>{{end}}
</div>
{{end}}
".

Definition tplChromeHTML : string := str_concat [tpl_head; tpl_sidebar; tpl_topbar; tpl_shellpage; tpl_kpi].

(** [overview], templates_tables.go *)
Definition tpl_overview : string := raw
  "
{{define `overview`}}<!doctype html>
<html lang=`en`><head>{{template `head`}}{{if .Shell.Live}}<meta http-equiv=`refresh` content=`15`>{{end}}<title>mAPI-ng — services</title></head>
<body><div class=`app`>{{template `sidebar` .Shell}}<main class=`main`>{{template `topbar` .Shell}}
<div class=`scrollbody`><div class=`fade`>
  {{if .Frozen}}<div class=`warnbar`><span style=`font-size:15px;`>⚠</span><span class=`c-txt2`><b class=`c-warn`>Cardinality frozen.</b> New series are rejected for this tenant; existing series keep flowing. Raise the plan cap or reduce endpoint cardinality.</span></div>{{end}}
  <div class=`kpistrip` style=`grid-template-columns:repeat(4,1fr);`>{{range .KPIs}}{{template `kpi` .}}{{end}}</div>
  <div class=`panel` style=`overflow:hidden;`>
    <div class=`thead` style=`grid-template-columns:2fr 1fr 1fr 1fr .8fr .8fr .8fr;`><span>SERVICE</span><span style=`text-align:right;`>TRAFFIC</span><span style=`text-align:right;`>ERROR %</span><span style=`text-align:right;`>4XX %</span><span style=`text-align:right;`>p50</span><span style=`text-align:right;`>p95</span><span style=`text-align:right;`>p99</span></div>
    {{range .Services}}
    <a class=`trow` style=`grid-template-columns:2fr 1fr 1fr 1fr .8fr .8fr .8fr;` href=`{{.DrillHref}}`>
      <div style=`display:flex;align-items:center;gap:12px;`><span class=`dot {{hc .ErrorRate}}`></span><div style=`font-size:13.5px;font-weight:600;`>{{.Service}}</div></div>
      <div class=`tnum`>{{rated .RatePerSec}}/s</div>
      <div class=`tnum {{errc .ErrorRate}}`>{{pctd .ErrorRate}}</div>
      <div class=`tnum-s c-txt3` title=`4xx client errors (excluded from ERROR %)`>{{pctd .Client4xxRate}}</div>
      <div class=`tnum-s`>{{msf .P50}}</div>
      <div class=`tnum-s`>{{msf .P95}}</div>
      <div class=`tnum-s {{p99c .P99}}`>{{msf .P99}}</div>
    </a>
    {{else}}
    <div style=`padding:22px 20px;color:var(--txt-3);font-size:13px;`>No services reporting in this window.</div>
    {{end}}
  </div>
  <div class=`note`>Aggregated from client-side DDSketch summaries · {{.WindowLabel}} window</div>
</div></div>
</main></div></body></html>{{end}}

".

(** [endpoints], templates_tables.go *)
Definition tpl_endpoints : string := raw
  "{{define `endpoints`}}<!doctype html>
<html lang=`en`><head>{{template `head`}}<title>mAPI-ng — {{.Service}}</title></head>
<body><div class=`app`>{{template `sidebar` .Shell}}<main class=`main`>{{template `topbar` .Shell}}
<div class=`scrollbody`><div class=`fade`>
  {{if .Frozen}}<div class=`warnbar`><span style=`font-size:15px;`>⚠</span><span class=`c-txt2`><b class=`c-warn`>Cardinality frozen.</b> New series are rejected for this tenant.</span></div>{{end}}
  <div class=`kpistrip` style=`grid-template-columns:repeat(3,1fr);`>{{range .KPIs}}{{template `kpi` .}}{{end}}</div>
  <div class=`panel` style=`overflow:hidden;`>
    <div class=`thead` style=`grid-template-columns:2.2fr 1fr 1fr 1fr .7fr .7fr .7fr .8fr .8fr;`>
      <span>ENDPOINT</span>
      <a href=`?sort=traffic&win={{.Shell.WindowKey}}` class=`sortlink{{if eq .Sort `traffic`}} on{{end}}` style=`text-align:right;`>TRAFFIC{{if eq .Sort `traffic`}} ▾{{end}}</a>
      <a href=`?sort=error&win={{.Shell.WindowKey}}` class=`sortlink{{if eq .Sort `error`}} on{{end}}` style=`text-align:right;`>ERROR %{{if eq .Sort `error`}} ▾{{end}}</a>
      <span style=`text-align:right;`>4XX %</span>
      <span style=`text-align:right;`>p50</span><span style=`text-align:right;`>p95</span>
      <a href=`?sort=p99&win={{.Shell.WindowKey}}` class=`sortlink{{if eq .Sort `p99`}} on{{end}}` style=`text-align:right;`>p99{{if eq .Sort `p99`}} ▾{{end}}</a>
      <span style=`text-align:right;`>AVG REQ</span><span style=`text-align:right;`>AVG RESP</span>
    </div>
    {{$svc := .Service}}
    {{$win := .Shell.WindowKey}}
    {{range .Endpoints}}
    <a class=`trow` style=`grid-template-columns:2.2fr 1fr 1fr 1fr .7fr .7fr .7fr .8fr .8fr;` href=`/services/{{$svc}}/endpoint?method={{.Method}}&route={{.Route}}&win={{$win}}`>
      <div style=`display:flex;align-items:center;gap:11px;min-width:0;`><span class=`chip {{mcls .Method}}`>{{.Method}}</span><span style=`font:500 13px var(--mono);white-space:nowrap;overflow:hidden;text-overflow:ellipsis;`>{{.Route}}</span></div>
      <div class=`tnum`>{{rated .RatePerSec}}/s</div>
      <div class=`tnum {{errc .ErrorRate}}`>{{pctd .ErrorRate}}</div>
      <div class=`tnum-s c-txt3` title=`4xx client errors (excluded from ERROR %)`>{{pctd .Client4xxRate}}</div>
      <div class=`tnum-s`>{{msf .P50}}</div>
      <div class=`tnum-s`>{{msf .P95}}</div>
      <div class=`tnum-s {{p99c .P99}}`>{{msf .P99}}</div>
      <div class=`tnum-s`>{{bytes .ReqBytesAvg}}</div>
      <div class=`tnum-s`>{{bytes .RespBytesAvg}}</div>
    </a>
    {{else}}
    <div style=`padding:22px 20px;color:var(--txt-3);font-size:13px;`>No endpoints for this service in this window.</div>
    {{end}}
  </div>
  <div class=`note`>Route templates only — raw paths are never emitted (cardinality-safe)</div>
</div></div>
</main></div></body></html>{{end}}
".

Definition tplTablesHTML : string := str_concat [tpl_overview; tpl_endpoints].

(** [detail], templates_detail.go (part 1) *)
Definition tpl_detail1 : string := raw
  "
{{define `detail`}}<!doctype html>
<html lang=`en`><head>{{template `head`}}<title>mAPI-ng — {{.Method}} {{.Route}}</title></head>
<body><div class=`app`>{{template `sidebar` .Shell}}<main class=`main`>{{template `topbar` .Shell}}
<div class=`scrollbody`><div class=`fade`>
  <div style=`display:flex;align-items:center;gap:12px;margin-bottom:20px;`><span class=`chip {{mcls .Method}}` style=`font-size:12px;padding:5px 10px;border-radius:7px;`>{{.Method}}</span><span style=`font:600 18px var(--mono);`>{{.Route}}</span></div>
  <div class=`panel` style=`padding:13px 18px;margin-bottom:20px;display:flex;align-items:center;gap:12px;`>
    <span class=`dot {{.Verdict.DotClass}}` style=`flex-shrink:0;`></span>
    <span style=`font:700 14px var(--ui);flex-shrink:0;`>{{.Verdict.Headline}}</span>
    {{if .Verdict.Qualifier}}<span style=`font:600 10.5px var(--mono);color:var(--txt-3);border:1px solid var(--line);border-radius:6px;padding:2px 7px;flex-shrink:0;letter-spacing:.4px;`>{{.Verdict.Qualifier}}</span>{{end}}
    <span style=`font:500 12.5px var(--mono);color:var(--txt-3);`>{{.Verdict.Sentence}}</span>
  </div>
  <div class=`kpistrip` style=`grid-template-columns:repeat(5,1fr);`>{{range .Stats}}{{template `kpi` .}}{{end}}</div>
  <div style=`display:grid;grid-template-columns:1.5fr 1fr;gap:18px;align-items:start;`>
    <div class=`panel` style=`padding:18px 20px;`>
      <div style=`display:flex;align-items:center;justify-content:space-between;margin-bottom:14px;`><span style=`font-size:13.5px;font-weight:700;`>Rate &amp; latency over time</span><div style=`display:flex;gap:14px;`><span style=`display:flex;align-items:center;gap:6px;font:600 11px var(--mono);color:var(--txt-2);`><span style=`width:12px;height:3px;border-radius:2px;background:var(--accent);`></span>rate</span><span style=`display:flex;align-items:center;gap:6px;font:600 11px var(--mono);color:var(--txt-2);`><span style=`width:12px;height:3px;border-radius:2px;background:var(--violet);`></span>p95</span><span style=`display:flex;align-items:center;gap:6px;font:600 11px var(--mono);color:var(--txt-2);`><span style=`width:12px;height:3px;border-radius:2px;background:var(--err);`></span>errors</span></div></div>
      {{.TSChart}}
      <div style=`display:flex;align-items:center;justify-content:space-between;gap:12px;margin-top:12px;padding-top:12px;border-top:1px solid var(--line-soft);`>
        <div style=`display:flex;align-items:center;gap:8px;font:600 11px var(--mono);`>
          {{if .Range.Custom}}<span style=`color:var(--accent);`>⤢ {{.Range.Label}}</span><a href=`{{.Range.ResetHref}}` style=`color:var(--txt-3);`>reset</a>{{else}}<span style=`color:var(--txt-3);`>{{.Range.Label}} window</span>{{end}}
        </div>
        <div style=`display:flex;align-items:center;gap:6px;font:600 11px var(--mono);`>
          {{if .Range.PanLeftHref}}<a href=`{{.Range.PanLeftHref}}` class=`wbtn` title=`pan back`>←</a>{{end}}
          <a href=`{{.Range.ZoomOutHref}}` class=`wbtn` title=`zoom out 2×`>zoom out</a>
          {{if .Range.PanRightHref}}<a href=`{{.Range.PanRightHref}}` class=`wbtn` title=`pan forward`>→</a>{{end}}
        </div>
      </div>
    </div>
    <div class=`panel` style=`padding:18px 20px;`>
      <div style=`font-size:13.5px;font-weight:700;margin-bottom:6px;`>Status breakdown</div>
      <div style=`font:500 11px var(--mono);color:var(--txt-3);margin-bottom:16px;`>error = 5xx + timeout · 4xx shown separately</div>
      {{range .StatusBars}}
      <div style=`margin-bottom:13px;`>
        <div style=`display:flex;align-items:center;justify-content:space-between;margin-bottom:5px;`>
          <span style=`display:flex;align-items:center;gap:8px;font:600 12px var(--mono);` class=`{{.LabelClass}}`><span style=`width:8px;height:8px;border-radius:2px;` class=`{{.BarClass}}`></span>{{.Label}}</span>
          <span style=`font:600 12px var(--mono);color:var(--txt-2);`>{{.Count}}</span>
        </div>
        <div style=`height:6px;background:var(--panel-3);border-radius:4px;overflow:hidden;`><div style=`height:100%;width:{{.Pct}};border-radius:4px;` class=`{{.BarClass}}`></div></div>
      </div>
      {{end}}
      {{if .Detail.Codes}}
      <div style=`margin-top:18px;padding-top:16px;border-top:1px solid var(--line);`>
        <div style=`font:600 10px var(--mono);color:var(--txt-3);letter-spacing:.8px;margin-bottom:10px;`>EXACT CODES</div>
        <div style=`display:flex;flex-wrap:wrap;gap:8px;`>
          {{range .Detail.Codes}}<span style=`font:600 11px var(--mono);color:var(--txt-2);background:var(--panel-3);border:1px solid var(--line);padding:4px 9px;border-radius:7px;`><span class=`{{codec .Code}}`>{{.Code}}</span> · {{.Count}}</span>{{end}}
        </div>
      </div>
      {{end}}
    </div>
  </div>
  <details class=`diag`{{if .Verdict.Open}} open{{end}}>
  <summary>Diagnostic details</summary>
  {{if .Diagnosis.Show}}
  <div class=`panel` style=`padding:18px 20px;margin-top:18px;border-color:rgba(180,241,74,.28);`>
    <div style=`display:flex;align-items:center;justify-content:space-between;margin-bottom:10px;`><span style=`font:700 10px var(--mono);color:var(--accent);letter-spacing:1px;`>RANKED CAUSE</span><span style=`font:500 11px var(--mono);color:var(--txt-3);`>{{.Diagnosis.Why}}</span></div>
    <div style=`display:flex;align-items:center;gap:11px;margin-bottom:12px;`>
      <span class=`dot {{.Diagnosis.TopCause.DotClass}}` style=`flex-shrink:0;`></span>
      <span style=`font:700 15px var(--ui);flex-shrink:0;`>{{.Diagnosis.TopCause.Name}}</span>
      {{if .Diagnosis.TopCause.Confidence}}<span style=`font:600 10px var(--mono);color:var(--txt-3);border:1px solid var(--line);border-radius:6px;padding:2px 7px;flex-shrink:0;letter-spacing:.4px;`>{{.Diagnosis.TopCause.Confidence}}</span>{{end}}
    </div>
    {{if .Diagnosis.TopCause.Summary}}<div style=`font:500 12.5px var(--ui);color:var(--txt-2);margin-bottom:10px;`>{{.Diagnosis.TopCause.Summary}}</div>{{end}}
    {{if .Diagnosis.Scope}}<div style=`font:500 11.5px var(--mono);color:var(--txt-3);margin-bottom:12px;`>Scope: {{.Diagnosis.Scope}}</div>{{end}}
    {{if .Diagnosis.TopCause.Evidence}}
    <ul style=`margin:0;padding-left:18px;display:flex;flex-direction:column;gap:6px;`>
      {{range .Diagnosis.TopCause.Evidence}}<li style=`font:500 12px var(--mono);color:var(--txt-2);`>{{.}}</li>{{end}}
    </ul>
    {{end}}
    {{if .Diagnosis.TopCause.Chart}}
    <div style=`margin-top:14px;`>{{.Diagnosis.TopCause.Chart}}</div>
    <div style=`display:flex;gap:16px;margin-top:10px;font:600 11px var(--mono);color:var(--txt-3);`>
      <span style=`display:flex;align-items:center;gap:6px;`><span style=`width:12px;height:3px;border-radius:2px;background:var(--accent);`></span>post-GC live heap</span>
      <span style=`display:flex;align-items:center;gap:6px;`><span style=`width:12px;height:3px;border-radius:2px;background:var(--txt-3);`></span>in-use heap</span>
    </div>
    {{end}}
    {{if .Diagnosis.TopCause.Falsifier}}
    <div style=`margin-top:12px;padding-top:12px;border-top:1px solid var(--line-soft);font:500 11.5px var(--mono);color:var(--txt-3);`><span style=`color:var(--txt-2);`>Rules this out:</span> {{.Diagnosis.TopCause.Falsifier}}</div>
    {{end}}
    {{if .Diagnosis.Others}}
    <div style=`margin-top:14px;padding-top:12px;border-top:1px solid var(--line-soft);display:flex;flex-wrap:wrap;gap:10px;align-items:center;`>
      <span style=`font:600 10px var(--mono);color:var(--txt-3);letter-spacing:.8px;`>ALSO CONSIDERED</span>
      {{range .Diagnosis.Others}}<span style=`display:flex;align-items:center;gap:7px;font:500 11.5px var(--mono);color:var(--txt-2);background:var(--panel-3);border:1px solid var(--line);border-radius:7px;padding:4px 9px;`><span class=`dot {{.DotClass}}` style=`width:7px;height:7px;`></span>{{.Name}} <span style=`color:var(--txt-3);`>· {{.Confidence}}</span></span>{{end}}
    </div>
    {{end}}
  </div>
  {{end}}
  <div class=`panel` style=`padding:13px 16px;margin-top:18px;display:flex;align-items:center;gap:14px;flex-wrap:wrap;`>
    <span style=`font:700 10px var(--mono);color:var(--txt-3);letter-spacing:1px;flex-shrink:0;`>DEBUG CONTEXT</span>
    <span id=`mp-debug` class=`mono` style=`flex:1;min-width:220px;font-size:12px;color:var(--txt-2);word-break:break-word;`>{{.Debug.Summary}}</span>
    <button type=`button` data-copy=`mp-debug` style=`flex-shrink:0;padding:5px 11px;border:1px solid var(--line);border-radius:7px;background:var(--panel-3);color:var(--txt-2);font:600 11px var(--mono);cursor:pointer;`>⧉ copy</button>
  </div>
  <div class=`panel` style=`padding:18px 20px;margin-top:18px;`>
    <div style=`display:flex;align-items:center;justify-content:space-between;margin-bottom:6px;`><span style=`font-size:13.5px;font-weight:700;`>Latency distribution</span><span style=`font:500 11px var(--mono);color:var(--txt-3);`>DDSketch · γ=1.01 · ~1% relative error</span></div>
    <div style=`font:500 11px var(--mono);color:var(--txt-3);margin-bottom:8px;`>merged bucket counts · log-spaced latency</div>
    {{.HistChart}}
  </div>
  {{if .Instances}}
  <div class=`panel` style=`overflow:hidden;margin-top:18px;`>
    <div style=`padding:16px 20px 4px;`><span style=`font-size:13.5px;font-weight:700;`>Instances</span><span style=`font:500 11px var(--mono);color:var(--txt-3);margin-left:10px;`>is a degradation one replica, or fleet-wide?</span></div>
    <div class=`thead` style=`grid-template-columns:2fr 1fr 1fr .8fr .8fr .8fr .9fr .9fr;`>
      <span>INSTANCE</span><span style=`text-align:right;`>REQUESTS</span><span style=`text-align:right;`>ERROR %</span><span style=`text-align:right;`>p50</span><span style=`text-align:right;`>p95</span><span style=`text-align:right;`>p99</span><span style=`text-align:right;`>AVG REQ</span><span style=`text-align:right;`>AVG RESP</span>
    </div>
    {{range .Instances}}
    <div class=`trow` style=`grid-template-columns:2fr 1fr 1fr .8fr .8fr .8fr .9fr .9fr;cursor:default;`>
      <div style=`font:500 13px var(--mono);white-space:nowrap;overflow:hidden;text-overflow:ellipsis;`>{{if .IsOutlier}}<span class=`dot dot-warn` style=`margin-right:7px;`></span>{{end}}{{.Instance}}</div>
      <div class=`tnum`>{{.Count}}</div>
      <div class=`tnum {{errc .ErrorRate}}`>{{pctd .ErrorRate}}</div>
      <div class=`tnum-s`>{{msf .P50}}</div>
      <div class=`tnum-s{{if .IsOutlier}} c-warn{{end}}`>{{msf .P95}}</div>
      <div class=`tnum-s {{p99c .P99}}`>{{msf .P99}}</div>
      <div class=`tnum-s`>{{bytes .ReqBytesAvg}}</div>
      <div class=`tnum-s`>{{bytes .RespBytesAvg}}</div>
    </div>
    {{end}}
  </div>
  {{end}}
  {{if .Versions}}
  <div class=`panel` style=`overflow:hidden;margin-top:18px;`>
    <div style=`padding:16px 20px 4px;`><span style=`font-size:13.5px;font-weight:700;`>Versions</span><span style=`font:500 11px var(--mono);color:var(--txt-3);margin-left:10px;`>did a release regress this endpoint?</span></div>
    <div class=`thead` style=`grid-template-columns:2fr 1fr 1fr .8fr .8fr .8fr;`>
      <span>VERSION</span><span style=`text-align:right;`>REQUESTS</span><span style=`text-align:right;`>ERROR %</span><span style=`text-align:right;`>p50</span><span style=`text-align:right;`>p95</span><span style=`text-align:right;`>p99</span>
    </div>
    {{range .Versions}}
    <div class=`trow` style=`grid-template-columns:2fr 1fr 1fr .8fr .8fr .8fr;cursor:default;`>
      <div style=`font:500 13px var(--mono);white-space:nowrap;overflow:hidden;text-overflow:ellipsis;`>{{.Version}}</div>
      <div class=`tnum`>{{.Count}}</div>
      <div class=`tnum {{errc .ErrorRate}}`>{{pctd .ErrorRate}}</div>
      <div class=`tnum-s`>{{msf .P50}}</div>
      <div class=`tnum-s`>{{msf .P95}}</div>
      <div class=`tnum-s {{p99c .P99}}`>{{msf .P99}}</div>
    </div>
    {{end}}
  </div>
  {{end}}
  {{if .Exemplars}}
  <div class=`panel` style=`overflow:hidden;margin-top:18px;`>
    <div style=`padding:16px 20px 4px;`><span style=`font-size:13.5px;font-weight:700;`>Exemplars</span><span style=`font:500 11px var(--mono);color:var(--txt-3);margin-left:10px;`>jump from a spike to a real request</span></div>
    <div class=`thead` style=`grid-template-columns:.9fr .7fr .8fr 1.6fr 1.6fr;`>
      <span>TIME</span><span style=`text-align:right;`>STATUS</span><span style=`text-align:right;`>LATENCY</span><span style=`padding-left:16px;`>TRACE ID</span><span>REQUEST ID</span>
    </div>
    {{range $i, $e := .Exemplars}}
".

(** [detail], templates_detail.go (part 2) *)
Definition tpl_detail2 : string := raw
  "    <div class=`trow` style=`grid-template-columns:.9fr .7fr .8fr 1.6fr 1.6fr;cursor:default;`>
      <div style=`font:500 12.5px var(--mono);color:var(--txt-2);`>{{$e.Time}}</div>
      <div class=`tnum {{codec $e.StatusCode}}`>{{$e.StatusCode}}</div>
      <div class=`tnum-s`>{{msf $e.Latency}}</div>
      <div style=`display:flex;align-items:center;gap:8px;min-width:0;padding-left:16px;`>
        {{if $e.FullTrace}}
        <span class=`mono` style=`font-size:12px;color:var(--txt-2);white-space:nowrap;overflow:hidden;text-overflow:ellipsis;`>{{$e.ShortTrace}}</span>
        <span id=`mp-ex-tr-{{$i}}` style=`position:absolute;width:1px;height:1px;overflow:hidden;clip:rect(0 0 0 0);`>{{$e.FullTrace}}</span>
        <button type=`button` data-copy=`mp-ex-tr-{{$i}}` style=`flex-shrink:0;padding:2px 7px;border:1px solid var(--line);border-radius:6px;background:var(--panel-3);color:var(--txt-3);font:600 10px var(--mono);cursor:pointer;`>⧉</button>
        {{else}}<span class=`mono` style=`font-size:12px;color:var(--txt-3);`>—</span>{{end}}
      </div>
      <div style=`display:flex;align-items:center;gap:8px;min-width:0;`>
        {{if $e.FullReq}}
        <span class=`mono` style=`font-size:12px;color:var(--txt-2);white-space:nowrap;overflow:hidden;text-overflow:ellipsis;`>{{$e.ShortReq}}</span>
        <span id=`mp-ex-rq-{{$i}}` style=`position:absolute;width:1px;height:1px;overflow:hidden;clip:rect(0 0 0 0);`>{{$e.FullReq}}</span>
        <button type=`button` data-copy=`mp-ex-rq-{{$i}}` style=`flex-shrink:0;padding:2px 7px;border:1px solid var(--line);border-radius:6px;background:var(--panel-3);color:var(--txt-3);font:600 10px var(--mono);cursor:pointer;`>⧉</button>
        {{else}}<span class=`mono` style=`font-size:12px;color:var(--txt-3);`>—</span>{{end}}
      </div>
    </div>
    {{end}}
  </div>
  {{end}}
  {{if .ClassLatency}}
  <div class=`panel` style=`overflow:hidden;margin-top:18px;`>
    <div style=`padding:16px 20px 4px;`><span style=`font-size:13.5px;font-weight:700;`>Latency by status class</span><span style=`font:500 11px var(--mono);color:var(--txt-3);margin-left:10px;`>is the latency on failures, or also on successes?</span></div>
    <div class=`thead` style=`grid-template-columns:1.4fr 1fr 1fr 1fr 1fr;`>
      <span>CLASS</span><span style=`text-align:right;`>REQUESTS</span><span style=`text-align:right;`>p50</span><span style=`text-align:right;`>p95</span><span style=`text-align:right;`>p99</span>
    </div>
    {{range .ClassLatency}}
    <div class=`trow` style=`grid-template-columns:1.4fr 1fr 1fr 1fr 1fr;cursor:default;`>
      <div style=`display:flex;align-items:center;gap:8px;font:600 12.5px var(--mono);`><span style=`width:8px;height:8px;border-radius:2px;` class=`{{barc .Class}}`></span>{{.Class}}</div>
      <div class=`tnum`>{{.Count}}</div>
      <div class=`tnum-s`>{{msf .P50}}</div>
      <div class=`tnum-s`>{{msf .P95}}</div>
      <div class=`tnum-s {{p99c .P99}}`>{{msf .P99}}</div>
    </div>
    {{end}}
  </div>
  {{end}}
  <div class=`panel` style=`padding:18px 20px;margin-top:18px;`>
    <div style=`display:flex;align-items:center;justify-content:space-between;margin-bottom:6px;`><span style=`font-size:13.5px;font-weight:700;`>Self vs downstream</span><span style=`font:500 11px var(--mono);color:var(--txt-3);`>where does the time go?</span></div>
    {{if .Downstream.HasData}}
    <div style=`display:flex;gap:26px;margin:12px 0 14px;`>
      <div><div style=`font:600 10px var(--mono);color:var(--txt-3);letter-spacing:.6px;`>SELF (avg)</div><div style=`font:700 18px var(--mono);color:var(--txt);`>{{msf .Downstream.SelfSeconds}}</div></div>
      <div><div style=`font:600 10px var(--mono);color:var(--txt-3);letter-spacing:.6px;`>DOWNSTREAM (avg)</div><div style=`font:700 18px var(--mono);color:var(--accent);`>{{msf .Downstream.DownSeconds}}</div></div>
      <div><div style=`font:600 10px var(--mono);color:var(--txt-3);letter-spacing:.6px;`>DOWNSTREAM SHARE</div><div style=`font:700 18px var(--mono);color:var(--txt);`>{{pctd .Downstream.DownFraction}}</div></div>
    </div>
    <div style=`display:flex;height:12px;border-radius:6px;overflow:hidden;background:var(--panel-3);`>
      <div style=`width:{{.Downstream.SelfWidth}};background:var(--txt-3);`></div>
      <div style=`width:{{.Downstream.DownWidth}};background:var(--accent);`></div>
    </div>
    <div style=`display:flex;justify-content:space-between;margin-top:8px;font:500 11px var(--mono);color:var(--txt-3);`><span><span style=`color:var(--txt-3);`>■</span> self · endpoint's own work</span><span>downstream · outbound waits <span class=`c-accent`>■</span></span></div>
    {{else}}
    <div style=`padding:14px 0 2px;color:var(--txt-3);font-size:13px;`>No downstream timing in this window. Set <span style=`font:600 12px var(--mono);color:var(--txt-2);`>maping.NewRoundTripper</span> as the Transport of your outbound http.Client to split self vs downstream time.</div>
    {{end}}
  </div>
  {{if .ErrorClasses}}
  <div class=`panel` style=`overflow:hidden;margin-top:18px;`>
    <div style=`padding:16px 20px 4px;`><span style=`font-size:13.5px;font-weight:700;`>Error classes</span><span style=`font:500 11px var(--mono);color:var(--txt-3);margin-left:10px;`>what is behind the errors?</span></div>
    <div class=`thead` style=`grid-template-columns:3fr 1fr;`>
      <span>CLASS</span><span style=`text-align:right;`>REQUESTS</span>
    </div>
    {{range .ErrorClasses}}
    <div class=`trow` style=`grid-template-columns:3fr 1fr;cursor:default;`>
      <div style=`font:600 12.5px var(--mono);color:var(--txt-2);white-space:nowrap;overflow:hidden;text-overflow:ellipsis;`>{{.Class}}</div>
      <div class=`tnum`>{{.Count}}</div>
    </div>
    {{end}}
  </div>
  {{end}}
  {{if .NoStatusReasons}}
  <div class=`panel` style=`overflow:hidden;margin-top:18px;`>
    <div style=`padding:16px 20px 4px;`><span style=`font-size:13.5px;font-weight:700;`>No-status reasons</span><span style=`font:500 11px var(--mono);color:var(--txt-3);margin-left:10px;`>timing out, canceling, or crashing?</span></div>
    <div class=`thead` style=`grid-template-columns:3fr 1fr;`>
      <span>REASON</span><span style=`text-align:right;`>REQUESTS</span>
    </div>
    {{range .NoStatusReasons}}
    <div class=`trow` style=`grid-template-columns:3fr 1fr;cursor:default;`>
      <div style=`font:600 12.5px var(--mono);color:var(--txt-2);`>{{.Reason}}</div>
      <div class=`tnum`>{{.Count}}</div>
    </div>
    {{end}}
  </div>
  {{end}}
  {{if .Resources}}
  <div class=`panel` style=`overflow:hidden;margin-top:18px;`>
    <div style=`padding:16px 20px 4px;`><span style=`font-size:13.5px;font-weight:700;`>Resources</span><span style=`font:500 11px var(--mono);color:var(--txt-3);margin-left:10px;`>saturation per instance — GC or goroutines behind a slowdown?</span></div>
    <div class=`thead` style=`grid-template-columns:2fr 1fr 1fr 1fr 1fr 1fr 1fr 1fr 1fr 1fr 1fr 1fr 1fr 1fr;`>
      <span>INSTANCE</span><span style=`text-align:right;`>CPU</span><span style=`text-align:right;`>GC</span><span style=`text-align:right;`>RSS</span><span style=`text-align:right;`>HEAP</span><span style=`text-align:right;`>GOROUTINES</span><span style=`text-align:right;`>GC/s</span><span style=`text-align:right;`>GC CPU</span><span style=`text-align:right;`>ALLOC/s</span><span style=`text-align:right;`>AVG ALLOC</span><span style=`text-align:right;`>POST-GC HEAP</span><span style=`text-align:right;`>TRUE RSS</span><span style=`text-align:right;`>FD</span><span style=`text-align:right;`>IN-FLIGHT</span>
    </div>
    {{range .Resources}}
    <div class=`trow` style=`grid-template-columns:2fr 1fr 1fr 1fr 1fr 1fr 1fr 1fr 1fr 1fr 1fr 1fr 1fr 1fr;cursor:default;`>
      <div style=`font:500 13px var(--mono);white-space:nowrap;overflow:hidden;text-overflow:ellipsis;`>{{.Instance}}</div>
      <div class=`tnum-s`>{{fmtCores .CoresUsed}}</div>
      <div class=`tnum-s`>{{pctd .GCShare}}</div>
      <div class=`tnum-s`>{{bytes .RSSBytes}}</div>
      <div class=`tnum-s`>{{bytes .HeapBytes}}</div>
      <div class=`tnum`>{{.Goroutines}}</div>
      <div class=`tnum-s`>{{rated .GCFreq}}/s</div>
      <div class=`tnum-s`>{{pctd .GCCPUFraction}}</div>
      <div class=`tnum-s`>{{bytes .AllocRate}}/s</div>
      <div class=`tnum-s`>{{bytes .AvgAllocSize}}</div>
      <div class=`tnum-s`>{{bytes .PostGCHeap}}</div>
      <div class=`tnum-s`>{{if .HasTrueRSS}}{{bytes .TrueRSSBytes}}{{else}}—{{end}}</div>
      <div class=`tnum-s`>{{if .HasFDLimit}}{{.OpenFDs}} / {{.FDLimit}}{{else}}—{{end}}</div>
      <div class=`tnum`>{{.InFlight}}</div>
    </div>
    {{end}}
  </div>
  {{end}}
  </details>
</div></div>
</main></div>
<script src=`/assets/copy.js` defer></script>
</body></html>{{end}}
".

Definition tplDetailHTML : string := str_concat [tpl_detail1; tpl_detail2].

(** [handshake-stepper], templates_onboarding.go *)
Definition tpl_handshake_stepper : string := raw
  "
{{define `handshake-stepper`}}<div style=`display:flex;align-items:center;justify-content:space-between;margin-bottom:6px;`><span style=`font:700 11px var(--mono);color:var(--txt-3);letter-spacing:1px;`>HANDSHAKE</span></div>
<div style=`font-size:12px;color:var(--txt-3);margin-bottom:18px;`>Live status from your first recorder.</div>
<div style=`display:flex;flex-direction:column;gap:2px;`>
  {{range .Steps}}
  <div style=`display:flex;align-items:flex-start;gap:13px;padding:11px 4px;`>
    <div style=`display:flex;flex-direction:column;align-items:center;`>
      <div style=`width:22px;height:22px;border-radius:50%;display:grid;place-items:center;font:700 11px var(--mono);
        {{if eq .DotClass `dot-done`}}background:var(--accent);border:1.5px solid var(--accent);color:#0A0C0F;
        {{else if eq .DotClass `dot-current`}}background:rgba(180,241,74,.12);border:1.5px solid var(--accent);color:var(--accent);
        {{else}}background:var(--panel-3);border:1.5px solid var(--line);color:var(--txt-3);{{end}}`>{{.Icon}}</div>
      {{if .Connector}}<div style=`width:1.5px;height:22px;background:var(--line);margin-top:2px;`></div>{{end}}
    </div>
    <div style=`padding-top:1px;`><div style=`font-size:13px;font-weight:600;` class=`{{.LabelClass}}`>{{.Label}}</div><div style=`font:500 11px var(--mono);color:var(--txt-3);margin-top:2px;`>{{.Sub}}</div></div>
  </div>
  {{end}}
</div>
{{if .Connected}}
<div style=`margin-top:16px;padding-top:14px;border-top:1px solid var(--line);`>
  <div style=`font:600 10px var(--mono);color:var(--txt-3);letter-spacing:.8px;margin-bottom:8px;`>CONNECTED</div>
  {{range .Connected}}<div style=`font:500 11px var(--mono);color:var(--txt-2);margin-bottom:4px;`>{{.Service}}{{if .Instance}} · {{.Instance}}{{end}}</div>{{end}}
</div>
{{end}}{{end}}

".

(** [onboarding], templates_onboarding.go *)
Definition tpl_onboarding : string := raw
  "{{define `onboarding`}}<!doctype html>
<html lang=`en`><head>{{template `head`}}{{if .Refresh}}<noscript><meta http-equiv=`refresh` content=`10`></noscript>{{end}}<title>mAPI-ng — get started</title></head>
<body><div class=`app`>{{template `sidebar` .Shell}}<main class=`main`>{{template `topbar` .Shell}}
<div class=`scrollbody`><div style=`max-width:1060px;margin:0 auto;` class=`fade`>
  {{if .Frozen}}<div class=`warnbar`><span style=`font-size:15px;`>⚠</span><span class=`c-txt2`><b class=`c-warn`>Cardinality frozen.</b> New series are rejected for this tenant.</span></div>{{end}}
  <div style=`display:inline-flex;align-items:center;gap:8px;font:600 11px var(--mono);color:var(--accent);background:rgba(180,241,74,.09);border:1px solid rgba(180,241,74,.22);padding:6px 12px;border-radius:20px;letter-spacing:.5px;`>◗ ZERO-CONFIG SETUP</div>
  <h2 style=`font-size:38px;font-weight:800;letter-spacing:-1px;margin:20px 0 10px;max-width:640px;line-height:1.05;`>One env var. Live in <span class=`c-accent`>seconds</span>.</h2>
  <p style=`font-size:15.5px;color:var(--txt-2);max-width:560px;margin:0 0 30px;line-height:1.6;`>No Prometheus. No Grafana. No YAML. Add the middleware, set <span style=`font:600 13px var(--mono);color:var(--txt);`>MAPING_KEY</span>, and RED metrics for every Go endpoint start flowing.</p>
  <div style=`display:grid;grid-template-columns:1.15fr .85fr;gap:22px;align-items:start;min-width:0;`>
    <div style=`display:flex;flex-direction:column;gap:16px;min-width:0;`>
      <div class=`panel` style=`overflow:hidden;`>
        <div style=`display:flex;align-items:center;gap:8px;padding:11px 15px;border-bottom:1px solid var(--line);background:var(--panel-2);`><span style=`font:700 11px var(--mono);color:var(--accent);`>1</span><span style=`font-size:12.5px;font-weight:600;`>Wire the middleware</span><span style=`margin-left:auto;font:500 10.5px var(--mono);color:var(--txt-3);`>main.go</span></div>
        <input class=`fw-radio` type=`radio` name=`fw` id=`fw-gin`{{if eq .Framework `gin`}} checked{{end}}>
        <input class=`fw-radio` type=`radio` name=`fw` id=`fw-nethttp`{{if eq .Framework `nethttp`}} checked{{end}}>
        <input class=`fw-radio` type=`radio` name=`fw` id=`fw-echo`{{if eq .Framework `echo`}} checked{{end}}>
        <input class=`fw-radio` type=`radio` name=`fw` id=`fw-chi`{{if eq .Framework `chi`}} checked{{end}}>
        <input class=`fw-radio` type=`radio` name=`fw` id=`fw-beego`{{if eq .Framework `beego`}} checked{{end}}>
        <div class=`fw-tabs`>
          <label class=`fw-tab` for=`fw-gin`>gin</label>
          <label class=`fw-tab` for=`fw-nethttp`>net/http</label>
          <label class=`fw-tab` for=`fw-echo`>echo</label>
          <label class=`fw-tab` for=`fw-chi`>chi</label>
          <label class=`fw-tab` for=`fw-beego`>beego</label>
        </div>
        <div class=`fw-panes`>
          <pre class=`fw-pane` data-fw=`gin`>import (
    maping `github.com/arhuman/maping/client`
    mapinggin `github.com/arhuman/maping/client/gin`
)

rec := maping.NewRecorder(
    maping.WithService(`checkout-api`),
)
r.Use(mapinggin.MiddlewareWithRecorder(rec)) // above Recovery
r.Use(gin.Recovery())</pre>
          <pre class=`fw-pane` data-fw=`nethttp`>import (
    maping `github.com/arhuman/maping/client`
    mapinghttp `github.com/arhuman/maping/client/nethttp`
)

rec := maping.NewRecorder(
    maping.WithService(`checkout-api`),
)
mux := http.NewServeMux()
mux.HandleFunc(`GET /orders/{id}`, ordersHandler)
// wrap the mux; the ServeMux pattern is the route template
handler := mapinghttp.MiddlewareWithRecorder(rec)(mux)</pre>
          <pre class=`fw-pane` data-fw=`echo`>import (
    maping `github.com/arhuman/maping/client`
    mapingecho `github.com/arhuman/maping/client/echo`
)

rec := maping.NewRecorder(
    maping.WithService(`checkout-api`),
)
e.Use(mapingecho.MiddlewareWithRecorder(rec)) // before Recover
e.Use(middleware.Recover())</pre>
          <pre class=`fw-pane` data-fw=`chi`>import (
    maping `github.com/arhuman/maping/client`
    mapingchi `github.com/arhuman/maping/client/chi`
)

rec := maping.NewRecorder(
    maping.WithService(`checkout-api`),
)
r.Use(mapingchi.MiddlewareWithRecorder(rec)) // above Recoverer
r.Use(middleware.Recoverer)</pre>
          <pre class=`fw-pane` data-fw=`beego`>import (
    maping `github.com/arhuman/maping/client`
    mapingbeego `github.com/arhuman/maping/client/beego`
)

rec := maping.NewRecorder(
    maping.WithService(`checkout-api`),
)
// filter runs after routing; panic recovery is inner, so no ordering needed
web.InsertFilterChain(`/*`, mapingbeego.FilterWithRecorder(rec))</pre>
        </div>
      </div>
      <div class=`panel` style=`overflow:hidden;`>
        <div style=`display:flex;align-items:center;gap:8px;padding:11px 15px;border-bottom:1px solid var(--line);background:var(--panel-2);`><span style=`font:700 11px var(--mono);color:var(--accent);`>2</span><span style=`font-size:12.5px;font-weight:600;`>Activate</span></div>
        <pre style=`color:var(--accent);`>export MAPING_KEY=mk_live_9f2c····a91f</pre>
      </div>
      <div style=`display:flex;align-items:center;gap:10px;font-size:12.5px;color:var(--txt-3);padding:2px 4px;`><span class=`c-txt2`>◇</span> Absent key ⇒ the middleware is a no-op. Shipping mAPI-ng is always safe.</div>
    </div>
    <div class=`panel` style=`padding:20px;`>
      <div id=`handshake` data-complete=`{{if .Handshake.Complete}}true{{else}}false{{end}}`>{{template `handshake-stepper` .Handshake}}</div>
    </div>
  </div>
</div></div>
</main></div>
<script src=`/assets/handshake.js` defer></script>
</body></html>{{end}}

".

(** [setup], templates_onboarding.go *)
Definition tpl_setup : string := raw
  "{{define `setup`}}<!doctype html>
<html lang=`en`><head>{{template `head`}}{{if .Refresh}}<noscript><meta http-equiv=`refresh` content=`10`></noscript>{{end}}<title>mAPI-ng — setup</title></head>
<body><div class=`app`>{{template `sidebar` .Shell}}<main class=`main`>{{template `topbar` .Shell}}
<div class=`scrollbody`><div style=`max-width:1060px;margin:0 auto;` class=`fade`>
  {{if .Frozen}}<div class=`warnbar`><span style=`font-size:15px;`>⚠</span><span class=`c-txt2`><b class=`c-warn`>Cardinality frozen.</b> New series are rejected for this tenant.</span></div>{{end}}
  {{if .NewToken}}
  <div class=`panel` style=`padding:20px 22px;margin-bottom:22px;border-color:rgba(180,241,74,.3);`>
    <div style=`display:flex;align-items:center;gap:8px;margin-bottom:12px;`><span style=`font:600 12px var(--mono);color:var(--warn);`>⚠ COPY IT NOW — YOU WON'T SEE IT AGAIN</span><button type=`button` data-copy=`mp-newkey` style=`margin-left:auto;padding:5px 10px;border:1px solid var(--line);border-radius:7px;background:var(--panel-3);color:var(--txt-2);font:600 11px var(--mono);cursor:pointer;`>⧉ copy</button></div>
    <code id=`mp-newkey` style=`user-select:all;display:block;padding:14px 15px;background:var(--bg);border:1px solid rgba(180,241,74,.3);border-radius:10px;color:var(--accent);font:600 12.5px/1.5 var(--mono);word-break:break-all;`>export MAPING_KEY={{.NewToken}}</code>
  </div>
  {{end}}
  <div style=`display:grid;grid-template-columns:1.1fr .9fr;gap:22px;align-items:start;min-width:0;`>
    <div style=`display:flex;flex-direction:column;gap:16px;min-width:0;`>
      {{if .ShowKeys}}
      <div class=`panel` style=`overflow:hidden;`>
        <div class=`thead` style=`grid-template-columns:1.4fr 1.1fr .9fr .7fr;`><span>LABEL</span><span>KEY</span><span>CREATED</span><span style=`text-align:right;`>ACTION</span></div>
        {{range .Keys}}
        <div class=`trow` style=`grid-template-columns:1.4fr 1.1fr .9fr .7fr;cursor:default;`>
          <div style=`font-size:13px;font-weight:600;white-space:nowrap;overflow:hidden;text-overflow:ellipsis;`>{{.Label}}</div>
          <div class=`mono` style=`color:var(--txt-2);font-size:12.5px;`>mk_live_{{.Masked}}</div>
          <div class=`mono` style=`color:var(--txt-3);font-size:12px;`>{{.Created}}</div>
          <div style=`text-align:right;`>
            {{if .Revoked}}<span class=`mono` style=`color:var(--txt-3);font-size:11px;`>revoked</span>
            {{else}}<form method=`post` action=`/setup/keys/{{.ID}}/revoke` style=`display:inline;`><input type=`hidden` name=`csrf_token` value=`{{$.CSRFToken}}`><button type=`submit` style=`padding:4px 10px;border:1px solid rgba(255,107,107,.3);border-radius:7px;background:rgba(255,107,107,.08);color:var(--err);font:600 11px var(--mono);cursor:pointer;`>revoke</button></form>{{end}}
          </div>
        </div>
        {{else}}
        <div style=`padding:22px 20px;color:var(--txt-3);font-size:13px;`>No keys yet. Create one to start ingesting.</div>
        {{end}}
      </div>
      <form method=`post` action=`/setup/keys` class=`panel` style=`padding:15px 17px;display:flex;gap:10px;align-items:center;`>
        <input type=`hidden` name=`csrf_token` value=`{{.CSRFToken}}`>
        <input name=`label` placeholder=`label (e.g. checkout-api)` maxlength=`64` autocomplete=`off` style=`flex:1;padding:9px 12px;background:var(--bg);border:1px solid var(--line);border-radius:9px;color:var(--txt);font:500 12.5px var(--mono);outline:none;`>
        <button type=`submit` style=`padding:9px 16px;border:none;border-radius:9px;background:var(--accent);color:#0A0C0F;font:700 12.5px var(--ui);cursor:pointer;`>Create key</button>
      </form>
      <div style=`font:500 11px var(--mono);color:var(--txt-3);padding:2px 4px;line-height:1.5;`>The full token carries this deployment's collector endpoint, so <span class=`c-txt2`>MAPING_KEY</span> is the only env var your service needs. The secret is shown once at creation.</div>
      {{else}}
      <div class=`panel` style=`padding:20px 22px;color:var(--txt-3);font-size:13px;line-height:1.6;`>Self-serve key management is available once the control plane is configured. This deployment authenticates ingest with a static <span class=`mono c-txt2`>dev-key</span>.</div>
      {{end}}
    </div>
    <div class=`panel` style=`padding:20px;`>
      <div id=`handshake` data-complete=`{{if .Handshake.Complete}}true{{else}}false{{end}}`>{{template `handshake-stepper` .Handshake}}</div>
    </div>
  </div>
  {{if .ShowTeam}}
  <div class=`panel` style=`margin-top:22px;padding:20px 22px;`>
    <div style=`display:flex;align-items:center;justify-content:space-between;margin-bottom:14px;`>
      <span style=`font:700 11px var(--mono);color:var(--txt-3);letter-spacing:1px;`>TEAM</span>
      <span style=`font:600 11px var(--mono);color:var(--txt-2);`>{{.SeatUsed}} of {{.SeatLimit}} seats</span>
    </div>
    {{if .InviteURL}}
    <div class=`panel` style=`padding:14px 15px;margin-bottom:16px;border-color:rgba(180,241,74,.3);`>
      <div style=`font:600 11px var(--mono);color:var(--warn);margin-bottom:8px;`>⚠ SEND THIS LINK — IT WON'T BE SHOWN AGAIN <button type=`button` data-copy=`mp-invite` style=`margin-left:6px;padding:4px 9px;border:1px solid var(--line);border-radius:7px;background:var(--panel-3);color:var(--txt-2);font:600 10.5px var(--mono);cursor:pointer;`>⧉ copy</button></div>
      <code id=`mp-invite` style=`user-select:all;display:block;padding:12px 13px;background:var(--bg);border:1px solid rgba(180,241,74,.3);border-radius:9px;color:var(--accent);font:600 12px/1.5 var(--mono);word-break:break-all;`>{{.InviteURL}}</code>
    </div>
    {{end}}
    {{if .TeamError}}<div class=`warnbar` style=`margin-bottom:14px;`><span style=`font-size:14px;`>⚠</span><span class=`c-txt2`>{{.TeamError}}</span></div>{{end}}
    <div class=`thead` style=`grid-template-columns:1.7fr .7fr .6fr;`><span>MEMBER</span><span>ROLE</span><span style=`text-align:right;`>ACTION</span></div>
    {{range .Members}}
    <div class=`trow` style=`grid-template-columns:1.7fr .7fr .6fr;cursor:default;`>
      <div style=`font-size:13px;font-weight:600;white-space:nowrap;overflow:hidden;text-overflow:ellipsis;`>{{.Email}}{{if .IsOwner}} <span class=`mono` style=`color:var(--txt-3);font-size:10.5px;`>· owner</span>{{end}}</div>
      <div class=`mono` style=`color:var(--txt-2);font-size:12px;`>{{.Role}}</div>
      <div style=`text-align:right;`>
        {{if and $.IsAdmin (not .IsOwner)}}<form method=`post` action=`/setup/members/{{.ID}}/remove` style=`display:inline;`><input type=`hidden` name=`csrf_token` value=`{{$.CSRFToken}}`><button type=`submit` style=`padding:4px 10px;border:1px solid rgba(255,107,107,.3);border-radius:7px;background:rgba(255,107,107,.08);color:var(--err);font:600 11px var(--mono);cursor:pointer;`>remove</button></form>{{end}}
      </div>
    </div>
    {{end}}
    {{range .Invites}}
    <div class=`trow` style=`grid-template-columns:1.7fr .7fr .6fr;cursor:default;`>
      <div style=`font-size:13px;color:var(--txt-2);white-space:nowrap;overflow:hidden;text-overflow:ellipsis;`>{{.Email}} <span class=`mono` style=`color:var(--txt-3);font-size:10.5px;`>· invited, expires {{.Expires}}</span></div>
      <div class=`mono` style=`color:var(--txt-3);font-size:12px;`>{{.Role}}</div>
      <div style=`text-align:right;`>
        {{if $.IsAdmin}}<form method=`post` action=`/setup/invites/{{.ID}}/revoke` style=`display:inline;`><input type=`hidden` name=`csrf_token` value=`{{$.CSRFToken}}`><button type=`submit` style=`padding:4px 10px;border:1px solid var(--line);border-radius:7px;background:var(--panel-3);color:var(--txt-2);font:600 11px var(--mono);cursor:pointer;`>cancel</button></form>{{end}}
      </div>
    </div>
    {{end}}
    {{if .IsAdmin}}
    <form method=`post` action=`/setup/invites` style=`margin-top:14px;display:flex;gap:10px;align-items:center;`>
      <input type=`hidden` name=`csrf_token` value=`{{.CSRFToken}}`>
      <input name=`email` type=`email` required placeholder=`teammate@company.com` maxlength=`254` autocomplete=`off` style=`flex:1;padding:9px 12px;background:var(--bg);border:1px solid var(--line);border-radius:9px;color:var(--txt);font:500 12.5px var(--mono);outline:none;`>
      <select name=`role` style=`padding:9px 12px;background:var(--bg);border:1px solid var(--line);border-radius:9px;color:var(--txt);font:500 12.5px var(--mono);outline:none;`><option value=`member`>member</option><option value=`admin`>admin</option></select>
      <button type=`submit` style=`padding:9px 16px;border:none;border-radius:9px;background:var(--accent);color:#0A0C0F;font:700 12.5px var(--ui);cursor:pointer;`>Invite</button>
    </form>
    {{else}}
    <div style=`margin-top:12px;font:500 11px var(--mono);color:var(--txt-3);`>Only admins can invite or remove members.</div>
    {{end}}
  </div>
  {{end}}
</div></div>
</main></div>
<script src=`/assets/copy.js` defer></script>
<script src=`/assets/handshake.js` defer></script>
</body></html>{{end}}
".

Definition tplOnboardingHTML : string := str_concat [tpl_handshake_stepper; tpl_onboarding; tpl_setup].

(** [performance], templates_performance.go *)
Definition tpl_performance : string := raw
  "
{{define `performance`}}<!doctype html>
<html lang=`en`><head>{{template `head`}}<title>mAPI-ng — performance</title></head>
<body><div class=`app`>{{template `sidebar` .Shell}}<main class=`main`>{{template `topbar` .Shell}}
<div class=`scrollbody`><div style=`max-width:1080px;` class=`fade`>
  <p style=`font-size:14px;color:var(--txt-2);max-width:620px;margin:0 0 26px;line-height:1.6;`>mAPI-ng aggregates in-process into DDSketch summaries before shipping — so one small record can represent thousands of requests. More data per second ingested, far less disk used, faster queries than raw-event pipelines.</p>
  <div class=`kpistrip` style=`grid-template-columns:repeat(4,1fr);`>
    <div class=`kpi`><div class=`kpi-l`>REQUESTS · {{.WindowShort}}</div><div class=`kpi-v`><span class=`kpi-num c-txt` style=`font-size:30px;`>{{if .HasData}}{{.Requests}}{{else}}—{{end}}</span></div><div class=`kpi-sub`>represented by your stored summaries</div></div>
    <div class=`kpi`><div class=`kpi-l`>SUMMARIES · {{.WindowShort}}</div><div class=`kpi-v`><span class=`kpi-num c-txt` style=`font-size:30px;`>{{if .HasData}}{{.Summaries}}{{else}}—{{end}}</span></div><div class=`kpi-sub`>records actually shipped &amp; stored</div></div>
    <div class=`kpi`><div class=`kpi-l`>COMPRESSION</div><div class=`kpi-v`><span class=`kpi-num c-accent` style=`font-size:30px;`>{{if .HasData}}{{.Compression}}{{else}}—{{end}}</span></div><div class=`kpi-sub`>requests per shipped summary</div></div>
    <div class=`kpi`><div class=`kpi-l`>QUERY LATENCY</div><div class=`kpi-v`><span class=`kpi-num c-txt` style=`font-size:30px;`>{{.QueryMs}}</span><span class=`kpi-u`>ms</span></div><div class=`kpi-sub`>this page's aggregate query</div></div>
  </div>
  <div style=`display:grid;grid-template-columns:1fr 1fr;gap:18px;`>
    <div class=`panel` style=`padding:20px 22px;`>
      <div style=`font-size:14px;font-weight:700;margin-bottom:4px;`>Disk · last {{.WindowLabel}}</div>
      <div style=`font:500 11px var(--mono);color:var(--txt-3);margin-bottom:20px;`>your real traffic{{if .HasData}} · raw side assumes ~{{.RawEventBytes}} B/event{{end}}</div>
      {{if .HasData}}
      <div style=`display:flex;flex-direction:column;gap:18px;`>
        <div><div style=`display:flex;justify-content:space-between;margin-bottom:7px;font:600 12px var(--mono);`><span class=`c-txt2`>Raw-event pipeline <span style=`color:var(--txt-3);`>· projected</span></span><span class=`c-err`>{{.RawDisk}}</span></div><div style=`height:12px;background:var(--panel-3);border-radius:6px;overflow:hidden;`><div style=`height:100%;width:100%;background:linear-gradient(90deg,#FF6B6B,#c94a4a);border-radius:6px;`></div></div></div>
        <div><div style=`display:flex;justify-content:space-between;margin-bottom:7px;font:600 12px var(--mono);`><span class=`c-txt2`>mAPI-ng summaries <span style=`color:var(--txt-3);`>· measured</span></span><span class=`c-accent`>{{.SummaryDisk}}</span></div><div style=`height:12px;background:var(--panel-3);border-radius:6px;overflow:hidden;`><div style=`height:100%;width:{{.SummaryBarPct}};min-width:5px;background:var(--accent);border-radius:6px;`></div></div></div>
      </div>
      <div style=`margin-top:20px;padding-top:16px;border-top:1px solid var(--line);display:flex;align-items:baseline;gap:8px;`><span style=`font:700 28px var(--mono);color:var(--accent);letter-spacing:-1px;`>{{.Ratio}}</span><span style=`font-size:12.5px;color:var(--txt-2);`>less disk — {{.Requests}} requests carried by {{.Summaries}} summaries.</span></div>
      {{else}}
      <div style=`padding:22px 0;color:var(--txt-3);font-size:13px;line-height:1.55;`>No summaries stored in the last {{.WindowLabel}} yet. Once your service ships data, real ingest volume and disk savings appear here.</div>
      {{end}}
    </div>
    <div class=`panel` style=`padding:20px 22px;`>
      <div style=`font-size:14px;font-weight:700;margin-bottom:4px;`>Rollup tiers</div>
      <div style=`font:500 11px var(--mono);color:var(--txt-3);margin-bottom:20px;`>counters sum · sketches merge bucket-wise (exact)</div>
      {{range .Tiers}}
      <div style=`display:flex;align-items:center;gap:14px;margin-bottom:14px;`><div style=`width:56px;font:700 14px var(--mono);color:var(--accent);`>{{.Res}}</div><div style=`flex:1;height:8px;background:var(--panel-3);border-radius:5px;overflow:hidden;`><div style=`height:100%;width:{{.BarPct}};min-width:6px;background:var(--accent);border-radius:5px;`></div></div><div style=`width:96px;text-align:right;font:500 11px var(--mono);color:var(--txt-3);`>{{.Retention}}</div></div>
      {{end}}
      <div style=`margin-top:16px;font-size:12px;color:var(--txt-3);line-height:1.5;`>Fine tiers expire after rollup. Mergeability is what makes coarser tiers exact, not approximate.</div>
    </div>
  </div>
  <div class=`panel` style=`padding:22px;margin-top:18px;`>
    <div style=`font-size:14px;font-weight:700;margin-bottom:20px;`>Ingestion path</div>
    <div style=`display:flex;align-items:stretch;gap:0;`>
      <div style=`flex:1;display:flex;align-items:center;`><div style=`flex:1;background:var(--panel-2);border:1px solid var(--line);border-radius:12px;padding:15px 14px;text-align:center;`><div style=`font-size:19px;margin-bottom:8px;`>⌨</div><div style=`font-size:12.5px;font-weight:700;margin-bottom:4px;`>Middleware</div><div style=`font:500 10px var(--mono);color:var(--txt-3);line-height:1.4;`>~20 lines, above Recovery</div></div><span class=`c-accent` style=`font-size:16px;padding:0 6px;`>→</span></div>
      <div style=`flex:1;display:flex;align-items:center;`><div style=`flex:1;background:var(--panel-2);border:1px solid var(--line);border-radius:12px;padding:15px 14px;text-align:center;`><div style=`font-size:19px;margin-bottom:8px;`>◱</div><div style=`font-size:12.5px;font-weight:700;margin-bottom:4px;`>DDSketch</div><div style=`font:500 10px var(--mono);color:var(--txt-3);line-height:1.4;`>in-process aggregate</div></div><span class=`c-accent` style=`font-size:16px;padding:0 6px;`>→</span></div>
      <div style=`flex:1;display:flex;align-items:center;`><div style=`flex:1;background:var(--panel-2);border:1px solid var(--line);border-radius:12px;padding:15px 14px;text-align:center;`><div style=`font-size:19px;margin-bottom:8px;`>↑</div><div style=`font-size:12.5px;font-weight:700;margin-bottom:4px;`>Summary</div><div style=`font:500 10px var(--mono);color:var(--txt-3);line-height:1.4;`>gRPC, one per flush</div></div><span class=`c-accent` style=`font-size:16px;padding:0 6px;`>→</span></div>
      <div style=`flex:1;display:flex;align-items:center;`><div style=`flex:1;background:var(--panel-2);border:1px solid var(--line);border-radius:12px;padding:15px 14px;text-align:center;`><div style=`font-size:19px;margin-bottom:8px;`>▤</div><div style=`font-size:12.5px;font-weight:700;margin-bottom:4px;`>ClickHouse</div><div style=`font:500 10px var(--mono);color:var(--txt-3);line-height:1.4;`>row-level multitenant</div></div><span class=`c-accent` style=`font-size:16px;padding:0 6px;`>→</span></div>
      <div style=`flex:1;display:flex;align-items:center;`><div style=`flex:1;background:var(--panel-2);border:1px solid var(--line);border-radius:12px;padding:15px 14px;text-align:center;`><div style=`font-size:19px;margin-bottom:8px;`>▦</div><div style=`font-size:12.5px;font-weight:700;margin-bottom:4px;`>Dashboard</div><div style=`font:500 10px var(--mono);color:var(--txt-3);line-height:1.4;`>RED, no config</div></div></div>
    </div>
  </div>
</div></div>
</main></div></body></html>{{end}}
".

Definition tplPerformanceHTML : string := str_concat [tpl_performance].

(** The sign-in page (auth/handlers.go) *)
Definition loginPage_text : string := raw
  "<!doctype html>
<html lang=`en`><head>
<meta charset=`utf-8`><meta name=`viewport` content=`width=device-width, initial-scale=1`>
<title>mAPI-ng — sign in</title>
<link rel=`preconnect` href=`https://fonts.googleapis.com`>
<link rel=`preconnect` href=`https://fonts.gstatic.com` crossorigin>
<link href=`https://fonts.googleapis.com/css2?family=Hanken+Grotesk:wght@400;500;600;700;800&family=JetBrains+Mono:wght@400;500;600;700&display=swap` rel=`stylesheet`>
<style>
  *{box-sizing:border-box;}
  html,body{margin:0;padding:0;height:100%;}
  body{background:#0A0C0F;color:#E8EDF3;font-family:'Hanken Grotesk',system-ui,sans-serif;-webkit-font-smoothing:antialiased;}
  a{color:inherit;text-decoration:none;}
  a:hover{color:#B4F14A;}
  @media (max-width:820px){.mp-grid{grid-template-columns:1fr !important;}.mp-value{display:none !important;}}
</style></head>
<body>
<div class=`mp-grid` style=`min-height:100vh;display:grid;grid-template-columns:1.05fr .95fr;`>

  <div style=`display:flex;flex-direction:column;padding:34px 44px;background:radial-gradient(700px 420px at 20% -10%,rgba(180,241,74,.06),transparent 60%);`>
    <a href=`/` style=`display:flex;align-items:center;gap:11px;align-self:flex-start;`>
      <div style=`width:34px;height:34px;display:grid;place-items:center;background:#141A22;border:1px solid rgba(255,255,255,.08);border-radius:9px;`>
        <svg width=`19` height=`19` viewBox=`0 0 24 24` fill=`none`><path d=`M2 15 L6 15 L8 6 L11 20 L14 3 L16 15 L22 15` stroke=`#B4F14A` stroke-width=`2` stroke-linecap=`round` stroke-linejoin=`round` fill=`none`></path></svg>
      </div>
      <div style=`line-height:1;`>
        <div style=`font-weight:800;font-size:17px;letter-spacing:-.3px;`>m<span style=`color:#B4F14A;`>API</span>ng</div>
        <div style=`font:500 9px/1 'JetBrains Mono',monospace;color:#69727F;letter-spacing:1.5px;margin-top:3px;`>MONITORED&nbsp;API · NG</div>
      </div>
    </a>

    <div style=`flex:1;display:flex;flex-direction:column;justify-content:center;max-width:392px;width:100%;margin:0 auto;padding:40px 0;`>
      <h1 style=`margin:20px 0 8px;font-size:32px;font-weight:800;letter-spacing:-.9px;`>Sign in to mAPI-ng</h1>
      <p style=`margin:0 0 26px;font-size:15px;line-height:1.55;color:#9AA4B2;`>One account for your org's dashboard and ingest keys. New here? The same button gets you started.</p>

      <div style=`display:flex;flex-direction:column;gap:11px;`>
        {{if .GitHub}}<a href=`/auth/github/start{{if ne .Next `/`}}?next={{.Next}}{{end}}` style=`display:flex;align-items:center;justify-content:center;gap:11px;padding:13px 16px;background:#181F28;border:1px solid rgba(255,255,255,.1);border-radius:11px;font:700 14.5px 'Hanken Grotesk',sans-serif;color:#E8EDF3;`>
          <svg width=`19` height=`19` viewBox=`0 0 24 24` fill=`#E8EDF3`><path d=`M12 .5C5.37.5 0 5.87 0 12.5c0 5.3 3.44 9.8 8.21 11.39.6.11.82-.26.82-.58l-.01-2.05c-3.34.73-4.04-1.61-4.04-1.61-.55-1.39-1.34-1.76-1.34-1.76-1.09-.75.08-.73.08-.73 1.2.09 1.84 1.24 1.84 1.24 1.07 1.84 2.81 1.31 3.5 1 .11-.78.42-1.31.76-1.61-2.67-.3-5.47-1.33-5.47-5.93 0-1.31.47-2.38 1.24-3.22-.12-.31-.54-1.52.12-3.18 0 0 1.01-.32 3.3 1.23a11.5 11.5 0 0 1 6 0c2.29-1.55 3.3-1.23 3.3-1.23.66 1.66.24 2.87.12 3.18.77.84 1.23 1.91 1.23 3.22 0 4.61-2.81 5.62-5.49 5.92.43.37.81 1.1.81 2.22l-.01 3.29c0 .32.22.7.83.58C20.56 22.29 24 17.8 24 12.5 24 5.87 18.63.5 12 .5Z`></path></svg>
          Continue with GitHub
        </a>{{end}}
        {{if .Google}}<a href=`/auth/google/start{{if ne .Next `/`}}?next={{.Next}}{{end}}` style=`display:flex;align-items:center;justify-content:center;gap:11px;padding:13px 16px;background:#181F28;border:1px solid rgba(255,255,255,.1);border-radius:11px;font:700 14.5px 'Hanken Grotesk',sans-serif;color:#E8EDF3;`>
          <svg width=`18` height=`18` viewBox=`0 0 24 24`><path fill=`#4285F4` d=`M23.52 12.27c0-.82-.07-1.6-.2-2.36H12v4.47h6.47a5.53 5.53 0 0 1-2.4 3.63v3h3.88c2.27-2.09 3.57-5.17 3.57-8.74Z`></path><path fill=`#34A853` d=`M12 24c3.24 0 5.96-1.08 7.95-2.91l-3.88-3c-1.08.72-2.45 1.15-4.07 1.15-3.13 0-5.78-2.11-6.73-4.96H1.28v3.09A12 12 0 0 0 12 24Z`></path><path fill=`#FBBC05` d=`M5.27 14.28a7.2 7.2 0 0 1 0-4.56V6.63H1.28a12 12 0 0 0 0 10.74l3.99-3.09Z`></path><path fill=`#EA4335` d=`M12 4.75c1.77 0 3.35.61 4.6 1.8l3.44-3.44A11.98 11.98 0 0 0 12 0 12 12 0 0 0 1.28 6.63l3.99 3.09C6.22 6.86 8.87 4.75 12 4.75Z`></path></svg>
          Continue with Google
        </a>{{end}}
      </div>

      {{if and (or .GitHub .Google) .DevLogin}}
      <div style=`display:flex;align-items:center;gap:14px;margin:22px 0;`>
        <div style=`flex:1;height:1px;background:rgba(255,255,255,.08);`></div>
        <span style=`font:600 10px 'JetBrains Mono',monospace;color:#69727F;letter-spacing:.8px;`>OR</span>
        <div style=`flex:1;height:1px;background:rgba(255,255,255,.08);`></div>
      </div>
      {{end}}

      {{if .DevLogin}}
      <form method=`post` action=`/auth/dev/login` style=`margin-top:{{if or .GitHub .Google}}0{{else}}22px{{end}};`>
        <input type=`hidden` name=`next` value=`{{.Next}}`>
        <button type=`submit` style=`width:100%;display:flex;align-items:center;justify-content:center;gap:9px;padding:13px 16px;background:transparent;border:1px dashed rgba(255,255,255,.14);border-radius:11px;font:600 13.5px 'JetBrains Mono',monospace;color:#9AA4B2;cursor:pointer;`>
          <span style=`color:#B4F14A;`>›_</span> Dev login (admin)
        </button>
      </form>
      <p style=`margin:11px 2px 0;font:500 11px/1.5 'JetBrains Mono',monospace;color:#69727F;`>Shown only when no OIDC provider is configured — <code>MAPING_POSTGRES_DSN</code> set, no GitHub/Google credentials.</p>
      {{end}}

      <p style=`margin:28px 0 0;font-size:13px;line-height:1.6;color:#69727F;`>By continuing you agree to the Terms and Privacy Policy. First sign-in issues your org's first ingest key and reveals it once.</p>
    </div>

    <div style=`display:flex;align-items:center;gap:16px;font:500 12px 'JetBrains Mono',monospace;color:#69727F;`>
      <a href=`/`>← Back to home</a>
    </div>
  </div>

  <div class=`mp-value` style=`position:relative;background:linear-gradient(180deg,#0C0F14,#0A0C0F);border-left:1px solid rgba(255,255,255,.08);display:flex;flex-direction:column;justify-content:center;padding:48px;overflow:hidden;`>
    <div style=`position:absolute;inset:0;background:radial-gradient(700px 420px at 80% 0%,rgba(180,241,74,.07),transparent 60%);`></div>
    <div style=`position:relative;max-width:420px;`>
      <div style=`font:600 11px 'JetBrains Mono',monospace;color:#B4F14A;letter-spacing:1.4px;`>WHAT HAPPENS NEXT</div>
      <h2 style=`margin:14px 0 26px;font-size:28px;font-weight:800;letter-spacing:-.7px;line-height:1.15;`>Sign in and your first key is waiting.</h2>
      <div style=`display:flex;flex-direction:column;gap:2px;`>
        <div style=`display:flex;gap:14px;`>
          <div style=`display:flex;flex-direction:column;align-items:center;`>
            <div style=`width:30px;height:30px;border-radius:8px;background:rgba(180,241,74,.1);border:1px solid rgba(180,241,74,.24);display:grid;place-items:center;font:800 12px 'JetBrains Mono',monospace;color:#B4F14A;flex:none;`>1</div>
            <div style=`width:1px;flex:1;background:rgba(255,255,255,.09);margin:4px 0;`></div>
          </div>
          <div style=`padding-bottom:22px;`>
            <div style=`font-size:15px;font-weight:700;letter-spacing:-.2px;`>Authenticate</div>
            <div style=`margin-top:4px;font-size:13.5px;line-height:1.5;color:#9AA4B2;`>GitHub or Google via OIDC. We create your org on first sign-in.</div>
          </div>
        </div>
        <div style=`display:flex;gap:14px;`>
          <div style=`display:flex;flex-direction:column;align-items:center;`>
            <div style=`width:30px;height:30px;border-radius:8px;background:rgba(180,241,74,.1);border:1px solid rgba(180,241,74,.24);display:grid;place-items:center;font:800 12px 'JetBrains Mono',monospace;color:#B4F14A;flex:none;`>2</div>
            <div style=`width:1px;flex:1;background:rgba(255,255,255,.09);margin:4px 0;`></div>
          </div>
          <div style=`padding-bottom:22px;`>
            <div style=`font-size:15px;font-weight:700;letter-spacing:-.2px;`>Get your ingest key</div>
            <div style=`margin-top:4px;font-size:13.5px;line-height:1.5;color:#9AA4B2;`>The org's first key is auto-issued and shown once — it carries the secret and the collector endpoint.</div>
          </div>
        </div>
        <div style=`display:flex;gap:14px;`>
          <div style=`display:flex;flex-direction:column;align-items:center;`>
            <div style=`width:30px;height:30px;border-radius:8px;background:rgba(180,241,74,.1);border:1px solid rgba(180,241,74,.24);display:grid;place-items:center;font:800 12px 'JetBrains Mono',monospace;color:#B4F14A;flex:none;`>3</div>
          </div>
          <div style=`padding-bottom:22px;`>
            <div style=`font-size:15px;font-weight:700;letter-spacing:-.2px;`>Set MAPING_KEY &amp; ship</div>
            <div style=`margin-top:4px;font-size:13.5px;line-height:1.5;color:#9AA4B2;`>RED metrics land on your dashboard after the first ~10s flush.</div>
          </div>
        </div>
      </div>

      <div style=`margin-top:8px;background:#10141A;border:1px solid rgba(180,241,74,.3);border-radius:12px;padding:15px 17px;`>
        <div style=`font:600 10px 'JetBrains Mono',monospace;color:#69727F;letter-spacing:.6px;margin-bottom:8px;`>YOUR INGEST KEY, REVEALED ONCE</div>
        <code style=`display:block;font:600 12.5px 'JetBrains Mono',monospace;color:#B4F14A;word-break:break-all;`>export MAPING_KEY=<span style=`color:#E8EDF3;`>mk_live_7f3a…c091</span></code>
      </div>
    </div>
  </div>
</div>
</body>
</html>".

(** The page that reveals a first key (auth/handlers.go) *)
Definition interstitialPage_text : string := raw
  "<!doctype html>
<html lang=`en`><head><meta charset=`utf-8`><meta name=`viewport` content=`width=device-width, initial-scale=1`>
<title>mAPI-ng — your ingest key</title>
<link rel=`preconnect` href=`https://fonts.googleapis.com`>
<link href=`https://fonts.googleapis.com/css2?family=Hanken+Grotesk:wght@400;600;700;800&family=JetBrains+Mono:wght@500;600&display=swap` rel=`stylesheet`>
<style>
body{margin:0;min-height:100vh;display:grid;place-items:center;background:#0A0C0F;color:#E8EDF3;font-family:'Hanken Grotesk',system-ui,sans-serif;}
.card{max-width:620px;margin:24px;padding:32px;background:#10141A;border:1px solid rgba(255,255,255,.08);border-radius:16px;}
h1{font-size:24px;font-weight:800;letter-spacing:-.4px;margin:0 0 6px;}
.sub{color:#9AA4B2;font-size:14px;line-height:1.5;margin:0 0 22px;}
.warn{color:#F5C451;font:600 12px 'JetBrains Mono',monospace;margin:0 0 10px;}
.key{user-select:all;display:block;padding:16px;background:#0A0C0F;border:1px solid rgba(180,241,74,.3);border-radius:10px;color:#B4F14A;font:600 13px/1.5 'JetBrains Mono',monospace;word-break:break-all;}
.hint{color:#69727F;font:500 11.5px 'JetBrains Mono',monospace;margin:8px 2px 24px;}
.copy{margin-left:8px;padding:5px 10px;border:1px solid rgba(255,255,255,.08);border-radius:7px;background:#181F28;color:#9AA4B2;font:600 11px 'JetBrains Mono',monospace;cursor:pointer;}
.go{display:inline-block;padding:12px 20px;border-radius:10px;background:#B4F14A;color:#0A0C0F;font-weight:700;font-size:14px;}
code{color:#E8EDF3;font:600 12px 'JetBrains Mono',monospace;}
</style></head>
<body><div class=`card`>
<h1>You're in. Here's your ingest key.</h1>
<p class=`sub`>Set it as <code>MAPING_KEY</code> in your Go service — it carries both your key and this deployment's collector endpoint, so no other config is needed.</p>
<p class=`warn`>⚠ COPY IT NOW — YOU WON'T SEE IT AGAIN <button class=`copy` data-copy=`mp-key` type=`button`>⧉ copy</button></p>
<code class=`key` id=`mp-key`>export MAPING_KEY={{.Token}}</code>
<p class=`hint`>Lost it? Mint a new one anytime on the Setup page.</p>
<a class=`go` href=`{{.Next}}`>Continue to dashboard →</a>
</div>
<script src=`/assets/copy.js` defer></script>
</body></html>".

(** The public shell of a documentation page (docs/render.go) *)
Definition shellTmpl_text : string := raw
  "<!doctype html>
<html lang=`en`>
<head>
<meta charset=`utf-8`>
<meta name=`viewport` content=`width=device-width, initial-scale=1`>
<title>{{.Title}} · mAPI-ng docs</title>
<link rel=`preconnect` href=`https://fonts.googleapis.com`>
<link rel=`preconnect` href=`https://fonts.gstatic.com` crossorigin>
<link href=`https://fonts.googleapis.com/css2?family=Hanken+Grotesk:wght@400;500;600;700;800&family=JetBrains+Mono:wght@400;500;600;700&display=swap` rel=`stylesheet`>
<style>
:root{
  --bg:#0A0C0F; --panel:#10141A; --panel-2:#141A22; --panel-3:#181F28;
  --line:rgba(255,255,255,.08); --line-soft:rgba(255,255,255,.045);
  --txt:#E8EDF3; --txt-2:#9AA4B2; --txt-3:#69727F;
  --accent:#B4F14A; --blue:#5EA0FF;
  --topbar-h:57px;
  --ui:'Hanken Grotesk',system-ui,sans-serif; --mono:'JetBrains Mono',ui-monospace,monospace;
}
*{box-sizing:border-box;}
body{margin:0;background:var(--bg);color:var(--txt);font-family:var(--ui);-webkit-font-smoothing:antialiased;}
a{color:var(--accent);text-decoration:none;}
a:hover{text-decoration:underline;}
.topbar{position:sticky;top:0;z-index:20;display:flex;align-items:center;gap:14px;height:var(--topbar-h);padding:0 26px;border-bottom:1px solid var(--line);background:rgba(10,12,15,.82);backdrop-filter:blur(10px);}
.topbar .b{display:flex;align-items:baseline;gap:7px;font:800 16px var(--ui);color:var(--txt);letter-spacing:-.3px;}
.topbar .b em{font-style:normal;color:var(--accent);}
.topbar .b:hover{text-decoration:none;}
.topbar .sep{color:var(--txt-3);font-weight:400;}
.topbar .dtag{font:600 12px var(--mono);color:var(--txt-2);letter-spacing:.5px;}
.topbar nav{margin-left:auto;display:flex;align-items:center;gap:22px;font:600 13px var(--ui);color:var(--txt-2);}
.topbar nav a{color:var(--txt-2);}
.topbar nav a:hover{color:var(--txt);text-decoration:none;}
.wrap{display:grid;grid-template-columns:264px minmax(0,1fr);min-height:100vh;}
.rail{border-right:1px solid var(--line);background:linear-gradient(180deg,#0C0F14,#0A0C0F);padding:26px 18px;}
.grp{font:700 10px var(--mono);color:var(--txt-3);letter-spacing:1px;text-transform:uppercase;margin:22px 6px 8px;}
.lnk{display:block;padding:7px 10px;border-radius:8px;font:600 13px var(--ui);color:var(--txt-2);}
.lnk:hover{background:var(--panel-2);color:var(--txt);text-decoration:none;}
.lnk.on{background:rgba(180,241,74,.10);color:var(--txt);}
.main{padding:52px 0;display:flex;justify-content:center;}
.prose{width:100%;max-width:760px;padding:0 40px;}
.prose h1{font:800 32px/1.15 var(--ui);letter-spacing:-.5px;margin:0 0 24px;}
.prose h2{font:700 22px/1.2 var(--ui);letter-spacing:-.3px;margin:44px 0 14px;padding-top:14px;border-top:1px solid var(--line-soft);}
.prose h3{font:700 16px var(--ui);margin:28px 0 10px;}
.prose p{font:400 15px/1.7 var(--ui);color:var(--txt);margin:0 0 16px;}
.prose li{font:400 15px/1.7 var(--ui);color:var(--txt);margin:6px 0;}
.prose ul,.prose ol{padding-left:22px;margin:0 0 16px;}
.prose a{color:var(--blue);}
.prose strong{color:var(--txt);font-weight:700;}
.prose code{font:500 13px var(--mono);background:var(--panel-3);color:#D8E4C0;padding:2px 6px;border-radius:5px;}
.prose pre{background:var(--panel);border:1px solid var(--line);border-radius:12px;padding:16px 18px;overflow-x:auto;margin:0 0 18px;}
.prose pre code{background:none;padding:0;color:var(--txt);font-size:13px;line-height:1.6;}
.prose blockquote{margin:0 0 18px;padding:12px 18px;border-left:3px solid var(--accent);background:var(--panel-2);border-radius:0 10px 10px 0;color:var(--txt-2);}
.prose blockquote p{margin:0;font-size:14px;}
.prose table{width:100%;border-collapse:collapse;margin:0 0 20px;font-size:13.5px;}
.prose th{text-align:left;font:600 11px var(--mono);color:var(--txt-3);letter-spacing:.5px;text-transform:uppercase;padding:10px 14px;border-bottom:1px solid var(--line);background:var(--panel-2);}
.prose td{padding:11px 14px;border-bottom:1px solid var(--line-soft);color:var(--txt-2);vertical-align:top;}
.prose td code{font-size:12px;}
.prose hr{border:none;border-top:1px solid var(--line);margin:32px 0;}
.prose h2 a,.prose h3 a{color:inherit;}
.foot{margin-top:56px;padding-top:22px;border-top:1px solid var(--line-soft);font:500 12px var(--mono);color:var(--txt-3);}
@media(max-width:820px){
  .wrap{grid-template-columns:1fr;}
  .rail{position:static;height:auto;border-right:none;border-bottom:1px solid var(--line);}
  .prose{padding:0 24px;}
}
</style>
</head>
<body>
{{if .Header}}{{.Header}}{{else}}
<header class=`topbar`>
  <a class=`b` href=`/`>m<em>API</em>ng</a>
  <span class=`sep`>/</span>
  <a class=`dtag` href=`/doc`>docs</a>
</header>
{{end}}
<div class=`wrap`>
  <aside class=`rail`>
    {{range .Groups}}
    <div class=`grp`>{{.Group}}</div>
    {{range .Items}}<a class=`lnk{{if .Active}} on{{end}}` href=`{{.Href}}`>{{.Title}}</a>{{end}}
    {{end}}
  </aside>
  <main class=`main`>
    <article class=`prose`>
      {{.Body}}
      <div class=`foot`>mAPI-ng · <a href=`/`>home</a> · <a href=`https://github.com/arhuman/maping`>source</a></div>
    </article>
  </main>
</div>
</body>
</html>".

(** The fragment of a documentation page inside the dashboard (docs/render_app.go) *)
Definition appTmpl_text : string := raw
  "<style>
.doc-wrap{display:grid;grid-template-columns:240px minmax(0,1fr);align-items:start;}
.doc-rail{border-right:1px solid var(--line);padding:2px 14px 2px 0;}
.doc-grp{font:700 10px var(--mono);color:var(--txt-3);letter-spacing:1px;text-transform:uppercase;margin:20px 6px 8px;}
.doc-grp:first-child{margin-top:0;}
.doc-lnk{display:block;padding:7px 10px;border-radius:8px;font:600 13px var(--ui);color:var(--txt-2);}
.doc-lnk:hover{background:var(--panel-2);color:var(--txt);}
.doc-lnk.on{background:rgba(180,241,74,.10);color:var(--txt);}
.doc-prose{max-width:760px;padding:0 34px;}
.doc-prose h1{font:800 32px/1.15 var(--ui);letter-spacing:-.5px;margin:0 0 24px;}
.doc-prose h2{font:700 22px/1.2 var(--ui);letter-spacing:-.3px;margin:44px 0 14px;padding-top:14px;border-top:1px solid var(--line-soft);}
.doc-prose h3{font:700 16px var(--ui);margin:28px 0 10px;}
.doc-prose p{font:400 15px/1.7 var(--ui);color:var(--txt);margin:0 0 16px;}
.doc-prose li{font:400 15px/1.7 var(--ui);color:var(--txt);margin:6px 0;}
.doc-prose ul,.doc-prose ol{padding-left:22px;margin:0 0 16px;}
.doc-prose a{color:var(--blue);}
.doc-prose a:hover{text-decoration:underline;}
.doc-prose strong{color:var(--txt);font-weight:700;}
.doc-prose code{font:500 13px var(--mono);background:var(--panel-3);color:#D8E4C0;padding:2px 6px;border-radius:5px;}
.doc-prose pre{background:var(--panel);border:1px solid var(--line);border-radius:12px;padding:16px 18px;overflow-x:auto;margin:0 0 18px;}
.doc-prose pre code{background:none;padding:0;color:var(--txt);font-size:13px;line-height:1.6;}
.doc-prose blockquote{margin:0 0 18px;padding:12px 18px;border-left:3px solid var(--accent);background:var(--panel-2);border-radius:0 10px 10px 0;color:var(--txt-2);}
.doc-prose blockquote p{margin:0;font-size:14px;}
.doc-prose table{width:100%;border-collapse:collapse;margin:0 0 20px;font-size:13.5px;}
.doc-prose th{text-align:left;font:600 11px var(--mono);color:var(--txt-3);letter-spacing:.5px;text-transform:uppercase;padding:10px 14px;border-bottom:1px solid var(--line);background:var(--panel-2);}
.doc-prose td{padding:11px 14px;border-bottom:1px solid var(--line-soft);color:var(--txt-2);vertical-align:top;}
.doc-prose td code{font-size:12px;}
.doc-prose hr{border:none;border-top:1px solid var(--line);margin:32px 0;}
.doc-prose h2 a,.doc-prose h3 a{color:inherit;}
@media(max-width:980px){
  .doc-wrap{grid-template-columns:1fr;}
  .doc-rail{border-right:none;border-bottom:1px solid var(--line);padding:0 0 16px;margin-bottom:20px;}
  .doc-prose{padding:0;}
}
</style>
<div class=`doc-wrap`>
  <aside class=`doc-rail`>
    {{range .Groups}}
    <div class=`doc-grp`>{{.Group}}</div>
    {{range .Items}}<a class=`doc-lnk{{if .Active}} on{{end}}` href=`{{.Href}}`>{{.Title}}</a>{{end}}
    {{end}}
  </aside>
  <article class=`doc-prose`>
    {{.Body}}
  </article>
</div>".

(** [templatesHTML]. *)
Definition templatesHTML : string :=
  str_concat [tplChromeHTML; tplTablesHTML; tplDetailHTML; tplOnboardingHTML; tplPerformanceHTML].
