(* ===== verification/Token.v ===== *)
(** * The ingest-key wire format (proto/token/token.go)

    Shared by the client, which reads the collector origin from the key, and the
    server, which hashes the secret half. *)

From Stdlib Require Import ZArith Lia Ascii.
From Stdlib Require String.
From stdpp Require Import base option sets strings list.
From S2P Require Import Prelude GoString.

Local Open Scope Z_scope.

Definition prefix : string := "mk_live_".
Definition secretBytes : nat := 32.

Definition Encode (origin secret : string) : string :=
  if bool_decide (origin = ""%string) then str_app prefix secret
  else str_app prefix (str_app (b64_encode origin) (str_app "." secret)).

(** [(origin, secret, ok)]; not ok is [None]. *)
Definition decodeStructured (originB64 sec : string) : option (string * string) :=
  match b64_decode originB64 with
  | None => None
  | Some raw => if bool_decide (sec = ""%string) then None else Some (raw, sec)
  end.

Definition plainSecret (body : string) : option (string * string) :=
  if bool_decide (body = ""%string) then None else Some (""%string, body).

Definition Decode (tok : string) : option (string * string) :=
  if bool_decide (tok = ""%string) then None
  else if HasPrefix tok prefix then
    let body := str_drop (String.length prefix) tok in
    match IndexByte body "."%char with
    | Some i => decodeStructured (str_take i body) (str_drop (S i) body)
    | None => plainSecret body
    end
  else plainSecret tok.

(** [NewSecret]: [rand.Read] either fills the 32 bytes or fails. *)
Definition NewSecret (rand : option (list ascii)) : option string :=
  match rand with
  | Some b => Some (b64_encode (of_bytes b))
  | None => None
  end.

(** A secret the issuer can put after the dot-less form: non-empty and without a dot. *)
Definition dotless (secret : string) : Prop := secret ≠ ""%string ∧ "."%char ∉ bytes_of secret.

Lemma HasPrefix_app p s : HasPrefix (str_app p s) p = true.
Proof. apply HasPrefix_spec. by exists s. Qed.

Lemma IndexByte_none s c : c ∉ bytes_of s → IndexByte s c = None.
Proof.
  unfold IndexByte. generalize (bytes_of s). induction l as [|a l IH]; intros Hc; cbn; [done|].
  rewrite decide_False by set_solver. by rewrite IH by set_solver.
Qed.

Lemma str_drop_S_app s a t : str_drop (S (String.length s)) (str_app s (String.String a t)) = t.
Proof.
  unfold str_drop. rewrite bytes_of_app, <-length_bytes_of.
  change (bytes_of (String.String a t)) with (a :: bytes_of t).
  rewrite drop_app_ge by lia. rewrite Nat.sub_succ_l, Nat.sub_diag by lia. cbn.
  apply of_bytes_of.
Qed.

Lemma Decode_prefixed body :
  Decode (str_app prefix body) =
  match IndexByte body "."%char with
  | Some i => decodeStructured (str_take i body) (str_drop (S i) body)
  | None => plainSecret body
  end.
Proof. unfold Decode. rewrite HasPrefix_app, str_drop_app. done. Qed.

Lemma Decode_structured origin secret :
  secret ≠ ""%string →
  Decode (str_app prefix (str_app (b64_encode origin) (str_app "." secret))) =
  Some (origin, secret).
Proof.
  intros Hs. rewrite Decode_prefixed.
  change (str_app "." secret) with (String.String "."%char secret).
  rewrite IndexByte_app by apply b64_no_dot.
  rewrite str_take_app, str_drop_S_app. unfold decodeStructured.
  by rewrite b64_roundtrip, bool_decide_false by done.
Qed.

Lemma Decode_dotless secret :
  dotless secret → Decode (str_app prefix secret) = Some (""%string, secret).
Proof.
  intros [Hne Hdot]. rewrite Decode_prefixed, IndexByte_none by done.
  unfold plainSecret. by rewrite bool_decide_false.
Qed.

Lemma b64_encode_nonempty a l : b64_encode (of_bytes (a :: l)) ≠ ""%string.
Proof.
  unfold b64_encode. rewrite bytes_of_of, fmap_cons.
  destruct (byte_of <$> l) as [|b [|c ?]]; done.
Qed.

(** Every secret the generator returns is dotless. *)
Lemma NewSecret_dotless a b s : NewSecret (Some (a :: b)) = Some s → dotless s.
Proof.
  intros [= <-]. split; [apply b64_encode_nonempty | apply b64_no_dot].
Qed.

(** A key shown to a user survives the trimming of a header. *)
Lemma TrimSpace_Encode origin b secret :
  NewSecret (Some b) = Some secret → TrimSpace (Encode origin secret) = Encode origin secret.
Proof.
  intros [= <-]. apply TrimSpace_none. unfold Encode.
  assert (Hp : Forall (λ a, is_space a = false) (bytes_of prefix)) by (repeat constructor).
  assert (Hd : Forall (λ a, is_space a = false) (bytes_of ".")) by (repeat constructor).
  case_bool_decide; rewrite !bytes_of_app, !Forall_app; auto using b64_no_space.
Qed.

(** Issuing and reading a key agree: for every origin and every non-empty secret
    the decoded key is the origin and the secret, where a secret under an empty origin
    has no dot in it, as generated secrets never do. *)
Theorem Decode_Encode origin secret :
  secret ≠ ""%string → (origin = ""%string → "."%char ∉ bytes_of secret) →
  Decode (Encode origin secret) = Some (origin, secret).
Proof.
  intros Hs Hd. unfold Encode. case_bool_decide as Ho.
  - subst. apply Decode_dotless. split; auto.
  - by apply Decode_structured.
Qed.

Lemma Decode_Encode_witness :
  Decode (Encode "https://maping.example.com:8443" "a.b-c_D") =
  Some ("https://maping.example.com:8443", "a.b-c_D")%string.
Proof. apply (Decode_Encode "https://maping.example.com:8443" "a.b-c_D"); done. Defined.

(** A key without the prefix is its own secret, so keys that predate the format work. *)
Lemma Decode_legacy tok :
  tok ≠ ""%string → HasPrefix tok prefix = false → Decode tok = Some (""%string, tok).
Proof.
  intros Ht Hp. unfold Decode. rewrite bool_decide_false, Hp by done.
  unfold plainSecret. by rewrite bool_decide_false.
Qed.

(** No decoded key has an empty secret. *)
Lemma Decode_secret_nonempty tok o s : Decode tok = Some (o, s) → s ≠ ""%string.
Proof.
  unfold Decode, decodeStructured, plainSecret. intros H.
  repeat case_match; simplify_eq; repeat case_bool_decide; simplify_eq; done.
Qed.
