(* ===== verification/ClientConfig.v ===== *)
(** * Client configuration (client/config.go)

    The precedence code option > environment > default, and the choice of the collector
    endpoint: an origin embedded in the key is only followed inside the trusted domain.
    The environment, the binary's name, the host name and the build information are
    inputs. *)

From Stdlib Require Import ZArith Lia Ascii.
From stdpp Require Import base option sets strings list.
From S2P Require Import Prelude GoString GoTime GoUrl Token.

Local Open Scope Z_scope.

Definition defaultEndpoint : string := "https://www.mapi-ng.com".
Definition defaultFlushWindow : Duration := 10 * Second.

Record Config := mkConfig {
  Key : string; Endpoint : string; Service : string; Instance_ : string;
  FlushWindow : Duration; DeployVersion : string; DeployID : string;
  Environment : string; Region : string;
}.

Definition zero_config : Config := mkConfig "" "" "" "" 0 "" "" "" "".

Definition Option : Type := Config → Config.

Definition WithKey (v : string) : Option := λ c,
  mkConfig v (Endpoint c) (Service c) (Instance_ c) (FlushWindow c) (DeployVersion c) (DeployID c) (Environment c) (Region c).
Definition WithEndpoint (v : string) : Option := λ c,
  mkConfig (Key c) v (Service c) (Instance_ c) (FlushWindow c) (DeployVersion c) (DeployID c) (Environment c) (Region c).
Definition WithService (v : string) : Option := λ c,
  mkConfig (Key c) (Endpoint c) v (Instance_ c) (FlushWindow c) (DeployVersion c) (DeployID c) (Environment c) (Region c).
Definition WithInstance (v : string) : Option := λ c,
  mkConfig (Key c) (Endpoint c) (Service c) v (FlushWindow c) (DeployVersion c) (DeployID c) (Environment c) (Region c).
Definition WithFlushWindow (d : Duration) : Option := λ c,
  mkConfig (Key c) (Endpoint c) (Service c) (Instance_ c) d (DeployVersion c) (DeployID c) (Environment c) (Region c).
Definition WithDeployVersion (v : string) : Option := λ c,
  mkConfig (Key c) (Endpoint c) (Service c) (Instance_ c) (FlushWindow c) v (DeployID c) (Environment c) (Region c).
Definition WithDeployID (v : string) : Option := λ c,
  mkConfig (Key c) (Endpoint c) (Service c) (Instance_ c) (FlushWindow c) (DeployVersion c) v (Environment c) (Region c).
Definition WithEnvironment (v : string) : Option := λ c,
  mkConfig (Key c) (Endpoint c) (Service c) (Instance_ c) (FlushWindow c) (DeployVersion c) (DeployID c) v (Region c).
Definition WithRegion (v : string) : Option := λ c,
  mkConfig (Key c) (Endpoint c) (Service c) (Instance_ c) (FlushWindow c) (DeployVersion c) (DeployID c) (Environment c) v.

(** What the process reads from its surroundings. *)
Record Host := mkHost {
  Getenv : string → string;
  arg0_base : string;             (* filepath.Base(os.Args[0]) *)
  hostname : option string;       (* os.Hostname() *)
  build_settings : option (list (string * string)); (* debug.ReadBuildInfo() *)
}.

Definition firstNonEmpty (vs : list string) : string :=
  default ""%string (list_find (λ v, v ≠ ""%string) vs ≫= λ iv, Some iv.2).

Section config.
Context `{NetIP} (h : Host).

Definition deriveService : string :=
  firstNonEmpty [Getenv h "MAPING_SERVICE"; Getenv h "OTEL_SERVICE_NAME"; arg0_base h].

Definition deriveInstance : string :=
  let v := firstNonEmpty [Getenv h "MAPING_INSTANCE"; Getenv h "HOSTNAME"] in
  if bool_decide (v ≠ ""%string) then v else default "unknown"%string (hostname h).

Definition vcsRevision : string :=
  match build_settings h with
  | None => ""
  | Some l => default ""%string (list_find (λ kv, kv.1 = "vcs.revision"%string) l ≫= λ i, Some i.2.2)
  end.

Definition deriveDeployID : string :=
  let v := Getenv h "MAPING_DEPLOY_ID" in
  if bool_decide (v ≠ ""%string) then v else vcsRevision.

(** [time.Duration(secs) * time.Second] wraps in [int64]. *)
Definition deriveFlushWindow : Duration :=
  let raw := Getenv h "MAPING_FLUSH_SECONDS" in
  if bool_decide (raw = ""%string) then defaultFlushWindow
  else match ParseInt raw with
       | Some secs => if secs <=? 0 then defaultFlushWindow else i64 (secs * Second)
       | None => defaultFlushWindow
       end.

(** ** The endpoint *)

Definition validOrigin (origin : string) : bool :=
  if bool_decide (origin = ""%string) then false
  else match Parse origin with
       | None => false
       | Some u => (bool_decide (Scheme u = "http"%string) || bool_decide (Scheme u = "https"%string))
                     && negb (bool_decide (GoUrl.Host u = ""%string))
       end.

Definition registrableDomain (endpoint : string) : string :=
  match Parse endpoint with
  | None => ""
  | Some u =>
      let host := Hostname u in
      let labels := Split host "." in
      if (length labels <? 2)%nat then host else Join (drop (length labels - 2) labels) "."
  end.

Definition trustedKeyOriginDomain : string := registrableDomain defaultEndpoint.

Definition originIsTrusted (origin : string) : bool :=
  if bool_decide (ToLower (TrimSpace (Getenv h "MAPING_TRUST_KEY_ORIGIN")) ∈ ["1"; "true"; "yes"]%string)
  then true
  else match Parse origin with
       | None => false
       | Some u => bool_decide (Hostname u = trustedKeyOriginDomain)
                     || HasSuffix (Hostname u) (str_app "." trustedKeyOriginDomain)
       end.

Definition resolveEndpoint (optEndpoint envEndpoint key : string) : string :=
  if bool_decide (optEndpoint ≠ ""%string) then optEndpoint
  else if bool_decide (envEndpoint ≠ ""%string) then envEndpoint
  else match Token.Decode key with
       | Some (origin, _) =>
           if validOrigin origin && originIsTrusted origin then origin else defaultEndpoint
       | None => defaultEndpoint
       end.

Definition override_s (o c : string) : string := if bool_decide (o ≠ ""%string) then o else c.

Definition resolveConfig (opts : list Option) : Config :=
  let override := fold_left (λ c opt, opt c) opts zero_config in
  let key := override_s (Key override) (Getenv h "MAPING_KEY") in
  mkConfig key
    (resolveEndpoint (Endpoint override) (Getenv h "MAPING_ENDPOINT") key)
    (override_s (Service override) deriveService)
    (override_s (Instance_ override) deriveInstance)
    (if 0 <? FlushWindow override then FlushWindow override else deriveFlushWindow)
    (override_s (DeployVersion override) (Getenv h "MAPING_DEPLOY_VERSION"))
    (override_s (DeployID override) deriveDeployID)
    (override_s (Environment override) (Getenv h "MAPING_ENVIRONMENT"))
    (override_s (Region override) (Getenv h "MAPING_REGION")).
End config.

(** ** Properties *)

Lemma HasSuffix_spec s p : HasSuffix s p = true → ∃ r, s = str_app r p.
Proof.
  unfold HasSuffix. intros [r Hr]%hasPrefix_bytes_spec. exists (of_bytes (rev r)).
  rewrite <-(of_bytes_of s), <-(of_bytes_of p) at 1. rewrite <-of_bytes_app. f_equal.
  rewrite <-(rev_involutive (bytes_of s)), Hr, rev_app_distr. by rewrite rev_involutive.
Qed.

Lemma trusted_domain `{NetIP} : trustedKeyOriginDomain = "mapi-ng.com"%string.
Proof. vm_compute. done. Qed.

(** The domain of the hosted service or one of its subdomains. *)
Definition in_trusted_domain (host : string) : Prop :=
  host = "mapi-ng.com"%string ∨ ∃ sub, host = str_app sub ".mapi-ng.com".

Definition trust_opt_in (h : Host) : Prop :=
  ToLower (TrimSpace (Getenv h "MAPING_TRUST_KEY_ORIGIN")) ∈ ["1"; "true"; "yes"]%string.

(** The options name no endpoint. *)
Definition no_endpoint_option (opts : list Option) : Prop :=
  Endpoint (fold_left (λ c opt, opt c) opts zero_config) = ""%string.

(** [C39] A key cannot redirect telemetry: without an endpoint chosen by the operator
    (option, environment or opt-in), whatever the key, the resolved collector is the
    default one or an http(s) URL whose host name is the hosted service's domain or a
    subdomain of it. *)
Theorem key_origin_confined `{NetIP} h opts :
  no_endpoint_option opts → Getenv h "MAPING_ENDPOINT" = ""%string → ¬ trust_opt_in h →
  let e := Endpoint (resolveConfig h opts) in
  e = defaultEndpoint ∨
  ∃ u, Parse e = Some u ∧ Scheme u ∈ ["http"; "https"]%string ∧ in_trusted_domain (Hostname u).
Proof.
  intros Ho He Ht e. subst e. unfold resolveConfig. cbn [Endpoint].
  unfold no_endpoint_option in Ho. rewrite Ho, He. set (key := override_s _ _).
  unfold resolveEndpoint. rewrite !bool_decide_false by auto.
  destruct (Token.Decode key) as [[origin secret]|]; [|by left].
  destruct (validOrigin origin && originIsTrusted h origin) eqn:E; [right|by left].
  apply andb_true_iff in E as [Hv Htr]. unfold validOrigin in Hv. unfold originIsTrusted in Htr.
  rewrite bool_decide_false in Htr by done. rewrite trusted_domain in Htr.
  case_bool_decide; [done|]. destruct (Parse origin) as [u|] eqn:Hu; [|done].
  exists u. split; [done|]. split.
  - apply andb_true_iff in Hv as [Hv _]. apply orb_true_iff in Hv as [Hv|Hv];
      apply bool_decide_eq_true in Hv; rewrite Hv; set_solver.
  - apply orb_true_iff in Htr as [Htr|Htr].
    + apply bool_decide_eq_true in Htr. by left.
    + right. by apply HasSuffix_spec in Htr.
Qed.

Definition evil_key : string := Encode "https://evil.example/mapi-ng.com" "s3cret".
Definition test_host (var value : string) : Host :=
  mkHost (λ k, if bool_decide (k = var) then value else ""%string) "app" None None.

Lemma key_origin_confined_witness :
  let e := Endpoint (@resolveConfig no_ipv6 (test_host "MAPING_KEY" evil_key) []) in
  e = defaultEndpoint ∨
  ∃ u, @Parse no_ipv6 e = Some u ∧ Scheme u ∈ ["http"; "https"]%string ∧
       in_trusted_domain (Hostname u).
Proof.
  apply (@key_origin_confined no_ipv6 (test_host "MAPING_KEY" evil_key) []); [done | done |].
  unfold trust_opt_in. vm_compute. intros Hin. repeat (inversion Hin as [|? ? ? Hin']; subst; clear Hin; rename Hin' into Hin).
Defined.

Example confined_default :
  Endpoint (@resolveConfig no_ipv6 (test_host "MAPING_KEY" evil_key) []) = defaultEndpoint.
Proof. vm_compute. done. Qed.
Example confined_subdomain :
  Endpoint (@resolveConfig no_ipv6
    (test_host "MAPING_KEY" (Encode "https://eu.mapi-ng.com:8443" "s3cret")) []) =
  "https://eu.mapi-ng.com:8443"%string.
Proof. vm_compute. done. Qed.
Example confined_userinfo :
  Endpoint (@resolveConfig no_ipv6
    (test_host "MAPING_KEY" (Encode "https://www.mapi-ng.com@evil.example" "s3cret")) []) =
  defaultEndpoint.
Proof. vm_compute. done. Qed.

(** The flush window is positive unless the environment's number of seconds does not
    fit: the only way to a non-positive window is a [MAPING_FLUSH_SECONDS] whose
    nanoseconds overflow an [int64], and 9223372037 is such a value (it resolves to a
    negative window instead of the default). *)
Theorem flush_window_positive `{NetIP} :
  (∀ h opts, 0 < FlushWindow (resolveConfig h opts) ∨
     ∃ secs, ParseInt (Getenv h "MAPING_FLUSH_SECONDS") = Some secs ∧ 2 ^ 63 ≤ secs * Second) ∧
  FlushWindow (resolveConfig (test_host "MAPING_FLUSH_SECONDS" "9223372037") []) < 0.
Proof.
  split; [|vm_compute; done]. intros h opts. unfold resolveConfig. cbn [FlushWindow].
  destruct (Z.ltb_spec 0 (FlushWindow (fold_left (λ c opt, opt c) opts zero_config))); [by left|].
  unfold deriveFlushWindow. case_bool_decide; [by left|].
  destruct (ParseInt _) as [secs|]; [|by left]. destruct (Z.leb_spec secs 0); [by left|].
  destruct (Z.le_gt_cases (2 ^ 63) (secs * Second)) as [|Hlt]; [right; eauto|].
  left. rewrite i64_small; unfold is_i64, Second, Millisecond in *; lia.
Qed.
