(* ===== verification/Wire.v ===== *)
(** * The protobuf messages (proto/maping/v1)

    The messages as the generated Go structs hold them: a message field is a pointer,
    so an absent sub-message is [None]; the accessors return the zero value for it. *)

From Stdlib Require Import ZArith Lia.
From stdpp Require Import base gmap strings list.
From S2P Require Import Prelude GoFloat.

Local Open Scope Z_scope.

Inductive StatusClass :=
  | SC_UNSPECIFIED | SC_2XX | SC_3XX | SC_4XX | SC_5XX | SC_NO_STATUS
  | SC_unknown (n : Z). (* proto3 enums are open: a number outside the list *)

#[export] Instance StatusClass_eq_dec : EqDecision StatusClass.
Proof. solve_decision. Defined.

Definition StatusClass_number (c : StatusClass) : Z :=
  match c with
  | SC_UNSPECIFIED => 0 | SC_2XX => 1 | SC_3XX => 2 | SC_4XX => 3 | SC_5XX => 4
  | SC_NO_STATUS => 5 | SC_unknown n => n
  end.

#[export] Instance StatusClass_countable : Countable StatusClass.
Proof.
  apply (inj_countable'
    (λ c, match c with
          | SC_UNSPECIFIED => inl 0 | SC_2XX => inl 1 | SC_3XX => inl 2 | SC_4XX => inl 3
          | SC_5XX => inl 4 | SC_NO_STATUS => inl 5 | SC_unknown n => inr n
          end)
    (λ s, match s with
          | inl 0 => SC_UNSPECIFIED | inl 1 => SC_2XX | inl 2 => SC_3XX | inl 3 => SC_4XX
          | inl 4 => SC_5XX | inl _ => SC_NO_STATUS | inr n => SC_unknown n
          end)).
  by intros [].
Defined.

Record Exemplar := mkExemplar {
  ex_at_ms : Z; ex_duration_ns : Z; ex_status_code : Z;
  ex_trace_id : string; ex_span_id : string; ex_request_id : string;
}.

Record Envelope := mkEnvelope {
  env_service : string; env_instance : string; env_sdk_version : string;
  env_sketch_format_version : Z; env_dropped_summaries : Z;
  env_deploy_version : string; env_deploy_id : string;
  env_environment : string; env_region : string; env_instance_start_time_ms : Z;
}.

Record Summary := mkSummary {
  sum_window_start_ms : Z; sum_window_end_ms : Z;
  sum_method : string; sum_route_template : string; sum_status_class : StatusClass;
  sum_count : Z; sum_duration_ns : Z; sum_req_bytes : Z; sum_resp_bytes : Z;
  sum_latency_sketch : gmap Z Z; sum_status_codes : gmap Z Z;
  sum_max_duration_ns : Z; sum_exemplars : list (option Exemplar);
  sum_error_classes : gmap string Z; sum_no_status_reasons : gmap Z Z;
  sum_downstream_ns : Z;
}.

Record InstanceWindow := mkInstanceWindow {
  iw_window_start_ms : Z; iw_window_end_ms : Z; iw_cpu_ns : Z; iw_rss_bytes : Z;
  iw_heap_alloc_bytes : Z; iw_gc_pause_ns : Z; iw_goroutines : Z; iw_num_gc : Z;
  iw_total_alloc_bytes : Z; iw_mallocs : Z; iw_gc_cpu_fraction : f64;
  iw_heap_inuse_bytes : Z; iw_gomaxprocs : Z; iw_post_gc_heap_bytes : Z;
  iw_rss_true_bytes : Z; iw_open_fds : Z; iw_fd_limit : Z; iw_in_flight : Z;
}.

Record UploadRequest := mkUpload {
  up_envelope : option Envelope;
  up_summaries : list (option Summary);
  up_instance_windows : list (option InstanceWindow);
}.

Record UploadResponse := mkUploadResponse {
  resp_accepted : bool; resp_reason : string; resp_rejected_summaries : Z;
}.

Record Handshake := mkHandshake {
  hs_service : string; hs_instance : string; hs_sdk_version : string;
  hs_sketch_format_version : Z;
}.

Record RegisterResponse := mkRegisterResponse { reg_accepted : bool; reg_reason : string }.

(** The zero values the generated getters return on a nil message. *)
Definition zero_envelope : Envelope := mkEnvelope "" "" "" 0 0 "" "" "" "" 0.
Definition zero_summary : Summary :=
  mkSummary 0 0 "" "" SC_UNSPECIFIED 0 0 0 0 ∅ ∅ 0 [] ∅ ∅ 0.

(** [req.GetEnvelope()] followed by field getters. *)
Definition get_envelope (r : UploadRequest) : Envelope := default zero_envelope (up_envelope r).
Definition get_summary (s : option Summary) : Summary := default zero_summary s.

Definition set_dropped (e : Envelope) (n : Z) : Envelope :=
  mkEnvelope (env_service e) (env_instance e) (env_sdk_version e)
    (env_sketch_format_version e) n (env_deploy_version e) (env_deploy_id e)
    (env_environment e) (env_region e) (env_instance_start_time_ms e).
