(* ===== verification/Sketch.v ===== *)
(** * The client's latency sketch (client/sketch/ddsketch.go)

    A fixed array of 2048 counters over a logarithmic mapping. The file models every
    function of the package; an index outside the array is a panic, as in Go. *)

From Stdlib Require Import ZArith Lia Floats.
From stdpp Require Import base gmap strings numbers list.
From S2P Require Import Prelude GoFloat GoMath.

Local Open Scope Z_scope.

Definition Gamma : f64 := 1.01%float.
Definition SketchFormatVersion : Z := 1.
Definition MinValue : f64 := 1e-6%float.
Definition MaxValue : f64 := 60.0%float.
Definition numBuckets : nat := 2048.

Record DDSketch := mkSketch { buckets : list Z; count : Z }.

#[export] Instance DDSketch_eq_dec : EqDecision DDSketch.
Proof. solve_decision. Defined.

Section ddsketch.
Context `{M : MathLib}.

Definition logGamma : f64 := math_log Gamma.

Definition index (v : f64) : Z :=
  int_of_f64 (ceil (PrimFloat.div (math_log v) logGamma)).

(* [2 * math.Pow(Gamma, float64(i)) / (Gamma + 1)]: Gamma + 1 is the constant 2.01. *)
Definition value (i : Z) : f64 :=
  (2 * math_pow Gamma (f64_of_Z i) / 2.01)%float.

Definition minIndex : Z := index MinValue.
Definition maxIndex : Z := index MaxValue.

(** The package's [init]: it panics when the domain does not fit the array. *)
Definition sketch_init : outcome unit :=
  if Z.of_nat numBuckets <? maxIndex - minIndex + 1
  then Panic "sketch: numBuckets too small for [MinValue, MaxValue] domain"%string
  else Ret tt.

Definition clamp (seconds : f64) : f64 :=
  if is_nan seconds || (seconds <? MinValue)%f64 then MinValue
  else if (seconds >? MaxValue)%f64 then MaxValue
  else seconds.

Definition New : DDSketch := mkSketch (replicate numBuckets 0) 0.

Definition Add (s : DDSketch) (seconds : f64) : outcome DDSketch :=
  let i := index (clamp seconds) in
  let k := i - minIndex in
  if (0 <=? k) && (k <? Z.of_nat numBuckets) then
    match buckets s !! Z.to_nat k with
    | Some c => Ret (mkSketch (<[Z.to_nat k := u64 (c + 1)]> (buckets s)) (u64 (count s + 1)))
    | None => Panic "index out of range"%string
    end
  else Panic "index out of range"%string.

Definition Merge (s o : DDSketch) : DDSketch :=
  mkSketch (zip_with (λ a b, u64 (a + b)) (buckets s) (buckets o)) (u64 (count s + count o)).

Definition Count (s : DDSketch) : Z := count s.

Definition quantileRank (q : f64) (total : Z) : Z :=
  let q := if (q <? 0)%float then 0%float
           else if (q >? 1)%f64 then 1%float else q in
  let rank := Z.max (uint64_of_f64 (ceil (q * f64_of_Z total)%float)) 1 in
  Z.min rank total.

(** The scan of [Quantile]: the first array position whose running sum reaches [rank]. *)
Fixpoint quantile_walk (bs : list Z) (i cum rank : Z) : option Z :=
  match bs with
  | [] => None
  | c :: bs' =>
      let cum := u64 (cum + c) in
      if rank <=? cum then Some i else quantile_walk bs' (i + 1) cum rank
  end.

Definition Quantile (s : DDSketch) (q : f64) : f64 :=
  if count s =? 0 then 0%float
  else
    let rank := quantileRank q (count s) in
    match quantile_walk (buckets s) 0 0 rank with
    | Some i => value (i + minIndex)
    | None => value maxIndex
    end.

(** The loop of [Buckets], from array position [i] on. *)
Fixpoint buckets_from (bs : list Z) (i : Z) (m : gmap Z Z) : gmap Z Z :=
  match bs with
  | [] => m
  | c :: bs' =>
      buckets_from bs' (i + 1) (if c =? 0 then m else <[i32 (i + minIndex) := c]> m)
  end.

Definition Buckets (s : DDSketch) : gmap Z Z := buckets_from (buckets s) 0 ∅.

(** The clamp of an absolute index into the domain, and one iteration of
    [FromBuckets]. The array access after the clamp is in bounds whenever [init]
    returned; out of bounds it would panic. *)
Definition clampIndex (i : Z) : Z :=
  if i <? minIndex then minIndex else if maxIndex <? i then maxIndex else i.

Definition fromBuckets_step (s : DDSketch) (kc : Z * Z) : DDSketch :=
  let '(absIdx, c) := kc in
  let k := Z.to_nat (clampIndex absIdx - minIndex) in
  mkSketch (alter (λ b, u64 (b + c)) k (buckets s)) (u64 (count s + c)).

(** Go ranges over the map in an unspecified order; [fromBuckets_list] is the loop
    over any enumeration of it. *)
Definition fromBuckets_list (l : list (Z * Z)) : DDSketch :=
  fold_left fromBuckets_step l New.

Definition FromBuckets (m : gmap Z Z) : DDSketch := fromBuckets_list (map_to_list m).

Definition map_total (m : gmap Z Z) : Z :=
  fold_left (λ t kc, u64 (t + snd kc)) (map_to_list m) 0.

(** The dense scan of [QuantileFromBuckets] over the present indices. *)
Fixpoint sparse_walk (m : gmap Z Z) (idxs : list Z) (cum rank : Z) : option Z :=
  match idxs with
  | [] => None
  | i :: rest =>
      match m !! i32 i with
      | None => sparse_walk m rest cum rank
      | Some c =>
          let cum := u64 (cum + c) in
          if rank <=? cum then Some i else sparse_walk m rest cum rank
      end
  end.

Definition QuantileFromBuckets (m : gmap Z Z) (q : f64) : f64 :=
  let total := map_total m in
  if total =? 0 then 0%float
  else
    let rank := quantileRank q total in
    match sparse_walk m (seqZ minIndex (maxIndex - minIndex + 1)) 0 rank with
    | Some i => value i
    | None => value maxIndex
    end.
End ddsketch.

Example go_minIndex : @minIndex go_math = -1388.
Proof. vm_compute. reflexivity. Qed.
Example go_maxIndex : @maxIndex go_math = 412.
Proof. vm_compute. reflexivity. Qed.

(** ** Well-formedness *)

(** The invariant of every sketch the package builds: the array has its fixed size,
    every counter is a [uint64], and [count] is the wrapped sum of the counters. *)
Record wf (s : DDSketch) : Prop := {
  wf_length : length (buckets s) = numBuckets;
  wf_counters : Forall is_u64 (buckets s);
  wf_count : count s = u64 (sumZ (buckets s));
}.

Lemma sumZ_zip_u64 l1 l2 :
  length l1 = length l2 →
  u64 (sumZ (zip_with (λ a b, u64 (a + b)) l1 l2)) = u64 (sumZ l1 + sumZ l2).
Proof.
  unfold sumZ. revert l2. induction l1 as [|a l1 IH]; intros [|b l2] Hl; simpl in *; try done.
  rewrite u64_add_l, <-u64_add_r, IH by lia. solve_u64.
Qed.

Lemma wf_New : wf New.
Proof.
  split; unfold New; cbn [buckets count].
  - apply length_replicate.
  - by apply Forall_replicate.
  - by rewrite sumZ_replicate_0.
Qed.

Lemma zip_with_Forall_u64 (f : Z → Z → Z) l1 l2 :
  Forall is_u64 (zip_with (λ a b, u64 (f a b)) l1 l2).
Proof. revert l2. induction l1; intros []; simpl; constructor; auto with go. Qed.

Lemma wf_Merge s o : wf s → wf o → wf (Merge s o).
Proof.
  intros [Ls _ Cs] [Lo _ Co]. split; simpl.
  - rewrite length_zip_with. lia.
  - apply zip_with_Forall_u64.
  - rewrite sumZ_zip_u64 by congruence. rewrite Cs, Co. solve_u64.
Qed.

(** Adding [n] to the counter at position [k] of a sketch: the common shape of [Add]
    and of [FromBuckets]'s loop body. *)
Definition add_at (s : DDSketch) (k : nat) (n : Z) : DDSketch :=
  mkSketch (alter (λ b, u64 (b + n)) k (buckets s)) (u64 (count s + n)).

Lemma wf_add_at s k n : (k < numBuckets)%nat → wf s → wf (add_at s k n).
Proof.
  intros Hk [Ls Fs Cs]. destruct (lookup_lt_is_Some_2 (buckets s) k) as [c Hc]; [lia|].
  split; simpl.
  - by rewrite length_alter.
  - apply Forall_alter; [done|]. auto with go.
  - rewrite (sumZ_alter _ _ _ _ Hc), Cs.
    replace (sumZ (buckets s) - c + u64 (c + n))
      with (u64 (c + n) + (sumZ (buckets s) - c)) by lia.
    solve_u64.
Qed.

Lemma add_at_comm s k1 n1 k2 n2 :
  add_at (add_at s k1 n1) k2 n2 = add_at (add_at s k2 n2) k1 n1.
Proof.
  unfold add_at; simpl. f_equal; [|solve_u64].
  destruct (decide (k1 = k2)) as [->|Hne].
  - rewrite !list_alter_alter_eq. apply list_eq. intros i.
    destruct (decide (k2 = i)) as [->|]; [|by rewrite !list_lookup_alter_ne].
    rewrite !list_lookup_alter_eq. destruct (buckets s !! i); [|done].
    cbn. f_equal. solve_u64.
  - by apply list_alter_alter_ne.
Qed.

Lemma add_at_Merge s o k n :
  length (buckets s) = length (buckets o) →
  Merge (add_at s k n) o = add_at (Merge s o) k n.
Proof.
  unfold Merge, add_at; cbn. intros Hl. f_equal; [|solve_u64].
  apply list_eq. intros i. rewrite lookup_zip_with.
  destruct (decide (k = i)) as [->|].
  - rewrite !list_lookup_alter_eq, lookup_zip_with.
    destruct (buckets s !! i), (buckets o !! i); cbn; try done. f_equal. solve_u64.
  - by rewrite !list_lookup_alter_ne, lookup_zip_with.
Qed.

(** ** Merging *)

Lemma zip_u64_comm l1 l2 :
  zip_with (λ a b, u64 (a + b)) l1 l2 = zip_with (λ a b, u64 (a + b)) l2 l1.
Proof.
  revert l2. induction l1 as [|a l1 IH]; intros [|b l2]; cbn; try done.
  by rewrite IH, Z.add_comm.
Qed.

Lemma Merge_comm s o : Merge s o = Merge o s.
Proof. unfold Merge. by rewrite zip_u64_comm, Z.add_comm. Qed.

Lemma zip_u64_assoc l1 l2 l3 :
  zip_with (λ a b, u64 (a + b)) (zip_with (λ a b, u64 (a + b)) l1 l2) l3 =
  zip_with (λ a b, u64 (a + b)) l1 (zip_with (λ a b, u64 (a + b)) l2 l3).
Proof.
  revert l2 l3. induction l1 as [|a l1 IH]; intros [|b l2] [|c l3]; cbn; try done.
  rewrite IH. f_equal. solve_u64.
Qed.

Lemma Merge_assoc s o p : Merge (Merge s o) p = Merge s (Merge o p).
Proof. unfold Merge; cbn. f_equal; [apply zip_u64_assoc | solve_u64]. Qed.

Lemma zip_u64_zeros n l :
  length l = n → Forall is_u64 l → zip_with (λ a b, u64 (a + b)) l (replicate n 0) = l.
Proof.
  revert n. induction l as [|a l IH]; intros [|n] Hl HF; cbn in *; try done.
  inversion HF; subst. rewrite Z.add_0_r, u64_small by done. f_equal. by apply IH; [lia|].
Qed.

Lemma Merge_New s : wf s → Merge s New = s.
Proof.
  intros [L F C]. destruct s as [bs n]; unfold Merge, New; cbn [buckets count] in *.
  rewrite zip_u64_zeros by done. f_equal.
  rewrite Z.add_0_r, C. apply u64_idemp.
Qed.

(** ** Feeding observations *)

(** A run of [Add]s. *)
Fixpoint AddAll `{MathLib} (vs : list f64) (s : DDSketch) : outcome DDSketch :=
  match vs with
  | [] => Ret s
  | v :: vs => (let! s' := Add s v in AddAll vs s')%go
  end.

Section feeding.
Context `{M : MathLib}.

(** [Add] is [add_at] at the position of the clamped value, when it does not panic. *)
Lemma Add_Ret s v s' :
  Add s v = Ret s' →
  let k := Z.to_nat (index (clamp v) - minIndex) in
  0 ≤ index (clamp v) - minIndex < Z.of_nat numBuckets ∧
  is_Some (buckets s !! k) ∧ s' = add_at s k 1.
Proof.
  unfold Add, add_at. intros H. cbn zeta.
  destruct (_ && _) eqn:E; [|done]. apply andb_true_iff in E as [E1%Z.leb_le E2%Z.ltb_lt].
  destruct (buckets s !! _) as [c|] eqn:Hc; [|done]. simplify_eq.
  split; [done|]. split; [by eexists|]. f_equal.
  rewrite (list_alter_at (λ b, u64 (b + 1)) _ _ _ Hc). done.
Qed.

Lemma Add_add_at s v :
  wf s → 0 ≤ index (clamp v) - minIndex < Z.of_nat numBuckets →
  Add s v = Ret (add_at s (Z.to_nat (index (clamp v) - minIndex)) 1).
Proof.
  intros [L _ _] Hk. unfold Add, add_at.
  destruct (_ && _) eqn:E; [|apply andb_false_iff in E; lia].
  destruct (lookup_lt_is_Some_2 (buckets s) (Z.to_nat (index (clamp v) - minIndex)))
    as [c Hc]; [lia|].
  rewrite Hc. by rewrite (list_alter_at (λ b, u64 (b + 1)) _ _ _ Hc).
Qed.

Lemma wf_Add s v s' : wf s → Add s v = Ret s' → wf s'.
Proof.
  intros Hwf (Hk & _ & ->)%Add_Ret. apply wf_add_at; [|done]. lia.
Qed.

Lemma wf_AddAll vs s s' : wf s → AddAll vs s = Ret s' → wf s'.
Proof.
  revert s. induction vs as [|v vs IH]; cbn; intros s Hwf H; [by simplify_eq|].
  destruct (Add s v) eqn:E; [|done]. cbn in H. eauto using wf_Add.
Qed.

Lemma AddAll_app vs ws s :
  AddAll (vs ++ ws) s = (let! s' := AddAll vs s in AddAll ws s')%go.
Proof.
  revert s. induction vs as [|v vs IH]; intros s; cbn; [done|].
  destruct (Add s v); cbn; [apply IH | done].
Qed.

(** Feeding commutes with merging a fixed sketch on the left. *)
Lemma AddAll_Merge vs s o b :
  wf s → wf o → AddAll vs s = Ret b → AddAll vs (Merge o s) = Ret (Merge o b).
Proof.
  revert s. induction vs as [|v vs IH]; cbn; intros s Hs Ho H; [by simplify_eq|].
  destruct (Add s v) as [s1|] eqn:E; [|done]. cbn in H.
  pose proof (Add_Ret _ _ _ E) as (Hk & _ & ->).
  rewrite Add_add_at by auto using wf_Merge. cbn.
  rewrite (Merge_comm o s), <-add_at_Merge, (Merge_comm _ o)
    by (by destruct Hs, Ho; congruence).
  apply IH; eauto using wf_Add.
Qed.
End feeding.

Lemma AddAll_split `{MathLib} vs ws a b :
  AddAll vs New = Ret a → AddAll ws New = Ret b → AddAll (vs ++ ws) New = Ret (Merge a b).
Proof.
  intros Ha Hb. rewrite AddAll_app, Ha. cbn.
  pose proof (wf_AddAll _ _ _ wf_New Ha) as Hwf.
  rewrite <-(Merge_New a) at 1 by done.
  by apply AddAll_Merge; [apply wf_New | done | done].
Qed.

(** [C21] Merging is exact: a sketch fed with two batches of latencies, in one go, is
    the merge of the two sketches fed with each batch. *)
Theorem merge_is_feeding `{MathLib} vs ws a b :
  AddAll vs New = Ret a → AddAll ws New = Ret b → AddAll (vs ++ ws) New = Ret (Merge a b).
Proof. apply AddAll_split. Qed.

Lemma merge_is_feeding_witness :
  ∃ a b, @AddAll go_math [0.010%float; 3%float] New = Ret a ∧
         @AddAll go_math [100%float] New = Ret b ∧
         @AddAll go_math [0.010%float; 3%float; 100%float] New = Ret (Merge a b).
Proof.
  destruct (@AddAll go_math [0.010%float; 3%float] New) as [a|] eqn:Ha; [|by vm_compute in Ha].
  destruct (@AddAll go_math [100%float] New) as [b|] eqn:Hb; [|by vm_compute in Hb].
  exists a, b. split; [done|]. split; [done|].
  exact (merge_is_feeding [0.010%float; 3%float] [100%float] a b Ha Hb).
Defined.

(** Merging is commutative and associative, with the empty sketch as unit: a
    rollup does not depend on the order or the grouping of the merges. *)
Theorem merge_monoid s o p :
  wf s → Merge s o = Merge o s ∧ Merge (Merge s o) p = Merge s (Merge o p) ∧ Merge s New = s.
Proof. auto using Merge_comm, Merge_assoc, Merge_New. Qed.

Lemma merge_monoid_witness :
  Merge New New = Merge New New ∧ Merge (Merge New New) New = Merge New (Merge New New) ∧
  Merge New New = New.
Proof. apply (merge_monoid New New New). apply wf_New. Defined.

(** ** The domain *)

(** What the package establishes of its mapping. [Span] is about the two bounds: the
    package's [init] refuses to start when the span does not fit the array, and the
    bounds are far inside [int32]; it holds of the evaluated mapping ([span_go]). *)
Class Span `{MathLib} : Prop := {
  span_nonneg : minIndex ≤ maxIndex;
  span_fits : maxIndex - minIndex + 1 ≤ Z.of_nat numBuckets;
  span_i32 : - 2 ^ 31 ≤ minIndex ∧ minIndex + Z.of_nat numBuckets < 2 ^ 31;
}.

Lemma span_go : @Span go_math.
Proof. split; vm_compute; [done | done | split; done]. Qed.

(** Every float, NaN and the infinities included, is clamped into the domain. *)
Lemma clamp_domain x :
  (MinValue <=? clamp x)%f64 = true ∧ (clamp x <=? MaxValue)%f64 = true.
Proof.
  unfold clamp. destruct (is_nan x) eqn:Hn; cbn [orb]; [split; f64_lit|].
  destruct (x <? MinValue)%f64 eqn:E1; [split; f64_lit|].
  destruct (MaxValue <? x)%f64 eqn:E2; [split; f64_lit|].
  split.
  - destruct (MinValue <=? x)%f64 eqn:E; [done|].
    apply leb_total in E; [congruence | f64_lit | done].
  - destruct (x <=? MaxValue)%f64 eqn:E; [done|].
    apply leb_total in E; [congruence | done | f64_lit].
Qed.

Section total.
Context {M : MathLib} {Hspan : @Span M}.

(** The one fact about the logarithm: inside the domain the index stays between the
    indices of the bounds, which is what a non-decreasing [math.Log] gives. *)
Definition log_nondecreasing : Prop := ∀ v,
  (MinValue <=? v)%f64 = true → (v <=? MaxValue)%f64 = true →
  minIndex ≤ index v ≤ maxIndex.

(** The positions above the domain's span stay empty. *)
Definition in_span (s : DDSketch) : Prop :=
  ∀ i, maxIndex - minIndex < Z.of_nat i → default 0 (buckets s !! i) = 0.

Lemma in_span_New : in_span New.
Proof.
  intros i _. unfold New; cbn [buckets].
  destruct (replicate numBuckets 0 !! i) eqn:E; [|done].
  by apply lookup_replicate in E as [-> _].
Qed.

Lemma in_span_add_at s k n :
  Z.of_nat k ≤ maxIndex - minIndex → in_span s → in_span (add_at s k n).
Proof.
  intros Hk Hs i Hi. cbn. rewrite list_lookup_alter_ne by lia. by apply Hs.
Qed.
End total.

Definition add_ok `{MathLib} (s s' : DDSketch) (v : f64) : Prop :=
  Add s v = Ret s' ∧ wf s' ∧ in_span s' ∧ s' = add_at s (Z.to_nat (index (clamp v) - minIndex)) 1.

Lemma Add_never_panics `{MathLib} `{!Span} s v :
  log_nondecreasing → wf s → in_span s → ∃ s', add_ok s s' v.
Proof.
  intros Hlog Hwf Hsp. destruct (clamp_domain v) as [H1 H2].
  specialize (Hlog _ H1 H2). pose proof span_fits.
  exists (add_at s (Z.to_nat (index (clamp v) - minIndex)) 1). split; [|split; [|split]].
  - apply Add_add_at; [done | lia].
  - apply wf_add_at; [lia | done].
  - apply in_span_add_at; [lia | done].
  - done.
Qed.

(** No sequence of latencies makes [Add] panic: whatever the floats (NaN, an
    infinity, a negative number), every clamped value's counter is inside the array,
    the total goes up by the number of values, and the sketch stays well formed. *)
Theorem Add_total `{MathLib} `{!Span} vs s :
  log_nondecreasing → wf s → in_span s →
  ∃ s', AddAll vs s = Ret s' ∧ wf s' ∧ in_span s' ∧
        count s' = u64 (count s + Z.of_nat (length vs)).
Proof.
  intros Hlog. revert s. induction vs as [|v vs IH]; intros s Hwf Hsp.
  - exists s. split; [done|]. split; [done|]. split; [done|]. rewrite (wf_count _ Hwf). cbn [length Z.of_nat].
    rewrite Z.add_0_r. by rewrite u64_idemp.
  - destruct (Add_never_panics s v Hlog Hwf Hsp) as (s1 & HA & Hwf1 & Hsp1 & Hs1).
    destruct (IH s1 Hwf1 Hsp1) as (s' & HAA & ? & ? & Hc).
    exists s'. cbn [AddAll]. rewrite HA. cbn [outcome_bind].
    split; [done|]. split; [done|]. split; [done|].
    rewrite Hc, Hs1. cbn [add_at count length]. autorewrite with go. f_equal. lia.
Qed.

(** A coarse non-decreasing logarithm, for which the hypotheses are checked by cases. *)
Definition step_math : MathLib := {|
  math_log x := if (x <? 1)%float then (-1)%float
                else if (x <? 1.005)%float then 0%float else 1%float;
  math_pow := go_pow |}.

Lemma step_span : @Span step_math.
Proof. split; vm_compute; [done | done | split; done]. Qed.

Lemma step_log_nondecreasing : @log_nondecreasing step_math.
Proof.
  intros v _ _. unfold index, step_math, math_log.
  destruct (v <? 1)%float; [vm_compute; split; done|].
  destruct (v <? 1.005)%float; vm_compute; split; done.
Qed.

Lemma Add_total_witness :
  ∃ s', @AddAll step_math [nan; infinity; (-1)%float; 0.25%float] New = Ret s' ∧ wf s' ∧
        @in_span step_math s' ∧ count s' = 4.
Proof.
  exact (@Add_total step_math step_span _ New step_log_nondecreasing wf_New
           (@in_span_New step_math)).
Defined.

(** ** Buckets and FromBuckets *)

Section wire.
Context {M : MathLib} {Hspan : @Span M}.

Lemma fromBuckets_step_add_at s k c :
  fromBuckets_step s (k, c) = add_at s (Z.to_nat (clampIndex k - minIndex)) c.
Proof. done. Qed.

Lemma clampIndex_range i : minIndex ≤ clampIndex i ≤ maxIndex.
Proof.
  unfold clampIndex. pose proof span_nonneg.
  destruct (Z.ltb_spec i minIndex); [lia|]. destruct (Z.ltb_spec maxIndex i); lia.
Qed.

Lemma clampIndex_id i : minIndex ≤ i ≤ maxIndex → clampIndex i = i.
Proof.
  unfold clampIndex. intros.
  destruct (Z.ltb_spec i minIndex); [lia|]. destruct (Z.ltb_spec maxIndex i); lia.
Qed.

Lemma fromBuckets_step_comm s kc kd :
  fromBuckets_step (fromBuckets_step s kc) kd = fromBuckets_step (fromBuckets_step s kd) kc.
Proof. destruct kc, kd. rewrite !fromBuckets_step_add_at. apply add_at_comm. Qed.

Lemma fromBuckets_list_perm l1 l2 :
  l1 ≡ₚ l2 → fromBuckets_list l1 = fromBuckets_list l2.
Proof.
  intros. apply fold_left_permutation; [|done]. intros. apply fromBuckets_step_comm.
Qed.

Lemma wf_fromBuckets_list l : wf (fromBuckets_list l) ∧ in_span (fromBuckets_list l).
Proof.
  apply (fold_left_invariant (λ s, wf s ∧ in_span s)); [auto using wf_New, in_span_New|].
  intros s [k c] [Hw Hs]. rewrite fromBuckets_step_add_at.
  pose proof (clampIndex_range k). pose proof span_fits.
  split; [apply wf_add_at | apply in_span_add_at]; solve [done | lia].
Qed.
End wire.

(** The non-zero counters of an array that starts at position [i], with their keys. *)
Fixpoint nonzero_from `{MathLib} (bs : list Z) (i : Z) : list (Z * Z) :=
  match bs with
  | [] => []
  | c :: bs => if c =? 0 then nonzero_from bs (i + 1)
               else (i + minIndex, c) :: nonzero_from bs (i + 1)
  end.

Section roundtrip.
Context {M : MathLib} {Hspan : @Span M}.

Lemma i32_key i : 0 ≤ i < Z.of_nat numBuckets → i32 (i + minIndex) = i + minIndex.
Proof. intros. pose proof span_i32. apply i32_small. unfold is_i32. lia. Qed.

Lemma buckets_from_enum bs i m :
  0 ≤ i → i + Z.of_nat (length bs) ≤ Z.of_nat numBuckets →
  (∀ j, i ≤ j → m !! (j + minIndex) = None) →
  map_to_list (buckets_from bs i m) ≡ₚ nonzero_from bs i ++ map_to_list m.
Proof.
  revert i m. induction bs as [|c bs IH]; intros i m Hi Hl Hm; cbn [buckets_from nonzero_from length] in *; [done|].
  destruct (Z.eqb_spec c 0) as [->|Hc].
  - apply IH; [lia | lia |]. intros j ?. apply Hm. lia.
  - rewrite i32_key by lia. rewrite IH; [|lia|lia|].
    + rewrite map_to_list_insert by (apply Hm; lia). symmetry. apply Permutation_middle.
    + intros j ?. rewrite lookup_insert_ne by lia. apply Hm. lia.
Qed.

(** Replaying the non-zero counters over an array of zeros rebuilds it. *)
Lemma replay_nonzero bs pre n :
  Forall is_u64 bs → is_u64 n → Z.of_nat (length pre + length bs) ≤ Z.of_nat numBuckets →
  (∀ j, maxIndex - minIndex < Z.of_nat (length pre + j) → default 0 (bs !! j) = 0) →
  fold_left fromBuckets_step (nonzero_from bs (Z.of_nat (length pre)))
    (mkSketch (pre ++ replicate (length bs) 0) n) =
  mkSketch (pre ++ bs) (u64 (n + sumZ bs)).
Proof.
  revert pre n. induction bs as [|c bs IH];
    intros pre n HF Hn Hl Hs; cbn [nonzero_from length] in *.
  { unfold sumZ; cbn. by rewrite Z.add_0_r, u64_small. }
  inversion HF as [|? ? Hc HF']; subst.
  replace (Z.of_nat (length pre) + 1) with (Z.of_nat (length (pre ++ [c])))
    by (rewrite length_app; cbn; lia).
  assert (Hs' : ∀ j, maxIndex - minIndex < Z.of_nat (length (pre ++ [c]) + j) →
                     default 0 (bs !! j) = 0).
  { intros j Hj. apply (Hs (S j)). rewrite length_app in Hj; cbn in Hj. lia. }
  assert (Hl' : Z.of_nat (length (pre ++ [c]) + length bs) ≤ Z.of_nat numBuckets)
    by (rewrite length_app; cbn; lia).
  cbn [replicate]. destruct (Z.eqb_spec c 0) as [->|Hc0].
  - specialize (IH (pre ++ [0]) n HF' Hn Hl' Hs'). rewrite <-!app_assoc in IH. done.
  - cbn [fold_left]. rewrite fromBuckets_step_add_at, clampIndex_id; cycle 1.
    { destruct (Z_le_gt_dec (Z.of_nat (length pre)) (maxIndex - minIndex)); [lia|].
      exfalso. apply Hc0. apply (Hs 0%nat). lia. }
    replace (Z.to_nat _) with (length pre + 0)%nat by lia.
    unfold add_at; cbn [buckets count]. rewrite alter_app_r.
    change (alter (λ b, u64 (b + c)) 0%nat (0 :: replicate (length bs) 0))
      with (u64 (0 + c) :: replicate (length bs) 0).
    rewrite Z.add_0_l, (u64_small c) by done.
    specialize (IH (pre ++ [c]) (u64 (n + c)) HF' (u64_range _) Hl' Hs').
    rewrite <-!app_assoc in IH. cbn [app] in IH. rewrite IH. f_equal.
    unfold sumZ; cbn. solve_u64.
Qed.
End roundtrip.

(** The wire form loses nothing: rebuilding a sketch from its sparse buckets gives
    the sketch back, array and total, whatever order the map is enumerated in. *)
Theorem FromBuckets_Buckets `{MathLib} `{!Span} s l :
  wf s → in_span s → l ≡ₚ map_to_list (Buckets s) → fromBuckets_list l = s.
Proof.
  intros [L F C] Hs ->%fromBuckets_list_perm. unfold Buckets.
  rewrite (fromBuckets_list_perm _ (nonzero_from (buckets s) 0)); cycle 1.
  { rewrite buckets_from_enum by (rewrite ?L; try lia; intros; apply lookup_empty).
    by rewrite map_to_list_empty, app_nil_r. }
  unfold fromBuckets_list, New. destruct s as [bs n]; cbn [buckets count] in *.
  pose proof (replay_nonzero bs [] 0 F) as Hr. cbn [length app Nat.add] in Hr.
  change (Z.of_nat 0) with 0 in Hr.
  rewrite <-L, Hr, C by (done || lia). done.
Qed.

Lemma FromBuckets_Buckets_witness :
  @fromBuckets_list go_math (map_to_list (@Buckets go_math New)) = New.
Proof.
  exact (@FromBuckets_Buckets go_math span_go New _ wf_New (@in_span_New go_math)
           (Permutation_refl _)).
Defined.

(** ** Quantiles *)

(** The scan both quantile functions perform, on an explicit list of counters. *)
Fixpoint walk (l : list (Z * Z)) (cum rank : Z) : option Z :=
  match l with
  | [] => None
  | (i, c) :: l =>
      let cum := u64 (cum + c) in
      if rank <=? cum then Some i else walk l cum rank
  end.

Lemma walk_app_not_reached l1 l2 cum rank :
  walk l1 cum rank = None →
  walk (l1 ++ l2) cum rank =
  walk l2 (fold_left (λ s kc, u64 (s + snd kc)) l1 cum) rank.
Proof.
  revert cum. induction l1 as [|[i c] l1 IH]; intros cum H; cbn in *; [done|].
  destruct (rank <=? u64 (cum + c)); [done|]. auto.
Qed.

(** With no overflow the scan stops at the first counter whose running sum reaches the
    rank, and it does stop when the rank is at most the total. *)
Lemma walk_spec l cum rank :
  Forall (λ kc, 0 ≤ snd kc) l → 0 ≤ cum → cum + sumZ l.*2 < 2 ^ 64 →
  cum < rank ≤ cum + sumZ l.*2 →
  ∃ l1 i c l2, l = l1 ++ (i, c) :: l2 ∧ walk l cum rank = Some i ∧
    cum + sumZ l1.*2 < rank ≤ cum + sumZ l1.*2 + c.
Proof.
  revert cum. induction l as [|[i c] l IH]; intros cum HF Hc Hs Hr; unfold sumZ in *; cbn in *; [lia|].
  inversion HF as [|? ? Hc0 HF']; subst; cbn in *.
  assert (0 ≤ foldr Z.add 0 l.*2) by (apply sumZ_nonneg, Forall_fmap; done).
  rewrite u64_small by (unfold is_u64; lia). destruct (Z.leb_spec rank (cum + c)).
  - exists [], i, c, l. cbn. split; [done|]. split; [done|]. lia.
  - destruct (IH (cum + c)) as (l1 & j & d & l2 & -> & Hw & Hb); [done|lia|lia|lia|].
    exists ((i, c) :: l1), j, d, l2. cbn. split; [done|]. split; [done|]. lia.
Qed.

Lemma quantile_walk_list bs i cum rank :
  quantile_walk bs i cum rank = walk (zip (seqZ i (Z.of_nat (length bs))) bs) cum rank.
Proof.
  revert i cum. induction bs as [|c bs IH]; intros i cum; [done|].
  cbn [length]. rewrite Nat2Z.inj_succ, seqZ_cons by lia. cbn.
  replace (Z.pred (Z.succ (Z.of_nat (length bs)))) with (Z.of_nat (length bs)) by lia.
  change (Z.succ i) with (i + 1). by rewrite IH.
Qed.

Lemma walk_offset o l cum rank :
  walk (prod_map (λ i, i + o) id <$> l) cum rank = (λ i, i + o) <$> walk l cum rank.
Proof.
  revert cum. induction l as [|[i c] l IH]; intros cum; cbn; [done|].
  destruct (rank <=? u64 (cum + c)); [done | apply IH].
Qed.

#[local] Arguments filter : simpl never.

(** Counters at zero are invisible to a scan that has not reached the rank. *)
Lemma walk_skip_zeros l cum rank :
  is_u64 cum → cum < rank →
  walk (filter (λ kc : Z * Z, snd kc ≠ 0) l) cum rank = walk l cum rank.
Proof.
  revert cum. induction l as [|[i c] l IH]; intros cum Hc Hr; [done|].
  rewrite filter_cons. cbn. case_decide as Hz; cbn.
  - destruct (Z.leb_spec rank (u64 (cum + c))); [done|]. apply IH; [apply u64_range | lia].
  - rewrite Hz, Z.add_0_r, u64_small by done.
    destruct (Z.leb_spec rank cum); [lia|]. by apply IH.
Qed.

Lemma quantileRank_range q total : 1 ≤ total → 1 ≤ quantileRank q total ≤ total.
Proof. unfold quantileRank. intros. lia. Qed.

Section quantile.
Context {M : MathLib} {Hspan : @Span M}.

Lemma sparse_walk_list m idxs cum rank :
  sparse_walk m idxs cum rank =
  walk (omap (λ i, pair i <$> m !! i32 i) idxs) cum rank.
Proof.
  revert cum. induction idxs as [|i idxs IH]; intros cum; cbn; [done|].
  destruct (m !! i32 i) as [c|]; cbn; [|done]. by rewrite IH.
Qed.

Lemma buckets_from_lookup bs i m j :
  0 ≤ i → i + Z.of_nat (length bs) ≤ Z.of_nat numBuckets → i ≤ j →
  buckets_from bs i m !! (j + minIndex) =
  match bs !! Z.to_nat (j - i) with
  | Some c => if decide (c = 0) then m !! (j + minIndex) else Some c
  | None => m !! (j + minIndex)
  end.
Proof.
  revert i m. induction bs as [|c bs IH]; intros i m Hi Hl Hj; cbn [buckets_from length] in *; [done|].
  rewrite i32_key by lia.
  destruct (decide (j = i)) as [->|].
  - replace (Z.to_nat (i - i)) with 0%nat by lia. cbn.
    assert (Hno : ∀ bs' i' m', i < i' → i' + Z.of_nat (length bs') ≤ Z.of_nat numBuckets →
              buckets_from bs' i' m' !! (i + minIndex) = m' !! (i + minIndex)).
    { clear -Hi Hspan. induction bs' as [|d bs' IH]; intros i' m' ? ?; cbn [buckets_from length] in *; [done|].
      rewrite IH by lia. destruct (d =? 0); [done|].
      rewrite i32_key by lia. by rewrite lookup_insert_ne by lia. }
    rewrite Hno by lia. destruct (Z.eqb_spec c 0), (decide (c = 0)); try done.
    by rewrite lookup_insert_eq.
  - rewrite IH by lia.
    replace (Z.to_nat (j - i)) with (S (Z.to_nat (j - (i + 1)))) by lia. cbn.
    assert (Hk : (if c =? 0 then m else <[i + minIndex:=c]> m) !! (j + minIndex) = m !! (j + minIndex)).
    { destruct (c =? 0); [done|]. by rewrite lookup_insert_ne by lia. }
    by rewrite Hk.
Qed.

(** The present indices of [Buckets s], scanned densely, are the non-zero counters. *)
Lemma dense_scan s n :
  length (buckets s) = numBuckets → 0 ≤ n ≤ Z.of_nat numBuckets →
  omap (λ i, pair i <$> Buckets s !! i32 i) (seqZ minIndex n) =
  filter (λ kc : Z * Z, snd kc ≠ 0)
    (prod_map (λ i, i + minIndex) id <$> zip (seqZ 0 n) (take (Z.to_nat n) (buckets s))).
Proof.
  intros L Hn. unfold Buckets.
  assert (Hgen : ∀ k a, 0 ≤ a → a + Z.of_nat k ≤ Z.of_nat numBuckets →
    omap (λ i, pair i <$> buckets_from (buckets s) 0 ∅ !! i32 i) (seqZ (a + minIndex) (Z.of_nat k)) =
    filter (λ kc : Z * Z, snd kc ≠ 0)
      (prod_map (λ i, i + minIndex) id <$>
         zip (seqZ a (Z.of_nat k)) (take k (drop (Z.to_nat a) (buckets s))))).
  { induction k as [|k IH]; intros a Ha Hk; [done|].
    rewrite Nat2Z.inj_succ, !seqZ_cons by lia.
    replace (Z.pred (Z.succ (Z.of_nat k))) with (Z.of_nat k) by lia.
    destruct (lookup_lt_is_Some_2 (buckets s) (Z.to_nat a)) as [c Hc]; [lia|].
    rewrite (drop_S _ _ _ Hc). cbn.
    rewrite i32_key, buckets_from_lookup by lia.
    replace (Z.to_nat (a - 0)) with (Z.to_nat a) by lia. rewrite Hc, lookup_empty.
    replace (Z.succ (a + minIndex)) with (Z.succ a + minIndex) by lia.
    rewrite IH by lia. replace (Z.to_nat (Z.succ a)) with (S (Z.to_nat a)) by lia.
    rewrite (seqZ_cons a) by lia. cbn. rewrite filter_cons.
    replace (Z.pred (Z.succ (Z.of_nat k))) with (Z.of_nat k) by lia. cbn.
    destruct (decide (c = 0)); case_decide; cbn; done. }
  specialize (Hgen (Z.to_nat n) 0). rewrite !Z2Nat.id in Hgen by lia.
  rewrite Z.add_0_l in Hgen. change (Z.to_nat 0) with 0%nat in Hgen. rewrite drop_0 in Hgen.
  apply Hgen; lia.
Qed.

Lemma map_total_sum m : map_total m = u64 (sumZ (map_to_list m).*2).
Proof.
  unfold map_total, sumZ.
  assert (Hg : ∀ (l : list (Z * Z)) t, is_u64 t →
    fold_left (λ t kc, u64 (t + snd kc)) l t = u64 (t + foldr Z.add 0 l.*2)).
  { induction l as [|[k c] l IH]; intros t Ht; cbn.
    - by rewrite Z.add_0_r, u64_small.
    - rewrite IH by apply u64_range. solve_u64. }
  by rewrite Hg.
Qed.

Lemma sum_nonzero bs i : sumZ (nonzero_from bs i).*2 = sumZ bs.
Proof.
  unfold sumZ. revert i. induction bs as [|c bs IH]; intros i; cbn; [done|].
  destruct (Z.eqb_spec c 0) as [->|]; cbn; by rewrite IH.
Qed.

Lemma map_total_Buckets s : wf s → map_total (Buckets s) = count s.
Proof.
  intros [L F C]. rewrite map_total_sum, C. unfold Buckets. f_equal.
  assert (Hp : (map_to_list (buckets_from (buckets s) 0 ∅)).*2 ≡ₚ (nonzero_from (buckets s) 0).*2).
  { rewrite buckets_from_enum by (rewrite ?L; try lia; intros; apply lookup_empty).
    by rewrite map_to_list_empty, app_nil_r. }
  by rewrite (sumZ_perm _ _ Hp), sum_nonzero.
Qed.
End quantile.

Lemma zip_seq_snd i (bs : list Z) : (zip (seqZ i (Z.of_nat (length bs))) bs).*2 = bs.
Proof. apply snd_zip. rewrite length_seqZ. lia. Qed.

Lemma zip_nonneg i bs :
  Forall is_u64 bs → Forall (λ kc : Z * Z, 0 ≤ snd kc) (zip (seqZ i (Z.of_nat (length bs))) bs).
Proof.
  intros HF. apply Forall_forall. intros [k c] Hin.
  apply elem_of_zip_r in Hin. rewrite Forall_forall in HF. destruct (HF _ Hin); done.
Qed.

(** The position [Quantile] stops at. *)
Lemma quantile_walk_spec bs rank :
  Forall is_u64 bs → sumZ bs < 2 ^ 64 → 1 ≤ rank ≤ sumZ bs →
  ∃ i, (i < length bs)%nat ∧ quantile_walk bs 0 0 rank = Some (Z.of_nat i) ∧
       sumZ (take i bs) < rank ≤ sumZ (take (S i) bs).
Proof.
  intros HF Hs Hr. rewrite quantile_walk_list.
  destruct (walk_spec (zip (seqZ 0 (Z.of_nat (length bs))) bs) 0 rank)
    as (l1 & i & c & l2 & Hz & Hw & Hb).
  - by apply zip_nonneg.
  - lia.
  - by rewrite zip_seq_snd.
  - rewrite zip_seq_snd; lia.
  - pose proof (f_equal (fmap snd) Hz) as Hbs. rewrite zip_seq_snd, fmap_app in Hbs.
    pose proof (f_equal (fmap fst) Hz) as His.
    rewrite fst_zip, fmap_app in His by (rewrite length_seqZ; lia). cbn in His, Hbs.
    assert (Hi : seqZ 0 (Z.of_nat (length bs)) !! length l1 = Some i).
    { rewrite His, lookup_app_r by (rewrite length_fmap; lia).
      by rewrite length_fmap, Nat.sub_diag. }
    apply lookup_seqZ in Hi as [-> Hi]. exists (length l1). split; [lia|].
    split; [by rewrite Hw|].
    assert (Ht : take (length l1) bs = l1.*2).
    { rewrite Hbs, <-(length_fmap snd l1). apply take_app_length. }
    assert (Ht' : take (S (length l1)) bs = l1.*2 ++ [c]).
    { rewrite Hbs, <-(length_fmap snd l1). rewrite take_app_ge by lia.
      by replace (S (length l1.*2) - length l1.*2)%nat with 1%nat by lia. }
    rewrite Ht, Ht', sumZ_app. unfold sumZ in *; cbn. lia.
Qed.

Lemma sum_nonneg s : wf s → 0 ≤ sumZ (buckets s).
Proof.
  intros [_ F _]. apply sumZ_nonneg. eapply Forall_impl; [exact F|]. by intros ? [].
Qed.

Lemma exact_count s : wf s → sumZ (buckets s) < 2 ^ 64 → count s = sumZ (buckets s).
Proof.
  intros Hwf ?. rewrite (wf_count _ Hwf). apply u64_small. split; [|done]. by apply sum_nonneg.
Qed.

(** [Quantile] returns the value of the least bucket whose cumulative count
    reaches the rank, and the rank is between 1 and the number of observations for
    every quantile argument, NaN and numbers outside [0,1] included. *)
Theorem Quantile_least_bucket `{MathLib} s q :
  wf s → sumZ (buckets s) < 2 ^ 64 → count s ≠ 0 →
  1 ≤ quantileRank q (count s) ≤ count s ∧
  ∃ i, (i < numBuckets)%nat ∧ Quantile s q = value (Z.of_nat i + minIndex) ∧
       sumZ (take i (buckets s)) < quantileRank q (count s) ≤ sumZ (take (S i) (buckets s)).
Proof.
  intros Hwf Hs Hn. pose proof (exact_count s Hwf Hs). pose proof (sum_nonneg s Hwf).
  pose proof Hwf as [L F _].
  assert (Hr : 1 ≤ quantileRank q (count s) ≤ count s) by (apply quantileRank_range; lia).
  split; [done|].
  destruct (quantile_walk_spec (buckets s) (quantileRank q (count s)))
    as (i & Hi & Hw & Hb); [done | done | lia |].
  exists i. split; [lia|]. split; [|done].
  unfold Quantile. rewrite Hw. by destruct (Z.eqb_spec (count s) 0).
Qed.

(** A sketch of two observations, one per bucket. *)
Definition two_obs : DDSketch := add_at (add_at New 10 1) 20 1.

Lemma wf_two_obs : wf two_obs.
Proof. unfold two_obs. repeat apply wf_add_at; try apply wf_New; unfold numBuckets; lia. Qed.

Lemma Quantile_least_bucket_witness :
  1 ≤ quantileRank 0.5%float (count two_obs) ≤ count two_obs ∧
  ∃ i, (i < numBuckets)%nat ∧
       @Quantile go_math two_obs 0.5%float = @value go_math (Z.of_nat i + @minIndex go_math) ∧
       sumZ (take i (buckets two_obs)) < quantileRank 0.5%float (count two_obs)
         ≤ sumZ (take (S i) (buckets two_obs)).
Proof.
  apply (@Quantile_least_bucket go_math two_obs 0.5%float wf_two_obs); vm_compute; done.
Defined.

Lemma quantile_walk_app l1 l2 i cum rank j :
  quantile_walk l1 i cum rank = Some j → quantile_walk (l1 ++ l2) i cum rank = Some j.
Proof.
  revert i cum. induction l1 as [|c l1 IH]; intros i cum H; cbn in *; [done|].
  destruct (rank <=? u64 (cum + c)); [done | auto].
Qed.

(** The counters above the span add nothing. *)
Lemma span_sum `{MathLib} s n :
  in_span s → maxIndex - minIndex < Z.of_nat n →
  sumZ (take n (buckets s)) = sumZ (buckets s).
Proof.
  intros Hsp Hn. rewrite <-(take_drop n (buckets s)) at 2. rewrite sumZ_app.
  assert (HF : Forall (λ c, c = 0) (drop n (buckets s))).
  { apply Forall_lookup. intros i c Hc. rewrite lookup_drop in Hc.
    specialize (Hsp (n + i)%nat). rewrite Hc in Hsp. apply Hsp. lia. }
  assert (sumZ (drop n (buckets s)) = 0); [|lia].
  unfold sumZ. induction HF; cbn; lia.
Qed.

Lemma sparse_quantile `{MathLib} `{!Span} s q :
  wf s → in_span s → sumZ (buckets s) < 2 ^ 64 →
  QuantileFromBuckets (Buckets s) q = Quantile s q.
Proof.
  intros Hwf Hsp Hs. pose proof Hwf as [L F _]. pose proof (exact_count s Hwf Hs).
  unfold QuantileFromBuckets, Quantile. rewrite map_total_Buckets by done.
  destruct (Z.eqb_spec (count s) 0) as [|Hne]; [done|].
  pose proof (sum_nonneg s Hwf). assert (Hr : 1 ≤ quantileRank q (count s) ≤ count s) by (apply quantileRank_range; lia).
  set (rank := quantileRank q (count s)) in *.
  pose proof span_nonneg. pose proof span_fits. set (n := maxIndex - minIndex + 1) in *.
  rewrite sparse_walk_list, dense_scan, walk_skip_zeros, walk_offset by (done || unfold is_u64; lia).
  pose proof (span_sum s (Z.to_nat n) Hsp ltac:(lia)) as Hsum.
  destruct (quantile_walk_spec (take (Z.to_nat n) (buckets s)) rank) as (i & Hi & Hw & _);
    [by apply Forall_take | lia | lia |].
  assert (Htl : length (take (Z.to_nat n) (buckets s)) = Z.to_nat n) by (rewrite length_take; lia).
  pose proof (quantile_walk_app _ (drop (Z.to_nat n) (buckets s)) _ _ _ _ Hw) as Hfull.
  rewrite take_drop in Hfull. rewrite Hfull.
  rewrite quantile_walk_list, Htl, Z2Nat.id in Hw by lia. by rewrite Hw.
Qed.

(** [C20] The two quantile functions agree: reading a quantile from the sparse wire
    buckets gives exactly what the sketch they came from gives, for every [q]. *)
Theorem QuantileFromBuckets_agrees `{MathLib} `{!Span} s q :
  wf s → in_span s → sumZ (buckets s) < 2 ^ 64 →
  QuantileFromBuckets (Buckets s) q = Quantile s q.
Proof. apply sparse_quantile. Qed.

Lemma QuantileFromBuckets_agrees_witness :
  @QuantileFromBuckets go_math (@Buckets go_math two_obs) 0.5%float =
  @Quantile go_math two_obs 0.5%float.
Proof.
  apply (@QuantileFromBuckets_agrees go_math span_go two_obs 0.5%float wf_two_obs).
  - unfold two_obs. repeat apply in_span_add_at; try apply in_span_New; vm_compute; done.
  - vm_compute. done.
Defined.

(** Outside the domain the two readings part: counts below [minIndex] are clamped
    into the lowest bucket by [FromBuckets], while [QuantileFromBuckets] counts them in
    the total but never meets them, and so answers with the highest bucket. *)
Theorem out_of_domain_divergence :
  let m : gmap Z Z := {[ -2000 := 5 ]} in
  @QuantileFromBuckets go_math m 0.5%float = @value go_math 412 ∧
  @Quantile go_math (@FromBuckets go_math m) 0.5%float = @value go_math (-1388).
Proof. vm_compute. done. Qed.
