(* ===== verification/Ring.v ===== *)
(** * The pending-upload ring (client/internal/buffer/buffer.go)

    The ring is a circular array with a head and a count. It is modelled slot by slot
    and proved to refine a bounded queue that drops its oldest element when full.
    Indices are [nat]: the code keeps them in [0, cap), and the section proves it. *)

From Stdlib Require Import Lia.
From stdpp Require Import base option strings list.
From S2P Require Import Prelude.

(** A slot is [None] when it holds the nil pointer. *)
Record Ring (A : Type) := mkRing { buf : list (option A); head : nat; rcount : nat }.
Arguments mkRing {A} _ _ _.
Arguments buf {A} _.
Arguments head {A} _.
Arguments rcount {A} _.

Section ring.
Context {A : Type}.
Implicit Types r : Ring A.

(** [New capacity]: below 1 the capacity is clamped to 1. *)
Definition NewRing (capacity : Z) : Ring A :=
  let capacity := if (capacity <? 1)%Z then 1%Z else capacity in
  mkRing (replicate (Z.to_nat capacity) None) 0 0.

(** The eviction at the start of [Push]: on a full ring the oldest element leaves, its
    slot is niled out and the head moves. *)
Definition evict r : Ring A * option A :=
  if (rcount r =? length (buf r))%nat then
    (mkRing (<[head r := None]> (buf r)) ((head r + 1) mod length (buf r)) (rcount r - 1),
     mjoin (buf r !! head r))
  else (r, None).

Definition Push r (req : A) : Ring A * option A :=
  let '(r1, evicted) := evict r in
  let tail := (head r1 + rcount r1) mod length (buf r1) in
  (mkRing (<[tail := Some req]> (buf r1)) (head r1) (rcount r1 + 1), evicted).

Definition Peek r : option A :=
  if (rcount r =? 0)%nat then None else mjoin (buf r !! head r).

Definition PopOldest r : Ring A * option A :=
  if (rcount r =? 0)%nat then (r, None)
  else (mkRing (<[head r := None]> (buf r)) ((head r + 1) mod length (buf r)) (rcount r - 1),
        mjoin (buf r !! head r)).

Definition Len r : nat := rcount r.

(** ** Refinement of a bounded queue *)

Definition cap r : nat := length (buf r).

(** The array position of the [i]-th oldest element. *)
Definition pos r (i : nat) : nat := (head r + i) mod cap r.

(** [rel r xs]: the ring holds [xs], oldest first. The slots from the head on hold the
    elements in order, and every other slot is nil, so the array pins nothing else. *)
Record rel r (xs : list A) : Prop := {
  rel_cap : 0 < cap r;
  rel_head : head r < cap r;
  rel_len : rcount r = length xs;
  rel_bound : length xs ≤ cap r;
  rel_full : ∀ i x, xs !! i = Some x → buf r !! pos r i = Some (Some x);
  rel_free : ∀ i, length xs ≤ i < cap r → buf r !! pos r i = Some None;
}.

Lemma mod_wrap c i : 0 < c → i < c + c → i mod c = if decide (i < c) then i else i - c.
Proof.
  intros Hc Hi. case_decide as H; [by apply Nat.mod_small|].
  replace i with ((i - c) + 1 * c) at 1 by lia.
  rewrite Nat.Div0.mod_add. apply Nat.mod_small. lia.
Qed.

(** Distinct offsets are distinct slots. *)
Lemma pos_inj r i j : head r < cap r → i < cap r → j < cap r → pos r i = pos r j → i = j.
Proof.
  intros Hh Hi Hj. unfold pos. rewrite !mod_wrap by lia. repeat case_decide; lia.
Qed.

Lemma pos_lt r i : head r < cap r → pos r i < cap r.
Proof. intros. apply Nat.mod_upper_bound. lia. Qed.

Lemma pos_0 r : head r < cap r → pos r 0 = head r.
Proof. intros. unfold pos. rewrite Nat.add_0_r. by apply Nat.mod_small. Qed.

Lemma rel_New c : rel (NewRing c) [].
Proof.
  unfold NewRing. set (c' := if (c <? 1)%Z then 1%Z else c).
  assert (Hc : 0 < Z.to_nat c') by (subst c'; destruct (Z.ltb_spec c 1); lia).
  split; unfold cap, pos; cbn; rewrite ?length_replicate; try lia; try done.
  intros i [_ Hi]. apply lookup_replicate. split; [done|]. apply Nat.mod_upper_bound. lia.
Qed.

(** Removing the oldest element: the step [Push] and [PopOldest] share. *)
Definition drop_head r : Ring A :=
  mkRing (<[head r := None]> (buf r)) ((head r + 1) mod length (buf r)) (rcount r - 1).

Lemma rel_drop_head r x xs :
  rel r (x :: xs) → rel (drop_head r) xs ∧ mjoin (buf r !! head r) = Some x.
Proof.
  intros [Hc Hh Hl Hb Hf Hn]. cbn in Hl, Hb.
  assert (Hcap : cap (drop_head r) = cap r) by (unfold cap; apply length_insert).
  assert (Hpos : ∀ i, S i ≤ cap r → pos (drop_head r) i = pos r (S i)).
  { intros i Hi. unfold pos. rewrite Hcap. cbn. fold (cap r).
    rewrite (mod_wrap (cap r) (head r + 1)), !mod_wrap by (repeat case_decide; lia).
    repeat case_decide; lia. }
  assert (Hother : ∀ i, 0 < i < cap r → buf (drop_head r) !! pos r i = buf r !! pos r i).
  { intros i Hi. cbn. apply list_lookup_insert_ne. rewrite <-pos_0 by done.
    intros Heq. apply pos_inj in Heq; lia. }
  split.
  - split; rewrite ?Hcap; try lia.
    + cbn. apply Nat.mod_upper_bound. unfold cap in Hc. lia.
    + cbn. lia.
    + intros i y Hy. pose proof (lookup_lt_Some _ _ _ Hy).
      rewrite Hpos, Hother by lia. by apply Hf.
    + intros i Hi. rewrite Hpos by lia. destruct (decide (S i = cap r)) as [He|].
      * rewrite He. unfold pos. rewrite mod_wrap by lia. case_decide; [lia|].
        replace (head r + cap r - cap r) with (head r) by lia. cbn.
        by apply list_lookup_insert_eq.
      * rewrite Hother by lia. apply Hn. cbn. lia.
  - specialize (Hf 0 x eq_refl). rewrite pos_0 in Hf by done. by rewrite Hf.
Qed.

(** Writing the slot past the newest element: the other half of [Push]. *)
Lemma rel_append r xs x :
  rel r xs → length xs < cap r →
  rel (mkRing (<[(head r + rcount r) mod length (buf r) := Some x]> (buf r)) (head r) (rcount r + 1))
      (xs ++ [x]).
Proof.
  intros [Hc Hh Hl Hb Hf Hn] Hroom.
  change ((head r + rcount r) mod length (buf r)) with (pos r (rcount r)).
  set (r' := mkRing _ _ _).
  assert (Hcap : cap r' = cap r) by (unfold cap; apply length_insert).
  assert (Hpos : ∀ i, pos r' i = pos r i) by (intros; unfold pos; by rewrite Hcap).
  assert (Hother : ∀ i, i ≠ rcount r → i < cap r → buf r' !! pos r i = buf r !! pos r i).
  { intros i Hi Hic. apply list_lookup_insert_ne. intros Heq. apply pos_inj in Heq; lia. }
  split; rewrite ?Hcap, ?length_app; cbn; try lia.
  - intros i y Hy. rewrite Hpos. apply lookup_app_Some in Hy as [Hy|[Hi Hy]].
    + pose proof (lookup_lt_Some _ _ _ Hy). rewrite Hother by lia. by apply Hf.
    + apply list_lookup_singleton_Some in Hy as [Hi0 <-].
      replace i with (rcount r) by lia. apply list_lookup_insert_eq. by apply pos_lt.
  - intros i Hi. rewrite Hpos, Hother by lia. apply Hn. lia.
Qed.

(** ** The abstract queue *)

(** Bounded, drop-oldest. *)
Definition q_push (c : nat) (xs : list A) (x : A) : list A * option A :=
  if (length xs =? c)%nat then (tail xs ++ [x], hd_error xs) else (xs ++ [x], None).

Definition q_pop (xs : list A) : list A * option A := (tail xs, hd_error xs).

Lemma Push_refines r xs x :
  rel r xs → rel (Push r x).1 (q_push (cap r) xs x).1 ∧
             (Push r x).2 = (q_push (cap r) xs x).2 ∧ cap (Push r x).1 = cap r.
Proof.
  intros Hr. pose proof Hr as [Hc Hh Hl Hb _ _]. unfold Push, evict, q_push. fold (cap r).
  rewrite <-Hl. destruct (Nat.eqb_spec (rcount r) (cap r)) as [Heq|Hne]; cbn.
  - destruct xs as [|y xs]; [cbn in *; lia|].
    destruct (rel_drop_head _ _ _ Hr) as [Hd He]. cbn [tail hd_error].
    split; [apply (rel_append (drop_head r)); [done|]|].
    + unfold cap, drop_head; cbn. rewrite length_insert. fold (cap r). cbn in Hl. lia.
    + split; [done|]. unfold cap; cbn. by rewrite !length_insert.
  - split; [apply rel_append; [done | lia]|]. split; [done|].
    unfold cap; cbn. by rewrite length_insert.
Qed.

Lemma PopOldest_refines r xs :
  rel r xs → rel (PopOldest r).1 (q_pop xs).1 ∧ (PopOldest r).2 = (q_pop xs).2 ∧
             cap (PopOldest r).1 = cap r.
Proof.
  intros Hr. pose proof Hr as [_ _ Hl _ _ _]. unfold PopOldest, q_pop.
  destruct (Nat.eqb_spec (rcount r) 0) as [H0|H0]; destruct xs as [|x xs]; cbn in *; try lia.
  - done.
  - destruct (rel_drop_head _ _ _ Hr) as [Hd He]. split; [done|]. split; [done|].
    unfold cap; cbn. by rewrite length_insert.
Qed.

Lemma Peek_refines r xs : rel r xs → Peek r = hd_error xs ∧ Len r = length xs.
Proof.
  intros Hr. pose proof Hr as [_ _ Hl _ _ _]. unfold Peek, Len. split; [|done].
  destruct (Nat.eqb_spec (rcount r) 0) as [H0|H0]; destruct xs as [|x xs]; cbn in *; try lia; [done|].
  by destruct (rel_drop_head _ _ _ Hr).
Qed.

(** ** Runs *)

Inductive op := OPush (x : A) | OPeek | OPop | OLen.
Inductive answer := AReq (x : option A) | ALen (n : nat).

Definition ring_op r (o : op) : Ring A * answer :=
  match o with
  | OPush x => let '(r', e) := Push r x in (r', AReq e)
  | OPeek => (r, AReq (Peek r))
  | OPop => let '(r', e) := PopOldest r in (r', AReq e)
  | OLen => (r, ALen (Len r))
  end.

Definition queue_op (c : nat) (xs : list A) (o : op) : list A * answer :=
  match o with
  | OPush x => let '(xs', e) := q_push c xs x in (xs', AReq e)
  | OPeek => (xs, AReq (hd_error xs))
  | OPop => let '(xs', e) := q_pop xs in (xs', AReq e)
  | OLen => (xs, ALen (length xs))
  end.

Fixpoint run {S} (f : S → op → S * answer) (s : S) (ops : list op) : list answer :=
  match ops with
  | [] => []
  | o :: ops => let '(s', a) := f s o in a :: run f s' ops
  end.

Lemma ring_op_refines r xs o :
  rel r xs → rel (ring_op r o).1 (queue_op (cap r) xs o).1 ∧
             (ring_op r o).2 = (queue_op (cap r) xs o).2 ∧ cap (ring_op r o).1 = cap r.
Proof.
  intros Hr. destruct o; cbn [ring_op queue_op].
  - destruct (Push_refines r xs x Hr) as (H1 & H2 & H3).
    destruct (Push r x), (q_push (cap r) xs x); cbn in *. by subst.
  - destruct (Peek_refines r xs Hr) as [-> _]. done.
  - destruct (PopOldest_refines r xs Hr) as (H1 & H2 & H3).
    destruct (PopOldest r), (q_pop xs); cbn in *. by subst.
  - destruct (Peek_refines r xs Hr) as [_ ->]. done.
Qed.

Lemma run_refines ops r xs : rel r xs → run ring_op r ops = run (queue_op (cap r)) xs ops.
Proof.
  revert r xs. induction ops as [|o ops IH]; intros r xs Hr; [done|]. cbn [run].
  destruct (ring_op_refines r xs o Hr) as (H1 & H2 & H3).
  destruct (ring_op r o) as [r' a], (queue_op (cap r) xs o) as [xs' a']; cbn in *.
  subst. f_equal. rewrite (IH r' xs' H1). by rewrite H3.
Qed.
End ring.

(** For every capacity and every sequence of operations the ring answers exactly as
    a bounded queue that, when full, gives up its oldest element to a push; a
    capacity below one behaves as one. *)
Theorem ring_refines_queue {A} (c : Z) (ops : list (@op A)) :
  run ring_op (NewRing c) ops = run (queue_op (Z.to_nat (Z.max 1 c))) [] ops.
Proof.
  rewrite (run_refines ops _ _ (rel_New c)). f_equal. f_equal.
  unfold cap, NewRing; cbn. rewrite length_replicate. destruct (Z.ltb_spec c 1); lia.
Qed.

Example ring_drops_oldest :
  run ring_op (NewRing 2) [OPush 1; OPush 2; OPush 3; OPop; OLen] =
  [AReq None; AReq None; AReq (Some 1); AReq (Some 2); ALen 1].
Proof. vm_compute. done. Qed.
