(* ===== verification/Sampler.v ===== *)
(** * The resource sampler (client/sampler.go and the platform readers)

    One reading of the runtime per flush window; cumulative counters are reported as the
    difference with the previous reading. What the runtime and the kernel return is an
    input ([Reading]). *)

From Stdlib Require Import ZArith Lia Floats Ascii.
From stdpp Require Import base option gmap strings list.
From S2P Require Import Prelude GoFloat GoString GoTime Wire.

Local Open Scope Z_scope.

(** [runtime.MemStats], [metrics.Read] and the readers of the platform files. *)
Record Reading := mkReading {
  PauseTotalNs : Z; NumGC : Z; TotalAlloc : Z; Mallocs : Z;
  Sys : Z; HeapAlloc : Z; GCCPUFraction : f64; HeapInuse : Z;
  cpuTimeNs : Z; liveHeap : option Z; (* KindUint64 or not *)
  NumGoroutine : Z; GOMAXPROCS : Z; rss : Z; fds : Z * Z;
}.

Record sampler := mkSampler {
  prevPauseTotalNs : Z; prevCPUNs : Z; prevNumGC : Z; prevTotalAlloc : Z; prevMallocs : Z;
  primed : bool;
}.

Definition new_sampler : sampler := mkSampler 0 0 0 0 0 false.

Definition sample (s : sampler) (start end_ : Time) (inFlight : Z) (ms : Reading)
  : sampler * InstanceWindow :=
  let cpu := cpuTimeNs ms in
  let delta now prev := if primed s then u64 (now - prev) else 0 in
  let cpuDelta := if prevCPUNs s <=? cpu then delta cpu (prevCPUNs s) else 0 in
  (mkSampler (PauseTotalNs ms) cpu (NumGC ms) (TotalAlloc ms) (Mallocs ms) true,
   mkInstanceWindow (to_unix_milli start) (to_unix_milli end_)
     cpuDelta (Sys ms) (HeapAlloc ms) (delta (PauseTotalNs ms) (prevPauseTotalNs s))
     (u64 (NumGoroutine ms)) (delta (NumGC ms) (prevNumGC s))
     (delta (TotalAlloc ms) (prevTotalAlloc s)) (delta (Mallocs ms) (prevMallocs s))
     (GCCPUFraction ms) (HeapInuse ms) (u32 (GOMAXPROCS ms)) (default 0 (liveHeap ms))
     (rss ms) (fds ms).1 (fds ms).2 inFlight).

(** ** Platform readers *)

(** [getrusage] fails, or gives the user and system times as (sec, usec). *)
Definition tvNanos (tv : Z * Z) : Z := u64 (i64 (tv.1 * 1000000000 + tv.2 * 1000)).
Definition cpu_of_rusage (ru : option ((Z * Z) * (Z * Z))) : Z :=
  match ru with
  | None => 0
  | Some (utime, stime) => u64 (tvNanos utime + tvNanos stime)
  end.

Definition fdStats (entries : option nat) (rlim : option Z) : Z * Z :=
  (match entries with Some n => Z.of_nat n | None => 0 end, default 0 rlim).

(** [strings.Fields] on ASCII white space. *)
Fixpoint fields (l cur : list ascii) : list (list ascii) :=
  match l with
  | [] => match cur with [] => [] | _ => [rev cur] end
  | a :: l =>
      if is_space a then match cur with [] => fields l [] | _ => rev cur :: fields l [] end
      else fields l (a :: cur)
  end.

(** [strconv.ParseUint] in base 10, 64 bits. *)
Definition ParseUint (l : list ascii) : option Z :=
  match l with
  | [] => None
  | _ => n ← digits_value l 0; if n <? 2 ^ 64 then Some n else None
  end.

Definition rssBytes (statm : option (list ascii)) (pagesize : Z) : Z :=
  match statm with
  | None => 0
  | Some data =>
      match fields data [] with
      | _ :: f :: _ => match ParseUint f with Some pages => u64 (pages * u64 pagesize) | None => 0 end
      | _ => 0
      end
  end.

Example rssBytes_ex : rssBytes (Some (bytes_of "300 120 80 1 0 40 0")) 4096 = 491520.
Proof. vm_compute. done. Qed.

(** ** The deltas add up *)

Fixpoint samples (s : sampler) (rs : list Reading) : list InstanceWindow :=
  match rs with
  | [] => []
  | r :: rs => let '(s', w) := sample s 0 0 0 r in w :: samples s' rs
  end.

(** A counter of the runtime over the readings: its field in a reading and in a window. *)
Inductive counter := Pause | GCs | Allocs | Mallocated | CPU.

Definition reading_of (c : counter) (r : Reading) : Z :=
  match c with
  | Pause => PauseTotalNs r | GCs => NumGC r | Allocs => TotalAlloc r
  | Mallocated => Mallocs r | CPU => cpuTimeNs r
  end.
Definition window_of (c : counter) (w : InstanceWindow) : Z :=
  match c with
  | Pause => iw_gc_pause_ns w | GCs => iw_num_gc w | Allocs => iw_total_alloc_bytes w
  | Mallocated => iw_mallocs w | CPU => iw_cpu_ns w
  end.
Definition prev_of (c : counter) (s : sampler) : Z :=
  match c with
  | Pause => prevPauseTotalNs s | GCs => prevNumGC s | Allocs => prevTotalAlloc s
  | Mallocated => prevMallocs s | CPU => prevCPUNs s
  end.

(** The counter never decreases along the readings, from [z] on. *)
Fixpoint rising (c : counter) (z : Z) (rs : list Reading) : Prop :=
  match rs with
  | [] => True
  | r :: rs => z ≤ reading_of c r < 2 ^ 64 ∧ rising c (reading_of c r) rs
  end.

Lemma sample_delta c s r :
  primed s = true → prev_of c s ≤ reading_of c r →
  window_of c (sample s 0 0 0 r).2 = u64 (reading_of c r - prev_of c s) ∧
  prev_of c (sample s 0 0 0 r).1 = reading_of c r ∧ primed (sample s 0 0 0 r).1 = true.
Proof.
  intros Hp Hle. unfold sample. cbn. rewrite Hp. destruct c; cbn in *; try done.
  by rewrite (proj2 (Z.leb_le _ _) Hle).
Qed.

Lemma samples_sum c s rs :
  primed s = true → 0 ≤ prev_of c s → rising c (prev_of c s) rs →
  sumZ (window_of c <$> samples s rs) =
  match last rs with Some r => reading_of c r - prev_of c s | None => 0 end.
Proof.
  revert s. induction rs as [|r rs IH]; intros s Hp H0 Hr; [done|]. destruct Hr as [[Hle Hlt] Hr].
  destruct (sample_delta c s r Hp Hle) as (Hw & Hprev & Hp'). cbn [samples].
  destruct (sample s 0 0 0 r) as [s' w]. cbn [fst snd] in *. rewrite fmap_cons.
  change (sumZ (window_of c w :: (window_of c <$> samples s' rs)))
    with (window_of c w + sumZ (window_of c <$> samples s' rs)).
  rewrite IH, Hw, Hprev by (try rewrite Hprev; done || lia).
  rewrite u64_small by (unfold is_u64; lia).
  destruct rs as [|r2 rs]; [cbn; lia|]. change (last (r :: r2 :: rs)) with (last (r2 :: rs)).
  destruct (last (r2 :: rs)) eqn:E; [lia|]. by apply last_None in E.
Qed.

(** The per-window gauges of a cumulative counter add up: the first window reports
    zero, and over any later windows the reported differences of a counter that does not
    decrease sum to its last reading minus its first. *)
Theorem deltas_telescope c r0 rs :
  0 ≤ reading_of c r0 → rising c (reading_of c r0) rs →
  match samples new_sampler (r0 :: rs) with
  | [] => False
  | w :: ws => window_of c w = 0 ∧
      sumZ (window_of c <$> ws) = default (reading_of c r0) (reading_of c <$> last rs) - reading_of c r0
  end.
Proof.
  intros H0 Hr. cbn [samples]. set (p := sample new_sampler 0 0 0 r0).
  assert (Hp : prev_of c p.1 = reading_of c r0 ∧ primed p.1 = true ∧ window_of c p.2 = 0).
  { subst p. unfold sample. cbn. destruct c; cbn; try done. by destruct (0 <=? _). }
  destruct p as [s w]. cbn [fst snd] in Hp. destruct Hp as (Hprev & Hpr & Hw).
  split; [done|]. rewrite samples_sum; rewrite ?Hprev; try done.
  destruct (last rs); cbn; lia.
Qed.

Definition reading_at (n : Z) : Reading := mkReading n n n n 0 0 0%float 0 n None 1 1 0 (0, 0).

Lemma deltas_telescope_witness :
  match samples new_sampler [reading_at 5; reading_at 9; reading_at 30] with
  | [] => False
  | w :: ws => iw_cpu_ns w = 0 ∧ sumZ (iw_cpu_ns <$> ws) = 25
  end.
Proof. apply (deltas_telescope CPU (reading_at 5) [reading_at 9; reading_at 30]); cbn; lia. Defined.
