(* ===== verification/Series.v ===== *)
(** * One time series of the client (client/series.go)

    The record an adapter hands over, the per-series aggregate and the functions that
    fold a record into it. Maps with a cap are finite maps; the exemplar reservoir is
    the inline array of the code, kept as the list of its filled slots. *)

From Stdlib Require Import ZArith Lia ZifyBool Ascii Floats.
From stdpp Require Import base option gmap sets strings list.
From S2P Require Import Prelude GoFloat GoTime GoString GoMath Wire Sketch.

Local Open Scope Z_scope.

Definition maxStatusCodes : nat := 20.
Definition maxErrorClasses : nat := 20.
Definition maxErrorClassLen : nat := 64.
Definition maxErrorExemplars : nat := 2.
Definition NoStatusOther : Z := 5.

Record Observation := mkObs {
  Method : string; RouteTemplate : string; Status : Z; ObsDuration : Duration;
  ReqBytes : Z; RespBytes : Z; TraceID : string; SpanID : string; RequestID : string;
  ErrorClass : string; NoStatusReason : Z; DownstreamDuration : Duration;
}.

Record exemplar := mkEx {
  atMs : Z; durationNs : Z; statusCode : Z;
  traceID : string; spanID : string; requestID : string;
}.

#[export] Instance exemplar_eq_dec : EqDecision exemplar.
Proof. solve_decision. Defined.

Definition exemplarOf (rec : Observation) (now : Time) : exemplar :=
  let code := if 0 <? Status rec then u32 (Status rec) else 0 in
  let dur := if 0 <? ObsDuration rec then u64 (ObsDuration rec) else 0 in
  mkEx (to_unix_milli now) dur code (TraceID rec) (SpanID rec) (RequestID rec).

Definition isError (status : Z) : bool := (status <=? 0) || (400 <=? status).

(** ** Error labels *)

Definition asciiUpperAlnum (c : ascii) : option ascii :=
  let z := byte_of c in
  if (97 <=? z) && (z <=? 122) then Some (ascii_of (z - (97 - 65)))
  else if ((65 <=? z) && (z <=? 90)) || ((48 <=? z) && (z <=? 57)) then Some c
  else None.

Definition underscore : ascii := "_"%char.

(** The loop of [sanitizeErrorClass]: [b] is the builder, newest byte first. *)
Fixpoint sanitize_loop (s b : list ascii) (prevUnderscore : bool) : list ascii :=
  match s with
  | [] => b
  | c :: s =>
      if (length b <? maxErrorClassLen)%nat then
        match asciiUpperAlnum c with
        | Some u => sanitize_loop s (u :: b) false
        | None =>
            if (0 <? length b)%nat && negb prevUnderscore
            then sanitize_loop s (underscore :: b) true
            else sanitize_loop s b prevUnderscore
        end
      else b
  end.

Definition sanitizeErrorClass (s : string) : string :=
  if bool_decide (s = ""%string) then ""%string
  else TrimRight (of_bytes (rev (sanitize_loop (bytes_of s) [] false))) underscore.

Definition recordErrorClass (classes : gmap string Z) (raw : string) : gmap string Z :=
  let label := sanitizeErrorClass raw in
  if bool_decide (label = ""%string) then classes
  else match classes !! label with
       | None => if (maxErrorClasses <=? size classes)%nat then classes else bump classes label 1
       | Some _ => bump classes label 1
       end.

Definition recordNoStatusReason (reasons : gmap Z Z) (r : Z) : gmap Z Z :=
  let r := if NoStatusOther <? r then NoStatusOther else r in
  bump reasons (u32 r) 1.

Definition recordCode (codes : gmap Z Z) (status : Z) : gmap Z Z :=
  if status <=? 0 then codes
  else
    let code := u32 status in
    match codes !! code with
    | None => if (maxStatusCodes <=? size codes)%nat then codes else bump codes code 1
    | Some _ => bump codes code 1
    end.

Definition classify (status : Z) : StatusClass :=
  if (status <=? 0) || (status <? 100) then SC_NO_STATUS
  else if status <? 300 then SC_2XX
  else if status <? 400 then SC_3XX
  else if status <? 500 then SC_4XX
  else SC_5XX.

(** ** The series key *)

Record seriesKey := mkKey { key_method : string; key_route : string; key_class : StatusClass }.

#[export] Instance seriesKey_eq_dec : EqDecision seriesKey.
Proof. solve_decision. Defined.
#[export] Instance seriesKey_countable : Countable seriesKey.
Proof.
  apply (inj_countable' (λ k, (key_method k, key_route k, key_class k))
                        (λ t, mkKey t.1.1 t.1.2 t.2)).
  by intros [].
Defined.

Definition obs_key (rec : Observation) : seriesKey :=
  mkKey (Method rec) (RouteTemplate rec) (classify (Status rec)).

#[global] Arguments obs_key : simpl never.

(** FNV-1a over the key, in [uint32]. *)
Definition fnv_offset : Z := 2166136261.
Definition fnv_prime : Z := 16777619.
Definition fnv_step (h b : Z) : Z := u32 (Z.lxor h b * fnv_prime).

Definition hash (k : seriesKey) : Z :=
  let h := fold_left fnv_step (byte_of <$> bytes_of (key_method k)) fnv_offset in
  let h := fold_left fnv_step (byte_of <$> bytes_of (key_route k)) h in
  let c := u32 (StatusClass_number (key_class k)) in
  let h := fnv_step h (Z.land c 255) in
  fnv_step h (Z.land (Z.shiftr c 8) 255).

(** ** The aggregate *)

Record series := mkSeries {
  count : Z; sumDurationNs : Z; reqBytes : Z; respBytes : Z; maxDurationNs : Z;
  sk : DDSketch; codes : gmap Z Z; errorClasses : gmap string Z; noStatusReasons : gmap Z Z;
  sumDownstreamNs : Z;
  slowest : option exemplar; (* [None]: hasSlowest is false *)
  errs : list exemplar;      (* errs[0 .. nErrs-1] *)
}.

Definition new_series : series := mkSeries 0 0 0 0 0 New ∅ ∅ ∅ 0 None [].

Definition observeExemplar (s : series) (rec : Observation) (ex : exemplar) : series :=
  mkSeries (count s) (sumDurationNs s) (reqBytes s) (respBytes s)
    (if maxDurationNs s <? durationNs ex then durationNs ex else maxDurationNs s)
    (sk s) (codes s) (errorClasses s) (noStatusReasons s) (sumDownstreamNs s)
    (match slowest s with
     | None => Some ex
     | Some old => if durationNs old <? durationNs ex then Some ex else slowest s
     end)
    (if isError (Status rec) && (length (errs s) <? maxErrorExemplars)%nat
     then errs s ++ [ex] else errs s).

Definition toProto (e : exemplar) : Exemplar :=
  mkExemplar (atMs e) (durationNs e) (statusCode e) (traceID e) (spanID e) (requestID e).

Definition exemplars (s : series) : list Exemplar :=
  match slowest s with
  | None => toProto <$> errs s
  | Some sl => toProto sl :: (toProto <$> filter (λ e, e ≠ sl) (errs s))
  end.

(** [d.Seconds()]: whole seconds plus the fraction, as floats. *)
Definition dur_seconds (d : Duration) : f64 :=
  (f64_of_Z (Z.quot d Second) + f64_of_Z (Z.rem d Second) / 1e9)%float.

Section observe.
Context `{MathLib}.

(** The counters [Observe] bumps before the sketch. *)
Definition observe_counters (s : series) (rec : Observation) : series :=
  mkSeries (u64 (count s + 1))
    (if 0 <? ObsDuration rec then u64 (sumDurationNs s + u64 (ObsDuration rec)) else sumDurationNs s)
    (if 0 <? ReqBytes rec then u64 (reqBytes s + u64 (ReqBytes rec)) else reqBytes s)
    (if 0 <? RespBytes rec then u64 (respBytes s + u64 (RespBytes rec)) else respBytes s)
    (maxDurationNs s) (sk s) (codes s) (errorClasses s) (noStatusReasons s) (sumDownstreamNs s)
    (slowest s) (errs s).

(** What follows a successful [sk.Add]. *)
Definition observe_rest (s : series) (sk' : DDSketch) (rec : Observation) (now : Time) : series :=
  let s' := mkSeries (count s) (sumDurationNs s) (reqBytes s) (respBytes s) (maxDurationNs s)
    sk' (recordCode (codes s) (Status rec))
    (recordErrorClass (errorClasses s) (ErrorClass rec))
    (if Status rec <=? 0 then recordNoStatusReason (noStatusReasons s) (NoStatusReason rec)
     else noStatusReasons s)
    (if 0 <? DownstreamDuration rec
     then u64 (sumDownstreamNs s + u64 (DownstreamDuration rec)) else sumDownstreamNs s)
    (slowest s) (errs s) in
  observeExemplar s' rec (exemplarOf rec now).

(** The body of [Observe] on its series. A panic in the sketch is recovered by the
    caller: the counters already bumped stay, the rest of the body is skipped. *)
Definition observe_series (s : series) (rec : Observation) (now : Time) : series :=
  let s := observe_counters s rec in
  match Sketch.Add (sk s) (dur_seconds (ObsDuration rec)) with
  | Ret sk' => observe_rest s sk' rec now
  | Panic _ => s
  end.
End observe.

(** ** Error labels are normal forms *)

Definition label_char (a : ascii) : Prop :=
  a = underscore ∨ 65 ≤ byte_of a ≤ 90 ∨ 48 ≤ byte_of a ≤ 57.

(** Underscores separate: none at the start (when [p]), none next to another. *)
Fixpoint separated (p : bool) (l : list ascii) : Prop :=
  match l with
  | [] => True
  | a :: l => (a = underscore → p = false) ∧ separated (bool_decide (a = underscore)) l
  end.

(** A normalized label: bounded, upper-case, with single inner underscores only. *)
Record normal_label (l : list ascii) : Prop := {
  nl_length : (length l ≤ maxErrorClassLen)%nat;
  nl_chars : Forall label_char l;
  nl_sep : separated true l;
  nl_last : last l ≠ Some underscore;
}.

Lemma upper_alnum_char c u :
  asciiUpperAlnum c = Some u → label_char u ∧ u ≠ underscore ∧ asciiUpperAlnum u = Some u.
Proof.
  unfold asciiUpperAlnum, label_char. intros H. pose proof (byte_of_range c).
  assert (Hu : 65 ≤ byte_of u ≤ 90 ∨ 48 ≤ byte_of u ≤ 57).
  { destruct (_ && _) eqn:E1; simplify_eq.
    - rewrite byte_of_ascii_of by lia. lia.
    - destruct (_ || _) eqn:E2; simplify_eq. lia. }
  clear H.
  split; [by right|]. split.
  - intros ->. change (byte_of underscore) with 95 in Hu. lia.
  - destruct ((97 <=? byte_of u) && _) eqn:E; [lia|]. by destruct (_ || _) eqn:E2; [|lia].
Qed.

Lemma alnum_of_label a : label_char a → a ≠ underscore → asciiUpperAlnum a = Some a.
Proof.
  unfold label_char, asciiUpperAlnum. intros [->|H] Hne; [done|].
  destruct ((97 <=? byte_of a) && _) eqn:E; [lia|]. by destruct (_ || _) eqn:E2; [|lia].
Qed.

Lemma separated_snoc p l a :
  separated p (l ++ [a]) ↔
  separated p l ∧ (a = underscore → match last l with Some x => x ≠ underscore | None => p = false end).
Proof.
  revert p. induction l as [|b l IH]; intros p; cbn [app separated last]; [tauto|].
  rewrite IH. destruct l as [|c l].
  - cbn [separated last]. rewrite bool_decide_eq_false. tauto.
  - change (last (b :: c :: l)) with (last (c :: l)).
    destruct (last (c :: l)) eqn:E; [tauto | by apply last_None in E].
Qed.

(** What the loop keeps of its builder. *)
Record builder_ok (b : list ascii) (prev : bool) : Prop := {
  b_length : (length b ≤ maxErrorClassLen)%nat;
  b_chars : Forall label_char b;
  b_sep : separated true (rev b);
  b_prev : match b with [] => prev = false | a :: _ => prev = bool_decide (a = underscore) end;
}.

Lemma last_rev {A} (l : list A) : last (rev l) = hd_error l.
Proof. destruct l as [|a l]; [done|]. apply last_snoc. Qed.

Lemma sanitize_loop_ok s b prev :
  builder_ok b prev → ∃ prev', builder_ok (sanitize_loop s b prev) prev'.
Proof.
  revert b prev. induction s as [|c s IH]; intros b prev Hb; cbn [sanitize_loop]; [by exists prev|].
  pose proof Hb as [Hl Hc Hs Hp].
  destruct (Nat.ltb_spec (length b) maxErrorClassLen) as [Hlt|]; [|by exists prev].
  destruct (asciiUpperAlnum c) as [u|] eqn:E.
  - destruct (upper_alnum_char _ _ E) as (Hu & Hne & _). apply IH. split; cbn.
    + lia.
    + by constructor.
    + apply separated_snoc. split; [done | by intros ->].
    + by rewrite bool_decide_false.
  - destruct ((0 <? length b)%nat && negb prev) eqn:E2; [|by apply IH].
    apply andb_true_iff in E2 as [E2 ->%negb_true_iff]. apply Nat.ltb_lt in E2.
    apply IH. split; cbn; [lia | constructor; [by left | done] | | done].
    apply separated_snoc. split; [done|]. intros _. rewrite last_rev.
    destruct b as [|a b]; cbn in *; [lia|]. by case_bool_decide.
Qed.

Lemma drop_while_suffix f l : ∃ k, l = k ++ drop_while f l.
Proof.
  induction l as [|a l IH]; cbn; [by exists []|]. destruct (f a); [|by exists []].
  destruct IH as [k Hk]. exists (a :: k). cbn. by rewrite <-Hk.
Qed.

Lemma drop_while_head f l a : hd_error (drop_while f l) = Some a → f a = false.
Proof.
  induction l as [|b l IH]; cbn; [done|]. destruct (f b) eqn:E; [done|]. cbn. by intros [= <-].
Qed.

Lemma separated_prefix p l k : separated p (l ++ k) → separated p l.
Proof. revert p. induction l as [|a l IH]; intros p; cbn; [done|].
  intros [? ?]. split; [done | by eapply IH].
Qed.

Lemma sanitize_normal s : normal_label (bytes_of (sanitizeErrorClass s)).
Proof.
  unfold sanitizeErrorClass. case_bool_decide as Hs.
  { split; cbn; [lia | constructor | done | done]. }
  destruct (sanitize_loop_ok (bytes_of s) [] false) as [prev' [Hl Hc Hsep _]].
  { split; cbn; [lia | constructor | done | done]. }
  unfold TrimRight. rewrite !bytes_of_of. unfold trim_right_bytes. rewrite rev_involutive.
  set (b := sanitize_loop _ _ _) in *.
  destruct (drop_while_suffix (λ a, bool_decide (a = underscore)) b) as [k Hk].
  set (d := drop_while _ b) in *. rewrite Hk in Hl, Hc, Hsep.
  rewrite length_app in Hl. apply Forall_app in Hc as [_ Hc]. rewrite rev_app_distr in Hsep.
  split.
  - rewrite length_rev. lia.
  - by apply Forall_rev.
  - by eapply separated_prefix.
  - rewrite last_rev. intros Hd. apply drop_while_head in Hd. by case_bool_decide.
Qed.

(** On a normalized label the loop copies. *)
Lemma sanitize_loop_copy l b prev :
  Forall label_char l → (length b + length l ≤ maxErrorClassLen)%nat →
  separated (prev || bool_decide (b = [])) l →
  sanitize_loop l b prev = rev l ++ b.
Proof.
  revert b prev. induction l as [|a l IH]; intros b prev Hc Hl Hs; cbn [sanitize_loop length separated] in *; [done|].
  inversion Hc as [|? ? Ha Hc']; subst. destruct Hs as [Hs1 Hs2].
  destruct (Nat.ltb_spec (length b) maxErrorClassLen); [|lia].
  destruct (decide (a = underscore)) as [->|Hne].
  - change (asciiUpperAlnum underscore) with (@None ascii). cbn iota.
    specialize (Hs1 eq_refl). apply orb_false_iff in Hs1 as [-> Hb].
    apply bool_decide_eq_false in Hb.
    destruct (Nat.ltb_spec 0 (length b)); [|destruct b; cbn in *; [done | lia]].
    cbn. rewrite IH; [by cbn; rewrite <-app_assoc | done | cbn; lia |].
    rewrite bool_decide_true in Hs2 by done. by cbn.
  - rewrite (alnum_of_label a) by done.
    rewrite IH; [by cbn; rewrite <-app_assoc | done | cbn; lia |].
    rewrite bool_decide_false in Hs2 by done. by cbn.
Qed.

Lemma trim_right_id (f : ascii → bool) l :
  (∀ a, last l = Some a → f a = false) → trim_right_bytes f l = l.
Proof.
  intros H. unfold trim_right_bytes. destruct (rev l) as [|a k] eqn:E.
  - cbn. by rewrite <-(rev_involutive l), E.
  - cbn. rewrite H; [by rewrite <-E, rev_involutive|].
    by rewrite <-(rev_involutive l), E, last_rev.
Qed.

(** Error labels are normalized: at most 64 bytes of [A-Z0-9_], no underscore at
    either end and never two in a row, and normalizing a label again changes nothing. *)
Theorem sanitizeErrorClass_normal s :
  normal_label (bytes_of (sanitizeErrorClass s)) ∧
  sanitizeErrorClass (sanitizeErrorClass s) = sanitizeErrorClass s.
Proof.
  split; [apply sanitize_normal|].
  set (t := sanitizeErrorClass s). pose proof (sanitize_normal s) as [Hl Hc Hs Hlast].
  fold t in Hl, Hc, Hs, Hlast. unfold sanitizeErrorClass at 1. case_bool_decide; [done|].
  rewrite sanitize_loop_copy by (done || cbn; lia).
  rewrite app_nil_r, rev_involutive. unfold TrimRight. rewrite bytes_of_of, trim_right_id.
  - apply of_bytes_of.
  - intros a Ha. rewrite Ha in Hlast. apply bool_decide_false. congruence.
Qed.

(** ** Capped counter maps

    The status codes and the error labels of a series are counted under a cap on the
    number of distinct keys. A key is counted exactly or not at all. *)

Section capped.
Context `{Countable K} (cap : nat).
Implicit Types (m : gmap K Z) (k : K).

Definition capped m k : gmap K Z :=
  match m !! k with
  | None => if (cap <=? size m)%nat then m else bump m k 1
  | Some _ => bump m k 1
  end.

Definition occ k (l : list K) : Z := Z.of_nat (length (filter (eq k) l)).

Lemma occ_snoc k l k' : occ k (l ++ [k']) = occ k l + (if decide (k = k') then 1 else 0).
Proof.
  unfold occ. rewrite filter_app, length_app. unfold filter at 2. simpl.
  destruct (decide (k = k')); simpl; lia.
Qed.

(** What [m] holds after counting the keys of [l]. *)
Record counts_of (l : list K) m : Prop := {
  co_cap : (size m ≤ cap)%nat;
  co_exact : ∀ k n, m !! k = Some n → n = u64 (occ k l);
  co_missing : ∀ k, k ∈ l → m !! k = None → size m = cap;
}.

Lemma counts_of_nil : counts_of [] ∅.
Proof. split; [rewrite map_size_empty; lia | done |]. intros k Hk. by apply elem_of_nil in Hk. Qed.

Lemma occ_fresh k l : k ∉ l → occ k l = 0.
Proof.
  intros Hk. unfold occ. induction l as [|a l IH]; [done|].
  apply not_elem_of_cons in Hk as [Ha Hl]. rewrite filter_cons_False by done. auto.
Qed.

Lemma counts_of_capped l m k : counts_of l m → counts_of (l ++ [k]) (capped m k).
Proof.
  intros [Hcap Hex Hmiss]. unfold capped. destruct (m !! k) as [n|] eqn:Hk.
  - split.
    + by rewrite bump_size_present by eauto.
    + intros k' n'. rewrite occ_snoc. destruct (decide (k' = k)) as [->|Hne].
      * rewrite bump_same. intros [= <-]. unfold count_at. rewrite Hk. simpl.
        rewrite (Hex _ _ Hk). apply u64_add_l.
      * rewrite bump_other by done. intros Hn. rewrite (Hex _ _ Hn). f_equal. lia.
    + intros k' Hk' Hnone. apply elem_of_app in Hk' as [Hk'|Hk'%list_elem_of_singleton]; [|subst k'; by rewrite ?bump_same in Hnone].
      * destruct (decide (k = k')) as [->|Hne]; [by rewrite bump_same in Hnone|].
        rewrite bump_other in Hnone by done. rewrite bump_size_present by eauto. eauto.
  - destruct (Nat.leb_spec cap (size m)) as [Hfull|Hroom].
    + split; [lia | |].
      * intros k' n' Hn. rewrite occ_snoc, (Hex _ _ Hn). rewrite decide_False by congruence.
        f_equal. lia.
      * intros _ _ _. lia.
    + split.
      * rewrite bump_size_absent by done. lia.
      * intros k' n'. rewrite occ_snoc. destruct (decide (k' = k)) as [->|Hne].
        -- rewrite bump_same. intros [= <-]. unfold count_at. rewrite Hk. simpl.
           rewrite occ_fresh; [done|]. intros Hin. specialize (Hmiss _ Hin Hk). lia.
        -- rewrite bump_other by done. intros Hn. rewrite (Hex _ _ Hn). f_equal. lia.
      * intros k' Hk' Hnone. apply elem_of_app in Hk' as [Hk'|Hk'%list_elem_of_singleton]; [|subst k'; by rewrite ?bump_same in Hnone].
        -- destruct (decide (k = k')) as [->|Hne]; [by rewrite bump_same in Hnone|].
           rewrite bump_other in Hnone by done. specialize (Hmiss _ Hk' Hnone). lia.
Qed.
End capped.

(** ** What a series aggregates *)

Abbreviation recordings := (list (Observation * Time)) (only parsing).

Definition ex_of (r : Observation * Time) : exemplar := exemplarOf r.1 r.2.
Definition pos_part (z : Z) : Z := if 0 <? z then z else 0.

Definition codes_of (rs : recordings) : list Z :=
  u32 ∘ Status ∘ fst <$> filter (λ r, 0 < Status r.1) rs.
Definition labels_of (rs : recordings) : list string :=
  filter (λ l, l ≠ ""%string) (sanitizeErrorClass ∘ ErrorClass ∘ fst <$> rs).
Definition reasons_of (rs : recordings) : list Z :=
  u32 ∘ Z.min NoStatusOther ∘ NoStatusReason ∘ fst <$> filter (λ r, Status r.1 ≤ 0) rs.

(** [o] is the earliest of the exemplars with the greatest duration. *)
Definition is_slowest (es : list exemplar) (o : option exemplar) : Prop :=
  match o with
  | None => es = []
  | Some e => ∃ pre post, es = pre ++ e :: post ∧
      Forall (λ x, durationNs x < durationNs e) pre ∧
      Forall (λ x, durationNs x ≤ durationNs e) post
  end.

(** The series [a] is the aggregate of the records [rs], in the order they came. *)
Record aggregates `{MathLib} (rs : recordings) (a : series) : Prop := {
  ag_count : count a = u64 (Z.of_nat (length rs));
  ag_sum : sumDurationNs a = u64 (sumZ (pos_part ∘ ObsDuration ∘ fst <$> rs));
  ag_req : reqBytes a = u64 (sumZ (pos_part ∘ ReqBytes ∘ fst <$> rs));
  ag_resp : respBytes a = u64 (sumZ (pos_part ∘ RespBytes ∘ fst <$> rs));
  ag_down : sumDownstreamNs a = u64 (sumZ (pos_part ∘ DownstreamDuration ∘ fst <$> rs));
  ag_sketch : AddAll (dur_seconds ∘ ObsDuration ∘ fst <$> rs) New = Ret (sk a);
  ag_max : maxDurationNs a = foldl Z.max 0 (durationNs <$> (ex_of <$> rs));
  ag_slowest : is_slowest (ex_of <$> rs) (slowest a);
  ag_errs : errs a = take maxErrorExemplars (ex_of <$> filter (λ r, isError (Status r.1)) rs);
  ag_codes : counts_of maxStatusCodes (codes_of rs) (codes a);
  ag_classes : counts_of maxErrorClasses (labels_of rs) (errorClasses a);
  ag_reasons : ∀ k, count_at (noStatusReasons a) k = u64 (occ k (reasons_of rs));
}.

Definition observe_all `{MathLib} (s : series) (rs : recordings) : series :=
  fold_left (λ s r, observe_series s r.1 r.2) rs s.

#[local] Arguments filter : simpl never.

Lemma recordCode_capped m st :
  recordCode m st = if st <=? 0 then m else capped maxStatusCodes m (u32 st).
Proof. done. Qed.

Lemma recordErrorClass_capped m raw :
  recordErrorClass m raw =
  if bool_decide (sanitizeErrorClass raw = ""%string) then m
  else capped maxErrorClasses m (sanitizeErrorClass raw).
Proof. done. Qed.

Lemma recordNoStatusReason_bump m r :
  recordNoStatusReason m r = bump m (u32 (Z.min NoStatusOther r)) 1.
Proof.
  unfold recordNoStatusReason. destruct (Z.ltb_spec NoStatusOther r).
  - by rewrite Z.min_l by lia.
  - by rewrite Z.min_r by lia.
Qed.

Lemma sum_step (f : Observation → Z) (rs : recordings) r t acc :
  acc = u64 (sumZ (pos_part ∘ f ∘ fst <$> rs)) →
  (if 0 <? f r then u64 (acc + u64 (f r)) else acc) =
  u64 (sumZ (pos_part ∘ f ∘ fst <$> rs ++ [(r, t)])).
Proof.
  intros ->. rewrite fmap_app, sumZ_app.
  assert (sumZ (pos_part ∘ f ∘ fst <$> [(r, t)]) = if 0 <? f r then f r else 0) as ->.
  { cbn. unfold pos_part. lia. }
  destruct (0 <? f r); [solve_u64 | f_equal; lia].
Qed.

Lemma is_slowest_snoc es o e :
  is_slowest es o →
  is_slowest (es ++ [e])
    (match o with
     | None => Some e
     | Some old => if durationNs old <? durationNs e then Some e else o
     end).
Proof.
  destruct o as [old|]; cbn.
  - intros (pre & post & -> & Hpre & Hpost).
    destruct (Z.ltb_spec (durationNs old) (durationNs e)) as [Hlt|Hge]; cbn.
    + exists (pre ++ old :: post), []. split; [done|]. split; [|done].
      apply Forall_app. split; [|constructor; [done|]];
        (eapply Forall_impl; [eassumption|]; cbn; intros; lia).
    + exists pre, (post ++ [e]). rewrite <-app_assoc. split; [done|]. split; [done|].
      apply Forall_app. split; [done|]. by repeat constructor.
  - intros ->. exists [], []. done.
Qed.

Lemma errs_step (rs : recordings) r t (l : list exemplar) n :
  l = take n (ex_of <$> filter (λ x, isError (Status x.1)) rs) →
  (if isError (Status r) && (length l <? n)%nat then l ++ [exemplarOf r t] else l) =
  take n (ex_of <$> filter (λ x, isError (Status x.1)) (rs ++ [(r, t)])).
Proof.
  intros ->. rewrite filter_app. destruct (isError (Status r)) eqn:E; cbn [andb].
  - rewrite (filter_cons_True _ (r, t)) by (cbn; by rewrite E).
    rewrite filter_nil, fmap_app, length_take.
    set (es := ex_of <$> _). destruct (Nat.ltb_spec (n `min` length es) n) as [Hlt|Hge].
    + rewrite !take_ge by (rewrite ?length_app; cbn; lia). done.
    + by rewrite take_app_le by lia.
  - rewrite (filter_cons_False _ (r, t)) by (cbn; rewrite E; intros []).
    by rewrite filter_nil, app_nil_r.
Qed.

Section aggregation.
Context {M : MathLib} {Hspan : @Span M}.
Hypothesis log_mono : log_nondecreasing.

Definition agg_inv (rs : recordings) (a : series) : Prop :=
  aggregates rs a ∧ wf (sk a) ∧ in_span (sk a).

Lemma agg_new : agg_inv [] new_series.
Proof.
  split; [|split; [apply wf_New | apply in_span_New]].
  split; try done; apply counts_of_nil.
Qed.

Lemma codes_step rs r t m :
  counts_of maxStatusCodes (codes_of rs) m →
  counts_of maxStatusCodes (codes_of (rs ++ [(r, t)])) (recordCode m (Status r)).
Proof.
  intros Hm. rewrite recordCode_capped. unfold codes_of. rewrite filter_app.
  destruct (Z.leb_spec (Status r) 0).
  - rewrite (filter_cons_False _ (r, t)) by (cbn; lia). by rewrite filter_nil, app_nil_r.
  - rewrite (filter_cons_True _ (r, t)) by (cbn; lia). rewrite filter_nil, fmap_app.
    by apply counts_of_capped.
Qed.

Lemma labels_step rs r t m :
  counts_of maxErrorClasses (labels_of rs) m →
  counts_of maxErrorClasses (labels_of (rs ++ [(r, t)])) (recordErrorClass m (ErrorClass r)).
Proof.
  intros Hm. rewrite recordErrorClass_capped. unfold labels_of. rewrite fmap_app, filter_app.
  change ((sanitizeErrorClass ∘ ErrorClass ∘ fst) <$> [(r, t)])
    with [sanitizeErrorClass (ErrorClass r)].
  set (l := sanitizeErrorClass (ErrorClass r)). case_bool_decide as Hl.
  - rewrite (filter_cons_False _ l) by tauto. by rewrite filter_nil, app_nil_r.
  - rewrite (filter_cons_True _ l) by done. rewrite filter_nil. by apply counts_of_capped.
Qed.

Lemma reasons_step rs r t m :
  (∀ k, count_at m k = u64 (occ k (reasons_of rs))) →
  ∀ k, count_at (if Status r <=? 0 then recordNoStatusReason m (NoStatusReason r) else m) k =
       u64 (occ k (reasons_of (rs ++ [(r, t)]))).
Proof.
  intros Hm k. unfold reasons_of. rewrite filter_app.
  destruct (Z.leb_spec (Status r) 0).
  - rewrite (filter_cons_True _ (r, t)) by (cbn; lia).
    rewrite filter_nil, fmap_app, recordNoStatusReason_bump.
    change (_ <$> [(r, t)]) with [u32 (Z.min NoStatusOther (NoStatusReason r))].
    set (key := u32 _). rewrite occ_snoc. destruct (decide (k = key)) as [->|Hne].
    + unfold count_at at 1. rewrite bump_same. simpl. rewrite Hm. apply u64_add_l.
    + unfold count_at. rewrite bump_other by done. fold (count_at m k).
      rewrite Hm. unfold reasons_of. f_equal. lia.
  - rewrite (filter_cons_False _ (r, t)) by (cbn; lia). rewrite filter_nil, app_nil_r. apply Hm.
Qed.

Lemma agg_step rs a r t :
  agg_inv rs a → agg_inv (rs ++ [(r, t)]) (observe_series a r t).
Proof.
  intros (Hag & Hwf & Hsp). destruct Hag.
  destruct (Add_never_panics (sk a) (dur_seconds (ObsDuration r)) log_mono Hwf Hsp)
    as (sk' & Hadd & Hwf' & Hsp' & _).
  unfold observe_series. cbn [observe_counters sk]. rewrite Hadd.
  split; [|done]. split; cbn [observe_rest observe_counters observeExemplar count sumDurationNs
    reqBytes respBytes sumDownstreamNs sk maxDurationNs slowest errs codes errorClasses noStatusReasons].
  - rewrite ag_count0, length_app. cbn. rewrite u64_add_l. f_equal. lia.
  - by apply sum_step.
  - by apply sum_step.
  - by apply sum_step.
  - by apply sum_step.
  - rewrite fmap_app, AddAll_app, ag_sketch0. cbn [outcome_bind fmap list_fmap AddAll]. unfold compose. cbn [fst]. by rewrite Hadd.
  - rewrite !fmap_app, foldl_app, <-ag_max0. cbn [fmap list_fmap foldl].
    change (ex_of (r, t)) with (exemplarOf r t).
    destruct (Z.ltb_spec (maxDurationNs a) (durationNs (exemplarOf r t))); lia.
  - rewrite fmap_app. by apply is_slowest_snoc.
  - by apply errs_step.
  - by apply codes_step.
  - by apply labels_step.
  - by apply reasons_step.
Qed.

Lemma agg_all rs : agg_inv rs (observe_all new_series rs).
Proof.
  induction rs as [|[r t] rs IH] using rev_ind; [apply agg_new|].
  unfold observe_all. rewrite fold_left_app. by apply agg_step.
Qed.
End aggregation.
