(* ===== verification/Adapters.v ===== *)
(** * The web adapters (client/adapterutil, client/downstream.go, client/nethttp, chi, gin,
    echo, beego)

    What an adapter reads of a request after the handler ran, and the record it hands to
    the recorder. A framework's answers (matched pattern, writer status and size, handler
    error) are inputs; the response writer wrapped by the net/http and chi adapters is
    modelled against the writer of net/http it delegates to, without hijacking. What the
    error handler of echo goes on to write is not known to its adapter and not claimed. *)

From Stdlib Require Import ZArith Lia Ascii.
From stdpp Require Import base option sets strings list.
From S2P Require Import Prelude GoString GoTime GoUrl Wire Sketch Series.

Local Open Scope Z_scope.

(** ** adapterutil *)

Definition isHex (s : list ascii) (n : nat) : bool := (length s =? n)%nat && forallb is_hex s.
Definition allZero (s : list ascii) : bool := forallb (λ a, Ascii.eqb a "0") s.

Definition ParseTraceparent (header : string) : string * string :=
  if (String.length header =? 0)%nat then (""%string, ""%string)
  else match Split header "-" with
       | [_; tid; sid; _] =>
           if negb (isHex (bytes_of tid) 32) || allZero (bytes_of tid) then (""%string, ""%string)
           else if negb (isHex (bytes_of sid) 16) || allZero (bytes_of sid) then (""%string, ""%string)
           else (tid, sid)
       | _ => (""%string, ""%string)
       end.

Definition ClampNonNegative (n : Z) : Z := if n <? 0 then 0 else n.

(** ** Errors

    A Go error as [errors.Is] and [errors.As] see it: whether it is one of the two context
    errors (or answers so in an [Is] method), whether it is an [*echo.HTTPError], its
    text, and what [Unwrap] gives, in order. An [*echo.HTTPError] unwraps to its
    [Internal] error. *)

(** The code, and the message when it is a string. *)
Record HTTPError := mkHTTPError { he_code : Z; he_message : option string }.

Inductive error :=
  Err (deadline canceled : bool) (http : option HTTPError) (text : string) (unwrap : list error).

Definition is_deadline (e : error) : bool := let 'Err d _ _ _ _ := e in d.
Definition is_canceled (e : error) : bool := let 'Err _ c _ _ _ := e in c.
Definition http_error (e : error) : option HTTPError := let 'Err _ _ h _ _ := e in h.
Definition Error (e : error) : string := let 'Err _ _ _ t _ := e in t.
Definition Unwrap (e : error) : list error := let 'Err _ _ _ _ us := e in us.

(** The tree of an error, in the order the two functions walk it. *)
Fixpoint chain (e : error) : list error :=
  match e with Err _ _ _ _ us => e :: flat_map chain us end.

Definition errors_Is (target : error → bool) (e : error) : bool := existsb target (chain e).

Definition is_http (e : error) : bool := bool_decide (is_Some (http_error e)).

Definition errors_As (e : error) : option error := List.find is_http (chain e).

Definition NoStatusUnspecified : Z := 0.
Definition NoStatusContextCanceled : Z := 1.
Definition NoStatusContextDeadline : Z := 2.

(** [cause] is [context.Cause] of the request's context: none while it is live. *)
Definition ReclassifyNoStatus (cause : option error) (status : Z) : Z * Z :=
  match cause with
  | None => (status, NoStatusUnspecified)
  | Some e =>
      if errors_Is is_deadline e then (0, NoStatusContextDeadline)
      else if errors_Is is_canceled e then (0, NoStatusContextCanceled)
      else (0, NoStatusOther)
  end.

(** ** The wrapped response writer *)

Record ResponseWriter := mkRW { status : Z; bytesWritten : Z; wroteHeader : bool }.

Definition WrapResponseWriter : ResponseWriter := mkRW 200 0 false.

(** What a handler does with the writer; [n] is what the underlying writer accepted, and
    [read] what the source of a copy gave. *)
Inductive write_op := WriteHeader (code : Z) | Write (n : Z) | ReadFrom (read n : Z) | Flush.

Definition rw_op (w : ResponseWriter) (o : write_op) : ResponseWriter :=
  match o with
  | WriteHeader code =>
      if wroteHeader w then w else mkRW code (bytesWritten w) true
  | Write n => mkRW (status w) (i64 (bytesWritten w + n)) true
  | ReadFrom _ n => mkRW (status w) (i64 (bytesWritten w + n)) true
  | Flush => w
  end.

Definition rw_run (ops : list write_op) : ResponseWriter := fold_left rw_op ops WrapResponseWriter.

(** The status net/http sends: the first code that is not informational (101 is final),
    or an implicit 200 at the first write, flush, or end of the handler. A copy of an empty
    source writes nothing. *)
Definition informational (code : Z) : bool := (100 <=? code) && (code <=? 199) && negb (code =? 101).

Definition wire_op (sent : option Z) (o : write_op) : option Z :=
  match sent with
  | Some _ => sent
  | None => match o with
            | WriteHeader code => if informational code then None else Some code
            | ReadFrom read _ => if read <=? 0 then None else Some 200
            | Write _ | Flush => Some 200
            end
  end.

Definition wire_status (ops : list write_op) : Z := default 200 (fold_left wire_op ops None).

(** ** Downstream time (client/downstream.go)

    The accumulator of the request's context, or none when tracking was not installed. *)

Definition downstreamAccumulator := option Z.

Definition WithDownstreamTracking : downstreamAccumulator := Some 0.

Definition DownstreamElapsed (ctx : downstreamAccumulator) : Duration := default 0 ctx.

Definition addDownstream (ctx : downstreamAccumulator) (d : Duration) : downstreamAccumulator :=
  if d <=? 0 then ctx else (λ ns, i64 (ns + d)) <$> ctx.

(** [RoundTrip]: whatever the outcome of the delegate, its duration is added. *)
Definition RoundTrip {R} (ctx : downstreamAccumulator) (outcome : R) (start end_ : Time)
  : downstreamAccumulator * R :=
  (addDownstream ctx (time_sub end_ start), outcome).

(** ** The middlewares *)

Record exchange := mkExchange {
  x_method : string; x_traceparent : string; x_request_id : string;
  x_content_length : Z; x_cause : option error;
  x_start : Time; x_end : Time;
  x_trips : list (Time * Time);     (* the round trips its handler made, start and end *)
}.

(** The accumulator when the handler has returned. *)
Definition x_downstream (x : exchange) : downstreamAccumulator :=
  fold_left (λ ctx trip, (RoundTrip ctx () trip.1 trip.2).1) (x_trips x) WithDownstreamTracking.

(** The record every adapter builds once the handler has returned; a panic passes through
    without one. *)
Definition build_record (x : exchange) (route : string) (st resp : Z) (errorClass : string)
  : Observation :=
  let '(st, reason) := ReclassifyNoStatus (x_cause x) st in
  let '(traceID, spanID) := ParseTraceparent (x_traceparent x) in
  mkObs (x_method x) route st (time_sub (x_end x) (x_start x))
    (ClampNonNegative (x_content_length x)) (ClampNonNegative resp) traceID spanID
    (x_request_id x) errorClass reason (DownstreamElapsed (x_downstream x)).

Definition routeTemplate (pattern : string) : string :=
  match IndexByte pattern "/" with
  | Some i => str_drop i pattern
  | None => ""
  end.

(** net/http: [None] when the request is skipped. *)
Definition nethttp_record (x : exchange) (pattern : string) (ops : list write_op)
  : option Observation :=
  let cw := rw_run ops in
  let route := routeTemplate pattern in
  if bool_decide (route = ""%string) then None
  else Some (build_record x route (status cw) (bytesWritten cw) "").

(** chi: the pattern of the route context, absent outside a chi router. *)
Definition chi_record (x : exchange) (pattern : option string) (ops : list write_op)
  : option Observation :=
  let cw := rw_run ops in
  let route := default ""%string pattern in
  if bool_decide (route = ""%string) then None
  else Some (build_record x route (status cw) (bytesWritten cw) "").

(** gin: the writer's status and size, the messages of [c.Errors]. *)
Definition lastErrorLabel (errors : list string) : string := default ""%string (last errors).

Definition gin_record (x : exchange) (route : string) (st size : Z) (errors : list string)
  : option Observation :=
  if bool_decide (route = ""%string) then None
  else Some (build_record x route st size (lastErrorLabel errors)).

(** echo: the status [statusFromError] infers, and the label of the error. *)
Definition statusFromError (err : error) : Z :=
  match errors_As err with
  | Some h => default 500 (he_code <$> http_error h)
  | None => 500
  end.

Definition errorLabel (err : error) : string :=
  match errors_As err with
  | Some h =>
      match Unwrap h with
      | internal :: _ => Error internal
      | [] => default (Error err) (http_error h ≫= he_message)
      end
  | None => Error err
  end.

Definition echo_record (x : exchange) (route : string) (st size : Z) (committed : bool)
  (err : option error) : option Observation :=
  if bool_decide (route = ""%string) then None
  else
    let '(st, errorClass) :=
      match err with
      | None => (st, ""%string)
      | Some e => (if committed then st else statusFromError e, errorLabel e)
      end in
    Some (build_record x route st size errorClass).

(** beego: the stored router pattern; a status never written reads as zero. *)
Definition beego_record (x : exchange) (pattern : option string) (st : Z) : option Observation :=
  let route := default ""%string pattern in
  if bool_decide (route = ""%string) then None
  else Some (build_record x route (if bool_decide (st = 0) then 200 else st) 0 "").

(** ** Properties *)

Lemma rw_fixed ops w : wroteHeader w = true → status (fold_left rw_op ops w) = status w.
Proof.
  revert w. induction ops as [|o ops IH]; intros w Hw; [done|]. cbn [fold_left].
  destruct o; cbn [rw_op]; rewrite ?Hw; by rewrite IH.
Qed.

Lemma wire_fixed ops c : fold_left wire_op ops (Some c) = Some c.
Proof. induction ops as [|o ops IH]; [done|]. by destruct o. Qed.

(** A sequence of writes that net/http takes as the wrapper does: its codes are final ones
    (net/http panics on a code outside 100 to 999), and it starts neither with a flush nor
    with a copy of an empty source. *)
Definition final (code : Z) : bool := (100 <=? code) && (code <=? 999) && negb (informational code).

Definition plain (ops : list write_op) : bool :=
  forallb (λ o, match o with WriteHeader code => final code | _ => true end) ops &&
  match ops with
  | Flush :: _ => false
  | ReadFrom read _ :: _ => 0 <? read
  | _ => true
  end.

(** The status the wrapper reports is the status net/http sends, for every plain sequence
    of writes. The exceptions are real: after 103 Early Hints the wrapper keeps 103
    although 404 is sent; after an early flush it takes 500 although 200 was sent; after a
    copy of an empty source it keeps 200 although 404 is sent. *)
Lemma wrapper_status_is_wire_status :
  (∀ ops, plain ops = true → status (rw_run ops) = wire_status ops) ∧
  (status (rw_run [WriteHeader 103; WriteHeader 404]) = 103 ∧
   wire_status [WriteHeader 103; WriteHeader 404] = 404) ∧
  (status (rw_run [Flush; WriteHeader 500]) = 500 ∧ wire_status [Flush; WriteHeader 500] = 200) ∧
  (status (rw_run [ReadFrom 0 0; WriteHeader 404]) = 200 ∧ wire_status [ReadFrom 0 0; WriteHeader 404] = 404).
Proof.
  split; [|done]. intros ops. unfold plain, rw_run, wire_status.
  destruct ops as [|[code|n|r n|] ops]; cbn [fold_left forallb]; [done| | | |by rewrite andb_false_r];
    intros [[Hc _]%andb_true_iff Hh]%andb_true_iff.
  - unfold final in Hc. apply andb_true_iff in Hc as [_ Hc%negb_true_iff].
    cbn [wire_op]. by rewrite Hc, rw_fixed, wire_fixed.
  - cbn [wire_op]. by rewrite rw_fixed, wire_fixed.
  - cbn [wire_op]. destruct (Z.leb_spec r 0); [lia|]. by rewrite rw_fixed, wire_fixed.
Qed.

(** The code the wrapper keeps: the first one, unless something was written before it. *)
Fixpoint first_code (ops : list write_op) : Z :=
  match ops with
  | WriteHeader code :: _ => code
  | Flush :: ops => first_code ops
  | _ => 200
  end.

Definition accepted (o : write_op) : Z :=
  match o with Write n | ReadFrom _ n => n | _ => 0 end.

Lemma rw_run_status ops : status (rw_run ops) = first_code ops.
Proof.
  unfold rw_run. induction ops as [|[code|n|r n|] ops IH]; [done|..|done];
    cbn [fold_left]; by rewrite rw_fixed.
Qed.

Lemma rw_run_bytes ops : bytesWritten (rw_run ops) = i64 (sumZ (accepted <$> ops)).
Proof.
  assert (Hg : ∀ w b, bytesWritten w = i64 b →
    bytesWritten (fold_left rw_op ops w) = i64 (b + sumZ (accepted <$> ops))).
  { induction ops as [|o ops IH]; intros w b Hw; [cbn; by rewrite Z.add_0_r|].
    cbn [fold_left]. rewrite fmap_cons.
    change (sumZ (accepted o :: (accepted <$> ops))) with (accepted o + sumZ (accepted <$> ops)).
    rewrite Z.add_assoc. apply IH. destruct o as [code|n|r n|]; cbn [rw_op accepted];
      [destruct (wroteHeader w)| | |]; cbn [bytesWritten]; rewrite ?Z.add_0_r, Hw, ?i64_add_l; done. }
  unfold rw_run. by rewrite (Hg WrapResponseWriter 0).
Qed.

(** A trace or span identifier: so many hexadecimal digits, not all zero. *)
Definition valid_id (n : nat) (s : string) : Prop :=
  isHex (bytes_of s) n = true ∧ allZero (bytes_of s) = false.

Definition traceparent (v tid sid f : string) : string :=
  str_app v (str_app "-" (str_app tid (str_app "-" (str_app sid (str_app "-" f))))).

Lemma isHex_no_dash s n : isHex s n = true → "-"%char ∉ s.
Proof.
  unfold isHex. intros [_ Hf]%andb_true_iff Hin. rewrite forallb_forall in Hf.
  apply list_elem_of_In in Hin. by apply Hf in Hin.
Qed.

Lemma Split_no_dash s t :
  "-"%char ∉ bytes_of s → Split (str_app s (str_app "-" t)) "-" = s :: Split t "-".
Proof.
  intros Hs. unfold Split. rewrite !bytes_of_app. change (bytes_of "-") with ["-"%char].
  cbn [app]. rewrite split_bytes_app by done. cbn. by rewrite of_bytes_of.
Qed.

Lemma split_pieces c l cur : c ∉ cur → Forall (λ p, c ∉ p) (split_bytes c l cur).
Proof.
  revert cur. induction l as [|a l IH]; intros cur Hc; cbn [split_bytes].
  - constructor; [|done]. by rewrite list_elem_of_In, <-in_rev, <-list_elem_of_In.
  - case_decide as Ha.
    + constructor; [by rewrite list_elem_of_In, <-in_rev, <-list_elem_of_In|]. apply IH. by intros ?%elem_of_nil.
    + apply IH. rewrite elem_of_cons. intros [->|?]; done.
Qed.

Lemma Split_pieces header : Forall (λ p, "-"%char ∉ bytes_of p) (Split header "-").
Proof.
  unfold Split. apply Forall_fmap. eapply Forall_impl; [by apply split_pieces, not_elem_of_nil|].
  intros p Hp. cbn. by rewrite bytes_of_of.
Qed.

(** A well-formed traceparent: four dash-separated fields whose second and third are
    identifiers of 32 and 16 hexadecimal digits, not all zero. *)
Definition traced (header tid sid : string) : Prop :=
  ∃ v f, header = traceparent v tid sid f ∧ "-"%char ∉ bytes_of v ∧ "-"%char ∉ bytes_of f ∧
         valid_id 32 tid ∧ valid_id 16 sid.

(** A traceparent is read exactly when it is well formed; anything else yields two empty
    identifiers, never one of the two. *)
Lemma ParseTraceparent_exact header :
  (∀ tid sid, traced header tid sid → ParseTraceparent header = (tid, sid)) ∧
  ((∀ tid sid, ¬ traced header tid sid) → ParseTraceparent header = (""%string, ""%string)).
Proof.
  split.
  - intros tid sid (v & f & -> & Hv & Hf & [Ht Ht0] & [Hs Hs0]). unfold ParseTraceparent.
    assert (Hsplit : Split (traceparent v tid sid f) "-" = [v; tid; sid; f]).
    { unfold traceparent. rewrite !Split_no_dash by eauto using isHex_no_dash.
      unfold Split. rewrite split_bytes_none by done. cbn. by rewrite of_bytes_of. }
    rewrite Hsplit, Ht, Ht0, Hs, Hs0. destruct (_ =? _)%nat eqn:E; [|done].
    apply Nat.eqb_eq in E. rewrite <-length_bytes_of in E. unfold traceparent in E.
    rewrite !bytes_of_app, !length_app in E. cbn in E. lia.
  - intros Hno. unfold ParseTraceparent. destruct (_ =? 0)%nat; [done|].
    pose proof (Join_Split header "-") as HJ. pose proof (Split_pieces header) as HP.
    destruct (Split header "-") as [|v [|tid [|sid [|f [|]]]]]; try done.
    destruct (isHex (bytes_of tid) 32) eqn:Ht; [|done].
    destruct (allZero (bytes_of tid)) eqn:Ht0; [done|].
    destruct (isHex (bytes_of sid) 16) eqn:Hs; [|done].
    destruct (allZero (bytes_of sid)) eqn:Hs0; [done|].
    destruct (Hno tid sid). exists v, f. inversion HP as [|? ? Hv HP1]. inversion HP1 as [|? ? _ HP2].
    inversion HP2 as [|? ? _ HP3]. inversion HP3 as [|? ? Hf _]. by rewrite <-HJ.
Qed.

Lemma routeTemplate_spec pattern :
  match IndexByte pattern "/" with
  | None => routeTemplate pattern = ""%string ∧ "/"%char ∉ bytes_of pattern
  | Some _ => ∃ host, pattern = str_app host (routeTemplate pattern) ∧
      "/"%char ∉ bytes_of host ∧ HasPrefix (routeTemplate pattern) "/" = true
  end.
Proof.
  unfold routeTemplate. destruct (IndexByte pattern "/") as [i|] eqn:E.
  - apply index_byte_Some in E as (k & Hk & Hi & Hin). exists (of_bytes (take i (bytes_of pattern))).
    unfold str_drop. rewrite <-of_bytes_app, take_drop, of_bytes_of, bytes_of_of. split; [done|].
    split; [done|]. unfold HasPrefix. rewrite bytes_of_of, Hk. apply hasPrefix_bytes_spec.
    by exists k.
  - split; [done|]. by apply index_byte_None.
Qed.

(** Downstream time is the sum of the positive round trips of the request, whatever
    their outcomes and order, and zero without tracking. *)
Lemma downstream_sums (durations : list Duration) :
  DownstreamElapsed (fold_left addDownstream durations WithDownstreamTracking) =
    i64 (sumZ (pos_part <$> durations)) ∧
  DownstreamElapsed (fold_left addDownstream durations None) = 0.
Proof.
  split.
  - assert (Hg : ∀ ns, fold_left addDownstream durations (Some (i64 ns)) =
                     Some (i64 (ns + sumZ (pos_part <$> durations)))).
    { induction durations as [|d ds IH]; intros ns; [cbn; do 2 f_equal; lia|].
      cbn [fold_left]. rewrite fmap_cons.
      change (sumZ (pos_part d :: (pos_part <$> ds))) with (pos_part d + sumZ (pos_part <$> ds)).
      unfold addDownstream at 2, pos_part at 1.
      destruct (Z.leb_spec d 0), (Z.ltb_spec 0 d); try lia.
      - by rewrite IH.
      - cbn. rewrite i64_add_l, IH. by rewrite <-Z.add_assoc. }
    unfold WithDownstreamTracking. change 0 with (i64 0) at 1. by rewrite Hg.
  - assert (Hg : fold_left addDownstream durations None = None); [|by rewrite Hg].
    induction durations as [|d ds IH]; [done|]. cbn. unfold addDownstream at 2. by destruct (d <=? 0).
Qed.

(** *** Errors *)

(** [e'] is [e] or something it wraps. *)
Inductive wraps : error → error → Prop :=
  | wraps_self e : wraps e e
  | wraps_step e u e' : u ∈ Unwrap e → wraps u e' → wraps e e'.

Lemma wraps_chain e e' : wraps e e' ↔ e' ∈ chain e.
Proof.
  split.
  - induction 1 as [[]|[d c h t us] u e' Hu _ IH]; cbn [chain]; [by constructor|].
    constructor. apply list_elem_of_In, in_flat_map. exists u. split; by apply list_elem_of_In.
  - revert e e'. fix IH 1. intros [d c h t us] e'. cbn [chain].
    rewrite elem_of_cons. intros [->|Hin]; [by constructor|].
    assert (Hu : ∃ u, u ∈ us ∧ wraps u e').
    { induction us as [|u us IHus]; [by apply elem_of_nil in Hin|]. cbn in Hin. rewrite elem_of_app in Hin.
      destruct Hin as [Hin|Hin]; [exists u; split; [by constructor|by apply IH]|].
      destruct (IHus Hin) as (u' & Hu' & Hw). exists u'. split; [by constructor|done]. }
    destruct Hu as (u & Hu & Hw). by eapply wraps_step.
Qed.

Lemma errors_Is_spec target e : errors_Is target e = true ↔ ∃ e', wraps e e' ∧ target e' = true.
Proof.
  unfold errors_Is. rewrite existsb_exists. split; intros (e' & H1 & H2); exists e'.
  - split; [by apply wraps_chain, list_elem_of_In|done].
  - split; [by apply list_elem_of_In, wraps_chain|done].
Qed.

(** What [context.Cause] says of an aborted request, the deadline first. *)
Inductive aborted (e : error) : Z → Prop :=
  | by_deadline e' : wraps e e' → is_deadline e' = true → aborted e 2
  | by_client e' : (∀ d, wraps e d → is_deadline d = false) → wraps e e' → is_canceled e' = true → aborted e 1
  | otherwise : (∀ d, wraps e d → is_deadline d = false ∧ is_canceled d = false) → aborted e 5.

Lemma aborted_exact e reason : aborted e reason ↔ ReclassifyNoStatus (Some e) 0 = (0, reason).
Proof.
  cbn. pose proof (errors_Is_spec is_deadline e) as Hd. pose proof (errors_Is_spec is_canceled e) as Hc.
  assert (Hno : ∀ p d, errors_Is p e = false → wraps e d → p d = false).
  { intros p d Hp Hw. apply not_true_is_false. intros Hpd.
    assert (errors_Is p e = true) by (apply errors_Is_spec; eauto). congruence. }
  split.
  - destruct 1 as [e' Hw Ht|e' Hn Hw Ht|Hn].
    + by rewrite (proj2 Hd) by eauto.
    + destruct (errors_Is is_deadline e); [|by rewrite (proj2 Hc) by eauto].
      destruct (proj1 Hd eq_refl) as (d & Hwd & Hdd). by rewrite Hn in Hdd.
    + destruct (errors_Is is_deadline e).
      { destruct (proj1 Hd eq_refl) as (d & Hwd & Hdd). by rewrite (proj1 (Hn d Hwd)) in Hdd. }
      destruct (errors_Is is_canceled e); [|done].
      destruct (proj1 Hc eq_refl) as (d & Hwd & Hdd). by rewrite (proj2 (Hn d Hwd)) in Hdd.
  - destruct (errors_Is is_deadline e) eqn:Ed.
    { intros [= <-]. destruct (proj1 Hd eq_refl) as (d & ? & ?). by eapply by_deadline. }
    destruct (errors_Is is_canceled e) eqn:Ec; intros [= <-].
    { destruct (proj1 Hc eq_refl) as (d & ? & ?). eapply by_client; eauto. }
    apply otherwise. eauto.
Qed.

(** [h] is the [*echo.HTTPError] that [errors.As] finds in [e]: the first of its tree. *)
Definition first_http (e h : error) : Prop :=
  is_http h = true ∧
  ∃ before after, chain e = before ++ h :: after ∧ Forall (λ d, is_http d = false) before.

Lemma errors_As_spec e :
  match errors_As e with
  | Some h => first_http e h
  | None => ∀ d, wraps e d → is_http d = false
  end.
Proof.
  unfold errors_As, first_http. destruct (List.find is_http (chain e)) as [h|] eqn:E.
  - revert E. induction (chain e) as [|d ds IH]; [done|]. cbn. destruct (is_http d) eqn:Ed.
    + intros [= ->]. split; [done|]. by exists [], ds.
    + intros Hf. destruct (IH Hf) as (Hh & before & after & -> & Hb). split; [done|].
      exists (d :: before), after. split; [done|by constructor].
  - intros d Hw. eapply find_none; [done|]. by apply list_elem_of_In, wraps_chain.
Qed.

Lemma first_http_unique e h h' : first_http e h → first_http e h' → h = h'.
Proof.
  intros (Hh & b & a & E & Hb) (Hh' & b' & a' & E' & Hb'). rewrite E in E'. clear E.
  revert b' E' Hb'. induction Hb as [|d b Hd _ IH]; intros [|d' b'] E' Hb'; cbn in E'; simplify_eq; [done|..].
  - inversion Hb'. congruence.
  - congruence.
  - inversion Hb'. by eapply IH.
Qed.

(** What echo's status [st] and the error of a handler amount to: the status, inferred
    from the error when nothing was committed, and the label. *)
Record echo_says (st : Z) (committed : bool) (err : option error) (st' : Z) (label : string) : Prop := {
  e_none : err = None → st' = st ∧ label = ""%string;
  e_committed : committed = true → st' = st;
  e_http e h : err = Some e → first_http e h →
    (committed = false → Some st' = he_code <$> http_error h) ∧
    label = match Unwrap h with
            | internal :: _ => Error internal
            | [] => default (Error e) (http_error h ≫= he_message)
            end;
  e_plain e : err = Some e → (∀ d, wraps e d → is_http d = false) →
    (committed = false → st' = 500) ∧ label = Error e;
}.

(** The record tells the exchange [x] of the endpoint [route], whose response had the
    status [st] and a size of [resp] bytes. *)
Record tells (x : exchange) (route : string) (st resp : Z) (label : string) (r : Observation) : Prop := {
  t_request : Method r = x_method x ∧ RequestID r = x_request_id x ∧
              ReqBytes r = Z.max 0 (x_content_length x);
  t_route : RouteTemplate r = route;
  t_live : x_cause x = None → Status r = st ∧ NoStatusReason r = 0;
  t_aborted e : x_cause x = Some e →
    Status r = 0 ∧ classify (Status r) = SC_NO_STATUS ∧ aborted e (NoStatusReason r);
  t_bytes : RespBytes r = Z.max 0 resp;
  t_traced tid sid : traced (x_traceparent x) tid sid → TraceID r = tid ∧ SpanID r = sid;
  t_untraced : (∀ tid sid, ¬ traced (x_traceparent x) tid sid) → TraceID r = ""%string ∧ SpanID r = ""%string;
  t_time : ObsDuration r = time_sub (x_end x) (x_start x) ∧
           DownstreamDuration r = i64 (sumZ ((λ t, pos_part (time_sub t.2 t.1)) <$> x_trips x));
  t_label : ErrorClass r = label;
}.

Lemma ClampNonNegative_max n : ClampNonNegative n = Z.max 0 n.
Proof. unfold ClampNonNegative. destruct (Z.ltb_spec n 0); lia. Qed.

Lemma x_downstream_sums x :
  DownstreamElapsed (x_downstream x) = i64 (sumZ ((λ t, pos_part (time_sub t.2 t.1)) <$> x_trips x)).
Proof.
  unfold x_downstream. destruct (downstream_sums ((λ t, time_sub t.2 t.1) <$> x_trips x)) as [H _].
  rewrite <-list_fmap_compose in H. etrans; [|apply H]. clear H. f_equal. generalize WithDownstreamTracking.
  induction (x_trips x) as [|t ts IH]; intros ctx; [done|]. cbn. apply IH.
Qed.

Lemma build_record_tells x route st resp label :
  tells x route st resp label (build_record x route st resp label).
Proof.
  unfold build_record. destruct (ReclassifyNoStatus _ _) as [st' reason] eqn:E.
  destruct (ParseTraceparent (x_traceparent x)) as [t s] eqn:ET.
  destruct (ParseTraceparent_exact (x_traceparent x)) as [Hyes Hno]. rewrite ET in Hyes, Hno.
  split; cbn [Method RequestID ReqBytes RouteTemplate Status NoStatusReason RespBytes TraceID SpanID
    ObsDuration DownstreamDuration ErrorClass]; rewrite ?ClampNonNegative_max, ?x_downstream_sums; try done.
  - intros Hn. rewrite Hn in E. by injection E as <- <-.
  - intros e He. rewrite He in E. assert (st' = 0) as ->.
    { cbn in E. destruct (errors_Is _ _); [|destruct (errors_Is _ _)]; congruence. }
    split; [done|]. split; [done|]. apply aborted_exact. rewrite <-E. cbn.
    by destruct (errors_Is is_deadline e), (errors_Is is_canceled e).
  - intros tid sid Ht. by injection (Hyes _ _ Ht) as -> ->.
  - intros Hn. by injection (Hno Hn) as -> ->.
Qed.

(** What the echo adapter takes from the response and the error. *)
Lemma echo_record_says x route st size committed err :
  route ≠ ""%string →
  ∃ st' label, echo_says st committed err st' label ∧
    echo_record x route st size committed err = Some (build_record x route st' size label).
Proof.
  intros Hr. unfold echo_record. rewrite bool_decide_false by done. destruct err as [e|].
  - eexists _, _. split; [|done]. pose proof (errors_As_spec e) as Hs. unfold statusFromError, errorLabel.
    destruct (errors_As e) as [h|] eqn:E.
    + split; [done|by intros ->| |].
      * intros e' h' [= <-] Hf. rewrite <-(first_http_unique e h h') by done. split; [|done]. intros ->.
        destruct Hs as [Hh%bool_decide_eq_true _]. by destruct Hh as [he ->].
      * intros e' [= <-] Hno. destruct Hs as (Hh & b & a & Ec & _). exfalso. rewrite Hno in Hh; [done|].
        apply wraps_chain. rewrite Ec. apply elem_of_app. right. by constructor.
    + split; [done|by intros ->| |].
      * intros e' h [= <-] (Hh & b & a & Ec & _). exfalso. rewrite Hs in Hh; [done|].
        apply wraps_chain. rewrite Ec. apply elem_of_app. right. by constructor.
      * intros e' [= <-] _. split; [by intros ->|done].
  - exists st, ""%string. split; [|done]. by split.
Qed.

(** [C40] A record tells the exchange and nothing else. Each adapter builds one exactly when
    the framework matched a route, under that route's template and never a raw path (for
    net/http, the part of the pattern from the first slash on), with the method, request
    id, duration, request bytes and trace identifiers of the request, the identifiers only
    from a well-formed traceparent; its downstream time is the sum of the positive round
    trips of the handler. A request whose context is done has no status but the reason,
    the deadline before the cancellation, wherever its cause wraps them. Otherwise the
    status is the first code written to the wrapper (net/http and chi), which is the code
    on the wire for a plain sequence of writes, with the bytes the writer below accepted;
    gin's own status and size, with its last error; echo's status, or for an uncommitted
    error the code of the first HTTPError it wraps and else 500, with the label of that
    error; beego's status with 0 read as 200. *)
Theorem adapters_tell_the_exchange x pattern route st size committed err errors ops :
  (nethttp_record x pattern ops = None ∧ "/"%char ∉ bytes_of pattern ∨
   ∃ host path r, pattern = str_app host path ∧ "/"%char ∉ bytes_of host ∧ HasPrefix path "/" = true ∧
     nethttp_record x pattern ops = Some r ∧
     tells x path (first_code ops) (i64 (sumZ (accepted <$> ops))) "" r) ∧
  (plain ops = true → first_code ops = wire_status ops) ∧
  (route = ""%string ∧ chi_record x (Some route) ops = None ∧ gin_record x route st size errors = None ∧
   echo_record x route st size committed err = None ∧ beego_record x (Some route) st = None ∨
   route ≠ ""%string ∧ ∃ rc rg re rb st' label,
     chi_record x (Some route) ops = Some rc ∧
     tells x route (first_code ops) (i64 (sumZ (accepted <$> ops))) "" rc ∧
     gin_record x route st size errors = Some rg ∧ tells x route st size (default ""%string (last errors)) rg ∧
     echo_record x route st size committed err = Some re ∧ tells x route st' size label re ∧
     echo_says st committed err st' label ∧
     beego_record x (Some route) st = Some rb ∧ tells x route (if bool_decide (st = 0) then 200 else st) 0 "" rb) ∧
  chi_record x None ops = None ∧ beego_record x None st = None.
Proof.
  split; [|split; [|split; [|done]]].
  - unfold nethttp_record. rewrite rw_run_status, rw_run_bytes. pose proof (routeTemplate_spec pattern) as Hr.
    destruct (IndexByte pattern "/") as [i|].
    + right. destruct Hr as (host & Hp & Hh & Hpre).
      rewrite bool_decide_false by (intros Hn; by rewrite Hn in Hpre).
      exists host, (routeTemplate pattern). eexists. split_and!; [done..|]. apply build_record_tells.
    + left. destruct Hr as [-> Hn]. by rewrite bool_decide_true.
  - intros Hp. rewrite <-rw_run_status. by apply wrapper_status_is_wire_status.
  - unfold chi_record, gin_record, beego_record. rewrite rw_run_status, rw_run_bytes.
    change (default ""%string (Some route)) with route.
    destruct (decide (route = ""%string)) as [->|Hr]; [by left|right]. split; [done|].
    destruct (echo_record_says x route st size committed err Hr) as (st' & label & Hs & ->).
    rewrite !(bool_decide_false (route = ""%string)) by done.
    do 4 eexists. exists st', label. split_and!; try done; apply build_record_tells.
Qed.

(** A request cancelled by its client under a wrapped error, and an echo handler that
    returns an HTTPError below another error. *)
Definition cancelled_request : exchange :=
  mkExchange "GET" "00-4bf92f3577b34da6a3ce929d0e0e4736-00f067aa0ba902b7-01" "req-1" (-1)
    (Some (Err false false None "proxy" [Err false true None "context canceled" []]))
    1000 1750 [(1100, 1200); (1300, 1290); (1400, 1450)].

Definition wrapped_teapot : error :=
  Err false false None "brew: code=418"
    [Err false false (Some (mkHTTPError 418 (Some "short and stout"%string))) "code=418" []].

Lemma adapters_tell_the_exchange_witness :
  nethttp_record cancelled_request "GET example.com/users/{id}" [WriteHeader 404; WriteHeader 500; Write 9] =
    Some (mkObs "GET" "/users/{id}" 0 750 0 9 "4bf92f3577b34da6a3ce929d0e0e4736" "00f067aa0ba902b7" "req-1" "" 1 150) ∧
  (∃ st' label, echo_says 200 false (Some wrapped_teapot) st' label ∧ st' = 418) ∧
  first_code [WriteHeader 404; WriteHeader 500; Write 9] = wire_status [WriteHeader 404; WriteHeader 500; Write 9].
Proof.
  destruct (adapters_tell_the_exchange cancelled_request "GET example.com/users/{id}" "/brew" 200 0 false
    (Some wrapped_teapot) [] [WriteHeader 404; WriteHeader 500; Write 9]) as (_ & Hw & [[? _]|(_ & H)] & _); [done|].
  split; [reflexivity|]. split; [|by apply Hw].
  destruct H as (rc & rg & re & rb & st' & label & _ & _ & _ & _ & _ & _ & Hs & _). exists st', label. split; [exact Hs|].
  destruct (e_http _ _ _ _ _ Hs wrapped_teapot (Err false false (Some (mkHTTPError 418 (Some "short and stout"%string))) "code=418" []))
    as [Hst _]; [done| |].
  - split; [done|]. exists [wrapped_teapot], []. split; [done|]. by constructor.
  - specialize (Hst eq_refl). by injection Hst.
Defined.
