(* ===== verification/Recorder.v ===== *)
(** * The recorder's aggregation table (client/maping.go)

    Sixteen shards, each a map from series key to aggregate; [Observe] folds a record
    into the series of its key, [swapShards] takes the whole window out. The state of
    the uploader's side (ring, dropped counter) is in [Uploader]. *)

From Stdlib Require Import ZArith Lia ZifyBool Floats.
From stdpp Require Import base option gmap fin_maps sets strings list.
From S2P Require Import Prelude GoFloat GoTime GoMath Wire Sketch Series.

Local Open Scope Z_scope.

Definition SdkVersion : string := "0.1.0".
Definition firstFlushDelay : Duration := 2 * Second.
Definition numShards : nat := 16.
Definition shardMask : Z := Z.of_nat numShards - 1.
Definition baseBackoff : Duration := 1 * Second.
Definition maxBackoff : Duration := 30 * Second.
Definition drainRetryDelay : Duration := 50 * Millisecond.
Definition minRingCapacity : Z := 8.
Definition ringWindowsSpan : Z := 300.

(** [ringCapacity]: [Z.quot] is Go's integer division. *)
Definition ringCapacity (flushWindow : Duration) : Z :=
  let secs := Z.max (Z.quot flushWindow Second) 1 in
  Z.max minRingCapacity (Z.quot ringWindowsSpan secs).

Abbreviation shard := (gmap seriesKey series) (only parsing).

Definition new_shards : list shard := replicate numShards ∅.

(** [key.hash() & shardMask] *)
Definition shard_index (k : seriesKey) : nat := Z.to_nat (Z.land (hash k) shardMask).

Section recorder.
Context `{MathLib}.

(** The locked body of [Observe] on the shard of the key. *)
Definition observe_shard (rec : Observation) (now : Time) (m : shard) : shard :=
  let key := obs_key rec in
  <[key := observe_series (default new_series (m !! key)) rec now]> m.

(** [Observe]: a no-op on an inactive or closed recorder. *)
Definition Observe (active closed : bool) (shards : list shard) (rec : Observation) (now : Time)
  : list shard :=
  if negb active || closed then shards
  else alter (observe_shard rec now) (shard_index (obs_key rec)) shards.
(** [swapShards], each shard swapped and copied before the next: a later shard's entry
    overwrites in [maps.Copy]. An empty shard keeps its map. *)
Definition swapShards (shards : list shard) : shard * list shard :=
  (fold_left (λ merged old, old ∪ merged) shards ∅,
   (λ old, if (0 <? size old)%nat then ∅ else old) <$> shards).

(** One summary of [buildRequest]. *)
Definition build_summary (startMs endMs : Z) (ks : seriesKey * series) : option Summary :=
  let '(key, s) := ks in
  Some (mkSummary startMs endMs (key_method key) (key_route key) (key_class key)
    (Series.count s) (sumDurationNs s) (reqBytes s) (respBytes s) (Sketch.Buckets (sk s)) (codes s)
    (maxDurationNs s) (Some <$> exemplars s) (errorClasses s) (noStatusReasons s)
    (sumDownstreamNs s)).
End recorder.

(** ** The table the shards implement *)

Section table.
Context `{M : MathLib}.
Implicit Types (k : seriesKey) (shards : list shard).

(** The series of a key: the shard its hash selects, then the map. *)
Definition table shards k : option series := shards !! shard_index k ≫= (.!! k).

(** A key lives in one shard only: the one it hashes to. *)
Definition placed shards : Prop :=
  length shards = numShards ∧
  ∀ i m k, shards !! i = Some m → is_Some (m !! k) → i = shard_index k.

Lemma shard_index_bound k : (shard_index k < numShards)%nat.
Proof.
  unfold shard_index, shardMask, numShards. change (Z.of_nat 16 - 1) with (Z.ones 4).
  rewrite Z.land_ones by lia. pose proof (Z.mod_pos_bound (hash k) (2 ^ 4) ltac:(lia)). lia.
Qed.

Lemma table_new k : table new_shards k = None.
Proof.
  unfold table, new_shards. rewrite lookup_replicate_2 by apply shard_index_bound. done.
Qed.

Lemma placed_new : placed new_shards.
Proof.
  split; [apply length_replicate|]. intros i m k [-> _]%lookup_replicate [x Hx].
  by rewrite lookup_empty in Hx.
Qed.

Lemma shard_lookup shards k : length shards = numShards → is_Some (shards !! shard_index k).
Proof. intros Hl. apply lookup_lt_is_Some. rewrite Hl. apply shard_index_bound. Qed.

Lemma table_Observe shards rec now k :
  length shards = numShards →
  table (Observe true false shards rec now) k =
  if decide (k = obs_key rec)
  then Some (observe_series (default new_series (table shards k)) rec now)
  else table shards k.
Proof.
  intros Hl. unfold Observe, table. cbn [negb orb].
  destruct (shard_lookup shards k Hl) as [m Hm]. rewrite Hm.
  destruct (decide (shard_index (obs_key rec) = shard_index k)) as [Hi|Hi].
  - rewrite Hi, list_lookup_alter_eq, Hm. cbn. unfold observe_shard. case_decide as Hk.
    + subst k. by rewrite lookup_insert_eq.
    + by rewrite lookup_insert_ne.
  - rewrite list_lookup_alter_ne, Hm by done. by rewrite decide_False by congruence.
Qed.

Lemma placed_Observe shards rec now :
  placed shards → placed (Observe true false shards rec now).
Proof.
  intros [Hl Hp]. unfold Observe. cbn [negb orb]. split; [by rewrite length_alter|].
  intros i m k. rewrite list_lookup_alter. case_decide as Hi; [subst i|apply Hp].
  intros (m0 & Hm0 & ->)%fmap_Some Hk. unfold observe_shard in Hk.
  destruct (decide (obs_key rec = k)) as [->|Hne]; [done|].
  rewrite lookup_insert_ne in Hk by done. by eapply Hp.
Qed.

Lemma merge_absent (l : list shard) (acc : shard) k :
  Forall (λ m, m !! k = None) l →
  fold_left (λ merged old, old ∪ merged) l acc !! k = acc !! k.
Proof.
  intros Hl. revert acc. induction Hl as [|m l Hm Hl IH]; intros acc; cbn; [done|].
  rewrite IH. by apply lookup_union_r.
Qed.

Lemma merge_one (l : list shard) (acc : shard) i k :
  acc !! k = None → (∀ j m, l !! j = Some m → is_Some (m !! k) → j = i) →
  fold_left (λ merged old, old ∪ merged) l acc !! k = l !! i ≫= (.!! k).
Proof.
  revert acc i. induction l as [|m l IH]; intros acc i Ha Hone; cbn; [done|].
  destruct i as [|i].
  - rewrite merge_absent.
    + cbn. destruct (m !! k) eqn:E; [by apply lookup_union_Some_l | by rewrite lookup_union_r].
    + apply Forall_lookup. intros j m' Hj. destruct (m' !! k) eqn:E; [|done].
      assert (S j = 0)%nat; [|done]. eapply Hone; [done | eauto].
  - cbn. apply IH.
    + rewrite lookup_union_r; [done|]. destruct (m !! k) eqn:E; [|done].
      assert (0 = S i)%nat; [|done]. by eapply (Hone 0%nat).
    + intros j m' Hj Hk. assert (S j = S i)%nat; [by eapply (Hone (S j)) | congruence].
Qed.

(** Swapping loses nothing and leaves nothing behind. *)
Lemma swapShards_spec shards :
  placed shards →
  (∀ k, (swapShards shards).1 !! k = table shards k) ∧ (swapShards shards).2 = new_shards.
Proof.
  intros [Hl Hp]. split.
  - intros k. apply merge_one; [done | eauto].
  - unfold swapShards, new_shards. rewrite <-Hl. cbn [snd]. clear.
    induction shards as [|m l IH]; [done|].
    rewrite fmap_cons. cbn [length replicate]. f_equal; [|exact IH].
    destruct (Nat.ltb_spec 0 (size m)); [done|]. apply map_size_empty_inv. lia.
Qed.

(** A window of records observed one after the other. *)
Definition observe_window shards (rs : recordings) : list shard :=
  fold_left (λ sh r, Observe true false sh r.1 r.2) rs shards.

Definition with_key k (rs : recordings) : recordings :=
  filter (λ r, obs_key r.1 = k) rs.

#[local] Arguments filter : simpl never.

Lemma observe_window_table rs k :
  placed (observe_window new_shards rs) ∧
  table (observe_window new_shards rs) k =
  match with_key k rs with [] => None | l => Some (observe_all new_series l) end.
Proof.
  induction rs as [|[r t] rs [Hp IH]] using rev_ind; [split; [apply placed_new | apply table_new]|].
  unfold observe_window. rewrite fold_left_app. cbn [fold_left fst snd]. fold (observe_window new_shards rs).
  split; [by apply placed_Observe|].
  rewrite table_Observe by apply Hp. rewrite IH. unfold with_key. rewrite filter_app.
  case_decide as Hk.
  - rewrite (filter_cons_True _ (r, t)) by done. rewrite filter_nil.
    fold (with_key k rs). unfold observe_all.
    destruct (with_key k rs) as [|x l]; [done|]. cbn. by rewrite fold_left_app.
  - rewrite (filter_cons_False _ (r, t)) by (cbn; congruence). by rewrite filter_nil, app_nil_r.
Qed.
End table.

(** The windows whose series are exactly the groups of [rs] by key. *)
Definition is_window `{MathLib} (rs : recordings) (window : shard) : Prop :=
  ∀ k, match window !! k with
       | None => with_key k rs = []
       | Some a => with_key k rs ≠ [] ∧ aggregates (with_key k rs) a
       end.

Lemma swapped_is_window `{M : MathLib} `{!Span} rs :
  log_nondecreasing →
  is_window rs (swapShards (observe_window new_shards rs)).1 ∧
  (swapShards (observe_window new_shards rs)).2 = new_shards.
Proof.
  intros Hlog. assert (Hp := observe_window_table rs (mkKey "" "" SC_2XX)).
  destruct (swapShards_spec _ (proj1 Hp)) as [Hw ->]. split; [|done]. intros k. rewrite Hw.
  destruct (observe_window_table rs k) as [_ ->].
  destruct (with_key k rs) as [|r l] eqn:E; [done|]. split; [done|].
  by apply agg_all.
Qed.

(** A flush takes out exactly what was observed: after any sequence of records on
    empty shards, the swapped window has a series for a key exactly when a record had
    that method, route and status class, that series is the aggregate of those records
    in order (count, sums, sketch, exact codes, labels, reasons, slowest and first
    errored exemplars), and the shards are left empty. *)
Theorem window_is_group_by `{M : MathLib} `{!Span} rs :
  log_nondecreasing →
  let '(window, shards) := swapShards (observe_window new_shards rs) in
  is_window rs window ∧ shards = new_shards.
Proof.
  intros Hlog. pose proof (swapped_is_window rs Hlog) as Hsw.
  by destruct (swapShards _) as [window shards].
Qed.

Definition get_ok : Observation :=
  mkObs "GET" "/users/:id" 200 (3 * Millisecond) 0 512 "t1" "s1" "" "" 0 0.
Definition get_fail : Observation :=
  mkObs "GET" "/users/:id" 503 (70 * Second) 10 0 "t2" "s2" "" "db: timeout" 0 (2 * Second).

Lemma window_is_group_by_witness :
  let '(window, shards) :=
    swapShards (@observe_window step_math new_shards
                  [(get_ok, UnixMilli 5); (get_fail, UnixMilli 7); (get_ok, UnixMilli 9)]) in
  @is_window step_math
    [(get_ok, UnixMilli 5); (get_fail, UnixMilli 7); (get_ok, UnixMilli 9)] window ∧
  shards = new_shards.
Proof. exact (@window_is_group_by step_math step_span _ step_log_nondecreasing). Defined.

(** The records of a window are partitioned by key. *)
Lemma partition_by_key (rs : recordings) (window : shard) :
  (∀ r, r ∈ rs → is_Some (window !! obs_key r.1)) →
  msum (λ k _, Z.of_nat (length (with_key k rs))) window = Z.of_nat (length rs).
Proof.
  intros Hin. induction rs as [|r rs IH].
  { apply msum_const_0. }
  rewrite (msum_ext _ (λ k a, (if decide (k = obs_key r.1) then 1 else 0) +
                              Z.of_nat (length (with_key k rs)))).
  - rewrite msum_add, msum_indicator, IH by set_solver. cbn [length]. lia.
  - intros k a _. unfold with_key. rewrite filter_cons. do 2 case_decide; subst; cbn; done || lia.
Qed.

Lemma window_total `{MathLib} rs window :
  is_window rs window →
  u64 (msum (λ _ a, Series.count a) window) = u64 (Z.of_nat (length rs)).
Proof.
  intros Hw. rewrite (msum_u64 _ (λ k _, Z.of_nat (length (with_key k rs)))).
  - rewrite partition_by_key; [done|]. intros r Hr. specialize (Hw (obs_key r.1)).
    destruct (window !! obs_key r.1); [done|].
    assert (Hin : r ∈ with_key (obs_key r.1) rs) by (by apply list_elem_of_filter).
    rewrite Hw in Hin. by apply elem_of_nil in Hin.
  - intros k a Ha. specialize (Hw k). rewrite Ha in Hw. destruct Hw as [_ Hag].
    by rewrite (ag_count _ _ Hag), u64_idemp.
Qed.
