(* ===== verification/Uploader.v ===== *)
(** * The background uploader (client/uploader.go)

    The select loop as a transition function on events (an observation, the flush timer,
    the retry timer with the outcome of the upload), the shutdown drain as a loop over
    the outcomes of its sends. The ring holds pointers: stamping the oldest request at
    send time changes the element in place, which [stamp_oldest] does. What leaves the ring
    is logged as sent or as evicted. *)

From Stdlib Require Import ZArith Lia ZifyBool.
From stdpp Require Import base option gmap fin_maps sets strings list.
From S2P Require Import Prelude GoFloat GoMath GoTime ClientConfig Wire Sketch Ring Sampler Series Recorder.

Local Open Scope Z_scope.

(** The state the loop owns. [retry] is the retry timer: stopped, or due in a delay. *)
Record uploader := mkUploader {
  cfg : Config; startTime : Time;
  shards : list shard; smp : sampler; ring : Ring UploadRequest;
  droppedSummaries : Z; closed : bool;
  inFlight : Z; inFlightPeak : Z;
  retry : option Duration; backoff : Duration;
}.

(** [newRecorderWithTransport] and the prologue of [run]. *)
Definition new_uploader (c : Config) (now : Time) : uploader :=
  mkUploader c now new_shards new_sampler (NewRing (ringCapacity (FlushWindow c)))
    0 false 0 0 None baseBackoff.

Definition handshake (c : Config) : Handshake :=
  mkHandshake (Service c) (Instance_ c) SdkVersion SketchFormatVersion.

Definition nextBackoff (cur : Duration) : Duration :=
  let next := i64 (cur * 2) in
  if maxBackoff <? next then maxBackoff else next.

Section loop.
Context `{MathLib}.
Implicit Types (u : uploader) (req : UploadRequest).

Definition buildRequest u (s : sampler) (peak : Z) (window : shard) (end_ : Time) (rd : Reading)
  : sampler * UploadRequest :=
  let start := time_add end_ (dur_neg (FlushWindow (cfg u))) in
  let startMs := to_unix_milli start in
  let endMs := to_unix_milli end_ in
  let summaries := build_summary startMs endMs <$> map_to_list window in
  let '(s', w) := sample s start end_ peak rd in
  (s', mkUpload
     (Some (mkEnvelope (Service (cfg u)) (Instance_ (cfg u)) SdkVersion SketchFormatVersion 0
              (DeployVersion (cfg u)) (DeployID (cfg u)) (Environment (cfg u)) (Region (cfg u))
              (to_unix_milli (startTime u))))
     summaries [Some w]).

Definition num_summaries req : Z := Z.of_nat (length (up_summaries req)).

(** [flush]: the request built and the one it evicted, if any. [takeInFlightPeak] reads
    the peak as a [uint64] and resets it to the requests in flight. *)
Definition flush u (windowEnd : Time) (rd : Reading)
  : uploader * option UploadRequest * option UploadRequest :=
  let '(window, shards') := swapShards (shards u) in
  if bool_decide (window = ∅) then
    (mkUploader (cfg u) (startTime u) shards' (smp u) (ring u) (droppedSummaries u) (closed u)
       (inFlight u) (inFlightPeak u) (retry u) (backoff u), None, None)
  else
    let '(smp', req) := buildRequest u (smp u) (u64 (inFlightPeak u)) window windowEnd rd in
    let '(ring', evicted) := Push (ring u) req in
    let dropped' := match evicted with
                    | Some e => u64 (droppedSummaries u + num_summaries e)
                    | None => droppedSummaries u
                    end in
    (mkUploader (cfg u) (startTime u) shards' smp' ring' dropped' (closed u)
       (inFlight u) (inFlight u) (retry u) (backoff u), Some req, evicted).

Definition stamp req (n : Z) : UploadRequest :=
  mkUpload ((λ e, set_dropped e n) <$> up_envelope req) (up_summaries req) (up_instance_windows req).

(** Writing through the pointer the oldest slot holds. *)
Definition stamp_oldest (r : Ring UploadRequest) (n : Z) : Ring UploadRequest :=
  mkRing (alter (fmap (λ req, stamp req n)) (head r) (buf r)) (head r) (rcount r).

Inductive drainResult := drainEmpty | drainSent | drainFailed.

(** [sendStamped]: [ok] is the outcome of the upload. *)
Definition sendStamped (dropped : Z) (ok : bool) : Z :=
  if ok then u64 (dropped - dropped) else dropped.

(** [tryDrainOldest], with the request delivered. *)
Definition tryDrainOldest u (ok : bool) : uploader * drainResult * option UploadRequest :=
  match Peek (ring u) with
  | None => (u, drainEmpty, None)
  | Some req =>
      let r := stamp_oldest (ring u) (droppedSummaries u) in
      let dropped := sendStamped (droppedSummaries u) ok in
      let r := if ok then (PopOldest r).1 else r in
      (mkUploader (cfg u) (startTime u) (shards u) (smp u) r dropped (closed u)
         (inFlight u) (inFlightPeak u) (retry u) (backoff u),
       if ok then drainSent else drainFailed,
       if ok then Some (stamp req (droppedSummaries u)) else None)
  end.

Definition set_retry u (t : option Duration) (b : Duration) : uploader :=
  mkUploader (cfg u) (startTime u) (shards u) (smp u) (ring u) (droppedSummaries u) (closed u)
    (inFlight u) (inFlightPeak u) t b.
Definition set_shards u (sh : list shard) : uploader :=
  mkUploader (cfg u) (startTime u) sh (smp u) (ring u) (droppedSummaries u) (closed u)
    (inFlight u) (inFlightPeak u) (retry u) (backoff u).
Definition set_closed u : uploader :=
  mkUploader (cfg u) (startTime u) (shards u) (smp u) (ring u) (droppedSummaries u) true
    (inFlight u) (inFlightPeak u) (retry u) (backoff u).
Definition set_inflight u (n peak : Z) : uploader :=
  mkUploader (cfg u) (startTime u) (shards u) (smp u) (ring u) (droppedSummaries u) (closed u)
    n peak (retry u) (backoff u).

(** ** The loop *)

Inductive event :=
  | EvObserve (rec : Observation) (now : Time)
  | EvBegin                                  (* BeginRequest, run to its end *)
  | EvEnd                                    (* the function it returned *)
  | EvFlush (now : Time) (rd : Reading)      (* <-flushTimer.C *)
  | EvRetry (ok : bool).                     (* <-retryTimer.C and the upload's outcome *)

(** What leaves the ring, in the order it does. *)
Inductive departure := Sent (req : UploadRequest) | Evicted (req : UploadRequest).

Record effects := mkEffects { built : list UploadRequest; departed : list departure }.

Definition no_effects : effects := mkEffects [] [].

Definition handle_flush u (now : Time) (rd : Reading) : uploader * effects :=
  let '(u', b, e) := flush u now rd in
  (if bool_decide (b ≠ None) && (Len (ring u') =? 1)%nat
   then set_retry u' (Some 0) (backoff u') else u',
   mkEffects (option_list b) (Evicted <$> option_list e)).

Definition handle_retry u (ok : bool) : uploader * effects :=
  let u := set_retry u None (backoff u) in
  let '(u', res, s) := tryDrainOldest u ok in
  (match res with
   | drainSent => set_retry u' (if (0 <? Len (ring u'))%nat then Some 0 else None) baseBackoff
   | drainFailed => set_retry u' (Some (backoff u')) (nextBackoff (backoff u'))
   | drainEmpty => u'
   end,
   mkEffects [] (Sent <$> option_list s)).

(** One event; the retry timer only fires when it is armed. *)
Definition loop_step u (e : event) : option (uploader * effects) :=
  match e with
  | EvObserve rec now => Some (set_shards u (Observe true (closed u) (shards u) rec now), no_effects)
  | EvBegin =>
      let n := i64 (inFlight u + 1) in
      Some (set_inflight u n (if n <=? inFlightPeak u then inFlightPeak u else n), no_effects)
  | EvEnd => Some (set_inflight u (i64 (inFlight u - 1)) (inFlightPeak u), no_effects)
  | EvFlush now rd => Some (handle_flush u now rd)
  | EvRetry ok => match retry u with Some _ => Some (handle_retry u ok) | None => None end
  end.

Definition and_then (a b : effects) : effects :=
  mkEffects (built a ++ built b) (departed a ++ departed b).

Fixpoint loop_run u (es : list event) : option (uploader * effects) :=
  match es with
  | [] => Some (u, no_effects)
  | e :: es =>
      '(u1, f1) ← loop_step u e;
      '(u2, f2) ← loop_run u1 es;
      Some (u2, and_then f1 f2)
  end.

(** ** Shutdown *)

(** The drain loop: one outcome per attempt, the list ends when the context expires. *)
Fixpoint shutdown_drain u (outcomes : list bool) : uploader * list UploadRequest :=
  match outcomes with
  | [] => (u, [])
  | ok :: outcomes =>
      if (0 <? Len (ring u))%nat then
        let '(u', _, s) := tryDrainOldest u ok in
        let '(u'', sent) := shutdown_drain u' outcomes in
        (u'', option_list s ++ sent)
      else (u, [])
  end.

(** [Shutdown] after the loop has exited. *)
Definition shutdown u (now : Time) (rd : Reading) (outcomes : list bool)
  : uploader * effects :=
  let '(u', b, e) := flush (set_closed u) now rd in
  let '(u'', sent) := shutdown_drain u' outcomes in
  (u'', mkEffects (option_list b) ((Evicted <$> option_list e) ++ (Sent <$> sent))).
End loop.

(** ** The queue behind the ring *)

Lemma stamp_oldest_refines r x xs n :
  rel r (x :: xs) → rel (stamp_oldest r n) (stamp x n :: xs) ∧ cap (stamp_oldest r n) = cap r.
Proof.
  intros [Hc Hh Hl Hb Hf Hn]. assert (Hcap : cap (stamp_oldest r n) = cap r)
    by (unfold cap; apply length_alter).
  assert (Hpos : ∀ i, pos (stamp_oldest r n) i = pos r i) by (intros; unfold pos; by rewrite Hcap).
  assert (Hsame : ∀ i, (0 < i < cap r)%nat → buf (stamp_oldest r n) !! pos r i = buf r !! pos r i).
  { intros i Hi. cbn. apply list_lookup_alter_ne. rewrite <-pos_0 by done.
    intros Heq. apply pos_inj in Heq; lia. }
  split; [|done]. cbn [length] in *. split; rewrite ?Hcap; cbn [length]; try done.
  - intros [|i] y Hy; rewrite Hpos.
    + injection Hy as <-. rewrite pos_0 by done. cbn. rewrite list_lookup_alter_eq.
      rewrite <-(pos_0 r) by done. by rewrite (Hf 0%nat x eq_refl).
    + rewrite Hsame; [by apply Hf|]. apply lookup_lt_Some in Hy. cbn in Hy. lia.
  - intros i Hi. rewrite Hpos, Hsame by lia. apply Hn. lia.
Qed.

Section loop_props.
Context {M : MathLib}.
Implicit Types (u : uploader) (req : UploadRequest) (xs : list UploadRequest).

Definition unstamp req : UploadRequest := stamp req 0.
Definition departure_req (d : departure) : UploadRequest :=
  match d with Sent r => r | Evicted r => r end.

(** The ring is the queue [xs] of complete requests. *)
Record queue_inv u xs : Prop := {
  qi_ring : rel (ring u) xs;
  qi_env : Forall (λ r, is_Some (up_envelope r)) xs;
  qi_dropped : is_u64 (droppedSummaries u);
}.

(** What the loop maintains: whenever something is pending the retry timer is armed, and
    delays stay within the backoff bounds. *)
Record loop_inv u xs : Prop := {
  li_queue : queue_inv u xs;
  li_armed : xs ≠ [] → is_Some (retry u);
  li_backoff : baseBackoff ≤ backoff u ≤ maxBackoff;
  li_delay : ∀ d, retry u = Some d → 0 ≤ d ≤ maxBackoff;
}.

Lemma loop_inv_new c now : loop_inv (new_uploader c now) [].
Proof. do 2 (split; try done). apply rel_New. Qed.

(** Summaries lost to eviction, and drops reported by delivered envelopes. *)
Definition lost (ds : list departure) : Z :=
  sumZ ((λ d, match d with Evicted r => num_summaries r | Sent _ => 0 end) <$> ds).
Definition reported (ds : list departure) : Z :=
  sumZ ((λ d, match d with Sent r => env_dropped_summaries (get_envelope r) | Evicted _ => 0 end) <$> ds).

(** How a step moves the queue: first in, first out, and every drop is either waiting in
    the counter or reported. *)
Definition moves u xs u' xs' (f : effects) : Prop :=
  (unstamp <$> xs) ++ built f = (unstamp ∘ departure_req <$> departed f) ++ (unstamp <$> xs') ∧
  u64 (droppedSummaries u' + reported (departed f)) = u64 (droppedSummaries u + lost (departed f)).

Lemma moves_refl u u' xs :
  droppedSummaries u' = droppedSummaries u → moves u xs u' xs no_effects.
Proof. intros Hd. split; cbn; [by rewrite app_nil_r | by rewrite Hd]. Qed.

Lemma lost_app d e : lost (d ++ e) = lost d + lost e.
Proof. unfold lost. by rewrite fmap_app, sumZ_app. Qed.
Lemma reported_app d e : reported (d ++ e) = reported d + reported e.
Proof. unfold reported. by rewrite fmap_app, sumZ_app. Qed.

Lemma moves_trans u1 x1 u2 x2 u3 x3 f g :
  moves u1 x1 u2 x2 f → moves u2 x2 u3 x3 g → moves u1 x1 u3 x3 (and_then f g).
Proof.
  intros [Hq1 Hd1] [Hq2 Hd2]. split; cbn [and_then built departed].
  - by rewrite fmap_app, app_assoc, Hq1, <-!app_assoc, Hq2.
  - rewrite lost_app, reported_app.
    replace (droppedSummaries u3 + (reported (departed f) + reported (departed g)))
      with (droppedSummaries u3 + reported (departed g) + reported (departed f)) by lia.
    rewrite <-u64_add_l, Hd2, u64_add_l.
    replace (droppedSummaries u2 + lost (departed g) + reported (departed f))
      with (droppedSummaries u2 + reported (departed f) + lost (departed g)) by lia.
    rewrite <-u64_add_l, Hd1, u64_add_l. f_equal. lia.
Qed.

Lemma unstamp_stamp req n : unstamp (stamp req n) = unstamp req.
Proof. destruct req as [[e|] s w]; done. Qed.

(** *** Each operation *)

Lemma flush_inv u xs now rd u' b e :
  queue_inv u xs → flush u now rd = (u', b, e) →
  ∃ xs', queue_inv u' xs' ∧ retry u' = retry u ∧ backoff u' = backoff u ∧
    (b = None → xs' = xs) ∧ (xs' ≠ [] → xs = [] → length xs' = 1%nat) ∧
    (length xs' ≤ S (length xs))%nat ∧
    moves u xs u' xs' (mkEffects (option_list b) (Evicted <$> option_list e)).
Proof.
  intros [Hr He Hd] Hf. unfold flush in Hf. destruct (swapShards _) as [window sh].
  case_bool_decide as Hw.
  { injection Hf as <- <- <-. exists xs. split_and!; try done; cbn; try lia. by apply moves_refl. }
  destruct (buildRequest _ _ _ _ _ _) as [smp' req] eqn:Hreq.
  destruct (Push_refines (ring u) xs req Hr) as (Hr' & Hev & _).
  destruct (Push (ring u) req) as [r' ev]. cbn [fst snd] in *.
  injection Hf as <- <- <-. cbn [retry backoff].
  assert (Hun : unstamp req = req ∧ is_Some (up_envelope req)).
  { unfold buildRequest in Hreq. destruct (sample _ _ _ _ _). by injection Hreq as _ <-. }
  destruct Hun as [Hun Hreqe]. unfold q_push in *.
  destruct (length xs =? cap (ring u))%nat; cbn [fst snd] in *; subst ev.
  - destruct xs as [|x xs]; cbn [tail hd_error] in *.
    + assert (Hreqs : Forall (λ r, is_Some (up_envelope r)) [req])
        by (constructor; [done | constructor]).
      exists [req]. split; [by split|]. split_and!; try done.
      split; cbn; [by rewrite Hun | done].
    + exists (xs ++ [req]). split_and!; try done; try (rewrite length_app; cbn; lia).
      * split; [done | | apply u64_range].
        apply Forall_app. split; [by inversion He | by repeat constructor].
      * split; cbn; [by rewrite fmap_app; cbn; rewrite Hun|].
        unfold lost, reported; cbn. autorewrite with go. f_equal. lia.
  - exists (xs ++ [req]). split_and!; try done.
    + split; [done | | done]. apply Forall_app. split; [done | by repeat constructor].
    + by intros _ ->.
    + rewrite length_app. cbn. lia.
    + split; cbn; [by rewrite fmap_app; cbn; rewrite Hun | done].
Qed.

Lemma drain_inv u xs ok u' res s :
  queue_inv u xs → tryDrainOldest u ok = (u', res, s) →
  ∃ xs', queue_inv u' xs' ∧ retry u' = retry u ∧ backoff u' = backoff u ∧
    length xs' = (if ok then length xs - 1 else length xs)%nat ∧
    res = match xs with [] => drainEmpty | _ => if ok then drainSent else drainFailed end ∧
    moves u xs u' xs' (mkEffects [] (Sent <$> option_list s)).
Proof.
  intros [Hr He Hd] Hf. unfold tryDrainOldest in Hf.
  destruct (Peek_refines _ _ Hr) as [Hp _]. rewrite Hp in Hf.
  destruct xs as [|x xs]; cbn [hd_error] in Hf.
  { injection Hf as <- <- <-. exists []. by destruct ok; split_and!. }
  destruct (stamp_oldest_refines _ _ _ (droppedSummaries u) Hr) as [Hs _].
  inversion He as [|? ? Hx Hxs]; subst.
  destruct ok; injection Hf as <- <- <-; cbn [retry backoff].
  - destruct (PopOldest_refines _ _ Hs) as (Hpop & _ & _). exists xs.
    assert (Hq : moves u (x :: xs) (mkUploader (cfg u) (startTime u) (shards u) (smp u)
      (PopOldest (stamp_oldest (ring u) (droppedSummaries u))).1
      (sendStamped (droppedSummaries u) true) (closed u) (inFlight u) (inFlightPeak u)
      (retry u) (backoff u)) xs
      (mkEffects [] (Sent <$> option_list (Some (stamp x (droppedSummaries u)))))).
    { split; cbn; [by rewrite unstamp_stamp, app_nil_r|]. unfold lost, reported.
      destruct Hx as [env Henv]. cbn. rewrite Henv, Z.sub_diag. cbn. f_equal; lia. }
    split_and!; try done; [split; try done; apply u64_range | cbn; lia].
  - exists (stamp x (droppedSummaries u) :: xs). split_and!; try done.
    + split; [done | | done]. constructor; [|done]. by destruct x as [[e|] ? ?]; [|destruct Hx].
    + split; cbn; [by rewrite unstamp_stamp, app_nil_r | done].
Qed.

Lemma nextBackoff_bounds d :
  baseBackoff ≤ d ≤ maxBackoff →
  baseBackoff ≤ nextBackoff d ≤ maxBackoff ∧ nextBackoff d = Z.min (2 * d) maxBackoff.
Proof.
  unfold nextBackoff, baseBackoff, maxBackoff, Second, Millisecond. intros Hd.
  rewrite i64_small by (unfold is_i64; lia).
  destruct (Z.ltb_spec (30 * (1000 * 1000000)) (d * 2)); lia.
Qed.

Lemma flush_step_inv u xs now rd u' f :
  loop_inv u xs → handle_flush u now rd = (u', f) →
  ∃ xs', loop_inv u' xs' ∧ moves u xs u' xs' f.
Proof.
  intros [Hq Harm Hbo Hdel] Hs. unfold handle_flush in Hs.
  destruct (flush u now rd) as [[u1 b] e] eqn:Hfl.
  destruct (flush_inv _ _ _ _ _ _ _ Hq Hfl) as (xs' & Hq' & Hrt & Hbk & Hnone & Hone & _ & Hm).
  pose proof (Peek_refines _ _ (qi_ring _ _ Hq')) as [_ Hlen]. rewrite Hlen in Hs.
  destruct (bool_decide (b ≠ None) && (length xs' =? 1)%nat) eqn:Hb; injection Hs as <- <-;
    exists xs'; (split; [|done]).
  - split; cbn; rewrite ?Hbk; try done; [by destruct Hq'|]. by intros d [= <-].
  - split; rewrite ?Hbk, ?Hrt; try done. intros Hne. destruct xs as [|x xs]; [|by apply Harm].
    specialize (Hone Hne eq_refl). rewrite Hone, andb_true_r in Hb.
    apply bool_decide_eq_false, dec_stable in Hb. by apply Hnone in Hb as ->.
Qed.

Lemma retry_step_inv u xs ok u' f :
  loop_inv u xs → handle_retry u ok = (u', f) →
  ∃ xs', loop_inv u' xs' ∧ moves u xs u' xs' f ∧
         length xs' = (if ok then length xs - 1 else length xs)%nat.
Proof.
  intros [Hq Harm Hbo Hdel] Hs. unfold handle_retry in Hs.
  set (u0 := set_retry u None (backoff u)) in *.
  assert (Hq0 : queue_inv u0 xs) by (by destruct Hq).
  destruct (tryDrainOldest u0 ok) as [[u1 res] s] eqn:Hdr.
  destruct (drain_inv _ _ _ _ _ _ Hq0 Hdr) as (xs' & Hq' & Hrt & Hbk & Hlen' & Hres & Hm).
  pose proof (Peek_refines _ _ (qi_ring _ _ Hq')) as [_ Hlen]. rewrite Hlen in Hs.
  pose proof (nextBackoff_bounds _ Hbo) as [Hnb _]. cbn in Hbk.
  injection Hs as <- <-. exists xs'. split; [|split; [by destruct res | done]].
  assert (Hzero : 0 ≤ 0 ≤ maxBackoff) by done.
  destruct xs as [|x xs]; cbn in Hres; subst res.
  - split; rewrite ?Hbk, ?Hrt; try done. intros Hne. destruct xs', ok; cbn in *; done.
  - destruct ok; cbn.
    + split; cbn; [by destruct Hq' | | done |].
      * destruct xs'; [done | by eexists].
      * intros d Hd. destruct xs'; by simplify_eq/=.
    + split; cbn; rewrite ?Hbk; [by destruct Hq' | by eexists | done |].
      intros d [= <-]. destruct Hbo as [Hb1 Hb2]. split; [|done].
      etransitivity; [|exact Hb1]. done.
Qed.

Lemma step_inv u xs e u' f :
  loop_inv u xs → loop_step u e = Some (u', f) →
  ∃ xs', loop_inv u' xs' ∧ moves u xs u' xs' f.
Proof.
  intros Hi Hs. destruct e as [rec now| | |now rd|ok]; cbn [loop_step] in Hs.
  1-3: injection Hs as <- <-; exists xs; destruct Hi as [[] ? ? ?];
    split; [by do 2 (split; try done) | by apply moves_refl].
  - injection Hs as Hs. by eapply flush_step_inv.
  - destruct (retry u); [|done]. injection Hs as Hs.
    destruct (retry_step_inv _ _ _ _ _ Hi Hs) as (xs' & ? & ? & _). by exists xs'.
Qed.

Lemma run_inv u xs es u' f :
  loop_inv u xs → loop_run u es = Some (u', f) →
  ∃ xs', loop_inv u' xs' ∧ moves u xs u' xs' f.
Proof.
  revert u xs f. induction es as [|e es IH]; intros u xs f Hi Hrun; cbn [loop_run] in Hrun.
  { injection Hrun as <- <-. exists xs. split; [done | by apply moves_refl]. }
  destruct (loop_step u e) as [[u1 f1]|] eqn:E1; [|done]. cbn [mbind option_bind] in Hrun.
  destruct (loop_run u1 es) as [[u2 f2]|] eqn:E2; [|done]. cbn in Hrun. injection Hrun as <- <-.
  destruct (step_inv _ _ _ _ _ Hi E1) as (x1 & Hi1 & Hm1).
  destruct (IH _ _ _ Hi1 E2) as (x2 & Hi2 & Hm2).
  exists x2. split; [done|]. by eapply moves_trans.
Qed.
End loop_props.

(** ** Delivery *)

(** [C16] First in, first out, and no silent loss: whatever the order of observations,
    flushes and upload outcomes, the requests built so far are, in order, those that left
    the ring (sent or evicted) followed by those still pending; and the summaries evicted
    are exactly those reported by delivered envelopes plus the counter that waits for the
    next one (modulo 2^64). *)
Theorem uploads_fifo_and_drops_reported `{M : MathLib} c now es u f :
  loop_run (new_uploader c now) es = Some (u, f) →
  ∃ pending, rel (ring u) pending ∧
    built f = (unstamp ∘ departure_req <$> departed f) ++ (unstamp <$> pending) ∧
    u64 (droppedSummaries u + reported (departed f)) = u64 (lost (departed f)).
Proof.
  intros Hrun. destruct (run_inv _ _ _ _ _ (loop_inv_new c now) Hrun) as (xs & [Hq _ _ _] & Hm & Hd).
  exists xs. split; [by destruct Hq|]. split; [done|]. by rewrite Hd.
Qed.

Definition small_config : Config := mkConfig "k" "e" "svc" "i1" (300 * Second) "" "" "" "".
Definition one_window (n : Z) : list event :=
  [EvObserve get_ok (UnixMilli n); EvFlush (UnixMilli n) (reading_at n)].
Definition ten_windows : list event :=
  mjoin (one_window <$> [1; 2; 3; 4; 5; 6; 7; 8; 9; 10]) ++ [EvRetry false; EvRetry true; EvRetry true].

(** Ten windows on a ring of eight: two are evicted and the first delivery reports both. *)
Definition ten_windows_run : option (uploader * effects) :=
  @loop_run step_math (new_uploader small_config 0) ten_windows.

Lemma ten_windows_drop :
  (λ uf, (reported (departed uf.2), lost (departed uf.2), droppedSummaries uf.1, Len (ring uf.1)))
    <$> ten_windows_run = Some (2, 2, 0, 6%nat).
Proof. vm_compute. done. Qed.

Lemma uploads_fifo_and_drops_reported_witness :
  match ten_windows_run with
  | None => False
  | Some (u, f) => ∃ pending, rel (ring u) pending ∧
      built f = (unstamp ∘ departure_req <$> departed f) ++ (unstamp <$> pending) ∧
      u64 (droppedSummaries u + reported (departed f)) = u64 (lost (departed f))
  end.
Proof.
  destruct ten_windows_run as [[u f]|] eqn:E.
  - exact (@uploads_fifo_and_drops_reported step_math small_config 0 ten_windows u f E).
  - vm_compute in E. discriminate E.
Defined.

Lemma drain_all `{M : MathLib} u xs :
  loop_inv u xs → ∀ n, n = length xs →
  ∃ u' f', loop_run u (replicate n (EvRetry true)) = Some (u', f') ∧ Len (ring u') = 0%nat.
Proof.
  intros Hi n. revert u xs Hi. induction n as [|n IH]; intros u xs Hi Hn.
  - exists u, no_effects. split; [done|]. rewrite Hn.
    by destruct (Peek_refines _ _ (qi_ring _ _ (li_queue _ _ Hi))) as [_ ->].
  - destruct (li_armed _ _ Hi) as [d Hd]; [by destruct xs|].
    destruct (handle_retry u true) as [u1 f1] eqn:E1.
    destruct (retry_step_inv _ _ _ _ _ Hi E1) as (x1 & Hi1 & _ & Hl1).
    destruct (IH u1 x1 Hi1) as (u' & f' & Hr & Hz); [lia|].
    exists u', (and_then f1 f'). split; [|done].
    cbn [replicate loop_run loop_step]. rewrite Hd, E1. cbn [mbind option_bind].
    by rewrite Hr.
Qed.

(** Nothing pending is stranded: in every reachable state of the loop, if uploads
    are pending the retry timer is armed within the maximal backoff, and as many
    successful sends as there are pending requests empty the ring. *)
Theorem pending_uploads_progress `{M : MathLib} c now es u f :
  loop_run (new_uploader c now) es = Some (u, f) →
  (Len (ring u) ≠ 0%nat → ∃ d, retry u = Some d ∧ 0 ≤ d ≤ maxBackoff) ∧
  ∃ u' f', loop_run u (replicate (Len (ring u)) (EvRetry true)) = Some (u', f') ∧
           Len (ring u') = 0%nat.
Proof.
  intros Hrun. destruct (run_inv _ _ _ _ _ (loop_inv_new c now) Hrun) as (xs & Hi & _).
  pose proof (Peek_refines _ _ (qi_ring _ _ (li_queue _ _ Hi))) as [_ Hlen]. split.
  - intros Hne. destruct (li_armed _ _ Hi) as [d Hd]; [intros ->; by rewrite Hlen in Hne|].
    exists d. split; [done|]. by apply (li_delay _ _ Hi).
  - apply drain_all with xs; [done | by rewrite Hlen].
Qed.

Lemma pending_uploads_progress_witness :
  match ten_windows_run with
  | None => False
  | Some (u, f) =>
      (Len (ring u) ≠ 0%nat → ∃ d, retry u = Some d ∧ 0 ≤ d ≤ maxBackoff) ∧
      ∃ u' f', @loop_run step_math u (replicate (Len (ring u)) (EvRetry true)) = Some (u', f') ∧
               Len (ring u') = 0%nat
  end.
Proof.
  destruct ten_windows_run as [[u f]|] eqn:E.
  - exact (@pending_uploads_progress step_math small_config 0 ten_windows u f E).
  - vm_compute in E. discriminate E.
Defined.

(** Consecutive failures back off exponentially: from a reset backoff, the delays
    after failed sends are 1s doubled each time and capped at 30s. *)
Theorem backoff_doubles n :
  Nat.iter n nextBackoff baseBackoff = Z.min (2 ^ Z.of_nat n * baseBackoff) maxBackoff.
Proof.
  induction n as [|n IH]; [done|].
  change (Nat.iter (S n) nextBackoff baseBackoff)
    with (nextBackoff (Nat.iter n nextBackoff baseBackoff)).
  assert (Hb : baseBackoff ≤ Nat.iter n nextBackoff baseBackoff ≤ maxBackoff).
  { rewrite IH. unfold baseBackoff, maxBackoff, Second, Millisecond.
    pose proof (Z.pow_pos_nonneg 2 (Z.of_nat n) ltac:(lia) ltac:(lia)). lia. }
  destruct (nextBackoff_bounds _ Hb) as [_ ->]. rewrite IH, Nat2Z.inj_succ, Z.pow_succ_r by lia.
  unfold baseBackoff, maxBackoff, Second, Millisecond. lia.
Qed.

(** ** Shutdown *)

Section shutdown_props.
Context {M : MathLib}.
Implicit Types (u : uploader) (xs : list UploadRequest).

Lemma shutdown_drain_inv u xs outcomes u' sent :
  queue_inv u xs → shutdown_drain u outcomes = (u', sent) →
  ∃ xs', queue_inv u' xs' ∧ closed u' = closed u ∧
    moves u xs u' xs' (mkEffects [] (Sent <$> sent)) ∧
    ((length xs ≤ count_occ Bool.bool_dec outcomes true)%nat → xs' = []).
Proof.
  revert u xs u' sent. induction outcomes as [|ok os IH]; intros u xs u' sent Hq Hd;
    cbn [shutdown_drain] in Hd.
  { injection Hd as <- <-. exists xs. split; [done|]. split; [done|]. split; [by apply moves_refl|].
    intros Hl. by destruct xs; [|cbn in Hl; lia]. }
  destruct (Peek_refines _ _ (qi_ring _ _ Hq)) as [_ Hlen]. rewrite Hlen in Hd.
  destruct xs as [|x xs].
  { injection Hd as <- <-. exists []. by split_and!. }
  cbn [length Nat.ltb Nat.leb] in Hd.
  destruct (tryDrainOldest u ok) as [[u1 res] s] eqn:Hdr.
  destruct (drain_inv _ _ _ _ _ _ Hq Hdr) as (x1 & Hq1 & _ & _ & Hl1 & _ & Hm1).
  assert (Hsh : closed u1 = closed u).
  { unfold tryDrainOldest in Hdr. destruct (Peek (ring u)); by injection Hdr as <- _ _. }
  destruct (shutdown_drain u1 os) as [u2 sent2] eqn:Hrec. injection Hd as <- <-.
  destruct (IH _ _ _ _ Hq1 Hrec) as (x2 & Hq2 & Hsh2 & Hm2 & Hdone).
  exists x2. split_and!; [done | congruence | |].
  - pose proof (moves_trans _ _ _ _ _ _ _ _ Hm1 Hm2) as Hm. unfold and_then in Hm.
    cbn [built departed app] in Hm. by rewrite <-fmap_app in Hm.
  - intros Hcount. apply Hdone. rewrite Hl1. cbn in Hcount |- *.
    destruct ok; cbn in *; lia.
Qed.
(** Only a window that finds the ring full evicts, and it evicts the oldest request. *)
Lemma flush_evicts u xs now rd u' b e :
  queue_inv u xs → flush u now rd = (u', b, e) →
  e = if bool_decide (b ≠ None) && (length xs =? cap (ring u))%nat then hd_error xs else None.
Proof.
  intros [Hr _ _] Hf. unfold flush in Hf. destruct (swapShards _) as [window sh]. case_bool_decide as Hw.
  { by injection Hf as _ <- <-. }
  destruct (buildRequest _ _ _ _ _ _) as [smp' req]. destruct (Push_refines (ring u) xs req Hr) as (_ & Hev & _).
  destruct (Push (ring u) req) as [r' ev]. cbn [snd] in Hev. injection Hf as _ <- <-. rewrite Hev. cbn. unfold q_push.
  by destruct (_ =? _)%nat.
Qed.

Lemma flush_built u now rd u' b e : flush u now rd = (u', b, e) → unstamp <$> option_list b = option_list b.
Proof.
  intros Hf. unfold flush in Hf. destruct (swapShards _) as [window sh]. case_bool_decide; [by injection Hf as _ <- _|].
  unfold buildRequest in Hf. destruct (sample _ _ _ _ _), (Push _ _). by injection Hf as _ <- _.
Qed.

(** A ring that is empty has no drops left to report. *)
Definition told u : Prop := Len (ring u) = 0%nat → droppedSummaries u = 0.

Lemma drain_told u xs ok u' res s :
  queue_inv u xs → told u → tryDrainOldest u ok = (u', res, s) → told u'.
Proof.
  intros Hq Ht Hd. destruct (drain_inv _ _ _ _ _ _ Hq Hd) as (xs' & Hq' & _ & _ & Hl & _). intros Hz.
  destruct (Peek_refines _ _ (qi_ring _ _ Hq')) as [_ Hlen']. destruct (Peek_refines _ _ (qi_ring _ _ Hq)) as [Hp Hlen].
  unfold tryDrainOldest in Hd. rewrite Hp in Hd. destruct xs as [|x xs]; cbn [hd_error] in Hd.
  - injection Hd as <- _ _. by apply Ht.
  - destruct ok; injection Hd as <- _ _; cbn [droppedSummaries sendStamped]; [by rewrite Z.sub_diag|].
    cbn in Hl. lia.
Qed.

Lemma flush_told u xs now rd u' b e : queue_inv u xs → told u → flush u now rd = (u', b, e) → told u'.
Proof.
  intros [Hr _ _] Ht Hf. unfold flush in Hf. destruct (swapShards _) as [window sh]. case_bool_decide as Hw.
  { by injection Hf as <- _ _. }
  destruct (buildRequest _ _ _ _ _ _) as [smp' req]. destruct (Push_refines (ring u) xs req Hr) as (Hr' & _ & _).
  destruct (Push (ring u) req) as [r' ev]. cbn [fst] in Hr'. injection Hf as <- _ _. intros Hz. cbn [ring] in Hz.
  destruct (Peek_refines _ _ Hr') as [_ Hlen]. rewrite Hlen in Hz. revert Hz. unfold q_push.
  destruct (_ =? _)%nat; cbn [fst]; rewrite length_app; cbn; lia.
Qed.

Lemma shutdown_drain_told u xs outcomes u' sent :
  queue_inv u xs → told u → shutdown_drain u outcomes = (u', sent) → told u'.
Proof.
  revert u xs u' sent. induction outcomes as [|ok os IH]; intros u xs u' sent Hq Ht Hd; cbn [shutdown_drain] in Hd.
  { by injection Hd as <- _. }
  destruct (_ <? _)%nat; [|by injection Hd as <- _].
  destruct (tryDrainOldest u ok) as [[u1 res] s] eqn:Hdr. pose proof (drain_told _ _ _ _ _ _ Hq Ht Hdr) as Ht1.
  destruct (drain_inv _ _ _ _ _ _ Hq Hdr) as (x1 & Hq1 & _).
  destruct (shutdown_drain u1 os) as [u2 sent2] eqn:Hrec. injection Hd as <- _. by eapply IH.
Qed.

Lemma run_told u xs es u' f : loop_inv u xs → told u → loop_run u es = Some (u', f) → told u'.
Proof.
  revert u xs u' f. induction es as [|e es IH]; intros u xs u' f Hi Ht Hr; cbn [loop_run] in Hr; [by injection Hr as <- _|].
  destruct (loop_step u e) as [[u1 f1]|] eqn:E1; [|done]. cbn in Hr.
  destruct (loop_run u1 es) as [[u2 f2]|] eqn:E2; [|done]. injection Hr as <- _.
  assert (H1 : loop_run u [e] = Some (u1, and_then f1 no_effects)) by (cbn; by rewrite E1).
  destruct (run_inv _ _ _ _ _ Hi H1) as (x1 & Hi1 & _). apply (IH u1 x1 u2 f2 Hi1); [|done].
  destruct e as [rec now| | |now rd|ok]; cbn [loop_step] in E1.
  - by injection E1 as <- _.
  - by injection E1 as <- _.
  - by injection E1 as <- _.
  - injection E1 as E1. unfold handle_flush in E1. destruct (flush u now rd) as [[u0 b] ev] eqn:Hfl.
    pose proof (flush_told _ _ _ _ _ _ _ (li_queue _ _ Hi) Ht Hfl) as H0. injection E1 as <- _. by destruct (_ && _).
  - destruct (retry u); [|done]. injection E1 as E1. unfold handle_retry in E1.
    destruct (tryDrainOldest _ ok) as [[u0 res] s] eqn:Hdr.
    assert (Hq : queue_inv (set_retry u None (backoff u)) xs) by (by destruct Hi as [[] ]).
    pose proof (drain_told _ _ _ _ _ _ Hq Ht Hdr) as H0. injection E1 as <- _. by destruct res.
Qed.
End shutdown_props.

(** ** From the records to the requests *)

Section windows.
Context {M : MathLib} {Hspan : @Span M}.
Hypothesis log_mono : log_nondecreasing.
Implicit Types (u : uploader) (rs cur : recordings) (req : UploadRequest).

(** The request is the group-by of the records [rs]. *)
Definition reports rs req : Prop :=
  rs ≠ [] ∧ ∃ window startMs endMs, is_window rs window ∧
    up_summaries req = build_summary startMs endMs <$> map_to_list window.

(** The records observed by a list of events. *)
Definition observed (es : list event) : recordings :=
  omap (λ e, match e with EvObserve r t => Some (r, t) | _ => None end) es.

Definition holds u cur : Prop := shards u = observe_window new_shards cur ∧ closed u = false.

Lemma flush_reports u cur now rd u' b e :
  shards u = observe_window new_shards cur → flush u now rd = (u', b, e) →
  shards u' = new_shards ∧ closed u' = closed u ∧
  match b with None => cur = [] | Some req => reports cur req end.
Proof.
  intros Hsh Hf. destruct (swapped_is_window cur log_mono) as [Hw Hnew]. rewrite <-Hsh in Hw, Hnew.
  unfold flush in Hf. destruct (swapShards (shards u)) as [window sh]. cbn [fst snd] in *. subst sh.
  case_bool_decide as He.
  { injection Hf as <- <- <-. split_and!; try done. destruct cur as [|r cur]; [done|].
    specialize (Hw (obs_key r.1)). rewrite He, lookup_empty in Hw.
    unfold with_key in Hw. by rewrite filter_cons_True in Hw by done. }
  destruct (buildRequest _ _ _ _ _ _) as [smp' req] eqn:Hreq.
  destruct (Push (ring u) req) as [r' ev]. injection Hf as <- <- <-.
  split; [done|]. split; [done|]. split.
  - intros ->. apply He, map_eq. intros k. specialize (Hw k). rewrite lookup_empty.
    by destruct (window !! k); [destruct Hw|].
  - unfold buildRequest in Hreq. destruct (sample _ _ _ _ _). injection Hreq as _ <-.
    by eexists window, _, _.
Qed.

Lemma run_reports u cur es u' f :
  holds u cur → loop_run u es = Some (u', f) →
  ∃ slices cur', cur ++ observed es = concat slices ++ cur' ∧
    Forall2 reports slices (built f) ∧ holds u' cur'.
Proof.
  revert u cur u' f. induction es as [|e es IH]; intros u cur u' f Hh Hrun; cbn [loop_run] in Hrun.
  { injection Hrun as <- <-. exists [], cur. by rewrite app_nil_r. }
  destruct (loop_step u e) as [[u1 f1]|] eqn:E1; [|done]. cbn [mbind option_bind] in Hrun.
  destruct (loop_run u1 es) as [[u2 f2]|] eqn:E2; [|done]. cbn in Hrun. injection Hrun as <- <-.
  assert (Hstep : ∃ slices cur1, cur ++ observed [e] = concat slices ++ cur1 ∧
            Forall2 reports slices (built f1) ∧ holds u1 cur1).
  { destruct Hh as [Hsh Hcl]. destruct e as [rec now| | |now rd|ok]; cbn [loop_step] in E1.
    - injection E1 as <- <-. exists [], (cur ++ [(rec, now)]). split_and!; [done..|].
      split; [|done]. cbn [set_shards shards]. rewrite Hcl, Hsh.
      unfold observe_window. by rewrite fold_left_app.
    - injection E1 as <- <-. exists [], cur. by rewrite app_nil_r.
    - injection E1 as <- <-. exists [], cur. by rewrite app_nil_r.
    - injection E1 as E1. unfold handle_flush in E1.
      destruct (flush u now rd) as [[u0 b] ev] eqn:Hfl.
      destruct (flush_reports _ _ _ _ _ _ _ Hsh Hfl) as (Hsh0 & Hcl0 & Hb).
      assert (Hu1 : shards u1 = new_shards ∧ closed u1 = false ∧ built f1 = option_list b).
      { destruct (_ && _); injection E1 as <- <-; cbn; by rewrite ?Hcl0. }
      destruct Hu1 as (Hs1 & Hc1 & ->). destruct b as [req|].
      + exists [cur], []. cbn. rewrite !app_nil_r. split; [done|].
        split; [by constructor | by split].
      + exists [], []. subst cur. split; [done|]. split; [constructor | by split].
    - destruct (retry u); [|done]. injection E1 as E1. exists [], cur.
      unfold handle_retry in E1. rewrite app_nil_r. split; [done|].
      unfold tryDrainOldest in E1. destruct (Peek _).
      + destruct ok; injection E1 as <- <-; done.
      + injection E1 as <- <-; done. }
  destruct Hstep as (sl1 & cur1 & Heq1 & Hf1 & Hh1).
  destruct (IH _ _ _ _ Hh1 E2) as (sl2 & cur2 & Heq2 & Hf2 & Hh2).
  exists (sl1 ++ sl2), cur2. split_and!; [|by apply Forall2_app|done].
  change (e :: es) with ([e] ++ es). unfold observed. rewrite omap_app.
  fold (observed [e]) (observed es). by rewrite app_assoc, Heq1, <-app_assoc, Heq2, concat_app, app_assoc.
Qed.
End windows.

(** [C15] A graceful shutdown ships everything that is pending. From the start of a recorder,
    after any run of the loop, suppose that among the sends attempted before the shutdown's
    context expires as many succeed as there are requests to send, those pending and the last
    window. Then the ring ends up empty, and what left it in the shutdown was sent, in order:
    all that was pending and the last window, except that a last window that finds the ring
    full first evicts the oldest request. Over the whole life of the recorder the requests
    that left, each sent or evicted, are the group-bys of consecutive slices of the observed
    records, so every record is in exactly one of them; the summaries of the evicted ones are
    all reported by envelopes that were sent (modulo 2^64). Later observations change
    nothing. *)
Theorem shutdown_ships_everything `{M : MathLib} `{!Span} c now es u f t rd outcomes :
  log_nondecreasing → loop_run (new_uploader c now) es = Some (u, f) →
  (S (Len (ring u)) ≤ count_occ Bool.bool_dec outcomes true)%nat →
  let '(u', g) := shutdown u t rd outcomes in
  Len (ring u') = 0%nat ∧
  (∃ pending last evicted sent, rel (ring u) pending ∧ built g = option_list last ∧
    departed g = (Evicted <$> option_list evicted) ++ (Sent <$> sent) ∧
    unstamp <$> (pending ++ option_list last) = unstamp <$> (option_list evicted ++ sent) ∧
    evicted = (if bool_decide (last ≠ None) && (length pending =? cap (ring u))%nat then hd_error pending else None)) ∧
  (∃ slices, observed es = concat slices ∧
    Forall2 (λ slice d, ∃ req, (d = Sent req ∨ d = Evicted req) ∧ reports slice (unstamp req)) slices (departed f ++ departed g)) ∧
  u64 (reported (departed f ++ departed g)) = u64 (lost (departed f ++ departed g)) ∧
  ∀ rec now', loop_step u' (EvObserve rec now') = Some (u', no_effects).
Proof.
  intros Hlog Hrun Hcount. pose proof (loop_inv_new c now) as Hinv0.
  destruct (run_inv _ _ _ _ _ Hinv0 Hrun) as (xs & [Hq _ _ _] & Hm).
  assert (H0 : holds (new_uploader c now) []) by done.
  destruct (run_reports Hlog _ _ _ _ _ H0 Hrun) as (slices & cur & Hobs & Hrep & Hsh & Hcl).
  pose proof (run_told _ _ _ _ _ Hinv0 (λ _, eq_refl) Hrun) as Htold.
  unfold shutdown. destruct (flush (set_closed u) t rd) as [[u1 b] e] eqn:Hfl.
  assert (Hqc : queue_inv (set_closed u) xs) by (by destruct Hq).
  destruct (flush_inv _ _ _ _ _ _ _ Hqc Hfl) as (x1 & Hq1 & _ & _ & _ & _ & Hl1 & Hm1).
  pose proof (flush_evicts _ _ _ _ _ _ _ Hqc Hfl) as Hev.
  destruct (flush_reports Hlog (set_closed u) cur _ _ _ _ _ Hsh Hfl) as (_ & Hcl1 & Hb).
  destruct (shutdown_drain u1 outcomes) as [u2 sent] eqn:Hdr.
  destruct (shutdown_drain_inv _ _ _ _ _ Hq1 Hdr) as (x2 & Hq2 & Hcl2 & Hm2 & Hdone).
  assert (Ht2 : told u2).
  { refine (shutdown_drain_told _ _ _ _ _ Hq1 _ Hdr). exact (flush_told (set_closed u) _ _ _ _ _ _ Hqc Htold Hfl). }
  destruct (Peek_refines _ _ (qi_ring _ _ Hq)) as [_ Hlen]. rewrite Hlen in Hcount.
  assert (Hx2 : x2 = []) by (apply Hdone; lia). subst x2.
  assert (Hz : Len (ring u2) = 0%nat) by (by destruct (Peek_refines _ _ (qi_ring _ _ Hq2))).
  pose proof (moves_trans _ _ _ _ _ _ _ _ Hm1 Hm2) as Hm'.
  destruct (moves_trans _ _ _ _ _ _ _ _ Hm Hm') as [Hall Hdrops].
  cbn [and_then built departed app fmap list_fmap] in Hall, Hdrops.
  split; [done|]. split_and!.
  - exists xs, b, e, sent. split; [by destruct Hq|]. split; [done|]. split; [done|]. split; [|exact Hev].
    destruct Hm' as [Hm' _]. cbn in Hm'. rewrite !app_nil_r, !fmap_app in Hm'.
    rewrite !fmap_app, (flush_built _ _ _ _ _ _ Hfl), Hm', <-!list_fmap_compose. done.
  - rewrite app_nil_r in Hall. cbn [departed].
    exists (slices ++ (if b is Some _ then [cur] else [])). split.
    + cbn in Hobs. rewrite Hobs, concat_app. f_equal. destruct b; cbn; by rewrite ?app_nil_r.
    + assert (Hf2 : Forall2 reports (slices ++ (if b is Some _ then [cur] else []))
        (unstamp ∘ departure_req <$> (departed f ++ ((Evicted <$> option_list e) ++ (Sent <$> sent))))).
      { rewrite app_nil_r in Hall. rewrite <-Hall. apply Forall2_app; [done|]. destruct b; cbn; [by constructor | constructor]. }
      rewrite Forall2_fmap_r in Hf2. eapply Forall2_impl; [exact Hf2|]. intros sl [req|req] Hr; exists req; eauto.
  - rewrite (Ht2 Hz) in Hdrops. exact Hdrops.
  - intros rec now'. cbn [loop_step]. unfold Observe. rewrite Hcl2, Hcl1. cbn. by destruct u2.
Qed.

Lemma shutdown_ships_everything_witness :
  match ten_windows_run with
  | None => False
  | Some (u, f) =>
      let '(u', g) := @shutdown step_math u 0 (reading_at 99) (replicate 9 true) in
      Len (ring u') = 0%nat ∧ length (departed g) = 6%nat ∧
      (∃ pending last evicted sent, rel (ring u) pending ∧ built g = option_list last ∧
        departed g = (Evicted <$> option_list evicted) ++ (Sent <$> sent) ∧
        unstamp <$> (pending ++ option_list last) = unstamp <$> (option_list evicted ++ sent) ∧
        evicted = (if bool_decide (last ≠ None) && (length pending =? cap (ring u))%nat then hd_error pending else None)) ∧
      u64 (reported (departed f ++ departed g)) = u64 (lost (departed f ++ departed g))
  end.
Proof.
  pose proof ten_windows_drop as Hd. destruct ten_windows_run as [[u f]|] eqn:E; [|discriminate Hd].
  injection Hd as _ _ _ Hl.
  assert (H6 : length (departed (@shutdown step_math u 0 (reading_at 99) (replicate 9 true)).2) = 6%nat).
  { clear Hl. vm_compute in E. injection E as <- _. vm_compute. reflexivity. }
  pose proof (@shutdown_ships_everything step_math step_span small_config 0 ten_windows u f 0
           (reading_at 99) (replicate 9 true) step_log_nondecreasing E) as T.
  destruct (shutdown _ _ _ _) as [u' g]. destruct T as (T1 & T2 & _ & T4 & _); [rewrite Hl; vm_compute; repeat constructor|].
  exact (conj T1 (conj H6 (conj T2 T4))).
Defined.
