(* ===== verification/Concurrency.v ===== *)
(** * Interleavings of the client (client/maping.go, client/uploader.go)

    Two places where the code's steps interleave with requests: the shard swap, whose
    copy runs after the shard's lock is released, and the in-flight peak, kept with
    atomics. Maps and series are objects in a store here, because both are shared. *)

From Stdlib Require Import ZArith Lia.
From stdpp Require Import base option gmap fin_maps sets strings list.
From S2P Require Import Prelude GoFloat GoMath GoTime Wire Sketch Series Recorder.

Local Open Scope Z_scope.

(** ** The swap of one shard *)

Module Swap.

(** The store of one shard: map objects, series objects, the pointer [sh.m], and the map
    [merged] the uploader fills. *)
Record state := mkState {
  maps : gmap nat (gmap seriesKey nat);
  objs : gmap nat series;
  sh_m : nat;
  fresh : nat;
  old : nat;
  merged : gmap seriesKey nat;
}.

Definition init : state := mkState {[ 0%nat := ∅ ]} ∅ 0 1 0 ∅.

Definition cur (s : state) : gmap seriesKey nat := default ∅ (maps s !! sh_m s).

Inductive step :=
  | Observed (rec : Observation) (now : Time) (* the locked body of Observe *)
  | SwapLocked                                (* lock; old := sh.m; replace; unlock *)
  | CopyOld                                   (* maps.Copy(merged, old) *)
  | NextWindow.                               (* a fresh merged map for the next flush *)

Definition exec `{MathLib} (s : state) (st : step) : state :=
  match st with
  | Observed rec now =>
      let key := obs_key rec in
      match cur s !! key with
      | Some o =>
          mkState (maps s) (alter (λ a, observe_series a rec now) o (objs s)) (sh_m s) (fresh s)
            (old s) (merged s)
      | None =>
          mkState (<[sh_m s := <[key := fresh s]> (cur s)]> (maps s))
            (<[fresh s := observe_series new_series rec now]> (objs s)) (sh_m s) (S (fresh s))
            (old s) (merged s)
      end
  | SwapLocked =>
      if (0 <? size (cur s))%nat then
        mkState (<[fresh s := ∅]> (maps s)) (objs s) (fresh s) (S (fresh s)) (sh_m s) (merged s)
      else mkState (maps s) (objs s) (sh_m s) (fresh s) (sh_m s) (merged s)
  | CopyOld =>
      mkState (maps s) (objs s) (sh_m s) (fresh s) (old s)
        (default ∅ (maps s !! old s) ∪ merged s)
  | NextWindow => mkState (maps s) (objs s) (sh_m s) (fresh s) (old s) ∅
  end.

Definition run `{MathLib} (s : state) (l : list step) : state := fold_left exec l s.

(** The window [buildRequest] reads: the series objects behind [merged]. *)
Definition window (s : state) : gmap seriesKey series := omap (λ o, objs s !! o) (merged s).

(** The number of requests a window reports. *)
Definition reported (s : state) : Z := msum (λ _ a, Series.count a) (window s).

(** References are older than the allocation counter, and the current map is allocated. *)
Record wf (s : state) : Prop := {
  wf_cur : is_Some (maps s !! sh_m s);
  wf_maps : ∀ l, is_Some (maps s !! l) → (l < fresh s)%nat;
  wf_refs : ∀ l m k o, maps s !! l = Some m → m !! k = Some o → (o < fresh s)%nat;
  wf_disjoint : ∀ l m k k' o, maps s !! l = Some m → l ≠ sh_m s →
                  m !! k = Some o → cur s !! k' ≠ Some o;
}.

Lemma wf_init : wf init.
Proof.
  split; cbn.
  - by eexists.
  - intros l [m [<- _]%lookup_singleton_Some]. lia.
  - intros l m k o [_ <-]%lookup_singleton_Some Ho. by rewrite lookup_empty in Ho.
  - by intros l m k k' o [<- _]%lookup_singleton_Some Hne.
Qed.

Definition observes (rs : recordings) : list step := (λ r, Observed r.1 r.2) <$> rs.

Section isolation.
Context `{M : MathLib}.

(** Once the map is detached, observations leave it and its series alone. *)
Record detached (s s' : state) (l : nat) : Prop := {
  dt_map : maps s' !! l = maps s !! l;
  dt_objs : ∀ m k o, maps s !! l = Some m → m !! k = Some o → objs s' !! o = objs s !! o;
  dt_rest : old s' = old s ∧ merged s' = merged s;
}.

Lemma observed_wf s rec now : wf s → wf (exec s (Observed rec now)).
Proof.
  intros [Hcur Hmaps Hrefs Hdis]. cbn [exec].
  destruct (cur s !! obs_key rec) as [o|] eqn:Hk; [by split|].
  split; cbn [maps objs sh_m fresh old merged].
  - rewrite lookup_insert_eq. by eexists.
  - intros l' [m Hm]. destruct (decide (l' = sh_m s)) as [->|Hne].
    + specialize (Hmaps _ Hcur). lia.
    + rewrite lookup_insert_ne in Hm by done. specialize (Hmaps l' ltac:(eauto)). lia.
  - intros l' m k o Hm Ho. destruct (decide (l' = sh_m s)) as [->|Hne].
    + rewrite lookup_insert_eq in Hm. injection Hm as <-.
      destruct (decide (obs_key rec = k)) as [<-|Hk'].
      * rewrite lookup_insert_eq in Ho. injection Ho as <-. lia.
      * rewrite lookup_insert_ne in Ho by done. unfold cur in Ho.
        destruct Hcur as [m Hm]. rewrite Hm in Ho. cbn in Ho.
        specialize (Hrefs _ _ _ _ Hm Ho). lia.
    + rewrite lookup_insert_ne in Hm by done. specialize (Hrefs _ _ _ _ Hm Ho). lia.
  - intros l' m k k' o Hm Hne Ho. rewrite lookup_insert_ne in Hm by done.
    unfold cur. cbn [maps sh_m]. rewrite lookup_insert_eq. cbn.
    destruct (decide (obs_key rec = k')) as [<-|Hk'].
    + rewrite lookup_insert_eq. intros [= <-]. specialize (Hrefs _ _ _ _ Hm Ho). lia.
    + rewrite lookup_insert_ne by done. by eapply Hdis.
Qed.

Lemma observed_detached s rec now l :
  wf s → l ≠ sh_m s → detached s (exec s (Observed rec now)) l ∧
  sh_m (exec s (Observed rec now)) = sh_m s.
Proof.
  intros [Hcur Hmaps Hrefs Hdis] Hl. cbn [exec].
  destruct (cur s !! obs_key rec) as [o|] eqn:Hk.
  - split; [|done]. split; [done| |done]. cbn.
    intros m k o' Hm Ho. rewrite lookup_alter_ne; [done|]. intros ->.
    by apply (Hdis l m k (obs_key rec) o').
  - split; [split|done]; cbn [maps objs sh_m fresh old merged].
    + by rewrite lookup_insert_ne.
    + intros m k o Hm Ho. rewrite lookup_insert_ne; [done|]. intros <-.
      specialize (Hrefs _ _ _ _ Hm Ho). lia.
    + done.
Qed.

Lemma observes_detached rs s l :
  wf s → l ≠ sh_m s → detached s (run s (observes rs)) l.
Proof.
  revert s. induction rs as [|r rs IH]; intros s Hwf Hl; [by split|].
  pose proof (observed_wf s r.1 r.2 Hwf) as Hwf'.
  destruct (observed_detached s r.1 r.2 l Hwf Hl) as (Hd & Hsh).
  change (run s (observes (r :: rs))) with (run (exec s (Observed r.1 r.2)) (observes rs)).
  specialize (IH _ Hwf' ltac:(by rewrite Hsh)). destruct Hd as [Hm Ho [Hold Hmg]].
  destruct IH as [Hm' Ho' [Hold' Hmg']]. split.
  - congruence.
  - intros m k o Hlk Hk. rewrite (Ho' m k o), (Ho m k o); [done..| congruence | done].
  - split; congruence.
Qed.

Lemma swap_wf s :
  wf s → cur s ≠ ∅ → wf (exec s SwapLocked) ∧ old (exec s SwapLocked) = sh_m s ∧
    sh_m (exec s SwapLocked) ≠ sh_m s ∧
    maps (exec s SwapLocked) !! sh_m s = Some (cur s) ∧
    objs (exec s SwapLocked) = objs s ∧ merged (exec s SwapLocked) = merged s.
Proof.
  intros [Hcur Hmaps Hrefs Hdis] Hne. cbn [exec].
  destruct (Nat.ltb_spec 0 (size (cur s))) as [_|Hs].
  2: { exfalso. apply Hne, map_size_empty_inv. lia. }
  pose proof (Hmaps _ Hcur) as Hlt. split_and!; cbn; try done; try lia.
  - split; cbn.
    + rewrite lookup_insert_eq. by eexists.
    + intros l [m Hm]. destruct (decide (l = fresh s)) as [->|Hne']; [lia|].
      rewrite lookup_insert_ne in Hm by done. specialize (Hmaps l ltac:(eauto)). lia.
    + intros l m k o Hm Ho. destruct (decide (l = fresh s)) as [->|Hne'].
      * rewrite lookup_insert_eq in Hm. injection Hm as <-. by rewrite lookup_empty in Ho.
      * rewrite lookup_insert_ne in Hm by done. specialize (Hrefs _ _ _ _ Hm Ho). lia.
    + intros l m k k' o _ _ _. unfold cur; cbn. by rewrite lookup_insert_eq.
  - rewrite lookup_insert_ne by lia. unfold cur. by destruct Hcur as [m ->].
Qed.
End isolation.
End Swap.

(** Swapping a shard that has series is isolated: whatever is observed between the
    unlock and the copy, the window is the one the shard held at the swap. *)
Theorem swap_nonempty_isolated `{MathLib} s rs :
  Swap.wf s → Swap.cur s ≠ ∅ → Swap.merged s = ∅ →
  let s' := Swap.run s (Swap.SwapLocked :: Swap.observes rs ++ [Swap.CopyOld]) in
  Swap.window s' = omap (λ o, Swap.objs s !! o) (Swap.cur s).
Proof.
  intros Hwf Hne Hmg s'. subst s'. unfold Swap.run. cbn [fold_left]. rewrite fold_left_app.
  destruct (Swap.swap_wf s Hwf Hne) as (Hwf1 & Hold & Hsh & Hmap & Hobj & Hmg1).
  set (s1 := Swap.exec s Swap.SwapLocked) in *.
  assert (Hl : Swap.sh_m s ≠ Swap.sh_m s1) by done.
  pose proof (Swap.observes_detached rs s1 _ Hwf1 Hl) as [Hm Ho [Hold2 Hmg2]].
  unfold Swap.run in Hm, Ho, Hold2, Hmg2.
  set (s2 := fold_left Swap.exec (Swap.observes rs) s1) in *. cbn [fold_left].
  unfold Swap.window. cbn [Swap.exec Swap.merged Swap.objs].
  rewrite Hold2, Hold, Hmg2, Hmg1, Hmg, Hm, Hmap. cbn. rewrite map_union_empty.
  apply map_eq. intros k. rewrite !lookup_omap. destruct (Swap.cur s !! k) as [o|] eqn:Hk; [|done].
  cbn. by rewrite (Ho _ _ _ Hmap Hk), Hobj.
Qed.

Definition busy_shard : Swap.state :=
  @Swap.run step_math Swap.init [Swap.Observed get_ok 0; Swap.Observed get_fail 1].

Lemma swap_nonempty_isolated_witness :
  let s' := @Swap.run step_math busy_shard
              (Swap.SwapLocked :: Swap.observes [(get_ok, 2)] ++ [Swap.CopyOld]) in
  Swap.window s' = omap (λ o, Swap.objs busy_shard !! o) (Swap.cur busy_shard).
Proof.
  apply (@swap_nonempty_isolated step_math busy_shard [(get_ok, 2)]).
  - pose proof (@Swap.observed_wf step_math) as Hw. unfold busy_shard. cbn [Swap.run fold_left].
    apply Hw, Hw, Swap.wf_init.
  - intros He. apply (f_equal size) in He. vm_compute in He. discriminate He.
  - reflexivity.
Defined.


(** Swapping an empty shard is not: the map stays in place and is copied after the
    unlock, so a request observed in between is reported in this window and, its series
    still being in the shard, again in the next one. *)
Theorem swap_empty_double_counts `{MathLib} rec now :
  let s1 := Swap.run Swap.init [Swap.SwapLocked; Swap.Observed rec now; Swap.CopyOld] in
  let s2 := Swap.run s1 [Swap.NextWindow; Swap.SwapLocked; Swap.CopyOld] in
  Swap.reported s1 = 1 ∧ Swap.reported s2 = 1.
Proof.
  intros s1 s2. set (a := observe_series new_series rec now).
  assert (Hs1 : s1 = Swap.mkState {[0%nat := {[obs_key rec := 1%nat]}]} {[1%nat := a]}
                       0 2 0 {[obs_key rec := 1%nat]}).
  { subst s1. unfold Swap.run. cbn [fold_left].
    change (Swap.exec Swap.init Swap.SwapLocked) with Swap.init.
    cbn [Swap.exec]. change (Swap.cur Swap.init) with (∅ : gmap seriesKey nat).
    rewrite lookup_empty. cbn. rewrite insert_singleton_eq, lookup_singleton_eq.
    rewrite map_union_empty. done. }
  assert (Hc : Series.count a = 1).
  { subst a. unfold observe_series. by destruct (Sketch.Add _ _). }
  assert (Hone : ∀ ms l f o, Swap.reported (Swap.mkState ms {[1%nat := a]} l f o
                               {[obs_key rec := 1%nat]}) = 1).
  { intros ms l f o. unfold Swap.reported, Swap.window. cbn.
    rewrite omap_singleton_Some with (y := a) by apply lookup_singleton_eq.
    unfold msum. rewrite map_to_list_singleton. cbn. lia. }
  split; [by rewrite Hs1|]. subst s2. rewrite Hs1. unfold Swap.run. cbn [fold_left].
  unfold Swap.exec at 2. unfold Swap.cur. cbn [Swap.exec Swap.maps Swap.sh_m].
  rewrite lookup_singleton_eq. cbn. rewrite map_size_singleton. cbn.
  rewrite lookup_insert_ne, lookup_singleton_eq by done. cbn. rewrite map_union_empty. apply Hone.
Qed.

(** ** The in-flight peak *)

Module InFlight.

(** A request between the two atomics of [BeginRequest]: before the load of the peak,
    holding the loaded peak before the compare-and-swap, or past the loop. [n] is what
    [inFlight.Add(1)] returned. *)
Inductive pc := AtLoad | AtCAS (p : Z) | Begun.

Record state := mkState {
  inFlight : Z;
  inFlightPeak : Z;
  threads : list (Z * pc);
  taking : option Z;   (* takeInFlightPeak holds the loaded in-flight count *)
  taken : list Z;      (* the peaks returned so far *)
}.

Definition init : state := mkState 0 0 [] None [].

Definition set_thread (s : state) (i : nat) (t : Z * pc) (peak : Z) : state :=
  mkState (inFlight s) peak (<[i := t]> (threads s)) (taking s) (taken s).

Inductive step : state → state → Prop :=
  | Begin s :
      step s (mkState (inFlight s + 1) (inFlightPeak s) (threads s ++ [(inFlight s + 1, AtLoad)])
                (taking s) (taken s))
  | LoadPeak s i n :
      threads s !! i = Some (n, AtLoad) →
      step s (set_thread s i (n, if n <=? inFlightPeak s then Begun else AtCAS (inFlightPeak s))
                (inFlightPeak s))
  | CompareAndSwap s i n p :
      threads s !! i = Some (n, AtCAS p) →
      step s (if inFlightPeak s =? p then set_thread s i (n, Begun) n
              else set_thread s i (n, AtLoad) (inFlightPeak s))
  | Done s :
      step s (mkState (inFlight s - 1) (inFlightPeak s) (threads s) (taking s) (taken s))
  | TakeLoad s :
      taking s = None →
      step s (mkState (inFlight s) (inFlightPeak s) (threads s) (Some (inFlight s)) (taken s))
  | TakeSwap s c :
      taking s = Some c →
      step s (mkState (inFlight s) c (threads s) None (inFlightPeak s :: taken s)).

(** The steps of one window: nobody takes the peak. *)
Definition window_step (s s' : state) : Prop := step s s' ∧ taking s = None ∧ taking s' = None
  ∧ taken s' = taken s.

(** The greatest count any request saw when it began. *)
Definition high_water (s : state) : Z := foldr Z.max 0 (threads s).*1.

Record inv (s : state) : Prop := {
  inv_begun : ∀ i n, threads s !! i = Some (n, Begun) → n ≤ inFlightPeak s;
  inv_peak : 0 ≤ inFlightPeak s ≤ high_water s;
  inv_cas : ∀ i n p, threads s !! i = Some (n, AtCAS p) → p < n;
  inv_now : inFlight s ≤ high_water s;
}.

Lemma max_app l x : foldr Z.max 0 (l ++ [x]) = Z.max (foldr Z.max 0 l) (Z.max x 0).
Proof. induction l as [|y l IH]; cbn; [lia|]. rewrite IH. lia. Qed.

Lemma max_in l x : x ∈ l → x ≤ foldr Z.max 0 l.
Proof. induction 1; cbn; lia. Qed.

Lemma threads_fst s i n p q :
  threads s !! i = Some (n, p) → (<[i := (n, q)]> (threads s)).*1 = (threads s).*1.
Proof.
  intros Hi. rewrite list_fmap_insert. cbn. apply list_insert_id.
  by rewrite list_lookup_fmap, Hi.
Qed.

Lemma thread_high s i n p : threads s !! i = Some (n, p) → n ≤ high_water s.
Proof.
  intros Hi. apply max_in. apply (list_elem_of_lookup_2 _ i).
  by rewrite list_lookup_fmap, Hi.
Qed.

Lemma set_thread_inv s i n p q peak :
  inv s → threads s !! i = Some (n, p) → inFlightPeak s ≤ peak ≤ high_water s →
  (q = Begun → n ≤ peak) → (∀ c, q = AtCAS c → c < n) → inv (set_thread s i (n, q) peak).
Proof.
  intros [Hb Hp Hc Hn] Hi Hpk Hq Hcas.
  assert (Hhw : high_water (set_thread s i (n, q) peak) = high_water s).
  { unfold high_water, set_thread; cbn. by erewrite threads_fst. }
  assert (Hlk : ∀ j t, <[i := (n, q)]> (threads s) !! j = Some t →
            t = (n, q) ∨ threads s !! j = Some t).
  { intros j t Hj. destruct (decide (i = j)) as [<-|Hne].
    - rewrite list_lookup_insert_eq in Hj by eauto using lookup_lt_Some. left. congruence.
    - rewrite list_lookup_insert_ne in Hj by done. by right. }
  split; rewrite ?Hhw; cbn; try lia.
  - intros j m Hj. destruct (Hlk _ _ Hj) as [Heq|Hj'].
    + injection Heq as -> <-. by apply Hq.
    + specialize (Hb _ _ Hj'). lia.
  - intros j m c Hj. destruct (Hlk _ _ Hj) as [Heq|Hj'].
    + injection Heq as -> <-. by apply Hcas.
    + by eapply Hc.
Qed.

Lemma window_step_inv s s' : inv s → window_step s s' → inv s'.
Proof.
  intros Hi (Hs & Ht & Ht' & Htk). pose proof Hi as [Hb Hp Hc Hn].
  destruct Hs as [s|s i n Hl|s i n p Hl|s|s _|s c Hc']; try done; cbn in *.
  - assert (Hhw : high_water (mkState (inFlight s + 1) (inFlightPeak s)
      (threads s ++ [(inFlight s + 1, AtLoad)]) (taking s) (taken s)) =
      Z.max (high_water s) (Z.max (inFlight s + 1) 0)).
    { unfold high_water. cbn [threads]. rewrite fmap_app. apply max_app. }
    split; rewrite ?Hhw; cbn; try lia.
    + intros i n [Hl|[_ Hl]]%lookup_app_Some; [by eapply Hb|].
      apply list_lookup_singleton_Some in Hl as [_ Hl]. done.
    + intros i n p [Hl|[_ Hl]]%lookup_app_Some; [by eapply Hc|].
      apply list_lookup_singleton_Some in Hl as [_ Hl]. done.
  - apply (set_thread_inv _ _ _ AtLoad); try done.
    + lia.
    + destruct (Z.leb_spec n (inFlightPeak s)); [done | intros; congruence].
    + intros c. destruct (Z.leb_spec n (inFlightPeak s)); [done | intros [= <-]; lia].
  - pose proof (thread_high _ _ _ _ Hl) as Hhi. pose proof (Hc _ _ _ Hl) as Hlt.
    destruct (Z.eqb_spec (inFlightPeak s) p) as [Heq|Hne].
    + by apply (set_thread_inv _ _ _ (AtCAS p)); try done; lia.
    + by apply (set_thread_inv _ _ _ (AtCAS p)); try done; lia.
  - split; try done. cbn. unfold high_water in *; cbn. lia.
  - apply (f_equal length) in Htk. cbn in Htk. lia.
Qed.
End InFlight.

(** However the loads and compare-and-swaps of concurrent requests interleave, once
    every request of the window has left [BeginRequest] the peak is exactly the greatest
    number in flight that any of them observed (and at least the current number). *)
Theorem peak_is_high_water s :
  rtc InFlight.window_step InFlight.init s →
  Forall (λ t, t.2 = InFlight.Begun) (InFlight.threads s) →
  InFlight.inFlightPeak s = InFlight.high_water s ∧ InFlight.inFlight s ≤ InFlight.inFlightPeak s.
Proof.
  intros Hr Hall. assert (Hi : InFlight.inv s).
  { assert (H0 : InFlight.inv InFlight.init) by by split.
    revert H0. clear Hall. induction Hr as [|s1 s2 s3 H12 _ IH]; [done|].
    intros H1. by eapply IH, InFlight.window_step_inv. }
  destruct Hi as [Hb Hp _ Hn].
  assert (Hle : InFlight.high_water s ≤ InFlight.inFlightPeak s).
  { unfold InFlight.high_water. revert Hb Hp Hall. generalize (InFlight.inFlightPeak s).
    intros pk Hb Hp Hall.
    assert (Hf : Forall (λ n, n ≤ pk) (InFlight.threads s).*1).
    { apply Forall_fmap, Forall_forall. intros [n p] Hin. rewrite Forall_forall in Hall.
      specialize (Hall _ Hin). cbn in *. subst p.
      apply list_elem_of_lookup_1 in Hin as [i Hi]. by eapply Hb. }
    clear Hb Hall. destruct Hp as [Hp _]. induction Hf; cbn; lia. }
  lia.
Qed.

(** Two requests racing: the second one's compare-and-swap fails and is retried. *)
Definition two_begun : InFlight.state :=
  InFlight.mkState 2 2 [(1, InFlight.Begun); (2, InFlight.Begun)] None [].

Lemma two_begun_reachable : rtc InFlight.window_step InFlight.init two_begun.
Proof.
  eapply rtc_l; [split; [apply InFlight.Begin | done]|]. cbn.
  eapply rtc_l; [split; [apply InFlight.Begin | done]|]. cbn.
  eapply rtc_l; [split; [apply (InFlight.LoadPeak _ 0 1); done | done]|]. cbn.
  eapply rtc_l; [split; [apply (InFlight.LoadPeak _ 1 2); done | done]|]. cbn.
  eapply rtc_l; [split; [apply (InFlight.CompareAndSwap _ 0 1 0); done | done]|]. cbn.
  eapply rtc_l; [split; [apply (InFlight.CompareAndSwap _ 1 2 0); done | done]|]. cbn.
  eapply rtc_l; [split; [apply (InFlight.LoadPeak _ 1 2); done | done]|]. cbn.
  eapply rtc_l; [split; [apply (InFlight.CompareAndSwap _ 1 2 1); done | done]|]. cbn.
  apply rtc_refl.
Qed.

Lemma peak_is_high_water_witness :
  InFlight.inFlightPeak two_begun = InFlight.high_water two_begun ∧
  InFlight.inFlight two_begun ≤ InFlight.inFlightPeak two_begun.
Proof.
  apply (peak_is_high_water two_begun two_begun_reachable). repeat constructor.
Defined.

(** Taking the peak is not atomic: a request that begins between the load of the
    in-flight count and the swap leaves a peak below the number of requests in flight,
    so the next window under-reports its concurrency. *)
Theorem take_peak_race :
  ∃ s, rtc InFlight.step InFlight.init s ∧
    Forall (λ t, t.2 = InFlight.Begun) (InFlight.threads s) ∧ InFlight.taking s = None ∧
    InFlight.inFlightPeak s < InFlight.inFlight s.
Proof.
  exists (InFlight.mkState 1 0 [(1, InFlight.Begun)] None [1]). split.
  - eapply rtc_l; [by apply InFlight.TakeLoad|]. cbn.
    eapply rtc_l; [apply InFlight.Begin|]. cbn.
    eapply rtc_l; [by apply (InFlight.LoadPeak _ 0 1)|]. cbn.
    eapply rtc_l; [by apply (InFlight.CompareAndSwap _ 0 1 0)|]. cbn.
    eapply rtc_l; [by apply InFlight.TakeSwap|]. cbn. apply rtc_refl.
  - repeat constructor.
Qed.
