(* ===== verification/Flush.v ===== *)
(** * Requests recorded while the uploader flushes (client/maping.go, client/uploader.go)

    [swapShards] takes the shards one at a time: under the shard's lock it replaces the map,
    outside the lock it copies the old one; requests go on being recorded on every shard
    meanwhile. Here the sixteen shard heaps of [Concurrency.Swap] are run through the flushes
    of the uploader under an arbitrary schedule, and each request is followed to the one
    window that reports it. Requests that hit the race of an empty shard
    ([Concurrency.swap_empty_double_counts]) are excluded by name. *)

From Stdlib Require Import ZArith Lia.
From stdpp Require Import base option gmap fin_maps sets strings list.
From S2P Require Import Prelude GoFloat GoMath GoTime Wire Sketch Series Recorder Concurrency.

(** ** One shard *)

Inductive phase := Idle | Locked | Copied.

Section heap.
Context `{M : MathLib}.
Implicit Types (s : Swap.state) (k : seriesKey).

(** What a map of references shows. *)
Definition view s (m : gmap seriesKey nat) : shard := omap (λ o, Swap.objs s !! o) m.
Definition current s : shard := view s (Swap.cur s).

(** What the flush has taken out of the shard so far. *)
Definition taken (ph : phase) s : shard :=
  match ph with
  | Idle => ∅
  | Locked => view s (default ∅ (Swap.maps s !! Swap.old s))
  | Copied => Swap.window s
  end.

(** A request on this shard now would be copied with the old map and stay in the shard. *)
Definition empty_swap (ph : phase) s : bool :=
  match ph with Locked => (Swap.old s =? Swap.sh_m s)%nat | _ => false end.

Record sound (ph : phase) s : Prop := {
  sd_wf : Swap.wf s;
  sd_inj k k' o : Swap.cur s !! k = Some o → Swap.cur s !! k' = Some o → k = k';
  sd_objs l m k o : Swap.maps s !! l = Some m → m !! k = Some o → is_Some (Swap.objs s !! o);
  sd_merged k o : Swap.merged s !! k = Some o →
    (o < Swap.fresh s)%nat ∧ ∀ k', Swap.cur s !! k' ≠ Some o;
  sd_phase : match ph with
             | Idle => Swap.merged s = ∅
             | Locked => Swap.merged s = ∅ ∧ (Swap.old s = Swap.sh_m s → Swap.cur s = ∅)
             | Copied => True
             end;
}.

Lemma cur_map s : Swap.wf s → Swap.maps s !! Swap.sh_m s = Some (Swap.cur s).
Proof. intros [[m Hm] _ _ _]. unfold Swap.cur. by rewrite Hm. Qed.

Lemma cur_fresh s k o : Swap.wf s → Swap.cur s !! k = Some o → (o < Swap.fresh s)%nat.
Proof. intros Hwf. by apply (Swap.wf_refs s Hwf _ _ _ _ (cur_map s Hwf)). Qed.

Lemma view_ext s s' m :
  (∀ k o, m !! k = Some o → Swap.objs s' !! o = Swap.objs s !! o) → view s' m = view s m.
Proof.
  intros Ho. apply map_eq. intros k. unfold view. rewrite !lookup_omap.
  destruct (m !! k) as [o|] eqn:E; [|done]. cbn. by eapply Ho.
Qed.

Lemma wf_same s s' :
  Swap.maps s' = Swap.maps s → Swap.sh_m s' = Swap.sh_m s → Swap.fresh s' = Swap.fresh s → Swap.wf s → Swap.wf s'.
Proof. destruct s, s'. cbn. intros -> -> -> []. by split. Qed.

Lemma sound_init : sound Idle Swap.init.
Proof.
  assert (Hc : Swap.cur Swap.init = ∅) by done.
  split; [apply Swap.wf_init| | | |done].
  - intros k k' o. by rewrite Hc, lookup_empty.
  - intros l m k o Hm. cbn in Hm.
    destruct (decide (0%nat = l)) as [<-|Hl].
    + rewrite lookup_singleton_eq in Hm. injection Hm as <-. by rewrite lookup_empty.
    + by rewrite lookup_singleton_ne in Hm.
  - intros k o. cbn. by rewrite lookup_empty.
Qed.

(** The references taken out are in no reach of a request. *)
Lemma taken_refs ph s k o :
  sound ph s → empty_swap ph s = false →
  match ph with
  | Idle => (∅ : gmap seriesKey nat)
  | Locked => default ∅ (Swap.maps s !! Swap.old s)
  | Copied => Swap.merged s
  end !! k = Some o → (o < Swap.fresh s)%nat ∧ ∀ k', Swap.cur s !! k' ≠ Some o.
Proof.
  intros [Hwf _ _ Hmg _] Hne Ho. destruct ph; [by rewrite lookup_empty in Ho| |by eapply Hmg].
  cbn in Hne. destruct (Swap.maps s !! Swap.old s) as [m|] eqn:Hm; cbn in Ho; [|by rewrite lookup_empty in Ho].
  split; [by eapply (Swap.wf_refs s Hwf)|]. intros k'. eapply (Swap.wf_disjoint s Hwf); [done| |done]. lia.
Qed.

Lemma taken_stable ph s s' :
  sound ph s → empty_swap ph s = false →
  Swap.old s' = Swap.old s → Swap.merged s' = Swap.merged s →
  (ph = Locked → Swap.maps s' !! Swap.old s = Swap.maps s !! Swap.old s) →
  (∀ o, (o < Swap.fresh s)%nat → (∀ k', Swap.cur s !! k' ≠ Some o) → Swap.objs s' !! o = Swap.objs s !! o) →
  taken ph s' = taken ph s.
Proof.
  intros Hs Hne Hold Hmg Hmaps Hobjs.
  pose proof (λ k o H, let '(conj a b) := taken_refs ph s k o Hs Hne H in Hobjs o a b) as Hr.
  destruct ph; cbn [taken] in *; [done| |].
  - rewrite Hold, Hmaps by done. by apply view_ext.
  - unfold Swap.window. rewrite Hmg. by apply view_ext.
Qed.

(** A recorded request: its series grows, and nothing taken out moves. *)
Lemma observed_known ph s rec now o :
  sound ph s → empty_swap ph s = false → Swap.cur s !! obs_key rec = Some o →
  let s' := Swap.exec s (Swap.Observed rec now) in
  sound ph s' ∧ taken ph s' = taken ph s ∧
  current s' = <[obs_key rec := observe_series (default new_series (current s !! obs_key rec)) rec now]> (current s).
Proof.
  intros Hs Hne Hk. cbn zeta. pose proof Hs as [Hwf Hinj Hobjs Hmg Hph].
  pose proof (Swap.observed_wf s rec now Hwf) as Hwf'. cbn [Swap.exec] in Hwf' |- *. rewrite Hk in Hwf' |- *.
  destruct (Hobjs _ _ _ _ (cur_map s Hwf) Hk) as [a Ha].
  assert (Hobj : ∀ o', o' ≠ o → alter (λ a, observe_series a rec now) o (Swap.objs s) !! o' = Swap.objs s !! o')
    by (intros o' Ho'; by rewrite lookup_alter_ne).
  split_and!.
  - split; [done..| |done|done]. intros l m k o' Hm Ho'. cbn in Hm |- *. rewrite lookup_alter.
    case_decide; [|by eapply Hobjs]. subst. by rewrite Ha.
  - apply taken_stable; [done..|]. intros o' _ Hcur. apply Hobj. intros ->. by apply (Hcur (obs_key rec)).
  - apply map_eq. intros k. unfold current, view, Swap.cur at 1. cbn. fold (Swap.cur s).
    destruct (decide (obs_key rec = k)) as [<-|Hkk].
    + rewrite lookup_insert_eq, !lookup_omap, Hk. cbn. by rewrite lookup_alter_eq, Ha.
    + rewrite lookup_insert_ne, !lookup_omap by done. destruct (Swap.cur s !! k) as [o'|] eqn:E; [|done]. cbn.
      apply Hobj. intros ->. apply Hkk. by eapply Hinj.
Qed.

Lemma observed_unknown ph s rec now :
  sound ph s → empty_swap ph s = false → Swap.cur s !! obs_key rec = None →
  let s' := Swap.exec s (Swap.Observed rec now) in
  sound ph s' ∧ taken ph s' = taken ph s ∧
  current s' = <[obs_key rec := observe_series (default new_series (current s !! obs_key rec)) rec now]> (current s).
Proof.
  intros Hs Hne Hk. cbn zeta. pose proof Hs as [Hwf Hinj Hobjs Hmg Hph].
  pose proof (Swap.observed_wf s rec now Hwf) as Hwf'. cbn [Swap.exec] in Hwf' |- *. rewrite Hk in Hwf' |- *.
  set (s' := Swap.mkState _ _ _ _ _ _) in *.
  assert (Hcur : Swap.cur s' = <[obs_key rec := Swap.fresh s]> (Swap.cur s)).
  { unfold Swap.cur at 1. cbn. by rewrite lookup_insert_eq. }
  assert (Hobj : ∀ o', (o' < Swap.fresh s)%nat → Swap.objs s' !! o' = Swap.objs s !! o').
  { intros o' Ho'. cbn. rewrite lookup_insert_ne; [done|lia]. }
  split_and!.
  - split; [done|..].
    + intros k k' o. rewrite Hcur, !lookup_insert_Some. intros [[<- <-]|[Hn Ho]] [[<- Ho']|[Hn' Ho']]; try done.
      * apply cur_fresh in Ho'; [lia|done].
      * apply cur_fresh in Ho; [lia|done].
      * by eapply Hinj.
    + intros l m k o Hm Ho. cbn in Hm |- *. destruct (decide (o = Swap.fresh s)) as [->|Hn].
      { by rewrite lookup_insert_eq. }
      rewrite lookup_insert_ne by done. apply lookup_insert_Some in Hm as [[<- <-]|[_ Hm]]; [|by eapply Hobjs].
      apply lookup_insert_Some in Ho as [[_ <-]|[_ Ho]]; [done|]. by apply (Hobjs _ _ k o (cur_map s Hwf)).
    + intros k o Ho. cbn in Ho. destruct (Hmg k o Ho) as [Hlt Hc]. split; [cbn; lia|]. intros k'. rewrite Hcur.
      intros [[_ <-]|[_ Ho']]%lookup_insert_Some; [lia|]. by eapply Hc.
    + destruct ph; [done| |done]. cbn. destruct Hph as [? Hx]. split; [done|]. intros He. cbn in Hne. lia.
  - apply taken_stable; [done..| |by intros o' Ho' _; apply Hobj].
    intros ->. cbn in Hne |- *. apply lookup_insert_ne. lia.
  - apply map_eq. intros k. unfold current, view. rewrite Hcur, lookup_omap.
    destruct (decide (obs_key rec = k)) as [<-|Hkk].
    + rewrite !lookup_insert_eq, lookup_omap, Hk. cbn. by rewrite lookup_insert_eq.
    + rewrite !lookup_insert_ne, lookup_omap by done. destruct (Swap.cur s !! k) as [o'|] eqn:E; [|done].
      cbn -[Swap.objs]. apply Hobj. by apply cur_fresh in E.
Qed.

Lemma observed_sound ph s rec now :
  sound ph s → empty_swap ph s = false →
  let s' := Swap.exec s (Swap.Observed rec now) in
  sound ph s' ∧ taken ph s' = taken ph s ∧
  current s' = <[obs_key rec := observe_series (default new_series (current s !! obs_key rec)) rec now]> (current s).
Proof.
  intros Hs Hne. destruct (Swap.cur s !! obs_key rec) as [o|] eqn:Hk;
    [by eapply observed_known|by apply observed_unknown].
Qed.

(** The swap takes out what the shard held and leaves the shard empty. *)
Lemma swap_sound s :
  sound Idle s →
  let s' := Swap.exec s Swap.SwapLocked in
  sound Locked s' ∧ taken Locked s' = current s ∧ current s' = ∅.
Proof.
  intros [Hwf Hinj Hobjs Hmg Hph]. cbn zeta. pose proof (cur_map s Hwf) as Hcm.
  destruct (decide (Swap.cur s = ∅)) as [He|Hne].
  - cbn [Swap.exec]. rewrite He, map_size_empty. cbn [Nat.ltb Nat.leb].
    set (s' := Swap.mkState _ _ _ _ _ _). assert (Hc' : current s' = ∅).
    { change (current s') with (view s (Swap.cur s)). by rewrite He. }
    assert (Ht : taken Locked s' = ∅).
    { change (taken Locked s') with (view s (default ∅ (Swap.maps s !! Swap.sh_m s))). by rewrite Hcm, He. }
    rewrite Ht. unfold current at 1. rewrite He. split_and!; [|done|exact Hc'].
    split; [by apply (wf_same s)|exact Hinj|exact Hobjs|exact Hmg|]. split; [done|]. by intros _.
  - destruct (Swap.swap_wf s Hwf Hne) as (Hwf' & Hold & Hsh & Hmap & Hobj & Hmg').
    set (s' := Swap.exec s Swap.SwapLocked) in *.
    assert (Hcur : Swap.cur s' = ∅ ∧ Swap.fresh s' = S (Swap.fresh s) ∧
                   (∀ l m k o, Swap.maps s' !! l = Some m → m !! k = Some o → Swap.maps s !! l = Some m)).
    { subst s'. cbn [Swap.exec]. destruct (Nat.ltb_spec 0 (size (Swap.cur s))) as [_|Hz].
      2: { exfalso. apply Hne, map_size_empty_inv. lia. }
      unfold Swap.cur at 1. cbn. rewrite lookup_insert_eq. split_and!; [done..|].
      intros l m k o [[_ <-]|[_ Hm]]%lookup_insert_Some Hk; [by rewrite lookup_empty in Hk|done]. }
    destruct Hcur as (Hcur & Hfresh & Hmaps). split_and!.
    + split; [done|..].
      * intros k k' o. by rewrite Hcur, lookup_empty.
      * intros l m k o Hm Hk. rewrite Hobj. eapply Hobjs; [by eapply Hmaps|done].
      * intros k o. rewrite Hmg', Hph. by rewrite lookup_empty.
      * rewrite Hmg', Hph. by split; intros.
    + cbn [taken]. rewrite Hold, Hmap. unfold current. apply view_ext. by rewrite Hobj.
    + unfold current. by rewrite Hcur.
Qed.

(** The copy puts what was taken out in the window. *)
Lemma copy_sound s :
  sound Locked s →
  let s' := Swap.exec s Swap.CopyOld in
  sound Copied s' ∧ taken Copied s' = taken Locked s ∧ current s' = current s.
Proof.
  intros Hs. pose proof Hs as [Hwf Hinj Hobjs Hmg [Hm0 He]]. cbn zeta. cbn [Swap.exec taken].
  unfold Swap.window. cbn [Swap.merged Swap.objs]. rewrite Hm0, map_union_empty. split_and!; [|done..].
  split; [by apply (wf_same s)|exact Hinj|exact Hobjs| |done]. cbn [Swap.merged Swap.fresh].
  intros k o Ho.
  destruct (decide (Swap.old s = Swap.sh_m s)) as [Heq|Hne].
  - rewrite Heq, (cur_map s Hwf) in Ho. cbn in Ho. by rewrite (He Heq), lookup_empty in Ho.
  - apply (taken_refs Locked s k o Hs); [cbn; lia|done].
Qed.

(** The window is handed over and the next one starts empty. *)
Lemma next_sound s :
  sound Copied s →
  let s' := Swap.exec s Swap.NextWindow in sound Idle s' ∧ current s' = current s.
Proof.
  intros [Hwf Hinj Hobjs Hmg Hph]. split; [|done]. split; [by apply (wf_same s)|exact Hinj|exact Hobjs| |done].
  intros k o. cbn. by rewrite lookup_empty.
Qed.
End heap.

(** ** The sixteen shards under one flush *)

Section client.
Context `{M : MathLib}.

(** Where [swapShards] is, the windows handed to [buildRequest] and the requests recorded,
    oldest first. *)
Record client := mkClient {
  heaps : list Swap.state; next : nat; locked : bool; windows : list shard; recorded : recordings;
}.

Definition new_client : client := mkClient (replicate numShards Swap.init) 0 false [] [].

Inductive event :=
  | Request (rec : Observation) (now : Time)   (* the locked body of Observe *)
  | LockShard                                  (* swapShards takes the next shard's map *)
  | CopyShard                                  (* maps.Copy, outside the lock *)
  | Build.                                     (* swapShards returns, buildRequest reads *)

Definition on_shard (c : client) (i : nat) (st : Swap.step) : list Swap.state :=
  alter (λ s, Swap.exec s st) i (heaps c).

(** The merged map of the shards. *)
Definition merge (shards : list shard) : shard := fold_left (λ merged old, old ∪ merged) shards ∅.

Definition fire (c : client) (e : event) : option client :=
  match e with
  | Request rec now =>
      Some (mkClient (on_shard c (shard_index (obs_key rec)) (Swap.Observed rec now)) (next c) (locked c)
              (windows c) (recorded c ++ [(rec, now)]))
  | LockShard =>
      if negb (locked c) && (next c <? numShards)%nat
      then Some (mkClient (on_shard c (next c) Swap.SwapLocked) (next c) true (windows c) (recorded c))
      else None
  | CopyShard =>
      if locked c
      then Some (mkClient (on_shard c (next c) Swap.CopyOld) (S (next c)) false (windows c) (recorded c))
      else None
  | Build =>
      if negb (locked c) && (next c =? numShards)%nat
      then Some (mkClient ((λ s, Swap.exec s Swap.NextWindow) <$> heaps c) 0 false
                   (windows c ++ [merge (Swap.window <$> heaps c)]) (recorded c))
      else None
  end.

Definition phase_of (c : client) (i : nat) : phase :=
  if (i <? next c)%nat then Copied else if (i =? next c)%nat && locked c then Locked else Idle.

(** The race of [Concurrency]: the request lands on the shard whose empty map the flush
    has taken but not yet copied. *)
Definition racing (c : client) (e : event) : bool :=
  match e with
  | Request rec _ =>
      let i := shard_index (obs_key rec) in
      match heaps c !! i with Some s => empty_swap (phase_of c i) s | None => false end
  | _ => false
  end.

(** A schedule without that race. *)
Fixpoint run_schedule (c : client) (l : list event) : option client :=
  match l with
  | [] => Some c
  | e :: l => if racing c e then None else c ← fire c e; run_schedule c l
  end.

(** Whether a shard still holds a series of the key, or the flush in progress does. *)
Definition held (c : client) (k : seriesKey) : bool :=
  match heaps c !! shard_index k with
  | Some s => bool_decide (is_Some (current s !! k)) || bool_decide (is_Some (taken (phase_of c (shard_index k)) s !! k))
  | None => false
  end.
End client.

(** ** Following the requests of one key *)

Section ledger.
Context `{M : MathLib}.
Implicit Types (k : seriesKey) (rs : recordings).

(** The series a key has when the requests [seg] were observed for it. *)
Definition entry (o : option series) (seg : recordings) : Prop :=
  o = match seg with [] => None | _ => Some (observe_all new_series seg) end.

(** The requests of the key are, in order, those of each window so far, those of the flush
    in progress and those still in the shard. *)
Definition ledger k rs (wins : list shard) (out held : option series) : Prop :=
  ∃ segs taken_out kept, with_key k rs = concat segs ++ taken_out ++ kept ∧
    Forall2 (λ w seg, entry (w !! k) seg) wins segs ∧ entry out taken_out ∧ entry held kept.

Lemma entry_None seg : entry None seg → seg = [].
Proof. by destruct seg. Qed.

Lemma entry_snoc o seg r :
  entry o seg → entry (Some (observe_series (default new_series o) r.1 r.2)) (seg ++ [r]).
Proof.
  unfold entry. intros ->. destruct seg as [|x seg]; [done|]. cbn [app default].
  unfold observe_all. change (x :: seg ++ [r]) with ((x :: seg) ++ [r]). by rewrite fold_left_app.
Qed.

Lemma ledger_new k : ledger k [] [] None None.
Proof. exists [], [], []. by split_and!. Qed.

Lemma ledger_request k rs wins out held rec now :
  ledger k rs wins out held →
  ledger k (rs ++ [(rec, now)]) wins out
    (if decide (obs_key rec = k) then Some (observe_series (default new_series held) rec now) else held).
Proof.
  intros (segs & t & kept & Hk & Hw & Ht & Hh). unfold ledger, with_key in *. rewrite filter_app, Hk.
  case_decide as Hd.
  - rewrite (filter_cons_True _ (rec, now)), filter_nil by done. exists segs, t, (kept ++ [(rec, now)]).
    rewrite !app_assoc. split_and!; [done..|]. by apply (entry_snoc held kept (rec, now)).
  - rewrite (filter_cons_False _ (rec, now)), filter_nil, app_nil_r by done. by exists segs, t, kept.
Qed.

Lemma ledger_swap k rs wins held : ledger k rs wins None held → ledger k rs wins held None.
Proof.
  intros (segs & t & kept & Hk & Hw & Ht & Hh). apply entry_None in Ht as ->.
  exists segs, kept, []. by rewrite app_nil_r.
Qed.

Lemma ledger_build k rs wins out held w :
  w !! k = out → ledger k rs wins out held → ledger k rs (wins ++ [w]) None held.
Proof.
  intros Hwk (segs & t & kept & Hk & Hw & Ht & Hh). exists (segs ++ [t]), [], kept.
  rewrite concat_app. cbn [concat app]. rewrite app_nil_r, <-app_assoc. split_and!; [done| |done..].
  apply Forall2_app; [done|]. constructor; [by rewrite Hwk|constructor].
Qed.
End ledger.

(** ** The invariant *)

Section invariant.
Context `{M : MathLib}.
Implicit Types (c : client) (k : seriesKey).

(** A shard of the client: its heap is sound, it holds keys of its own, and their requests
    are accounted for. *)
Definition shard_ok c (i : nat) (s : Swap.state) : Prop :=
  sound (phase_of c i) s ∧
  ∀ k, if decide (shard_index k = i)
       then ledger k (recorded c) (windows c) (taken (phase_of c i) s !! k) (current s !! k)
       else taken (phase_of c i) s !! k = None ∧ current s !! k = None.

Record inv c : Prop := {
  i_length : length (heaps c) = numShards;
  i_next : (next c ≤ numShards)%nat ∧ (locked c = true → (next c < numShards)%nat);
  i_shards : ∀ i s, heaps c !! i = Some s → shard_ok c i s;
}.

Lemma client_inv_new : inv new_client.
Proof.
  split; [apply length_replicate|cbn; lia|]. intros i s [-> _]%lookup_replicate.
  split; [unfold phase_of; cbn; rewrite andb_false_r; apply sound_init|].
  intros k. unfold phase_of. cbn [next locked new_client]. rewrite andb_false_r. cbn [Nat.ltb Nat.leb taken].
  assert (Hc : current Swap.init = ∅) by done. rewrite Hc, !lookup_empty.
  case_decide; [apply ledger_new|done].
Qed.

Lemma inv_request c rec now c' :
  inv c → racing c (Request rec now) = false → fire c (Request rec now) = Some c' → inv c'.
Proof.
  intros [Hl Hn Hs] Hr [= <-]. split; [unfold on_shard; cbn; by rewrite length_alter|done|]. cbn [heaps].
  intros i s'. unfold on_shard. rewrite list_lookup_alter. case_decide as Hi.
  - intros (s & Hsi & ->)%fmap_Some. subst i. destruct (Hs _ _ Hsi) as [Hsound Hk].
    cbn [racing] in Hr. rewrite Hsi in Hr.
    destruct (observed_sound _ s rec now Hsound Hr) as (H1 & H2 & H3).
    split; [exact H1|]. intros k. change (phase_of _ _) with (phase_of c (shard_index (obs_key rec))).
    rewrite H2, H3. specialize (Hk k). cbn [recorded windows]. case_decide as Hd.
    + apply (ledger_request _ _ _ _ _ rec now) in Hk. case_decide as He.
      * subst k. by rewrite lookup_insert_eq.
      * by rewrite lookup_insert_ne.
    + destruct Hk as [-> Hk]. split; [done|]. rewrite lookup_insert_ne; [done|]. by intros <-.
  - intros Hsi. destruct (Hs _ _ Hsi) as [Hsound Hk]. split; [exact Hsound|]. intros k.
    change (phase_of _ i) with (phase_of c i). specialize (Hk k). cbn [recorded windows]. case_decide as Hd; [|done].
    apply (ledger_request _ _ _ _ _ rec now) in Hk. rewrite decide_False in Hk by (intros <-; done). done.
Qed.

(** A step of the flush on the shard it is at; the other shards keep their phase. *)
Lemma inv_flush_step c st n b :
  inv c → (n ≤ numShards)%nat ∧ (b = true → (n < numShards)%nat) →
  let c' := mkClient (on_shard c (next c) st) n b (windows c) (recorded c) in
  (∀ i, i ≠ next c → phase_of c' i = phase_of c i) →
  (∀ s, heaps c !! next c = Some s → shard_ok c (next c) s → shard_ok c' (next c) (Swap.exec s st)) →
  inv c'.
Proof.
  intros [Hl Hn Hs] Hn' c' Hph Hstep. split; [subst c'; unfold on_shard; cbn; by rewrite length_alter|done|].
  intros i s'. subst c'. cbn [heaps]. unfold on_shard. rewrite list_lookup_alter. case_decide as Hi.
  - intros (s & Hsi & ->)%fmap_Some. subst i. by apply Hstep, Hs.
  - intros Hsi. destruct (Hs _ _ Hsi) as [Hsound Hk]. unfold shard_ok. by rewrite Hph.
Qed.

Lemma inv_lock c c' : inv c → fire c LockShard = Some c' → inv c'.
Proof.
  intros Hinv. cbn [fire]. destruct (locked c) eqn:El; [done|]. cbn [negb andb].
  destruct (Nat.ltb_spec (next c) numShards) as [Hlt|]; [|done]. intros [= <-].
  apply inv_flush_step; [done|by split; [lia|]| |].
  - intros i Hi. unfold phase_of. cbn [next locked]. rewrite (proj2 (Nat.eqb_neq i (next c))) by done. done.
  - intros s _ [Hsound Hk]. unfold shard_ok. unfold phase_of in Hsound, Hk |- *. cbn [next locked].
    rewrite Nat.ltb_irrefl, Nat.eqb_refl, El in Hsound, Hk. rewrite Nat.ltb_irrefl, Nat.eqb_refl. cbn [andb] in *.
    destruct (swap_sound s Hsound) as (H1 & H2 & H3). split; [exact H1|]. intros k. specialize (Hk k).
    rewrite H2, H3. cbn [taken] in Hk. rewrite lookup_empty in Hk |- *. case_decide; [by apply ledger_swap|].
    by destruct Hk.
Qed.

Lemma inv_copy c c' : inv c → fire c CopyShard = Some c' → inv c'.
Proof.
  intros Hinv. cbn [fire]. destruct (locked c) eqn:El; [|done]. intros [= <-].
  pose proof (proj2 (i_next c Hinv) El) as Hlt. apply inv_flush_step; [done|by split; [lia|]| |].
  - intros i Hi. unfold phase_of. cbn [next locked]. rewrite andb_false_r, (proj2 (Nat.eqb_neq i (next c))) by done.
    cbn [andb]. destruct (Nat.ltb_spec i (S (next c))), (Nat.ltb_spec i (next c)); done || lia.
  - intros s _ [Hsound Hk]. unfold shard_ok. unfold phase_of in Hsound, Hk |- *. cbn [next locked].
    rewrite Nat.ltb_irrefl, Nat.eqb_refl, El in Hsound, Hk. cbn [andb] in *.
    rewrite (proj2 (Nat.ltb_lt (next c) (S (next c)))) by lia.
    destruct (copy_sound s Hsound) as (H1 & H2 & H3). split; [exact H1|]. intros k. specialize (Hk k).
    by rewrite H2, H3.
Qed.

(** Once every shard is copied, the merged map is each shard's own. *)
Lemma merge_lookup c k s :
  inv c → next c = numShards → heaps c !! shard_index k = Some s →
  merge (Swap.window <$> heaps c) !! k = Swap.window s !! k.
Proof.
  intros [Hl Hn Hs] Hnext Hk. unfold merge.
  assert (Hph : ∀ i, (i < numShards)%nat → phase_of c i = Copied).
  { intros i Hi. unfold phase_of. rewrite Hnext. by rewrite (proj2 (Nat.ltb_lt _ _)). }
  rewrite (merge_one _ _ (shard_index k)).
  - by rewrite list_lookup_fmap, Hk.
  - apply lookup_empty.
  - intros j m Hj [x Hx]. rewrite list_lookup_fmap in Hj. apply fmap_Some in Hj as (t & Ht & ->).
    destruct (Hs _ _ Ht) as [_ Ho]. specialize (Ho k). apply lookup_lt_Some in Ht. rewrite Hl in Ht.
    rewrite Hph in Ho by done. case_decide; [done|]. destruct Ho as [Ho _]. cbn [taken] in Ho. congruence.
Qed.

Lemma inv_build c c' : inv c → fire c Build = Some c' → inv c'.
Proof.
  intros Hinv. cbn [fire]. destruct (locked c) eqn:El; [done|]. cbn [negb andb].
  destruct (Nat.eqb_spec (next c) numShards) as [Hnext|]; [|done]. intros [= <-].
  pose proof Hinv as [Hl Hn Hs]. split; [cbn; by rewrite length_fmap|cbn; split; [lia|done]|]. cbn [heaps].
  intros i s'. rewrite list_lookup_fmap. intros (s & Hsi & ->)%fmap_Some. cbv beta.
  destruct (Hs _ _ Hsi) as [Hsound Hk].
  assert (Hph : phase_of c i = Copied).
  { apply lookup_lt_Some in Hsi. unfold phase_of. rewrite Hnext, <-Hl. by rewrite (proj2 (Nat.ltb_lt _ _)). }
  rewrite Hph in Hsound, Hk. unfold shard_ok, phase_of. cbn [next locked recorded windows].
  rewrite andb_false_r. cbn [Nat.ltb Nat.leb]. destruct (next_sound s Hsound) as [H1 H2]. cbn [Swap.exec] in H1, H2.
  split; [exact H1|]. intros k. specialize (Hk k).
  rewrite H2. cbn [taken] in Hk |- *. rewrite lookup_empty.
  case_decide as Hd; [|by destruct Hk]. eapply ledger_build; [|exact Hk]. apply merge_lookup; [done..|]. by rewrite Hd.
Qed.

Lemma run_schedule_inv l c c' : inv c → run_schedule c l = Some c' → inv c'.
Proof.
  revert c. induction l as [|e l IH]; intros c Hc; cbn [run_schedule]; [by intros [= <-]|].
  destruct (racing c e) eqn:Hr; [done|]. destruct (fire c e) as [c1|] eqn:Hf; [|done]. apply IH.
  destruct e; [by eapply inv_request|by eapply inv_lock|by eapply inv_copy|by eapply inv_build].
Qed.
End invariant.

(** ** A flush nothing interrupts *)

Definition quiet_rounds (n : nat) : list event := concat (replicate n [LockShard; CopyShard]).
Definition quiet_flush : list event := quiet_rounds numShards ++ [Build].

Section quiet.
Context `{M : MathLib}.
Implicit Types (c : client) (k : seriesKey).

Definition cleared c (i : nat) : Prop :=
  ∀ j s, (j < i)%nat → heaps c !! j = Some s → current s = ∅.

Lemma run_schedule_app c l l' : run_schedule c (l ++ l') = run_schedule c l ≫= λ c, run_schedule c l'.
Proof.
  revert c. induction l as [|e l IH]; intros c; [done|]. cbn. destruct (racing c e); [done|].
  destruct (fire c e); [|done]. apply IH.
Qed.

Lemma quiet_round c :
  inv c → locked c = false → (next c < numShards)%nat → cleared c (next c) →
  ∃ c', run_schedule c [LockShard; CopyShard] = Some c' ∧ locked c' = false ∧ next c' = S (next c) ∧
    cleared c' (S (next c)) ∧ recorded c' = recorded c ∧ windows c' = windows c.
Proof.
  intros Hinv El Hlt Hcl. eexists. split.
  { cbn [run_schedule racing fire]. rewrite El, (proj2 (Nat.ltb_lt _ _) Hlt). reflexivity. }
  cbn [locked next recorded windows]. split_and!; [done|done| |done|done].
  intros j s' Hj. cbn [heaps]. unfold on_shard. cbn [heaps next].
  destruct (decide (next c = j)) as [<-|Hji].
  2: { rewrite !list_lookup_alter_ne by done. intros Hs. apply (Hcl j); [lia|done]. }
  rewrite !list_lookup_alter_eq. intros (s1 & (s & Hs & ->)%fmap_Some & ->)%fmap_Some. destruct (i_shards c Hinv _ _ Hs) as [Hsound _].
  unfold phase_of in Hsound. rewrite Nat.ltb_irrefl, El, andb_false_r in Hsound.
  destruct (swap_sound s Hsound) as (H1 & _ & H3). by destruct (copy_sound _ H1) as (_ & _ & ->).
Qed.

Lemma quiet_rounds_clear n c :
  inv c → locked c = false → (next c + n = numShards)%nat → cleared c (next c) →
  ∃ c', run_schedule c (quiet_rounds n) = Some c' ∧ locked c' = false ∧ next c' = numShards ∧
    cleared c' numShards ∧ recorded c' = recorded c ∧ windows c' = windows c.
Proof.
  revert c. induction n as [|n IH]; intros c Hinv El Hn Hcl.
  { exists c. rewrite Nat.add_0_r in Hn. rewrite Hn in Hcl |- *. by split_and!. }
  destruct (quiet_round c Hinv El) as (c1 & Hr & El1 & Hn1 & Hcl1 & Hrec & Hw); [lia|done|].
  change (quiet_rounds (S n)) with ([LockShard; CopyShard] ++ quiet_rounds n).
  rewrite run_schedule_app, Hr. cbn [mbind option_bind].
  destruct (IH c1) as (c' & Hr' & H1 & H2 & H3 & H4 & H5); [by eapply run_schedule_inv|done|lia|by rewrite Hn1|].
  exists c'. rewrite H4, H5, Hrec, Hw. by split_and!.
Qed.

(** A flush that found every shard empty when it left it leaves nothing behind. *)
Lemma built_empty c c' : fire c Build = Some c' → cleared c numShards → ∀ k, held c' k = false.
Proof.
  cbn [fire]. destruct (negb _ && _); [|done]. intros [= <-] Hcl k.
  unfold held. cbn [heaps]. rewrite list_lookup_fmap.
  destruct (heaps c !! shard_index k) as [s|] eqn:Hs; [|done]. cbn [fmap option_fmap option_map].
  unfold phase_of. cbn [next locked]. rewrite andb_false_r. cbn [Nat.ltb Nat.leb taken].
  rewrite lookup_empty. change (current _) with (current s).
  rewrite (Hcl (shard_index k) s (shard_index_bound k) Hs), lookup_empty. done.
Qed.

Lemma quiet_flush_empties c :
  inv c → locked c = false → next c = 0%nat →
  ∃ c', run_schedule c quiet_flush = Some c' ∧ recorded c' = recorded c ∧
    (∃ w, windows c' = windows c ++ [w]) ∧ ∀ k, held c' k = false.
Proof.
  intros Hinv El Hn. destruct (quiet_rounds_clear numShards c Hinv El) as (c1 & Hr & El1 & Hn1 & Hcl & Hrec & Hw).
  { by rewrite Hn. } { rewrite Hn. intros j s Hj. lia. }
  unfold quiet_flush. rewrite run_schedule_app, Hr. cbn [mbind option_bind run_schedule racing].
  assert (Hf : ∃ c', fire c1 Build = Some c') by (cbn [fire]; rewrite El1, Hn1, Nat.eqb_refl; by eexists).
  destruct Hf as [c' Hf]. pose proof (built_empty c1 c' Hf Hcl) as Hheld. cbn [fire] in Hf |- *.
  rewrite Hf. cbn [negb andb]. exists c'. split; [done|].
  rewrite El1, Hn1, Nat.eqb_refl in Hf. injection Hf as <-. cbn [recorded windows]. split; [done|]. split; [|exact Hheld].
  by exists (merge (Swap.window <$> heaps c1)); rewrite Hw.
Qed.
End quiet.

(** ** The sequential model *)

Lemma requests_run `{M : MathLib} rs c :
  inv c → locked c = false → next c = 0%nat →
  ∃ c', run_schedule c ((λ r, Request r.1 r.2) <$> rs) = Some c' ∧ locked c' = false ∧ next c' = 0%nat ∧
    recorded c' = recorded c ++ rs ∧ windows c' = windows c.
Proof.
  revert c. induction rs as [|[rec now] rs IH]; intros c Hinv El Hn; [exists c; by rewrite app_nil_r|].
  assert (Hrace : racing c (Request rec now) = false).
  { cbn [racing]. unfold phase_of. rewrite El, Hn, andb_false_r. cbn. by destruct (heaps c !! _). }
  edestruct (λ c, IH c) as (c' & Hrun & H1 & H2 & H3 & H4); [by eapply inv_request|done..|].
  exists c'. cbn [fmap list_fmap run_schedule fst snd]. rewrite Hrace. cbn [fire mbind option_bind].
  split; [exact Hrun|]. split; [done|]. split; [done|]. split; [|exact H4].
  rewrite H3. cbn [recorded]. by rewrite <-app_assoc.
Qed.

(** When the requests of a window all come before its flush, the window is the one the
    sequential model of [Recorder] swaps out. *)
Theorem quiet_flush_is_swapShards `{M : MathLib} rs c :
  run_schedule new_client (((λ r, Request r.1 r.2) <$> rs) ++ quiet_flush) = Some c →
  windows c = [(swapShards (observe_window new_shards rs)).1].
Proof.
  destruct (requests_run rs new_client client_inv_new) as (c1 & Hr1 & El & Hn & Hrec & Hw1); [done..|].
  rewrite run_schedule_app, Hr1. cbn [mbind option_bind]. intros Hrun.
  pose proof (run_schedule_inv _ _ _ client_inv_new Hr1) as Hinv1. pose proof (run_schedule_inv _ _ _ Hinv1 Hrun) as Hinv.
  destruct (quiet_flush_empties c1 Hinv1 El Hn) as (c' & Hrun' & Hrec' & [w Hw] & Hheld).
  rewrite Hrun in Hrun'. injection Hrun' as <-. rewrite Hw, Hw1. cbn [app windows new_client]. f_equal.
  apply map_eq. intros k. destruct (observe_window_table rs k) as [Hp Ht].
  destruct (swapShards_spec _ Hp) as [-> _]. rewrite Ht.
  destruct (lookup_lt_is_Some_2 (heaps c) (shard_index k)) as [s Hs].
  { rewrite (i_length c Hinv). apply shard_index_bound. }
  destruct (i_shards c Hinv _ _ Hs) as [_ Hk]. specialize (Hk k). rewrite decide_True in Hk by done.
  specialize (Hheld k). unfold held in Hheld. rewrite Hs in Hheld. apply orb_false_iff in Hheld as [Hh Ho].
  apply bool_decide_eq_false, eq_None_not_Some in Hh, Ho. rewrite Hh, Ho in Hk.
  destruct Hk as (segs & t & kept & Hwk & Hseg & Ht'%entry_None & Hc'%entry_None). subst t kept.
  rewrite Hw, Hw1 in Hseg. cbn [app windows new_client] in Hseg. apply Forall2_cons_inv_l in Hseg as (seg & ? & He & Hnil & ->).
  apply Forall2_nil_inv_l in Hnil as ->. rewrite Hrec', Hrec in Hwk. cbn [concat app recorded new_client] in Hwk.
  rewrite !app_nil_r in Hwk. unfold entry in He. rewrite Hwk, He. by destruct seg.
Qed.

(** ** Every request is in one window *)

Section segments.
Context `{M : MathLib} `{!Span}.

(** A window's series for the key aggregates exactly the window's requests of it. *)
Definition reports (k : seriesKey) (w : shard) (seg : recordings) : Prop :=
  match w !! k with None => seg = [] | Some a => seg ≠ [] ∧ aggregates seg a end.

(** The requests of a key are those of the windows and a remainder that is still held. *)
Lemma segments_of c k :
  log_nondecreasing → inv c →
  ∃ segs rest, with_key k (recorded c) = concat segs ++ rest ∧ Forall2 (reports k) (windows c) segs ∧
    (rest ≠ [] ↔ held c k = true).
Proof.
  intros Hlog Hinv. destruct (lookup_lt_is_Some_2 (heaps c) (shard_index k)) as [s Hs].
  { rewrite (i_length c Hinv). apply shard_index_bound. }
  destruct (i_shards c Hinv _ _ Hs) as [_ Hk]. specialize (Hk k). rewrite decide_True in Hk by done.
  destruct Hk as (segs & t & kept & Hwk & Hw & Ht & Hc). exists segs, (t ++ kept). split; [done|]. split.
  - eapply Forall2_impl; [exact Hw|]. intros w seg He. unfold reports. rewrite He. destruct seg as [|x seg]; [done|].
    split; [done|]. by apply agg_all.
  - unfold held. rewrite Hs. unfold entry in Ht, Hc. rewrite Ht, Hc, orb_true_iff, !bool_decide_eq_true.
    rewrite !is_Some_alt. destruct t, kept; cbn; tauto || (split; [done|]; tauto) || (split; [by auto|done]).
Qed.
End segments.

(** [C27] While the uploader takes the shards one by one, requests keep coming. Under any
    schedule of requests, shard swaps, copies and window builds in which no request lands on
    a shard between the swap of its empty map and the copy of it, the requests of a series
    key fall, in the order they were recorded, into one segment per window and a remainder:
    a window's series for the key aggregates exactly its segment, and there is a remainder
    exactly when a shard or the flush in progress still holds the key. So nothing is lost and
    nothing is reported twice; and a flush during which no request comes always completes,
    adds one window and leaves no remainder of any key. *)
Theorem requests_reported_once `{M : MathLib} `{!Span} l c :
  log_nondecreasing → run_schedule new_client l = Some c →
  (∀ k, ∃ segs rest, with_key k (recorded c) = concat segs ++ rest ∧
    Forall2 (λ w seg, match w !! k with
                      | None => seg = []
                      | Some a => seg ≠ [] ∧ aggregates seg a
                      end) (windows c) segs ∧
    (rest ≠ [] ↔ held c k = true)) ∧
  (locked c = false → next c = 0%nat →
   ∃ c', run_schedule c quiet_flush = Some c' ∧ recorded c' = recorded c ∧
     (∃ w, windows c' = windows c ++ [w]) ∧ ∀ k, held c' k = false).
Proof.
  intros Hlog Hr. pose proof (run_schedule_inv l _ _ client_inv_new Hr) as Hinv.
  split; [|by apply quiet_flush_empties]. intros k. by apply segments_of.
Qed.

(** A request comes while the flush is between two shards and another while it copies one
    that was not empty; then a flush nothing interrupts. *)
Definition toy_schedule : list event :=
  [Request get_ok (UnixMilli 5)] ++
  quiet_rounds (shard_index (obs_key get_ok)) ++
  [Request get_fail (UnixMilli 7); LockShard; Request get_ok (UnixMilli 9); CopyShard] ++
  quiet_rounds (numShards - S (shard_index (obs_key get_ok))) ++ [Build].
Definition toy_flushed : option client := let _ := step_math in run_schedule new_client toy_schedule.
Definition toy_client : client := default new_client toy_flushed.

Lemma requests_reported_once_witness :
  let _ := step_math in
  let c := toy_client in
  toy_flushed = Some c ∧ length (windows c) = 1%nat ∧ held c (obs_key get_ok) = true ∧
  (∀ k, ∃ segs rest, with_key k (recorded c) = concat segs ++ rest ∧
    Forall2 (λ w seg, match w !! k with
                      | None => seg = []
                      | Some a => seg ≠ [] ∧ aggregates seg a
                      end) (windows c) segs ∧
    (rest ≠ [] ↔ held c k = true)) ∧
  (locked c = false → next c = 0%nat →
   ∃ c', run_schedule c quiet_flush = Some c' ∧ recorded c' = recorded c ∧
     (∃ w, windows c' = windows c ++ [w]) ∧ ∀ k, held c' k = false).
Proof.
  assert (E : toy_flushed = Some toy_client).
  { assert (Hs : bool_decide (is_Some toy_flushed) = true) by (vm_compute; reflexivity).
    apply bool_decide_eq_true in Hs as [c Hc]. unfold toy_client. rewrite Hc. reflexivity. }
  split; [exact E|]. split; [vm_compute; reflexivity|]. split; [vm_compute; reflexivity|].
  exact (@requests_reported_once step_math step_span toy_schedule toy_client step_log_nondecreasing E).
Defined.
