(* ===== verification/Closing.v ===== *)
(** * The recorder closes (client/maping.go, client/uploader.go)

    [Observe] looks at the closed flag and then records under the shard's lock; [Shutdown]
    waits for the uploader goroutine, raises the flag and flushes once more. Here the
    requests, each a check and a record with anything in between, run beside the flushes of
    the file Flush and the steps of [Shutdown]; a second call of [Shutdown] flushes again.
    Two calls of [Shutdown] at the same time, which would share the ring, are not modelled. *)

From Stdlib Require Import ZArith Lia.
From stdpp Require Import base option gmap fin_maps sets strings list.
From S2P Require Import Prelude GoFloat GoMath GoTime Wire Sketch Series Recorder Concurrency Flush.

(** ** The life of a recorder *)

(** Where [Shutdown] is: the goroutine runs; it has exited; the flag is up; the final flush
    is under way; it is done. *)
Inductive stage := Up | Exited | Barred | Flushing | Flushed.
#[export] Instance stage_eq_dec : EqDecision stage.
Proof. solve_decision. Defined.

(** What [closed.Load()] returns. *)
Definition closed (s : stage) : bool := match s with Up | Exited => false | _ => true end.

(** The requests that passed the check, all of them and those that have yet to record. *)
Record life := mkLife { l_client : client; l_stage : stage; l_arrived : recordings; l_passed : recordings }.
Definition new_life : life := mkLife new_client Up [] [].

Inductive move :=
  | Arrive (rec : Observation) (now : Time)   (* Observe: the check of the flag *)
  | Note (i : nat)                            (* Observe: the locked body, of one that passed *)
  | FlushStep (e : event)                     (* flush, of the goroutine or of Shutdown *)
  | Exit                                      (* <-r.done *)
  | Bar                                       (* closed.Store(true) *)
  | FinalFlush.                               (* Shutdown calls flush *)

Section life.
Context `{M : MathLib}.

Definition is_request (e : event) : bool := match e with Request _ _ => true | _ => false end.

(** [None]: the move is not possible, or hits the race of [Concurrency]. *)
Definition act (x : life) (m : move) : option life :=
  let c := l_client x in
  match m with
  | Arrive rec now =>
      Some (if closed (l_stage x) then x
            else mkLife c (l_stage x) (l_arrived x ++ [(rec, now)]) (l_passed x ++ [(rec, now)]))
  | Note i =>
      r ← l_passed x !! i;
      if racing c (Request r.1 r.2) then None
      else c' ← fire c (Request r.1 r.2); Some (mkLife c' (l_stage x) (l_arrived x) (delete i (l_passed x)))
  | FlushStep e =>
      if is_request e || negb (bool_decide (l_stage x = Up ∨ l_stage x = Flushing)) then None
      else c' ← fire c e;
           let done := bool_decide (l_stage x = Flushing) && match e with Build => true | _ => false end in
           Some (mkLife c' (if done then Flushed else l_stage x) (l_arrived x) (l_passed x))
  | Exit =>
      if bool_decide (l_stage x = Up) && negb (locked c) && (next c =? 0)%nat
      then Some (mkLife c Exited (l_arrived x) (l_passed x)) else None
  | Bar => if bool_decide (l_stage x = Exited) then Some (mkLife c Barred (l_arrived x) (l_passed x)) else None
  | FinalFlush =>
      if bool_decide (l_stage x = Barred ∨ l_stage x = Flushed)
      then Some (mkLife c Flushing (l_arrived x) (l_passed x)) else None
  end.

Fixpoint live (x : life) (l : list move) : option life :=
  match l with [] => Some x | m :: l => x ← act x m; live x l end.

(** ** Invariants *)

Record life_inv (x : life) : Prop := {
  li_client : inv (l_client x);
  li_rest : l_stage x ∈ [Exited; Barred; Flushed] → locked (l_client x) = false ∧ next (l_client x) = 0%nat;
  li_arrived : l_arrived x ≡ₚ recorded (l_client x) ++ l_passed x;
}.

Lemma fire_recorded c e c' : is_request e = false → fire c e = Some c' → recorded c' = recorded c.
Proof. destruct e; [done|..]; intros _; cbn [fire]; case_match; by intros [= <-]. Qed.
Lemma fire_inv c e c' : is_request e = false → inv c → fire c e = Some c' → inv c'.
Proof. destruct e; [done|..]; intros _; [apply inv_lock|apply inv_copy|apply inv_build]. Qed.
Lemma built_rest c c' : fire c Build = Some c' → locked c' = false ∧ next c' = 0%nat.
Proof. cbn [fire]. case_match; by intros [= <-]. Qed.

Lemma act_inv x m x' : life_inv x → act x m = Some x' → life_inv x'.
Proof.
  intros [Hc Hr Ha]. destruct m as [rec now|i|e| | |]; cbn [act].
  - intros [= <-]. destruct (closed (l_stage x)); [by split|]. split; [done|done|]. cbn. by rewrite Ha, app_assoc.
  - intros (r & Hi & Hrun)%bind_Some. destruct (racing _ _) eqn:Hrace; [done|]. apply bind_Some in Hrun as (c' & Hf & [= <-]).
    pose proof (inv_request _ _ _ _ Hc Hrace Hf) as Hc'. cbn [fire] in Hf. injection Hf as <-. split; [exact Hc'|exact Hr|].
    cbn. rewrite Ha, <-app_assoc. cbn. f_equiv. destruct r as [rec now]. by apply delete_Permutation.
  - destruct (_ || _) eqn:He; [done|]. apply orb_false_iff in He as [He Hst]. apply negb_false_iff, bool_decide_eq_true in Hst.
    intros (c' & Hf & [= <-])%bind_Some. split; cbn [l_client l_stage l_arrived l_passed].
    + by eapply fire_inv.
    + destruct (bool_decide _ && _) eqn:Hd.
      * intros _. apply andb_true_iff in Hd as [_ Hb]. destruct e; try done. by eapply built_rest.
      * intros Hin. exfalso. destruct Hst as [Hs|Hs]; rewrite Hs in Hin; revert Hin; apply (bool_decide_unpack _); vm_compute; exact I.
    + by rewrite (fire_recorded _ _ _ He Hf).
  - destruct (_ && _) eqn:He; [|done]. intros [= <-]. apply andb_true_iff in He as [[_ Hl]%andb_true_iff Hn].
    split; [done| |done]. intros _. split; [by apply negb_true_iff|by apply Nat.eqb_eq].
  - case_bool_decide as He; [|done]. intros [= <-]. split; [done| |done]. intros _. apply Hr. rewrite He. by left.
  - case_bool_decide as He; [|done]. intros [= <-]. split; [done| |done]. intros Hin. exfalso. revert Hin.
    apply (bool_decide_unpack _); vm_compute; exact I.
Qed.

Lemma life_inv_new : life_inv new_life.
Proof. split; [apply client_inv_new|by split|done]. Qed.
Lemma live_inv l x x' : life_inv x → live x l = Some x' → life_inv x'.
Proof.
  revert x. induction l as [|m l IH]; intros x Hx; cbn [live]; [by intros [= <-]|].
  intros (y & Hy & Hl)%bind_Some. eapply IH; [|exact Hl]. by eapply act_inv.
Qed.

(** *** The final flush when no request is on its way *)

(** The shards the flush has passed are empty, and so is the one it is at. *)
Definition swept (c : client) : Prop :=
  cleared c (next c) ∧ (locked c = true → ∀ s, heaps c !! next c = Some s → current s = ∅).

Definition settled (x : life) : Prop :=
  l_passed x = [] ∧
  match l_stage x with
  | Flushing => swept (l_client x)
  | Flushed => ∀ k, held (l_client x) k = false
  | _ => False
  end.

Lemma swept_lock c c' : inv c → swept c → fire c LockShard = Some c' → swept c'.
Proof.
  intros Hinv [Hcl _]. cbn [fire]. destruct (locked c) eqn:El; [done|]. cbn [negb andb].
  destruct (Nat.ltb_spec (next c) numShards) as [Hlt|]; [|done]. intros [= <-]. split; cbn [next heaps locked].
  - intros j s Hj. cbn [heaps]. unfold on_shard. rewrite list_lookup_alter_ne by (cbn; lia). by apply Hcl.
  - intros _ s'. unfold on_shard. rewrite list_lookup_alter_eq. intros (s & Hs & ->)%fmap_Some.
    destruct (i_shards c Hinv _ _ Hs) as [Hsound _]. unfold phase_of in Hsound. rewrite Nat.ltb_irrefl, El, andb_false_r in Hsound.
    by destruct (swap_sound s Hsound) as (_ & _ & H3).
Qed.
Lemma swept_copy c c' : inv c → swept c → fire c CopyShard = Some c' → swept c'.
Proof.
  intros Hinv [Hcl Hat]. cbn [fire]. destruct (locked c) eqn:El; [|done]. intros [= <-]. split; cbn [next heaps locked]; [|done].
  intros j s' Hj. cbn [heaps]. unfold on_shard. destruct (decide (next c = j)) as [<-|Hji].
  - rewrite list_lookup_alter_eq. intros (s & Hs & ->)%fmap_Some.
    destruct (i_shards c Hinv _ _ Hs) as [Hsound _]. unfold phase_of in Hsound.
    rewrite Nat.ltb_irrefl, Nat.eqb_refl, El in Hsound. cbn [andb] in Hsound.
    destruct (copy_sound s Hsound) as (_ & _ & ->). by apply Hat.
  - rewrite list_lookup_alter_ne by done. apply Hcl. lia.
Qed.

Lemma act_settled x m x' : life_inv x → settled x → act x m = Some x' → settled x'.
Proof.
  intros [Hc Hr Ha] [Hp Hs]. destruct m as [rec now|i|e| | |]; cbn [act].
  - intros [= <-]. destruct (l_stage x) eqn:Hst; try done; cbn [closed]; split; try done; by rewrite Hst.
  - by rewrite Hp.
  - destruct (_ || _) eqn:He; [done|]. apply orb_false_iff in He as [He Hst]. apply negb_false_iff, bool_decide_eq_true in Hst.
    intros (c' & Hf & [= <-])%bind_Some. destruct Hst as [Hst|Hst]; rewrite Hst in *; [done|]. rewrite bool_decide_true by done.
    split; [done|]. cbn [l_stage l_client andb]. destruct e; [done|by eapply swept_lock|by eapply swept_copy|].
    apply (built_empty (l_client x)); [done|]. intros j s Hj. apply Hs.
    cbn [fire] in Hf. destruct (negb _ && _) eqn:Hn; [|done]. apply andb_true_iff in Hn as [_ Hn%Nat.eqb_eq]. lia.
  - case_bool_decide as He; [|done]. by rewrite He in Hs.
  - case_bool_decide as He; [|done]. by rewrite He in Hs.
  - case_bool_decide as He; [|done]. intros [= <-]. split; [done|]. cbn [l_stage l_client].
    destruct (Hr ltac:(destruct He as [-> | ->]; set_solver)) as [Hl Hn]. split; [|by rewrite Hl]. intros j s Hj. lia.
Qed.

Lemma live_settled l x x' : life_inv x → settled x → live x l = Some x' → settled x'.
Proof.
  revert x. induction l as [|m l IH]; intros x Hx Hs; cbn [live]; [by intros [= <-]|].
  intros (y & Hy & Hl)%bind_Some. eapply IH; [by eapply act_inv|by eapply act_settled|exact Hl].
Qed.
End life.

(** *** Shutdown can always finish *)

Lemma live_app `{M : MathLib} x l l' : live x (l ++ l') = live x l ≫= λ x, live x l'.
Proof. revert x. induction l as [|m l IH]; intros x; [done|]. cbn. destruct (act x m); [apply IH|done]. Qed.

Lemma live_flush `{M : MathLib} l c c' arrived passed :
  Forall (λ e, e = LockShard ∨ e = CopyShard) l → run_schedule c l = Some c' →
  live (mkLife c Flushing arrived passed) (FlushStep <$> l) = Some (mkLife c' Flushing arrived passed).
Proof.
  revert c. induction l as [|e l IH]; intros c Hl; cbn [run_schedule]; [by intros [= <-]|].
  apply Forall_cons in Hl as [He Hl]. destruct (racing c e) eqn:Hr; [done|]. intros (c1 & Hf & Hrun)%bind_Some.
  cbn [fmap list_fmap live act]. assert (Hq : is_request e = false) by (by destruct He as [-> | ->]).
  rewrite Hq. cbn [l_stage l_client l_arrived l_passed]. rewrite bool_decide_true by by right. cbn [orb negb].
  rewrite Hf. cbn [mbind option_bind]. rewrite bool_decide_true by done.
  assert (match e with Build => true | _ => false end = false) as -> by (by destruct He as [-> | ->]). cbn [andb]. by apply IH.
Qed.

Lemma quiet_rounds_steps n : Forall (λ e, e = LockShard ∨ e = CopyShard) (quiet_rounds n).
Proof. induction n as [|n IH]; [constructor|]. apply Forall_cons_2; [by left|]. apply Forall_cons_2; [by right|]. exact IH. Qed.

Lemma final_flush_ends `{M : MathLib} x :
  life_inv x → l_stage x = Barred ∨ l_stage x = Flushed →
  ∃ x', live x (FinalFlush :: (FlushStep <$> quiet_flush)) = Some x' ∧ l_stage x' = Flushed.
Proof.
  intros [Hc Hr Ha] Hst. destruct (Hr ltac:(destruct Hst as [-> | ->]; set_solver)) as [Hl Hn].
  destruct (quiet_rounds_clear numShards (l_client x) Hc Hl) as (c1 & Hrun & El1 & Hn1 & _); [by rewrite Hn|intros j s Hj; lia|].
  unfold quiet_flush. rewrite fmap_app. cbn [live act]. rewrite bool_decide_true by done. cbn [mbind option_bind].
  rewrite live_app, (live_flush _ _ _ _ _ (quiet_rounds_steps _) Hrun). cbn [mbind option_bind fmap list_fmap live act is_request l_stage l_client].
  rewrite (bool_decide_true (Flushing = Up ∨ _)) by by right. cbn [orb negb fire].
  rewrite El1, Hn1, Nat.eqb_refl. cbn [negb andb]. rewrite !(bool_decide_true (Flushing = Flushing)) by done.
  eexists. split; [reflexivity|]. reflexivity.
Qed.

(** Once the flag is up, no request is let in. *)
Lemma live_closed `{M : MathLib} l x x' : closed (l_stage x) = true → live x l = Some x' → l_arrived x' = l_arrived x.
Proof.
  revert x. induction l as [|m l IH]; intros x Hx; cbn [live]; [by intros [= <-]|].
  intros (y & Hy & Hl)%bind_Some.
  assert (Hyx : closed (l_stage y) = true ∧ l_arrived y = l_arrived x).
  { destruct m; cbn [act] in Hy.
    - rewrite Hx in Hy. by injection Hy as <-.
    - apply bind_Some in Hy as (r & _ & Hy). case_match; [done|]. by apply bind_Some in Hy as (c' & _ & [= <-]).
    - case_match; [done|]. apply bind_Some in Hy as (c' & _ & [= <-]). cbn. by case_match.
    - case_match eqn:E; [|done]. rewrite !andb_true_iff, bool_decide_eq_true in E. destruct E as [[E _] _]. by rewrite E in Hx.
    - case_bool_decide as E; [|done]. by injection Hy as <-.
    - case_bool_decide as E; [|done]. by injection Hy as <-. }
  destruct Hyx as [Hy' <-]. by apply IH.
Qed.

(** [C17] Shutdown reports every request that was let in. When no request is between its check and
    its record as the final flush begins - the host stopped its server first, as the comment
    asks -, then, whatever schedule of requests, flushes and calls of Shutdown came before and
    goes on, the requests recorded are those that found the flag down, and each is in exactly
    one window: nothing is left in the shards. The final flush can always be carried through,
    and a request that finds the flag up is not recorded. *)
Theorem shutdown_reports_every_request `{M : MathLib} `{!Span} l1 l2 y x :
  log_nondecreasing → live new_life l1 = Some y → l_passed y = [] →
  live y (FinalFlush :: l2) = Some x → l_stage x = Flushed →
  l_arrived x = l_arrived y ∧ recorded (l_client x) ≡ₚ l_arrived x ∧
  (∀ k, ∃ segs, with_key k (recorded (l_client x)) = concat segs ∧ Forall2 (reports k) (windows (l_client x)) segs) ∧
  ∃ x', live y (FinalFlush :: (FlushStep <$> quiet_flush)) = Some x' ∧ l_stage x' = Flushed.
Proof.
  intros Hlog H1 Hp H2 Hst. pose proof (live_inv _ _ _ life_inv_new H1) as Hy. pose proof (live_inv _ _ _ Hy H2) as Hx.
  cbn [live] in H2. apply bind_Some in H2 as (z & Hz & H2). pose proof (act_inv _ _ _ Hy Hz) as Hzi.
  cbn [act] in Hz. case_bool_decide as Hs; [|done]. injection Hz as <-.
  assert (Hset : settled x).
  { eapply (live_settled l2); [exact Hzi| |exact H2]. split; [done|]. cbn [l_stage l_client].
    destruct (li_rest y Hy ltac:(destruct Hs as [-> | ->]; set_solver)) as [Hl Hn]. split; [|by rewrite Hl]. intros j s Hj. lia. }
  destruct Hset as [Hpx Hheld]. rewrite Hst in Hheld.
  split; [exact (live_closed l2 (mkLife _ Flushing _ _) x eq_refl H2)|]. split; [rewrite (li_arrived x Hx), Hpx; by rewrite app_nil_r|].
  split; [|by apply final_flush_ends]. intros k.
  destruct (segments_of (l_client x) k Hlog (li_client x Hx)) as (segs & rest & Hk & Hw & Hrest).
  exists segs. split; [|done]. rewrite Hk. destruct rest; [by rewrite app_nil_r|]. rewrite Hheld in Hrest.
  exfalso. assert (false = true) by by apply Hrest. done.
Qed.

(** Two requests, one recorded after the goroutine has gone; a third finds the flag up. *)
Definition toy_before : list move :=
  [Arrive get_ok (UnixMilli 5); Arrive get_fail (UnixMilli 6); Note 0; Exit; Note 0; Bar].
Definition toy_after : list move := [Arrive get_ok (UnixMilli 9)] ++ (FlushStep <$> quiet_flush).
Local Notation toy_live := (@live step_math).
Definition toy_barred : life := default new_life (toy_live new_life toy_before).
Definition toy_closed : life := default new_life (toy_live toy_barred (FinalFlush :: toy_after)).

Lemma shutdown_reports_every_request_witness :
  let _ := step_math in
  l_stage toy_closed = Flushed ∧ recorded (l_client toy_closed) ≡ₚ [(get_ok, UnixMilli 5); (get_fail, UnixMilli 6)] ∧
  ∀ k, ∃ segs, with_key k (recorded (l_client toy_closed)) = concat segs ∧ Forall2 (reports k) (windows (l_client toy_closed)) segs.
Proof.
  cbv zeta.
  assert (E1 : toy_live new_life toy_before = Some toy_barred).
  { assert (Hs : bool_decide (is_Some (toy_live new_life toy_before)) = true) by (vm_compute; reflexivity).
    apply bool_decide_eq_true in Hs as [y Hy]. unfold toy_barred. rewrite Hy. reflexivity. }
  assert (E2 : toy_live toy_barred (FinalFlush :: toy_after) = Some toy_closed).
  { assert (Hs : bool_decide (is_Some (toy_live toy_barred (FinalFlush :: toy_after))) = true) by (vm_compute; reflexivity).
    apply bool_decide_eq_true in Hs as [y Hy]. unfold toy_closed. rewrite Hy. reflexivity. }
  assert (Hst : l_stage toy_closed = Flushed) by (vm_compute; reflexivity).
  assert (Harr : l_arrived toy_closed = [(get_ok, UnixMilli 5); (get_fail, UnixMilli 6)]) by (vm_compute; reflexivity).
  destruct (@shutdown_reports_every_request step_math step_span toy_before toy_after toy_barred toy_closed
    step_log_nondecreasing E1 eq_refl E2 Hst) as (_ & Hperm & Hk & _).
  split; [exact Hst|]. split; [rewrite <-Harr; exact Hperm|exact Hk].
Defined.

(** The discipline is needed: a request that passed the check before the flag went up and
    records after the final flush is in no window, and its series stays in the shard. *)
Definition late_moves : list move :=
  [Arrive get_ok (UnixMilli 5); Exit; Bar; FinalFlush] ++ (FlushStep <$> quiet_flush) ++ [Note 0].
Definition late_life : life := default new_life (toy_live new_life late_moves).

Example late_request_is_lost :
  l_stage late_life = Flushed ∧ recorded (l_client late_life) = [(get_ok, UnixMilli 5)] ∧
  held (l_client late_life) (obs_key get_ok) = true ∧
  Forall (λ w, w !! obs_key get_ok = None) (windows (l_client late_life)).
Proof. vm_compute. repeat split; repeat constructor. Qed.
