(* ===== verification/Storage.v ===== *)
(** * The data plane's values (server/internal/tenant, storage/row.go, sketch.go, tier.go,
    query.go, dashboard.go)

    The tenant identity, the rows a writer inserts, the server's reading of a merged
    sketch, the choice of a rollup tier and the endpoint aggregate. SQL text and the
    ClickHouse driver are outside the model. *)

From Stdlib Require Import ZArith Lia Floats Ascii.
From Stdlib Require String.
From stdpp Require Import base option gmap fin_maps sets strings sorting list.
From S2P Require Import Prelude GoFloat GoString GoTime GoMath Wire Sketch.

Local Open Scope Z_scope.

(** ** Tenant identity *)

Module tenant.
Record ID := mkID { v : string }.
Definition zero_ID : ID := mkID "".
Definition Parse (s : string) : option ID :=
  if bool_decide (s = ""%string) then None else Some (mkID s).
Definition MustParse (s : string) : outcome ID :=
  match Parse s with Some id => Ret id | None => Panic "tenant: empty id" end.
Definition String (id : ID) : string := v id.
Definition IsZero (id : ID) : bool := bool_decide (v id = ""%string).
#[export] Instance ID_eq_dec : EqDecision ID.
Proof. solve_decision. Defined.
End tenant.

(** ** Rows *)

Record SketchBucket := mkBucket { Index : Z; bucketCount : Z }.
Record StatusCode := mkCode { Code : Z; codeCount : Z }.
Record ErrorClass := mkClass { Class_ : string; classCount : Z }.
Record NoStatusReason := mkReason { Reason : Z; reasonCount : Z }.

Record Exemplar := mkExemplar {
  At : Time; DurationNs : Z; StatusCode_ : Z; TraceID : string; SpanID : string; RequestID : string;
}.

Record Row := mkRow {
  Tenant : tenant.ID; Service : string; Instance_ : string; Method : string;
  RouteTemplate : string; StatusClass : string; WindowStart : Time; WindowEnd : Time;
  Count : Z; SumDurationNs : Z; ReqBytes : Z; RespBytes : Z;
  Sketch : list SketchBucket; StatusCodes : list StatusCode; MaxDurationNs : Z;
  Exemplars : list Exemplar; ErrorClasses : list ErrorClass;
  NoStatusReasons : list NoStatusReason; SumDownstreamNs : Z;
  DeployVersion : string; DeployID : string; Environment : string; Region : string;
  InstanceStart : Time;
}.

Record InstanceWindowRow := mkIWRow {
  iwr_tenant : tenant.ID; iwr_service : string; iwr_instance : string;
  iwr_start : Time; iwr_end : Time; iwr_gauges : InstanceWindow;
}.

(** [sortedByKey]: the entries in ascending key order ([cmp.Compare] on the key). *)
Definition sortedByKey `{Countable K} {V} (ltb : K → K → bool) (elem : K → Z → V) (keyOf : V → K)
  (m : gmap K Z) : list V :=
  sort_stable (λ a b, ltb (keyOf a) (keyOf b)) ((λ kc, elem kc.1 kc.2) <$> map_to_list m).

Definition sortedSketch (m : gmap Z Z) : list SketchBucket := sortedByKey Z.ltb mkBucket Index m.
Definition sortedStatusCodes (m : gmap Z Z) : list StatusCode := sortedByKey Z.ltb mkCode Code m.
Definition sortedErrorClasses (m : gmap string Z) : list ErrorClass :=
  sortedByKey String.ltb mkClass Class_ m.

(** The reasons are narrowed to 8 bits before the sort. *)
Definition sortedNoStatusReasons (m : gmap Z Z) : list NoStatusReason :=
  sort_stable (λ a b, Reason a <? Reason b) ((λ kc, mkReason (u8 kc.1) kc.2) <$> map_to_list m).

Definition NewRow (tenantID : tenant.ID)
  (service instance method routeTemplate statusClass : string) (windowStart windowEnd : Time)
  (count sumDurationNs reqBytes respBytes : Z) (sketch statusCodes : gmap Z Z)
  (deployVersion deployID environment region : string) (instanceStart : Time)
  (maxDurationNs : Z) (exemplars : list Exemplar) (errorClasses : gmap string Z)
  (noStatusReasons : gmap Z Z) (sumDownstreamNs : Z) : Row :=
  mkRow tenantID service instance method routeTemplate statusClass windowStart windowEnd
    count sumDurationNs reqBytes respBytes (sortedSketch sketch) (sortedStatusCodes statusCodes)
    maxDurationNs exemplars (sortedErrorClasses errorClasses)
    (sortedNoStatusReasons noStatusReasons) sumDownstreamNs
    deployVersion deployID environment region instanceStart.

(** The maps rebuilt for the driver: a later entry overwrites. *)
Definition rebuild `{Countable K} {V} (keyOf : V → K) (countOf : V → Z) (l : list V) : gmap K Z :=
  fold_left (λ m e, <[keyOf e := countOf e]> m) l ∅.

Definition sketchMap (r : Row) : gmap Z Z := rebuild Index bucketCount (Sketch r).
Definition statusCodeMap (r : Row) : gmap Z Z := rebuild Code codeCount (StatusCodes r).
Definition errorClassMap (r : Row) : gmap string Z := rebuild Class_ classCount (ErrorClasses r).
Definition noStatusReasonMap (r : Row) : gmap Z Z := rebuild Reason reasonCount (NoStatusReasons r).

Definition exemplarTuples (r : Row) : list (Time * Z * Z * string * string * string) :=
  (λ e, (At e, DurationNs e, StatusCode_ e, TraceID e, SpanID e, RequestID e)) <$> Exemplars r.

(** ** Quantiles of a merged sketch *)

Section sketch.
Context `{MathLib}.

Definition SketchGamma : f64 := 1.01%float.
Definition SketchGammaPlusOne : f64 := 2.01%float.

Definition bucketValue (i : Z) : f64 :=
  (2 * math_pow SketchGamma (f64_of_Z i) / SketchGammaPlusOne)%float.

Definition serverRank (q : f64) (total : Z) : Z :=
  let rank := uint64_of_f64 (ceil (q * f64_of_Z total)%float) in
  let rank := if rank <? 1 then 1 else rank in
  if total <? rank then total else rank.

Fixpoint cumulative_walk (m : gmap Z Z) (indices : list Z) (cum rank : Z) : option Z :=
  match indices with
  | [] => None
  | idx :: indices =>
      let cum := u64 (cum + count_at m idx) in
      if rank <=? cum then Some idx else cumulative_walk m indices cum rank
  end.

Definition sorted_indices (m : gmap Z Z) : list Z := sort_stable Z.ltb (map_to_list m).*1.

Definition QuantileFromBuckets (m : gmap Z Z) (q : f64) : outcome f64 :=
  let total := map_total m in
  if total =? 0 then Ret 0%float
  else
    let indices := sorted_indices m in
    match cumulative_walk m indices 0 (serverRank q total) with
    | Some idx => Ret (bucketValue idx)
    | None => match last indices with
              | Some idx => Ret (bucketValue idx)
              | None => Panic "index out of range"
              end
    end.

(** ** The endpoint aggregate *)

Record HistogramBar := mkBar { LatencySeconds : f64; barCount : Z }.
Record StatusClassCount := mkClassCount { scClass : string; scCount : Z }.
Record EndpointDetail := mkDetail {
  dCount : Z; dErrorRate : f64; dP50 : f64; dP95 : f64; dP99 : f64;
  dHistogram : list HistogramBar; dStatusClasses : list StatusClassCount;
  dStatusCodes : gmap Z Z;
}.

(** [buildEndpointDetail] on the scanned columns; it panics when a quantile does. *)
Definition buildEndpointDetail (total c2xx c3xx c4xx c5xx cno : Z) (ks vs : list Z)
  (codeKeys codeVals : list Z) : outcome EndpointDetail :=
  let same := (length ks =? length vs)%nat in
  let histogram := if same then zip_with (λ idx c, mkBar (bucketValue idx) c) ks vs else [] in
  let buckets := if same then fold_left (λ m kc, <[kc.1 := kc.2]> m) (zip ks vs) ∅ else (∅ : gmap Z Z) in
  (let! p50 := QuantileFromBuckets buckets 0.50%float in
   let! p95 := QuantileFromBuckets buckets 0.95%float in
   let! p99 := QuantileFromBuckets buckets 0.99%float in
   Ret (mkDetail total
          (if 0 <? total then (f64_of_Z (u64 (c5xx + cno)) / f64_of_Z total)%float else 0%float)
          p50 p95 p99 histogram
          [mkClassCount "2xx" c2xx; mkClassCount "3xx" c3xx; mkClassCount "4xx" c4xx;
           mkClassCount "5xx" c5xx; mkClassCount "no_status" cno]
          (if (length codeKeys =? length codeVals)%nat
           then fold_left (λ m kc, <[kc.1 := kc.2]> m) (zip codeKeys codeVals) ∅ else ∅)))%go.
End sketch.

(** ** Rollup tiers *)

Definition tableRaw : string := "summaries".
Definition table1m : string := "summaries_1m".
Definition table1h : string := "summaries_1h".
Definition table1d : string := "summaries_1d".
Definition tierTables : gset string := {[ tableRaw; table1m; table1h; table1d ]}.

Record tier := mkTier { table : string; minStep : Duration; description : string }.

Definition selectTier (from to : Time) : tier :=
  let width := time_sub to from in
  if width <=? 2 * Hour then mkTier tableRaw (10 * Second) "raw 10s"
  else if width <=? 48 * Hour then mkTier table1m Minute "1m rollup"
  else if width <=? 60 * 24 * Hour then mkTier table1h Hour "1h rollup"
  else mkTier table1d (24 * Hour) "1d rollup".

(** [buildSeriesQuery]: the table the query is formatted with, and the step. *)
Definition buildSeriesQuery (from to : Time) (step : Duration) : result string (string * Z) :=
  let t := selectTier from to in
  let step := if step <? minStep t then minStep t else step in
  if bool_decide (table t ∉ tierTables) then Err "unknown tier table"%string
  else
    let stepSeconds := Z.quot step Second in
    if stepSeconds <=? 0 then Err "step must be >= 1s"%string
    else Ok (table t, stepSeconds).

Definition tierQuery (from to : Time) : result string string :=
  let t := selectTier from to in
  if bool_decide (table t ∉ tierTables) then Err "unknown tier table"%string else Ok (table t).

Definition memoryTrendStep (step : Duration) : Z :=
  let stepSeconds := Z.quot step Second in
  if stepSeconds <=? 0 then 1 else stepSeconds.

(** ** Usage (usage.go, performance.go) *)

Definition fallbackBytesPerSummary : f64 := 400%float.

(** [system.parts]: an error, or (bytes on disk, rows). *)
Definition summaryRowBytes (parts : option (Z * Z)) : f64 :=
  match parts with
  | None => fallbackBytesPerSummary
  | Some (bytesOnDisk, rows) =>
      if rows =? 0 then fallbackBytesPerSummary else (f64_of_Z bytesOnDisk / f64_of_Z rows)%float
  end.

Definition SummaryDiskBytes (summaries : Z) (parts : option (Z * Z)) : Z :=
  uint64_of_f64 (f64_of_Z summaries * summaryRowBytes parts)%float.

(** ** Maps through sorted slices *)

Section rebuild.
Context `{Countable K} {V : Type} (keyOf : V → K) (countOf : V → Z).

Lemma fold_insert_pairs (l : list (K * Z)) (acc : gmap K Z) :
  fold_left (λ m kc, <[kc.1 := kc.2]> m) l acc = list_to_map (reverse l) ∪ acc.
Proof.
  induction l as [|[k c] l IH] using rev_ind; [cbn; by rewrite map_empty_union|].
  rewrite fold_left_app, reverse_snoc. cbn. rewrite IH. by rewrite insert_union_l.
Qed.

Lemma rebuild_pairs (l : list V) :
  rebuild keyOf countOf l = list_to_map (reverse ((λ e, (keyOf e, countOf e)) <$> l)).
Proof.
  unfold rebuild. rewrite <-(map_union_empty (list_to_map _)), <-fold_insert_pairs.
  generalize (∅ : gmap K Z). induction l as [|e l IH]; intros acc; [done|]. apply IH.
Qed.

(** Any arrangement of the entries of [m] rebuilds to [m]. *)
Lemma rebuild_perm (m : gmap K Z) (elem : K → Z → V) (l : list V) :
  (∀ k c, keyOf (elem k c) = k ∧ countOf (elem k c) = c) →
  l ≡ₚ ((λ kc, elem kc.1 kc.2) <$> map_to_list m) → rebuild keyOf countOf l = m.
Proof.
  intros He Hl. rewrite rebuild_pairs.
  assert (Hp : reverse ((λ e, (keyOf e, countOf e)) <$> l) ≡ₚ map_to_list m).
  { rewrite reverse_Permutation, Hl, <-list_fmap_compose.
    erewrite (list_fmap_ext _ id); [by rewrite list_fmap_id|].
    intros i [k c] _. cbn. by destruct (He k c) as [-> ->]. }
  rewrite <-(list_to_map_to_list m). apply list_to_map_proper; [|done].
  rewrite Hp. apply NoDup_fst_map_to_list.
Qed.
End rebuild.

Lemma sorted_strict (l : list Z) : StronglySorted Z.le l → NoDup l → StronglySorted Z.lt l.
Proof.
  induction 1 as [|x l Hl IH Hx]; intros Hnd; [constructor|].
  apply NoDup_cons in Hnd as [Hnin Hnd]. constructor; [by apply IH|].
  rewrite Forall_forall in Hx |- *. intros y Hy. specialize (Hx y Hy).
  assert (x ≠ y) by (intros ->; done). lia.
Qed.

Lemma in_order_keys {V} (keyOf : V → Z) (l : list V) :
  in_order (λ a b, keyOf a <? keyOf b) l → StronglySorted Z.le (keyOf <$> l).
Proof.
  induction 1 as [|x l Hl IH Hx]; cbn; [constructor|]. constructor; [done|].
  apply Forall_fmap. eapply Forall_impl; [exact Hx|]. intros y Hy. cbn in *. lia.
Qed.

Lemma sortedByKey_sorted {V} (elem : Z → Z → V) (keyOf : V → Z) (m : gmap Z Z) :
  (∀ k c, keyOf (elem k c) = k) →
  StronglySorted Z.lt (keyOf <$> sortedByKey Z.ltb elem keyOf m).
Proof.
  intros He. apply sorted_strict.
  - apply in_order_keys, sort_stable_sorted; intros; lia.
  - unfold sortedByKey. rewrite (fmap_Permutation keyOf _ _ (sort_stable_perm _ _)).
    rewrite <-list_fmap_compose. erewrite (list_fmap_ext _ fst); [apply NoDup_fst_map_to_list|].
    intros i [k c] _. apply He.
Qed.

(** Nothing is lost between the counter maps of a summary and the maps handed to the
    driver, and the slices are deterministic: each slice of a new row is in strictly
    ascending key order and rebuilds to the map it came from (for the no-status reasons,
    when the keys fit the 8 bits of the column). *)
Theorem NewRow_maps_roundtrip tid service instance method route class ws we count sum req resp
  sketch codes version did env region start maxd exs classes reasons down :
  let r := NewRow tid service instance method route class ws we count sum req resp
             sketch codes version did env region start maxd exs classes reasons down in
  (sketchMap r = sketch ∧ StronglySorted Z.lt (Index <$> Sketch r)) ∧
  (statusCodeMap r = codes ∧ StronglySorted Z.lt (Code <$> StatusCodes r)) ∧
  errorClassMap r = classes ∧
  ((∀ k, is_Some (reasons !! k) → 0 ≤ k < 256) → noStatusReasonMap r = reasons).
Proof.
  intros r. split_and!.
  - by apply (rebuild_perm _ _ _ mkBucket); [|apply sort_stable_perm].
  - by apply sortedByKey_sorted.
  - by apply (rebuild_perm _ _ _ mkCode); [|apply sort_stable_perm].
  - by apply sortedByKey_sorted.
  - by apply (rebuild_perm _ _ _ mkClass); [|apply sort_stable_perm].
  - intros Hk. apply (rebuild_perm _ _ _ mkReason); [done|]. cbn [r NewRow NoStatusReasons].
    unfold sortedNoStatusReasons. rewrite sort_stable_perm. apply reflexive_eq.
    apply list_fmap_ext. intros i [k c] Hi. cbn. f_equal. unfold u8. apply Z.mod_small, Hk.
    exists c. apply elem_of_map_to_list. by eapply list_elem_of_lookup_2.
Qed.

(** The narrowing of the reasons' keys is not harmless for keys a client may send
    on the wire: reasons 1 and 257 end in one column entry that keeps only one of the two
    counts, in whatever order the entries are sorted. *)
Theorem noStatusReason_narrowing_loses tid es l :
  let m : gmap Z Z := {[ 1 := 5; 257 := 7 ]} in
  let r := NewRow tid "" "" "" "" "" 0 0 12 0 0 0 ∅ ∅ "" "" "" "" 0 0 es ∅ m 0 in
  l ≡ₚ NoStatusReasons r →
  rebuild Reason reasonCount l !! 1 = Some 5 ∨ rebuild Reason reasonCount l !! 1 = Some 7.
Proof.
  intros m r Hl. assert (Hr : NoStatusReasons r = [mkReason 1 5; mkReason 1 7] ∨
                              NoStatusReasons r = [mkReason 1 7; mkReason 1 5])
    by (vm_compute; tauto).
  assert (Hl' : l = [mkReason 1 5; mkReason 1 7] ∨ l = [mkReason 1 7; mkReason 1 5]).
  { destruct Hr as [Hr|Hr]; rewrite Hr in Hl;
      apply Permutation_length_2_inv in Hl || (symmetry in Hl; apply Permutation_length_2_inv in Hl);
      destruct Hl as [->| ->]; tauto. }
  destruct Hl' as [-> | ->]; vm_compute; tauto.
Qed.

Lemma noStatusReason_narrowing_loses_witness :
  rebuild Reason reasonCount [mkReason 1 7; mkReason 1 5] !! 1 = Some 5 ∨
  rebuild Reason reasonCount [mkReason 1 7; mkReason 1 5] !! 1 = Some 7.
Proof.
  apply (noStatusReason_narrowing_loses tenant.zero_ID []).
  vm_compute. first [reflexivity | apply Permutation_refl | apply perm_swap].
Defined.

(** ** Quantiles *)

Section server_quantile.
Context {M : MathLib}.

Lemma serverRank_range q total : 1 ≤ total → 1 ≤ serverRank q total ≤ total.
Proof.
  unfold serverRank. intros Ht. set (r := uint64_of_f64 _).
  destruct (Z.ltb_spec r 1); [destruct (Z.ltb_spec total 1); lia | destruct (Z.ltb_spec total r); lia].
Qed.

(** The sum the scan has reached after its list, modulo 2^64. *)
Lemma cumulative_walk_None m l cum rank :
  is_u64 cum → cumulative_walk m l cum rank = None →
  l = [] ∨ u64 (cum + sumZ (count_at m <$> l)) < rank.
Proof.
  revert cum. induction l as [|i l IH]; intros cum Hc Hw; [by left|]. right.
  cbn [cumulative_walk] in Hw. destruct (Z.leb_spec rank (u64 (cum + count_at m i))); [done|].
  rewrite fmap_cons. change (sumZ (count_at m i :: (count_at m <$> l)))
    with (count_at m i + sumZ (count_at m <$> l)).
  destruct (IH _ (u64_range _) Hw) as [->|Hlt].
  - cbn. by rewrite Z.add_0_r.
  - rewrite u64_add_l in Hlt. by rewrite Z.add_assoc.
Qed.

Lemma sorted_indices_perm (m : gmap Z Z) : sorted_indices m ≡ₚ (map_to_list m).*1.
Proof. apply sort_stable_perm. Qed.

Lemma sum_counts (m : gmap Z Z) :
  sumZ (count_at m <$> sorted_indices m) = sumZ (map_to_list m).*2.
Proof.
  rewrite (sumZ_perm _ ((λ kc : Z * Z, kc.2) <$> map_to_list m)); [done|].
  rewrite sorted_indices_perm, <-list_fmap_compose. apply reflexive_eq, list_fmap_ext.
  intros i [k c] Hi. cbn. unfold count_at.
  by rewrite (proj1 (elem_of_map_to_list m k c)) by (by eapply list_elem_of_lookup_2).
Qed.

(** The scan ends inside the loop: the last cumulative count is the total. *)
Lemma cumulative_walk_total m q :
  map_total m ≠ 0 → ∃ i, cumulative_walk m (sorted_indices m) 0 (serverRank q (map_total m)) = Some i.
Proof.
  intros Ht. pose proof (map_total_sum m) as Hs. pose proof (u64_range (sumZ (map_to_list m).*2)) as Hr.
  rewrite <-Hs in Hr. unfold is_u64 in Hr.
  pose proof (serverRank_range q (map_total m) ltac:(lia)) as Hrank.
  destruct (cumulative_walk _ _ _ _) as [i|] eqn:Hw; [by exists i|]. exfalso.
  apply cumulative_walk_None in Hw as [He|Hlt]; [| |unfold is_u64; lia].
  - rewrite <-sum_counts, He in Hs. cbn in Hs. done.
  - rewrite sum_counts, Z.add_0_l, <-Hs in Hlt. lia.
Qed.
End server_quantile.

(** The least counter, in index order, whose running sum modulo 2^64 reaches the rank. *)
Definition answers_at `{MathLib} (m : gmap Z Z) (q x : f64) : Prop :=
  ∃ i, cumulative_walk m (sorted_indices m) 0 (serverRank q (map_total m)) = Some i ∧
       is_Some (m !! i) ∧ x = bucketValue i.

Lemma cumulative_walk_in m l cum rank i : cumulative_walk m l cum rank = Some i → i ∈ l.
Proof.
  revert cum. induction l as [|j l IH]; intros cum Hw; [done|]. cbn [cumulative_walk] in Hw.
  destruct (rank <=? _); [injection Hw as <-; constructor | constructor; eauto].
Qed.

(** The server's quantile never panics, even when the counts overflow 64 bits: a
    sketch with a zero total answers 0, any other answers the value of one of its own
    buckets, found inside the scan (the fall-through after the loop is never taken). *)
Theorem server_quantile_total `{M : MathLib} m q :
  if decide (map_total m = 0) then QuantileFromBuckets m q = Ret 0%float
  else ∃ x, QuantileFromBuckets m q = Ret x ∧ answers_at m q x.
Proof.
  unfold QuantileFromBuckets. case_decide as Ht.
  - by rewrite (proj2 (Z.eqb_eq _ _) Ht).
  - rewrite (proj2 (Z.eqb_neq _ _) Ht). destruct (cumulative_walk_total m q Ht) as [i Hi].
    exists (bucketValue i). rewrite Hi. split; [done|]. exists i. split; [done|]. split; [|done].
    apply cumulative_walk_in in Hi. rewrite sorted_indices_perm in Hi.
    apply list_elem_of_fmap in Hi as ([k c] & -> & Hkc). exists c. by apply elem_of_map_to_list.
Qed.

Section agreement.
Context {M : MathLib} {Hspan : @Span M}.

Lemma sorted_unique (l k : list Z) :
  StronglySorted Z.lt l → StronglySorted Z.lt k → (∀ x, x ∈ l ↔ x ∈ k) → l = k.
Proof.
  intros Hl. revert k. induction Hl as [|x l Hl IH Hx]; intros k Hk Hlk.
  - destruct k as [|y k]; [done|]. exfalso. apply (not_elem_of_nil y), Hlk. constructor.
  - destruct k as [|y k]; [exfalso; apply (not_elem_of_nil x), Hlk; constructor|].
    inversion Hk as [|? ? Hk' Hy]; subst. rewrite Forall_forall in Hx, Hy.
    assert (x = y) as <-.
    { assert (x = y ∨ x ∈ k) as [?|Hxk] by (apply elem_of_cons, Hlk; constructor); [done|].
      assert (y = x ∨ y ∈ l) as [?|Hyl] by (apply elem_of_cons, Hlk; constructor); [done|].
      specialize (Hx _ Hyl). specialize (Hy _ Hxk). lia. }
    f_equal. apply IH; [done|]. intros z. split; intros Hz.
    + assert (z = x ∨ z ∈ k) as [->|?] by (apply elem_of_cons, Hlk; by constructor); [|done].
      specialize (Hx _ Hz). lia.
    + assert (z = x ∨ z ∈ l) as [->|?] by (apply elem_of_cons, Hlk; by constructor); [|done].
      specialize (Hy _ Hz). lia.
Qed.

Lemma seqZ_sorted a n : StronglySorted Z.lt (seqZ a n).
Proof.
  destruct (Z.le_gt_cases 0 n) as [Hn|Hn]; [|rewrite seqZ_nil by lia; constructor].
  revert a. pattern n. apply natlike_ind; [intros a; constructor | |done].
  intros m Hm IH a. rewrite seqZ_cons by lia. constructor.
  - rewrite Z.pred_succ. apply IH.
  - apply Forall_forall. intros x Hx%elem_of_seqZ. lia.
Qed.

Lemma filter_sorted (P : Z → Prop) `{∀ x, Decision (P x)} l :
  StronglySorted Z.lt l → StronglySorted Z.lt (filter P l).
Proof.
  induction 1 as [|x l Hl IH Hx]; [constructor|]. rewrite filter_cons. case_decide; [|done].
  constructor; [done|]. apply Forall_forall. intros y [_ Hy]%list_elem_of_filter.
  rewrite Forall_forall in Hx. by apply Hx.
Qed.

Lemma sparse_walk_filter (m : gmap Z Z) idxs cum rank :
  (∀ i, i ∈ idxs → i32 i = i) →
  sparse_walk m idxs cum rank = cumulative_walk m (filter (λ i, is_Some (m !! i)) idxs) cum rank.
Proof.
  revert cum. induction idxs as [|i idxs IH]; intros cum Hi; [done|]. cbn [sparse_walk].
  rewrite Hi by constructor. rewrite filter_cons. destruct (m !! i) as [c|] eqn:Hm.
  - rewrite decide_True by eauto. cbn [cumulative_walk]. unfold count_at. rewrite Hm. cbn [default].
    change (default 0 (Some c)) with c. rewrite IH; [done|]. intros; apply Hi; by constructor.
  - rewrite decide_False by (by intros [? ?]). apply IH. intros; apply Hi; by constructor.
Qed.

(** The sorted keys are the present indices of the domain, in order. *)
Lemma sorted_indices_domain (m : gmap Z Z) :
  (∀ i, is_Some (m !! i) → minIndex ≤ i ≤ maxIndex) →
  sorted_indices m = filter (λ i, is_Some (m !! i)) (seqZ minIndex (maxIndex - minIndex + 1)).
Proof.
  intros Hm. apply sorted_unique.
  - apply sorted_strict.
    + rewrite <-(list_fmap_id (sorted_indices m)). apply in_order_keys. apply sort_stable_sorted; intros; lia.
    + rewrite sorted_indices_perm. apply NoDup_fst_map_to_list.
  - apply filter_sorted, seqZ_sorted.
  - intros i. rewrite sorted_indices_perm, list_elem_of_filter, elem_of_seqZ. split.
    + intros ([k c] & -> & Hkc)%list_elem_of_fmap. apply elem_of_map_to_list in Hkc. cbn.
      assert (Hs : is_Some (m !! k)) by eauto. specialize (Hm _ Hs). split; [done | lia].
    + intros [[c Hc] _]. apply list_elem_of_fmap. exists (i, c). split; [done|].
      by apply elem_of_map_to_list.
Qed.
End agreement.

Definition unit_interval (q : f64) : Prop := (q <? 0)%float = false ∧ (q >? 1)%f64 = false.

Lemma server_quantile `{M : MathLib} `{!Span} m q :
  (∀ i, is_Some (m !! i) → minIndex ≤ i ≤ maxIndex) → unit_interval q →
  QuantileFromBuckets m q = Ret (Sketch.QuantileFromBuckets m q).
Proof.
  intros Hm [Hq0 Hq1]. unfold QuantileFromBuckets, Sketch.QuantileFromBuckets.
  destruct (Z.eqb_spec (map_total m) 0) as [H0|H0]; [done|].
  assert (Hrank : quantileRank q (map_total m) = serverRank q (map_total m)).
  { unfold quantileRank, serverRank. rewrite Hq0, Hq1. set (r := uint64_of_f64 _).
    destruct (Z.ltb_spec r 1);
      [destruct (Z.ltb_spec (map_total m) 1); lia | destruct (Z.ltb_spec (map_total m) r); lia]. }
  rewrite Hrank, sparse_walk_filter, <-sorted_indices_domain by
    (done || (intros i Hi%elem_of_seqZ; pose proof span_fits; rewrite <-(Z.sub_add minIndex i);
              apply i32_key; lia)).
  by destruct (cumulative_walk_total m q H0) as [i ->].
Qed.

(** Client and server agree on every quantile: on a merged sketch whose indices are
    in the client's domain, and for q not below 0 nor above 1, the server's computation
    gives the client's answer. *)
Theorem server_quantile_is_client `{M : MathLib} `{!Span} m q :
  (∀ i, is_Some (m !! i) → minIndex ≤ i ≤ maxIndex) → unit_interval q →
  QuantileFromBuckets m q = Ret (Sketch.QuantileFromBuckets m q).
Proof. apply server_quantile. Qed.

Definition merged_sketch : gmap Z Z := {[ -700 := 3; -50 := 2; 90 := 1 ]}.

Lemma server_quantile_is_client_witness :
  @QuantileFromBuckets go_math merged_sketch 0.95%float =
  Ret (@Sketch.QuantileFromBuckets go_math merged_sketch 0.95%float).
Proof.
  apply (@server_quantile_is_client go_math span_go merged_sketch 0.95%float); [|by split].
  intros i Hi. rewrite go_minIndex, go_maxIndex. unfold merged_sketch in Hi.
  destruct Hi as [c Hc]. apply lookup_insert_Some in Hc as [[<- _]|[_ Hc]]; [lia|].
  apply lookup_insert_Some in Hc as [[<- _]|[_ Hc]]; [lia|].
  apply lookup_singleton_Some in Hc as [<- _]. lia.
Defined.

(** ** The endpoint aggregate and the tiers *)

(** The aggregate of an endpoint never panics and reports what it scanned: the error
    rate counts 5xx and no-status only, the histogram has one bar per scanned bucket
    with that bucket's value and count, and its percentiles are those of the sketch the
    histogram shows. *)
Theorem buildEndpointDetail_total `{MathLib} total c2 c3 c4 c5 cno ks vs ck cv :
  length ks = length vs →
  ∃ d, buildEndpointDetail total c2 c3 c4 c5 cno ks vs ck cv = Ret d ∧
    dCount d = total ∧
    (0 < total → dErrorRate d = (f64_of_Z (u64 (c5 + cno)) / f64_of_Z total)%float) ∧
    (total = 0 → dErrorRate d = 0%float) ∧
    (λ b, (LatencySeconds b, barCount b)) <$> dHistogram d = zip (bucketValue <$> ks) vs ∧
    let m := fold_left (λ m kc, <[kc.1 := kc.2]> m) (zip ks vs) (∅ : gmap Z Z) in
    QuantileFromBuckets m 0.50%float = Ret (dP50 d) ∧
    QuantileFromBuckets m 0.95%float = Ret (dP95 d) ∧
    QuantileFromBuckets m 0.99%float = Ret (dP99 d).
Proof.
  intros Hl. unfold buildEndpointDetail. rewrite Hl, Nat.eqb_refl.
  set (m := fold_left _ (zip ks vs) ∅).
  assert (Hq : ∀ q, ∃ x, QuantileFromBuckets m q = Ret x).
  { intros q. unfold QuantileFromBuckets. destruct (Z.eqb_spec (map_total m) 0) as [|H0]; [by eexists|].
    destruct (cumulative_walk_total m q H0) as [i ->]. by eexists. }
  destruct (Hq 0.50%float) as [a Ha], (Hq 0.95%float) as [b Hb], (Hq 0.99%float) as [c Hc].
  rewrite Ha, Hb, Hc. cbn [outcome_bind]. eexists. split; [done|]. cbn.
  split; [done|]. split; [intros Ht; by rewrite (proj2 (Z.ltb_lt _ _) Ht)|].
  split; [by intros ->|]. split; [|done]. clear. revert vs.
  induction ks as [|k ks IH]; intros [|v vs]; cbn; [done..|]. by rewrite IH.
Qed.

Lemma buildEndpointDetail_total_witness :
  ∃ d, @buildEndpointDetail go_math 6 3 0 2 1 0 [-700; 90] [5; 1] [200; 404] [3; 2] = Ret d ∧
    dCount d = 6 ∧
    (0 < 6 → dErrorRate d = (f64_of_Z (u64 (1 + 0)) / f64_of_Z 6)%float) ∧
    (6 = 0 → dErrorRate d = 0%float) ∧
    (λ b, (LatencySeconds b, barCount b)) <$> dHistogram d = zip (@bucketValue go_math <$> [-700; 90]) [5; 1] ∧
    let m := fold_left (λ m kc, <[kc.1 := kc.2]> m) (zip [-700; 90] [5; 1]) (∅ : gmap Z Z) in
    @QuantileFromBuckets go_math m 0.50%float = Ret (dP50 d) ∧
    @QuantileFromBuckets go_math m 0.95%float = Ret (dP95 d) ∧
    @QuantileFromBuckets go_math m 0.99%float = Ret (dP99 d).
Proof.
  exact (@buildEndpointDetail_total go_math 6 3 0 2 1 0 [-700; 90] [5; 1] [200; 404] [3; 2] eq_refl).
Defined.

(** Series queries are safe: whatever the window and the requested step, the table is
    one of the four rollup tables, the step is at least the tier's granularity and never
    smaller than requested (in whole seconds), the query is never refused, and a wider
    window never reads a finer tier. *)
Theorem buildSeriesQuery_safe from to step :
  is_i64 step →
  ∃ t s, buildSeriesQuery from to step = Ok (t, s) ∧ t ∈ tierTables ∧
    minStep (selectTier from to) ≤ s * Second ∧ Z.quot step Second ≤ s ∧
    ∀ from' to', time_sub to from ≤ time_sub to' from' →
      minStep (selectTier from to) ≤ minStep (selectTier from' to').
Proof.
  intros Hs. set (tr := selectTier from to).
  assert (Htr : table tr ∈ tierTables ∧ Z.rem (minStep tr) Second = 0 ∧ 0 < minStep tr).
  { subst tr. unfold selectTier, tierTables. repeat case_match; cbn; split; try set_solver; by vm_compute. }
  destruct Htr as (Htab & Hrem & Hpos). unfold buildSeriesQuery. fold tr.
  rewrite bool_decide_false by (intros Hn; by apply Hn).
  set (st := if step <? minStep tr then minStep tr else step).
  assert (Hst : minStep tr ≤ st ∧ step ≤ st) by (subst st; destruct (Z.ltb_spec step (minStep tr)); lia).
  assert (HS : 0 < Second) by done.
  assert (Hq : minStep tr ≤ Z.quot st Second * Second).
  { pose proof (Z.quot_rem' (minStep tr) Second) as Hd. rewrite Hrem in Hd.
    assert (Z.quot (minStep tr) Second ≤ Z.quot st Second) by (apply Z.quot_le_mono; lia). nia. }
  destruct (Z.leb_spec (Z.quot st Second) 0); [nia|].
  exists (table tr), (Z.quot st Second). split; [done|]. split; [done|]. split; [done|].
  split; [apply Z.quot_le_mono; lia|].
  intros from' to' Hw. subst tr. clear -Hw. unfold selectTier.
  repeat match goal with |- context [?a <=? ?b] => destruct (Z.leb_spec a b) end; cbn; try lia;
    unfold Hour, Minute, Second, Millisecond in *; lia.
Qed.

Lemma buildSeriesQuery_safe_witness :
  ∃ t s, buildSeriesQuery 0 (Hour * 30) (5 * Second) = Ok (t, s) ∧ t ∈ tierTables ∧
    minStep (selectTier 0 (Hour * 30)) ≤ s * Second ∧ Z.quot (5 * Second) Second ≤ s ∧
    ∀ from' to', time_sub (Hour * 30) 0 ≤ time_sub to' from' →
      minStep (selectTier 0 (Hour * 30)) ≤ minStep (selectTier from' to').
Proof. apply (buildSeriesQuery_safe 0 (Hour * 30) (5 * Second)). unfold is_i64. vm_compute. split; congruence. Defined.
