(* ===== verification/Sql.v ===== *)
(** * The SQL of the data plane: its functions (server/internal/storage/query.go, dashboard.go)

    The ClickHouse functions the queries are written in, over the 64-bit columns of the
    schema, and the quantile expression of [percentileExpr], proved to pick the bucket the
    Go code picks. [pow] of the database is the class [SqlLib]. *)

From Stdlib Require Import ZArith Lia Floats SpecFloat.
From stdpp Require Import base option gmap fin_maps strings list sorting.
From S2P Require Import Prelude GoFloat GoTime GoMath Sketch Storage.

Local Open Scope Z_scope.

Class SqlLib := { sql_pow : f64 → f64 → f64 }.

(** ** Aggregates *)

(** [sum] of a [UInt64] column. *)
Definition sum_of {A} (f : A → Z) (l : list A) : Z := u64 (sumZ (f <$> l)).
(** [sumIf]. *)
Definition sumIf {A} (f : A → Z) (cond : A → bool) (l : list A) : Z :=
  sum_of (λ x, if cond x then f x else 0) l.
(** [max] of an unsigned column: 0 over no rows. *)
Definition max_of {A} (f : A → Z) (l : list A) : Z := foldr (λ x acc, Z.max (f x) acc) 0 l.

(** [sumMap] of a [Map(K, UInt64)] column: keys whose sum is zero are not kept. *)
Definition merge_counts `{Countable K} (a b : gmap K Z) : gmap K Z :=
  union_with (λ x y, Some (u64 (x + y))) a b.
Definition sumMap {A} `{Countable K} (f : A → gmap K Z) (l : list A) : gmap K Z :=
  filter (λ kc, kc.2 ≠ 0) (foldr (λ x m, merge_counts (u64 <$> f x) m) ∅ l).

(** [arrayCumSum], and [indexOf] with its 1-based positions and 0 for absent. *)
Fixpoint cumsum_from (acc : Z) (l : list Z) : list Z :=
  match l with
  | [] => []
  | v :: l => let acc := u64 (acc + v) in acc :: cumsum_from acc l
  end.
Definition arrayCumSum (l : list Z) : list Z := cumsum_from 0 l.

Fixpoint indexOf (b : bool) (l : list bool) : nat :=
  match l with
  | [] => O
  | x :: l => if Bool.eqb x b then 1%nat else match indexOf b l with O => O | S n => S (S n) end
  end.

(** [ks[n]]: the default of the element type outside the array. *)
Definition arrayElement (ks : list Z) (n : nat) : Z :=
  match n with O => 0 | S i => default 0 (ks !! i) end.

Definition greatest (x y : f64) : f64 := if (x <? y)%float then y else x.

(** ** The quantile expression *)

Section percentile.
Context `{SqlLib}.

Definition sql_value (i : Z) : f64 := (2 * sql_pow 1.01 (f64_of_Z i) / 2.01)%float.

Definition sql_rank (q : f64) (total_count : Z) : Z :=
  uint64_of_f64 (greatest 1%float (ceil (q * f64_of_Z total_count)%float)).

(** The bucket index [percentileExpr] reads, over the WITH clause's [ks], [vs] and [cs]. *)
Definition percentile_index (q : f64) (merged : gmap Z Z) (total_count : Z) : Z :=
  let ks := sorted_indices merged in
  let vs := count_at merged <$> ks in
  let cs := arrayCumSum vs in
  arrayElement ks (indexOf true ((λ c, sql_rank q total_count <=? c) <$> cs)).

Definition percentileExpr (q : f64) (merged : gmap Z Z) (total_count : Z) : f64 :=
  sql_value (percentile_index q merged total_count).
End percentile.

(** ** Sums *)

Lemma sum_of_range {A} (f : A → Z) l : is_u64 (sum_of f l).
Proof. apply u64_range. Qed.

Lemma sum_of_app {A} (f : A → Z) l k : sum_of f (l ++ k) = u64 (sum_of f l + sum_of f k).
Proof. unfold sum_of. rewrite fmap_app, sumZ_app. solve_u64. Qed.

Lemma sum_of_cons {A} (f : A → Z) x l : sum_of f (x :: l) = u64 (f x + sum_of f l).
Proof. unfold sum_of, sumZ. cbn. by rewrite u64_add_r. Qed.

Lemma sum_of_perm {A} (f : A → Z) l k : l ≡ₚ k → sum_of f l = sum_of f k.
Proof. intros Hp. unfold sum_of. f_equal. apply sumZ_perm. by rewrite Hp. Qed.

Lemma sum_of_ext {A} (f g : A → Z) l : (∀ x, x ∈ l → u64 (f x) = u64 (g x)) → sum_of f l = sum_of g l.
Proof.
  unfold sum_of, sumZ. induction l as [|x l IH]; intros Hfg; [done|]. cbn.
  rewrite <-u64_add_l, <-u64_add_r, IH by (intros; apply Hfg; by constructor).
  rewrite (Hfg x) by constructor. by rewrite u64_add_l, u64_add_r.
Qed.

Section sumMap.
Context {A : Type} `{Countable K}.
Implicit Types (f : A → gmap K Z) (m a b : gmap K Z).

Lemma count_at_u64 m k : count_at (u64 <$> m) k = u64 (count_at m k).
Proof. unfold count_at. rewrite lookup_fmap. by destruct (m !! k). Qed.

Lemma count_at_merge a b k :
  counts_ok a → counts_ok b → count_at (merge_counts a b) k = u64 (count_at a k + count_at b k).
Proof.
  intros Ha Hb. pose proof (count_at_range a k Ha) as Hra. pose proof (count_at_range b k Hb) as Hrb.
  unfold count_at, merge_counts in *. rewrite lookup_union_with.
  destruct (a !! k) as [x|], (b !! k) as [y|]; cbn in *; rewrite ?Z.add_0_r, ?Z.add_0_l, ?u64_small by done; done.
Qed.

Lemma counts_ok_u64 m : counts_ok (u64 <$> m).
Proof. apply map_Forall_fmap, map_Forall_lookup. intros k c _. apply u64_range. Qed.

Lemma counts_ok_merge a b : counts_ok a → counts_ok b → counts_ok (merge_counts a b).
Proof.
  intros Ha Hb. apply map_Forall_lookup. intros k c. unfold merge_counts. rewrite lookup_union_with.
  destruct (a !! k) as [x|] eqn:Ea, (b !! k) as [y|] eqn:Eb; cbn; intros [= <-];
    [apply u64_range|by eapply Ha|by eapply Hb].
Qed.

Lemma sumMap_fold_ok f l : counts_ok (foldr (λ x m, merge_counts (u64 <$> f x) m) ∅ l).
Proof. induction l as [|x l IH]; cbn; [apply counts_ok_empty|by apply counts_ok_merge; [apply counts_ok_u64|]]. Qed.

Lemma count_at_nonzero m k : count_at (filter (λ kc, kc.2 ≠ 0) m) k = count_at m k.
Proof.
  unfold count_at. rewrite map_lookup_filter. destruct (m !! k) as [c|] eqn:E; cbn; [|done].
  case_guard as Hc; cbn; [done|]. destruct (decide (c = 0)); [done|tauto].
Qed.

(** [sumMap] sums key by key. *)
Lemma sumMap_count f l k : count_at (sumMap f l) k = sum_of (λ x, count_at (f x) k) l.
Proof.
  unfold sumMap. rewrite count_at_nonzero. unfold sum_of, sumZ. induction l as [|x l IH]; [done|].
  cbn. rewrite count_at_merge, count_at_u64, IH by (apply counts_ok_u64 || apply sumMap_fold_ok).
  by rewrite u64_add_l, u64_add_r.
Qed.

Lemma sumMap_nonzero f l k c : sumMap f l !! k = Some c → c ≠ 0.
Proof. by intros [_ ?]%map_lookup_filter_Some. Qed.

Lemma sumMap_counts_ok f l : counts_ok (sumMap f l).
Proof.
  apply map_Forall_lookup. intros k c [Hk _]%map_lookup_filter_Some.
  pose proof (sumMap_fold_ok f l) as Hok. by eapply Hok.
Qed.

(** Maps without zeros are determined by their counts. *)
Lemma nonzero_map_eq m m' :
  (∀ k c, m !! k = Some c → c ≠ 0) → (∀ k c, m' !! k = Some c → c ≠ 0) →
  (∀ k, count_at m k = count_at m' k) → m = m'.
Proof.
  intros Hm Hm' Heq. apply map_eq. intros k. specialize (Heq k). unfold count_at in Heq.
  destruct (m !! k) as [c|] eqn:E, (m' !! k) as [c'|] eqn:E'; cbn in Heq; [by subst| | |done].
  - by specialize (Hm _ _ E).
  - by specialize (Hm' _ _ E').
Qed.
End sumMap.

(** ** The quantile expression picks the bucket the code picks *)

Lemma walk_indexOf m l cum rank :
  let n := indexOf true ((λ c, rank <=? c) <$> cumsum_from cum (count_at m <$> l)) in
  match cumulative_walk m l cum rank with
  | Some i => ∃ j, n = S j ∧ l !! j = Some i
  | None => n = O
  end.
Proof.
  cbv zeta. revert cum. induction l as [|k l IH]; intros cum; [done|]. cbn.
  destruct (rank <=? u64 (cum + count_at m k)); cbn; [by exists O|]. specialize (IH (u64 (cum + count_at m k))).
  destruct (cumulative_walk m l _ rank) as [i|].
  - destruct IH as (j & -> & Hj). by exists (S j).
  - by rewrite IH.
Qed.

Lemma digits2_bound m : Z.pos m < 2 ^ Z.pos (digits2_pos m).
Proof.
  induction m as [m IH|m IH|]; cbn [digits2_pos]; [| |done];
    rewrite Pos2Z.inj_succ, Z.pow_succ_r by lia; lia.
Qed.

Lemma mantissa_bound x s m e : Prim2SF x = S754_finite s m e → Z.pos m < 2 ^ 53.
Proof.
  intros Hx. pose proof (Prim2SF_valid x) as Hv. rewrite Hx in Hv. cbn in Hv. unfold bounded in Hv.
  apply andb_true_iff in Hv as [Hc _]. apply Zeq_bool_eq in Hc. unfold fexp, emin, prec, emax in Hc.
  eapply Z.lt_le_trans; [apply digits2_bound|]. apply Z.pow_le_mono_r; lia.
Qed.

Lemma not_lt_mantissa p m :
  match Pos.compare_cont Eq p m with Lt => true | _ => false end = false → Z.pos m ≤ Z.pos p.
Proof. change (Pos.compare_cont Eq p m) with (Pos.compare p m). destruct (Pos.compare_spec p m); [lia|done|lia]. Qed.

(** A number that is not above one truncates to at most one. *)
Lemma trunc_below_one x z : (1 <? x)%float = false → trunc x = Some z → z ≤ 1.
Proof.
  rewrite ltb_spec. unfold trunc. change (Prim2SF 1) with (S754_finite false 4503599627370496 (-52)).
  destruct (Prim2SF x) as [s|s| |s m e] eqn:Hx; try done; [by intros _ [= <-]|].
  pose proof (mantissa_bound _ _ _ _ Hx) as Hm. intros Hlt [= <-].
  assert (Hz : 0 ≤ if 0 <=? e then Z.pos m * 2 ^ e else Z.pos m / 2 ^ (- e)).
  { destruct (Z.leb_spec 0 e); [lia|]. apply Z.div_pos; lia. }
  destruct s; [lia|]. unfold SFltb, SFcompare in Hlt.
  destruct (Z.leb_spec 0 e) as [He|He].
  { rewrite (proj2 (Z.compare_lt_iff (-52) e)) in Hlt by lia. done. }
  destruct (Z.compare_spec (-52) e) as [<-|?|?]; [|done|].
  - change (2 ^ - -52) with (2 ^ 52). apply Z.div_le_upper_bound; [lia|]. 
    apply not_lt_mantissa in Hlt. lia.
  - apply Z.div_le_upper_bound; [lia|]. assert (2 ^ 53 ≤ 2 ^ - e) by (apply Z.pow_le_mono_r; lia). lia.
Qed.

(** The rank the Go code computes before its clamps lies between 1 and the total: the
    binary64 product does not exceed the number it is a fraction of. *)
Definition rank_fits (q : f64) (total : Z) : Prop :=
  1 ≤ uint64_of_f64 (ceil (q * f64_of_Z total)%float) ≤ total ∧ total < 2 ^ 63.
#[export] Instance rank_fits_dec q total : Decision (rank_fits q total).
Proof. unfold rank_fits. apply _. Defined.

Lemma sql_rank_server q total : rank_fits q total → sql_rank q total = serverRank q total.
Proof.
  intros [[H1 H2] Ht]. unfold sql_rank, serverRank, greatest. set (c := ceil (q * f64_of_Z total)%float) in *.
  rewrite (proj2 (Z.ltb_ge (uint64_of_f64 c) 1)), (proj2 (Z.ltb_ge total (uint64_of_f64 c))) by lia.
  destruct (1 <? c)%float eqn:E; [done|]. change (uint64_of_f64 1%float) with 1.
  revert H1 H2. unfold uint64_of_f64. destruct (trunc c) as [z|] eqn:Ez; [|lia].
  pose proof (trunc_below_one c z E Ez). destruct ((0 <=? z) && (z <? 2 ^ 64)); lia.
Qed.

(** The index of the quantile: the one both sides give a value to. *)
Lemma percentile_index_server `{MathLib} q merged :
  map_total merged ≠ 0 → rank_fits q (map_total merged) →
  QuantileFromBuckets merged q = Ret (bucketValue (percentile_index q merged (map_total merged))) ∧
  is_Some (merged !! percentile_index q merged (map_total merged)).
Proof.
  intros H0 Hr. destruct (cumulative_walk_total merged q H0) as [i Hi].
  assert (Hp : percentile_index q merged (map_total merged) = i).
  { unfold percentile_index, arrayCumSum. rewrite (sql_rank_server _ _ Hr).
    pose proof (walk_indexOf merged (sorted_indices merged) 0 (serverRank q (map_total merged))) as Hw.
    cbv zeta in Hw. rewrite Hi in Hw. destruct Hw as (j & -> & Hj). cbn. by rewrite Hj. }
  rewrite Hp. unfold QuantileFromBuckets. rewrite (proj2 (Z.eqb_neq _ _) H0), Hi. split; [done|].
  apply cumulative_walk_in in Hi. rewrite sorted_indices_perm in Hi.
  apply list_elem_of_fmap in Hi as ([k c] & -> & Hkc). exists c. by apply elem_of_map_to_list.
Qed.
