(* ===== verification/Auth.v ===== *)
(** * The dashboard's authentication (server/internal/auth)

    Signed session and state cookies, the post-login redirect sanitizer, the OAuth login
    flow, dev-login, logout, the session gate and the providers' identities. HMAC-SHA256
    is a parameter ([MacLib]), as are the OAuth exchange and the provider's answers; the
    member store is the interface [MemberStore], which the file Control implements. *)

From Stdlib Require Import ZArith Lia Ascii.
From stdpp Require Import base option gmap strings list.
From S2P Require Import Prelude GoString GoTime GoUrl Http Token.

Local Open Scope Z_scope.

(** HMAC-SHA256 of a payload under a key. *)
Class MacLib := { hmac_sha256 : string → string → string }.

(** ** Signed values and sessions (session.go) *)

Record Session := mkSession { OrgID : string; MemberID : string; Role : string; Exp : Time }.

(** A key under 32 bytes is rejected. *)
Definition newSigner (key : string) : option string :=
  if (String.length key <? 32)%nat then None else Some key.

Section signed.
Context `{MacLib} (key : string).

(** base64url(payload) "." base64url(mac): what [encode], [writeSignedCookie] and the
    Setup form tokens all produce. *)
Definition sign (payload : string) : string :=
  str_app (b64_encode payload) (String.String "." (b64_encode (hmac_sha256 key payload))).

(** The verification [decode], [readSignedCookie] and the form tokens share. *)
Definition open_signed (value : string) : option string :=
  dot ← IndexByte value ".";
  payload ← b64_decode (str_take dot value);
  gotMAC ← b64_decode (str_drop (S dot) value);
  if bool_decide (gotMAC = hmac_sha256 key payload) then Some payload else None.

Definition session_payload (sess : Session) : string :=
  Join [OrgID sess; MemberID sess; Role sess; Itoa (to_unix_sec (Exp sess))] "|".

Definition encode (sess : Session) : string := sign (session_payload sess).

Definition decode (value : string) (now : Time) : option Session :=
  payload ← open_signed value;
  match Split payload "|" with
  | [org; member; role; e] =>
      expUnix ← ParseInt e;
      let exp := Unix expUnix in
      if time_after exp now then Some (mkSession org member role exp) else None
  | _ => None
  end.
End signed.

(** ** Providers (oauth.go) *)

Definition providerGitHub : string := "github".
Definition providerGoogle : string := "google".

Inductive endpoint := GitHubEndpoint | GoogleEndpoint.

Record provider := mkProvider {
  p_name : string; ClientID : string; ClientSecret : string; RedirectURL : string;
  Endpoint : endpoint; Scopes : list string;
}.

Definition buildProvider (name clientID clientSecret baseURL : string) : option provider :=
  if bool_decide (clientID = ""%string ∨ clientSecret = ""%string) then None
  else
    let redirect := str_app (TrimRight baseURL "/") (str_app "/auth/" (str_app name "/callback")) in
    if bool_decide (name = providerGitHub) then
      Some (mkProvider name clientID clientSecret redirect GitHubEndpoint ["read:user"; "user:email"]%string)
    else if bool_decide (name = providerGoogle) then
      Some (mkProvider name clientID clientSecret redirect GoogleEndpoint ["openid"; "email"]%string)
    else None.

Record ProviderConfig := mkProviderConfig {
  GitHubClientID : string; GitHubClientSecret : string;
  GoogleClientID : string; GoogleClientSecret : string; BaseURL : string;
}.

Definition buildProviders (pc : ProviderConfig) : gmap string provider :=
  let out := match buildProvider providerGitHub (GitHubClientID pc) (GitHubClientSecret pc) (BaseURL pc) with
             | Some p => {[ providerGitHub := p ]} | None => ∅ end in
  match buildProvider providerGoogle (GoogleClientID pc) (GoogleClientSecret pc) (BaseURL pc) with
  | Some p => <[ providerGoogle := p ]> out | None => out end.

(** [providerFromPath]. *)
Definition providerFromPath (v : string) : string := ToLower v.

(** ** The auth layer (auth.go) *)

Definition sessionMaxAge : Duration := 7 * 24 * Hour.
Definition stateMaxAge : Duration := 10 * Minute.
Definition sessionCookie : string := "maping_session".
Definition stateCookie : string := "maping_oauth_state".

Record AuthConfig := mkAuthConfig {
  SessionKey : string; Providers : ProviderConfig; DevOrgName : string; SecureCookies : bool;
}.

Record Auth := mkAuth {
  signer : string; providers : gmap string provider; devLogin : bool;
  devOrgName : string; baseURL : string; secure : bool;
}.

(** [New]: dev-login is on only without a real provider. *)
Definition New (cfg : AuthConfig) : option Auth :=
  sgn ← newSigner (SessionKey cfg);
  let ps := buildProviders (Providers cfg) in
  Some (mkAuth sgn ps (bool_decide (ps = ∅)) (DevOrgName cfg)
          (TrimRight (BaseURL (Providers cfg)) "/") (SecureCookies cfg)).

(** The routes [Register] mounts. *)
Definition routes (a : Auth) : list (string * string) :=
  (([("GET", "/login"); ("GET", "/auth/{provider}/start"); ("GET", "/auth/{provider}/callback");
    ("GET", "/logout"); ("POST", "/logout")]%string : list (string * string)) ++
   (if devLogin a then [("POST", "/auth/dev/login")]%string else [])).

(** What the handlers write to a body. *)
Inductive page :=
| Text (s : string)
| JSONError (msg : string)
| LoginPage (github google dev : bool) (next : string)
| KeyPage (token next : string).

Abbreviation response := (Response page) (only parsing).

(** What the handlers read of a request. *)
Record Request := mkRequest {
  r_path : string;
  r_cookies : list (string * string);
  r_query : string → string;
  r_form : string → string;
  r_value : string → string;
}.

(** [r.Cookie]: the first cookie of that name. *)
Definition request_cookie (r : Request) (name : string) : option string :=
  snd <$> hd_error (filter (λ kv, kv.1 = name) (r_cookies r)).

Definition newSession (now : Time) (orgID memberID role : string) : Session :=
  mkSession orgID memberID role (time_add now sessionMaxAge).

Definition cookie (a : Auth) (name value : string) (maxAge : Z) : Cookie :=
  mkCookie name value "/" true (secure a) maxAge.

Section auth.
Context `{MacLib} `{NetIP}.
Implicit Types (a : Auth) (w : response) (r : Request).

Definition setSessionCookie a w (sess : Session) : response :=
  SetCookie w (cookie a sessionCookie (encode (signer a) sess) (sessionMaxAge / Second)).

Definition clearCookie a w (name : string) : response := SetCookie w (cookie a name "" (-1)).

Definition writeSignedCookie a w (name payload : string) (maxAge : Duration) : response :=
  SetCookie w (cookie a name (sign (signer a) payload) (maxAge / Second)).

Definition readSignedCookie a r (name : string) : option string :=
  request_cookie r name ≫= open_signed (signer a).

Definition setStateCookie a w (payload : string) : response :=
  writeSignedCookie a w stateCookie payload stateMaxAge.

(** [readStateCookie]: provider, state and the optional redirect target. *)
Definition readStateCookie a r : option (string * string * string) :=
  payload ← readSignedCookie a r stateCookie;
  match SplitN payload "|" 3 with
  | [p; s] => Some (p, s, ""%string)
  | [p; s; next] => Some (p, s, next)
  | _ => None
  end.

Definition safeNext (next : string) : string :=
  if bool_decide (next = ""%string) || negb (HasPrefix next "/") || HasPrefix next "//"
     || HasPrefix next "/\" then "/"
  else match Parse next with
       | Some u => if bool_decide (Scheme u = ""%string ∧ Host u = ""%string) then next else "/"
       | None => "/"
       end.

(** ** The session gate (middleware.go) *)

Definition sessionFromRequest a r (now : Time) : option Session :=
  c ← request_cookie r sessionCookie; decode (signer a) c now.

Definition denyUnauthenticated w r : response :=
  if HasPrefix (r_path r) "/api/"
  then Write (WriteHeader (set_header w "Content-Type" "application/json") 401)
         (JSONError "unauthorized")
  else Redirect w "/login" 303.

(** [next] gets the session through the request context. *)
Definition Middleware a (next : Session → response → response) w r (now : Time) : response :=
  match sessionFromRequest a r now with
  | Some sess => next sess w
  | None => denyUnauthenticated w r
  end.

Definition Authenticated a r (now : Time) : bool :=
  bool_decide (is_Some (sessionFromRequest a r now)).

(** [rootHandler] (app.go): the public home is for anonymous visitors of "/" only. *)
Definition rootHandler a (gated home : response → response) w r (now : Time) : response :=
  if bool_decide (r_path r = "/"%string) && negb (Authenticated a r now) then home w else gated w.
End auth.

(** ** The member store *)

(** What the auth layer asks of the control plane, over a state of its own. *)
Class MemberStore (DB : Type) := {
  UpsertMemberFromOIDC : DB → string → string → DB * option (string * string * string * bool);
  DevOrgAdmin : DB → string → DB * option (string * string);
  IssueKey : DB → string → string → DB * option string;
}.

Record identity := mkIdentity { Subject : string; Email : string }.

(** The outside of one callback: the provider's consent URL, the code exchange and the
    identity its userinfo endpoint yields for a token. *)
Record oauth := mkOAuth {
  AuthCodeURL : provider → string → string;
  Exchange : provider → string → option string;
  userinfo : string → string → option identity;
}.

(** A composed post-authentication hook: it may finish the response itself. *)
Definition interceptor (DB : Type) : Type :=
  DB → Response page → identity → DB * Response page * bool.

(** ** The handlers (handlers.go) *)

Section handlers.
Context `{MacLib} `{NetIP} {DB : Type} `{MemberStore DB}.
Implicit Types (a : Auth) (w : response) (r : Request) (db : DB).

(** Stands for the policy that pins the page's scripts. *)
Definition interstitialCSP : string :=
  "default-src 'self'; script-src 'self'; style-src 'self' 'unsafe-inline' https://fonts.googleapis.com; font-src https://fonts.gstatic.com; img-src 'self' data:; base-uri 'none'; frame-ancestors 'none'".

Definition html_page w (p : page) : response :=
  Write (set_header (set_header w "Content-Type" "text/html; charset=utf-8")
           "Content-Security-Policy" interstitialCSP) p.

Definition handleLoginPage a w r : response :=
  html_page w (LoginPage (bool_decide (is_Some (providers a !! providerGitHub)))
                 (bool_decide (is_Some (providers a !! providerGoogle)))
                 (devLogin a) (safeNext (r_query r "next"))).

(** [state] is the random token of this call. *)
Definition handleStart a (o : oauth) w r (state : string) : response :=
  let name := providerFromPath (r_value r "provider") in
  match providers a !! name with
  | None => Error w (Text "unknown provider") 404
  | Some p =>
      let w := setStateCookie a w
                 (str_app name (str_app "|" (str_app state (str_app "|" (safeNext (r_query r "next")))))) in
      Redirect w (AuthCodeURL o p state) 303
  end.

(** The identity and the redirect target, or the response of the failure. *)
Definition resolveIdentity a (o : oauth) w r (name : string) (p : provider)
  : response + (identity * string) :=
  match readStateCookie a r with
  | None => inl (Error w (Text "invalid oauth state") 400)
  | Some (wantProvider, wantState, next) =>
      if negb (bool_decide (wantProvider = name)) || bool_decide (wantState = ""%string)
         || negb (bool_decide (r_query r "state" = wantState))
      then inl (Error w (Text "invalid oauth state") 400)
      else
        let code := r_query r "code" in
        if bool_decide (code = ""%string) then inl (Error w (Text "missing code") 400)
        else match Exchange o p code with
             | None => inl (Error w (Text "authentication failed") 502)
             | Some tok =>
                 match userinfo o name tok with
                 | None => inl (Error w (Text "authentication failed") 502)
                 | Some id => inr (id, next)
                 end
             end
  end.

Definition renderKeyInterstitial a db w (orgID next : string) : DB * response :=
  let next := safeNext next in
  match IssueKey db orgID "default" with
  | (db, None) => (db, Redirect w next 303)
  | (db, Some secret) => (db, html_page w (KeyPage (Token.Encode (baseURL a) secret) next))
  end.

(** The handler without its deferred call. *)
Definition callback_body a (o : oauth) (postAuth : option (interceptor DB)) db w r (now : Time)
    (name : string) (p : provider) : DB * response :=
  match resolveIdentity a o w r name p with
  | inl w => (db, w)
  | inr (id, next) =>
      let '(db, w, handled) := match postAuth with
                               | Some f => f db w id
                               | None => (db, w, false)
                               end in
      if handled then (db, w)
      else match UpsertMemberFromOIDC db (Subject id) (Email id) with
           | (db, None) => (db, Error w (Text "sign-in failed") 500)
           | (db, Some (orgID, memberID, role, isNew)) =>
               let w := setSessionCookie a w (newSession now orgID memberID role) in
               if isNew : bool then renderKeyInterstitial a db w orgID next
               else (db, Redirect w (safeNext next) 303)
           end
  end.

(** [defer a.clearCookie(w, stateCookie)] runs when the body has returned. *)
Definition handleCallback a (o : oauth) (postAuth : option (interceptor DB)) db w r (now : Time)
  : DB * response :=
  let name := providerFromPath (r_value r "provider") in
  match providers a !! name with
  | None => (db, Error w (Text "unknown provider") 404)
  | Some p => let '(db, w) := callback_body a o postAuth db w r now name p in
              (db, clearCookie a w stateCookie)
  end.

Definition handleDevLogin a db w r (now : Time) : DB * response :=
  match DevOrgAdmin db (devOrgName a) with
  | (db, None) => (db, Error w (Text "dev login failed") 500)
  | (db, Some (orgID, memberID)) =>
      let w := setSessionCookie a w (newSession now orgID memberID "admin") in
      (db, Redirect w (safeNext (r_form r "next")) 303)
  end.

Definition handleLogout a w : response := Redirect (clearCookie a w sessionCookie) "/login" 303.
End handlers.

(** ** Sessions round-trip, and where an accepted session comes from *)

Section signed_lemmas.
Context `{MacLib}.

Lemma open_signed_sign key payload : open_signed key (sign key payload) = Some payload.
Proof.
  unfold open_signed, sign. rewrite IndexByte_app by apply b64_no_dot. cbn [mbind option_bind].
  rewrite str_take_app, str_drop_S_app, !b64_roundtrip. cbn. by rewrite bool_decide_eq_true_2.
Qed.

Definition bar_free (s : string) : Prop := "|"%char ∉ bytes_of s.

Lemma Split_bars l : l ≠ [] → Forall bar_free l → Split (Join l "|") "|" = l.
Proof. apply (Split_Join "|"). Qed.

Lemma Itoa_bar_free z : bar_free (Itoa z).
Proof. intros [|Hd]%Itoa_bytes; [done|]. unfold is_digit in Hd. vm_compute in Hd. by destruct Hd. Qed.

Record session_ok (s : Session) : Prop := {
  ok_org : bar_free (OrgID s);
  ok_member : bar_free (MemberID s);
  ok_role : bar_free (Role s);
  ok_exp : 0 ≤ to_unix_sec (Exp s) < 2 ^ 40;
}.

(** The session as a cookie carries it: its expiry in whole seconds. *)
Definition carried (s : Session) : Session :=
  mkSession (OrgID s) (MemberID s) (Role s) (UnixSec (to_unix_sec (Exp s))).

Definition parse_session (payload : string) (now : Time) : option Session :=
  match Split payload "|" with
  | [org; member; role; e] =>
      expUnix ← ParseInt e;
      if time_after (Unix expUnix) now then Some (mkSession org member role (Unix expUnix)) else None
  | _ => None
  end.

Lemma decode_open key value now :
  decode key value now = open_signed key value ≫= λ payload, parse_session payload now.
Proof. done. Qed.

Lemma parse_fields org member role n now :
  bar_free org → bar_free member → bar_free role → 0 ≤ n < 2 ^ 40 →
  parse_session (Join [org; member; role; Itoa n] "|") now =
  if time_after (UnixSec n) now then Some (mkSession org member role (UnixSec n)) else None.
Proof.
  intros Ho Hm Hr Hn. unfold parse_session.
  rewrite Split_bars; [|done|by repeat constructor; auto using Itoa_bar_free].
  rewrite ParseInt_Itoa by (unfold is_i64; lia). cbn [mbind option_bind].
  by rewrite Unix_small by (unfold is_i64; lia).
Qed.

Lemma decode_encode key s now :
  session_ok s →
  decode key (encode key s) now =
  if time_after (UnixSec (to_unix_sec (Exp s))) now then Some (carried s) else None.
Proof.
  intros [Ho Hm Hr He]. rewrite decode_open. unfold encode. rewrite open_signed_sign.
  cbn [mbind option_bind]. by apply parse_fields.
Qed.
End signed_lemmas.

(** The session cookie round-trips: decoding what [encode] produced, before its
    expiry, gives the same organization, member, role and expiry to the second; at or
    after the expiry it is rejected. *)
Theorem session_roundtrip `{MacLib} key s now :
  session_ok s →
  (now < UnixSec (to_unix_sec (Exp s)) → decode key (encode key s) now = Some (carried s)) ∧
  (UnixSec (to_unix_sec (Exp s)) ≤ now → decode key (encode key s) now = None).
Proof.
  intros Hs. rewrite (decode_encode key s now Hs). unfold time_after. split; intros.
  - by rewrite (proj2 (Z.ltb_lt _ _)) by lia.
  - by rewrite (proj2 (Z.ltb_ge _ _)) by lia.
Qed.

(** A stand-in for the MAC in concrete examples. *)
Definition toy_mac : MacLib := {| hmac_sha256 k p := str_app k p |}.

Definition some_session : Session := mkSession "org" "member" "admin" (UnixSec 2000000000).

#[export] Instance bar_free_dec s : Decision (bar_free s).
Proof. unfold bar_free. apply _. Defined.

Lemma some_session_ok : session_ok some_session.
Proof. split; try (apply (bool_decide_unpack _); vm_compute; exact I). Qed.

Lemma session_roundtrip_witness :
  let _ := toy_mac in decode "key" (encode "key" some_session) 0 = Some some_session.
Proof.
  apply (@session_roundtrip toy_mac "key" some_session 0); [apply some_session_ok|vm_compute; done].
Defined.

(** The payloads the server signs under the session key. *)
Definition state_payload (name state next : string) : string :=
  str_app name (str_app "|" (str_app state (str_app "|" next))).
Definition form_payload (tenant nonce : string) : string := str_app tenant (str_app "|" nonce).

Inductive signed_payload :=
| SessionCookie (s : Session)
| StateCookie (name state next : string)
| FormToken (tenant nonce : string).

Definition payload_of (p : signed_payload) : string :=
  match p with
  | SessionCookie s => session_payload s
  | StateCookie name state next => state_payload name state next
  | FormToken tenant nonce => form_payload tenant nonce
  end.

Definition signed_ok (p : signed_payload) : Prop :=
  match p with
  | SessionCookie s => session_ok s
  | StateCookie name state _ => bar_free name ∧ bar_free state
  | FormToken tenant nonce => bar_free tenant ∧ bar_free nonce
  end.

Lemma state_payload_Join name state next : state_payload name state next = Join [name; state; next] "|".
Proof. done. Qed.
Lemma form_payload_Join tenant nonce : form_payload tenant nonce = Join [tenant; nonce] "|".
Proof. done. Qed.

Lemma Split_state name state next :
  bar_free name → bar_free state →
  Split (state_payload name state next) "|" = name :: state :: Split next "|".
Proof.
  intros Hn Hs. unfold Split, state_payload. rewrite !bytes_of_app.
  change (bytes_of "|") with ["|"%char]. cbn [app].
  rewrite split_bytes_app by done. rewrite split_bytes_app by done. cbn. by rewrite !of_bytes_of.
Qed.

(** [C36] Where a session can come from: if every cookie value the server verifies carries
    a payload it signed itself (its sessions, OAuth states and form tokens share one key),
    then an accepted session is one the server issued and that has not expired, or it
    comes from an OAuth state cookie whose redirect target holds a "|"; with targets free
    of "|" only the first can happen. *)
Theorem accepted_session_provenance `{MacLib} key value now s (signed : list signed_payload) :
  (∀ payload, open_signed key value = Some payload → ∃ p, p ∈ signed ∧ payload = payload_of p) →
  Forall signed_ok signed →
  decode key value now = Some s →
  (∃ s0, SessionCookie s0 ∈ signed ∧ s = carried s0 ∧ now < Exp s) ∨
  (∃ state next, StateCookie (OrgID s) state next ∈ signed ∧ MemberID s = state ∧ ¬ bar_free next).
Proof.
  intros Hunf Hok. rewrite decode_open. destruct (open_signed key value) as [payload|] eqn:Eo; [|done].
  cbn [mbind option_bind]. destruct (Hunf _ eq_refl) as (p & Hp & ->). rewrite Forall_forall in Hok.
  specialize (Hok p Hp). intros Hd. destruct p as [s0|name state next|tenant nonce]; cbn [payload_of] in Hd.
  - left. destruct Hok as [Ho Hm Hr He]. unfold session_payload in Hd. rewrite parse_fields in Hd by done.
    unfold time_after in Hd. destruct (Z.ltb_spec now (UnixSec (to_unix_sec (Exp s0)))); [|done].
    injection Hd as <-. by exists s0.
  - right. unfold parse_session in Hd. rewrite Split_state in Hd by naive_solver.
    destruct (Split next "|") as [|r [|e [|]]] eqn:En; try done.
    destruct (ParseInt e); [|done]. cbn in Hd. destruct (time_after _ _); [|done]. injection Hd as <-.
    exists state, next. split_and!; [done..|]. intros Hfree. unfold Split in En.
    by rewrite split_bytes_none in En.
  - unfold parse_session in Hd. rewrite form_payload_Join, Split_bars in Hd; [done|done|].
    repeat constructor; naive_solver.
Qed.

Lemma accepted_session_provenance_witness :
  let _ := toy_mac in
  (∃ s0, SessionCookie s0 ∈ [SessionCookie some_session] ∧ some_session = carried s0 ∧ 0 < Exp some_session) ∨
  (∃ state next, StateCookie (OrgID some_session) state next ∈ [SessionCookie some_session] ∧
     MemberID some_session = state ∧ ¬ bar_free next).
Proof.
  apply (@accepted_session_provenance toy_mac "key" (@encode toy_mac "key" some_session) 0).
  - intros payload Ho. exists (SessionCookie some_session). split; [constructor|].
    pose proof (@open_signed_sign toy_mac "key" (session_payload some_session)) as E.
    pose proof (eq_trans (eq_sym E) Ho) as E'. by injection E' as <-.
  - constructor; [apply some_session_ok|constructor].
  - vm_compute. reflexivity.
Defined.

(** ** The post-login redirect *)

Section redirects.
Context `{NetIP}.

(** What passes [safeNext] unchanged. *)
Lemma safeNext_cases next :
  safeNext next = "/"%string ∨
  (safeNext next = next ∧
   ∃ l, bytes_of next = "/"%char :: l ∧ head l ≠ Some "/"%char ∧ head l ≠ Some "\"%char ∧
        Forall (λ a, is_ctl a = false) (cut "#" (bytes_of next)).1).
Proof.
  unfold safeNext. destruct (_ || _) eqn:E; [by left|].
  destruct (Parse next) as [u|] eqn:Hu; [|by left].
  destruct (bool_decide (Scheme u = _ ∧ _)); [right|by left]. split; [done|].
  apply orb_false_iff in E as [[[He Hs]%orb_false_iff Hd]%orb_false_iff Hb].
  unfold HasPrefix in *. apply negb_false_iff in Hs.
  destruct (bytes_of next) as [|a l] eqn:Hn; [done|]. cbn in Hs. rewrite andb_true_r in Hs.
  apply bool_decide_eq_true in Hs as <-. exists l. split; [done|].
  cbn in Hd, Hb. destruct l as [|b l]; cbn in *.
  - split_and!; [done..|]. rewrite <-Hn. by eapply Parse_no_ctl.
  - rewrite andb_true_r in Hd, Hb. apply bool_decide_eq_false in Hd, Hb.
    split_and!; [congruence..|]. rewrite <-Hn. by eapply Parse_no_ctl.
Qed.

Lemma ctl_free_plain b :
  is_ctl b = false → b ≠ "/"%char → b ≠ "\"%char → plain_second b.
Proof.
  unfold is_ctl, plain_second, dropped_by_browser, slash_like. intros [Hc _]%orb_false_iff.
  apply Z.ltb_ge in Hc. intros. split; apply bool_decide_eq_false_2; [lia|naive_solver].
Qed.
End redirects.

(** The redirect sanitizer does what it is for on its own: whatever the ?next= value,
    what [safeNext] returns is read by a browser as a path of this origin. *)
Theorem safeNext_same_origin `{NetIP} next : same_origin_path (safeNext next) = true.
Proof.
  destruct (safeNext_cases next) as [->|(-> & l & Hl & Hs & Hb & Hc)]; [done|].
  rewrite <-(of_bytes_of next). rewrite Hl in *. destruct l as [|b l]; [done|].
  apply same_origin_cons. destruct (decide (b = "#"%char)) as [->|Hn]; [done|].
  assert (Hin : b ∈ (cut "#" ("/"%char :: b :: l)).1).
  { unfold cut. change (index_byte "#" ("/"%char :: b :: l)) with (S <$> index_byte "#" (b :: l)).
    destruct (index_byte "#" (b :: l)) as [[|i]|] eqn:E; cbn; [|set_solver..].
    apply index_byte_Some in E as (k & [= -> _] & _). done. }
  rewrite Forall_forall in Hc. apply ctl_free_plain; [by apply Hc|naive_solver..].
Qed.

Section redirects2.
Context `{NetIP}.

Lemma hexEscape_cons a l :
  byte_of a < 128 → hexEscapeNonASCII (a :: l) = a :: hexEscapeNonASCII l.
Proof. intros. unfold hexEscapeNonASCII. cbn. by rewrite (proj2 (Z.leb_gt _ _)). Qed.

(** The escaping keeps a second byte that a browser reads as part of the path. *)
Lemma escaped_same_origin b l :
  plain_second b → same_origin_path (of_bytes (hexEscapeNonASCII ("/"%char :: b :: l))) = true.
Proof.
  intros Hb. rewrite hexEscape_cons by done. unfold hexEscapeNonASCII. cbn [mbind list_bind].
  destruct (128 <=? byte_of b); by apply same_origin_cons.
Qed.

Lemma cleaned_same_origin path query :
  Forall (λ a, is_ctl a = false ∧ a ≠ "\"%char) path →
  (query = [] ∨ head query = Some "?"%char) →
  let cleaned := Clean path in
  same_origin_path (of_bytes (hexEscapeNonASCII
    ((if bool_decide (last path = Some "/"%char) && negb (bool_decide (last cleaned = Some "/"%char))
      then cleaned ++ ["/"%char] else cleaned) ++ query))) = true.
Proof.
  intros Hp Hq. cbn zeta. destruct (Clean_second _ path Hp) as [->|(b & l & -> & [Hc Hn] & Hs)].
  - replace (negb (bool_decide (last ["/"%char] = Some "/"%char))) with false by done.
    rewrite andb_false_r. cbn [app]. destruct Hq as [->|Hq]; [done|].
    destruct query as [|a query]; [done|]. injection Hq as ->. by apply escaped_same_origin.
  - assert (plain_second b) by by apply ctl_free_plain.
    destruct (_ && _); by apply escaped_same_origin.
Qed.

Lemma redirect_same_origin next :
  "\"%char ∉ bytes_of next → "#"%char ∉ bytes_of next →
  same_origin_path (redirect_location (safeNext next)) = true.
Proof.
  intros Hbs Hh. destruct (safeNext_cases next) as [->|(-> & l & Hl & Hs & Hb & Hc)]; [done|].
  rewrite cut_none in Hc by done. cbn [fst] in Hc.
  assert (Hall : Forall (λ a, is_ctl a = false ∧ a ≠ "\"%char) (bytes_of next)).
  { rewrite Forall_forall in Hc. apply Forall_forall. intros a Ha. split; [by apply Hc|]. by intros ->. }
  assert (Hplain : same_origin_path (of_bytes (hexEscapeNonASCII (bytes_of next))) = true).
  { rewrite Hl in *. destruct l as [|b l]; [done|]. apply escaped_same_origin.
    inversion_clear Hall as [|?? _ Hall']. inversion_clear Hall' as [|?? [Hcb Hnb] _].
    apply ctl_free_plain; [done|naive_solver..]. }
  unfold redirect_location. destruct (Parse next) as [u|]; [|done]. case_bool_decide; [|done].
  destruct (index_byte "?" (bytes_of next)) as [i|] eqn:Ei.
  - apply index_byte_Some in Ei as (k & Hk & _). apply cleaned_same_origin.
    + by apply Forall_take.
    + right. by rewrite Hk.
  - apply cleaned_same_origin; [done|by left].
Qed.
End redirects2.

(** The redirect itself stays on this origin only if the value holds neither a
    backslash nor a fragment: [http.Redirect] cleans the path after [safeNext] has checked
    it. For a target without those the Location is a path of this origin; but a path that
    cleaning turns into a leading "/\", or a fragment whose control bytes the browser
    drops, leaves it: the open redirect [safeNext] is there to close. *)
Theorem login_redirect_origin `{NetIP} :
  (∀ next, "\"%char ∉ bytes_of next → "#"%char ∉ bytes_of next →
     same_origin_path (redirect_location (safeNext next)) = true) ∧
  (∃ next, redirect_location (safeNext next) = "/\evil.example"%string ∧
     same_origin_path (redirect_location (safeNext next)) = false) ∧
  (∃ next, ¬ ("\"%char ∈ bytes_of next) ∧
     same_origin_path (redirect_location (safeNext next)) = false).
Proof.
  split_and!.
  - apply redirect_same_origin.
  - exists "/./\evil.example"%string. split; reflexivity.
  - exists (str_app "/#/../" (String.String (ascii_of 9) "/evil.example")).
    split; [|reflexivity]. apply (bool_decide_unpack _). reflexivity.
Qed.

(** ** The OAuth state cookie *)

(** A redirect target with an expiry in it. *)
Definition forged_next (n : Z) : string := str_app "/x|" (Itoa n).

Lemma forged_next_kept `{NetIP} n : safeNext (forged_next n) = forged_next n.
Proof.
  assert (Hb : bytes_of (forged_next n) = "/"%char :: "x"%char :: "|"%char :: bytes_of (Itoa n)).
  { unfold forged_next. by rewrite bytes_of_app. }
  assert (Hp : Parse (forged_next n) = Some (mkURL "" "" false)).
  { rewrite <-(of_bytes_of (forged_next n)), Hb. apply Parse_rooted; [done|].
    repeat (constructor; [done|]). apply Forall_forall. intros a Ha.
    destruct (Itoa_bytes _ _ Ha) as [->|Hd]; [done|]. unfold is_digit in Hd. unfold is_ctl.
    split_and!; [|intros ->; vm_compute in Hd; by destruct Hd..].
    apply orb_false_iff. split; [apply Z.ltb_ge|apply Z.eqb_neq]; lia. }
  unfold safeNext, HasPrefix. rewrite Hp, Hb, bool_decide_eq_false_2; [done|].
  intros He. by rewrite He in Hb.
Qed.

(** The OAuth state cookie is accepted as a session: whoever starts a login with
    ?next=/x|<n> is handed a signed cookie whose value, presented as the session cookie,
    passes the session gate until the Unix time n, as a session of the organization named
    after the provider. Nobody has logged in. *)
Theorem state_cookie_forges_session `{MacLib} `{NetIP} a o r state n now p :
  let name := providerFromPath (r_value r "provider") in
  providers a !! name = Some p → bar_free name → bar_free state →
  r_query r "next" = forged_next n → 0 ≤ n < 2 ^ 40 → now < UnixSec n →
  ∃ c, cookies_of (finished (handleStart a o fresh_response r state)).2 = [c] ∧
       Name c = stateCookie ∧
       ∀ r', request_cookie r' sessionCookie = Some (Value c) →
         sessionFromRequest a r' now = Some (mkSession name state "/x" (UnixSec n)).
Proof.
  intros name Hp Hn Hs Hnext Hr Hnow. unfold handleStart. fold name. rewrite Hp, Hnext, forged_next_kept.
  rewrite Redirect_cookies by done. eexists. split; [done|]. split; [done|].
  intros r' Hr'. unfold sessionFromRequest. rewrite Hr'. cbn [mbind option_bind Value cookie].
  rewrite decode_open, open_signed_sign. cbn [mbind option_bind].
  change (parse_session (Join [name; state; "/x"%string; Itoa n] "|") now =
          Some (mkSession name state "/x" (UnixSec n))).
  rewrite parse_fields; [|done|done|by apply (bool_decide_unpack _)|done].
  unfold time_after. by rewrite (proj2 (Z.ltb_lt _ _)).
Qed.

Definition github_only : gmap string provider :=
  buildProviders (mkProviderConfig "id" "secret" "" "" "https://maping.example").
Definition some_auth : Auth := mkAuth "key" github_only false "dev-org" "https://maping.example" true.
Definition some_oauth : oauth :=
  mkOAuth (λ _ s, str_app "https://github.com/login/oauth/authorize?state=" s)
    (λ _ c, Some c) (λ _ _, Some (mkIdentity "github:1" "a@b.c")).
Definition start_request : Request :=
  mkRequest "/auth/github/start" [] (λ k, if decide (k = "next"%string) then forged_next 9999999999 else ""%string)
    (λ _, ""%string) (λ _, "github"%string).

Lemma state_cookie_forges_session_witness :
  let _ := toy_mac in let _ := no_ipv6 in
  ∃ c, cookies_of (finished (handleStart some_auth some_oauth fresh_response start_request "rnd")).2 = [c] ∧
       Name c = stateCookie ∧
       ∀ r', request_cookie r' sessionCookie = Some (Value c) →
         sessionFromRequest some_auth r' 0 = Some (mkSession "github" "rnd" "/x" (UnixSec 9999999999)).
Proof.
  destruct (buildProvider providerGitHub "id" "secret" "https://maping.example") as [p|] eqn:Ep; [|done].
  apply (@state_cookie_forges_session toy_mac no_ipv6 some_auth some_oauth start_request "rnd" 9999999999 0 p).
  - rewrite <-Ep. reflexivity.
  - by apply (bool_decide_unpack _).
  - by apply (bool_decide_unpack _).
  - reflexivity.
  - split; [lia|reflexivity].
  - reflexivity.
Defined.

(** ** The callback *)

Section callback.
Context `{MacLib} `{NetIP} {DB : Type} `{MemberStore DB}.
Implicit Types (a : Auth) (r : Request) (db : DB).

(** Every failure of [resolveIdentity] has written its response; a success has verified
    the state, exchanged the code and fetched the identity. *)
Definition identity_resolved a (o : oauth) r (name : string) (p : provider)
    (id : identity) (next : string) : Prop :=
  ∃ state tok, readStateCookie a r = Some (name, state, next) ∧ state ≠ ""%string ∧
    r_query r "state" = state ∧ r_query r "code" ≠ ""%string ∧
    Exchange o p (r_query r "code") = Some tok ∧ userinfo o name tok = Some id.

Lemma resolveIdentity_cases a o r name p :
  match resolveIdentity a o fresh_response r name p with
  | inl w => is_Some (sent w) ∧ cookies_of (finished w).2 = []
  | inr (id, next) => identity_resolved a o r name p id next
  end.
Proof.
  assert (He : ∀ msg code, is_Some (sent (Error fresh_response msg code)) ∧
                           cookies_of (finished (Error (@fresh_response page) msg code)).2 = []).
  { intros. split; [apply Error_sent|by rewrite Error_cookies]. }
  unfold resolveIdentity. destruct (readStateCookie a r) as [[[wp ws] next]|] eqn:Es; [|apply He].
  destruct (_ || _) eqn:Ec; [apply He|].
  apply orb_false_iff in Ec as [[Hw%negb_false_iff%bool_decide_eq_true Hs%bool_decide_eq_false]%orb_false_iff
                                Hq%negb_false_iff%bool_decide_eq_true].
  case_bool_decide as Hcode; [apply He|]. destruct (Exchange o p _) as [tok|] eqn:Ex; [|apply He].
  destruct (userinfo o name tok) as [id|] eqn:Ei; [|apply He]. subst. by exists (r_query r "state"), tok.
Qed.

Lemma html_page_sent w p : is_Some (sent (html_page w p)).
Proof. apply Write_sent. Qed.

Lemma html_page_cookies w p :
  sent w = None → cookies_of (finished (html_page w p)).2 = cookies_of (pending w).
Proof.
  intros Hw. unfold html_page, Write, WriteHeader, finished. cbn [sent set_header]. rewrite Hw.
  cbn [sent snd]. exact (eq_trans (cookies_set_header _ _ _) (cookies_set_header _ _ _)).
Qed.

Lemma renderKeyInterstitial_finished a db w orgID next :
  sent w = None →
  is_Some (sent (renderKeyInterstitial a db w orgID next).2) ∧
  cookies_of (finished (renderKeyInterstitial a db w orgID next).2).2 = cookies_of (pending w).
Proof.
  intros Hw. unfold renderKeyInterstitial. destruct (IssueKey db orgID "default") as [db' [s|]]; cbn [snd].
  - split; [apply html_page_sent|by apply html_page_cookies].
  - split; [apply Redirect_sent|by apply Redirect_cookies].
Qed.

(** The cookies the client receives: the session cookie of the upserted member, or none. *)
Lemma callback_body_cookies a o db r now name p :
  is_Some (sent (callback_body a o None db fresh_response r now name p).2) ∧
  (cookies_of (finished (callback_body a o None db fresh_response r now name p).2).2 = [] ∨
   ∃ id next db1 org member role isNew,
     identity_resolved a o r name p id next ∧
     UpsertMemberFromOIDC db (Subject id) (Email id) = (db1, Some (org, member, role, isNew)) ∧
     cookies_of (finished (callback_body a o None db fresh_response r now name p).2).2 =
       [cookie a sessionCookie (encode (signer a) (newSession now org member role)) (sessionMaxAge / Second)]).
Proof.
  pose proof (resolveIdentity_cases a o r name p) as Hr. unfold callback_body.
  destruct (resolveIdentity a o _ r name p) as [w|[id next]].
  { cbn [snd]. destruct Hr. split; [done|by left]. }
  destruct (UpsertMemberFromOIDC db _ _) as [db1 [[[[org member] role] isNew]|]] eqn:Eu; cbn [snd].
  - set (w := setSessionCookie a fresh_response (newSession now org member role)).
    assert (Hw : sent w = None) by done. destruct isNew; cbn [snd].
    + destruct (renderKeyInterstitial_finished a db1 w org next Hw) as [Hs Hc]. split; [done|right].
      exists id, next, db1, org, member, role, true. split_and!; [done..|]. by rewrite Hc.
    + split; [apply Redirect_sent|right]. exists id, next, db1, org, member, role, false.
      split_and!; [done..|]. by rewrite Redirect_cookies.
  - split; [apply Error_sent|left]. by rewrite Error_cookies.
Qed.

Lemma resolveIdentity_error a o r name p w :
  resolveIdentity a o fresh_response r name p = inl w → ∃ msg code, w = Error fresh_response (Text msg) code.
Proof.
  unfold resolveIdentity. intros Hr. repeat case_match; simplify_eq; by do 2 eexists.
Qed.

Lemma Redirect_body (w : response) url code : body (Redirect w url code) = body w.
Proof. unfold Redirect, WriteHeader. cbn. by destruct (sent w). Qed.

(** The key page is shown for a new member and a freshly issued key only. *)
Lemma callback_body_page a o db r now name p db' w tok next :
  callback_body a o None db fresh_response r now name p = (db', w) → body w = [KeyPage tok next] →
  ∃ id db1 org member role secret,
    UpsertMemberFromOIDC db (Subject id) (Email id) = (db1, Some (org, member, role, true)) ∧
    IssueKey db1 org "default" = (db', Some secret) ∧ tok = Token.Encode (baseURL a) secret ∧
    is_Some (sent w) ∧
    cookies_of (finished w).2 =
      [cookie a sessionCookie (encode (signer a) (newSession now org member role)) (sessionMaxAge / Second)].
Proof.
  unfold callback_body. destruct (resolveIdentity a o _ r name p) as [w0|[id nx]] eqn:Er.
  { destruct (resolveIdentity_error _ _ _ _ _ _ Er) as (msg & code & ->). by intros [= <- <-]. }
  destruct (UpsertMemberFromOIDC db _ _) as [db1 [[[[org member] role] []]|]] eqn:Eu.
  - intros Hr Hb. set (w0 := setSessionCookie a fresh_response (newSession now org member role)) in *.
    destruct (renderKeyInterstitial_finished a db1 w0 org nx eq_refl) as [Hs Hc].
    rewrite Hr in Hs, Hc. cbn [snd] in *. unfold renderKeyInterstitial in Hr.
    destruct (IssueKey db1 org "default") as [db2 [secret|]] eqn:Ei; injection Hr as <- <-.
    + exists id, db1, org, member, role, secret. split_and!; try done. by injection Hb.
    + by rewrite Redirect_body in Hb.
  - intros [= <- <-]. by rewrite Redirect_body.
  - by intros [= <- <-].
Qed.

Lemma handleCallback_cookies a o db r now :
  let name := providerFromPath (r_value r "provider") in
  let w := (handleCallback a o None db fresh_response r now).2 in
  cookies_of (finished w).2 = [] ∨
  ∃ p id next db1 org member role isNew,
    providers a !! name = Some p ∧ identity_resolved a o r name p id next ∧
    UpsertMemberFromOIDC db (Subject id) (Email id) = (db1, Some (org, member, role, isNew)) ∧
    cookies_of (finished w).2 =
      [cookie a sessionCookie (encode (signer a) (newSession now org member role)) (sessionMaxAge / Second)].
Proof.
  intros name. unfold handleCallback. fold name. destruct (providers a !! name) as [p|]; cbn [snd].
  - destruct (callback_body_cookies a o db r now name p) as [Hs Hc].
    destruct (callback_body a o None db fresh_response r now name p) as [db' w']. cbn [snd] in *.
    unfold clearCookie. rewrite SetCookie_after_sent by done.
    destruct Hc as [->|(id & next & db1 & org & member & role & isNew & ? & ? & ?)]; [by left|right].
    by exists p, id, next, db1, org, member, role, isNew.
  - left. by rewrite Error_cookies.
Qed.
End callback.

(** A login needs its own state: without a composed hook, the callback hands out a
    cookie only when the provider is configured, the signed state cookie names that
    provider and carries a non-empty state equal to the one in the query, a code was
    present and exchanged, and the identity was fetched; the one cookie it then sets is the
    session of the organization and member the store resolved for that identity, and it is
    accepted by the session gate for seven days. *)
Theorem callback_session_requires_state `{MacLib} `{NetIP} {DB} `{MemberStore DB} a o (db : DB) r now :
  let name := providerFromPath (r_value r "provider") in
  let w := (handleCallback a o None db fresh_response r now).2 in
  cookies_of (finished w).2 = [] ∨
  ∃ p id next db1 org member role isNew c,
    providers a !! name = Some p ∧ identity_resolved a o r name p id next ∧
    UpsertMemberFromOIDC db (Subject id) (Email id) = (db1, Some (org, member, role, isNew)) ∧
    cookies_of (finished w).2 = [c] ∧ Name c = sessionCookie ∧
    (bar_free org → bar_free member → bar_free role → 0 ≤ now < UnixSec (2 ^ 39) →
     ∀ r' t, request_cookie r' sessionCookie = Some (Value c) →
       now ≤ t < now + 7 * 24 * Hour - Second →
       sessionFromRequest a r' t =
         Some (mkSession org member role (UnixSec (to_unix_sec (now + 7 * 24 * Hour))))).
Proof.
  intros name w.
  destruct (handleCallback_cookies a o db r now)
    as [Hc|(p & id & next & db1 & org & member & role & isNew & ? & ? & ? & Hc)]; [by left|right].
  do 9 eexists. split_and!; [done..|exact Hc|done|]. intros Ho Hm Hr Hn r' t Hr' Ht.
  unfold sessionFromRequest. rewrite Hr'. cbn [mbind option_bind Value cookie].
  unfold newSession, time_add, sessionMaxAge.
  rewrite decode_encode; [|split; [done..|]]; cbn [Exp OrgID MemberID Role] in *.
  - unfold time_after, carried. cbn [Exp OrgID MemberID Role]. rewrite (proj2 (Z.ltb_lt _ _)); [done|].
    unfold UnixSec, to_unix_sec, Hour, Minute, Second, Millisecond in *.
    pose proof (Z.mul_div_le (now + 7 * 24 * (60 * (60 * (1000 * 1000000)))) (1000 * 1000000)). 
    pose proof (Z.mod_pos_bound (now + 7 * 24 * (60 * (60 * (1000 * 1000000)))) (1000 * 1000000)).
    pose proof (Z.div_mod (now + 7 * 24 * (60 * (60 * (1000 * 1000000)))) (1000 * 1000000)). lia.
  - unfold UnixSec, to_unix_sec, Hour, Minute, Second, Millisecond in *.
    split; [apply Z.div_pos; lia|]. apply Z.div_lt_upper_bound; lia.
Qed.

(** The state cookie is never cleared: [handleCallback] defers [clearCookie] to after
    its body, and every branch of the body has written its headers by then, so no response
    of the callback carries the expired state cookie its comment promises. *)
Theorem state_cookie_never_cleared `{MacLib} `{NetIP} {DB} `{MemberStore DB} a o (db : DB) r now :
  stateCookie ∉ (Name <$> cookies_of (finished (handleCallback a o None db fresh_response r now).2).2).
Proof.
  destruct (handleCallback_cookies a o db r now) as [E|(p & id & next & db1 & org & member & role & isNew & _ & _ & _ & E)];
    rewrite E; apply (bool_decide_unpack _); reflexivity.
Qed.

(** ** Provider identities (userinfo.go) *)

Definition maxUserinfoBytes : Z := Z.shiftl 1 20.

(** One provider answer: its status and the body, or a transport failure; [decoded] is
    what the JSON decoder makes of a body. *)
Definition getJSON {A} (resp : option (Z * string)) (decoded : string → option A) : option A :=
  '(code, text) ← resp;
  if negb (code =? 200) then None
  else if maxUserinfoBytes + 1 <=? Z.of_nat (String.length text) then None
  else decoded text.

Record ghEmail := mkGhEmail { gh_email : string; gh_primary : bool; gh_verified : bool }.

(** The first primary and verified address; "" when there is none. *)
Definition primary_verified (emails : list ghEmail) : string :=
  match filter (λ e, gh_primary e && gh_verified e = true) emails with
  | e :: _ => gh_email e
  | [] => ""%string
  end.

Definition githubIdentity (user : option Z) (emails : option (list ghEmail)) : option identity :=
  id ← user;
  if id =? 0 then None
  else
    es ← emails;
    let email := primary_verified es in
    if bool_decide (email = ""%string) then None
    else Some (mkIdentity (str_app "github:" (Itoa id)) email).

Record googleInfo := mkGoogleInfo { g_sub : string; g_email : string; g_verified : bool }.

Definition googleIdentity (info : option googleInfo) : option identity :=
  i ← info;
  if bool_decide (g_sub i = ""%string) then None
  else if negb (g_verified i) || bool_decide (g_email i = ""%string) then None
  else Some (mkIdentity (str_app "google:" (g_sub i)) (g_email i)).

(** [httpUserinfo]: an unknown provider is an error. *)
Definition httpUserinfo (name : string) (user : option Z) (emails : option (list ghEmail))
    (info : option googleInfo) : option identity :=
  if bool_decide (name = providerGitHub) then githubIdentity user emails
  else if bool_decide (name = providerGoogle) then googleIdentity info
  else None.

(** The subject reserved for dev-login. *)
Definition devDBSubject : string := "dev:admin".

(** An identity is verified and unambiguous: whatever the provider answers, an
    accepted identity carries a non-empty address the provider marked verified (and
    primary, at GitHub); the two providers' subjects never coincide, equal subjects of one
    provider come from equal account ids, and none is the dev-login subject. *)
Theorem identity_verified name user emails info id :
  httpUserinfo name user emails info = Some id →
  Email id ≠ ""%string ∧ Subject id ≠ devDBSubject ∧
  ((name = providerGitHub ∧ ∃ n es, user = Some n ∧ n ≠ 0 ∧ emails = Some es ∧
      Subject id = str_app "github:" (Itoa n) ∧ mkGhEmail (Email id) true true ∈ es) ∨
   (name = providerGoogle ∧ ∃ i, info = Some i ∧ g_sub i ≠ ""%string ∧ g_verified i = true ∧
      Subject id = str_app "google:" (g_sub i) ∧ Email id = g_email i)) ∧
  ∀ name' user' emails' info' id',
    httpUserinfo name' user' emails' info' = Some id' → Subject id = Subject id' →
    name = name' ∧ (name = providerGitHub → is_i64 (default 0 user) → is_i64 (default 0 user') → user = user') ∧
    (name = providerGoogle → g_sub <$> info = g_sub <$> info').
Proof.
  assert (Hinv : ∀ name user emails info id, httpUserinfo name user emails info = Some id →
    Email id ≠ ""%string ∧
    ((name = providerGitHub ∧ ∃ n es, user = Some n ∧ n ≠ 0 ∧ emails = Some es ∧
      Subject id = str_app "github:" (Itoa n) ∧ mkGhEmail (Email id) true true ∈ es) ∨
     (name = providerGoogle ∧ ∃ i, info = Some i ∧ g_sub i ≠ ""%string ∧ g_verified i = true ∧
      Subject id = str_app "google:" (g_sub i) ∧ Email id = g_email i))).
  { clear. intros name user emails info id. unfold httpUserinfo. case_bool_decide; [|case_bool_decide; [|done]].
    - unfold githubIdentity. destruct user as [n|]; [|done]. cbn [mbind option_bind].
      destruct (Z.eqb_spec n 0); [done|]. destruct emails as [es|]; [|done]. cbn [mbind option_bind].
      case_bool_decide as He; [done|]. intros [= <-]. split; [done|]. left. split; [done|].
      exists n, es. split_and!; [done..|]. cbn [Email]. unfold primary_verified in *.
      destruct (filter _ es) as [|e l] eqn:Ef; [done|].
      assert (Hin : e ∈ filter (λ e, gh_primary e && gh_verified e = true) es) by (rewrite Ef; constructor).
      apply list_elem_of_filter in Hin as [[H1 H2]%andb_true_iff Hin]. destruct e; cbn in *. by subst.
    - unfold googleIdentity. destruct info as [i|]; [|done]. cbn [mbind option_bind].
      case_bool_decide; [done|]. destruct (_ || _) eqn:Ev; [done|]. intros [= <-].
      apply orb_false_iff in Ev as [Hv%negb_false_iff He%bool_decide_eq_false].
      split; [done|]. right. split; [done|]. by exists i. }
  intros Hid. destruct (Hinv _ _ _ _ _ Hid) as [He Hk]. split; [done|]. split.
  { destruct Hk as [(_ & n & es & _ & _ & _ & -> & _)|(_ & i & _ & _ & _ & -> & _)]; done. }
  split; [done|]. intros name' user' emails' info' id' Hid' Heq.
  destruct (Hinv _ _ _ _ _ Hid') as [_ Hk']. clear Hinv Hid Hid' He.
  destruct Hk as [(-> & n & es & -> & _ & _ & Hs & _)|(-> & i & -> & _ & _ & Hs & _)],
    Hk' as [(-> & n' & es' & -> & _ & _ & Hs' & _)|(-> & i' & -> & _ & _ & Hs' & _)];
    rewrite Hs, Hs' in Heq; try done.
  - split_and!; [done| |done]. intros _ Hn Hn'. cbn in *. injection Heq as Heq.
    assert (E : ParseInt (Itoa n) = ParseInt (Itoa n')) by (f_equal; exact Heq).
    by rewrite !ParseInt_Itoa in E by done.
  - split_and!; [done..|]. intros _. injection Heq as Heq. exact (f_equal Some Heq).
Qed.

Lemma identity_verified_witness :
  Email (mkIdentity "github:7" "a@b.c") ≠ ""%string.
Proof.
  apply (identity_verified "github" (Some 7)
           (Some [mkGhEmail "x@b.c" true false; mkGhEmail "a@b.c" true true]) None). reflexivity.
Defined.
