(* ===== verification/Lifecycle.v ===== *)
(** * Serving and shutting down (server/app/app.go: [Run], [Serve])

    The process around the batcher: requests that call [Enqueue], the readiness probe, the
    background jobs that hold connections of the control-plane pool, and the goroutine of
    [Serve] as it goes from listening to returned. The batcher is the step relation of the
    file Writer; this file restricts it to the callers the server has and proves what a
    shutdown loses, and that it closes the pool before it tells the background jobs. The
    server is one with a control plane; without, there is no pool and nothing to wait for. *)

From Stdlib Require Import ZArith Lia.
From stdpp Require Import base option list relations.
From S2P Require Import Prelude GoTime Wire Storage Writer.

Local Open Scope Z_scope.

(** ** The process *)

Definition shutdownTimeout : Duration := 15 * Second.

(** Where [Serve] is. [HttpDown] and [WriterDown] carry whether the call before them
    returned an error, which is logged and passed over. *)
Inductive stage :=
  | Serving
  | Signalled                             (* not ready any more *)
  | Stopping                              (* in srv.Shutdown *)
  | HttpDown (failed : bool)
  | Closing (http_failed : bool)          (* in writer.Close *)
  | WriterDown (http_failed failed : bool)
  | StoreDown (http_failed failed : bool)
  | Returned (http_failed failed : bool)
  | Crashed.                              (* returned the listener's error *)

Record server := mkServer {
  writer : Writer;
  at_ : stage;
  ready : bool;          (* the readiness flag *)
  listening : bool;
  active : nat;          (* requests being served *)
  expired : bool;        (* the deadline of the shutdown context has passed *)
  pool : bool;           (* the control-plane pool is open *)
  held : nat;            (* pool connections the background jobs hold *)
  jobs : bool;           (* the jobs' context is not cancelled *)
}.

(** What [build] hands to [Serve]. *)
Definition serving : server := mkServer new_writer Serving true true 0 false true 0 true.

(** The calls into the batcher that have not returned. *)
Definition callers (w : Writer) : nat := (length (waiting w) + length (iwWaiting w))%nat.

(** [close(w.closed)]. *)
Definition close_writer (w : Writer) : Writer :=
  mkWriter (rows w) (iwRows w) true (ph w) (waiting w) (iwWaiting w) (Writer.accepted w) (late w).

Definition set_at (s : server) (st : stage) : server :=
  mkServer (writer s) st (ready s) (listening s) (active s) (expired s) (pool s) (held s) (jobs s).

(** The shutdown context exists. *)
Definition deadline_runs (st : stage) : bool :=
  match st with Serving | Signalled | Crashed | Returned _ _ => false | _ => true end.

Section lifecycle.
Context (flushRows : nat).

(** Whether the jobs keep a connection until their context is cancelled, or give it back
    in time. *)
Context (clinging : bool).

Inductive step : server → server → Prop :=
  (* a request arrives: on the listener, or on a connection that is busy *)
  | Arrive s :
      listening s || (0 <? active s)%nat = true →
      step s (mkServer (writer s) (at_ s) (ready s) (listening s) (S (active s)) (expired s) (pool s) (held s) (jobs s))
  (* one that is not inside the batcher is answered *)
  | Answer s n :
      active s = S n → (callers (writer s) ≤ n)%nat →
      step s (mkServer (writer s) (at_ s) (ready s) (listening s) n (expired s) (pool s) (held s) (jobs s))
  (* the batcher moves, called by requests only; closing it is Serve's *)
  | Batcher s w :
      Writer.step flushRows (writer s) w → closed w = closed (writer s) → (callers w ≤ active s)%nat →
      step s (mkServer w (at_ s) (ready s) (listening s) (active s) (expired s) (pool s) (held s) (jobs s))
  (* background jobs *)
  | Acquire s :
      pool s = true → jobs s = true →
      step s (mkServer (writer s) (at_ s) (ready s) (listening s) (active s) (expired s) (pool s) (S (held s)) (jobs s))
  | Release s n :
      held s = S n → clinging && jobs s = false →
      step s (mkServer (writer s) (at_ s) (ready s) (listening s) (active s) (expired s) (pool s) n (jobs s))
  (* the deadline of the shutdown context *)
  | Expire s :
      deadline_runs (at_ s) = true →
      step s (mkServer (writer s) (at_ s) (ready s) (listening s) (active s) true (pool s) (held s) (jobs s))
  (* Serve: the listener fails; the deferred cancelBg runs *)
  | ListenerFails s :
      at_ s = Serving →
      step s (mkServer (writer s) Crashed (ready s) false (active s) (expired s) (pool s) (held s) false)
  (* a signal, and ready.Store(false) *)
  | Signal s :
      at_ s = Serving →
      step s (mkServer (writer s) Signalled false (listening s) (active s) (expired s) (pool s) (held s) (jobs s))
  (* srv.Shutdown: stops listening, then waits until nothing is active or the deadline *)
  | Shutdown s :
      at_ s = Signalled →
      step s (mkServer (writer s) Stopping (ready s) false (active s) (expired s) (pool s) (held s) (jobs s))
  | ShutdownOk s : at_ s = Stopping → active s = O → step s (set_at s (HttpDown false))
  | ShutdownLate s : at_ s = Stopping → expired s = true → step s (set_at s (HttpDown true))
  (* writer.Close: signals, then waits for the run goroutine or the deadline *)
  | CloseWriter s h :
      at_ s = HttpDown h →
      step s (mkServer (close_writer (writer s)) (Closing h) (ready s) (listening s) (active s) (expired s) (pool s)
                (held s) (jobs s))
  | CloseOk s h : at_ s = Closing h → ph (writer s) = Stopped → step s (set_at s (WriterDown h false))
  | CloseLate s h : at_ s = Closing h → expired s = true → step s (set_at s (WriterDown h true))
  (* closeStore: the pool waits for its connections *)
  | CloseStore s h e :
      at_ s = WriterDown h e → held s = O →
      step s (mkServer (writer s) (StoreDown h e) (ready s) (listening s) (active s) (expired s) false (held s) (jobs s))
  (* return, with the deferred cancelBg *)
  | Return s h e :
      at_ s = StoreDown h e →
      step s (mkServer (writer s) (Returned h e) (ready s) (listening s) (active s) (expired s) (pool s) (held s) false).

Definition initial (s : server) : Prop := s = serving.

(** *** The server is a batcher with fewer callers *)

Lemma step_writer s s' : step s s' → writer s' = writer s ∨ Writer.step flushRows (writer s) (writer s').
Proof. destruct 1; cbn; auto. right. apply Close. Qed.

Lemma reachable_writer s : reachable initial step s → reachable Writer.initial (Writer.step flushRows) (writer s).
Proof.
  induction 1 as [? ->|s s' _ IH Hs]; [by constructor|].
  destruct (step_writer s s' Hs) as [->|Hw]; [done|by eapply reach_step].
Qed.

(** *** Where the process is at each stage *)

(** The HTTP server has been shut down with nothing left running. *)
Definition quiet (st : stage) : bool :=
  match st with
  | HttpDown h | Closing h | WriterDown h _ | StoreDown h _ | Returned h _ => negb h
  | _ => false
  end.
Definition closing (st : stage) : bool :=
  match st with Closing _ | WriterDown _ _ | StoreDown _ _ | Returned _ _ => true | _ => false end.
Definition drained (st : stage) : bool :=
  match st with WriterDown _ e | StoreDown _ e | Returned _ e => negb e | _ => false end.
Definition pool_down (st : stage) : bool :=
  match st with StoreDown _ _ | Returned _ _ => true | _ => false end.
Definition over (st : stage) : bool := match st with Returned _ _ | Crashed => true | _ => false end.
Definition not_ready (st : stage) : bool := match st with Serving | Crashed => false | _ => true end.
Definition shut (st : stage) : bool := match st with Serving | Signalled => false | _ => true end.

(** The goroutine leaves no instance window behind. *)
Definition gauges_out (w : Writer) : Prop :=
  deaf (ph w) = true → chan (iwRows w) = [] ∧ (ph w = Stopped → batch (iwRows w) = []).

Record stage_inv (s : server) : Prop := {
  l_callers : (callers (writer s) ≤ active s)%nat;
  l_ready : ready s = negb (not_ready (at_ s));
  l_listening : listening s = negb (shut (at_ s));
  l_closed : closed (writer s) = closing (at_ s);
  l_quiet : quiet (at_ s) = true → active s = O;
  l_stopped : drained (at_ s) = true → ph (writer s) = Stopped;
  l_late : quiet (at_ s) || negb (closing (at_ s)) = true → late (writer s) = [];
  l_open : closing (at_ s) = false → ph (writer s) = Running;
  l_gauges : quiet (at_ s) = true → gauges_out (writer s);
  l_pool : pool s = negb (pool_down (at_ s));
  l_jobs : jobs s = negb (over (at_ s));
}.

Lemma stage_inv_serving : stage_inv serving.
Proof. split; cbn; done || lia. Qed.

(** What one step of the batcher does to the phase and to the late rows. *)
Lemma batcher_phase w w' :
  Writer.step flushRows w w' → closed w' = closed w →
  (closed w = false → ph w = Running → ph w' = Running) ∧ (ph w = Stopped → ph w' = Stopped) ∧
  (callers w = O → callers w' ≤ 0 → late w' = late w)%nat ∧ (ph w = Running → late w' = late w) ∧
  (callers w = O → gauges_out w → gauges_out w').
Proof.
  unfold callers, gauges_out.
  destruct 1; cbn; intros Hcl; split_and!; try done; try congruence;
    try (intros Hw; match goal with H : waiting _ = _ ++ _ |- _ => rewrite H in Hw
                               | H : iwWaiting _ = _ ++ _ |- _ => rewrite H in Hw end;
         rewrite length_app in Hw; cbn in Hw; lia); auto.
  - intros Hp. by rewrite Hp.
  - intros _ _ Hd. by rewrite H in Hd.
  - intros _ Hg _. split; [|done]. apply Hg. by rewrite H.
  - intros _ Hg _. destruct (finalFlush_contents (iwRows w) ins) as (_ & -> & ->). split; [|done]. apply Hg. by rewrite H.
Qed.

Lemma stage_inv_step s s' : stage_inv s → step s s' → stage_inv s'.
Proof.
  intros [] Hs. destruct Hs as [s Hl|s n Ha Hc|s w Hw Hcl Hc|s Hp Hj|s n Hn Hj|s Hd|s Hat|s Hat|s Hat|s Hat Ha|s Hat He
    |s h Hat|s h Hat Hp|s h Hat He|s h e Hat Hn|s h e Hat]; try (rewrite Hat in *).
  (* the steps of Serve only change what the stage says *)
  all: try by (split; cbn in *; rewrite ?Hat in *; cbn in *; auto;
    try (by intros _; apply l_late0, orb_true_r); intros _ Hst; rewrite l_open0 in Hst).
  - split; cbn; try done; [lia|]. intros Hq. specialize (l_quiet0 Hq). rewrite l_quiet0, orb_false_r in Hl.
    rewrite l_listening0 in Hl. by destruct (at_ s).
  - split; cbn; try done. intros Hq. specialize (l_quiet0 Hq). congruence.
  - destruct (batcher_phase _ _ Hw Hcl) as (H1 & H2 & H3 & H4 & H5). split; cbn; try done.
    + congruence.
    + auto.
    + intros Hq. apply orb_true_iff in Hq as [Hq|Hq].
      * rewrite H3; [apply l_late0; by rewrite Hq| |]; pose proof (l_quiet0 Hq); lia.
      * rewrite H4; [apply l_late0; rewrite Hq; apply orb_true_r|]. apply l_open0. by destruct (closing _).
    + intros Hq. apply H1; [by rewrite l_closed0|by apply l_open0].
    + intros Hq. apply H5; [pose proof (l_quiet0 Hq); lia|auto].
Qed.

Lemma reachable_stage s : reachable initial step s → stage_inv s.
Proof. apply reachable_invariant; [intros ? ->; apply stage_inv_serving|apply stage_inv_step]. Qed.

(** *** The stages only go forward *)

(** The calls [Serve] has left to return from. *)
Definition left (st : stage) : nat :=
  match st with
  | Serving => 7 | Signalled => 6 | Stopping => 5 | HttpDown _ => 4 | Closing _ => 3
  | WriterDown _ _ => 2 | StoreDown _ _ => 1 | Returned _ _ | Crashed => 0
  end%nat.

Lemma step_left s s' : step s s' → (left (at_ s') ≤ left (at_ s))%nat.
Proof. destruct 1; cbn; rewrite ?H; cbn; lia. Qed.

(** Past the deadline only a job that keeps its connection holds [Serve] up. *)
Lemma serve_moves s :
  at_ s ≠ Serving → (deadline_runs (at_ s) = true → expired s = true) → held s = O → left (at_ s) ≠ O →
  ∃ s', step s s' ∧ (left (at_ s') < left (at_ s))%nat.
Proof.
  intros Hat He Hh Hl. destruct (at_ s) as [| | |h|h|h e|h e|h e|] eqn:E; try done.
  - eexists. split; [by apply Shutdown|]. cbn. lia.
  - eexists. split; [by apply ShutdownLate; [|apply He]|]. cbn. lia.
  - eexists. split; [by eapply CloseWriter|]. cbn. lia.
  - eexists. split; [by eapply CloseLate; [|apply He]|]. cbn. lia.
  - eexists. split; [by eapply CloseStore|]. cbn. lia.
  - eexists. split; [by eapply Return|]. cbn. lia.
Qed.
End lifecycle.

(** [C18] A graceful shutdown keeps every row. When both [srv.Shutdown] and [writer.Close]
    returned in time, whatever the requests, ticks, inserts and background jobs did in
    between, no request is left, no call is inside the batcher, and the rows whose
    [Enqueue] returned nil are exactly those handed to an insert, in order and once each;
    the channels and batches of both streams are empty. The batcher's race between a
    sender and its closing needs a request that outlives the shutdown. *)
Theorem graceful_shutdown_keeps_rows flushRows clinging s :
  (0 < flushRows)%nat → reachable initial (step flushRows clinging) s →
  quiet (at_ s) = true → drained (at_ s) = true →
  active s = O ∧ waiting (writer s) = [] ∧ iwWaiting (writer s) = [] ∧
  Writer.accepted (writer s) = concat (out (rows (writer s))).*1 ∧
  batch (rows (writer s)) = [] ∧ chan (rows (writer s)) = [] ∧
  batch (iwRows (writer s)) = [] ∧ chan (iwRows (writer s)) = [].
Proof.
  intros Hpos Hr Hq Hd. pose proof (reachable_stage _ _ s Hr) as [].
  destruct (reachable_inv flushRows Hpos _ (reachable_writer _ _ s Hr)) as [Hc _ _ Hch Hb _].
  specialize (l_stopped0 Hd). specialize (l_gauges0 Hq). unfold gauges_out in l_gauges0.
  rewrite l_stopped0 in Hch, Hb, l_gauges0. specialize (Hch eq_refl). specialize (Hb (or_intror eq_refl)).
  rewrite Hq in l_late0. rewrite l_late0 in Hch by done.
  destruct (l_gauges0 eq_refl) as [Hgc Hgb]. specialize (Hgb eq_refl). specialize (l_quiet0 Hq).
  unfold callers in l_callers0. split; [done|].
  split; [apply length_zero_iff_nil; lia|]. split; [apply length_zero_iff_nil; lia|].
  unfold contents in Hc. rewrite Hb, Hch, !app_nil_r in Hc. done.
Qed.

(** ** What the other ways out leave behind *)

(** A job that keeps its connection until its context is cancelled is never told: the
    context is cancelled when [Serve] returns, and [Serve] waits for the pool first. *)
Lemma clinging_job_blocks_serve flushRows s s' :
  reachable initial (step flushRows true) s → held s ≠ O → not_ready (at_ s) && negb (pool_down (at_ s)) = true →
  rtc (step flushRows true) s s' → over (at_ s') = false ∧ pool s' = true.
Proof.
  intros Hr Hh Hst Hs.
  assert (Hgo : ∀ a b, stage_inv a → held a ≠ O → not_ready (at_ a) && negb (pool_down (at_ a)) = true →
    step flushRows true a b → held b ≠ O ∧ not_ready (at_ b) && negb (pool_down (at_ b)) = true).
  { intros a b Hi Ha Hat Hab. destruct Hab; cbn; rewrite ?H in *; try done.
    rewrite (l_jobs _ Hi) in H0. by destruct (at_ s0). }
  assert (Hend : stage_inv s' ∧ held s' ≠ O ∧ not_ready (at_ s') && negb (pool_down (at_ s')) = true).
  { pose proof (reachable_stage _ _ s Hr) as Hi. clear Hr. induction Hs as [s|a b s' Hab _ IH]; [done|].
    destruct (Hgo _ _ Hi Hh Hst Hab) as [Hb Hat]. apply IH; [done..|by eapply stage_inv_step]. }
  destruct Hend as (Hi & _ & Hat). rewrite (l_pool _ Hi). by destruct (at_ s').
Qed.

(** [C28] What the shutdown does to the background jobs is the reverse of what the
    comments of [assembleMux] and [startBackgroundJobs] promise ("every goroutine exits
    before the pool closes"): their context is cancelled when [Serve] returns and not
    before, so whenever the pool has been closed and [Serve] has not returned it is closed
    under jobs that were not told to stop; and a job that waits for that context with a
    connection in hand, from the signal on, keeps the pool open and [Serve] from ever
    returning, whatever else happens and whatever deadline passes. The rest of the order
    holds: while the probe answers ready the batcher and the pool are open; the listener
    is closed before the batcher and the batcher before the pool; once the deadline has
    passed, [Serve] has a next step as long as no job holds a connection, and it makes at
    most seven. *)
Theorem pool_closes_under_live_jobs flushRows clinging s :
  reachable initial (step flushRows clinging) s →
  (jobs s = false ↔ over (at_ s) = true) ∧
  (pool s = false → over (at_ s) = false → jobs s = true) ∧
  (clinging = true → held s ≠ O → not_ready (at_ s) = true → pool s = true →
   ∀ s', rtc (step flushRows clinging) s s' → over (at_ s') = false ∧ pool s' = true) ∧
  (ready s = true → closed (writer s) = false ∧ pool s = true) ∧
  (listening s = true → closed (writer s) = false) ∧
  (pool s = false → closed (writer s) = true ∧ listening s = false) ∧
  (∀ s', step flushRows clinging s s' → (left (at_ s') ≤ left (at_ s) ≤ 7)%nat) ∧
  (at_ s ≠ Serving → (deadline_runs (at_ s) = true → expired s = true) → held s = O → left (at_ s) ≠ O →
   ∃ s', step flushRows clinging s s' ∧ (left (at_ s') < left (at_ s))%nat).
Proof.
  intros Hr. pose proof (reachable_stage _ _ s Hr) as []. rewrite l_ready0, l_listening0, l_closed0, l_pool0, l_jobs0.
  split_and!; try (destruct (at_ s); cbn; by auto).
  - intros -> Hh Hn Hp s'. apply clinging_job_blocks_serve; [done..|]. by rewrite Hn, Hp.
  - intros s' Hs. split; [by eapply step_left|]. destruct (at_ s); cbn; lia.
  - apply serve_moves.
Qed.

Ltac forward rule := eapply rtc_l; [first [by eapply rule|eapply rule; cbn; (lia || done)]|]; cbn.
Tactic Notation "batcher" uconstr(rule) := eapply rtc_l; [eapply Batcher; [by eapply rule|done|cbn; lia]|]; cbn.

(** One request that outlives the deadline is enough: its row is accepted after the
    batcher has stopped, and [Serve] returns without having inserted it. *)
Theorem late_shutdown_loses_a_row :
  ∃ s, reachable initial (step 4 false) s ∧ at_ s = Returned true false ∧
       Writer.accepted (writer s) = [some_row] ∧ out (rows (writer s)) = [].
Proof.
  eexists. split; [apply (reachable_rtc _ _ serving); [by constructor|]|].
  - forward Arrive. batcher (EnqueueStart 4 new_writer some_row). forward Signal. forward Shutdown. forward Expire.
    forward ShutdownLate. forward CloseWriter. batcher DrainStart.
    batcher DrainEnd. batcher (FinalFlush 4 _ (λ _, true)). batcher (FinalFlushIW 4 _ (λ _, true)).
    batcher (EnqueueSend 4 _ [] some_row [] (mkStream [some_row] [] [])).
    forward CloseOk. forward CloseStore. forward Return. apply rtc_refl.
  - done.
Qed.

(** When the listener fails [Serve] returns at once: what the batcher holds is never
    inserted, and the batcher and the pool are not closed. *)
Theorem listener_failure_loses_the_batch :
  ∃ s, reachable initial (step 4 false) s ∧ at_ s = Crashed ∧ active s = O ∧ closed (writer s) = false ∧
       pool s = true ∧ Writer.accepted (writer s) = [some_row] ∧ out (rows (writer s)) = [].
Proof.
  eexists. split; [apply (reachable_rtc _ _ serving); [by constructor|]|].
  - forward Arrive. batcher (EnqueueStart 4 new_writer some_row).
    batcher (EnqueueSend 4 _ [] some_row [] (mkStream [some_row] [] [])).
    forward Answer. forward ListenerFails. apply rtc_refl.
  - done.
Qed.

(** One request stores a row; then a signal, and every wait ends in time. *)
Definition graceful_server : server :=
  mkServer stopped_writer (Returned false false) false false 0 false false 0 false.

(** The same one call earlier, with a job that runs. *)
Definition closed_pool_server : server :=
  mkServer stopped_writer (StoreDown false false) false false 0 false false 0 true.

Lemma closed_pool_server_reachable clinging : reachable initial (step 4 clinging) closed_pool_server.
Proof.
  apply (reachable_rtc _ _ serving); [by constructor|].
  forward Arrive. batcher (EnqueueStart 4 new_writer some_row).
  batcher (EnqueueSend 4 _ [] some_row [] (mkStream [some_row] [] [])).
  forward Answer. forward Signal. forward Shutdown. forward ShutdownOk. forward CloseWriter.
  batcher (Recv 4 _ (mkStream [] [some_row] []) true).
  batcher DrainStart. batcher DrainEnd. batcher (FinalFlush 4 _ (λ _, true)). batcher (FinalFlushIW 4 _ (λ _, true)).
  forward CloseOk. forward CloseStore. apply rtc_refl.
Qed.

Lemma graceful_server_reachable : reachable initial (step 4 false) graceful_server.
Proof. eapply reach_step; [apply closed_pool_server_reachable|]. by apply (Return 4 false closed_pool_server false false). Qed.

Lemma graceful_shutdown_keeps_rows_witness :
  active graceful_server = O ∧ Writer.accepted (writer graceful_server) = [some_row] ∧
  concat (out (rows (writer graceful_server))).*1 = [some_row].
Proof.
  destruct (graceful_shutdown_keeps_rows 4 false graceful_server ltac:(lia) graceful_server_reachable) as (Ha & _ & _ & Hw & _);
    [done|done|]. split; [exact Ha|]. split; [exact Hw|done].
Defined.

(** A job took a connection before the signal and waits for its context. *)
Definition clinging_server : server :=
  mkServer new_writer Stopping false false 0 true true 1 true.

Lemma clinging_server_reachable : reachable initial (step 4 true) clinging_server.
Proof.
  apply (reachable_rtc _ _ serving); [by constructor|].
  forward Acquire. forward Signal. forward Shutdown. forward Expire. apply rtc_refl.
Qed.

(** A pool closed under a job that runs, and a job under which [Serve] never returns. *)
Lemma pool_closes_under_live_jobs_witness :
  (pool closed_pool_server = false ∧ jobs closed_pool_server = true) ∧
  ∀ s', rtc (step 4 true) clinging_server s' → over (at_ s') = false ∧ pool s' = true.
Proof.
  split.
  - destruct (pool_closes_under_live_jobs 4 false closed_pool_server (closed_pool_server_reachable false)) as (_ & Hj & _).
    split; [done|]. by apply Hj.
  - destruct (pool_closes_under_live_jobs 4 true clinging_server clinging_server_reachable) as (_ & _ & Hb & _).
    by apply Hb.
Defined.
