(* ===== verification/Guardrail.v ===== *)
(** * Per-tenant guardrails (server/internal/guardrail, ingest/ratelimit.go)

    The series-cardinality guard, proved to implement a sliding window over everything
    ever seen; the caching limit provider, proved to answer with a bounded staleness; and
    the rate limiters, whose token bucket (golang.org/x/time/rate) is a parameter. *)

From Stdlib Require Import ZArith Lia Floats.
From stdpp Require Import base option gmap fin_maps sets strings list.
From S2P Require Import Prelude GoFloat GoString GoTime.

Local Open Scope Z_scope.

(** ** Limits *)

Record Limits := mkLimits {
  MaxRPS : f64; Burst : Z; CardinalityCap : Z; MaxPayloadBytes : Z; RetentionDays : Z;
}.

Definition DefaultLimits : Limits := mkLimits 100%float 200 10000 (Z.shiftl 4 20) 30.

(** ** Cardinality *)

Definition seriesTTL : Duration := Hour.

Definition SeriesKey (method routeTemplate statusClass : string) : string :=
  str_app method (str_app "|" (str_app routeTemplate (str_app "|" statusClass))).

Abbreviation series_set := (gmap string Time) (only parsing).

(** [tracked] holds the live maps, [frozenAt] the tenants marked frozen. *)
Record Cardinality := mkCardinality {
  tracked : gmap string (gmap string Time);
  frozenAt : gmap string bool;
}.

Definition NewCardinality : Cardinality := mkCardinality ∅ ∅.

Definition stale (now seen : Time) : bool := seriesTTL <=? time_sub now seen.

Definition evictStale (set : series_set) (now : Time) : series_set :=
  filter (λ ks, stale now ks.2 = false) set.

Definition frozen_of (c : Cardinality) (tenant : string) : bool :=
  default false (frozenAt c !! tenant).

(** [Allow] at clock reading [now]: (allowed, frozen) and the new state. *)
Definition Allow (c : Cardinality) (now : Time) (tenant seriesKey : string) (capacity : Z)
  : (bool * bool) * Cardinality :=
  let set := evictStale (default ∅ (tracked c !! tenant)) now in
  let frozenAt' := if (size set =? 0)%nat then delete tenant (frozenAt c) else frozenAt c in
  let frozen := default false (frozenAt' !! tenant) in
  match set !! seriesKey with
  | Some _ =>
      ((true, frozen), mkCardinality (<[tenant := <[seriesKey := now]> set]> (tracked c)) frozenAt')
  | None =>
      if (capacity <=? 0) || (Z.of_nat (size set) <? capacity) then
        ((true, frozen), mkCardinality (<[tenant := <[seriesKey := now]> set]> (tracked c)) frozenAt')
      else
        ((false, true), mkCardinality (<[tenant := set]> (tracked c)) (<[tenant := true]> frozenAt'))
  end.

Definition Frozen (c : Cardinality) (tenant : string) : bool := frozen_of c tenant.

(** ** The specification: a sliding window that forgets nothing

    [seen] is when each series of each tenant was last allowed, never evicted. *)

Abbreviation history := (gmap string (gmap string Time)) (only parsing).

Definition active (h : history) (now : Time) (tenant : string) : series_set :=
  evictStale (default ∅ (h !! tenant)) now.

Definition spec_allow (h : history) (now : Time) (tenant seriesKey : string) (capacity : Z) : bool :=
  bool_decide (is_Some (active h now tenant !! seriesKey)) || (capacity <=? 0)
    || (Z.of_nat (size (active h now tenant)) <? capacity).

Definition spec_step (h : history) (now : Time) (tenant seriesKey : string) (capacity : Z) : history :=
  if spec_allow h now tenant seriesKey capacity
  then <[tenant := <[seriesKey := now]> (default ∅ (h !! tenant))]> h else h.

(** The guard's sets show, from [now] on, the same active series as the history. *)
Definition refines (c : Cardinality) (h : history) (now : Time) : Prop :=
  ∀ now' tenant, now ≤ now' →
    evictStale (default ∅ (tracked c !! tenant)) now' = active h now' tenant.

Lemma refines_new now : refines NewCardinality ∅ now.
Proof. intros now' tenant _. unfold active. cbn. by rewrite !lookup_empty. Qed.

Lemma stale_mono now now' seen : now ≤ now' → stale now seen = true → stale now' seen = true.
Proof.
  unfold stale, time_sub, minDuration, maxDuration. intros Hn.
  repeat match goal with |- context [?a <? ?b] => destruct (Z.ltb_spec a b) end; lia.
Qed.

Lemma evictStale_twice set now now' :
  now ≤ now' → evictStale (evictStale set now) now' = evictStale set now'.
Proof.
  intros Hn. apply map_eq. intros k. apply option_eq. intros t. unfold evictStale.
  rewrite !map_lookup_filter_Some. cbn. split; [tauto|]. intros [Hk Hs]. split; [|done].
  split; [done|]. destruct (stale now t) eqn:E; [|done]. by rewrite (stale_mono _ _ _ Hn E) in Hs.
Qed.

Lemma evictStale_insert set k t now :
  evictStale (<[k := t]> set) now =
  if stale now t then delete k (evictStale set now) else <[k := t]> (evictStale set now).
Proof.
  unfold evictStale. destruct (stale now t) eqn:E.
  - rewrite map_filter_insert_False by (cbn; congruence). by rewrite map_filter_delete.
  - by rewrite map_filter_insert_True.
Qed.

Lemma refines_step c h now tenant key capacity :
  refines c h now →
  (Allow c now tenant key capacity).1.1 = spec_allow h now tenant key capacity ∧
  refines (Allow c now tenant key capacity).2 (spec_step h now tenant key capacity) now.
Proof.
  intros Href. unfold Allow, spec_step, spec_allow. rewrite (Href now tenant ltac:(lia)).
  set (live := active h now tenant).
  assert (Hok : ∀ (f : gmap string bool),
    refines (mkCardinality (<[tenant := <[key := now]> live]> (tracked c)) f)
      (<[tenant := <[key := now]> (default ∅ (h !! tenant))]> h) now).
  { intros f now' t Hn. unfold active. cbn. destruct (decide (t = tenant)) as [->|Hne].
    - rewrite !lookup_insert_eq. cbn. rewrite !evictStale_insert. unfold live, active.
      by rewrite evictStale_twice.
    - rewrite !lookup_insert_ne by done. by apply Href. }
  destruct (live !! key) as [t|] eqn:Hk; cbn [fst snd].
  - rewrite bool_decide_true by eauto. cbn [orb]. split; [done | apply Hok].
  - rewrite bool_decide_false by (by intros [? ?]). cbn [orb].
    destruct ((capacity <=? 0) || (Z.of_nat (size live) <? capacity)); cbn [fst snd].
    + split; [done | apply Hok].
    + split; [done|]. intros now' t Hn. unfold active. cbn.
      destruct (decide (t = tenant)) as [->|Hne].
      * rewrite lookup_insert_eq. cbn. unfold live, active. by rewrite evictStale_twice.
      * rewrite lookup_insert_ne by done. by apply Href.
Qed.

(** A call: tenant, series, capacity; a trace has the clock readings in order. *)
Record call := mkCall { at_ : Time; c_tenant : string; c_series : string; c_cap : Z }.

Fixpoint run_guard (c : Cardinality) (l : list call) : list bool * Cardinality :=
  match l with
  | [] => ([], c)
  | x :: l =>
      let '((ok, _), c') := Allow c (at_ x) (c_tenant x) (c_series x) (c_cap x) in
      let '(oks, c'') := run_guard c' l in (ok :: oks, c'')
  end.

Fixpoint run_spec (h : history) (l : list call) : list bool :=
  match l with
  | [] => []
  | x :: l => spec_allow h (at_ x) (c_tenant x) (c_series x) (c_cap x)
                :: run_spec (spec_step h (at_ x) (c_tenant x) (c_series x) (c_cap x)) l
  end.

Fixpoint clock_ordered (now : Time) (l : list call) : Prop :=
  match l with
  | [] => True
  | x :: l => now ≤ at_ x ∧ clock_ordered (at_ x) l
  end.

Lemma refines_later c h now now' : now ≤ now' → refines c h now → refines c h now'.
Proof. intros Hn Hr now'' t Hn'. apply Hr. lia. Qed.

Lemma counting_refines c h now l :
  refines c h now → clock_ordered now l → (run_guard c l).1 = run_spec h l.
Proof.
  revert c h now. induction l as [|x l IH]; intros c h now Hr Hc; [done|]. destruct Hc as [Hn Hc].
  cbn [run_guard run_spec].
  destruct (refines_step c h (at_ x) (c_tenant x) (c_series x) (c_cap x)) as [Ha Hs];
    [by eapply refines_later|].
  destruct (Allow c (at_ x) (c_tenant x) (c_series x) (c_cap x)) as [[ok fr] c']. cbn [fst snd] in *.
  specialize (IH c' _ _ Hs Hc). destruct (run_guard c' l) as [oks c'']. cbn [fst] in *. by rewrite Ha, IH.
Qed.

(** [C35] Lazy eviction is exact: on any sequence of calls with a clock that does not go
    back, the guard admits exactly what a guard that never forgets would admit by
    counting, per tenant, the series seen within the last hour: a series is admitted iff
    it is active, or the cap is disabled, or fewer than the cap are active. *)
Theorem cardinality_sliding_window now l :
  clock_ordered now l → (run_guard NewCardinality l).1 = run_spec ∅ l.
Proof. apply counting_refines, refines_new. Qed.

Definition hour_later : list call :=
  [mkCall 0 "t" "a" 1; mkCall 5 "t" "b" 1; mkCall (Hour + 1) "t" "b" 1; mkCall (Hour + 2) "t" "a" 1].

Lemma cardinality_sliding_window_witness :
  (run_guard NewCardinality hour_later).1 = [true; false; true; false].
Proof.
  assert (Hc : clock_ordered 0 hour_later) by (vm_compute; intuition congruence).
  rewrite (cardinality_sliding_window 0 hour_later Hc). vm_compute. reflexivity.
Defined.

(** [cap] bounds every tenant's tracked set. *)
Definition within_cap (c : Cardinality) (cap : Z) : Prop :=
  ∀ t set, tracked c !! t = Some set → Z.of_nat (size set) ≤ cap.

Lemma evictStale_size set now : (size (evictStale set now) ≤ size set)%nat.
Proof. rewrite <-!size_dom. apply subseteq_size, subseteq_dom, map_filter_subseteq. Qed.

Lemma Allow_within_cap c now t key cap :
  0 < cap → within_cap c cap → within_cap (Allow c now t key cap).2 cap.
Proof.
  intros Hcap Hc. unfold Allow. set (set_ := evictStale (default ∅ (tracked c !! t)) now).
  assert (Hset : Z.of_nat (size set_) ≤ cap).
  { pose proof (evictStale_size (default ∅ (tracked c !! t)) now) as Hle. fold set_ in Hle.
    destruct (tracked c !! t) as [s|] eqn:E; cbn in Hle; [specialize (Hc _ _ E); lia|].
    rewrite map_size_empty in Hle. lia. }
  assert (Hins : ∀ s, Z.of_nat (size s) ≤ cap → ∀ t' set',
            <[t := s]> (tracked c) !! t' = Some set' → Z.of_nat (size set') ≤ cap).
  { intros s Hs t' set'. rewrite lookup_insert_Some. intros [[_ <-]|[_ ?]]; [done | eauto]. }
  destruct (set_ !! key) as [s|] eqn:Hk.
  - intros t' set'. apply Hins. by rewrite map_size_insert_Some by eauto.
  - destruct (Z.leb_spec cap 0); [lia|].
    destruct (Z.ltb_spec (Z.of_nat (size set_)) cap); intros t' set'; apply Hins; [|done].
    rewrite map_size_insert_None by done. lia.
Qed.

(** A tenant with room is not refused, and uses up at most one place. *)
Lemma Allow_room c now t key cap :
  let used c := size (default ∅ (tracked c !! t)) in
  cap ≤ 0 ∨ Z.of_nat (used c) < cap →
  (Allow c now t key cap).1.1 = true ∧ (used (Allow c now t key cap).2 ≤ S (used c))%nat.
Proof.
  cbn zeta. intros Hroom. unfold Allow. set (set_ := evictStale _ now).
  assert (Hle : (size set_ ≤ size (default ∅ (tracked c !! t)))%nat) by apply evictStale_size.
  destruct (set_ !! key) as [s|] eqn:Hk; [|rewrite (proj2 (orb_true_iff _ _))].
  - cbn. rewrite lookup_insert_eq. cbn. rewrite map_size_insert_Some by eauto. split; [done|lia].
  - cbn. rewrite lookup_insert_eq. cbn. rewrite map_size_insert_None by done. split; [done|lia].
  - destruct Hroom; [left|right]; lia.
Qed.

(** The cap holds: under a positive constant cap no tenant ever has more tracked
    series than the cap, whatever is sent. *)
Theorem cardinality_cap_holds cap l :
  0 < cap → Forall (λ x, c_cap x = cap) l → within_cap (run_guard NewCardinality l).2 cap.
Proof.
  intros Hcap Hl. assert (H0 : within_cap NewCardinality cap).
  { intros t s. cbn. by rewrite lookup_empty. }
  revert H0. generalize NewCardinality. induction Hl as [|x l Hx Hl IH]; intros c Hc; [done|].
  cbn [run_guard]. pose proof (Allow_within_cap c (at_ x) (c_tenant x) (c_series x) cap Hcap Hc) as Hc'.
  rewrite Hx. destruct (Allow _ _ _ _ _) as [[ok fr] c']. cbn [snd] in Hc'.
  specialize (IH c' Hc'). by destruct (run_guard c' l).
Qed.

Lemma cardinality_cap_holds_witness : within_cap (run_guard NewCardinality hour_later).2 1.
Proof. apply (cardinality_cap_holds 1 hour_later); [lia | repeat constructor]. Defined.

(** Only a tenant's own calls sweep it: whatever other tenants do and however much
    later, a tenant's entries stay in both maps, so an idle tenant does leave residue. *)
Theorem idle_tenant_residue t l c :
  Forall (λ x, c_tenant x ≠ t) l →
  tracked (run_guard c l).2 !! t = tracked c !! t ∧
  frozenAt (run_guard c l).2 !! t = frozenAt c !! t.
Proof.
  intros Hl. revert c. induction Hl as [|x l Hx Hl IH]; intros c; [done|]. cbn [run_guard].
  assert (Hstep : tracked (Allow c (at_ x) (c_tenant x) (c_series x) (c_cap x)).2 !! t = tracked c !! t ∧
                  frozenAt (Allow c (at_ x) (c_tenant x) (c_series x) (c_cap x)).2 !! t = frozenAt c !! t).
  { unfold Allow. destruct (size _ =? 0)%nat; (destruct (_ !! c_series x); [|destruct (_ || _)]);
      cbn; rewrite ?lookup_insert_ne, ?lookup_delete_ne by done; done. }
  destruct (Allow _ _ _ _ _) as [[ok fr] c']. cbn [snd] in Hstep. destruct Hstep as [H1 H2].
  specialize (IH c'). destruct (run_guard c' l) as [oks c'']. cbn [snd] in *.
  destruct IH as [-> ->]. done.
Qed.

Lemma idle_tenant_residue_witness :
  let c := (run_guard NewCardinality hour_later).2 in
  tracked (run_guard c [mkCall (1000 * Hour) "u" "x" 5]).2 !! "t"%string = tracked c !! "t"%string ∧
  frozenAt (run_guard c [mkCall (1000 * Hour) "u" "x" 5]).2 !! "t"%string = frozenAt c !! "t"%string.
Proof.
  apply (idle_tenant_residue "t" [mkCall (1000 * Hour) "u" "x" 5]). by repeat constructor.
Defined.

(** ** The caching limit provider *)

Definition limitPositiveTTL : Duration := 30 * Second.
Definition limitNegativeTTL : Duration := 5 * Second.
Definition limitCacheSweepThreshold : nat := 4096.

Record limitCacheEntry := mkEntry { e_limits : Limits; e_ok : bool; e_expiry : Time }.

Abbreviation limit_cache := (gmap string limitCacheEntry) (only parsing).

Definition getFresh (cache : limit_cache) (now : Time) (tenant : string) : option limitCacheEntry :=
  match cache !! tenant with
  | Some e => if time_after (e_expiry e) now then Some e else None
  | None => None
  end.

(** [store]: past the threshold, expired entries are swept first. *)
Definition store (cache : limit_cache) (now : Time) (tenant : string) (entry : limitCacheEntry)
  : limit_cache :=
  let cache := if (limitCacheSweepThreshold <=? size cache)%nat
               then filter (λ te, time_after (e_expiry te.2) now = true) cache else cache in
  <[tenant := entry]> cache.

Definition ttl_of (ok : bool) : Duration := if ok then limitPositiveTTL else limitNegativeTTL.

(** One lookup: the clock readings of [getFresh], of the expiry and of the sweep, and
    what the base provider answers if it is asked. The result carries whether it was. *)
Record lookup_call := mkLookup {
  lk_now : Time; lk_stored : Time; lk_sweep : Time; lk_tenant : string; lk_base : Limits * bool;
}.

Definition CachedLimits (cache : limit_cache) (x : lookup_call)
  : (Limits * bool) * bool * limit_cache :=
  match getFresh cache (lk_now x) (lk_tenant x) with
  | Some e => ((e_limits e, e_ok e), false, cache)
  | None =>
      let '(limits, ok) := lk_base x in
      ((limits, ok), true,
       store cache (lk_sweep x) (lk_tenant x)
         (mkEntry limits ok (time_add (lk_stored x) (ttl_of ok))))
  end.

Fixpoint run_lookups (cache : limit_cache) (l : list lookup_call)
  : list ((Limits * bool) * bool) * limit_cache :=
  match l with
  | [] => ([], cache)
  | x :: l => let '(a, asked, cache') := CachedLimits cache x in
              let '(as_, cache'') := run_lookups cache' l in ((a, asked) :: as_, cache'')
  end.

(** Every entry is an answer of the base provider to an earlier call of that tenant. *)
Definition from_base (cache : limit_cache) (past : list lookup_call) : Prop :=
  ∀ t e, cache !! t = Some e → ∃ x, x ∈ past ∧ lk_tenant x = t ∧
    lk_base x = (e_limits e, e_ok e) ∧ e_expiry e = lk_stored x + ttl_of (e_ok e).

Lemma store_lookup cache now t e t' e' :
  store cache now t e !! t' = Some e' → (t' = t ∧ e' = e) ∨ cache !! t' = Some e'.
Proof.
  unfold store. intros [[<- <-]|[Hne Hl]]%lookup_insert_Some; [by left|right].
  destruct (_ <=? _)%nat; [|done]. by apply map_lookup_filter_Some in Hl as [? _].
Qed.

(** The answer to [x] is the base provider's own, or one it gave to an earlier call for
    the same tenant whose lifetime has not run out. *)
Definition bounded_answer (past : list lookup_call) (x : lookup_call) (a : (Limits * bool) * bool) : Prop :=
  if a.2 then a.1 = lk_base x
  else ∃ y, y ∈ past ∧ lk_tenant y = lk_tenant x ∧ a.1 = lk_base y ∧
            lk_now x < lk_stored y + ttl_of (lk_base y).2.

Fixpoint bounded_answers (past l : list lookup_call) (as_ : list ((Limits * bool) * bool)) : Prop :=
  match l, as_ with
  | [], [] => True
  | x :: l, a :: as_ => bounded_answer past x a ∧ bounded_answers (past ++ [x]) l as_
  | _, _ => False
  end.

Lemma CachedLimits_spec cache past x a asked cache' :
  from_base cache past → CachedLimits cache x = (a, asked, cache') →
  bounded_answer past x (a, asked) ∧ from_base cache' (past ++ [x]).
Proof.
  intros Hf Hc. unfold CachedLimits, getFresh in Hc.
  assert (Hmono : from_base cache (past ++ [x])).
  { intros t e He. destruct (Hf t e He) as (y & ? & ?). exists y. set_solver. }
  assert (Hmiss : lk_base x = a → asked = true →
    cache' = store cache (lk_sweep x) (lk_tenant x) (mkEntry a.1 a.2 (lk_stored x + ttl_of a.2)) →
    bounded_answer past x (a, asked) ∧ from_base cache' (past ++ [x])).
  { intros Hb -> ->. split; [by cbn|]. intros t e [[-> ->]|He]%store_lookup; [|by apply Hmono].
    exists x. split; [set_solver|]. cbn. by destruct a. }
  destruct (cache !! lk_tenant x) as [e|] eqn:He.
  - unfold time_after in Hc. destruct (Z.ltb_spec (lk_now x) (e_expiry e)) as [Hlt|].
    + injection Hc as <- <- <-. split; [|done].
      destruct (Hf _ _ He) as (y & Hy & Ht & Hb & Hx). exists y. rewrite Hb. cbn. by rewrite <-Hx.
    + destruct (lk_base x) as [l ok]. injection Hc as <- <- <-. by apply Hmiss.
  - destruct (lk_base x) as [l ok]. injection Hc as <- <- <-. by apply Hmiss.
Qed.

(** Whatever the cache holds for the tenant, an answer it keeps giving is the answer. *)
Definition answers (cache : limit_cache) (tenant : string) (a : Limits * bool) : Prop :=
  ∀ e, cache !! tenant = Some e → (e_limits e, e_ok e) = a.

Lemma answers_empty tenant a : answers ∅ tenant a.
Proof. intros e. by rewrite lookup_empty. Qed.

Lemma CachedLimits_answers cache x a :
  answers cache (lk_tenant x) a → lk_base x = a →
  (CachedLimits cache x).1.1 = a ∧ answers (CachedLimits cache x).2 (lk_tenant x) a.
Proof.
  intros Hc Hb. unfold CachedLimits. destruct (getFresh cache (lk_now x) (lk_tenant x)) as [e|] eqn:He; cbn.
  - unfold getFresh in He. destruct (cache !! lk_tenant x) as [e'|] eqn:El; [|done].
    destruct (time_after _ _); [|done]. injection He as <-. split; [by apply Hc|done].
  - rewrite Hb. destruct a as [l ok]. cbn. split; [done|]. intros e. unfold store.
    rewrite lookup_insert_eq. by intros [= <-].
Qed.

(** Staleness is bounded: every answer of the cached provider is the base provider's
    own answer, or one it gave for the same tenant at a call stored less than 30 seconds
    ago when it resolved, less than 5 seconds when it did not. *)
Theorem cached_limits_bounded_staleness l : bounded_answers [] l (run_lookups ∅ l).1.
Proof.
  assert (Hg : ∀ cache past, from_base cache past → bounded_answers past l (run_lookups cache l).1).
  { induction l as [|x l IH]; intros cache past Hf; [done|]. cbn [run_lookups].
    destruct (CachedLimits cache x) as [[a asked] cache'] eqn:E.
    destruct (CachedLimits_spec _ _ _ _ _ _ Hf E) as [Ha Hf'].
    specialize (IH _ _ Hf'). destruct (run_lookups cache' l) as [as_ c2]. by split. }
  apply Hg. intros t e. by rewrite lookup_empty.
Qed.

(** The base provider is spared: once it has answered for a tenant, later lookups
    whose clock readings are before the end of that answer's lifetime never ask it again
    for that tenant, even when the cache sweeps. *)
Theorem cached_limits_one_query_per_ttl cache x l :
  (CachedLimits cache x).1.2 = true →
  Forall (λ y, lk_now y < lk_stored x + ttl_of (lk_base x).2 ∧
               lk_sweep y < lk_stored x + ttl_of (lk_base x).2) l →
  Forall2 (λ y a, lk_tenant y = lk_tenant x → a = (lk_base x, false)) l
    (run_lookups (CachedLimits cache x).2 l).1.
Proof.
  intros Hx Hl. set (t := lk_tenant x). set (until := lk_stored x + ttl_of (lk_base x).2) in *.
  assert (Hheld : (CachedLimits cache x).2 !! t = Some (mkEntry (lk_base x).1 (lk_base x).2 until)).
  { unfold CachedLimits in *. destruct (getFresh _ _ _); [done|]. subst until.
    destruct (lk_base x) as [l0 ok]. cbn. unfold store. apply lookup_insert_eq. }
  revert Hheld. generalize (CachedLimits cache x).2. clear Hx.
  induction Hl as [|y l [Hn Hs] Hl IH]; intros c Hc; [constructor|]. cbn [run_lookups].
  assert (Hstep : (lk_tenant y = t → (CachedLimits c y).1 = (lk_base x, false)) ∧
                  (CachedLimits c y).2 !! t = Some (mkEntry (lk_base x).1 (lk_base x).2 until)).
  { unfold CachedLimits, getFresh, time_after. destruct (decide (lk_tenant y = t)) as [->|Hne].
    - rewrite Hc. cbn. rewrite (proj2 (Z.ltb_lt _ _) Hn). cbn. split; [|done]. intros _. by destruct (lk_base x).
    - split; [done|]. case_match; [done|]. destruct (lk_base y) as [l0 ok]. cbn. unfold store.
      rewrite lookup_insert_ne by done. destruct (_ <=? _)%nat; [|done].
      apply map_lookup_filter_Some. split; [done|]. unfold time_after. cbn. by apply Z.ltb_lt. }
  destruct (CachedLimits c y) as [[a asked] c'] eqn:E. cbn [fst snd] in Hstep.
  destruct Hstep as [H1 H2]. specialize (IH c' H2). destruct (run_lookups c' l) as [as_ c2].
  by constructor.
Qed.

Definition lookup_at (n : Z) (t : string) : lookup_call := mkLookup n n n t (DefaultLimits, true).

Lemma cached_limits_one_query_per_ttl_witness :
  Forall2 (λ y a, lk_tenant y = "t"%string → a = ((DefaultLimits, true), false))
    [lookup_at 5 "u"; lookup_at (29 * Second) "t"]
    (run_lookups (CachedLimits ∅ (lookup_at 0 "t")).2
       [lookup_at 5 "u"; lookup_at (29 * Second) "t"]).1.
Proof.
  apply (cached_limits_one_query_per_ttl ∅ (lookup_at 0 "t")); [reflexivity|].
  repeat constructor.
Defined.

(** ** Rate limiting

    The token bucket of golang.org/x/time/rate: its operations are parameters. *)

Class RateLib := {
  limiter : Type;
  NewLimiter : f64 → Z → limiter;
  Limit : limiter → f64;
  BurstOf : limiter → Z;
  SetLimit : limiter → f64 → limiter;
  SetBurst : limiter → Z → limiter;
  AllowNow : limiter → Time → bool * limiter;
}.

(** What the documentation of the package states of them. *)
Record RateLaws `{RateLib} : Prop := {
  limit_new : ∀ r b, Limit (NewLimiter r b) = r;
  burst_new : ∀ r b, BurstOf (NewLimiter r b) = b;
  limit_set : ∀ l r, Limit (SetLimit l r) = r;
  burst_set_limit : ∀ l r, BurstOf (SetLimit l r) = BurstOf l;
  burst_set : ∀ l b, BurstOf (SetBurst l b) = b;
  limit_set_burst : ∀ l b, Limit (SetBurst l b) = Limit l;
  limit_allow : ∀ l t, Limit (AllowNow l t).2 = Limit l;
  (* "a burst of zero allows no events, unless limit == Inf" *)
  zero_burst : ∀ l t, BurstOf l = 0 → Limit l ≠ infinity → (AllowNow l t).1 = false;
}.

Section rate.
Context `{RateLib}.

Abbreviation buckets := (gmap string limiter) (only parsing).

(** [RateLimiter.Allow]: the resolved budget of the tenant, the defaults when there is no
    provider or it cannot resolve; a known limiter is re-tuned where it differs. *)
Definition resolved (provider : option (string → option Limits)) (tenant : string) : Limits :=
  match provider with
  | Some f => default DefaultLimits (f tenant)
  | None => DefaultLimits
  end.

Definition retune (l : limiter) (rps : f64) (burst : Z) : limiter :=
  let l := if negb (Limit l =? rps)%float then SetLimit l rps else l in
  if negb (BurstOf l =? burst) then SetBurst l burst else l.

Definition RateAllow (provider : option (string → option Limits)) (lims : buckets) (now : Time)
  (tenant : string) : bool * buckets :=
  let limits := resolved provider tenant in
  let lim := match lims !! tenant with
             | None => NewLimiter (MaxRPS limits) (Burst limits)
             | Some l => retune l (MaxRPS limits) (Burst limits)
             end in
  let '(ok, lim') := AllowNow lim now in
  (ok, <[tenant := lim']> lims).

(** [tenantLimiter.allow]: one fixed budget. *)
Definition tenantLimiter_allow (rps : f64) (burst : Z) (lims : buckets) (now : Time)
  (tenant : string) : bool * buckets :=
  let lim := default (NewLimiter rps burst) (lims !! tenant) in
  let '(ok, lim') := AllowNow lim now in
  (ok, <[tenant := lim']> lims).
End rate.

Lemma inf_not_zero x : (infinity =? x)%float = true → (x =? 0)%float = true → False.
Proof.
  rewrite !FloatAxioms.eqb_spec. change (Prim2SF infinity) with (S754_infinity false).
  change (Prim2SF 0) with (S754_zero false). by destruct (Prim2SF x) as [[]|[]| |[]].
Qed.

(** [C34] The plan is enforced at once and per tenant: whatever the limiter's state, the
    bucket consulted has the resolved rate (up to float equality) and burst, a tenant
    whose resolved budget is zero (a suspended plan) is refused on its next request, and
    the other tenants' buckets are untouched. *)
Theorem rate_limiter_enforces_plan `{RateLib} provider lims now tenant :
  RateLaws →
  let limits := resolved provider tenant in
  let '(ok, lims') := RateAllow provider lims now tenant in
  (∃ lim, (Limit lim = MaxRPS limits ∨ (Limit lim =? MaxRPS limits)%float = true) ∧
          BurstOf lim = Burst limits ∧ ok = (AllowNow lim now).1 ∧
          lims' !! tenant = Some (AllowNow lim now).2) ∧
  (Burst limits = 0 → (MaxRPS limits =? 0)%float = true → ok = false) ∧
  ∀ t, t ≠ tenant → lims' !! t = lims !! t.
Proof.
  intros Hlaws limits. unfold RateAllow. fold limits.
  set (lim := match lims !! tenant with None => _ | Some l => _ end).
  assert (Hlim : (Limit lim = MaxRPS limits ∨ (Limit lim =? MaxRPS limits)%float = true) ∧
                 BurstOf lim = Burst limits).
  { destruct Hlaws. subst lim. destruct (lims !! tenant) as [l|]; [|by rewrite limit_new0, burst_new0; eauto].
    unfold retune. destruct (Limit l =? MaxRPS limits)%float eqn:E; cbn [negb].
    - destruct (Z.eqb_spec (BurstOf l) (Burst limits)) as [Hb|]; cbn [negb];
        rewrite ?burst_set0, ?limit_set_burst0; auto.
    - destruct (Z.eqb_spec (BurstOf (SetLimit l (MaxRPS limits))) (Burst limits)) as [Hb|]; cbn [negb];
        rewrite ?burst_set0, ?limit_set_burst0, ?limit_set0; auto. }
  destruct Hlim as [Hrate Hburst].
  assert (Hzero : Burst limits = 0 → (MaxRPS limits =? 0)%float = true → (AllowNow lim now).1 = false).
  { intros Hb Hr. apply (zero_burst Hlaws); [congruence|]. intros Hinf. rewrite Hinf in Hrate.
    apply (inf_not_zero (MaxRPS limits)); [|done]. destruct Hrate as [<-|?]; done. }
  destruct (AllowNow lim now) as [ok lim'] eqn:E. split; [|split; [done|]].
  - exists lim. rewrite E. rewrite lookup_insert_eq. done.
  - intros t Ht. by rewrite lookup_insert_ne.
Qed.

(** A bucket that never refills, counting its tokens. *)
Definition counting : RateLib := {|
  limiter := f64 * Z * Z;
  NewLimiter r b := (r, b, b);
  Limit l := l.1.1; BurstOf l := l.1.2;
  SetLimit l r := (r, l.1.2, l.2);
  SetBurst l b := (l.1.1, b, l.2);
  AllowNow l _ := if (0 <? l.2) && (0 <? l.1.2) then (true, (l.1.1, l.1.2, l.2 - 1)) else (false, l);
|}.

Lemma counting_laws : @RateLaws counting.
Proof.
  split; cbn; try done.
  - intros [[r b] n] t. cbn. by destruct (_ && _).
  - intros [[r b] n] t. cbn. intros -> _. by rewrite andb_false_r.
Qed.

Definition suspended (_ : string) : option Limits := Some (mkLimits 0%float 0 0 0 0).

Lemma rate_limiter_enforces_plan_witness :
  let '(ok, lims') := @RateAllow counting (Some suspended) {[ "t"%string := (100%float, 200, 7) ]} 0 "t" in
  (∃ lim, (@Limit counting lim = 0%float ∨ (@Limit counting lim =? 0)%float = true) ∧
          @BurstOf counting lim = 0 ∧ ok = (@AllowNow counting lim 0).1 ∧
          lims' !! "t"%string = Some (@AllowNow counting lim 0).2) ∧
  (0 = 0 → (0 =? 0)%float = true → ok = false) ∧
  ∀ t, t ≠ "t"%string → lims' !! t = ({[ "t"%string := (100%float, 200, 7) ]} : gmap string _) !! t.
Proof.
  exact (@rate_limiter_enforces_plan counting (Some suspended)
           {[ "t"%string := (100%float, 200, 7) ]} 0 "t" counting_laws).
Defined.
