(* ===== verification/Control.v ===== *)
(** * The control plane (server/internal/control)

    Organizations, ingest keys, members, plan limits and handshakes in the relational
    store, the operations over them as sequences of statements that may each fail, and the
    key resolver with its TTL cache. The store's tables are those of the migrations, their
    unique and foreign keys included; the database's own id generation and SHA-256 are
    parameters, and ids are compared in the form they are printed in. Proved beyond the
    constraints: who is made a member of what, which keys exist for whom, and that an
    organization is never left without the admin it was created for. *)

From Stdlib Require Import ZArith Lia Ascii.
From stdpp Require Import base option gmap sets strings pretty list.
From S2P Require Import Prelude GoString GoTime GoUrl Http Token Guardrail Auth.

Local Open Scope Z_scope.
#[local] Arguments filter : simpl never.

(** [gen_random_uuid()], as text, by the number of ids drawn so far, and SHA-256. *)
Class DBLib := { uuid : nat → string; hashKey : string → string }.

Class DBLaws `{DBLib} : Prop := {
  #[export] uuid_inj :: Inj (=) (=) uuid;
  #[export] hashKey_inj :: Inj (=) (=) hashKey;
}.

(** ** Tables *)

Record Org := mkOrg { o_id : string; o_name : string; o_plan : string; o_created : Time }.

Record KeyRow := mkKeyRow {
  k_id : string; k_org : string; k_label : string; k_hash : string; k_last4 : string;
  k_created : Time; k_revoked : option Time;
}.

Record MemberRow := mkMemberRow {
  m_id : string; m_org : string; m_email : string; m_role : string; m_subject : option string;
}.

Record Seen := mkSeen { s_sdk : string; s_first : Time; s_last : Time }.

Record DB := mkDB {
  orgs : list Org;
  keys : list KeyRow;
  members : list MemberRow;
  plans : gmap string Limits;
  handshakes : gmap (string * string * string) Seen;
  drawn : nat;
}.

(** The migrations seed the free plan. *)
Definition migrated : DB := mkDB [] [] [] {[ "free"%string := DefaultLimits ]} ∅ 0.

Definition org_exists (d : DB) (id : string) : Prop := id ∈ o_id <$> orgs d.
#[export] Instance org_exists_dec d id : Decision (org_exists d id).
Proof. unfold org_exists. apply _. Defined.

(** ** Statements

    A statement runs, fails before running, or runs with its reply lost. *)
Inductive fault := Fine | Failed | LostReply.
#[export] Instance fault_eq_dec : EqDecision fault.
Proof. solve_decision. Defined.

Inductive db_error := EDatabase | ErrKeyNotFound | ErrDevOrg | ErrSecret.

(** The store as its callers see it: tables, the faults to come, the database's clock and
    the random bytes to come. *)
Record World := mkWorld {
  w_db : DB; w_faults : list fault; w_clock : Time; w_rand : list (option (list ascii));
}.

Definition M (A : Type) : Type := World → result db_error A * World.

Definition ret {A} (a : A) : M A := λ w, (Ok a, w).
Definition throw {A} (e : db_error) : M A := λ w, (Err e, w).
Definition bind {A B} (m : M A) (f : A → M B) : M B := λ w,
  match m w with (Ok a, w) => f a w | (Err e, w) => (Err e, w) end.

Notation "x ⇠ m ; k" := (bind m (λ x, k)) (at level 100, m at next level, right associativity) : go_scope.
Local Open Scope go_scope.

Definition set_db (w : World) (d : DB) : World := mkWorld d (w_faults w) (w_clock w) (w_rand w).
Definition next_fault (w : World) : fault * World :=
  match w_faults w with
  | [] => (Fine, w)
  | f :: fs => (f, mkWorld (w_db w) fs (w_clock w) (w_rand w))
  end.

(** A SELECT. *)
Definition query {A} (f : DB → A) : M A := λ w,
  let '(o, w) := next_fault w in
  match o with Fine => (Ok (f (w_db w)), w) | _ => (Err EDatabase, w) end.

(** A result set as it is read: the rows that arrive, [None] for one whose columns do not
    scan, and whether reading stopped on an error. *)
Record Cursor (A : Type) := mkCursor { arriving : list (option A); broken_off : bool }.
Arguments mkCursor {A}.
Arguments arriving {A}.
Arguments broken_off {A}.

Fixpoint collect {A} (l : list (option A)) (broken : bool) (out : list A) : result db_error (list A) :=
  match l with
  | [] => if broken then Err EDatabase else Ok out
  | None :: _ => Err EDatabase
  | Some v :: l => collect l broken (out ++ [v])
  end.
Definition collectRows {A} (rows : Cursor A) : result db_error (list A) := collect (arriving rows) (broken_off rows) [].

(** A SELECT of many rows: the query fails, or its rows are read until the connection is
    lost ([LostReply]) or there are no more. *)
Definition queryList {A} (f : DB → list A) : M (list A) := λ w,
  let '(o, w) := next_fault w in
  match o with
  | Failed => (Err EDatabase, w)
  | _ => (collectRows (mkCursor (Some <$> f (w_db w)) (bool_decide (o = LostReply))), w)
  end.

(** Reading is all or nothing: a list is returned when every row scanned and none is
    missing, and it is exactly those rows, in their order. *)
Lemma collect_all {A} (l : list (option A)) broken out r :
  collect l broken out = Ok r ↔ broken = false ∧ ∃ vs, l = Some <$> vs ∧ r = out ++ vs.
Proof.
  revert out. induction l as [|[v|] l IH]; intros out; cbn [collect].
  - destruct broken; [by split; [|intros [? _]]|]. split.
    + intros [= <-]. split; [done|]. exists []. by rewrite app_nil_r.
    + intros (_ & [|] & ? & ->); [by rewrite app_nil_r|done].
  - rewrite IH. split; intros [Hb (vs & E & ->)]; (split; [done|]).
    + exists (v :: vs). cbn. by rewrite E, <-app_assoc.
    + destruct vs as [|v' vs]; [done|]. cbn in E. injection E as -> ->. exists vs. by rewrite <-app_assoc.
  - split; [done|]. by intros (_ & [|] & ? & _).
Qed.
Theorem collectRows_whole {A} (rows : Cursor A) (out : list A) :
  collectRows rows = Ok out ↔ broken_off rows = false ∧ arriving rows = Some <$> out.
Proof.
  unfold collectRows. rewrite collect_all. cbn. split.
  - intros (Hb & vs & -> & ->). done.
  - intros [Hb ->]. split; [done|]. by exists out.
Qed.

Lemma collect_broken {A} (l : list A) out : collect (Some <$> l) true out = Err EDatabase.
Proof. revert out. induction l as [|v l IH]; intros out; [done|apply IH]. Qed.
Lemma queryList_query {A} (f : DB → list A) w : queryList f w = query f w.
Proof.
  unfold queryList, query. destruct (next_fault w) as [[] w']; [|done|]; f_equal; unfold collectRows; cbn.
  - apply collect_all. split; [done|]. by exists (f (w_db w')).
  - apply collect_broken.
Qed.

(** A statement that writes: [None] is a violated constraint. *)
Definition exec {A} (f : Time → DB → option (A * DB)) : M A := λ w,
  let '(o, w) := next_fault w in
  match o with
  | Failed => (Err EDatabase, w)
  | _ => match f (w_clock w) (w_db w) with
         | None => (Err EDatabase, w)
         | Some (a, d) => (if decide (o = Fine) then Ok a else Err EDatabase, set_db w d)
         end
  end.

(** Begin, the body, and a commit when it succeeds: every other way out rolls back. *)
Definition transaction {A} (m : M A) : M A := λ w,
  let '(o, w) := next_fault w in
  match o with
  | Fine =>
      match m w with
      | (Err e, w') => (Err e, set_db w' (w_db w))
      | (Ok a, w') =>
          let '(o, w') := next_fault w' in
          match o with
          | Fine => (Ok a, w')
          | Failed => (Err EDatabase, set_db w' (w_db w))
          | LostReply => (Err EDatabase, w')
          end
      end
  | _ => (Err EDatabase, w)
  end.

Section control.
Context `{DBLib}.
Implicit Types (d : DB) (w : World).

(** *** The inserts *)

Definition insert_org (name plan : string) : M string := exec (λ now d,
  let id := uuid (drawn d) in
  Some (id, mkDB (orgs d ++ [mkOrg id name plan now]) (keys d) (members d) (plans d)
              (handshakes d) (S (drawn d)))).

(** The organization must exist, the role be known and the subject be new. *)
Definition insert_member (org email role subject : string) : M string := exec (λ _ d,
  if bool_decide (org_exists d org ∧ (role = "admin"%string ∨ role = "member"%string)
                  ∧ Some subject ∉ m_subject <$> members d)
  then let id := uuid (drawn d) in
       Some (id, mkDB (orgs d) (keys d) (members d ++ [mkMemberRow id org email role (Some subject)])
                   (plans d) (handshakes d) (S (drawn d)))
  else None).

Definition insert_key (org label hash last4 : string) : M unit := exec (λ now d,
  if bool_decide (org_exists d org ∧ hash ∉ k_hash <$> keys d)
  then let id := uuid (drawn d) in
       Some (tt, mkDB (orgs d) (keys d ++ [mkKeyRow id org label hash last4 now None]) (members d)
                   (plans d) (handshakes d) (S (drawn d)))
  else None).

(** ** Members (member.go) *)

Definition member_by_subject (subject : string) (d : DB) : option MemberRow :=
  hd_error (filter (λ m, m_subject m = Some subject) (members d)).

(** ORDER BY (plan <> 'free') DESC, created_at ASC. *)
Definition org_before (x y : Org) : bool :=
  let paid o := negb (bool_decide (o_plan o = "free"%string)) in
  if Bool.eqb (paid x) (paid y) then o_created x <? o_created y else paid x.

Definition org_of_email (email : string) (d : DB) : option string :=
  let owners := m_org <$> filter (λ m, ToLower (m_email m) = ToLower email) (members d) in
  o_id <$> hd_error (sort_stable org_before (filter (λ o, o_id o ∈ owners) (orgs d))).

Definition login : Type := string * string * string * bool.

(** [firstLoginOrLink], inside the transaction. *)
Definition firstLoginOrLink (subject email : string) : M login :=
  found ⇠ query (org_of_email email);
  match found with
  | Some orgID =>
      memberID ⇠ insert_member orgID email "admin" subject;
      ret (orgID, memberID, "admin"%string, false)
  | None =>
      orgID ⇠ insert_org email "free";
      memberID ⇠ insert_member orgID email "admin" subject;
      ret (orgID, memberID, "admin"%string, true)
  end.

Definition upsertMemberFromOIDC (subject email : string) : M login :=
  transaction (
    found ⇠ query (member_by_subject subject);
    match found with
    | Some m => ret (m_org m, m_id m, m_role m, false)
    | None => firstLoginOrLink subject email
    end).

Definition org_by_name (name : string) (d : DB) : option string :=
  o_id <$> hd_error (filter (λ o, o_name o = name) (orgs d)).

Definition devOrgAdmin (devOrgName : string) : M (string * string) :=
  org ⇠ query (org_by_name devOrgName);
  match org with
  | None => throw ErrDevOrg
  | Some orgID =>
      found ⇠ query (member_by_subject devDBSubject);
      match found with
      | Some m => ret (orgID, m_id m)
      | None => memberID ⇠ insert_member orgID "dev@maping.local" "admin" devDBSubject;
                ret (orgID, memberID)
      end
  end.

(** ** Keys and limits (store.go) *)

Definition key_by_hash (hash : string) (d : DB) : option KeyRow :=
  hd_error (filter (λ k, k_hash k = hash) (keys d)).

Definition ensureDevKey (key orgName : string) : M string :=
  let hash := hashKey key in
  found ⇠ query (key_by_hash hash);
  match found with
  | Some k => ret (k_org k)
  | None =>
      org ⇠ query (org_by_name orgName);
      orgID ⇠ match org with Some id => ret id | None => insert_org orgName "free" end;
      _ ⇠ insert_key orgID "dev" hash "";
      ret orgID
  end.

(** [token.NewSecret], drawing from the process's random source. *)
Definition new_secret : M string := λ w,
  match w_rand w with
  | [] => (Err ErrSecret, w)
  | b :: bs => (match NewSecret b with Some s => Ok s | None => Err ErrSecret end,
                mkWorld (w_db w) (w_faults w) (w_clock w) bs)
  end.

Definition last_four (secret : string) : string :=
  if (4 <? String.length secret)%nat then str_drop (String.length secret - 4) secret else secret.

Definition issueKey (orgID label : string) : M string :=
  secret ⇠ new_secret;
  _ ⇠ insert_key orgID label (hashKey secret) (last_four secret);
  ret secret.

Definition is_active (k : KeyRow) : Prop := k_revoked k = None.

Definition revokes (orgID keyID : string) (k : KeyRow) : Prop :=
  k_id k = keyID ∧ k_org k = orgID ∧ is_active k.
#[export] Instance revokes_dec orgID keyID k : Decision (revokes orgID keyID k).
Proof. unfold revokes, is_active. apply _. Defined.

Definition revoke (now : Time) (k : KeyRow) : KeyRow :=
  mkKeyRow (k_id k) (k_org k) (k_label k) (k_hash k) (k_last4 k) (k_created k) (Some now).

(** The UPDATE, with the number of rows it affected. *)
Definition update_revoked (orgID keyID : string) : M nat := exec (λ now d,
  Some (length (filter (revokes orgID keyID) (keys d)),
        mkDB (orgs d) ((λ k, if decide (revokes orgID keyID k) then revoke now k else k) <$> keys d)
          (members d) (plans d) (handshakes d) (drawn d))).

(** [execExpectOne]. *)
Definition execExpectOne (affected : M nat) (notFound : db_error) : M unit :=
  n ⇠ affected;
  if decide (n = 0%nat) then throw notFound else ret tt.

Definition revokeKey (orgID keyID : string) : M unit :=
  execExpectOne (update_revoked orgID keyID) ErrKeyNotFound.

Record KeyInfo := mkKeyInfo {
  ID : string; Label : string; Last4 : string; CreatedAt : Time; RevokedAt : option Time;
}.

(** Newest first. *)
Definition ListKeys (orgID : string) : M (list KeyInfo) := queryList (λ d,
  (λ k, mkKeyInfo (k_id k) (k_label k) (k_last4 k) (k_created k) (k_revoked k)) <$>
    sort_stable (λ x y, k_created y <? k_created x) (filter (λ k, k_org k = orgID) (keys d))).

(** The org's plan joined with its budget. *)
Definition plan_of (tenant : string) (d : DB) : option Limits :=
  o ← hd_error (filter (λ o, o_id o = tenant) (orgs d)); plans d !! o_plan o.

Definition queryLimits (tenant : string) : M Limits :=
  found ⇠ query (plan_of tenant);
  ret (default DefaultLimits found).

(** [limitProvider.Limits] (app.go): an error is "no limits known". *)
Definition storeLimits (tenant : string) : World → option Limits * World := λ w,
  match queryLimits tenant w with (Ok l, w) => (Some l, w) | (Err _, w) => (None, w) end.

(** ** Handshakes (handshake.go) *)

Definition recordHandshake (tenant service instance sdkVersion : string) : M unit := exec (λ now d,
  if decide (org_exists d tenant) then
    let k := (tenant, service, instance) in
    let seen := match handshakes d !! k with
                | Some s => mkSeen sdkVersion (s_first s) now
                | None => mkSeen sdkVersion now now
                end in
    Some (tt, mkDB (orgs d) (keys d) (members d) (plans d) (<[k := seen]> (handshakes d)) (drawn d))
  else None).

Record ServiceOnboarding := mkOnboarding { Service : string; Instance_ : string; HandshakeAt : Time }.

(** Written out like [queryList], in the code. *)
Definition onboardingState (tenant : string) : M (list ServiceOnboarding) := queryList (λ d,
  sort_stable (λ x y, HandshakeAt x <? HandshakeAt y)
    ((λ kv, mkOnboarding kv.1.1.2 kv.1.2 (s_first kv.2)) <$>
       filter (λ kv, kv.1.1.1 = tenant) (map_to_list (handshakes d)))).

(** ** The store as the auth layer's member store *)

Definition as_store {A} (m : M A) (w : World) : World * option A :=
  match m w with (Ok a, w) => (w, Some a) | (Err _, w) => (w, None) end.

#[export] Instance control_store : MemberStore World := {|
  UpsertMemberFromOIDC w subject email := as_store (upsertMemberFromOIDC subject email) w;
  DevOrgAdmin w name := as_store (devOrgAdmin name) w;
  IssueKey w org label := as_store (issueKey org label) w;
|}.
End control.

(** ** The resolver (resolver.go) *)

Definition positiveTTL : Duration := 30 * Second.
Definition negativeTTL : Duration := 5 * Second.
Definition dbErrorLogEvery : Duration := 5 * Second.
Definition cacheSweepThreshold : nat := 4096.

Record cacheEntry := mkCacheEntry { ce_tenant : string; ce_ok : bool; ce_expiry : Time }.

(** The cache, and the time and number of the fail-closed error lines. *)
Record Resolver := mkResolver {
  cache : gmap string cacheEntry; lastErrorAt : Time; logged : nat;
}.

Definition newResolver : Resolver := mkResolver ∅ zero_time 0.

Definition fresh_entry (r : Resolver) (digest : string) (now : Time) : option cacheEntry :=
  match cache r !! digest with
  | Some e => if time_after (ce_expiry e) now then Some e else None
  | None => None
  end.

Definition store_entry (r : Resolver) (digest : string) (entry : cacheEntry) (now : Time) : Resolver :=
  let c := if (cacheSweepThreshold <=? size (cache r))%nat
           then filter (λ ke, time_after (ce_expiry ke.2) now = true) (cache r) else cache r in
  mkResolver (<[digest := entry]> c) (lastErrorAt r) (logged r).

Definition logDBError (r : Resolver) (now : Time) : Resolver :=
  if time_sub now (lastErrorAt r) <? dbErrorLogEvery then r
  else mkResolver (cache r) now (S (logged r)).

(** The clock readings of one call. *)
Record clocks := mkClocks { t_fresh : Time; t_expiry : Time; t_sweep : Time; t_log : Time }.

(** [lookupFunc]: the active tenant of a digest, nothing, or a database failure. *)
Definition lookupFunc : Type := string → result db_error (option string).

Definition cache_ttl (ok : bool) : Duration := if ok then positiveTTL else negativeTTL.

Definition Resolve `{DBLib} (lookup : lookupFunc) (r : Resolver) (key : string) (t : clocks)
  : (string * bool) * Resolver :=
  match Token.Decode key with
  | None => ((""%string, false), r)
  | Some (_, secret) =>
      let digest := hashKey secret in
      match fresh_entry r digest (t_fresh t) with
      | Some e => ((ce_tenant e, ce_ok e), r)
      | None =>
          match lookup digest with
          | Err _ => ((""%string, false), logDBError r (t_log t))
          | Ok found =>
              let '(tenant, ok) := match found with
                                   | Some tenant => (tenant, true)
                                   | None => (""%string, false)
                                   end in
              ((tenant, ok),
               store_entry r digest
                 (mkCacheEntry tenant ok (time_add (t_expiry t) (cache_ttl ok))) (t_sweep t))
          end
      end
  end.

(** [poolLookup]: the query behind it. *)
Definition active_org (hash : string) (d : DB) : option string :=
  k_org <$> hd_error (filter (λ k, k_hash k = hash ∧ is_active k) (keys d)).

Definition poolLookup (w : World) : lookupFunc := λ hash, (query (active_org hash) w).1.

(** ** Reasoning about statements *)

Section hoare.
Context `{DBLib}.

(** From a database satisfying [P], success ends in [Q] and an error in [R], whatever the
    faults, the clock and the random bytes. *)
Definition hoare {A} (P : DB → Prop) (m : M A) (Q : A → DB → Prop) (R : DB → Prop) : Prop :=
  ∀ w, P (w_db w) →
    match m w with (Ok a, w') => Q a (w_db w') | (Err _, w') => R (w_db w') end.

Lemma next_fault_db w : w_db (next_fault w).2 = w_db w.
Proof. unfold next_fault. by destruct (w_faults w). Qed.

Lemma hoare_ret {A} (P : DB → Prop) (a : A) R : hoare P (ret a) (λ a' d, a' = a ∧ P d) R.
Proof. by intros w Hw. Qed.

Lemma hoare_bind {A B} P Q R S (m : M A) (f : A → M B) :
  hoare P m Q R → (∀ a, hoare (Q a) (f a) S R) → hoare P (bind m f) S R.
Proof.
  intros Hm Hf w Hw. unfold bind. specialize (Hm w Hw). destruct (m w) as [[a|e] w']; [|done].
  by apply Hf.
Qed.

Lemma hoare_query {A} (P : DB → Prop) (f : DB → A) (R : DB → Prop) :
  (∀ d, P d → R d) → hoare P (query f) (λ a d, a = f d ∧ P d) R.
Proof.
  intros HR w Hw. unfold query. pose proof (next_fault_db w) as Hd.
  destruct (next_fault w) as [[] w']; cbn in *; rewrite Hd; auto.
Qed.

Lemma hoare_exec {A} (P : DB → Prop) (f : Time → DB → option (A * DB)) Q (R : DB → Prop) :
  (∀ d, P d → R d) → (∀ now d a d', P d → f now d = Some (a, d') → Q a d' ∧ R d') →
  hoare P (exec f) Q R.
Proof.
  intros HR Hf w Hw. unfold exec. pose proof (next_fault_db w) as Hd.
  destruct (next_fault w) as [o w']. cbn in Hd. rewrite <-Hd in Hw.
  destruct o; [|by apply HR|]; destruct (f (w_clock w') (w_db w')) as [[a d']|] eqn:E;
    cbn; try (by apply HR); by eapply Hf.
Qed.

Lemma hoare_transaction {A} (P : DB → Prop) (m : M A) Q (R : DB → Prop) :
  (∀ d, P d → R d) → (∀ a d, Q a d → R d) → hoare P m Q (λ _, True) → hoare P (transaction m) Q R.
Proof.
  intros HP HQ Hm w Hw. unfold transaction. pose proof (next_fault_db w) as Hd.
  destruct (next_fault w) as [o w']. cbn in Hd. rewrite <-Hd in Hw.
  destruct o; [|by apply HP..]. specialize (Hm w' Hw). destruct (m w') as [[a|e] w2]; [|by apply HP].
  pose proof (next_fault_db w2) as Hd2. destruct (next_fault w2) as [[] w3]; cbn in *.
  - by rewrite Hd2.
  - by apply HP.
  - rewrite Hd2. by eapply HQ.
Qed.

Lemma hoare_throw {A} (P : DB → Prop) e (Q : A → DB → Prop) : hoare P (throw e) Q P.
Proof. by intros w Hw. Qed.

Lemma hoare_weaken {A} (P P' : DB → Prop) (m : M A) (Q Q' : A → DB → Prop) (R R' : DB → Prop) :
  hoare P m Q R → (∀ d, P' d → P d) → (∀ a d, Q a d → Q' a d) → (∀ d, R d → R' d) →
  hoare P' m Q' R'.
Proof. intros Hm HP HQ HR w Hw. specialize (Hm w (HP _ Hw)). destruct (m w) as [[a|e] w']; auto. Qed.

(** A property of the database that every outcome keeps. *)
Definition preserves {A} (P : DB → Prop) (m : M A) : Prop := ∀ w, P (w_db w) → P (w_db (m w).2).

Lemma preserves_ret {A} P (a : A) : preserves P (ret a).
Proof. by intros w. Qed.
Lemma preserves_throw {A} P e : preserves P (@throw A e).
Proof. by intros w. Qed.

Lemma preserves_bind {A B} P (m : M A) (f : A → M B) :
  preserves P m → (∀ a, preserves P (f a)) → preserves P (bind m f).
Proof.
  intros Hm Hf w Hw. unfold bind. specialize (Hm w Hw). destruct (m w) as [[a|e] w']; [|done].
  by apply Hf.
Qed.

Lemma preserves_query {A} P (f : DB → A) : preserves P (query f).
Proof.
  intros w Hw. unfold query. pose proof (next_fault_db w) as Hd.
  destruct (next_fault w) as [[] w']; cbn in *; by rewrite Hd.
Qed.

Lemma preserves_queryList {A} P (f : DB → list A) : preserves P (queryList f).
Proof. intros w Hw. rewrite queryList_query. by apply preserves_query. Qed.

Lemma preserves_exec {A} P (f : Time → DB → option (A * DB)) :
  (∀ now d a d', P d → f now d = Some (a, d') → P d') → preserves P (exec f).
Proof.
  intros Hf w Hw.
  pose proof (hoare_exec P f (λ _, P) P (λ d Hd, Hd)) as He. unfold hoare in He.
  specialize (He ltac:(eauto) w Hw). by destruct (exec f w) as [[a|e] w'].
Qed.

Lemma preserves_transaction {A} P (m : M A) : preserves P m → preserves P (transaction m).
Proof.
  intros Hm w Hw.
  pose proof (hoare_transaction P m (λ _, P) P (λ d Hd, Hd) (λ _ d Hd, Hd)) as Ht. unfold hoare in Ht.
  specialize (Ht ltac:(intros w1 H1; specialize (Hm w1 H1); by destruct (m w1) as [[]]) w Hw).
  by destruct (transaction m w) as [[a|e] w'].
Qed.

Lemma preserves_new_secret P : preserves P new_secret.
Proof. intros w Hw. unfold new_secret. by destruct (w_rand w). Qed.
End hoare.

Create HintDb control.
#[export] Hint Resolve preserves_ret preserves_throw preserves_query preserves_queryList preserves_new_secret : control.

(** A composed operation preserves what its statements preserve. *)
Ltac preserve :=
  repeat match goal with
  | |- preserves _ (bind _ _) => apply preserves_bind; [|intros ?]
  | |- preserves _ (transaction _) => apply preserves_transaction
  | |- preserves _ (match ?x with _ => _ end) => destruct x
  | _ => solve [eauto with control]
  end.

(** ** Well-formed databases *)

Section wf.
Context `{DBLib}.

Record db_ok (d : DB) : Prop := {
  ids_drawn : Forall (λ i, ∃ n, (n < drawn d)%nat ∧ i = uuid n)
                ((o_id <$> orgs d) ++ (k_id <$> keys d) ++ (m_id <$> members d));
  ids_nodup : NoDup ((o_id <$> orgs d) ++ (k_id <$> keys d) ++ (m_id <$> members d));
  hashes_nodup : NoDup (k_hash <$> keys d);
  subjects_nodup : NoDup (m_subject <$> members d);
  keys_owned : Forall (λ k, org_exists d (k_org k)) (keys d);
  members_owned : Forall (λ m, org_exists d (m_org m)) (members d);
  roles_known : Forall (λ m, m_role m = "admin"%string ∨ m_role m = "member"%string) (members d);
}.

Lemma db_ok_migrated : db_ok migrated.
Proof. split; cbn; constructor. Qed.

Lemma Forall_drawn n m (l : list string) :
  (n ≤ m)%nat → Forall (λ i, ∃ k, (k < n)%nat ∧ i = uuid k) l → Forall (λ i, ∃ k, (k < m)%nat ∧ i = uuid k) l.
Proof.
  intros Hn Hl. eapply Forall_impl; [exact Hl|]. intros i (k & ? & ->). exists k. split; [lia|done].
Qed.

Lemma fresh_uuid `{!DBLaws} n (l : list string) :
  Forall (λ i, ∃ k, (k < n)%nat ∧ i = uuid k) l → uuid n ∉ l.
Proof. intros Hl Hin. rewrite Forall_forall in Hl. destruct (Hl _ Hin) as (k & ? & ->%(inj uuid)). lia. Qed.

(** One more id drawn. *)
Lemma ids_insert `{!DBLaws} n (l l' : list string) :
  l' ≡ₚ uuid n :: l → Forall (λ i, ∃ k, (k < n)%nat ∧ i = uuid k) l → NoDup l →
  Forall (λ i, ∃ k, (k < S n)%nat ∧ i = uuid k) l' ∧ NoDup l'.
Proof.
  intros Hp Hl Hn. rewrite !Hp. split.
  - constructor; [exists n; split; [lia|done]|]. eapply Forall_drawn; [|exact Hl]. lia.
  - constructor; [by apply fresh_uuid|done].
Qed.

Lemma perm_1 (x : string) a b c : (a ++ [x]) ++ b ++ c ≡ₚ x :: a ++ b ++ c.
Proof. rewrite <-app_assoc. symmetry. apply Permutation_middle. Qed.
Lemma perm_2 (x : string) a b c : a ++ (b ++ [x]) ++ c ≡ₚ x :: a ++ b ++ c.
Proof. rewrite <-(app_assoc b), (app_assoc a). cbn. by rewrite <-Permutation_middle, <-app_assoc. Qed.
Lemma perm_3 (x : string) a b c : a ++ b ++ c ++ [x] ≡ₚ x :: a ++ b ++ c.
Proof. rewrite !app_assoc. by rewrite <-Permutation_cons_append. Qed.

Lemma org_exists_app d d' o id : orgs d' = orgs d ++ [o] → org_exists d id → org_exists d' id.
Proof. intros E. unfold org_exists. rewrite E, fmap_app, elem_of_app. by left. Qed.
End wf.

Section wf_ops.
Context `{DBLaws}.

Lemma insert_org_ok name plan : preserves db_ok (insert_org name plan).
Proof.
  apply preserves_exec. intros now d a d' [Hi Hn Hh Hs Hk Hm Hr] [= <- <-].
  destruct (ids_insert _ _ _ (perm_1 _ _ _ _) Hi Hn) as [Hi' Hn'].
  split; cbn [orgs keys members plans handshakes drawn]; rewrite ?fmap_app; try done.
  - eapply Forall_impl; [exact Hk|]. intros k. by eapply org_exists_app.
  - eapply Forall_impl; [exact Hm|]. intros m. by eapply org_exists_app.
Qed.

Lemma NoDup_snoc {A} (l : list A) x : NoDup l → x ∉ l → NoDup (l ++ [x]).
Proof. intros. rewrite <-Permutation_cons_append. by constructor. Qed.

Lemma insert_member_ok org email role subject : preserves db_ok (insert_member org email role subject).
Proof.
  apply preserves_exec. intros now d a d' [Hi Hn Hh Hs Hk Hm Hr] Hf. case_bool_decide as Hc; [|done].
  destruct Hc as (Hc1 & Hc2 & Hc3). injection Hf as <- <-.
  destruct (ids_insert _ _ _ (perm_3 _ _ _ _) Hi Hn) as [Hi' Hn'].
  split; cbn [orgs keys members plans handshakes drawn]; rewrite ?fmap_app; try done.
  - by apply NoDup_snoc.
  - apply Forall_app. split; [done|]. constructor; [done|constructor].
  - apply Forall_app. split; [done|]. constructor; [done|constructor].
Qed.

Lemma insert_key_ok org label hash last4 : preserves db_ok (insert_key org label hash last4).
Proof.
  apply preserves_exec. intros now d a d' [Hi Hn Hh Hs Hk Hm Hr] Hf. case_bool_decide as Hc; [|done].
  destruct Hc as (Hc1 & Hc2). injection Hf as _ <-.
  destruct (ids_insert _ _ _ (perm_2 _ _ _ _) Hi Hn) as [Hi' Hn'].
  split; cbn [orgs keys members plans handshakes drawn]; rewrite ?fmap_app; try done.
  - by apply NoDup_snoc.
  - apply Forall_app. split; [done|]. constructor; [done|constructor].
Qed.

Lemma revoke_if_fmap {A} (f : KeyRow → A) P `{∀ k, Decision (P k)} now (l : list KeyRow) :
  (∀ k, f (revoke now k) = f k) → f <$> ((λ k, if decide (P k) then revoke now k else k) <$> l) = f <$> l.
Proof.
  intros Hf. rewrite <-list_fmap_compose. apply list_fmap_ext. intros i k _. cbn. by case_decide.
Qed.

Lemma update_revoked_ok org id : preserves db_ok (update_revoked org id).
Proof.
  apply preserves_exec. intros now d a d' [Hi Hn Hh Hs Hk Hm Hr] Hf. injection Hf as _ <-.
  split; cbn [orgs keys members plans handshakes drawn] in *; rewrite ?revoke_if_fmap by done; try done.
  apply Forall_fmap. eapply Forall_impl; [exact Hk|]. intros k Ho. cbn. by case_decide.
Qed.

Lemma recordHandshake_ok t s i v : preserves db_ok (recordHandshake t s i v).
Proof.
  apply preserves_exec. intros now d a d' [Hi Hn Hh Hs Hk Hm Hr] Hf. case_decide; [|done].
  injection Hf as _ <-. by split.
Qed.
End wf_ops.

#[export] Hint Resolve insert_org_ok insert_member_ok insert_key_ok update_revoked_ok recordHandshake_ok : control.

(** ** Histories of operations *)

Inductive op :=
| OLogin (subject email : string)
| ODevAdmin (name : string)
| OEnsureDevKey (key name : string)
| OIssue (org label : string)
| ORevoke (org id : string)
| OHandshake (tenant service instance sdk : string)
| OLimits (tenant : string)
| OListKeys (org : string).

Definition run_op `{DBLib} (o : op) (w : World) : World :=
  match o with
  | OLogin s e => (upsertMemberFromOIDC s e w).2
  | ODevAdmin n => (devOrgAdmin n w).2
  | OEnsureDevKey k n => (ensureDevKey k n w).2
  | OIssue org l => (issueKey org l w).2
  | ORevoke org id => (revokeKey org id w).2
  | OHandshake t s i v => (recordHandshake t s i v w).2
  | OLimits t => (queryLimits t w).2
  | OListKeys org => (ListKeys org w).2
  end.

(** Operations at arbitrary times, under arbitrary faults. *)
Definition run_ops `{DBLib} (w : World) (l : list (op * Time)) : World :=
  fold_left (λ w ot, run_op ot.1 (mkWorld (w_db w) (w_faults w) ot.2 (w_rand w))) l w.

Section histories.
Context `{DBLib}.

(** What the statements preserve, every history preserves. *)
Lemma run_op_preserves (P : DB → Prop) o :
  (∀ n p, preserves P (insert_org n p)) →
  (∀ a b c e, preserves P (insert_member a b c e)) →
  (∀ a b c e, preserves P (insert_key a b c e)) →
  (∀ a b, o = ORevoke a b → preserves P (update_revoked a b)) →
  (∀ a b c e, preserves P (recordHandshake a b c e)) →
  ∀ w, P (w_db w) → P (w_db (run_op o w)).
Proof.
  intros Ho Hm Hk Hr Hh.
  assert (Hall : match o with
          | OLogin s e => preserves P (upsertMemberFromOIDC s e)
          | ODevAdmin n => preserves P (devOrgAdmin n)
          | OEnsureDevKey k n => preserves P (ensureDevKey k n)
          | OIssue org l => preserves P (issueKey org l)
          | ORevoke org id => preserves P (revokeKey org id)
          | OHandshake t s i v => preserves P (recordHandshake t s i v)
          | OLimits t => preserves P (queryLimits t)
          | OListKeys org => preserves P (ListKeys org)
          end).
  { destruct o; unfold upsertMemberFromOIDC, firstLoginOrLink, devOrgAdmin, ensureDevKey, issueKey,
      revokeKey, execExpectOne, queryLimits, ListKeys; preserve; by auto. }
  destruct o; exact Hall.
Qed.

Lemma run_ops_preserves (P : DB → Prop) l :
  (∀ o w, o ∈ l.*1 → P (w_db w) → P (w_db (run_op o w))) →
  ∀ w, P (w_db w) → P (w_db (run_ops w l)).
Proof.
  intros Hstep. unfold run_ops. induction l as [|[o t] l IH]; intros w Hw; [done|].
  cbn [fold_left fst snd]. apply IH.
  - intros o' w' Ho'. apply Hstep. cbn. by right.
  - apply Hstep; [by left|done].
Qed.
End histories.

Lemma control_plane_wf_step `{DBLaws} o w : db_ok (w_db w) → db_ok (w_db (run_op o w)).
Proof. apply run_op_preserves; auto with control. Qed.

Definition toy_db : DBLib := {| uuid n := Itoa (Z.of_nat n); hashKey s := s |}.

Lemma toy_laws : @DBLaws toy_db.
Proof.
  split; [|intros s s' Hs; exact Hs]. intros n m Hnm.
  change (pretty (Z.of_nat n) = pretty (Z.of_nat m)) in Hnm. apply (inj (pretty (A:=Z))) in Hnm. lia.
Qed.

(** ** Logging in *)

Section login.
Context `{DBLib}.

Lemma hd_filter_app {A} (P : A → Prop) `{∀ x, Decision (P x)} l k x :
  hd_error (filter P l) = Some x → hd_error (filter P (l ++ k)) = Some x.
Proof. rewrite filter_app. by destruct (filter P l). Qed.

Lemma hd_filter_None {A} (P : A → Prop) `{∀ x, Decision (P x)} l :
  hd_error (filter P l) = None ↔ Forall (λ x, ¬ P x) l.
Proof.
  split.
  - intros Hf. apply Forall_forall. intros x Hx HP.
    assert (Hin : x ∈ filter P l) by by apply list_elem_of_filter. by destruct (filter P l); inversion Hin.
  - induction 1 as [|x l Hx _ IH]; [done|]. by rewrite filter_cons_False.
Qed.

(** Members are never changed: an identity keeps its member. *)
Lemma member_kept subject m o w :
  member_by_subject subject (w_db w) = Some m → member_by_subject subject (w_db (run_op o w)) = Some m.
Proof.
  apply (run_op_preserves (λ d, member_by_subject subject d = Some m)); intros;
    apply preserves_exec; intros now d a' d' Hm Hf; try case_bool_decide; try case_decide; try done;
    injection Hf as _ <-; try done. by apply hd_filter_app.
Qed.

(** What a login leaves behind, from the database [d0] its transaction started on. *)
Definition login_post (d0 : DB) (subject email : string) (a : login) (d : DB) : Prop :=
  let '(org, member, role, isNew) := a in
  match member_by_subject subject d0 with
  | Some m => d = d0 ∧ a = (m_org m, m_id m, m_role m, false)
  | None =>
      role = "admin"%string ∧ keys d = keys d0 ∧
      members d = members d0 ++ [mkMemberRow member org email role (Some subject)] ∧
      match org_of_email email d0 with
      | Some o => org = o ∧ isNew = false ∧ orgs d = orgs d0
      | None => isNew = true ∧ ∃ now, orgs d = orgs d0 ++ [mkOrg org email "free" now]
      end
  end.

Lemma hoare_insert_member (P : DB → Prop) org email role subject :
  hoare P (insert_member org email role subject)
    (λ id d, ∃ d1, P d1 ∧ orgs d = orgs d1 ∧ keys d = keys d1 ∧
       members d = members d1 ++ [mkMemberRow id org email role (Some subject)]) (λ _, True).
Proof.
  apply hoare_exec; [done|]. intros now d id d' Hd. case_bool_decide; [|done]. intros [= <- <-].
  split; [|done]. by exists d.
Qed.

Lemma hoare_insert_org (P : DB → Prop) name plan :
  hoare P (insert_org name plan)
    (λ id d, ∃ d1 now, P d1 ∧ orgs d = orgs d1 ++ [mkOrg id name plan now] ∧ keys d = keys d1 ∧
       members d = members d1) (λ _, True).
Proof. apply hoare_exec; [done|]. intros now d id d' Hd [= <- <-]. split; [|done]. by exists d, now. Qed.

Lemma hoare_login d0 subject email :
  hoare (λ d, d = d0) (upsertMemberFromOIDC subject email)
    (login_post d0 subject email) (λ d, d = d0 ∨ ∃ a, login_post d0 subject email a d).
Proof.
  apply hoare_transaction; [by left|by eauto|].
  eapply hoare_bind; [by apply (hoare_query _ _ (λ _, True))|]. cbn beta. intros found.
  destruct found as [m|].
  - intros w [Hm Hd]. rewrite Hd in Hm. cbn. by rewrite Hd, <-Hm.
  - unfold firstLoginOrLink.
    apply (hoare_weaken (λ d, d = d0 ∧ member_by_subject subject d0 = None) _ _
             (login_post d0 subject email) _ (λ _, True) _); [|naive_solver|done|done].
    eapply hoare_bind; [by apply (hoare_query _ _ (λ _, True))|]. cbn beta. intros [o|].
    + eapply hoare_bind; [apply hoare_insert_member|]. cbn beta. intros id w (d1 & (Ho & -> & Hn) & H1 & H2 & H3).
      cbn. rewrite Hn, <-Ho. done.
    + eapply hoare_bind; [apply hoare_insert_org|]. cbn beta. intros o.
      eapply hoare_bind; [apply hoare_insert_member|]. cbn beta.
      intros id w (d1 & (d2 & now & (Ho & -> & Hn) & H1 & H2 & H3) & H4 & H5 & H6).
      cbn. rewrite Hn, <-Ho, H4, H5, H6, H1, H2, H3. eauto 10.
Qed.

Lemma login_post_member d0 subject email org member role isNew d :
  login_post d0 subject email (org, member, role, isNew) d →
  ∃ m, member_by_subject subject d = Some m ∧ (m_org m, m_id m, m_role m) = (org, member, role).
Proof.
  unfold login_post. destruct (member_by_subject subject d0) as [m|] eqn:Em.
  - intros [-> [= -> -> -> ->]]. by exists m.
  - intros (_ & _ & Hm & _). unfold member_by_subject in *. rewrite Hm. eexists.
    rewrite filter_app. apply hd_filter_None in Em.
    rewrite filter_nil_all by done. by rewrite filter_cons_True.
Qed.
End login.

(** ** Where everything in the store comes from *)

Section provenance.
Context `{DBLib}.

Definition dev_address : string := "dev@maping.local".

(** A member is a person who logged in, or the development administrator. *)
Definition joined (h : list op) (m : MemberRow) : Prop :=
  (∃ subject email, OLogin subject email ∈ h ∧ m_subject m = Some subject ∧ m_email m = email) ∨
  (∃ name, ODevAdmin name ∈ h) ∧ m_subject m = Some devDBSubject ∧ m_email m = dev_address.

(** A key was issued to its organization under its label, or is the development key of the
    organization of that name; it is active until it is revoked, under its organization. *)
Definition issued (h : list op) (d : DB) (k : KeyRow) : Prop :=
  (OIssue (k_org k) (k_label k) ∈ h ∨
   ∃ key name o, OEnsureDevKey key name ∈ h ∧ k_label k = "dev"%string ∧ k_hash k = hashKey key ∧
     o ∈ orgs d ∧ o_id o = k_org k ∧ o_name o = name) ∧
  (is_active k ∨ ORevoke (k_org k) (k_id k) ∈ h).

(** An organization has the administrator it was founded for. *)
Definition founded (d : DB) (o : Org) : Prop :=
  ∃ m, m ∈ members d ∧ m_org m = o_id o ∧ m_email m = o_name o ∧ m_role m = "admin"%string.

Record plane_ok (dev : string) (h : list op) (d : DB) : Prop := {
  po_ok : db_ok d;
  po_founded : ∀ o, o ∈ orgs d → o_name o = dev ∨ founded d o;
  po_members : ∀ m, m ∈ members d → m_role m = "admin"%string ∧ joined h m;
  po_home : ∀ m m', m ∈ members d → m' ∈ members d → ToLower (m_email m) = ToLower (m_email m') →
    ToLower (m_email m) ≠ dev_address → m_org m = m_org m';
  po_keys : ∀ k, k ∈ keys d → issued h d k;
}.

Lemma plane_ok_migrated dev : plane_ok dev [] migrated.
Proof.
  split; [apply db_ok_migrated|..]; cbn [orgs keys members migrated]; [| |intros m m' Hin|];
    try intros x Hin; by apply elem_of_nil in Hin.
Qed.

Lemma joined_more h h' m : h ⊆ h' → joined h m → joined h' m.
Proof. intros Hh [(s & e & Hin & Hm)|[(n & Hin) Hm]]; [left; exists s, e; by auto|right; split; [exists n; auto|done]]. Qed.

Lemma issued_more h h' d d' k : h ⊆ h' → orgs d ⊆ orgs d' → issued h d k → issued h' d' k.
Proof.
  intros Hh Ho [[Hi|(key & name & o & Hin & H1 & H2 & Hor & H3)] Hr]; (split; [|destruct Hr; auto]).
  - left. by apply Hh.
  - right. exists key, name, o. auto 10.
Qed.

Lemma founded_more d d' o : members d ⊆ members d' → founded d o → founded d' o.
Proof. intros Hm (m & Hin & Hf). exists m. auto. Qed.

Lemma plane_ok_more dev h h' d : h ⊆ h' → plane_ok dev h d → plane_ok dev h' d.
Proof.
  intros Hh [Hok Hf Hm Hhome Hk]. split; [done|done| |done|].
  - intros m Hin. destruct (Hm m Hin) as [? Hj]. split; [done|]. by eapply joined_more.
  - intros k Hin. by apply (issued_more h h' d d k), Hk.
Qed.
End provenance.

Section provenance_ops.
Context `{DBLaws}.

Lemma org_of_email_Some email d o :
  org_of_email email d = Some o → ∃ m, m ∈ members d ∧ ToLower (m_email m) = ToLower email ∧ m_org m = o.
Proof.
  unfold org_of_email. intros Ho. pose proof (sort_stable_perm org_before (filter (λ o, o_id o ∈
    m_org <$> filter (λ m, ToLower (m_email m) = ToLower email) (members d)) (orgs d))) as Hp.
  destruct (sort_stable _ _) as [|o' l]; [done|]. injection Ho as <-.
  assert (Hin : o' ∈ o' :: l) by by left. rewrite Hp in Hin. apply list_elem_of_filter in Hin as [Hin _].
  apply list_elem_of_fmap in Hin as (m & -> & [He Hm]%list_elem_of_filter). by exists m.
Qed.

Lemma org_of_email_None email d :
  db_ok d → org_of_email email d = None → ∀ m, m ∈ members d → ToLower (m_email m) ≠ ToLower email.
Proof.
  unfold org_of_email. intros Hok Ho m Hm He. pose proof (sort_stable_perm org_before (filter (λ o, o_id o ∈
    m_org <$> filter (λ m, ToLower (m_email m) = ToLower email) (members d)) (orgs d))) as Hp.
  destruct (sort_stable _ _) as [|o' l]; [|done]. apply Permutation_nil in Hp.
  pose proof (members_owned _ Hok) as Hown. rewrite Forall_forall in Hown. specialize (Hown m Hm).
  apply list_elem_of_fmap in Hown as (o & Ho' & Hin). apply (elem_of_nil o). rewrite <-Hp.
  apply list_elem_of_filter. split; [|done]. rewrite <-Ho'. apply list_elem_of_fmap. exists m. split; [done|].
  by apply list_elem_of_filter.
Qed.

(** A login leaves the new member with an organization of its own or the one its address has. *)
Lemma login_plane dev h subject email a d0 d :
  OLogin subject email ∈ h → db_ok d → plane_ok dev h d0 → login_post d0 subject email a d → plane_ok dev h d.
Proof.
  intros Hin Hd [Hok Hf Hm Hhome Hk]. destruct a as [[[org member] role] isNew]. unfold login_post.
  destruct (member_by_subject subject d0) as [m0|]; [by intros [-> _]|].
  intros (-> & Hkeys & Hmem & Horg). set (m := mkMemberRow member org email "admin" (Some subject)) in *.
  assert (Hsub : members d0 ⊆ members d) by (rewrite Hmem; set_solver).
  assert (Hnew : ∀ m', m' ∈ members d0 → ToLower (m_email m') = ToLower email →
    ToLower email ≠ dev_address → m_org m' = org).
  { intros m' Hm' He Hdev. destruct (org_of_email email d0) as [o|] eqn:Eo.
    - destruct Horg as (-> & _ & _). destruct (org_of_email_Some _ _ _ Eo) as (m1 & Hm1 & He1 & <-).
      apply Hhome; [done|done|by rewrite He1|by rewrite He].
    - by destruct (org_of_email_None _ _ Hok Eo m' Hm'). }
  split; [done|..].
  - intros o Ho. destruct (org_of_email email d0).
    + destruct Horg as (_ & _ & Ho'). rewrite Ho' in Ho. destruct (Hf o Ho); [by left|right; by eapply founded_more].
    + destruct Horg as (_ & now & Ho'). rewrite Ho' in Ho. apply elem_of_app in Ho as [Ho|Ho%list_elem_of_singleton].
      * destruct (Hf o Ho); [by left|right; by eapply founded_more].
      * right. exists m. rewrite Hmem, Ho. split; [set_solver|done].
  - intros m' Hm'. rewrite Hmem in Hm'. apply elem_of_app in Hm' as [Hm'|Hm'%list_elem_of_singleton]; [by apply Hm|].
    rewrite Hm'. split; [done|]. left. by exists subject, email.
  - intros m1 m2 H1 H2 He Hne. rewrite Hmem in H1, H2.
    apply elem_of_app in H1 as [H1|H1%list_elem_of_singleton], H2 as [H2|H2%list_elem_of_singleton]; subst; cbn [m m_email m_org] in He, Hne |- *.
    + by apply Hhome.
    + apply Hnew; [done|exact He|congruence].
    + symmetry. by apply Hnew.
    + done.
  - intros k Hin'. rewrite Hkeys in Hin'. apply (issued_more h h d0 d); [done| |by apply Hk].
    destruct (org_of_email email d0); [by destruct Horg as (_ & _ & ->)|]. destruct Horg as (_ & now & ->). set_solver.
Qed.
Lemma same_tables_plane dev h d d' :
  db_ok d' → orgs d' = orgs d → keys d' = keys d → members d' = members d → plane_ok dev h d → plane_ok dev h d'.
Proof.
  intros Hd Ho Hk Hm [_ Hf Hme Hh Hke]. split; [done|..]; rewrite ?Ho, ?Hk, ?Hm; try done.
  - intros o Hin. destruct (Hf o Hin) as [?|(m & Hin' & ?)]; [by left|]. right. exists m. by rewrite Hm.
  - intros k Hin. apply (issued_more h h d d'); [done|by rewrite Ho|by apply Hke].
Qed.

(** What a statement that preserves a property does to a database that has it. *)
Lemma exec_keeps {A} (P : DB → Prop) (f : Time → DB → option (A * DB)) now d a d' :
  preserves P (exec f) → P d → f now d = Some (a, d') → P d'.
Proof. intros Hp Hd Hf. specialize (Hp (mkWorld d [] now []) Hd). unfold exec in Hp. cbn in Hp. by rewrite Hf in Hp. Qed.

(** The development administrator is added to an organization and founds none. *)
Lemma insert_dev_plane dev h org name :
  ODevAdmin name ∈ h → preserves (plane_ok dev h) (insert_member org dev_address "admin" devDBSubject).
Proof.
  intros Hin. apply preserves_exec. intros now d a d' [Hok Hf Hm Hhome Hk] Hd.
  pose proof (exec_keeps db_ok _ now d a d' (insert_member_ok org dev_address "admin" devDBSubject) Hok Hd) as Hok'.
  case_bool_decide; [|done]. injection Hd as _ <-. split; [done|..]; cbn [orgs keys members].
  - intros o Ho. destruct (Hf o Ho) as [?|(m & Hm' & ?)]; [by left|]. right. exists m. cbn. split; [set_solver|done].
  - intros m [Hm'|Hm'%list_elem_of_singleton]%elem_of_app; [by apply Hm|]. rewrite Hm'. split; [done|]. right.
    split; [by exists name|done].
  - intros m m' Hi1 Hi2 He Hne.
    apply elem_of_app in Hi1 as [Hi1|Hi1%list_elem_of_singleton]; [|by subst m].
    apply elem_of_app in Hi2 as [Hi2|Hi2%list_elem_of_singleton]; [by apply Hhome|].
    subst m'. destruct Hne. exact He.
  - intros k Hin'. by apply (issued_more h h d), Hk.
Qed.

Lemma insert_dev_org_plane dev h plan : preserves (plane_ok dev h) (insert_org dev plan).
Proof.
  apply preserves_exec. intros now d a d' [Hok Hf Hm Hhome Hk] Hd.
  pose proof (exec_keeps db_ok _ now d a d' (insert_org_ok dev plan) Hok Hd) as Hok'. injection Hd as _ <-.
  split; [done|..]; cbn [orgs keys members]; try done.
  - intros o [Ho|Ho%list_elem_of_singleton]%elem_of_app; [|left; by rewrite Ho].
    destruct (Hf o Ho) as [?|(m & Hm' & ?)]; [by left|]. right. by exists m.
  - intros k Hin'. apply (issued_more h h d); [done| |by apply Hk]. cbn. set_solver.
Qed.

(** A key that is inserted for a reason. *)
Lemma insert_key_plane dev h org label hash last4 :
  preserves (λ d, plane_ok dev h d ∧ ∀ k, k_org k = org → k_label k = label → k_hash k = hash → is_active k → issued h d k)
    (insert_key org label hash last4).
Proof.
  apply preserves_exec. intros now d a d' [[Hok Hf Hm Hhome Hk] Hnew] Hd.
  pose proof (exec_keeps db_ok _ now d a d' (insert_key_ok org label hash last4) Hok Hd) as Hok'.
  case_bool_decide; [|done]. injection Hd as _ <-. split.
  - split; [done|..]; cbn [orgs keys members]; try done.
    intros k [Hin|Hin%list_elem_of_singleton]%elem_of_app; [by apply (issued_more h h d), Hk|].
    apply (issued_more h h d); [done..|]. by apply Hnew; rewrite Hin.
  - intros k Ha Hb Hc Hd. by apply (issued_more h h d), Hnew.
Qed.

Lemma update_revoked_plane dev h org id :
  ORevoke org id ∈ h → preserves (plane_ok dev h) (update_revoked org id).
Proof.
  intros Hin. apply preserves_exec. intros now d a d' [Hok Hf Hm Hhome Hk] Hd.
  pose proof (exec_keeps db_ok _ now d a d' (update_revoked_ok org id) Hok Hd) as Hok'. injection Hd as _ <-.
  split; [done|..]; cbn [orgs keys members]; try done.
  intros k (k0 & -> & Hk0)%list_elem_of_fmap. specialize (Hk k0 Hk0). case_decide as Hr; [|by apply (issued_more h h d)].
  destruct Hr as (Hid & Horg & _), Hk as [Hk _]. split; [exact Hk|]. right. cbn. by rewrite Hid, Horg.
Qed.

Lemma recordHandshake_plane dev h t s i v : preserves (plane_ok dev h) (recordHandshake t s i v).
Proof.
  apply preserves_exec. intros now d a d' Hp Hd.
  pose proof (exec_keeps db_ok _ now d a d' (recordHandshake_ok t s i v) (po_ok _ _ _ Hp) Hd) as Hok'.
  case_decide; [|done]. injection Hd as _ <-. by apply (same_tables_plane dev h d).
Qed.
(** The development key belongs to the organization of the name it was asked for. *)
Lemma ensureDevKey_plane dev h key :
  OEnsureDevKey key dev ∈ h → hoare (plane_ok dev h) (ensureDevKey key dev) (λ _, plane_ok dev h) (plane_ok dev h).
Proof.
  intros Hin. set (P := plane_ok dev h). set (named id d := P d ∧ ∃ o, o ∈ orgs d ∧ o_id o = id ∧ o_name o = dev).
  unfold ensureDevKey. eapply hoare_bind; [apply (hoare_query P _ P); done|]. cbn beta.
  intros [k|]; [by intros w [_ Hw]|]. apply (hoare_weaken P _ _ (λ _, P) _ P _); [|by intros d []|done..].
  eapply hoare_bind; [apply (hoare_query P _ P); done|]. cbn beta. intros org.
  apply (hoare_bind _ named P); [destruct org as [id|]|intros id].
  - intros w [Ho Hw]. cbn. split; [done|]. unfold org_by_name in Ho.
    destruct (filter _ (orgs (w_db w))) as [|o l] eqn:Ef; [done|]. injection Ho as ->. exists o.
    assert (Hf : o ∈ filter (λ o, o_name o = dev) (orgs (w_db w))) by (rewrite Ef; by left).
    apply list_elem_of_filter in Hf as [? ?]. done.
  - apply hoare_exec; [by intros d []|]. intros now d a d' [_ Hd] Hf.
    pose proof (exec_keeps P _ now d a d' (insert_dev_org_plane dev h "free") Hd Hf) as Hd'. injection Hf as <- <-.
    split; [|done]. split; [done|]. eexists. split; [cbn; apply elem_of_app; right; by left|done].
  - apply (hoare_bind _ (λ _, P) P); [|by intros _ w Hw].
    intros w [Hw (o & Ho & Hid & Hname)].
    pose proof (insert_key_plane dev h id "dev" (hashKey key) "" w) as Hk. cbn beta in Hk.
    destruct Hk as [Hk _]; [|by destruct (insert_key _ _ _ _ w) as [[]]]. split; [done|].
    intros k Hko Hkl Hkh Hka. split; [|by left]. right. exists key, dev, o. by rewrite Hko.
Qed.

Lemma plane_step dev h o w :
  (∀ key name, o = OEnsureDevKey key name → name = dev) →
  plane_ok dev h (w_db w) → plane_ok dev (h ++ [o]) (w_db (run_op o w)).
Proof.
  intros Hdev Hw. assert (Hin : o ∈ h ++ [o]) by (apply elem_of_app; right; by left).
  apply (plane_ok_more dev h (h ++ [o])) in Hw; [|set_solver]. revert Hin Hw. generalize (h ++ [o]). clear h. intros h Hin Hw.
  destruct o as [subject email|name|key name|org label|org id|t s i v|t|org]; cbn [run_op].
  - pose proof (control_plane_wf_step (OLogin subject email) w (po_ok _ _ _ Hw)) as Hok. cbn [run_op] in Hok.
    pose proof (hoare_login (w_db w) subject email w eq_refl) as Hl.
    destruct (upsertMemberFromOIDC subject email w) as [[a|e] w']; [by eapply login_plane|].
    cbn [snd] in *. destruct Hl as [->|[a Hl]]; [done|by eapply login_plane].
  - revert w Hw. change (preserves (plane_ok dev h) (devOrgAdmin name)). unfold devOrgAdmin. preserve.
    by apply (insert_dev_plane dev h _ name).
  - rewrite (Hdev key name eq_refl) in Hin |- *. pose proof (ensureDevKey_plane dev h key Hin w Hw) as He.
    by destruct (ensureDevKey key dev w) as [[]].
  - revert w Hw. change (preserves (plane_ok dev h) (issueKey org label)). unfold issueKey. preserve. intros w Hw.
    destruct (insert_key_plane dev h org label (hashKey a) (last_four a) w) as [Hk _]; [|exact Hk].
    split; [done|]. intros k Hko Hkl _ Hka. split; [left; by rewrite Hko, Hkl|by left].
  - revert w Hw. change (preserves (plane_ok dev h) (revokeKey org id)). unfold revokeKey, execExpectOne. preserve.
    by apply update_revoked_plane.
  - by apply recordHandshake_plane.
  - revert w Hw. change (preserves (plane_ok dev h) (queryLimits t)). unfold queryLimits. preserve.
  - revert w Hw. change (preserves (plane_ok dev h) (ListKeys org)). unfold ListKeys. preserve.
Qed.

Lemma plane_history dev l w h :
  (∀ key name, OEnsureDevKey key name ∈ l.*1 → name = dev) →
  plane_ok dev h (w_db w) → plane_ok dev (h ++ l.*1) (w_db (run_ops w l)).
Proof.
  revert w h. induction l as [|[o t] l IH]; intros w h Hdev Hw; [by rewrite app_nil_r|].
  unfold run_ops. cbn [fold_left fst snd fmap list_fmap]. rewrite (cons_middle o), (app_assoc h [o]). apply IH.
  - intros key name Hin. apply (Hdev key). cbn. by right.
  - apply plane_step; [|done]. intros key name ->. apply (Hdev key). cbn. by left.
Qed.
End provenance_ops.


(** A login does exactly this, or nothing: a known identity gets its member back and
    the database is untouched; a new identity whose verified address already belongs to
    an organization (compared without case; a paid one before a free one, then the oldest)
    becomes an admin member of it; otherwise a free organization named after the address is
    created with that admin member. On an error the database is unchanged, or, when only
    the reply to the commit was lost, it is as after a success. *)
Theorem login_exact `{DBLib} subject email w :
  match upsertMemberFromOIDC subject email w with
  | (Ok a, w') => login_post (w_db w) subject email a (w_db w')
  | (Err _, w') => w_db w' = w_db w ∨ ∃ a, login_post (w_db w) subject email a (w_db w')
  end.
Proof.
  pose proof (hoare_login (w_db w) subject email w eq_refl) as Hl.
  by destruct (upsertMemberFromOIDC subject email w) as [[a|e] w'].
Qed.

(** An identity is permanent: once a login has succeeded, every later successful login
    with the same subject, whatever the address it presents and whatever operations and
    failures came in between, returns the same organization, member and role, is never new,
    and changes nothing. *)
Theorem login_stable `{DBLib} subject email w a w1 l email' now faults rand :
  upsertMemberFromOIDC subject email w = (Ok a, w1) →
  let w2 := mkWorld (w_db (run_ops w1 l)) faults now rand in
  match upsertMemberFromOIDC subject email' w2 with
  | (Ok b, w3) => b = (a.1, false) ∧ w_db w3 = w_db w2
  | (Err _, w3) => w_db w3 = w_db w2
  end.
Proof.
  intros Hl w2. destruct a as [[[org member] role] isNew].
  pose proof (hoare_login (w_db w) subject email w eq_refl) as Hp. rewrite Hl in Hp.
  destruct (login_post_member _ _ _ _ _ _ _ _ Hp) as (m & Hm & Heq).
  assert (Hm2 : member_by_subject subject (w_db w2) = Some m).
  { cbn. apply (run_ops_preserves (λ d, member_by_subject subject d = Some m)); [|done].
    intros o w' _. apply member_kept. }
  pose proof (hoare_login (w_db w2) subject email' w2 eq_refl) as Hp2.
  assert (Hkey : ∀ b d, login_post (w_db w2) subject email' b d → b = ((org, member, role), false) ∧ d = w_db w2).
  { intros [[[o' m'] r'] n'] d. unfold login_post. rewrite Hm2. by intros [-> ->]; rewrite Heq. }
  destruct (upsertMemberFromOIDC subject email' w2) as [[b|e] w3].
  - by apply Hkey.
  - destruct Hp2 as [|[b Hb]]; [done|]. by apply Hkey in Hb as [_ ->].
Qed.

Definition fresh_world : World := mkWorld migrated [] 0 [Some (bytes_of "0123456789abcdef0123456789abcdef")].

(** A first login whose second insert fails, the same login again, a key and its revocation. *)
Definition busy_history : list (op * Time) :=
  [(OLogin "github:1" "a@b.c", 5); (OLogin "github:1" "a@b.c", 6); (OLogin "google:2" "A@B.c", 7); (OIssue "0" "ci", 8);
   (ORevoke "0" "3", 9)]%string.
Definition busy_world : World :=
  mkWorld migrated [Fine; Fine; Fine; Fine; Failed] 0 [Some (bytes_of "0123456789abcdef0123456789abcdef")].


Lemma login_stable_witness :
  let _ := toy_db in
  let w1 := (upsertMemberFromOIDC "github:1" "A@b.c" fresh_world).2 in
  match upsertMemberFromOIDC "github:1" "new@b.c" (mkWorld (w_db (run_ops w1 [(OIssue "0" "k", 5)])) [] 9 []) with
  | (Ok b, w3) => b = (("0", "1", "admin"), false)%string ∧ w_db w3 = w_db (run_ops w1 [(OIssue "0" "k", 5)])
  | (Err _, w3) => w_db w3 = w_db (run_ops w1 [(OIssue "0" "k", 5)])
  end.
Proof.
  apply (@login_stable toy_db "github:1" "A@b.c" fresh_world ("0", "1", "admin", true)%string
           (@upsertMemberFromOIDC toy_db "github:1" "A@b.c" fresh_world).2 [(OIssue "0" "k", 5)] "new@b.c" 9 [] []).
  reflexivity.
Defined.

(** Two providers, one person: after a first login, a login of a second identity with
    the same verified address up to case joins that organization as an admin without
    creating another one. *)
Theorem second_provider_joins `{DBLaws} s1 e1 s2 e2 w org member w1 now faults rand :
  db_ok (w_db w) →
  upsertMemberFromOIDC s1 e1 w = (Ok (org, member, "admin"%string, true), w1) →
  s1 ≠ s2 → ToLower e1 = ToLower e2 → member_by_subject s2 (w_db w) = None →
  ∀ a w2, upsertMemberFromOIDC s2 e2 (mkWorld (w_db w1) faults now rand) = (Ok a, w2) →
    a.1.1.1 = org ∧ a.1.2 = "admin"%string ∧ a.2 = false ∧ orgs (w_db w2) = orgs (w_db w1).
Proof.
  intros Hok Hl Hne He Hn2 a w2 Hl2.
  pose proof (hoare_login (w_db w) s1 e1 w eq_refl) as Hp. rewrite Hl in Hp.
  pose proof (hoare_login (w_db w1) s2 e2 (mkWorld (w_db w1) faults now rand) eq_refl) as Hp2.
  rewrite Hl2 in Hp2. destruct a as [[[o2 m2] r2] n2].
  unfold login_post in Hp. destruct (member_by_subject s1 (w_db w)) as [m|] eqn:Em.
  { destruct Hp as [_ [=]]. }
  destruct Hp as (_ & _ & Hm1 & Ho). destruct (org_of_email e1 (w_db w)) as [o|] eqn:Eo; [by destruct Ho as (_ & ? & _)|].
  destruct Ho as (_ & t & Ho1).
  assert (Hs2 : member_by_subject s2 (w_db w1) = None).
  { unfold member_by_subject in *. rewrite Hm1. apply hd_filter_None in Hn2. apply hd_filter_None.
    apply Forall_app. split; [done|]. constructor; [|constructor]. cbn. congruence. }
  (* nobody had this address before: the only candidate is the new organization *)
  assert (Hfe : Forall (λ m, ¬ ToLower (m_email m) = ToLower e2) (members (w_db w))).
  { apply Forall_forall. intros m Hm Hme. unfold org_of_email in Eo.
    pose proof (members_owned _ Hok) as Hown. rewrite Forall_forall in Hown.
    destruct (proj1 (list_elem_of_fmap _ _ _) (Hown m Hm)) as (o & Hoid & Hin).
    destruct (sort_stable org_before _) as [|x rest] eqn:Es; [|done].
    assert (Hx : o ∈ sort_stable org_before (filter
      (λ o, o_id o ∈ m_org <$> filter (λ m, ToLower (m_email m) = ToLower e1) (members (w_db w))) (orgs (w_db w)))).
    { rewrite sort_stable_perm. apply list_elem_of_filter. split; [|done]. apply list_elem_of_fmap.
      exists m. split; [done|]. apply list_elem_of_filter. by rewrite He. }
    rewrite Es in Hx. by apply not_elem_of_nil in Hx. }
  assert (Hok1 : db_ok (w_db w1)).
  { pose proof (control_plane_wf_step (OLogin s1 e1) w Hok) as H1. cbn in H1. by rewrite Hl in H1. }
  assert (Hoe : org_of_email e2 (w_db w1) = Some org).
  { unfold org_of_email. rewrite Hm1, Ho1, !filter_app.
    rewrite (filter_nil_all _ (members (w_db w))) by done. rewrite filter_cons_True by done.
    rewrite filter_nil_all; [by rewrite filter_cons_True by by constructor|].
    pose proof (ids_nodup _ Hok1) as Hn. rewrite Ho1, fmap_app in Hn.
    apply NoDup_app in Hn as (Hn & _ & _). apply NoDup_app in Hn as (_ & Hn & _).
    apply Forall_forall. intros o Hin Hoid%list_elem_of_singleton.
    apply (Hn (o_id o)); [by apply list_elem_of_fmap_2|]. rewrite Hoid. by constructor. }
  unfold login_post in Hp2. rewrite Hs2, Hoe in Hp2. by destruct Hp2 as (-> & _ & _ & -> & -> & ->).
Qed.

Lemma second_provider_joins_witness :
  let _ := toy_db in
  let r := upsertMemberFromOIDC "github:1" "A@b.c" fresh_world in
  let r2 := upsertMemberFromOIDC "google:2" "a@B.c" (mkWorld (w_db r.2) [] 9 []) in
  "0"%string = "0"%string ∧ "admin"%string = "admin"%string ∧ false = false ∧ orgs (w_db r2.2) = orgs (w_db r.2).
Proof.
  apply (@second_provider_joins toy_db toy_laws "github:1" "A@b.c" "google:2" "a@B.c" fresh_world "0" "1"
           (@upsertMemberFromOIDC toy_db "github:1" "A@b.c" fresh_world).2 9 [] []
           (@db_ok_migrated toy_db) ltac:(reflexivity) ltac:(discriminate) ltac:(reflexivity) ltac:(reflexivity)
           ("0", "2", "admin", false)%string).
  reflexivity.
Defined.

(** *** Concurrent logins

    What a login's two lookups decide, and the writes of that decision. At READ COMMITTED
    the lookups of one transaction see the database before the other's writes commit. *)
Inductive decision := Existing (m : MemberRow) | Link (org : string) | Create.

Definition login_decide (subject email : string) (d : DB) : decision :=
  match member_by_subject subject d with
  | Some m => Existing m
  | None => match org_of_email email d with Some o => Link o | None => Create end
  end.

Definition login_apply `{DBLib} (dec : decision) (subject email : string) : M login :=
  match dec with
  | Existing m => ret (m_org m, m_id m, m_role m, false)
  | Link orgID =>
      memberID ⇠ insert_member orgID email "admin" subject;
      ret (orgID, memberID, "admin"%string, false)
  | Create =>
      orgID ⇠ insert_org email "free";
      memberID ⇠ insert_member orgID email "admin" subject;
      ret (orgID, memberID, "admin"%string, true)
  end.

(** Runs without failures. *)
Section fine.

Lemma query_fine {A} (f : DB → A) w : w_faults w = [] → query f w = (Ok (f (w_db w)), w).
Proof. intros Hf. unfold query, next_fault. by rewrite Hf. Qed.

Lemma bind_ok {A B} (m : M A) (f : A → M B) w a w' : m w = (Ok a, w') → bind m f w = f a w'.
Proof. intros Hm. unfold bind. by rewrite Hm. Qed.

Lemma exec_fine {A} (f : Time → DB → option (A * DB)) w a d :
  w_faults w = [] → f (w_clock w) (w_db w) = Some (a, d) → exec f w = (Ok a, set_db w d).
Proof. intros Hf He. unfold exec, next_fault. by rewrite Hf, He. Qed.

Lemma exec_faults {A} (f : Time → DB → option (A * DB)) w :
  w_faults w = [] → w_faults (exec f w).2 = [].
Proof.
  intros Hf. unfold exec, next_fault. rewrite Hf. by destruct (f (w_clock w) (w_db w)) as [[]|].
Qed.

Lemma transaction_fine {A} (m : M A) w a w' :
  w_faults w = [] → m w = (Ok a, w') → w_faults w' = [] → transaction m w = (Ok a, w').
Proof. intros Hf Hm Hf'. unfold transaction, next_fault. by rewrite Hf, Hm, Hf'. Qed.
End fine.

Section concurrent.
Context `{DBLib}.

(** Operations that draw no fault of their own when none is left. *)
Definition quiet {A} (m : M A) : Prop := ∀ w, w_faults w = [] → w_faults (m w).2 = [].

Lemma quiet_ret {A} (a : A) : quiet (ret a).
Proof. by intros w. Qed.
Lemma quiet_bind {A B} (m : M A) (f : A → M B) : quiet m → (∀ a, quiet (f a)) → quiet (bind m f).
Proof.
  intros Hm Hf w Hw. unfold bind. specialize (Hm w Hw). destruct (m w) as [[a|e] w']; [|done].
  by apply Hf.
Qed.
Lemma quiet_exec {A} (f : Time → DB → option (A * DB)) : quiet (exec f).
Proof. intros w. apply exec_faults. Qed.

Lemma quiet_login_apply dec subject email : quiet (login_apply dec subject email).
Proof. destruct dec; cbn; repeat (apply quiet_bind; [apply quiet_exec|intros ?]); apply quiet_ret. Qed.

(** Without failures a login is its decision applied to the database it was taken on. *)
Lemma upsert_decide_apply subject email w a w' :
  w_faults w = [] →
  login_apply (login_decide subject email (w_db w)) subject email w = (Ok a, w') →
  upsertMemberFromOIDC subject email w = (Ok a, w').
Proof.
  intros Hf Ha. apply transaction_fine; [done| |].
  - rewrite (bind_ok _ _ _ _ _ (query_fine _ w Hf)). unfold login_decide in Ha.
    destruct (member_by_subject subject (w_db w)); [done|]. unfold firstLoginOrLink.
    rewrite (bind_ok _ _ _ _ _ (query_fine _ w Hf)). by destruct (org_of_email email (w_db w)).
  - pose proof (quiet_login_apply (login_decide subject email (w_db w)) subject email w Hf) as Hq.
    by rewrite Ha in Hq.
Qed.

Lemma insert_org_fine name plan w :
  w_faults w = [] →
  insert_org name plan w = (Ok (uuid (drawn (w_db w))),
    set_db w (mkDB (orgs (w_db w) ++ [mkOrg (uuid (drawn (w_db w))) name plan (w_clock w)]) (keys (w_db w))
                (members (w_db w)) (plans (w_db w)) (handshakes (w_db w)) (S (drawn (w_db w))))).
Proof. intros Hf. by apply exec_fine. Qed.

Lemma insert_member_fine org email role subject w :
  w_faults w = [] → org_exists (w_db w) org → role = "admin"%string →
  Some subject ∉ m_subject <$> members (w_db w) →
  insert_member org email role subject w = (Ok (uuid (drawn (w_db w))),
    set_db w (mkDB (orgs (w_db w)) (keys (w_db w))
                (members (w_db w) ++ [mkMemberRow (uuid (drawn (w_db w))) org email role (Some subject)])
                (plans (w_db w)) (handshakes (w_db w)) (S (drawn (w_db w))))).
Proof. intros Hf Ho Hr Hs. apply exec_fine; [done|]. rewrite bool_decide_eq_true_2; [done|auto]. Qed.

Lemma not_member subject d : member_by_subject subject d = None → Some subject ∉ m_subject <$> members d.
Proof.
  intros Hm%hd_filter_None (m & Hs & Hin)%list_elem_of_fmap. rewrite Forall_forall in Hm.
  by apply (Hm m Hin).
Qed.

Lemma create_fine subject email w :
  w_faults w = [] → member_by_subject subject (w_db w) = None →
  ∃ d', login_apply Create subject email w =
    (Ok (uuid (drawn (w_db w)), uuid (S (drawn (w_db w))), "admin"%string, true), set_db w d') ∧
    orgs d' = orgs (w_db w) ++ [mkOrg (uuid (drawn (w_db w))) email "free" (w_clock w)] ∧
    members d' = members (w_db w) ++
      [mkMemberRow (uuid (S (drawn (w_db w)))) (uuid (drawn (w_db w))) email "admin" (Some subject)] ∧
    drawn d' = S (S (drawn (w_db w))).
Proof.
  intros Hf Hm. cbn [login_apply]. rewrite (bind_ok _ _ _ _ _ (insert_org_fine email "free" w Hf)).
  set (w1 := set_db w _).
  assert (Hx : org_exists (w_db w1) (uuid (drawn (w_db w)))).
  { cbn. unfold org_exists. cbn. rewrite fmap_app. set_solver. }
  assert (Hn : Some subject ∉ m_subject <$> members (w_db w1)) by exact (not_member _ _ Hm).
  pose proof (insert_member_fine _ email "admin" subject w1 Hf Hx eq_refl Hn) as Hi.
  rewrite (bind_ok _ _ _ _ _ Hi). eexists. by split.
Qed.
End concurrent.

(** Concurrent first logins of one person split it: when two identities with the same
    address, unknown so far, log in and both transactions run their lookups before either
    has committed its inserts (nothing in the schema or the code serialises them), both
    succeed, each creating an organization of its own; run one after the other, the second
    would have joined the first. "A person keeps a single org" holds only sequentially. *)
Theorem concurrent_first_logins `{DBLaws} s1 s2 email w :
  w_faults w = [] → s1 ≠ s2 →
  login_decide s1 email (w_db w) = Create → login_decide s2 email (w_db w) = Create →
  ∃ a1 w1 a2 w2,
    login_apply (login_decide s1 email (w_db w)) s1 email w = (Ok a1, w1) ∧
    login_apply (login_decide s2 email (w_db w)) s2 email w1 = (Ok a2, w2) ∧
    a1.2 = true ∧ a2.2 = true ∧ a1.1.1.1 ≠ a2.1.1.1 ∧
    (o_name <$> orgs (w_db w2)) = (o_name <$> orgs (w_db w)) ++ [email; email] ∧
    upsertMemberFromOIDC s1 email w = (Ok a1, w1).
Proof.
  intros Hf Hne H1 H2.
  assert (Hm : ∀ s, login_decide s email (w_db w) = Create → member_by_subject s (w_db w) = None).
  { intros s. unfold login_decide. by destruct (member_by_subject s (w_db w)). }
  destruct (create_fine s1 email w Hf (Hm s1 H1)) as (d1 & E1 & Ho1 & Hm1 & Hd1).
  assert (Hm2 : member_by_subject s2 (w_db (set_db w d1)) = None).
  { cbn. unfold member_by_subject. rewrite Hm1. apply hd_filter_None, Forall_app.
    split; [exact (proj1 (hd_filter_None _ _) (Hm _ H2))|]. constructor; [|constructor]. cbn. congruence. }
  destruct (create_fine s2 email (set_db w d1) Hf Hm2) as (d2 & E2 & Ho2 & _).
  rewrite H1, H2. do 4 eexists. split; [exact E1|]. split; [exact E2|]. cbn [fst snd w_db set_db] in *.
  split_and!; [done|done| | |].
  - rewrite Hd1. intros ?%(inj uuid). lia.
  - rewrite Ho2, Ho1, !fmap_app. by rewrite <-app_assoc.
  - apply upsert_decide_apply; [done|]. by rewrite H1.
Qed.

Lemma concurrent_first_logins_witness :
  let _ := toy_db in
  ∃ a1 w1 a2 w2,
    login_apply (login_decide "github:1" "a@b.c" migrated) "github:1" "a@b.c" fresh_world = (Ok a1, w1) ∧
    login_apply (login_decide "google:2" "a@b.c" migrated) "google:2" "a@b.c" w1 = (Ok a2, w2) ∧
    a1.2 = true ∧ a2.2 = true ∧ a1.1.1.1 ≠ a2.1.1.1 ∧
    (o_name <$> orgs (w_db w2)) = (o_name <$> orgs migrated) ++ ["a@b.c"; "a@b.c"]%string ∧
    upsertMemberFromOIDC "github:1" "a@b.c" fresh_world = (Ok a1, w1).
Proof.
  apply (@concurrent_first_logins toy_db toy_laws "github:1" "google:2" "a@b.c" fresh_world);
    [reflexivity|discriminate|reflexivity|reflexivity].
Defined.

(** ** Keys: issue, resolve, revoke *)

Section keys.
Context `{DBLib}.

(** The last statement of a successful run is the insert. *)
Lemma issueKey_Ok org label w secret w1 :
  issueKey org label w = (Ok secret, w1) →
  ∃ b bs id now, w_rand w = b :: bs ∧ NewSecret b = Some secret ∧
    ¬ (hashKey secret ∈ k_hash <$> keys (w_db w)) ∧
    keys (w_db w1) = keys (w_db w) ++ [mkKeyRow id org label (hashKey secret) (last_four secret) now None].
Proof.
  unfold issueKey, bind, new_secret. destruct (w_rand w) as [|b bs] eqn:Er; [done|].
  destruct (NewSecret b) as [s|] eqn:Eb; [|done]. unfold insert_key, exec.
  set (w' := mkWorld _ _ _ bs). pose proof (next_fault_db w') as Hd. destruct (next_fault w') as [o w2].
  cbn [snd] in Hd. destruct o; [|done|]; case_bool_decide as Hc; try done.
  intros Heq. injection Heq as <- <-. destruct Hc as [_ Hh]. rewrite Hd in Hh.
  exists b, bs, (uuid (drawn (w_db w2))), (w_clock w2). cbn [w_db set_db keys]. by rewrite Hd.
Qed.

Lemma active_org_None h d : active_org h d = None ↔ Forall (λ k, ¬ (k_hash k = h ∧ is_active k)) (keys d).
Proof.
  unfold active_org. by rewrite fmap_None, hd_filter_None.
Qed.

(** Once a hash is known and inactive, it stays so. *)
Lemma inactive_kept h o w :
  h ∈ k_hash <$> keys (w_db w) → active_org h (w_db w) = None →
  h ∈ k_hash <$> keys (w_db (run_op o w)) ∧ active_org h (w_db (run_op o w)) = None.
Proof.
  intros Hin Hno.
  apply (run_op_preserves (λ d, h ∈ k_hash <$> keys d ∧ active_org h d = None) o); [..|done];
    intros; apply preserves_exec; intros now d a' d' [Hh Ha] Hf; try case_bool_decide as Hc;
    try case_decide; try done; injection Hf as _ <-; try done.
  - split; cbn [keys]; [rewrite fmap_app; set_solver|]. apply active_org_None.
    apply active_org_None in Ha. apply Forall_app. split; [done|]. constructor; [|constructor].
    cbn. intros [-> _]. by destruct Hc.
  - split; cbn [keys]; [by rewrite revoke_if_fmap|]. apply active_org_None. apply active_org_None in Ha.
    apply Forall_fmap. eapply Forall_impl; [exact Ha|]. intros k Hk. cbn. case_decide; [|done].
    cbn. intros [_ Hact]. done.
Qed.

Lemma inactive_history h l w :
  h ∈ k_hash <$> keys (w_db w) → active_org h (w_db w) = None → active_org h (w_db (run_ops w l)) = None.
Proof.
  intros Hin Hno.
  apply (run_ops_preserves (λ d, h ∈ k_hash <$> keys d ∧ active_org h d = None) l); [|done].
  intros o w' _ [? ?]. by apply inactive_kept.
Qed.

(** A successful revocation leaves no active key of that id's hash. *)
Lemma revokeKey_Ok org id w w1 k :
  db_ok (w_db w) → revokeKey org id w = (Ok tt, w1) →
  k ∈ keys (w_db w) → k_id k = id → k_org k = org →
  k_hash k ∈ k_hash <$> keys (w_db w1) ∧ active_org (k_hash k) (w_db w1) = None.
Proof.
  intros Hok Hr Hin Hid Horg. unfold revokeKey, execExpectOne, bind, update_revoked, exec in Hr.
  pose proof (next_fault_db w) as Hd. destruct (next_fault w) as [o w2]. cbn [snd] in Hd.
  destruct o; try done; cbn in Hr; try done.
  rewrite (decide_True (P := Fine = Fine)) in Hr by done. case_decide as Hz; [done|].
  injection Hr as <-. cbn.
  rewrite Hd. split; [rewrite revoke_if_fmap by done; by apply list_elem_of_fmap_2|].
  apply active_org_None. cbn [keys]. apply Forall_fmap, Forall_forall. intros k' Hk'. cbn.
  intros [Hh Ha]. destruct (decide (revokes org id k')) as [|Hn] eqn:E; [done|].
  assert (k' = k) as ->.
  { apply list_elem_of_lookup_1 in Hin as [i Hi]. apply list_elem_of_lookup_1 in Hk' as [j Hj].
    pose proof (hashes_nodup _ Hok) as Hnd.
    assert (j = i) as ->; [|congruence].
    apply (proj1 (NoDup_alt _) Hnd j i (k_hash k)); rewrite list_lookup_fmap, ?Hi, ?Hj; cbn; congruence. }
  by apply Hn.
Qed.
End keys.

(** ** The resolver's answers *)

Section resolver.
Context `{DBLib}.

(** One call: the key presented, the clock readings, and what the database would reply. *)
Record rcall := mkCall_ { rc_key : string; rc_t : clocks; rc_lookup : lookupFunc }.

Fixpoint run_resolver (r : Resolver) (l : list rcall) : list (string * bool) :=
  match l with
  | [] => []
  | x :: l => let '(a, r) := Resolve (rc_lookup x) r (rc_key x) (rc_t x) in a :: run_resolver r l
  end.

Definition call_digest (x : rcall) : option string := hashKey <$> (snd <$> Token.Decode (rc_key x)).

Definition found_answer (found : option string) : string * bool :=
  match found with Some t => (t, true) | None => (""%string, false) end.

(** Every cache entry is a reply of the database to an earlier call. *)
Definition from_replies (r : Resolver) (past : list rcall) : Prop :=
  ∀ dg e, cache r !! dg = Some e →
    ∃ y found, y ∈ past ∧ call_digest y = Some dg ∧ rc_lookup y dg = Ok found ∧
      (ce_tenant e, ce_ok e) = found_answer found ∧
      ce_expiry e = t_expiry (rc_t y) + cache_ttl (ce_ok e).

(** The answer is backed by the database now, or by a reply that has not run out; an
    error of the database without such a reply rejects. *)
Definition backed (past : list rcall) (x : rcall) (a : string * bool) : Prop :=
  match call_digest x with
  | None => a = (""%string, false)
  | Some dg =>
      (∃ y found, y ∈ past ∧ call_digest y = Some dg ∧ rc_lookup y dg = Ok found ∧ a = found_answer found ∧
         t_fresh (rc_t x) < t_expiry (rc_t y) + cache_ttl a.2) ∨
      match rc_lookup x dg with Ok found => a = found_answer found | Err _ => a = (""%string, false) end
  end.

Lemma store_entry_lookup r dg e now dg' e' :
  cache (store_entry r dg e now) !! dg' = Some e' → (dg' = dg ∧ e' = e) ∨ cache r !! dg' = Some e'.
Proof.
  unfold store_entry. cbn [cache]. intros [[<- <-]|[Hne Hl]]%lookup_insert_Some; [by left|right].
  destruct (cacheSweepThreshold <=? size (cache r))%nat; [|done].
  by apply map_lookup_filter_Some in Hl as [? _].
Qed.

Lemma Resolve_backed r past x a r' :
  from_replies r past → Resolve (rc_lookup x) r (rc_key x) (rc_t x) = (a, r') →
  backed past x a ∧ from_replies r' (past ++ [x]).
Proof.
  intros Hf. unfold Resolve, backed, call_digest.
  assert (Hmono : from_replies r (past ++ [x])).
  { intros dg e He. destruct (Hf dg e He) as (y & found & ? & ?). exists y, found. set_solver. }
  destruct (Token.Decode (rc_key x)) as [[o secret]|] eqn:Ek; cbn; [|by intros [= <- <-]].
  unfold fresh_entry. set (dg := hashKey secret).
  assert (Hmiss : match rc_lookup x dg with
                  | Ok found => let '(tenant, ok) := found_answer found in
                      (tenant, ok, store_entry r dg (mkCacheEntry tenant ok
                         (time_add (t_expiry (rc_t x)) (cache_ttl ok))) (t_sweep (rc_t x)))
                  | Err _ => (""%string, false, logDBError r (t_log (rc_t x)))
                  end = (a, r') →
    match rc_lookup x dg with Ok found => a = found_answer found | Err _ => a = (""%string, false) end ∧
    from_replies r' (past ++ [x])).
  { destruct (rc_lookup x dg) as [found|e] eqn:El.
    - intros Ha. assert (a = found_answer found) as -> by (destruct found; by injection Ha).
      split; [done|]. assert (r' = store_entry r dg (mkCacheEntry (found_answer found).1 (found_answer found).2
          (t_expiry (rc_t x) + cache_ttl (found_answer found).2)) (t_sweep (rc_t x))) as ->
        by (destruct found; by injection Ha).
      intros dg' e' [[-> ->]|Hl]%store_entry_lookup; [|by apply Hmono].
      exists x, found. split_and!; [set_solver| |done| |done].
      + unfold call_digest. by rewrite Ek.
      + by destruct found.
    - intros [= <- <-]. split; [done|]. unfold logDBError. by destruct (_ <? _). }
  destruct (cache r !! dg) as [e|] eqn:Ec; [|intros Ha; destruct (Hmiss Ha); auto].
  unfold time_after. destruct (Z.ltb_spec (t_fresh (rc_t x)) (ce_expiry e)); [|intros Ha; destruct (Hmiss Ha); auto].
  intros [= <- <-]. split; [left|done]. destruct (Hf dg e Ec) as (y & found & ? & ? & ? & ? & Hx).
  exists y, found. cbn [snd]. by rewrite <-Hx.
Qed.

Lemma run_resolver_backed l r past i x a :
  from_replies r past → l !! i = Some x → run_resolver r l !! i = Some a → backed (past ++ take i l) x a.
Proof.
  revert r past i. induction l as [|y l IH]; intros r past i Hf Hx Ha; [done|]. cbn [run_resolver] in Ha.
  destruct (Resolve (rc_lookup y) r (rc_key y) (rc_t y)) as [a' r'] eqn:E.
  destruct (Resolve_backed _ _ _ _ _ Hf E) as [Hb Hf']. destruct i as [|i]; cbn in *.
  - simplify_eq. by rewrite app_nil_r.
  - specialize (IH r' _ i Hf' Hx Ha). by rewrite <-app_assoc in IH.
Qed.

Lemma from_replies_new : from_replies newResolver [].
Proof. intros dg e. cbn. by rewrite lookup_empty. Qed.
End resolver.

Lemma let_in_backed `{DBLib} l i x t :
  l !! i = Some x → run_resolver newResolver l !! i = Some (t, true) →
  ∃ dg y, call_digest x = Some dg ∧ call_digest y = Some dg ∧ rc_lookup y dg = Ok (Some t) ∧
    (y = x ∨ y ∈ take i l ∧ t_fresh (rc_t x) < t_expiry (rc_t y) + 30 * Second).
Proof.
  intros Hx Ha. pose proof (run_resolver_backed l _ _ i x _ from_replies_new Hx Ha) as Hb.
  unfold backed in Hb. destruct (call_digest x) as [dg|] eqn:Ed; [|done]. exists dg. cbn [app] in Hb.
  destruct Hb as [(y & [t'|] & Hy & Hdg & Hl & Hf & Ht)|Hl].
  - injection Hf as <-. exists y. split_and!; [done..|]. by right.
  - done.
  - destruct (rc_lookup x dg) as [[t'|]|] eqn:El; try done. injection Hl as <-. exists x.
    split_and!; [done..|]. by left.
Qed.

(** The resolver fails closed and its staleness is bounded: in any sequence of calls,
    whatever the database replies or fails to, a call is let in as tenant [t] only if the
    database, asked for that key's digest by this call or by an earlier one stored less
    than 30 seconds before, replied that it is an active key of [t]; an undecodable key,
    or a database error without such a reply, rejects. *)
Theorem resolver_fails_closed `{DBLib} l i x t :
  l !! i = Some x → run_resolver newResolver l !! i = Some (t, true) →
  ∃ dg y, call_digest x = Some dg ∧ call_digest y = Some dg ∧ rc_lookup y dg = Ok (Some t) ∧
    (y = x ∨ y ∈ take i l ∧ t_fresh (rc_t x) < t_expiry (rc_t y) + 30 * Second).
Proof. apply let_in_backed. Qed.

Definition at_clock (n : Z) : clocks := mkClocks n n n n.

Lemma resolver_fails_closed_witness :
  let _ := toy_db in
  let l := [mkCall_ "mk_live_k" (at_clock 0) (λ _, Ok (Some "org"%string));
            mkCall_ "k" (at_clock (29 * Second)) (λ _, Err EDatabase)] in
  ∃ dg y, call_digest (mkCall_ "k" (at_clock (29 * Second)) (λ _, Err EDatabase)) = Some dg ∧
    call_digest y = Some dg ∧ rc_lookup y dg = Ok (Some "org"%string) ∧
    (y = mkCall_ "k" (at_clock (29 * Second)) (λ _, Err EDatabase) ∨
     y ∈ take 1 l ∧ 29 * Second < t_expiry (rc_t y) + 30 * Second).
Proof.
  apply (@resolver_fails_closed toy_db
    [mkCall_ "mk_live_k" (at_clock 0) (λ _, Ok (Some "org"%string));
     mkCall_ "k" (at_clock (29 * Second)) (λ _, Err EDatabase)] 1); reflexivity.
Defined.

(** The calls' lookups read the history [hist] of the database between their first clock
    reading and the one of the expiry, at most [L] later; or they fail. *)
Definition reads_history `{DBLib} (hist : Time → DB) (L : Duration) (x : rcall) : Prop :=
  t_expiry (rc_t x) ≤ t_fresh (rc_t x) + L ∧
  ∀ dg, match rc_lookup x dg with
        | Ok found => ∃ τ, t_fresh (rc_t x) ≤ τ ≤ t_expiry (rc_t x) ∧ found = active_org dg (hist τ)
        | Err _ => True
        end.

(** [C25] Revocation takes effect: when a key has been revoked at time [R], then from 30
    seconds (plus the longest a lookup can take) after [R] on, the resolver rejects it,
    whatever the cache held, whatever the operations on the store after the revocation,
    and whatever the database failures. *)
Theorem revocation_takes_effect `{DBLib} org id w w1 k hist R L l i x secret :
  db_ok (w_db w) → k ∈ keys (w_db w) → k_id k = id → k_org k = org → k_hash k = hashKey secret →
  revokeKey org id w = (Ok tt, w1) →
  (∀ τ, R ≤ τ → ∃ ops, hist τ = w_db (run_ops w1 ops)) →
  Forall (reads_history hist L) l →
  l !! i = Some x → snd <$> Token.Decode (rc_key x) = Some secret →
  R + L + 30 * Second ≤ t_fresh (rc_t x) → 0 ≤ L →
  ∃ t, run_resolver newResolver l !! i = Some (t, false).
Proof.
  intros Hok Hk Hid Horg Hh Hr Hhist Hl Hx Hs Ht HL.
  destruct (revokeKey_Ok org id w w1 k Hok Hr Hk Hid Horg) as [Hin Hno]. rewrite Hh in Hin, Hno.
  assert (Hdead : ∀ τ, R ≤ τ → active_org (hashKey secret) (hist τ) = None).
  { intros τ Hτ. destruct (Hhist τ Hτ) as [ops ->]. by apply inactive_history. }
  assert (Hlen : ∃ a, run_resolver newResolver l !! i = Some a).
  { clear -Hx. revert i Hx. generalize newResolver. induction l as [|y l IH]; intros r i Hx; [done|]. cbn.
    destruct (Resolve _ _ _ _) as [a r']. destruct i; [by exists a|]. by apply IH. }
  destruct Hlen as [[t []] Ha]; [|by exists t]. exfalso.
  destruct (let_in_backed l i x t Hx Ha) as (dg & y & Hdx & Hdy & Hly & Hy).
  unfold call_digest in Hdx. rewrite Hs in Hdx. injection Hdx as <-. rewrite Forall_forall in Hl.
  assert (Hyin : y ∈ l).
  { destruct Hy as [->|[Hy _]]; [by apply list_elem_of_lookup_2 in Hx|].
    rewrite <-(take_drop i l). apply elem_of_app. by left. }
  destruct (Hl y Hyin) as [HyL Hreads]. specialize (Hreads (hashKey secret)). rewrite Hly in Hreads.
  destruct Hreads as (τ & Hτ & Hfound). destruct (decide (R ≤ τ)) as [Hge|Hlt].
  - by rewrite (Hdead τ Hge) in Hfound.
  - unfold Second, Millisecond in *. destruct Hy as [->|[_ Hy]]; lia.
Qed.

Definition keyed_world : World :=
  let w := (@upsertMemberFromOIDC toy_db "github:1" "a@b.c" fresh_world).2 in
  (@issueKey toy_db "0" "default" w).2.
Definition toy_secret : string := b64_encode "0123456789abcdef0123456789abcdef".
Definition revoked_world : World := (revokeKey "0" "2" keyed_world).2.

Definition first_key : KeyRow := mkKeyRow "2" "0" "default" toy_secret (last_four toy_secret) 0 None.

Lemma revocation_takes_effect_witness :
  let _ := toy_db in
  ∃ t, run_resolver newResolver
    [mkCall_ toy_secret (at_clock 50) (λ dg, Ok (active_org dg (w_db keyed_world)));
     mkCall_ toy_secret (at_clock (200 + 30 * Second)) (λ dg, Ok (active_org dg (w_db revoked_world)))] !! 1%nat
    = Some (t, false).
Proof.
  apply (@revocation_takes_effect toy_db "0" "2" keyed_world revoked_world first_key
    (λ τ, if τ <? 100 then w_db keyed_world else w_db revoked_world) 100 0
    [mkCall_ toy_secret (at_clock 50) (λ dg, Ok (active_org dg (w_db keyed_world)));
     mkCall_ toy_secret (at_clock (200 + 30 * Second)) (λ dg, Ok (active_org dg (w_db revoked_world)))]
    1 (mkCall_ toy_secret (at_clock (200 + 30 * Second)) (λ dg, Ok (active_org dg (w_db revoked_world)))) toy_secret);
    try reflexivity.
  - change (@db_ok toy_db (w_db (@run_ops toy_db (mkWorld migrated [] 0 (w_rand fresh_world))
      [(OLogin "github:1" "a@b.c", 0); (OIssue "0" "default", 0)]))).
    apply (@run_ops_preserves toy_db (@db_ok toy_db)); [|apply db_ok_migrated]. intros o w _.
    apply (@control_plane_wf_step toy_db toy_laws).
  - apply (list_elem_of_lookup_2 _ 0%nat). reflexivity.
  - intros τ Hτ. exists []. rewrite (proj2 (Z.ltb_ge _ _)) by exact Hτ. reflexivity.
  - repeat constructor; try (intros H; discriminate H); intros dg; cbn.
    + exists 50. split; [lia|reflexivity].
    + exists (200 + 30 * Second). split; [lia|reflexivity].
  - cbn. lia.
Defined.

(** ** A key works from the moment it is shown *)

Section issued.
Context `{DBLib}.

Lemma hd_filter_fmap {A} (P : A → Prop) `{∀ x, Decision (P x)} (g : A → A) l x :
  hd_error (filter P l) = Some x → g x = x → (∀ y, P (g y) → P y) →
  hd_error (filter P (g <$> l)) = Some x.
Proof.
  intros Hf Hx Hg. induction l as [|y l IH]; [done|]. cbn [fmap list_fmap].
  destruct (decide (P y)) as [Hy|Hy].
  - rewrite filter_cons_True in Hf by done. injection Hf as ->.
    rewrite Hx. by rewrite filter_cons_True.
  - rewrite filter_cons_False in Hf by done. rewrite filter_cons_False by naive_solver.
    by apply IH.
Qed.

(** The digest's active key, kept by every operation but its own revocation. *)
Definition active_key (h : string) (d : DB) : option KeyRow :=
  hd_error (filter (λ k, k_hash k = h ∧ is_active k) (keys d)).

Lemma active_key_org h d : active_org h d = k_org <$> active_key h d.
Proof. done. Qed.

Definition spares (id : string) (o : op) : Prop :=
  match o with ORevoke _ id' => id' ≠ id | _ => True end.

Lemma active_kept h k o w :
  spares (k_id k) o → active_key h (w_db w) = Some k → active_key h (w_db (run_op o w)) = Some k.
Proof.
  intros Hs. apply (run_op_preserves (λ d, active_key h d = Some k) o); intros;
    apply preserves_exec; intros now d a' d' Hm Hf; try case_bool_decide; try case_decide; try done;
    injection Hf as _ <-; try done; unfold active_key in *; cbn [keys].
  - by apply hd_filter_app.
  - subst o. cbn in Hs. apply hd_filter_fmap; [done| |].
    + rewrite decide_False; [done|]. intros [? _]. congruence.
    + intros y. case_decide; [|done]. cbn. by intros [? [=]].
Qed.

Lemma active_history h k l w :
  Forall (spares (k_id k)) l.*1 → active_key h (w_db w) = Some k → active_key h (w_db (run_ops w l)) = Some k.
Proof.
  intros Hl. apply (run_ops_preserves (λ d, active_key h d = Some k)). intros o w' Ho.
  rewrite Forall_forall in Hl. by apply active_kept, Hl.
Qed.

Lemma issued_active org label w secret w1 :
  issueKey org label w = (Ok secret, w1) →
  ∃ k, active_key (hashKey secret) (w_db w1) = Some k ∧ k_org k = org.
Proof.
  intros (b & bs & id & now & _ & _ & Hn & Hk)%issueKey_Ok. unfold active_key. rewrite Hk, filter_app.
  rewrite filter_nil_all; [rewrite filter_cons_True by done; by eexists|].
  apply Forall_forall. intros k Hin [Hh _]. apply Hn. rewrite <-Hh. by apply list_elem_of_fmap_2.
Qed.

Lemma Resolve_fresh_lookup r origin secret t w k :
  Token.dotless secret → active_key (hashKey secret) (w_db w) = Some k → w_faults w = [] →
  fresh_entry r (hashKey secret) (t_fresh t) = None →
  (Resolve (poolLookup w) r (Token.Encode origin secret) t).1 = (k_org k, true).
Proof.
  intros Hd Hk Hf Hr. unfold Resolve.
  assert (∃ o, Token.Decode (Token.Encode origin secret) = Some (o, secret)) as [o ->].
  { unfold Token.Encode. case_bool_decide; [exists ""%string; by apply Decode_dotless|].
    exists origin. apply Decode_structured. by destruct Hd. }
  cbn zeta. rewrite Hr. unfold poolLookup. rewrite query_fine by done. cbn [fst].
  by rewrite active_key_org, Hk.
Qed.
End issued.

(** A key works as soon as it is issued and until it is revoked: the key shown to the
    user, wrapped with whatever collector origin, resolves to the organization it was
    issued for, at any later time and after any operations other than a revocation of that
    key, when the database answers and the resolver holds no fresh entry for it. *)
Theorem issued_key_resolves `{DBLib} org label w a b rest secret w1 l origin r t :
  w_rand w = Some (a :: b) :: rest →
  issueKey org label w = (Ok secret, w1) →
  (∀ k, active_key (hashKey secret) (w_db w1) = Some k → Forall (spares (k_id k)) l.*1) →
  w_faults (run_ops w1 l) = [] →
  fresh_entry r (hashKey secret) (t_fresh t) = None →
  (Resolve (poolLookup (run_ops w1 l)) r (Token.Encode origin secret) t).1 = (org, true).
Proof.
  intros Hrand Hi Hl Hf Hr. destruct (issued_active _ _ _ _ _ Hi) as (k & Hk & <-).
  destruct (issueKey_Ok _ _ _ _ _ Hi) as (b' & bs & _ & _ & Hb & Hs & _). rewrite Hrand in Hb.
  injection Hb as <- <-. apply Resolve_fresh_lookup; [by eapply NewSecret_dotless| |done|done].
  by apply active_history; [apply Hl|].
Qed.

Lemma issued_key_resolves_witness :
  let _ := toy_db in
  (Resolve (poolLookup (run_ops keyed_world [(ORevoke "0" "7", 5); (OLogin "google:2" "x@y.z", 6)]))
     newResolver (Token.Encode "https://maping.example" toy_secret) (at_clock 9)).1 = ("0"%string, true).
Proof.
  apply (@issued_key_resolves toy_db "0" "default"
           (@upsertMemberFromOIDC toy_db "github:1" "a@b.c" fresh_world).2 "0" (bytes_of "123456789abcdef0123456789abcdef") []
           toy_secret keyed_world); try reflexivity.
  intros k Hk. assert (k = first_key) as -> by (vm_compute in Hk; injection Hk as <-; reflexivity).
  repeat constructor. discriminate.
Defined.

(** *** Signup, end to end *)

Section rand.
Context `{DBLib}.

(** Only [new_secret] draws random bytes. *)
Definition keeps_rand {A} (m : M A) : Prop := ∀ w, w_rand (m w).2 = w_rand w.

Lemma next_fault_rand w : w_rand (next_fault w).2 = w_rand w.
Proof. unfold next_fault. by destruct (w_faults w). Qed.

Lemma keeps_rand_ret {A} (a : A) : keeps_rand (ret a).
Proof. done. Qed.
Lemma keeps_rand_bind {A B} (m : M A) (f : A → M B) :
  keeps_rand m → (∀ a, keeps_rand (f a)) → keeps_rand (bind m f).
Proof.
  intros Hm Hf w. unfold bind. specialize (Hm w). destruct (m w) as [[a|e] w']; [|done]. by rewrite Hf.
Qed.
Lemma keeps_rand_query {A} (f : DB → A) : keeps_rand (query f).
Proof. intros w. unfold query. pose proof (next_fault_rand w). by destruct (next_fault w) as [[] w']. Qed.
Lemma keeps_rand_exec {A} (f : Time → DB → option (A * DB)) : keeps_rand (exec f).
Proof.
  intros w. unfold exec. pose proof (next_fault_rand w). destruct (next_fault w) as [[] w']; [|done|];
    by destruct (f (w_clock w') (w_db w')) as [[]|].
Qed.
Lemma keeps_rand_transaction {A} (m : M A) : keeps_rand m → keeps_rand (transaction m).
Proof.
  intros Hm w. unfold transaction. pose proof (next_fault_rand w) as H1. destruct (next_fault w) as [[] w']; try done.
  specialize (Hm w'). destruct (m w') as [[a|e] w2]; cbn in *; [|congruence].
  pose proof (next_fault_rand w2) as H2. destruct (next_fault w2) as [[] w3]; cbn in *; congruence.
Qed.

Lemma upsert_rand subject email : keeps_rand (upsertMemberFromOIDC subject email).
Proof.
  unfold upsertMemberFromOIDC, firstLoginOrLink. apply keeps_rand_transaction.
  repeat first [apply keeps_rand_bind; [|intros ?] | apply keeps_rand_query | apply keeps_rand_exec
               | apply keeps_rand_ret | match goal with |- keeps_rand (match ?x with _ => _ end) => destruct x end].
Qed.
End rand.

(** [C26] Signup hands out a working key: when the OAuth callback, running against this
    control plane, answers with the key page, the token on it resolves to the organization
    the session cookie it set is for. *)
Theorem signup_key_works `{DBLib} `{MacLib} `{NetIP} a o w req now w' resp tok next origin_t r x y rest :
  handleCallback a o None w fresh_response req now = (w', resp) →
  body resp = [KeyPage tok next] →
  w_rand w = Some (x :: y) :: rest → w_faults w' = [] →
  (∀ secret, fresh_entry r (hashKey secret) (t_fresh origin_t) = None) →
  ∃ org member role,
    cookies_of (finished resp).2 =
      [cookie a sessionCookie (encode (signer a) (newSession now org member role)) (sessionMaxAge / Second)] ∧
    (Resolve (poolLookup w') r tok origin_t).1 = (org, true).
Proof.
  intros Hcb Hbody Hrand Hf Hr.
  unfold handleCallback in Hcb. destruct (providers a !! _) as [p|]; [|by injection Hcb as <- <-].
  destruct (callback_body _ _ _ _ _ _ _ _ _) as [w2 resp2] eqn:Eb. injection Hcb as <- <-.
  destruct (callback_body_page _ _ _ _ _ _ _ _ _ _ _ Eb Hbody)
    as (id & w1 & org & member & role & secret & Hu & Hi & -> & Hs & Hc).
  exists org, member, role. split; [unfold clearCookie; by rewrite SetCookie_after_sent|].
  cbn [UpsertMemberFromOIDC IssueKey control_store] in Hu, Hi. unfold as_store in Hu, Hi.
  pose proof (upsert_rand (Subject id) (Email id) w) as Hrd.
  destruct (upsertMemberFromOIDC _ _ w) as [[lg|e] w1'] eqn:Eu; [|done]. injection Hu as -> ->.
  cbn [snd] in Hrd. rewrite Hrand in Hrd.
  destruct (issueKey org "default" w1) as [[s|e] w2'] eqn:Ei; [|done]. injection Hi as -> ->.
  destruct (issued_active _ _ _ _ _ Ei) as (k & Hk & <-).
  destruct (issueKey_Ok _ _ _ _ _ Ei) as (b' & bs & _ & _ & Hb & Hns & _). rewrite Hrd in Hb.
  injection Hb as <- <-. apply Resolve_fresh_lookup; [by eapply NewSecret_dotless|done..|by apply Hr].
Qed.

Definition callback_request : Request :=
  mkRequest "/auth/github/callback"
    [(stateCookie, @sign toy_mac "key" (state_payload "github" "rnd" "/"))]
    (λ k, if decide (k = "state"%string) then "rnd"%string else "code"%string) (λ _, ""%string) (λ _, "github"%string).

Lemma signup_key_works_witness :
  let _ := toy_db in let _ := toy_mac in let _ := no_ipv6 in
  ∃ org member role,
    cookies_of (finished (handleCallback some_auth some_oauth None fresh_world fresh_response callback_request 0).2).2 =
      [cookie some_auth sessionCookie (encode (signer some_auth) (newSession 0 org member role)) (sessionMaxAge / Second)] ∧
    (Resolve (poolLookup (handleCallback some_auth some_oauth None fresh_world fresh_response callback_request 0).1)
       newResolver (Token.Encode "https://maping.example" toy_secret) (at_clock 9)).1 = (org, true).
Proof.
  apply (@signup_key_works toy_db toy_mac no_ipv6 some_auth some_oauth fresh_world callback_request 0
    (@handleCallback toy_mac no_ipv6 World (@control_store toy_db) some_auth some_oauth None fresh_world fresh_response callback_request 0).1
    (@handleCallback toy_mac no_ipv6 World (@control_store toy_db) some_auth some_oauth None fresh_world fresh_response callback_request 0).2
    (Token.Encode "https://maping.example" toy_secret) "/" (at_clock 9) newResolver
    "0" (bytes_of "123456789abcdef0123456789abcdef") []); try reflexivity.
Defined.
