(* ===== verification/Ingest.v ===== *)
(** * The ingest service (server/internal/ingest)

    Authentication of the ingest key, the guards of an upload, the timestamp policy and
    the conversion of summaries to rows. The key resolver, the rate limiter, the cap and
    payload providers and the protobuf size are inputs of the handler; the row sinks keep
    what they accepted and may refuse any row (a closed or saturated writer). *)

From Stdlib Require Import ZArith Lia Ascii Floats.
From Stdlib Require String.
From stdpp Require Import base option gmap fin_maps sets strings list.
From S2P Require Import Prelude GoFloat GoString GoTime Wire Storage Guardrail.

Local Open Scope Z_scope.

(** ** Conversion (convert.go) *)

Definition skewTolerance : Duration := 10 * Minute.

Definition statusClassName (sc : Wire.StatusClass) : string :=
  match sc with
  | SC_2XX => "STATUS_CLASS_2XX"
  | SC_3XX => "STATUS_CLASS_3XX"
  | SC_4XX => "STATUS_CLASS_4XX"
  | SC_5XX => "STATUS_CLASS_5XX"
  | SC_NO_STATUS => "STATUS_CLASS_NO_STATUS"
  | _ => "STATUS_CLASS_UNSPECIFIED"
  end.

(** [timestampDecision]: the window to store, or rejected. *)
Definition applyTimestampPolicy (startMs endMs : Z) (now : Time) : option (Time * Time) :=
  let end_ := UnixMilli endMs in
  let drift := time_sub now end_ in
  let drift := if drift <? 0 then dur_neg drift else drift in
  if skewTolerance <? drift then None else Some (UnixMilli startMs, end_).

Definition exemplarsToRows (exs : list (option Wire.Exemplar)) : list Storage.Exemplar :=
  omap (λ e, match e with
             | None => None
             | Some e => Some (Storage.mkExemplar (UnixMilli (ex_at_ms e)) (ex_duration_ns e)
                 (ex_status_code e) (ex_trace_id e) (ex_span_id e) (ex_request_id e))
             end) exs.

Record deployIdentity := mkDeploy {
  d_version : string; d_id : string; d_environment : string; d_region : string; d_start : Time;
}.

Definition instanceStartTime (ms : Z) : Time := if ms =? 0 then zero_time else UnixMilli ms.

Definition summaryToRow (tid : tenant.ID) (service instance : string) (d : deployIdentity)
  (s : option Summary) (start end_ : Time) : result string Row :=
  match s with
  | None => Err "ingest.summaryToRow: nil summary"%string
  | Some s =>
      Ok (NewRow tid service instance (sum_method s) (sum_route_template s)
            (statusClassName (sum_status_class s)) start end_
            (sum_count s) (sum_duration_ns s) (sum_req_bytes s) (sum_resp_bytes s)
            (sum_latency_sketch s) (sum_status_codes s)
            (d_version d) (d_id d) (d_environment d) (d_region d) (d_start d)
            (sum_max_duration_ns s) (exemplarsToRows (sum_exemplars s))
            (sum_error_classes s) (sum_no_status_reasons s) (sum_downstream_ns s))
  end.

Definition instanceWindowToRow (tid : tenant.ID) (service instance : string)
  (iw : option InstanceWindow) (now : Time) : option InstanceWindowRow :=
  match iw with
  | None => None
  | Some iw =>
      match applyTimestampPolicy (iw_window_start_ms iw) (iw_window_end_ms iw) now with
      | None => None
      | Some (start, end_) => Some (mkIWRow tid service instance start end_ iw)
      end
  end.

(** ** The static resolver (resolver.go) *)

Section static.
Context {digest : Type} `{EqDecision digest} (hashKey : string → digest).

Record staticKey := mkStaticKey { hash : digest; key_tenant : string }.

(** The keys in the order the map was ranged over. *)
Definition NewStaticKeyResolver (keyToTenant : list (string * string)) : list staticKey :=
  (λ kt, mkStaticKey (hashKey kt.1) kt.2) <$> keyToTenant.

(** The comparison runs over every key; the last match stands. *)
Definition Resolve (keys : list staticKey) (key : string) : option string :=
  let h := hashKey key in
  fold_left (λ found sk, if decide (h = hash sk) then Some (key_tenant sk) else found) keys None.
End static.

(** ** The handler (handler.go) *)

Inductive code := CodeUnauthenticated | CodeResourceExhausted.

Definition headers := string → string.

Definition extractKey (h : headers) : string :=
  let auth := h "Authorization"%string in
  if HasPrefix auth "Bearer " then TrimSpace (TrimPrefix auth "Bearer ")
  else TrimSpace (h "X-Maping-Key"%string).

Section handler.
Context {L : Type}.

(** [cardinality] is the guard when there is one, by what its clock reads at its calls:
    call [i] is that for the summary with [i] more to come. *)
Record Handler := mkHandler {
  resolver : string → option string;
  limiter_allow : L → string → bool * L;
  cardinality : option (nat → Time);
  cap : option (string → Z);
  payloadLimit : option (string → Z);
  proto_size : UploadRequest → Z;
  recordHandshake : option (string → string → string → string → option string);
  sink_accepts : list Row → Row → bool;
  iw_accepts : option (list InstanceWindowRow → InstanceWindowRow → bool);
}.

(** ** Its options *)

Definition Option := Handler → Handler.

Implicit Types (h : Handler).

(** A nil limiter, limit, recorder or sink is ignored, a nil guard is stored. *)
Definition WithLimiter (allow : option (L → string → bool * L)) : Option := λ h,
  match allow with
  | None => h
  | Some f => mkHandler (resolver h) f (cardinality h) (cap h) (payloadLimit h) (proto_size h)
                (recordHandshake h) (sink_accepts h) (iw_accepts h)
  end.
Definition WithCardinality (allow : option (nat → Time)) (capacity : option (string → Z)) : Option := λ h,
  mkHandler (resolver h) (limiter_allow h) allow capacity (payloadLimit h) (proto_size h)
    (recordHandshake h) (sink_accepts h) (iw_accepts h).
Definition WithPayloadLimit (limit : option (string → Z)) : Option := λ h,
  match limit with
  | None => h
  | Some f => mkHandler (resolver h) (limiter_allow h) (cardinality h) (cap h) (Some f) (proto_size h)
                (recordHandshake h) (sink_accepts h) (iw_accepts h)
  end.
Definition WithHandshakeRecorder (r : option (string → string → string → string → option string)) : Option := λ h,
  match r with
  | None => h
  | Some f => mkHandler (resolver h) (limiter_allow h) (cardinality h) (cap h) (payloadLimit h) (proto_size h)
                (Some f) (sink_accepts h) (iw_accepts h)
  end.
Definition WithInstanceWindowSink (sink : option (list InstanceWindowRow → InstanceWindowRow → bool)) : Option := λ h,
  match sink with
  | None => h
  | Some f => mkHandler (resolver h) (limiter_allow h) (cardinality h) (cap h) (payloadLimit h) (proto_size h)
                (recordHandshake h) (sink_accepts h) (Some f)
  end.

Definition defaultTenantRPS : f64 := 100%float.
Definition defaultTenantBurst : Z := 200.

(** [newTenantLimiter] builds the default limiter; [size] is [proto.Size]. *)
Definition NewHandler (newTenantLimiter : f64 → Z → L → string → bool * L) (size : UploadRequest → Z)
  (resolver : string → option string) (sink : list Row → Row → bool) (opts : list Option) : Handler :=
  fold_left (λ h opt, opt h) opts
    (mkHandler resolver (newTenantLimiter defaultTenantRPS defaultTenantBurst) None None None size None sink None).

(** What the handler's calls change: the limiter, the guard and the two sinks. *)
Record state := mkState {
  limits : L; card : Cardinality; stored : list Row; stored_iw : list InstanceWindowRow;
}.

Implicit Types (st : state).

Definition authenticate h (hdr : headers) : result code tenant.ID :=
  let key := extractKey hdr in
  if bool_decide (key = ""%string) then Err CodeUnauthenticated
  else match resolver h key with
       | None => Err CodeUnauthenticated
       | Some resolved =>
           match tenant.Parse resolved with
           | None => Err CodeUnauthenticated
           | Some tid => Ok tid
           end
       end.

(** [Register]: a failing recorder is logged and ignored; the second component says
    whether it was called. *)
Definition Register h (hdr : headers) (hs : Handshake) : result code RegisterResponse * bool :=
  match authenticate h hdr with
  | Err c => (Err c, false)
  | Ok tid => (Ok (mkRegisterResponse true ""), bool_decide (is_Some (recordHandshake h)))
  end.

Definition storeSummary h st (tid : tenant.ID) (service instance : string) (d : deployIdentity)
  (s : option Summary) (now : Time) (cardCap : Z) (more : nat) : bool * state :=
  let v := get_summary s in
  match applyTimestampPolicy (sum_window_start_ms v) (sum_window_end_ms v) now with
  | None => (false, st)
  | Some (start, end_) =>
      let '(allowed, card') :=
        match cardinality h with
        | Some guard_now =>
            let key := SeriesKey (sum_method v) (sum_route_template v) (statusClassName (sum_status_class v)) in
            let '((allowed, _), c) := Allow (card st) (guard_now more) (tenant.String tid) key cardCap in (allowed, c)
        | None => (true, card st)
        end in
      let st := mkState (limits st) card' (stored st) (stored_iw st) in
      if negb allowed then (false, st)
      else match summaryToRow tid service instance d s start end_ with
           | Err _ => (false, st)
           | Ok row =>
               if sink_accepts h (stored st) row
               then (true, mkState (limits st) (card st) (stored st ++ [row]) (stored_iw st))
               else (false, st)
           end
  end.

Fixpoint storeSummaries h st (tid : tenant.ID) (service instance : string) (d : deployIdentity)
  (summaries : list (option Summary)) (now : Time) (cardCap rejected : Z) : Z * state :=
  match summaries with
  | [] => (rejected, st)
  | s :: rest =>
      let '(ok, st) := storeSummary h st tid service instance d s now cardCap (length rest) in
      storeSummaries h st tid service instance d rest now cardCap
        (if ok then rejected else u64 (rejected + 1))
  end.

Definition payloadWithinLimit h (tid : tenant.ID) (req : UploadRequest) : bool :=
  match payloadLimit h with
  | None => true
  | Some f => let limit := f (tenant.String tid) in (limit <=? 0) || (proto_size h req <=? limit)
  end.

(** [storeInstanceWindows]: the first refusal ends the loop. *)
Fixpoint storeInstanceWindows (accepts : list InstanceWindowRow → InstanceWindowRow → bool) st
  (tid : tenant.ID) (service instance : string) (windows : list (option InstanceWindow)) (now : Time)
  : state :=
  match windows with
  | [] => st
  | iw :: rest =>
      match instanceWindowToRow tid service instance iw now with
      | None => storeInstanceWindows accepts st tid service instance rest now
      | Some row =>
          if accepts (stored_iw st) row then
            storeInstanceWindows accepts
              (mkState (limits st) (card st) (stored st) (stored_iw st ++ [row]))
              tid service instance rest now
          else st
      end
  end.

Definition Upload h st (hdr : headers) (req : UploadRequest) (now : Time)
  : result code UploadResponse * state :=
  match authenticate h hdr with
  | Err c => (Err c, st)
  | Ok tid =>
      let '(ok, l) := limiter_allow h (limits st) (tenant.String tid) in
      let st := mkState l (card st) (stored st) (stored_iw st) in
      if negb ok then (Err CodeResourceExhausted, st)
      else if negb (payloadWithinLimit h tid req) then (Err CodeResourceExhausted, st)
      else
        let env := get_envelope req in
        let service := env_service env in
        let instance := env_instance env in
        let d := mkDeploy (env_deploy_version env) (env_deploy_id env) (env_environment env)
                   (env_region env) (instanceStartTime (env_instance_start_time_ms env)) in
        let cardCap := match cap h with
                       | Some f => if cardinality h then f (tenant.String tid) else 0
                       | None => 0
                       end in
        let '(rejected, st) :=
          storeSummaries h st tid service instance d (up_summaries req) now cardCap 0 in
        let st := match iw_accepts h with
                  | None => st
                  | Some accepts =>
                      storeInstanceWindows accepts st tid service instance (up_instance_windows req) now
                  end in
        (Ok (mkUploadResponse true "" rejected), st)
  end.
End handler.
Arguments Handler : clear implicits.
Arguments Option : clear implicits.
Arguments state : clear implicits.

(** ** The timestamp policy *)

(** The skew policy, exactly: a window is kept when its end is within ten minutes of
    the server's clock on either side, with its own timestamps; one whose end is 2^63
    nanoseconds (292 years) or more in the future is kept too, because the saturated
    difference is its own opposite; every other window is dropped. *)
Theorem applyTimestampPolicy_exact startMs endMs now :
  applyTimestampPolicy startMs endMs now =
  if decide (Z.abs (now - UnixMilli endMs) ≤ skewTolerance ∨ 2 ^ 63 ≤ UnixMilli endMs - now)
  then Some (UnixMilli startMs, UnixMilli endMs) else None.
Proof.
  unfold applyTimestampPolicy. set (e := UnixMilli endMs).
  assert (Hk : skewTolerance = 600000000000) by reflexivity. rewrite Hk.
  unfold time_sub, minDuration, maxDuration, dur_neg.
  destruct (Z.ltb_spec (now - e) (- 2 ^ 63)) as [H1|H1].
  - rewrite decide_True by lia. reflexivity.
  - destruct (Z.ltb_spec (2 ^ 63 - 1) (now - e)) as [H2|H2].
    + rewrite decide_False by lia. reflexivity.
    + destruct (Z.ltb_spec (now - e) 0) as [H3|H3].
      * destruct (Z.eq_dec (now - e) (- 2 ^ 63)) as [He|Hne].
        -- rewrite He, decide_True by lia. reflexivity.
        -- rewrite i64_small by (unfold is_i64; lia).
           destruct (Z.ltb_spec 600000000000 (- (now - e)));
             [rewrite decide_False by lia | rewrite decide_True by lia]; done.
      * destruct (Z.ltb_spec 600000000000 (now - e));
          [rewrite decide_False by lia | rewrite decide_True by lia]; done.
Qed.

(** ** Uploads *)

Section upload.
Context {L : Type}.
Implicit Types (h : Handler L) (st : state L).

(** The row stored for a summary: the conversion, under the timestamps the policy kept. *)
Definition converts (tid : tenant.ID) (service instance : string) (d : deployIdentity) (now : Time)
  (s : option Summary) (r : Row) : Prop :=
  ∃ start end_, applyTimestampPolicy (sum_window_start_ms (get_summary s))
                  (sum_window_end_ms (get_summary s)) now = Some (start, end_) ∧
    summaryToRow tid service instance d s start end_ = Ok r.

(** The row stored for one of an upload's instance windows. *)
Definition converts_window (tid : tenant.ID) (service instance : string) (now : Time)
  (l : list (option InstanceWindow)) (r : InstanceWindowRow) : Prop :=
  ∃ iw, iw ∈ l ∧ instanceWindowToRow tid service instance iw now = Some r.

Lemma storeSummary_spec h st tid service instance d s now cap more ok st' :
  storeSummary h st tid service instance d s now cap more = (ok, st') →
  stored_iw st' = stored_iw st ∧
  if ok then ∃ r, converts tid service instance d now s r ∧ stored st' = stored st ++ [r]
  else stored st' = stored st.
Proof.
  unfold storeSummary, converts. intros H.
  destruct (applyTimestampPolicy _ _ now) as [[start end_]|]; [|by injection H as <- <-].
  set (guarded := match cardinality h with Some _ => _ | None => _ end) in H.
  destruct guarded as [allowed card']. destruct allowed; cbn [negb] in H; [|by injection H as <- <-].
  destruct (summaryToRow _ _ _ _ _ _ _) as [row|] eqn:Hr; [|by injection H as <- <-].
  destruct (sink_accepts h _ row); injection H as <- <-; [|done].
  split; [done|]. exists row. split; [by exists start, end_ | done].
Qed.

Lemma storeSummaries_spec h st tid service instance d l now cap rej rej' st' :
  is_u64 rej → storeSummaries h st tid service instance d l now cap rej = (rej', st') →
  ∃ kept new, stored st' = stored st ++ new ∧ stored_iw st' = stored_iw st ∧
    kept `sublist_of` l ∧ Forall2 (converts tid service instance d now) kept new ∧
    rej' = u64 (rej + Z.of_nat (length l - length new)).
Proof.
  revert st rej. induction l as [|s l IH]; intros st rej Hrej H; cbn [storeSummaries] in H.
  { injection H as <- <-. exists [], []. rewrite app_nil_r. cbn.
    rewrite Z.add_0_r, u64_small by done. auto using sublist_nil. }
  destruct (storeSummary h st tid service instance d s now cap (length l)) as [ok st1] eqn:E.
  apply storeSummary_spec in E as [Hiw E]. destruct ok.
  - destruct E as (r & Hr & Hst). destruct (IH _ _ Hrej H) as (kept & new & Hn & Hi & Hsub & Hf & ->).
    exists (s :: kept), (r :: new). rewrite Hn, Hst, Hi, Hiw, <-app_assoc.
    split; [done|]. split; [done|]. split; [by apply sublist_skip|]. split; [by constructor|].
    done.
  - destruct (IH _ _ (u64_range _) H) as (kept & new & Hn & Hi & Hsub & Hf & ->).
    exists kept, new. rewrite Hn, E, Hi, Hiw. split; [done|]. split; [done|].
    split; [by apply sublist_cons|]. split; [done|]. rewrite u64_add_l. f_equal.
    apply sublist_length in Hsub. apply Forall2_length in Hf. cbn [length]. lia.
Qed.

(** Where there is room and the sink takes everything, nothing is rejected. *)
Lemma storeSummary_stores h st tid service instance d s now cap more :
  let used st := size (default ∅ (tracked (card st) !! tenant.String tid)) in
  (∀ rows r, sink_accepts h rows r = true) → is_Some s →
  is_Some (applyTimestampPolicy (sum_window_start_ms (get_summary s)) (sum_window_end_ms (get_summary s)) now) →
  cap ≤ 0 ∨ Z.of_nat (used st) < cap →
  ∃ st', storeSummary h st tid service instance d s now cap more = (true, st') ∧ (used st' ≤ S (used st))%nat.
Proof.
  cbn zeta. intros Hsink [v ->] [[start end_] Hskew] Hroom. unfold storeSummary. cbn zeta. rewrite Hskew.
  cbn [get_summary default] in *. destruct (cardinality h) as [guard_now|].
  - pose proof (Allow_room (card st) (guard_now more) (tenant.String tid)
      (SeriesKey (sum_method v) (sum_route_template v) (statusClassName (sum_status_class v))) cap Hroom) as [Hok Hused].
    destruct (Allow _ _ _ _ _) as [[ok fr] c]. cbn [fst snd] in Hok, Hused. subst ok. cbn.
    rewrite Hsink. by eexists.
  - cbn. rewrite Hsink. eexists. split; [done|]. cbn. lia.
Qed.

Lemma storeSummaries_stores h st tid service instance d l now cap rej :
  let used st := size (default ∅ (tracked (card st) !! tenant.String tid)) in
  (∀ rows r, sink_accepts h rows r = true) →
  Forall (λ s, is_Some s ∧
    is_Some (applyTimestampPolicy (sum_window_start_ms (get_summary s)) (sum_window_end_ms (get_summary s)) now)) l →
  cap ≤ 0 ∨ Z.of_nat (used st + length l) ≤ cap →
  ∃ st' new, storeSummaries h st tid service instance d l now cap rej = (rej, st') ∧
    stored st' = stored st ++ new ∧ Forall2 (converts tid service instance d now) l new.
Proof.
  cbn zeta. intros Hsink Hl. revert st. induction Hl as [|s l [Hs Hskew] Hl IH]; intros st Hroom.
  { exists st, []. by rewrite app_nil_r. }
  cbn [storeSummaries]. cbn [length] in Hroom.
  destruct (storeSummary_stores h st tid service instance d s now cap (length l)) as (st1 & E & Hused); [done..|lia|].
  pose proof (storeSummary_spec _ _ _ _ _ _ _ _ _ _ _ _ E) as [_ (r & Hr & Hst)]. rewrite E.
  destruct (IH st1) as (st2 & new & E2 & Hst2 & Hf); [lia|].
  exists st2, (r :: new). rewrite Hst2, Hst, <-app_assoc. split; [done|]. split; [done|by constructor].
Qed.

Lemma storeInstanceWindows_spec accepts st tid service instance l now :
  let st' := storeInstanceWindows (L:=L) accepts st tid service instance l now in
  stored st' = stored st ∧ limits st' = limits st ∧
  ∃ new, stored_iw st' = stored_iw st ++ new ∧ Forall (converts_window tid service instance now l) new.
Proof.
  cbv zeta. revert st. induction l as [|iw l IH]; intros st; cbn [storeInstanceWindows].
  { split; [done|]. split; [done|]. exists []. by rewrite app_nil_r. }
  assert (Htail : ∀ r, converts_window tid service instance now l r → converts_window tid service instance now (iw :: l) r).
  { intros r (iw' & ? & ?). exists iw'. split; [by right|done]. }
  destruct (instanceWindowToRow tid service instance iw now) as [row|] eqn:E.
  - destruct (accepts (stored_iw st) row).
    + destruct (IH (mkState (limits st) (card st) (stored st) (stored_iw st ++ [row])))
        as (H1 & H2 & new & H3 & H4). rewrite H1, H2, H3. cbn. split; [done|]. split; [done|].
      exists (row :: new). rewrite <-app_assoc. split; [done|]. constructor; [|by eapply Forall_impl].
      exists iw. split; [constructor|done].
    + split; [done|]. split; [done|]. exists []. by rewrite app_nil_r.
  - destruct (IH st) as (H1 & H2 & new & H3 & H4). split; [done|]. split; [done|]. exists new.
    split; [done|]. by eapply Forall_impl.
Qed.
End upload.

(** The deploy identity of a request's envelope. *)
Definition deploy_of (env : Envelope) : deployIdentity :=
  mkDeploy (env_deploy_version env) (env_deploy_id env) (env_environment env) (env_region env)
    (instanceStartTime (env_instance_start_time_ms env)).

Lemma instanceWindowToRow_tenant tid service instance iw now r :
  instanceWindowToRow tid service instance iw now = Some r → iwr_tenant r = tid.
Proof.
  unfold instanceWindowToRow. destruct iw as [iw|]; [|done].
  destruct (applyTimestampPolicy _ _ _) as [[]|]; by intros; simplify_eq.
Qed.

Lemma Parse_nonzero s id : tenant.Parse s = Some id → tenant.IsZero id = false.
Proof.
  unfold tenant.Parse, tenant.IsZero. case_bool_decide; [done|]. intros [= <-].
  by apply bool_decide_eq_false.
Qed.

(** What an upload does, by its answer. *)
Lemma Upload_cases {L} (h : Handler L) st hdr req now :
  match Upload h st hdr req now with
  | (Err CodeUnauthenticated, st') => st' = st ∧ authenticate h hdr = Err CodeUnauthenticated
  | (Err CodeResourceExhausted, st') =>
      stored st' = stored st ∧ stored_iw st' = stored_iw st ∧ card st' = card st
  | (Ok resp, st') =>
      ∃ tid kept new new_iw, authenticate h hdr = Ok tid ∧ tenant.IsZero tid = false ∧
        stored st' = stored st ++ new ∧ stored_iw st' = stored_iw st ++ new_iw ∧
        kept `sublist_of` up_summaries req ∧
        Forall2 (converts tid (env_service (get_envelope req)) (env_instance (get_envelope req))
                   (deploy_of (get_envelope req)) now) kept new ∧
        Forall (λ r, Tenant r = tid) new ∧
        Forall (converts_window tid (env_service (get_envelope req)) (env_instance (get_envelope req)) now
                  (up_instance_windows req)) new_iw ∧
        resp_accepted resp = true ∧
        resp_rejected_summaries resp = u64 (Z.of_nat (length (up_summaries req) - length new))
  end.
Proof.
  unfold Upload. destruct (authenticate h hdr) as [tid|c] eqn:Ha.
  2: { assert (c = CodeUnauthenticated) as -> by (unfold authenticate in Ha; by repeat case_match; simplify_eq).
       done. }
  destruct (limiter_allow h (limits st) (tenant.String tid)) as [ok l].
  destruct ok; cbn [negb]; [|done].
  destruct (payloadWithinLimit h tid req); cbn [negb]; [|done].
  fold (deploy_of (get_envelope req)). set (st0 := mkState l _ _ _).
  destruct (storeSummaries _ _ _ _ _ _ _ _ _ _) as [rejected st1] eqn:Hs.
  assert (H0 : is_u64 0) by (unfold is_u64; lia).
  destruct (storeSummaries_spec _ _ _ _ _ _ _ _ _ _ _ _ H0 Hs) as (kept & new & Hst & Hiw & Hsub & Hf & ->).
  assert (Hz : tenant.IsZero tid = false).
  { unfold authenticate in Ha. destruct (bool_decide _); [done|]. destruct (resolver h _); [|done].
    destruct (tenant.Parse _) eqn:Hp; [|done]. simplify_eq. by eapply Parse_nonzero. }
  assert (Hten : Forall (λ r, Tenant r = tid) new).
  { clear -Hf. induction Hf as [|s r kept new (start & end_ & _ & Hr) _ IH]; [constructor|].
    constructor; [|done]. unfold summaryToRow in Hr. destruct s; by simplify_eq. }
  destruct (iw_accepts h) as [accepts|].
  - destruct (storeInstanceWindows_spec accepts st1 tid (env_service (get_envelope req))
      (env_instance (get_envelope req)) (up_instance_windows req) now) as (H1 & _ & niw & H3 & H4).
    exists tid, kept, new, niw. rewrite H1, H3, Hst, Hiw. by split_and!.
  - exists tid, kept, new, []. rewrite Hst, Hiw, app_nil_r. by split_and!.
Qed.

(** An upload whose key is accepted, which the limiter and the payload bound let through
    and whose summaries all have room is stored whole. *)
Lemma Upload_stores {L} (h : Handler L) st hdr req now tid l :
  authenticate h hdr = Ok tid → limiter_allow h (limits st) (tenant.String tid) = (true, l) →
  payloadWithinLimit h tid req = true → (∀ rows r, sink_accepts h rows r = true) →
  Forall (λ s, is_Some s ∧
    is_Some (applyTimestampPolicy (sum_window_start_ms (get_summary s)) (sum_window_end_ms (get_summary s)) now))
    (up_summaries req) →
  let cardCap := match cap h with Some f => if cardinality h then f (tenant.String tid) else 0 | None => 0 end in
  cardCap ≤ 0 ∨ Z.of_nat (size (default ∅ (tracked (card st) !! tenant.String tid)) + length (up_summaries req)) ≤ cardCap →
  ∃ st' new, Upload h st hdr req now = (Ok (mkUploadResponse true "" 0), st') ∧ stored st' = stored st ++ new ∧
    Forall2 (converts tid (env_service (get_envelope req)) (env_instance (get_envelope req))
               (deploy_of (get_envelope req)) now) (up_summaries req) new.
Proof.
  intros Ha Hl Hp Hsink Hin cardCap Hroom. unfold Upload. rewrite Ha, Hl. cbn [negb]. rewrite Hp. cbn [negb].
  fold (deploy_of (get_envelope req)) cardCap.
  destruct (storeSummaries_stores h (mkState l (card st) (stored st) (stored_iw st)) tid (env_service (get_envelope req))
    (env_instance (get_envelope req)) (deploy_of (get_envelope req)) (up_summaries req) now cardCap 0)
    as (st1 & new & -> & Hst & Hf); [done..|].
  destruct (iw_accepts h) as [accepts|]; [|by exists st1, new].
  eexists _, new. split; [reflexivity|]. split; [|done].
  by rewrite (proj1 (storeInstanceWindows_spec accepts st1 tid _ _ _ _)), Hst.
Qed.

(** [C38] An upload is all or nothing at the door and accounted for inside: without a key
    that resolves to a non-empty tenant nothing at all changes; a throttled or oversized
    upload stores nothing; an accepted one appends, in order, the conversions of a
    sublist of its summaries and conversions of its instance windows, every one under the
    tenant the key resolved to and the envelope's service and instance, and reports exactly
    the number of summaries it did not store. *)
Theorem Upload_accounts {L} (h : Handler L) st hdr req now :
  match Upload h st hdr req now with
  | (Err CodeUnauthenticated, st') => st' = st ∧ authenticate h hdr = Err CodeUnauthenticated
  | (Err CodeResourceExhausted, st') =>
      stored st' = stored st ∧ stored_iw st' = stored_iw st ∧ card st' = card st
  | (Ok resp, st') =>
      ∃ tid kept new new_iw, authenticate h hdr = Ok tid ∧ tenant.IsZero tid = false ∧
        stored st' = stored st ++ new ∧ stored_iw st' = stored_iw st ++ new_iw ∧
        kept `sublist_of` up_summaries req ∧
        Forall2 (converts tid (env_service (get_envelope req)) (env_instance (get_envelope req))
                   (deploy_of (get_envelope req)) now) kept new ∧
        Forall (λ r, Tenant r = tid) new ∧
        Forall (converts_window tid (env_service (get_envelope req)) (env_instance (get_envelope req)) now
                  (up_instance_windows req)) new_iw ∧
        resp_accepted resp = true ∧
        resp_rejected_summaries resp = u64 (Z.of_nat (length (up_summaries req) - length new))
  end.
Proof. exact (Upload_cases h st hdr req now). Qed.

(** The static resolver is exact: over keys with distinct digests, a presented key
    resolves to its own tenant, and a key that was not configured resolves to none,
    in whatever order the map was ranged over. *)
Theorem static_resolver_exact {digest} `{EqDecision digest} (hashKey : string → digest) kts key :
  (∀ k k', k ∈ key :: kts.*1 → k' ∈ key :: kts.*1 → hashKey k = hashKey k' → k = k') →
  NoDup kts.*1 →
  Resolve hashKey (NewStaticKeyResolver hashKey kts) key =
  (list_to_map kts : gmap string string) !! key.
Proof.
  intros Hinj Hnd.
  assert (Hg : ∀ l acc, (∀ kt, kt ∈ l → kt ∈ kts) →
    fold_left (λ found sk, if decide (hashKey key = hash sk) then Some (key_tenant sk) else found)
      (NewStaticKeyResolver hashKey l) acc =
    match list_find (λ kt, kt.1 = key) (reverse l) with Some (_, kt) => Some kt.2 | None => acc end).
  { induction l as [|[k t] l IH] using rev_ind; intros acc Hin; [done|].
    unfold NewStaticKeyResolver. rewrite fmap_app, fold_left_app, reverse_snoc. cbn.
    assert (Hk : k ∈ key :: kts.*1).
    { constructor. apply list_elem_of_fmap. exists (k, t). split; [done|]. apply Hin. set_solver. }
    destruct (decide (hashKey key = hashKey k)) as [Heq|Hne].
    - assert (key = k) as -> by (apply Hinj; [constructor | done | done]).
      by rewrite decide_True.
    - rewrite decide_False by (intros ->; done).
      fold (NewStaticKeyResolver hashKey l). rewrite IH by set_solver.
      by destruct (list_find _ (reverse l)) as [[? []]|]. }
  unfold Resolve. rewrite Hg by done.
  destruct (list_find (λ kt, kt.1 = key) (reverse kts)) as [[i [k t]]|] eqn:Ef.
  - apply list_find_Some in Ef as (Hl & Hk & _). cbn in Hk. subst k.
    symmetry. apply elem_of_list_to_map_1; [done|]. apply list_elem_of_lookup_2 in Hl.
    by rewrite elem_of_reverse in Hl.
  - symmetry. apply not_elem_of_list_to_map_1. intros ([k t] & -> & Hin)%list_elem_of_fmap.
    apply list_find_None in Ef. rewrite Forall_forall in Ef. apply (Ef (k, t)); [|done].
    by apply elem_of_reverse.
Qed.

Lemma static_resolver_exact_witness :
  Resolve id (NewStaticKeyResolver id [("k1", "org_a"); ("k2", "org_b")]%string) "k2"%string =
  Some "org_b"%string.
Proof.
  apply (static_resolver_exact id [("k1", "org_a"); ("k2", "org_b")]%string "k2"%string).
  - intros k k' _ _ Hk. exact Hk.
  - apply NoDup_cons. split; [set_solver|]. apply NoDup_singleton.
Defined.
