(* ===== verification/Format.v ===== *)
(** * Value formatting and colour classes (server/internal/web/chrome_format.go)

    The strings the dashboard prints for rates, counts, percentages, latencies and
    sizes, and the CSS class each value selects. They are evaluated on concrete
    numbers with the exact decimal formatting of GoFloat. *)

From Stdlib Require Import ZArith Lia Floats Ascii.
From Stdlib Require String.
From stdpp Require Import base strings list.
From S2P Require Import Prelude GoFloat GoString.

Local Open Scope Z_scope.
Local Open Scope f64_scope.
Local Infix "+++" := String.append (at level 60, right associativity).

(** ** Formatters *)

Definition fmtRate (r : f64) : string :=
  if r >=? 1000 then TrimSuffix (format_f (r / 1000) 1) ".0" +++ "k"
  else if r >=? 1 then format_f r 0
  else if r >? 0 then format_g r 2
  else "0".

Definition fmtCount (c : Z) : string :=
  let f := f64_of_Z c in
  if f >=? 1000000 then format_f (f / 1000000) 1 +++ "M"
  else if f >=? 1000 then format_f (f / 1000) 1 +++ "k"
  else Itoa c.

Definition fmtPctD (f : f64) : string :=
  let dec := if f >=? 0.1 then 1%nat else 2%nat in
  format_f (f * 100) dec +++ "%".

Definition fmtMsVal (sec : f64) : string :=
  let ms := sec * 1000 in
  if ms >=? 1000 then format_f (ms / 1000) 2
  else if ms <? 10 then format_f ms 1
  else format_f ms 0.

Definition fmtMsUnit (sec : f64) : string :=
  if sec * 1000 >=? 1000 then "s" else "ms".

Definition fmtMsFull (sec : f64) : string := fmtMsVal sec +++ " " +++ fmtMsUnit sec.

Definition fmtCores (c : f64) : string := format_f c 2 +++ " cores".

(** [1<<30], [1<<20] and [1<<10] as floats. *)
Definition GiB : f64 := 1073741824.
Definition MiB : f64 := 1048576.
Definition KiB : f64 := 1024.

Definition fmtBytes (avg : f64) : string :=
  if avg >=? GiB then TrimSuffix (format_f (avg / GiB) 2) ".00" +++ " GB"
  else if avg >=? MiB then TrimSuffix (format_f (avg / MiB) 1) ".0" +++ " MB"
  else if avg >=? KiB then TrimSuffix (format_f (avg / KiB) 1) ".0" +++ " KB"
  else format_f avg 0 +++ " B".

Definition fmtCompact (f : f64) : string :=
  if f >=? 1000000000 then TrimSuffix (format_f (f / 1000000000) 1) ".0" +++ "bn"
  else if f >=? 1000000 then TrimSuffix (format_f (f / 1000000) 1) ".0" +++ "M"
  else if f >=? 1000 then TrimSuffix (format_f (f / 1000) 1) ".0" +++ "k"
  else format_f f 0.

(** [memBytes] (memory.go) and [fmtRatio] (verdict.go). *)
Definition memBytes (v : Z) : string := fmtBytes (f64_of_Z v).
Definition fmtRatio (x : f64) : string := format_f x 1 +++ "×".

(** ** Colour classes *)

Definition errClass (f : f64) : string :=
  if f >=? 0.05 then "c-err" else if f >=? 0.02 then "c-warn" else "c-txt2".

Definition p99Class (sec : f64) : string :=
  if sec >=? 0.6 then "c-warn" else "c-txt2".

Definition fmtSpread (p50 p95 : f64) : string :=
  if (p50 <=? 0) || (p95 <=? 0) then "—" else format_f (p95 / p50) 2 +++ "×".

Definition spreadClass (p50 p95 : f64) : string :=
  if (p50 <=? 0) || (p95 <=? 0) then "c-txt"
  else if p95 / p50 >=? 2.5 then "c-warn" else "c-txt".

Definition healthClass (f : f64) : string :=
  if f >=? 0.05 then "dot-err" else if f >=? 0.02 then "dot-warn" else "dot-ok".

Definition methodClass (m : string) : string :=
  if bool_decide (m = "GET"%string) then "m-get"
  else if bool_decide (m = "POST"%string) then "m-post"
  else if bool_decide (m = "DELETE"%string) then "m-delete"
  else if bool_decide (m = "PUT"%string) then "m-put"
  else if bool_decide (m = "PATCH"%string) then "m-patch"
  else "m-other".

Definition codeClass (code : Z) : string :=
  (if (200 <=? code) && (code <? 300) then "c-ok"
   else if code <? 400 then "c-blue"
   else if code <? 500 then "c-warn"
   else "c-err")%Z.

Definition classBarClass (class : string) : string :=
  if bool_decide (class = "2xx"%string) then "bar-ok"
  else if bool_decide (class = "3xx"%string) then "bar-blue"
  else if bool_decide (class = "4xx"%string) then "bar-warn"
  else if bool_decide (class = "5xx"%string ∨ class = "no_status"%string) then "bar-err"
  else "bar-txt3".

(** The values the source's comments give, and the one it gets wrong: 0.285 is below
    the midpoint in binary, so the sub-1 rate prints as 0.28. *)
Example fmtRate_examples :
  (fmtRate 2103, fmtRate 903, fmtRate 0.285, fmtRate 0) = ("2.1k", "903", "0.28", "0")%string.
Proof. vm_compute. reflexivity. Qed.
Example fmtPctD_examples : (fmtPctD 0.021, fmtPctD 0.163) = ("2.10%", "16.3%")%string.
Proof. vm_compute. reflexivity. Qed.
Example fmtMsFull_examples :
  (fmtMsFull 1.18, fmtMsFull 0.002, fmtMsFull 0.088) = ("1.18 s", "2.0 ms", "88 ms")%string.
Proof. vm_compute. reflexivity. Qed.
Example fmtBytes_examples :
  (fmtBytes 128, fmtBytes 1945.6, fmtBytes 2048, memBytes (240 * 1024 * 1024)) =
  ("128 B", "1.9 KB", "2 KB", "240 MB")%string.
Proof. vm_compute. reflexivity. Qed.
Example fmtCompact_examples : (fmtCompact 4400, fmtCompact 1200000) = ("4.4k", "1.2M")%string.
Proof. vm_compute. reflexivity. Qed.
