(* ===== verification/Views.v ===== *)
(** * Rows and panels of the dashboard (server/internal/web/view.go, view_detail.go,
    view_page.go, view_debug.go, chrome.go)

    What the web layer computes from the storage aggregates: one row per service,
    endpoint, replica and version, the triage order of the endpoint table, the
    self-versus-downstream split, the onboarding steps. The aggregates are the rows
    the ClickHouse queries scan into ([storage/dashboard.go], [debug.go],
    [instancewindows.go]); their SQL is outside the model. *)

From Stdlib Require Import ZArith Lia Floats Ascii.
From Stdlib Require String.
From stdpp Require Import base option gmap strings sorting list.
From S2P Require Import Prelude GoFloat GoTime GoDate GoString Storage Format.

Local Open Scope Z_scope.
Local Open Scope go_scope.
Local Infix "+++" := String.append (at level 60, right associativity).

(** ** The storage aggregates *)

Module ServiceStat.
Record t := mk {
  Service : string; Count : Z; ErrorRate : f64; Client4xxRate : f64;
  P50 : f64; P95 : f64; P99 : f64;
}.
End ServiceStat.

Module EndpointStat.
Record t := mk {
  Method : string; Route : string; Count : Z; ErrorRate : f64; Client4xxRate : f64;
  P50 : f64; P95 : f64; P99 : f64; ReqBytesAvg : f64; RespBytesAvg : f64;
}.
End EndpointStat.

Module InstanceStat.
Record t := mk {
  Instance : string; Count : Z; ErrorRate : f64; P50 : f64; P95 : f64; P99 : f64;
  ReqBytesAvg : f64; RespBytesAvg : f64;
}.
End InstanceStat.

Module VersionStat.
Record t := mk {
  Version : string; Count : Z; ErrorRate : f64; P50 : f64; P95 : f64; P99 : f64;
}.
End VersionStat.

Module ClassLatency.
Record t := mk { Count : Z; P50 : f64; P95 : f64; P99 : f64 }.
Definition zero : t := mk 0 0 0 0.
End ClassLatency.

Module ExemplarRow.
Record t := mk {
  At : Time; DurationNs : Z; StatusCode : Z; TraceID : string; SpanID : string;
  RequestID : string;
}.
End ExemplarRow.

Module DownstreamStat.
Record t := mk { Count : Z; SumDurationNs : Z; SumDownstreamNs : Z }.
Definition zero : t := mk 0 0 0.
End DownstreamStat.

Module InstanceResourceStat.
Record t := mk {
  Instance : string; CPUNs : Z; RSSBytes : Z; HeapAllocBytes : Z; GCPauseNs : Z;
  Goroutines : Z; NumGC : Z; TotalAllocBytes : Z; Mallocs : Z; GCCPUFraction : f64;
  HeapInuseBytes : Z; GOMAXPROCS : Z; PostGCHeapBytes : Z; RSSTrueBytes : Z; OpenFDs : Z;
  FDLimit : Z; InFlight : Z;
}.
End InstanceResourceStat.

Module TimePoint.
Record t := mk {
  TS : Time; Count : Z; ErrorRate : f64; P50 : f64; P95 : f64; P99 : f64;
}.
End TimePoint.

Module MemoryTrendPoint.
Record t := mk { TS : Time; PostGCHeapBytes : Z; HeapInuseBytes : Z }.
End MemoryTrendPoint.

Module PerformanceStat.
Record t := mk { Requests : Z; Summaries : Z; SummaryDiskBytes : Z }.
Definition zero : t := mk 0 0 0.
End PerformanceStat.

Record ErrorClassStat := mkErrorClassStat { ecsClass : string; ecsCount : Z }.
Record NoStatusReasonStat := mkNoStatusReasonStat { nsrReason : Z; nsrCount : Z }.

(** ** Shared helpers *)

(** [d.Seconds()]: whole seconds and the rest, each rounded once. *)
Definition Seconds (d : Duration) : f64 :=
  (f64_of_Z (Z.quot d Second) + f64_of_Z (Z.rem d Second) / 1e9)%float.

(** [sort.Float64s]: ascending, NaN first. *)
Definition float_less (x y : f64) : bool := (x <? y)%float || (is_nan x && negb (is_nan y)).
Definition Float64s (l : list f64) : list f64 := sort_stable float_less l.

(** [median] (verdict.go) indexes its argument: an empty slice panics. *)
Definition median (sorted : list f64) : outcome f64 :=
  let n := length sorted in
  let at_ (i : nat) : outcome f64 :=
    match sorted !! i with Some x => Ret x | None => Panic "index out of range" end in
  if Nat.odd n then at_ (n / 2)%nat
  else
    match n with
    | O => Panic "index out of range [-1]"
    | _ => let! a := at_ (n / 2 - 1)%nat in let! b := at_ (n / 2)%nat in Ret ((a + b) / 2)%float
    end.

Definition errorRateWarn : f64 := 0.05%float.

Definition ratePerSec (count : Z) (w : Duration) : f64 :=
  let secs := Seconds w in
  if (secs <=? 0)%float then 0%float else (f64_of_Z count / secs)%float.

(** ** The window switcher (chrome.go) *)

Definition windowKeys : list string := ["5m"; "1h"; "24h"].
Definition windowDur : gmap string Duration :=
  {[ "5m" := 5 * Minute; "1h" := Hour; "24h" := 24 * Hour ]}.
Definition windowText : gmap string string :=
  {[ "5m" := "5 min"; "1h" := "1 hour"; "24h" := "24 hours" ]}.

Definition normalizeWindow (raw : string) : string :=
  match windowDur !! raw with Some _ => raw | None => "1h" end.

Definition windowRange (now : Time) (d : Duration) : Time * Time := (time_add now (- d), now).

(** [withWin]: the separator depends on whether the link already has a query. *)
Definition withWin (href winKey : string) : string :=
  if bool_decide (winKey = ""%string) then href
  else
    let sep := if IndexByte href "?" then "&" else "?" in
    href +++ sep +++ "win=" +++ winKey.

Record navItem := mkNav {
  nLabel : string; nIcon : string; nHref : string; nBadge : string; nActive : bool;
}.

Definition navKey : gmap string string :=
  {[ "Services" := "overview"; "Performance" := "performance"; "Setup" := "setup";
     "Documentation" := "docs" ]}.

Definition buildNav (active winKey : string) : list navItem :=
  (λ '(mkNav l i h b _), mkNav l i h b (bool_decide (default "" (navKey !! l) = active))) <$>
  [ mkNav "Services" "▦" (withWin "/" winKey) "" false;
    mkNav "Performance" "◈" (withWin "/performance" winKey) "" false;
    mkNav "Setup" "✦" (withWin "/setup" winKey) "" false;
    mkNav "Documentation" "❖" "/doc" "" false ].

(** ** The service overview and the endpoint table (view.go) *)

Definition sortTraffic : string := "traffic".
Definition sortError : string := "error".
Definition sortP99 : string := "p99".

Definition normalizeSort (raw : string) : string :=
  if bool_decide (raw = sortError) then sortError
  else if bool_decide (raw = sortP99) then sortP99
  else sortTraffic.

Module serviceRow.
Record t := mk {
  Service : string; Count : Z; RatePerSec : f64; ErrorRate : f64; ErrorHigh : bool;
  Client4xxRate : f64; P50 : f64; P95 : f64; P99 : f64; DrillHref : string;
}.
End serviceRow.

Definition drillHref (s : ServiceStat.t) (winKey : string) : string :=
  let href := "/services/" +++ ServiceStat.Service s in
  let href := if bool_decide (healthClass (ServiceStat.ErrorRate s) ≠ "dot-ok"%string)
              then href +++ "?sort=" +++ sortError else href in
  withWin href winKey.

Definition toServiceRows (stats : list ServiceStat.t) (w : Duration) (winKey : string) :
  list serviceRow.t :=
  (λ s, serviceRow.mk (ServiceStat.Service s) (ServiceStat.Count s)
      (ratePerSec (ServiceStat.Count s) w) (ServiceStat.ErrorRate s)
      (errorRateWarn <=? ServiceStat.ErrorRate s)%float (ServiceStat.Client4xxRate s)
      (ServiceStat.P50 s) (ServiceStat.P95 s) (ServiceStat.P99 s) (drillHref s winKey)) <$> stats.

Module endpointRow.
Record t := mk {
  Method : string; Route : string; Count : Z; RatePerSec : f64; ErrorRate : f64;
  ErrorHigh : bool; Client4xxRate : f64; P50 : f64; P95 : f64; P99 : f64;
  ReqBytesAvg : f64; RespBytesAvg : f64;
}.
End endpointRow.

Definition toEndpointRows (stats : list EndpointStat.t) (w : Duration) : list endpointRow.t :=
  (λ e, endpointRow.mk (EndpointStat.Method e) (EndpointStat.Route e) (EndpointStat.Count e)
      (ratePerSec (EndpointStat.Count e) w) (EndpointStat.ErrorRate e)
      (errorRateWarn <=? EndpointStat.ErrorRate e)%float (EndpointStat.Client4xxRate e)
      (EndpointStat.P50 e) (EndpointStat.P95 e) (EndpointStat.P99 e)
      (EndpointStat.ReqBytesAvg e) (EndpointStat.RespBytesAvg e)) <$> stats.

(** The order of [sortEndpointRows]: the key descending, then the route ascending.
    Two floats that differ are compared by [>] alone. *)
Definition endpoint_less (key : string) (a b : endpointRow.t) : bool :=
  let by_route := String.ltb (endpointRow.Route a) (endpointRow.Route b) in
  let by_float (f : endpointRow.t → f64) :=
    if (f a =? f b)%float then by_route else (f b <? f a)%float in
  if bool_decide (key = sortError) then by_float endpointRow.ErrorRate
  else if bool_decide (key = sortP99) then by_float endpointRow.P99
  else if negb (endpointRow.Count a =? endpointRow.Count b)
       then endpointRow.Count b <? endpointRow.Count a else by_route.

Definition sortEndpointRows (rows : list endpointRow.t) (key : string) : list endpointRow.t :=
  sort_stable (endpoint_less key) rows.

(** ** Metric cards (chrome.go) *)

Record kpi := mkKpi {
  kLabel : string; kValue : string; kUnit : string; kSub : string; kColorClass : string;
}.

(** The traffic-weighted error rate of a list of (rate, error rate) pairs. *)
Definition weighted (l : list (f64 * f64)) : f64 * f64 :=
  let '(totalRate, errNum) :=
    fold_left (λ '(t, e) '(rate, err), (t + rate, e + err * rate)%float) l (0%float, 0%float) in
  (totalRate, if (0 <? totalRate)%float then (errNum / totalRate)%float else 0%float).

Definition overviewKPIs (rows : list serviceRow.t) (winLabel : string) : list kpi :=
  let '(totalRate, wErr) :=
    weighted ((λ s, (serviceRow.RatePerSec s, serviceRow.ErrorRate s)) <$> rows) in
  let totalCount := fold_left (λ c s, u64 (c + serviceRow.Count s)) rows 0 in
  let worstP99 :=
    fold_left (λ m s, if (m <? serviceRow.P99 s)%float then serviceRow.P99 s else m) rows 0%float in
  [ mkKpi "TOTAL TRAFFIC" (fmtRate totalRate) "req/s"
      ("across " +++ Itoa (Z.of_nat (length rows)) +++ " services") "c-txt";
    mkKpi ("REQUESTS (" +++ winLabel +++ ")") (fmtCount totalCount) "" "" "c-txt";
    mkKpi "ERROR RATE" (fmtPctD wErr) "" "" (errClass wErr);
    mkKpi "WORST p99" (fmtMsVal worstP99) (fmtMsUnit worstP99) "" (p99Class worstP99) ].

Definition endpointKPIs (rows : list endpointRow.t) : list kpi :=
  let '(totalRate, wErr) :=
    weighted ((λ e, (endpointRow.RatePerSec e, endpointRow.ErrorRate e)) <$> rows) in
  [ mkKpi "ENDPOINTS" (Itoa (Z.of_nat (length rows))) "" "" "c-txt";
    mkKpi "TRAFFIC" (fmtRate totalRate) "req/s" "" "c-txt";
    mkKpi "ERROR RATE" (fmtPctD wErr) "" "" (errClass wErr) ].

(** ** The endpoint detail (view_detail.go) *)

Record statusClassView := mkStatusClass { scvClass : string; scvCount : Z; scvIsError : bool }.
Record statusCodeView := mkStatusCode { scoCode : Z; scoCount : Z }.

Record detailView := mkDetailView {
  dvCount : Z; dvErrorRate : f64; dvErrorHigh : bool; dvP50 : f64; dvP95 : f64; dvP99 : f64;
  dvClasses : list statusClassView; dvCodes : list statusCodeView;
}.

Definition errorClasses : gset string := {[ "4xx"; "5xx"; "no_status" ]}.

Definition toDetailView (d : EndpointDetail) : detailView :=
  mkDetailView (dCount d) (dErrorRate d) (errorRateWarn <=? dErrorRate d)%float
    (dP50 d) (dP95 d) (dP99 d)
    ((λ c, mkStatusClass (scClass c) (scCount c) (bool_decide (scClass c ∈ errorClasses))) <$>
       dStatusClasses d)
    (sort_stable (λ a b, scoCode a <? scoCode b)
       ((λ kc, mkStatusCode kc.1 kc.2) <$> map_to_list (dStatusCodes d))).

Definition detailStats (d : detailView) (winSeconds : f64) : list kpi :=
  let rate := if (0 <? winSeconds)%float then (f64_of_Z (dvCount d) / winSeconds)%float
              else 0%float in
  [ mkKpi "RATE" (fmtRate rate) "req/s" "" "c-txt";
    mkKpi "ERROR RATE" (fmtPctD (dvErrorRate d)) "" "" (errClass (dvErrorRate d));
    mkKpi "p50" (fmtMsVal (dvP50 d)) (fmtMsUnit (dvP50 d)) "" "c-txt";
    mkKpi "p95" (fmtMsVal (dvP95 d)) (fmtMsUnit (dvP95 d)) "" "c-txt";
    mkKpi "SPREAD" (fmtSpread (dvP50 d) (dvP95 d)) "" "" (spreadClass (dvP50 d) (dvP95 d)) ].

Record statusBar := mkStatusBar {
  sbLabel : string; sbCount : Z; sbPct : string; sbLabelClass : string; sbBarClass : string;
}.

Definition statusBarsFor (d : detailView) : list statusBar :=
  (λ c, let pct := if 0 <? dvCount d
                   then (f64_of_Z (scvCount c) / f64_of_Z (dvCount d) * 100)%float else 0%float in
        mkStatusBar (scvClass c) (scvCount c) (format_f pct 1 +++ "%")
          (if scvIsError c then "c-txt" else "c-txt2") (classBarClass (scvClass c))) <$> dvClasses d.

(** Replicas. A trafficked replica is one with a request in the window. *)

Module instanceStatRow.
Record t := mk {
  Instance : string; Count : Z; ErrorRate : f64; ErrorHigh : bool; P50 : f64; P95 : f64;
  P99 : f64; ReqBytesAvg : f64; RespBytesAvg : f64; IsOutlier : bool;
}.
End instanceStatRow.

Definition p95OutlierFloor : f64 := 0.1%float.

Definition trafficked_p95s (stats : list InstanceStat.t) : list f64 :=
  InstanceStat.P95 <$> filter (λ s, 0 < InstanceStat.Count s) stats.

Definition isOutlier (p95s : list f64) (med p95 : f64) : bool :=
  (2 <=? length p95s)%nat && (2 * med <=? p95)%float && (p95OutlierFloor <=? p95)%float.

Definition toInstanceRows (stats : list InstanceStat.t) : outcome (list instanceStatRow.t) :=
  let p95s := trafficked_p95s stats in
  let! med := match p95s with [] => Ret 0%float | _ => median (Float64s p95s) end in
  Ret ((λ s, instanceStatRow.mk (InstanceStat.Instance s) (InstanceStat.Count s)
          (InstanceStat.ErrorRate s) (errorRateWarn <=? InstanceStat.ErrorRate s)%float
          (InstanceStat.P50 s) (InstanceStat.P95 s) (InstanceStat.P99 s)
          (InstanceStat.ReqBytesAvg s) (InstanceStat.RespBytesAvg s)
          (isOutlier p95s med (InstanceStat.P95 s))) <$> stats).

(** Versions. The empty version is skipped everywhere. *)

Module versionRow.
Record t := mk {
  Version : string; Count : Z; ErrorRate : f64; ErrorHigh : bool; P50 : f64; P95 : f64; P99 : f64;
}.
End versionRow.

Definition named (s : VersionStat.t) : Prop := VersionStat.Version s ≠ ""%string.
#[export] Instance named_dec s : Decision (named s).
Proof. unfold named. apply _. Defined.

Definition toVersionRows (stats : list VersionStat.t) : list versionRow.t :=
  (λ s, versionRow.mk (VersionStat.Version s) (VersionStat.Count s) (VersionStat.ErrorRate s)
      (errorRateWarn <=? VersionStat.ErrorRate s)%float
      (VersionStat.P50 s) (VersionStat.P95 s) (VersionStat.P99 s)) <$> filter named stats.

(** The scan both dominant-value functions share: the first element of maximal
    positive count among those that qualify, or the empty string. *)
Definition dominant {A} (ok : A → bool) (name : A → string) (count : A → Z) (l : list A) :
  string * Z :=
  fold_left (λ '(best, bestCount) a,
    if ok a && (bestCount <? count a) then (name a, count a) else (best, bestCount)) l (""%string, 0).

Definition dominantVersion (stats : list VersionStat.t) : string :=
  (dominant (λ s, bool_decide (named s)) VersionStat.Version VersionStat.Count stats).1.

(** Exemplars. *)

Module exemplarRow.
Record t := mk {
  Time : string; StatusCode : Z; Latency : f64; FullTrace : string; ShortTrace : string;
  FullReq : string; ShortReq : string;
}.
End exemplarRow.

Definition idTruncLen : nat := 12.

Definition truncID (id : string) : string :=
  if bool_decide (id = ""%string) then ""
  else if (String.length id <=? idTruncLen)%nat then id
  else str_take idTruncLen id +++ "…".

Definition toExemplarRows (exemplars : list ExemplarRow.t) : list exemplarRow.t :=
  (λ e, exemplarRow.mk (format_hms (ExemplarRow.At e)) (ExemplarRow.StatusCode e)
      (f64_of_Z (ExemplarRow.DurationNs e) / 1e9)%float
      (ExemplarRow.TraceID e) (truncID (ExemplarRow.TraceID e))
      (ExemplarRow.RequestID e) (truncID (ExemplarRow.RequestID e))) <$> exemplars.

(** The latency split by status class, in the fixed order of the labels. *)

Module classLatencyRow.
Record t := mk { Class_ : string; Count : Z; P50 : f64; P95 : f64; P99 : f64 }.
End classLatencyRow.

Definition statusClassLabels : list (string * string) :=
  [ ("STATUS_CLASS_2XX", "2xx"); ("STATUS_CLASS_3XX", "3xx"); ("STATUS_CLASS_4XX", "4xx");
    ("STATUS_CLASS_5XX", "5xx"); ("STATUS_CLASS_NO_STATUS", "no_status") ].

Definition toClassLatencyRows (byClass : gmap string ClassLatency.t) : list classLatencyRow.t :=
  omap (λ '(key, label),
    let cl := default ClassLatency.zero (byClass !! key) in
    if ClassLatency.Count cl =? 0 then None
    else Some (classLatencyRow.mk label (ClassLatency.Count cl)
           (ClassLatency.P50 cl) (ClassLatency.P95 cl) (ClassLatency.P99 cl))) statusClassLabels.

Definition toErrorClassRows (stats : list ErrorClassStat) : list (string * Z) :=
  (λ s, (ecsClass s, ecsCount s)) <$> stats.

Definition noStatusReasonLabels : gmap Z string :=
  {[ 0 := "unspecified"; 1 := "context canceled"; 2 := "context deadline"; 3 := "write error";
     4 := "panic"; 5 := "other" ]}.

Definition toNoStatusReasonRows (stats : list NoStatusReasonStat) : list (string * Z) :=
  (λ s, (default "other" (noStatusReasonLabels !! nsrReason s), nsrCount s)) <$> stats.

(** Self time versus downstream time: the downstream sum is clamped to the total. *)

Record downstreamView := mkDownstreamView {
  HasData : bool; SelfSeconds : f64; DownSeconds : f64; SelfWidth : string; DownWidth : string;
  DownFraction : f64;
}.
Definition no_downstream : downstreamView := mkDownstreamView false 0 0 "" "" 0.

Definition toDownstreamView (s : DownstreamStat.t) : downstreamView :=
  if (DownstreamStat.Count s =? 0) || (DownstreamStat.SumDownstreamNs s =? 0) then no_downstream
  else
    let total := DownstreamStat.SumDurationNs s in
    let down := DownstreamStat.SumDownstreamNs s in
    let down := if total <? down then total else down in
    let self := u64 (total - down) in
    let frac := if 0 <? total then (f64_of_Z down / f64_of_Z total)%float else 0%float in
    let downPct := (frac * 100)%float in
    let count := f64_of_Z (DownstreamStat.Count s) in
    mkDownstreamView true
      (f64_of_Z self / count / 1e9)%float (f64_of_Z down / count / 1e9)%float
      (format_f (100 - downPct)%float 1 +++ "%") (format_f downPct 1 +++ "%") frac.

(** Saturation: summed deltas become rates over the window. *)

Record resourceRow := mkResourceRow {
  rrInstance : string; CoresUsed : f64; GCShare : f64; RSSBytes_ : f64; HeapBytes : f64;
  Goroutines_ : Z; GCFreq : f64; GCCPUFraction_ : f64; AllocRate : f64; AvgAllocSize : f64;
  PostGCHeap : f64; TrueRSSBytes : f64; HasTrueRSS : bool; OpenFDs_ : Z; FDLimit_ : Z;
  HasFDLimit : bool; InFlight_ : Z;
}.

Section resources.
Import InstanceResourceStat.
Definition resource_row (winSeconds : f64) (s : InstanceResourceStat.t) : resourceRow :=
  let on := (0 <? winSeconds)%float in
  let winNs := (winSeconds * 1e9)%float in
  let rate (x : Z) (w : f64) : f64 := if on then (f64_of_Z x / w)%float else 0%float in
  let gcShare := rate (GCPauseNs s) winNs in
  let gcShare := if on && (1 <? gcShare)%float then 1%float else gcShare in
  mkResourceRow (Instance s) (rate (CPUNs s) winNs) gcShare (f64_of_Z (RSSBytes s))
    (f64_of_Z (HeapAllocBytes s)) (Goroutines s) (rate (NumGC s) winSeconds) (GCCPUFraction s)
    (rate (TotalAllocBytes s) winSeconds)
    (if 0 <? Mallocs s then (f64_of_Z (TotalAllocBytes s) / f64_of_Z (Mallocs s))%float else 0%float)
    (f64_of_Z (PostGCHeapBytes s)) (f64_of_Z (RSSTrueBytes s)) (0 <? RSSTrueBytes s)
    (OpenFDs s) (FDLimit s) (0 <? FDLimit s) (InFlight s).

Definition toResourceRows (stats : list InstanceResourceStat.t) (winSeconds : f64) :
  list resourceRow := resource_row winSeconds <$> stats.
End resources.

(** ** The endpoint table is in triage order *)

(** [a] may stand before [b]: its metric is at least as large, and between equal metrics
    its route is not the later one. *)
Definition ranked (key : string) (a b : endpointRow.t) : Prop :=
  let by_route := String.ltb (endpointRow.Route b) (endpointRow.Route a) = false in
  let by_float (f : endpointRow.t → f64) :=
    (f b <=? f a)%float = true ∧ ((f b =? f a)%float = true → by_route) in
  if bool_decide (key = sortError) then by_float endpointRow.ErrorRate
  else if bool_decide (key = sortP99) then by_float endpointRow.P99
  else endpointRow.Count b ≤ endpointRow.Count a ∧
       (endpointRow.Count b = endpointRow.Count a → by_route).

Definition measured (r : endpointRow.t) : Prop :=
  is_nan (endpointRow.ErrorRate r) = false ∧ is_nan (endpointRow.P99 r) = false.

(** A descending number, then an ascending string. *)
Section lexicographic.
Context (f : endpointRow.t → f64).
Definition float_route_less (a b : endpointRow.t) : bool :=
  if (f a =? f b)%float then String.ltb (endpointRow.Route a) (endpointRow.Route b)
  else (f b <? f a)%float.

Lemma float_route_nless a b :
  is_nan (f a) = false → is_nan (f b) = false →
  float_route_less b a = false ↔
  (f b <=? f a)%float = true ∧
  ((f b =? f a)%float = true → String.ltb (endpointRow.Route b) (endpointRow.Route a) = false).
Proof.
  intros Ha Hb. unfold float_route_less. rewrite eqb_leb.
  rewrite (leb_nltb (f b) (f a)), (leb_nltb (f a) (f b)) by done.
  destruct (f a <? f b)%float eqn:E1, (f b <? f a)%float eqn:E2; simpl; try naive_solver.
Qed.

Lemma float_route_asym a b :
  is_nan (f a) = false → is_nan (f b) = false →
  float_route_less a b = true → float_route_less b a = false.
Proof.
  intros Ha Hb. unfold float_route_less. rewrite !eqb_leb, !leb_nltb by done.
  destruct (f a <? f b)%float eqn:E1, (f b <? f a)%float eqn:E2; simpl; try done.
  - by rewrite (ltb_asym _ _ E1) in E2.
  - apply str_ltb_asym.
Qed.

Lemma float_route_trans a b c :
  is_nan (f a) = false → is_nan (f b) = false → is_nan (f c) = false →
  float_route_less b a = false → float_route_less c b = false → float_route_less c a = false.
Proof.
  intros Ha Hb Hc. rewrite !float_route_nless by done.
  intros [H1 R1] [H2 R2]. split; [by eapply leb_trans|].
  rewrite eqb_leb. intros [_ H3]%andb_true_iff.
  eapply str_nltb_trans; [apply R1 | apply R2]; rewrite eqb_leb; apply andb_true_iff;
    split; try done; by eapply leb_trans.
Qed.
End lexicographic.

Lemma endpoint_less_cases key a b :
  endpoint_less key a b =
  if bool_decide (key = sortError) then float_route_less endpointRow.ErrorRate a b
  else if bool_decide (key = sortP99) then float_route_less endpointRow.P99 a b
  else if endpointRow.Count a =? endpointRow.Count b
       then String.ltb (endpointRow.Route a) (endpointRow.Route b)
       else endpointRow.Count b <? endpointRow.Count a.
Proof. unfold endpoint_less. by destruct (endpointRow.Count a =? endpointRow.Count b). Qed.

Lemma endpoint_less_asym key a b :
  measured a → measured b → endpoint_less key a b = true → endpoint_less key b a = false.
Proof.
  intros [] []. rewrite !endpoint_less_cases.
  do 2 (case_bool_decide; [by apply float_route_asym|]).
  destruct (Z.eqb_spec (endpointRow.Count a) (endpointRow.Count b)),
    (Z.eqb_spec (endpointRow.Count b) (endpointRow.Count a)); try lia. apply str_ltb_asym.
Qed.

Lemma endpoint_nless_trans key a b c :
  measured a → measured b → measured c →
  endpoint_less key b a = false → endpoint_less key c b = false → endpoint_less key c a = false.
Proof.
  intros [] [] []. rewrite !endpoint_less_cases.
  do 2 (case_bool_decide; [by apply float_route_trans|]).
  destruct (Z.eqb_spec (endpointRow.Count b) (endpointRow.Count a)),
    (Z.eqb_spec (endpointRow.Count c) (endpointRow.Count b)),
    (Z.eqb_spec (endpointRow.Count c) (endpointRow.Count a)); try lia. apply str_nltb_trans.
Qed.

Lemma endpoint_nless_ranked key a b :
  measured a → measured b → endpoint_less key b a = false → ranked key a b.
Proof.
  intros [] []. rewrite endpoint_less_cases. unfold ranked.
  do 2 (case_bool_decide; [by apply float_route_nless|]).
  destruct (Z.eqb_spec (endpointRow.Count b) (endpointRow.Count a)).
  - intros. split; [lia | done].
  - intros ?%Z.ltb_ge. split; [lia | done].
Qed.

Lemma StronglySorted_impl_on {A} (P : A → Prop) (R S : A → A → Prop) l :
  (∀ x y, P x → P y → R x y → S x y) → Forall P l → StronglySorted R l → StronglySorted S l.
Proof.
  intros HRS Hl Hs. induction Hs as [|x l Hs IH Hx]; [constructor|].
  apply Forall_cons in Hl as [Hx' Hl]. constructor; [by apply IH|].
  rewrite Forall_forall in *. eauto.
Qed.

(** The endpoint table shows every endpoint once, in triage order, whatever the sort
    parameter: the raw value selects one of the three known keys (traffic for anything
    unknown), a row never follows one with a smaller metric, and rows with the same metric
    are in the order of their routes. No measured value is NaN. *)
Theorem endpoint_table_triage_order rows raw :
  Forall measured rows →
  let key := normalizeSort raw in
  (key = sortTraffic ∨ key = sortError ∨ key = sortP99) ∧
  sortEndpointRows rows key ≡ₚ rows ∧
  StronglySorted (ranked key) (sortEndpointRows rows key).
Proof.
  intros Hrows key. split; [|split].
  - subst key. unfold normalizeSort. do 2 (case_bool_decide; auto).
  - apply sort_stable_perm.
  - eapply (StronglySorted_impl_on measured); [|unfold sortEndpointRows; by rewrite sort_stable_perm|].
    + intros x y Hx Hy. by apply endpoint_nless_ranked.
    + apply (sort_stable_sorted_on _ measured); [..|done].
      * apply endpoint_less_asym.
      * apply endpoint_nless_trans.
Qed.

Definition sample_rows : list endpointRow.t :=
  toEndpointRows
    [ EndpointStat.mk "GET" "/b" 10 0.5 0 0.01 0.02 0.03 100 200;
      EndpointStat.mk "GET" "/a" 10 0.5 0 0.01 0.02 0.03 100 200;
      EndpointStat.mk "POST" "/c" 90 0.01 0 0.01 0.02 0.9 100 200 ] Hour.

Lemma endpoint_table_triage_order_witness :
  endpointRow.Route <$> sortEndpointRows sample_rows (normalizeSort "error") = ["/a"; "/b"; "/c"] ∧
  sortEndpointRows sample_rows (normalizeSort "error") ≡ₚ sample_rows.
Proof.
  split; [vm_compute; reflexivity|].
  apply (endpoint_table_triage_order sample_rows "error").
  repeat constructor; vm_compute; reflexivity.
Defined.

(** ** Dominant values *)

(** The scan's answer: nothing with a positive count, or the first element of maximal
    count among those that qualify. *)
Lemma dominant_spec {A} (ok : A → bool) (name : A → string) (count : A → Z) l :
  let '(n, c) := dominant ok name count l in
  (∀ b, b ∈ l → ok b = true → count b ≤ c) ∧
  ((n = ""%string ∧ c = 0) ∨
   ∃ l1 a l2, l = l1 ++ a :: l2 ∧ ok a = true ∧ name a = n ∧ count a = c ∧ 0 < c ∧
              ∀ b, b ∈ l1 → ok b = true → count b < c).
Proof.
  unfold dominant. induction l as [|x l IH] using rev_ind.
  - simpl. split; [by intros ? ?%elem_of_nil | by left].
  - rewrite fold_left_app. simpl. destruct (fold_left _ l _) as [n c] eqn:E.
    destruct IH as [Hmax Hwho].
    assert (Hc : 0 ≤ c) by (destruct Hwho as [[_ ->]|(?&?&?&?&?&?&?&?&?)]; lia).
    destruct (ok x && (c <? count x)) eqn:Hx.
    + apply andb_true_iff in Hx as [Hok Hlt%Z.ltb_lt]. split.
      * intros b [Hb|Hb%list_elem_of_singleton]%elem_of_app Hob; [|by subst].
        specialize (Hmax b Hb Hob). lia.
      * right. exists l, x, []. split_and!; try done; [lia|].
        intros b Hb Hob. specialize (Hmax b Hb Hob). lia.
    + split.
      * intros b [Hb|Hb%list_elem_of_singleton]%elem_of_app Hob; [by apply Hmax|subst].
        rewrite Hob in Hx. simpl in Hx. lia.
      * destruct Hwho as [?|(l1 & a & l2 & -> & ?)]; [by left|right].
        exists l1, a, (l2 ++ [x]). by rewrite <-app_assoc.
Qed.

(** ** Outliers of a two-replica fleet *)

Definition replica (name : string) (p95 : f64) : InstanceStat.t :=
  InstanceStat.mk name 100 0 p95 p95 p95 0 0.

(** Latencies from one millisecond to a minute. *)
Definition latency_grid : list f64 :=
  (λ ms, f64_of_Z ms / 1000)%float <$>
  [1; 2; 3; 5; 8; 13; 20; 30; 50; 80; 120; 200; 300; 500; 800; 1300; 2000; 3000; 5000; 8000;
   13000; 20000; 30000; 60000].

Definition flags (fleet : list InstanceStat.t) : list bool :=
  match toInstanceRows fleet with Ret rows => instanceStatRow.IsOutlier <$> rows | Panic _ => [] end.

(** A fleet of two trafficked replicas never has an outlier: the median of two p95s is
    their mean, so a replica would need a p95 at least the sum of both. Checked on every
    pair of a grid of latencies from 1 ms to 60 s; a third replica makes the same gap
    visible. The comment grants the flag to a fleet with at least two trafficked instances. *)
Theorem two_replica_fleet_has_no_outlier :
  (∀ a b, a ∈ latency_grid → b ∈ latency_grid →
     flags [replica "pod-a" a; replica "pod-b" b] = [false; false]) ∧
  flags [replica "pod-a" 0.001; replica "pod-b" 60] = [false; false] ∧
  flags [replica "pod-a" 0.001; replica "pod-c" 0.001; replica "pod-b" 60] = [false; false; true].
Proof.
  split; [|split; vm_compute; reflexivity].
  assert (H : forallb (λ a, forallb (λ b,
    bool_decide (flags [replica "pod-a" a; replica "pod-b" b] = [false; false])) latency_grid)
    latency_grid = true) by (vm_compute; reflexivity).
  rewrite forallb_forall in H. intros a b Ha%list_elem_of_In Hb%list_elem_of_In.
  apply H in Ha. rewrite forallb_forall in Ha. apply Ha in Hb. by apply bool_decide_eq_true in Hb.
Qed.
