(* ===== verification/Query.v ===== *)
(** * The read side of the data plane (server/internal/storage: query.go, dashboard.go,
    debug.go, signature.go, instancewindows.go, performance.go, usage.go)

    Every query of the dashboard over the stored rows: the arguments the code binds, the
    WHERE, GROUP BY, ORDER BY and LIMIT of the statement, the columns it selects and the
    way the result set is drained. The connection is a record of the tables and of how the
    driver may fail. *)

From Stdlib Require Import ZArith Lia Floats.
From Stdlib Require String.
From stdpp Require Import base option gmap fin_maps strings list sorting.
From S2P Require Import Prelude GoFloat GoString GoTime GoMath Wire Storage Sql Views.

Local Open Scope Z_scope.

(** ** The connection *)

(** How a query may go wrong: at once, at the scan of a row, or after some rows. *)
Inductive fault := NoFault | FQuery | FScan (row : nat) | FRows (after : nat).

Record Conn := mkConn {
  c_table : string → list Row;                (* the rows of a summaries tier *)
  c_gauges : list InstanceWindowRow;          (* instance_windows *)
  c_parts : list Row → option (Z * Z);        (* system.parts of a summaries table that holds these rows,
                                                 whoever they belong to: bytes on disk and rows *)
  c_fault : string → fault;                   (* by operation *)
  c_bind : Time → Time;                       (* how the driver renders a time argument *)
  c_shuffle : ∀ A : Type, list A → list A;    (* the order of rows ORDER BY leaves open *)
}.
Arguments c_shuffle _ {A} _.

(** [rows.Next], [rows.Scan] and [rows.Err] over a result set. *)
Record Rows (A : Type) := mkRows { fetched : list (option A); broken : bool }.
Arguments mkRows {A}.
Arguments fetched {A}.
Arguments broken {A}.

Definition Query {A} (c : Conn) (op : string) (l : list A) : option (Rows A) :=
  match c_fault c op with
  | NoFault => Some (mkRows (Some <$> l) false)
  | FQuery => None
  | FScan i => Some (mkRows ((Some <$> take i l) ++ [None]) false)
  | FRows i => Some (mkRows (Some <$> take i l) true)
  end.

(** [conn.QueryRow(...).Scan(...)]: one row or an error. *)
Definition QueryRow {A} (c : Conn) (op : string) (row : A) : result string A :=
  match c_fault c op with NoFault => Ok row | _ => Err op end.

(** [scanRows]. *)
Fixpoint scan_loop {A} (op : string) (l : list (option A)) (broken : bool) (out : list A)
  : result string (list A) :=
  match l with
  | [] => if broken then Err (str_app op ": rows") else Ok out
  | Some v :: l => scan_loop op l broken (out ++ [v])
  | None :: _ => Err (str_app op ": scan")
  end.
Definition scanRows {A} (op : string) (rows : Rows A) : result string (list A) :=
  scan_loop op (fetched rows) (broken rows) [].

(** A list query: the statement is run, then its result set drained. *)
Definition run_list {A} (c : Conn) (op : string) (l : list A) : result string (list A) :=
  match Query c op l with
  | None => Err (str_app op ": query")
  | Some rows => scanRows op rows
  end.

(** ** WHERE, GROUP BY, ORDER BY *)

(** [(? = '' OR col = ?)]. *)
Definition optional_eq (arg col : string) : bool :=
  bool_decide (arg = ""%string) || bool_decide (col = arg).

Definition in_window (c : Conn) (from to t : Time) : bool := (c_bind c from <=? t) && (t <? c_bind c to).

Definition of_tenant (id : tenant.ID) (r : Row) : bool :=
  bool_decide (tenant.String (Tenant r) = tenant.String id).

Definition where_endpoint (c : Conn) (id : tenant.ID) (service method route : string) (from to : Time)
  (r : Row) : bool :=
  of_tenant id r && bool_decide (Service r = service) && optional_eq method (Method r) &&
  optional_eq route (RouteTemplate r) && in_window c from to (WindowStart r).

Definition select {A} (cond : A → bool) (l : list A) : list A := filter (λ x, cond x = true) l.

(** The distinct keys of some rows, and the rows of a key. *)
Definition keys_of {A} `{EqDecision K} (key : A → K) (l : list A) : list K := remove_dups (key <$> l).
Definition group_of {A} `{EqDecision K} (key : A → K) (l : list A) (k : K) : list A := filter (λ x, key x = k) l.

(** [toStartOfInterval(t, INTERVAL n second)]. *)
Definition toStartOfInterval (n : Z) (t : Time) : Time := t / (n * Second) * (n * Second).

(** ** The shared columns *)

Definition is_server_error (r : Row) : bool :=
  bool_decide (StatusClass r = "STATUS_CLASS_5XX"%string) ||
  bool_decide (StatusClass r = "STATUS_CLASS_NO_STATUS"%string).
Definition has_class (class : string) (r : Row) : bool := bool_decide (StatusClass r = class).

Definition total_count (g : list Row) : Z := sum_of Count g.
Definition error_count (g : list Row) : Z := sumIf Count is_server_error g.
Definition client_count (g : list Row) : Z := sumIf Count (has_class "STATUS_CLASS_4XX") g.
Definition merged (g : list Row) : gmap Z Z := sumMap sketchMap g.

(** [if(total_count = 0, 0, n / total_count)]. *)
Definition per_request (n : Z) (g : list Row) : f64 :=
  if total_count g =? 0 then 0%float else (f64_of_Z n / f64_of_Z (total_count g))%float.

Section queries.
Context `{SqlLib} `{MathLib}.
Implicit Types (c : Conn) (id : tenant.ID) (service method route : string) (from to : Time).

Definition percentile (q : f64) (g : list Row) : f64 := percentileExpr q (merged g) (total_count g).

(** ** Time series (query.go) *)

Definition time_point (ts : Time) (g : list Row) : TimePoint.t :=
  TimePoint.mk ts (total_count g) (per_request (error_count g) g)
    (percentile 0.50%float g) (percentile 0.95%float g) (percentile 0.99%float g).

Definition series_select (step : Z) (l : list Row) : list TimePoint.t :=
  let bucket r := toStartOfInterval step (WindowStart r) in
  (λ b, time_point b (group_of bucket l b)) <$> sort_stable Z.ltb (keys_of bucket l).

Definition SeriesOverTime c id service method route from to (step : Duration)
  : result string (list TimePoint.t) :=
  match buildSeriesQuery from to step with
  | Err e => Err e
  | Ok (tbl, stepSeconds) =>
      run_list c "SeriesOverTime"
        (series_select stepSeconds (select (where_endpoint c id service method route from to) (c_table c tbl)))
  end.

(** ** Overview aggregates (dashboard.go) *)

Definition aggregateRowCap : nat := 500.

(** [ORDER BY cnt DESC LIMIT 500]: groups of equal count come in any order. *)
Definition busiest {A} c (count : A → Z) (l : list A) : list A :=
  take aggregateRowCap (sort_stable (λ a b, count b <? count a) (c_shuffle c l)).

(** [tierQuery]: a query over the tier of the window. *)
Definition on_tier {A} c from to (op : string) (query : list Row → list A) : result string (list A) :=
  match tierQuery from to with
  | Err e => Err (str_app op e)
  | Ok tbl => run_list c op (query (c_table c tbl))
  end.

Definition service_stat (service : string) (g : list Row) : ServiceStat.t :=
  ServiceStat.mk service (total_count g) (per_request (error_count g) g) (per_request (client_count g) g)
    (percentile 0.50%float g) (percentile 0.95%float g) (percentile 0.99%float g).

Definition Services c id from to : result string (list ServiceStat.t) :=
  on_tier c from to "Services" (λ t,
    let l := select (λ r, of_tenant id r && in_window c from to (WindowStart r)) t in
    busiest c ServiceStat.Count ((λ s, service_stat s (group_of Service l s)) <$> keys_of Service l)).

Definition endpoint_stat (mr : string * string) (g : list Row) : EndpointStat.t :=
  EndpointStat.mk mr.1 mr.2 (total_count g) (per_request (error_count g) g) (per_request (client_count g) g)
    (percentile 0.50%float g) (percentile 0.95%float g) (percentile 0.99%float g)
    (per_request (sum_of ReqBytes g) g) (per_request (sum_of RespBytes g) g).

Definition Endpoints c id service from to : result string (list EndpointStat.t) :=
  on_tier c from to "Endpoints" (λ t,
    let l := select (λ r, of_tenant id r && bool_decide (Service r = service) &&
                          in_window c from to (WindowStart r)) t in
    let key r := (Method r, RouteTemplate r) in
    busiest c EndpointStat.Count ((λ mr, endpoint_stat mr (group_of key l mr)) <$> keys_of key l)).

(** [SELECT count() > 0]: scanned into a [uint8]. *)
Definition HasAnySummary c id : result string bool :=
  match QueryRow c "HasAnySummary" (if (0 <? length (select (of_tenant id) (c_table c tableRaw)))%nat then 1 else 0) with
  | Ok n => Ok (n =? 1)
  | Err e => Err e
  end.

(** The one row of the endpoint aggregate, in the order it is scanned. *)
Definition detail_columns (l : list Row) : outcome EndpointDetail :=
  let codes := map_to_list (sumMap statusCodeMap l) in
  let ks := sorted_indices (merged l) in
  buildEndpointDetail (total_count l) (sumIf Count (has_class "STATUS_CLASS_2XX") l)
    (sumIf Count (has_class "STATUS_CLASS_3XX") l) (sumIf Count (has_class "STATUS_CLASS_4XX") l)
    (sumIf Count (has_class "STATUS_CLASS_5XX") l) (sumIf Count (has_class "STATUS_CLASS_NO_STATUS") l)
    ks (count_at (merged l) <$> ks) codes.*1 codes.*2.

Definition zero_detail : EndpointDetail := mkDetail 0 0 0 0 0 [] [] ∅.

(** A panic of the assembly would surface here; the aggregate has one row. *)
Definition QueryEndpointDetail c id service method route from to : outcome (result string EndpointDetail) :=
  match tierQuery from to with
  | Err e => Ret (Err (str_app "EndpointDetail" e))
  | Ok tbl =>
      let l := select (λ r, of_tenant id r && bool_decide (Service r = service) && bool_decide (Method r = method) &&
                            bool_decide (RouteTemplate r = route) && in_window c from to (WindowStart r)) (c_table c tbl) in
      match Query c "EndpointDetail" [l] with
      | None => Ret (Err "EndpointDetail: query"%string)
      | Some rows =>
          match fetched rows with
          | [] => Ret (if broken rows then Err "EndpointDetail: rows"%string else Ok zero_detail)
          | None :: _ => Ret (Err "EndpointDetail: scan"%string)
          | Some l :: _ =>
              if broken rows then Ret (Err "EndpointDetail: rows"%string)
              else outcome_bind (detail_columns l) (λ d, Ret (Ok d))
          end
      end
  end.

(** ** Endpoint breakdowns (debug.go, signature.go) *)

(** A breakdown of one endpoint: rows of the tier that match, then the statement's columns. *)
Definition endpoint_breakdown {A} c id service method route from to (op : string) (columns : list Row → list A)
  : result string (list A) :=
  on_tier c from to op (λ t, columns (select (where_endpoint c id service method route from to) t)).

Definition instance_stat (i : string) (g : list Row) : InstanceStat.t :=
  InstanceStat.mk i (total_count g) (per_request (error_count g) g)
    (percentile 0.50%float g) (percentile 0.95%float g) (percentile 0.99%float g)
    (per_request (sum_of ReqBytes g) g) (per_request (sum_of RespBytes g) g).

(** [GROUP BY key ORDER BY key]. *)
Definition by_key {A} (key : Row → string) (stat : string → list Row → A) (l : list Row) : list A :=
  (λ k, stat k (group_of key l k)) <$> sort_stable String.ltb (keys_of key l).

Definition InstancesForEndpoint c id service method route from to : result string (list InstanceStat.t) :=
  endpoint_breakdown c id service method route from to "InstancesForEndpoint" (by_key Instance_ instance_stat).

Definition version_stat (v : string) (g : list Row) : VersionStat.t :=
  VersionStat.mk v (total_count g) (per_request (error_count g) g)
    (percentile 0.50%float g) (percentile 0.95%float g) (percentile 0.99%float g).

Definition VersionsForEndpoint c id service method route from to : result string (list VersionStat.t) :=
  endpoint_breakdown c id service method route from to "VersionsForEndpoint" (by_key DeployVersion version_stat).

Definition statusClasses : list string :=
  ["STATUS_CLASS_2XX"; "STATUS_CLASS_3XX"; "STATUS_CLASS_4XX"; "STATUS_CLASS_5XX"; "STATUS_CLASS_NO_STATUS"].

Definition class_latency (g : list Row) : ClassLatency.t :=
  ClassLatency.mk (total_count g) (percentile 0.50%float g) (percentile 0.95%float g) (percentile 0.99%float g).

(** The scan loop of [LatencyByStatusClass]: a class that is not in the map is dropped. *)
Definition keep_known (out : gmap string ClassLatency.t) (cl : string * ClassLatency.t) : gmap string ClassLatency.t :=
  match out !! cl.1 with Some _ => <[cl.1 := cl.2]> out | None => out end.

Definition all_classes : gmap string ClassLatency.t :=
  fold_left (λ m cl, <[cl := ClassLatency.zero]> m) statusClasses ∅.

Definition LatencyByStatusClass c id service method route from to : result string (gmap string ClassLatency.t) :=
  match endpoint_breakdown c id service method route from to "LatencyByStatusClass"
          (λ l, (λ k, (k, class_latency (group_of StatusClass l k))) <$> c_shuffle c (keys_of StatusClass l)) with
  | Err e => Err e
  | Ok rows => Ok (fold_left keep_known rows all_classes)
  end.

Definition maxExemplarsPerEndpoint : nat := 20.

Definition exemplar_row (e : Storage.Exemplar) : ExemplarRow.t :=
  ExemplarRow.mk (At e) (DurationNs e) (StatusCode_ e) (TraceID e) (SpanID e) (RequestID e).

(** [ARRAY JOIN exemplars ... ORDER BY duration_ns DESC LIMIT 20], over the raw tier. *)
Definition ExemplarsForEndpoint c id service method route from to : result string (list ExemplarRow.t) :=
  run_list c "ExemplarsForEndpoint"
    (take maxExemplarsPerEndpoint
       (sort_stable (λ a b, ExemplarRow.DurationNs b <? ExemplarRow.DurationNs a)
          (c_shuffle c (exemplar_row <$> (select (where_endpoint c id service method route from to)
                                            (c_table c tableRaw) ≫= Exemplars))))).

(** One row, whatever matched. *)
Definition DownstreamForEndpoint c id service method route from to : result string DownstreamStat.t :=
  match tierQuery from to with
  | Err e => Err (str_app "DownstreamForEndpoint" e)
  | Ok tbl =>
      let l := select (where_endpoint c id service method route from to) (c_table c tbl) in
      QueryRow c "DownstreamForEndpoint"
        (DownstreamStat.mk (total_count l) (sum_of Storage.SumDurationNs l) (sum_of Storage.SumDownstreamNs l))
  end.

Definition maxErrorClassesPerEndpoint : nat := 20.

(** [ORDER BY cnt DESC, class]. *)
Definition class_before (a b : ErrorClassStat) : bool :=
  (ecsCount b <? ecsCount a) || ((ecsCount a =? ecsCount b) && String.ltb (ecsClass a) (ecsClass b)).

Definition ErrorClassesForEndpoint c id service method route from to : result string (list ErrorClassStat) :=
  endpoint_breakdown c id service method route from to "ErrorClassesForEndpoint" (λ l,
    take maxErrorClassesPerEndpoint
      (sort_stable class_before ((λ kc, mkErrorClassStat kc.1 kc.2) <$> map_to_list (sumMap errorClassMap l)))).

Definition NoStatusReasonsForEndpoint c id service method route from to : result string (list NoStatusReasonStat) :=
  endpoint_breakdown c id service method route from to "NoStatusReasonsForEndpoint" (λ l,
    sort_stable (λ a b, nsrReason a <? nsrReason b)
      ((λ kc, mkNoStatusReasonStat kc.1 kc.2) <$> map_to_list (sumMap noStatusReasonMap l))).

(** ** Instance gauges (instancewindows.go) *)

Definition where_gauges c id service from to (r : InstanceWindowRow) : bool :=
  bool_decide (tenant.String (iwr_tenant r) = tenant.String id) && bool_decide (iwr_service r = service) &&
  in_window c from to (iwr_start r).

(** [avg]: the sum in the order the rows come, over their number. *)
Definition avg_of {A} (f : A → f64) (l : list A) : f64 :=
  (fold_left (λ acc x, acc + f x) l 0 / f64_of_Z (Z.of_nat (length l)))%float.

Definition resource_stat c (i : string) (g : list InstanceWindowRow) : InstanceResourceStat.t :=
  let sum f := sum_of (λ r, f (iwr_gauges r)) g in
  let peak f := max_of (λ r, f (iwr_gauges r)) g in
  InstanceResourceStat.mk i (sum iw_cpu_ns) (peak iw_rss_bytes) (peak iw_heap_alloc_bytes) (sum iw_gc_pause_ns)
    (peak iw_goroutines) (sum iw_num_gc) (sum iw_total_alloc_bytes) (sum iw_mallocs)
    (avg_of (λ r, iw_gc_cpu_fraction (iwr_gauges r)) (c_shuffle c g)) (peak iw_heap_inuse_bytes)
    (peak iw_gomaxprocs) (peak iw_post_gc_heap_bytes) (peak iw_rss_true_bytes) (peak iw_open_fds)
    (peak iw_fd_limit) (peak iw_in_flight).

Definition InstanceResourcesForService c id service from to : result string (list InstanceResourceStat.t) :=
  let l := select (where_gauges c id service from to) (c_gauges c) in
  run_list c "InstanceResourcesForService"
    ((λ i, resource_stat c i (group_of iwr_instance l i)) <$> sort_stable String.ltb (keys_of iwr_instance l)).

Definition MemoryTrendForService c id service from to (step : Duration) : result string (list MemoryTrendPoint.t) :=
  let stepSeconds := memoryTrendStep step in
  let l := select (where_gauges c id service from to) (c_gauges c) in
  let bucket r := toStartOfInterval stepSeconds (iwr_start r) in
  run_list c "MemoryTrendForService"
    ((λ b, let g := group_of bucket l b in
           MemoryTrendPoint.mk b (max_of (λ r, iw_post_gc_heap_bytes (iwr_gauges r)) g)
             (max_of (λ r, iw_heap_inuse_bytes (iwr_gauges r)) g)) <$> sort_stable Z.ltb (keys_of bucket l)).

(** ** Volumetry (performance.go, usage.go) *)

(** [count()]. *)
Definition row_count {A} (l : list A) : Z := u64 (Z.of_nat (length l)).

(** What [summaryRowBytes] reads of [system.parts]: the whole raw table, every tenant's rows
    in it. A failure falls back, it is not an error. *)
Definition parts_seen c : option (Z * Z) :=
  match c_fault c "summaryRowBytes" with NoFault => c_parts c (c_table c tableRaw) | _ => None end.

Definition PerformanceStats c id from to : result string PerformanceStat.t :=
  let l := select (λ r, of_tenant id r && in_window c from to (WindowStart r)) (c_table c tableRaw) in
  match QueryRow c "PerformanceStats" (total_count l, row_count l) with
  | Err e => Err e
  | Ok (requests, summaries) =>
      Ok (PerformanceStat.mk requests summaries
            (SummaryDiskBytes summaries (parts_seen c)))
  end.

Record TenantUsage := mkUsage {
  FirstIngest : Time; LastIngest : Time; u_endpoints : Z; u_series : Z; u_services : Z; u_instances : Z;
  u_requests30d : Z; u_diskBytes : Z;
}.

Definition usageCardinalityWindow : Duration := 30 * 24 * Hour.
Definition usageDiskWindow : Duration := 7 * 24 * Hour.

(** [uniqExact]. *)
Definition uniqExact {A} `{EqDecision K} (key : A → K) (l : list A) : Z := row_count (keys_of key l).

(** [min] and [max] of a time column over no rows are the column's default. *)
Definition min_time (l : list Time) : Time := match l with [] => 0 | t :: l => foldr Z.min t l end.
Definition max_time (l : list Time) : Time := match l with [] => 0 | t :: l => foldr Z.max t l end.

Definition Usage c id (now : Time) : result string TenantUsage :=
  let live := select (of_tenant id) (c_table c table1d) in
  match QueryRow c "Usage: liveness"
          (min_time (WindowStart <$> live), max_time (WindowEnd <$> live), row_count live) with
  | Err e => Err e
  | Ok (first, last, n) =>
      let first := if n =? 0 then zero_time else first in
      let last := if n =? 0 then zero_time else last in
      let since := time_add now (- usageCardinalityWindow) in
      let recent := select (λ r, of_tenant id r && (c_bind c since <=? WindowStart r)) (c_table c table1m) in
      match QueryRow c "Usage: cardinality"
              (uniqExact RouteTemplate recent, uniqExact (λ r, (Method r, RouteTemplate r, StatusClass r)) recent,
               uniqExact Service recent, uniqExact Instance_ recent, total_count recent) with
      | Err e => Err e
      | Ok (endpoints, series, services, instances, requests) =>
          match PerformanceStats c id (time_add now (- usageDiskWindow)) now with
          | Err e => Err e
          | Ok perf => Ok (mkUsage first last endpoints series services instances requests
                             (PerformanceStat.SummaryDiskBytes perf))
          end
      end
  end.

(** The one cross-tenant read: the operator's last-ingest map. *)
Definition LastIngestByTenant c : result string (gmap string Time) :=
  let key r := tenant.String (Tenant r) in
  let l := c_table c table1d in
  match run_list c "LastIngestByTenant"
          ((λ t, (t, max_time (WindowEnd <$> group_of key l t))) <$> c_shuffle c (keys_of key l)) with
  | Err e => Err e
  | Ok rows => Ok (fold_left (λ out tl, <[tl.1 := tl.2]> out) rows ∅)
  end.
End queries.

(** ** All or nothing *)

Lemma scan_loop_all {A} op (l : list A) b out :
  scan_loop op (Some <$> l) b out = if b then Err (str_app op ": rows") else Ok (out ++ l).
Proof.
  revert out. induction l as [|x l IH]; intros out; cbn; [by rewrite app_nil_r|].
  rewrite IH. by rewrite <-app_assoc.
Qed.

Lemma scan_loop_stops {A} op (l : list A) b out :
  scan_loop op ((Some <$> l) ++ [None]) b out = Err (str_app op ": scan").
Proof. revert out. induction l as [|x l IH]; intros out; cbn; [done|apply IH]. Qed.

(** A list query delivers everything the statement selects, or an error. *)
Lemma run_list_spec {A} c op (l : list A) :
  match run_list c op l with
  | Ok r => c_fault c op = NoFault ∧ r = l
  | Err _ => c_fault c op ≠ NoFault
  end.
Proof.
  unfold run_list, Query, scanRows. destruct (c_fault c op) as [| |i|i]; cbn; try done.
  - rewrite scan_loop_all. done.
  - by rewrite scan_loop_stops.
  - by rewrite scan_loop_all.
Qed.

Lemma run_list_Ok {A} c op (l r : list A) : run_list c op l = Ok r → r = l.
Proof. intros H. pose proof (run_list_spec c op l) as Hs. rewrite H in Hs. tauto. Qed.
