(* ===== verification/Rollup.v ===== *)
(** * The rollup tiers are exact (migrations/clickhouse/0002_rollups.sql, storage/tier.go)

    The materialized views that feed the coarser tiers, and the reason a query over a tier
    answers as the same query over the raw rows: every column the queries read is a sum,
    and the view only adds up rows that no query aligned to the tier can tell apart. *)

From Stdlib Require Import ZArith Lia Floats.
From Stdlib Require String.
From stdpp Require Import base option gmap fin_maps strings list sorting.
From S2P Require Import Prelude GoFloat GoString GoTime GoMath Wire Storage Sql Views Query.

Local Open Scope Z_scope.

(** ** The views *)

Definition rollup_key (w : Duration) (r : Row) :=
  (tenant.String (Tenant r), Service r, Instance_ r, Method r, RouteTemplate r, StatusClass r,
   DeployVersion r, DeployID r, Environment r, Region r, WindowStart r / w * w).

(** The row a view inserts for one group of an inserted block. *)
Definition rollup_row (w : Duration) (r : Row) (g : list Row) : Row :=
  mkRow (Tenant r) (Service r) (Instance_ r) (Method r) (RouteTemplate r) (StatusClass r)
    (WindowStart r / w * w) (max_time ((λ x, WindowEnd x / w * w) <$> g))
    (sum_of Count g) (sum_of Storage.SumDurationNs g) (sum_of ReqBytes g) (sum_of RespBytes g)
    ((λ kc, mkBucket kc.1 kc.2) <$> map_to_list (sumMap sketchMap g))
    ((λ kc, mkCode kc.1 kc.2) <$> map_to_list (sumMap statusCodeMap g))
    (max_of MaxDurationNs g) []
    ((λ kc, mkClass kc.1 kc.2) <$> map_to_list (sumMap errorClassMap g))
    ((λ kc, mkReason kc.1 kc.2) <$> map_to_list (sumMap noStatusReasonMap g))
    (sum_of Storage.SumDownstreamNs g)
    (DeployVersion r) (DeployID r) (Environment r) (Region r) (max_time (InstanceStart <$> g)).

(** A view over one inserted block: [GROUP BY], with the first row of each group giving the
    key columns. *)
Definition rollup (w : Duration) (block : list Row) : list Row :=
  omap (λ k, let g := group_of (rollup_key w) block k in (λ r, rollup_row w r g) <$> head g)
    (keys_of (rollup_key w) block).

(** ** What a query can see at a granularity *)

Definition cell (w : Duration) (r : Row) :=
  (tenant.String (Tenant r), Service r, Instance_ r, Method r, RouteTemplate r, StatusClass r,
   DeployVersion r, WindowStart r / w).

(** The additive columns. *)
Inductive measure :=
  | MCount | MDuration | MReq | MResp | MDownstream
  | MSketch (k : Z) | MCode (k : Z) | MClass (k : string) | MReason (k : Z).

Definition measured (m : measure) (r : Row) : Z :=
  match m with
  | MCount => Count r | MDuration => Storage.SumDurationNs r | MReq => ReqBytes r | MResp => RespBytes r
  | MDownstream => Storage.SumDownstreamNs r
  | MSketch k => count_at (sketchMap r) k | MCode k => count_at (statusCodeMap r) k
  | MClass k => count_at (errorClassMap r) k | MReason k => count_at (noStatusReasonMap r) k
  end.

(** [P] cannot tell apart rows of one cell. *)
Definition sees {B} (w : Duration) (P : Row → B) : Prop := ∀ r r', cell w r = cell w r' → P r = P r'.

(** Two tables no query at granularity [w] tells apart. *)
Definition same_cube (w : Duration) (l l' : list Row) : Prop :=
  ∀ P, sees w P →
    (Exists (λ r, P r = true) l ↔ Exists (λ r, P r = true) l') ∧
    ∀ m, sum_of (measured m) (select P l) = sum_of (measured m) (select P l').

#[export] Instance same_cube_equiv w : Equivalence (same_cube w).
Proof.
  split.
  - by intros l P HP.
  - intros l l' Hl P HP. destruct (Hl P HP) as [He Hs]. split; [by symmetry|]. intros m. by rewrite Hs.
  - intros l l' l'' H1 H2 P HP. destruct (H1 P HP) as [He Hs], (H2 P HP) as [He' Hs'].
    split; [by rewrite He|]. intros m. by rewrite Hs.
Qed.

Lemma select_app {A} (P : A → bool) l k : select P (l ++ k) = select P l ++ select P k.
Proof. apply filter_app. Qed.

#[export] Instance same_cube_app w : Proper (same_cube w ==> same_cube w ==> same_cube w) app.
Proof.
  intros l l' Hl k k' Hk P HP. destruct (Hl P HP) as [He Hs], (Hk P HP) as [He' Hs'].
  split; [by rewrite !Exists_app, He, He'|]. intros m. by rewrite !select_app, !sum_of_app, Hs, Hs'.
Qed.

Lemma same_cube_concat w (ls ks : list (list Row)) :
  Forall2 (same_cube w) ls ks → same_cube w (concat ls) (concat ks).
Proof. induction 1 as [|l k ls ks Hl _ IH]; [done|]. cbn. by rewrite Hl, IH. Qed.

(** A coarser look sees less. *)
Lemma sees_coarser {B} w n (P : Row → B) : 0 < w → 0 < n → sees (w * n) P → sees w P.
Proof.
  intros Hw Hn HP r r' Hc. apply HP. unfold cell in *. injection Hc as -> -> -> -> -> -> -> Ht.
  by rewrite <-!Z.div_div, Ht by lia.
Qed.

Lemma same_cube_coarser w n l l' : 0 < w → 0 < n → same_cube w l l' → same_cube (w * n) l l'.
Proof. intros Hw Hn Hl P HP. by apply Hl, (sees_coarser w n). Qed.

(** *** Selections and groups *)

Lemma select_select {A} (P Q : A → bool) l : select P (select Q l) = select (λ x, Q x && P x) l.
Proof.
  unfold select. rewrite list_filter_filter. apply list_filter_iff. intros x. rewrite andb_true_iff. tauto.
Qed.

Lemma Exists_select {A} (P Q : A → bool) l :
  Exists (λ x, P x = true) (select Q l) ↔ Exists (λ x, Q x && P x = true) l.
Proof.
  rewrite !Exists_exists. unfold select. split.
  - intros (x & Hx & HP). apply list_elem_of_filter in Hx as [HQ Hx]. exists x. by rewrite HQ, HP.
  - intros (x & Hx & [HQ HP]%andb_true_iff). exists x. split; [by apply list_elem_of_filter|done].
Qed.

#[export] Hint Unfold sees : cube.

Lemma same_cube_select w P l l' : sees w P → same_cube w l l' → same_cube w (select P l) (select P l').
Proof.
  intros HP Hl Q HQ. rewrite !Exists_select. setoid_rewrite select_select.
  apply Hl. intros r r' Hc. by rewrite (HP _ _ Hc), (HQ _ _ Hc).
Qed.

Lemma group_of_select {A} `{EqDecision K} (key : A → K) l k :
  group_of key l k = select (λ x, bool_decide (key x = k)) l.
Proof. unfold group_of, select. apply list_filter_iff. intros x. by rewrite bool_decide_eq_true. Qed.

Lemma same_cube_group w `{EqDecision K} (key : Row → K) l l' k :
  sees w key → same_cube w l l' → same_cube w (group_of key l k) (group_of key l' k).
Proof.
  intros Hk Hl. rewrite !group_of_select. apply same_cube_select; [|done].
  intros r r' Hc. by rewrite (Hk _ _ Hc).
Qed.

Lemma select_all {A} (l : list A) : select (λ _, true) l = l.
Proof. unfold select. induction l as [|x l IH]; [done|]. rewrite filter_cons, decide_True by done. by rewrite IH. Qed.

Lemma select_const {A} (P : A → bool) b l : (∀ x, x ∈ l → P x = b) → select P l = if b then l else [].
Proof.
  unfold select. induction l as [|x l IH]; intros HP; [by destruct b|].
  rewrite filter_cons, IH by (intros; apply HP; by constructor). rewrite (HP x) by constructor. by destruct b.
Qed.

Lemma same_cube_sum w l l' m : same_cube w l l' → sum_of (measured m) l = sum_of (measured m) l'.
Proof. intros Hl. destruct (Hl (λ _, true)) as [_ Hs]; [done|]. by rewrite <-(select_all l), <-(select_all l'), Hs. Qed.

Lemma same_cube_keys w `{EqDecision K} (key : Row → K) l l' k :
  sees w key → same_cube w l l' → k ∈ keys_of key l ↔ k ∈ keys_of key l'.
Proof.
  intros Hk Hl. unfold keys_of. rewrite !elem_of_remove_dups.
  destruct (Hl (λ r, bool_decide (key r = k))) as [He _]; [intros r r' Hc; by rewrite (Hk _ _ Hc)|].
  assert (Hin : ∀ l, k ∈ key <$> l ↔ Exists (λ r, bool_decide (key r = k) = true) l).
  { intros l0. rewrite list_elem_of_fmap, Exists_exists. setoid_rewrite bool_decide_eq_true. naive_solver. }
  by rewrite !Hin.
Qed.

(** *** Sums by groups *)

Lemma sum_select {A} (f : A → Z) (P : A → bool) l : sum_of f (select P l) = sumIf f P l.
Proof.
  unfold sumIf, sum_of, sumZ, select. f_equal. induction l as [|x l IH]; [done|].
  rewrite filter_cons. cbn. rewrite <-IH. destruct (P x); [by rewrite decide_True|by rewrite decide_False by congruence].
Qed.

Lemma sumZ_once {K} `{EqDecision K} (ks : list K) (k0 : K) (v : Z) (g : K → Z) :
  NoDup ks → k0 ∈ ks →
  sumZ ((λ k, (if decide (k0 = k) then v else 0) + g k) <$> ks) = v + sumZ (g <$> ks).
Proof.
  unfold sumZ. induction 1 as [|k ks Hk Hnd IH]; [by intros ?%not_elem_of_nil|]. intros Hin. cbn.
  destruct (decide (k0 = k)) as [->|Hne].
  - assert (Hz : foldr Z.add 0 ((λ k', (if decide (k = k') then v else 0) + g k') <$> ks) = foldr Z.add 0 (g <$> ks)).
    { f_equal. apply list_fmap_ext. intros i k' Hi. rewrite decide_False; [lia|].
      intros ->. by apply Hk, (list_elem_of_lookup_2 _ i). }
    rewrite Hz. lia.
  - apply elem_of_cons in Hin as [->|Hin]; [done|]. rewrite (IH Hin). lia.
Qed.

Lemma sum_of_groups {A} `{EqDecision K} (key : A → K) (f : A → Z) l :
  sum_of f l = sum_of (λ k, sum_of f (group_of key l k)) (keys_of key l).
Proof.
  assert (Hg : ∀ ks, NoDup ks → (∀ x, x ∈ l → key x ∈ ks) →
    sumZ (f <$> l) = sumZ ((λ k, sumZ (f <$> group_of key l k)) <$> ks)).
  { intros ks Hnd. induction l as [|x l IH]; intros Hks.
    - unfold sumZ. cbn. clear. induction ks; cbn; lia.
    - rewrite fmap_cons. change (sumZ (f x :: (f <$> l))) with (f x + sumZ (f <$> l)).
      rewrite IH by (intros; apply Hks; by constructor).
      rewrite <-(sumZ_once ks (key x)) by (done || (apply Hks; constructor)).
      f_equal. apply list_fmap_ext. intros i k _. unfold group_of. rewrite filter_cons.
      case_decide; unfold sumZ; cbn; lia. }
  transitivity (u64 (sumZ ((λ k, sumZ (f <$> group_of key l k)) <$> keys_of key l))).
  - unfold sum_of. f_equal. apply Hg; [apply NoDup_remove_dups|].
    intros x Hx. unfold keys_of. rewrite elem_of_remove_dups. by apply list_elem_of_fmap_2.
  - unfold sum_of at 1. symmetry. apply (sum_of_ext _ (λ k, sumZ (f <$> group_of key l k))).
    intros k _. unfold sum_of. by rewrite u64_idemp.
Qed.

Lemma sum_of_omap {A B} (h : A → option B) (f : B → Z) l :
  sum_of f (omap h l) = sum_of (λ x, from_option f 0 (h x)) l.
Proof.
  unfold sum_of, sumZ. f_equal. induction l as [|x l IH]; [done|]. cbn. destruct (h x); cbn; by rewrite IH.
Qed.

Lemma head_group {A} `{EqDecision K} (key : A → K) l k :
  k ∈ keys_of key l → ∃ r, head (group_of key l k) = Some r ∧ r ∈ l ∧ key r = k.
Proof.
  unfold keys_of. rewrite elem_of_remove_dups, list_elem_of_fmap. intros (x & -> & Hx).
  assert (Hg : x ∈ group_of key l (key x)) by (by apply list_elem_of_filter).
  destruct (group_of key l (key x)) as [|r g] eqn:E; [by apply not_elem_of_nil in Hg|]. exists r.
  assert (Hr : r ∈ group_of key l (key x)) by (rewrite E; constructor).
  by apply list_elem_of_filter in Hr as [-> Hr].
Qed.

(** *** A view only adds up what a query at its granularity cannot tell apart *)

Lemma rollup_key_cell w r r' : 0 < w → rollup_key w r = rollup_key w r' → cell w r = cell w r'.
Proof.
  unfold rollup_key, cell. intros Hw Hk. injection Hk as -> -> -> -> -> -> -> _ _ _ Ht.
  f_equal. apply (Z.mul_cancel_r _ _ w); [lia|exact Ht].
Qed.

Lemma rollup_row_cell w r g : 0 < w → cell w (rollup_row w r g) = cell w r.
Proof. intros Hw. unfold cell. cbn. by rewrite Z.div_mul by lia. Qed.

Lemma rebuild_map `{Countable K} {V} (keyOf : V → K) (countOf : V → Z) (elem : K → Z → V) (m : gmap K Z) :
  (∀ k c, keyOf (elem k c) = k ∧ countOf (elem k c) = c) →
  rebuild keyOf countOf ((λ kc, elem kc.1 kc.2) <$> map_to_list m) = m.
Proof. intros He. by apply (rebuild_perm _ _ m elem). Qed.

Lemma rollup_row_maps w r g :
  sketchMap (rollup_row w r g) = sumMap sketchMap g ∧ statusCodeMap (rollup_row w r g) = sumMap statusCodeMap g ∧
  errorClassMap (rollup_row w r g) = sumMap errorClassMap g ∧
  noStatusReasonMap (rollup_row w r g) = sumMap noStatusReasonMap g.
Proof.
  split_and!; [apply (rebuild_map _ _ mkBucket)|apply (rebuild_map _ _ mkCode)|apply (rebuild_map _ _ mkClass)
              |apply (rebuild_map _ _ mkReason)]; done.
Qed.

(** Each additive column of the inserted row is the sum over its group. *)
Lemma measured_rollup_row w r g m : measured m (rollup_row w r g) = sum_of (measured m) g.
Proof.
  destruct (rollup_row_maps w r g) as (H1 & H2 & H3 & H4).
  destruct m; [done..| | | |]; cbn [measured]; rewrite ?H1, ?H2, ?H3, ?H4; apply sumMap_count.
Qed.

Lemma rollup_same_cube w block : 0 < w → same_cube w (rollup w block) block.
Proof.
  intros Hw P HP. set (key := rollup_key w).
  assert (HPk : ∀ r r', key r = key r' → P r = P r') by (intros r r' Hk; by apply HP, rollup_key_cell).
  assert (Hrow : ∀ r g, P (rollup_row w r g) = P r) by (intros r g; by apply HP, rollup_row_cell).
  split.
  - rewrite !Exists_exists. split.
    + intros (row & Hrow' & Hp). apply list_elem_of_omap in Hrow' as (k & Hk & Hr).
      destruct (head_group key block k Hk) as (r & Hh & Hin & _). cbv zeta in Hr. fold key in Hr. rewrite Hh in Hr. cbn in Hr.
      injection Hr as <-. rewrite Hrow in Hp. by exists r.
    + intros (r & Hin & Hp). assert (Hk : key r ∈ keys_of key block).
      { unfold keys_of. rewrite elem_of_remove_dups. by apply list_elem_of_fmap_2. }
      destruct (head_group key block (key r) Hk) as (r0 & Hh & _ & Hk0).
      exists (rollup_row w r0 (group_of key block (key r))). split; [|by rewrite Hrow, (HPk _ _ Hk0)].
      apply list_elem_of_omap. exists (key r). split; [done|]. cbv zeta. fold key. by rewrite Hh.
  - intros m. rewrite !sum_select. unfold sumIf at 2. rewrite (sum_of_groups key).
    unfold sumIf, rollup. rewrite sum_of_omap. apply sum_of_ext. intros k Hk. cbv zeta. fold key in Hk |- *.
    destruct (head_group key block k Hk) as (r & Hh & _ & Hkr). rewrite Hh. cbn.
    rewrite Hrow, measured_rollup_row. f_equal.
    transitivity (sum_of (λ x, if P r then measured m x else 0) (group_of key block k)).
    + destruct (P r); [done|]. unfold sum_of, sumZ. clear. induction (group_of key block k); cbn; lia || done.
    + apply sum_of_ext. intros x Hx. apply list_elem_of_filter in Hx as [Hkx _].
      by rewrite (HPk x r) by congruence.
Qed.

(** ** The columns of the queries are functions of the cube *)

Section columns.
Context (w : Duration) `{SqlLib} `{MathLib}.
Implicit Types (l g : list Row).

Lemma sees_class : sees w StatusClass.
Proof. intros r r' Hc. injection Hc as _ _ _ _ _ -> _ _. done. Qed.

Lemma same_cube_sumIf m P g g' :
  sees w P → same_cube w g g' → sumIf (measured m) P g = sumIf (measured m) P g'.
Proof. intros HP Hg. rewrite <-!sum_select. apply (same_cube_sum w). by apply same_cube_select. Qed.

Lemma sees_server_error : sees w is_server_error.
Proof. intros r r' Hc. unfold is_server_error. by rewrite (sees_class r r' Hc). Qed.
Lemma sees_has_class s : sees w (has_class s).
Proof. intros r r' Hc. unfold has_class. by rewrite (sees_class r r' Hc). Qed.

Lemma same_cube_map `{Countable K} (f : Row → gmap K Z) (mk : K → measure) g g' :
  (∀ k r, measured (mk k) r = count_at (f r) k) → same_cube w g g' → sumMap f g = sumMap f g'.
Proof.
  intros Hmk Hg. apply nonzero_map_eq; [apply sumMap_nonzero..|]. intros k. rewrite !sumMap_count.
  pose proof (same_cube_sum w g g' (mk k) Hg) as Hs. unfold sum_of in Hs |- *.
  rewrite <-!(list_fmap_ext (measured (mk k)) (λ x, count_at (f x) k)) in * by (intros; apply Hmk). exact Hs.
Qed.

Lemma same_cube_columns g g' :
  same_cube w g g' →
  total_count g = total_count g' ∧ error_count g = error_count g' ∧ client_count g = client_count g' ∧
  merged g = merged g' ∧ sum_of ReqBytes g = sum_of ReqBytes g' ∧ sum_of RespBytes g = sum_of RespBytes g'.
Proof.
  intros Hg. split_and!.
  - exact (same_cube_sum w g g' MCount Hg).
  - exact (same_cube_sumIf MCount _ g g' sees_server_error Hg).
  - exact (same_cube_sumIf MCount _ g g' (sees_has_class _) Hg).
  - by apply (same_cube_map _ MSketch).
  - exact (same_cube_sum w g g' MReq Hg).
  - exact (same_cube_sum w g g' MResp Hg).
Qed.

Lemma same_cube_red g g' :
  same_cube w g g' →
  total_count g = total_count g' ∧ (∀ q, percentile q g = percentile q g') ∧
  per_request (error_count g) g = per_request (error_count g') g' ∧
  per_request (sum_of ReqBytes g) g = per_request (sum_of ReqBytes g') g' ∧
  per_request (sum_of RespBytes g) g = per_request (sum_of RespBytes g') g'.
Proof.
  intros (H1 & H2 & H3 & H4 & H5 & H6)%same_cube_columns. unfold percentile, per_request.
  rewrite H1, H2, H4, H5, H6. done.
Qed.

(** A statement grouped and ordered by a key the granularity sees. *)
Lemma same_cube_grouped {A} `{EqDecision K} (less : K → K → bool) (key : Row → K) (stat : K → list Row → A) l l' :
  (∀ x y, less x y = true → less y x = false) → (∀ x y z, less y x = false → less z y = false → less z x = false) →
  (∀ x y, less x y = false → less y x = false → x = y) →
  sees w key → (∀ k g g', same_cube w g g' → stat k g = stat k g') → same_cube w l l' →
  (λ k, stat k (group_of key l k)) <$> sort_stable less (keys_of key l) =
  (λ k, stat k (group_of key l' k)) <$> sort_stable less (keys_of key l').
Proof.
  intros Hasym Htrans Htot Hkey Hstat Hl.
  assert (Anti : AntiSymm (=) (λ x y, less y x = false)) by (intros x y ? ?; by apply Htot).
  assert (Hsort : sort_stable less (keys_of key l) = sort_stable less (keys_of key l')).
  { apply (StronglySorted_unique (λ x y, less y x = false)); [by apply sort_stable_sorted..|].
    rewrite !sort_stable_perm. apply NoDup_Permutation; [apply NoDup_remove_dups..|].
    intros k. by apply (same_cube_keys w). }
  rewrite Hsort. apply list_fmap_ext. intros i k _. apply Hstat. by apply same_cube_group.
Qed.

(** *** Aligned windows *)

Lemma aligned_ge a t : 0 < w → (w | a) → (a <=? t) = (a / w <=? t / w).
Proof.
  intros Hw [k ->]. rewrite Z.div_mul by lia. destruct (Z.leb_spec k (t / w)) as [Hk|Hk].
  - apply Z.leb_le. pose proof (Z.mul_div_le t w Hw). nia.
  - apply Z.leb_gt. pose proof (Z.mul_succ_div_gt t w Hw). nia.
Qed.

Lemma sees_in_window c from to :
  0 < w → (w | c_bind c from) → (w | c_bind c to) → sees w (λ r, in_window c from to (WindowStart r)).
Proof.
  intros Hw Hf Ht r r' Hc. injection Hc as _ _ _ _ _ _ _ Hs. unfold in_window.
  rewrite !Z.ltb_antisym, !(aligned_ge (c_bind c from)), !(aligned_ge (c_bind c to)), Hs by done. done.
Qed.

Lemma sees_endpoint c id service method route from to :
  0 < w → (w | c_bind c from) → (w | c_bind c to) → sees w (where_endpoint c id service method route from to).
Proof.
  intros Hw Hf Ht r r' Hc. pose proof (sees_in_window c from to Hw Hf Ht r r' Hc) as Hin.
  unfold where_endpoint, of_tenant. rewrite Hin. injection Hc as -> -> _ -> -> _ _ _. done.
Qed.

Lemma sees_bucket n : 0 < w → 0 < n → (w | n * Second) → sees w (λ r, toStartOfInterval n (WindowStart r)).
Proof.
  intros Hw Hn [k Hk] r r' Hc. injection Hc as _ _ _ _ _ _ _ Hs. unfold toStartOfInterval.
  assert (0 < k) by (unfold Second, Millisecond in *; nia).
  rewrite Hk, (Z.mul_comm k w), <-!Z.div_div, Hs by lia. done.
Qed.
End columns.

(** ** Tables the views keep *)

(** The granularity of a tier; the raw tier keeps every window. *)
Definition granularity (tbl : string) : Duration :=
  if bool_decide (tbl = table1m) then Minute
  else if bool_decide (tbl = table1h) then Hour
  else if bool_decide (tbl = table1d) then 24 * Hour else 1.

(** Each inserted block runs through the cascade: the view of a tier reads what the tier
    below received. *)
Definition tier_of (tbl : string) (block : list Row) : list Row :=
  if bool_decide (tbl = table1m) then rollup Minute block
  else if bool_decide (tbl = table1h) then rollup Hour (rollup Minute block)
  else if bool_decide (tbl = table1d) then rollup (24 * Hour) (rollup Hour (rollup Minute block))
  else block.

(** *** The engine

    Every tier is an [AggregatingMergeTree] ordered by [cell 1]: at any time it may replace
    two rows with equal sorting keys by one whose additive columns are their sums; what
    becomes of the other columns is left open. *)
Record merges (r r' m : Row) : Prop := {
  mg_key : cell 1 r = cell 1 r';
  mg_kept : cell 1 m = cell 1 r;
  mg_sums : ∀ x, measured x m = u64 (measured x r + measured x r');
}.

Inductive collapses : list Row → list Row → Prop :=
  | collapse_order l l' : l ≡ₚ l' → collapses l l'
  | collapse_merge r r' m l : merges r r' m → collapses (r :: r' :: l) (m :: l)
  | collapse_more l l' l'' : collapses l l' → collapses l' l'' → collapses l l''.

(** Merging is what a view does to a group. *)
Lemma merges_rollup r r' : cell 1 r = cell 1 r' → merges r r' (rollup_row 1 r [r; r']).
Proof.
  intros Hk. split; [done|by apply rollup_row_cell|]. intros x. rewrite measured_rollup_row.
  unfold sum_of, sumZ. cbn. by rewrite Z.add_0_r.
Qed.

Lemma select_cons {A} (P : A → bool) x l : select P (x :: l) = if P x then x :: select P l else select P l.
Proof. unfold select. rewrite filter_cons. destruct (P x); [by rewrite decide_True|by rewrite decide_False]. Qed.

Lemma collapses_same_cube l l' : collapses l l' → same_cube 1 l l'.
Proof.
  induction 1 as [l l' Hp|r r' m l [Hk Hc Hs]|l l' l'' _ IH _ IH']; [| |by transitivity l'].
  - intros P _. split; [by rewrite Hp|]. intros x. apply sum_of_perm. unfold select. by rewrite Hp.
  - intros P HP. split.
    + rewrite !Exists_cons, (HP _ _ Hc), (HP _ _ Hk). tauto.
    + intros x. rewrite !select_cons, (HP _ _ Hc), (HP _ _ Hk). destruct (P r'); [|done].
      rewrite !sum_of_cons, Hs, u64_add_l, u64_add_r. f_equal. lia.
Qed.

(** The tables after the blocks were inserted. *)
Definition fed (c : Conn) (blocks : list (list Row)) : Prop :=
  ∀ tbl, tbl ∈ tierTables → collapses (concat (tier_of tbl <$> blocks)) (c_table c tbl).

(** The same connection with the raw rows in every table. *)
Definition on_raw (c : Conn) (blocks : list (list Row)) : Conn :=
  mkConn (λ _, concat blocks) (c_gauges c) (c_parts c) (c_fault c) (c_bind c) (@c_shuffle c).

Lemma tier_same_cube tbl block : same_cube (granularity tbl) (tier_of tbl block) block.
Proof.
  assert (H1 : same_cube Minute (rollup Minute block) block) by by apply rollup_same_cube.
  assert (H2 : same_cube Hour (rollup Hour (rollup Minute block)) block).
  { rewrite rollup_same_cube by done. change Hour with (Minute * 60). by apply same_cube_coarser. }
  unfold tier_of, granularity. case_bool_decide; [done|]. case_bool_decide; [done|]. case_bool_decide; [|done].
  rewrite rollup_same_cube by done. change (24 * Hour) with (Hour * 24). by apply same_cube_coarser.
Qed.

Lemma granularity_pos tbl : 0 < granularity tbl.
Proof. unfold granularity. repeat case_bool_decide; done. Qed.

Lemma fed_same_cube c blocks tbl :
  fed c blocks → tbl ∈ tierTables → same_cube (granularity tbl) (c_table c tbl) (concat blocks).
Proof.
  intros Hf Ht. transitivity (concat (tier_of tbl <$> blocks)).
  - rewrite <-(Z.mul_1_l (granularity tbl)). apply same_cube_coarser; [done|apply granularity_pos|]. symmetry. by apply collapses_same_cube, Hf.
  - apply same_cube_concat. clear. induction blocks; constructor; [apply tier_same_cube|done].
Qed.

Section exact.
Context `{SqlLib} `{MathLib}.
Implicit Types (c : Conn) (id : tenant.ID) (service method route : string) (from to : Time).

(** The window's bounds, as the driver renders them, fall on the tier's granularity. *)
Definition aligned c from to : Prop :=
  (granularity (table (selectTier from to)) | c_bind c from) ∧ (granularity (table (selectTier from to)) | c_bind c to).

Lemma selectTier_known from to : table (selectTier from to) ∈ tierTables.
Proof. unfold selectTier, tierTables. repeat case_match; cbn; set_solver. Qed.

Lemma tierQuery_table from to : tierQuery from to = Ok (table (selectTier from to)).
Proof. unfold tierQuery. rewrite bool_decide_false; [done|]. intros Hn. apply Hn, selectTier_known. Qed.

Lemma run_list_raw {A} c blocks op (l : list A) : run_list (on_raw c blocks) op l = run_list c op l.
Proof. done. Qed.

Lemma breakdown_exact {A} c blocks id service method route from to op (columns : list Row → list A) :
  fed c blocks → aligned c from to →
  (∀ l l', same_cube (granularity (table (selectTier from to))) l l' → columns l = columns l') →
  endpoint_breakdown c id service method route from to op columns =
  endpoint_breakdown (on_raw c blocks) id service method route from to op columns.
Proof.
  intros Hf [Ha Hb] Hc. unfold endpoint_breakdown, on_tier. rewrite tierQuery_table, run_list_raw. f_equal.
  apply Hc. cbn [c_table on_raw]. 
  change (where_endpoint (on_raw c blocks) id service method route from to) with (where_endpoint c id service method route from to).
  apply same_cube_select; [|by apply fed_same_cube; [|apply selectTier_known]].
  apply sees_endpoint; [apply granularity_pos|done..].
Qed.

Lemma by_key_exact {A} w (key : Row → string) (stat : string → list Row → A) l l' :
  sees w key → (∀ k g g', same_cube w g g' → stat k g = stat k g') → same_cube w l l' →
  by_key key stat l = by_key key stat l'.
Proof. apply same_cube_grouped; [exact str_ltb_asym|exact str_nltb_trans|exact str_ltb_total]. Qed.

Lemma series_exact w n l l' :
  0 < w → 0 < n → (w | n * Second) → same_cube w l l' → series_select n l = series_select n l'.
Proof.
  intros Hw Hn Hd. unfold series_select. apply same_cube_grouped; try (intros; lia).
  - by apply sees_bucket.
  - intros b g g' Hg. unfold time_point. by destruct (same_cube_red w g g' Hg) as (-> & Hp & -> & _ & _); rewrite !Hp.
Qed.

Lemma SeriesOverTime_exact c blocks id service method route from to step :
  fed c blocks → aligned c from to →
  (∀ tbl s, buildSeriesQuery from to step = Ok (tbl, s) → (granularity tbl | s * Second)) →
  SeriesOverTime c id service method route from to step =
  SeriesOverTime (on_raw c blocks) id service method route from to step.
Proof.
  intros Hf [Ha Hb] Hstep. unfold SeriesOverTime.
  destruct (buildSeriesQuery from to step) as [[tbl s]|] eqn:E; [|done].
  assert (Htbl : tbl = table (selectTier from to) ∧ 0 < s).
  { unfold buildSeriesQuery in E. case_bool_decide; [done|]. destruct (Z.leb_spec (Z.quot (if step <? minStep (selectTier from to) then minStep (selectTier from to) else step) Second) 0); [done|].
    by injection E as <- <-. }
  destruct Htbl as [-> Hs]. rewrite run_list_raw. f_equal.
  apply (series_exact _ _ _ _ (granularity_pos _) Hs (Hstep _ _ eq_refl)).
  apply same_cube_select; [|by apply fed_same_cube; [|apply selectTier_known]].
  apply sees_endpoint; [apply granularity_pos|done..].
Qed.

Lemma instances_exact w l l' : same_cube w l l' → by_key Instance_ instance_stat l = by_key Instance_ instance_stat l'.
Proof.
  apply by_key_exact.
  - intros r r' Hc. injection Hc as _ _ -> _ _ _ _ _. done.
  - intros k g g' Hg. unfold instance_stat.
    by destruct (same_cube_red w g g' Hg) as (-> & Hp & -> & -> & ->); rewrite !Hp.
Qed.

Lemma versions_exact w l l' : same_cube w l l' → by_key DeployVersion version_stat l = by_key DeployVersion version_stat l'.
Proof.
  apply by_key_exact.
  - intros r r' Hc. injection Hc as _ _ _ _ _ _ -> _. done.
  - intros k g g' Hg. unfold version_stat.
    by destruct (same_cube_red w g g' Hg) as (-> & Hp & -> & _ & _); rewrite !Hp.
Qed.

Lemma downstream_exact c blocks id service method route from to :
  fed c blocks → aligned c from to →
  DownstreamForEndpoint c id service method route from to =
  DownstreamForEndpoint (on_raw c blocks) id service method route from to.
Proof.
  intros Hf [Ha Hb]. unfold DownstreamForEndpoint. rewrite tierQuery_table.
  set (w := granularity (table (selectTier from to))) in *.
  assert (Hg : same_cube w (select (where_endpoint c id service method route from to) (c_table c (table (selectTier from to))))
                 (select (where_endpoint c id service method route from to) (concat blocks))).
  { apply same_cube_select; [|by apply fed_same_cube; [|apply selectTier_known]].
    apply sees_endpoint; [apply granularity_pos|done..]. }
  cbv zeta. cbn [c_table on_raw].
  pose proof (same_cube_sum _ _ _ MCount Hg : sum_of Count _ = sum_of Count _) as H1.
  pose proof (same_cube_sum _ _ _ MDuration Hg : sum_of Storage.SumDurationNs _ = sum_of Storage.SumDurationNs _) as H2.
  pose proof (same_cube_sum _ _ _ MDownstream Hg : sum_of Storage.SumDownstreamNs _ = sum_of Storage.SumDownstreamNs _) as H3.
  unfold total_count. by rewrite H1, H2, H3.
Qed.

Lemma detail_columns_exact w l l' : same_cube w l l' → detail_columns l = detail_columns l'.
Proof.
  intros Hl. destruct (same_cube_columns w l l' Hl) as (H1 & _ & _ & H4 & _ & _). unfold detail_columns.
  rewrite H1, H4, (same_cube_map w statusCodeMap MCode l l') by done.
  by rewrite !(same_cube_sumIf w MCount _ l l' (sees_has_class w _) Hl).
Qed.

Lemma detail_exact c blocks id service method route from to :
  fed c blocks → aligned c from to →
  QueryEndpointDetail c id service method route from to =
  QueryEndpointDetail (on_raw c blocks) id service method route from to.
Proof.
  intros Hf [Ha Hb]. unfold QueryEndpointDetail. rewrite tierQuery_table. cbv zeta. cbn [c_table on_raw].
  set (P := λ r : Row, _ && in_window c from to (WindowStart r)).
  change (λ r : Row, _ && in_window (on_raw c blocks) from to (WindowStart r)) with P.
  assert (Hg : same_cube (granularity (table (selectTier from to))) (select P (c_table c (table (selectTier from to))))
                 (select P (concat blocks))).
  { apply same_cube_select; [|by apply fed_same_cube; [|apply selectTier_known]].
    intros r r' Hc. pose proof (sees_in_window _ c from to (granularity_pos _) Ha Hb r r' Hc) as Hin.
    unfold P, of_tenant. rewrite Hin. injection Hc as -> -> _ -> -> _ _ _. done. }
  unfold Query. change (c_fault (on_raw c blocks)) with (c_fault c).
  destruct (c_fault c "EndpointDetail"); cbn; try done.
  - by rewrite (detail_columns_exact _ _ _ Hg).
  - destruct row; [done|]. cbn. by rewrite (detail_columns_exact _ _ _ Hg).
  - by destruct after.
Qed.
End exact.

(** [C11] Rollups are exact. Where every table is what the cascade of views made of the inserted
    blocks and whatever merging of equal sorting keys the engine did since, and the window
    and the step fall on the granularity of the tier the code picks, each query answers from
    that tier exactly what it would answer from the raw rows: the series, the breakdowns by
    instance, version, error class and no-status reason, the downstream split and the
    endpoint aggregate with its histogram. *)
Theorem rollups_are_exact `{SqlLib} `{MathLib} c blocks id service method route from to step :
  fed c blocks → aligned c from to →
  (∀ tbl s, buildSeriesQuery from to step = Ok (tbl, s) → (granularity tbl | s * Second)) →
  let raw := on_raw c blocks in
  SeriesOverTime c id service method route from to step = SeriesOverTime raw id service method route from to step ∧
  InstancesForEndpoint c id service method route from to = InstancesForEndpoint raw id service method route from to ∧
  VersionsForEndpoint c id service method route from to = VersionsForEndpoint raw id service method route from to ∧
  ErrorClassesForEndpoint c id service method route from to = ErrorClassesForEndpoint raw id service method route from to ∧
  NoStatusReasonsForEndpoint c id service method route from to =
    NoStatusReasonsForEndpoint raw id service method route from to ∧
  DownstreamForEndpoint c id service method route from to = DownstreamForEndpoint raw id service method route from to ∧
  QueryEndpointDetail c id service method route from to = QueryEndpointDetail raw id service method route from to.
Proof.
  intros Hf Hal Hstep raw. split_and!.
  - by apply SeriesOverTime_exact.
  - apply breakdown_exact; [done..|]. apply instances_exact.
  - apply breakdown_exact; [done..|]. apply versions_exact.
  - apply breakdown_exact; [done..|]. intros l l' Hl. by rewrite (same_cube_map _ errorClassMap MClass l l' (λ _ _, eq_refl) Hl).
  - apply breakdown_exact; [done..|]. intros l l' Hl.
    by rewrite (same_cube_map _ noStatusReasonMap MReason l l' (λ _ _, eq_refl) Hl).
  - by apply downstream_exact.
  - by apply detail_exact.
Qed.

(** Two blocks of two windows each, and a connection whose tables the views filled. *)
Definition toy_row (service instance class : string) (sec : Z) (sketch : gmap Z Z) (n : Z) : Row :=
  NewRow (tenant.mkID "acme") service instance "GET" "/a" class (UnixSec sec) (UnixSec (sec + 10)) n (n * 5) 0 0
    sketch ∅ "v1" "" "" "" 0 9 [] ∅ ∅ 0.
Definition toy_blocks : list (list Row) :=
  [[toy_row "api" "i1" "STATUS_CLASS_2XX" 60 {[ 3 := 2 ]} 2; toy_row "api" "i1" "STATUS_CLASS_2XX" 70 {[ 3 := 1; 9 := 4 ]} 5];
   [toy_row "api" "i2" "STATUS_CLASS_5XX" 80 {[ 9 := 1 ]} 1; toy_row "api" "i1" "STATUS_CLASS_2XX" 130 {[ 1 := 1 ]} 1]].
Definition toy_conn : Conn :=
  mkConn (λ tbl, concat (tier_of tbl <$> toy_blocks)) [] (λ _, None) (λ _, NoFault) (λ t, t / Second * Second) (λ _ l, l).

Definition sql_math : SqlLib := {| sql_pow := go_pow |}.

Lemma toy_fed : fed toy_conn toy_blocks.
Proof. intros tbl _. by apply collapse_order. Qed.
Lemma toy_aligned : aligned toy_conn 0 (180 * Minute).
Proof. split; [by exists 0|by exists 180]. Qed.
Lemma toy_step tbl s : buildSeriesQuery 0 (180 * Minute) Minute = Ok (tbl, s) → (granularity tbl | s * Second).
Proof. intros Hb. vm_compute in Hb. injection Hb as <- <-. by exists 1. Qed.

Lemma rollups_are_exact_witness :
  let _ := sql_math in let _ := go_math in
  let id := tenant.mkID "acme" in let until := 180 * Minute in
  let series c := SeriesOverTime c id "api" "" "" 0 until Minute in
  let instances c := InstancesForEndpoint c id "api" "" "" 0 until in
  table (selectTier 0 until) = table1m ∧
  series toy_conn = series (on_raw toy_conn toy_blocks) ∧
  instances toy_conn = instances (on_raw toy_conn toy_blocks).
Proof.
  cbv zeta. split; [reflexivity|].
  destruct (@rollups_are_exact sql_math go_math toy_conn toy_blocks (tenant.mkID "acme") "api" "" "" 0 (180 * Minute) Minute
              toy_fed toy_aligned toy_step) as (H1 & H2 & _).
  exact (conj H1 H2).
Defined.
