(* ===== verification/EndToEnd.v ===== *)
(** * From a request to the dashboard

    The client's windows, the collector's rows, the rollup tiers and the query of the
    dashboard, end to end: what a point of a time series says about the requests that were
    observed. *)

From Stdlib Require Import ZArith Lia Floats.
From Stdlib Require String.
From stdpp Require Import base option gmap fin_maps strings list sorting.
From S2P Require Import Prelude GoFloat GoString GoTime GoMath Wire Sketch Series Recorder.
From S2P Require Import Storage Guardrail Ingest Sql Views Query Rollup.

Local Open Scope Z_scope.

(** ** The wire form of a merge *)

Section merge.
Context {M : MathLib} {Hspan : @Span M}.
Implicit Types (s a b : DDSketch).

Lemma nonzero_from_elem bs i k c :
  (k, c) ∈ nonzero_from bs i ↔ ∃ j, bs !! j = Some c ∧ c ≠ 0 ∧ k = i + Z.of_nat j + minIndex.
Proof.
  revert i. induction bs as [|x bs IH]; intros i; cbn [nonzero_from].
  { split; [by intros ?%not_elem_of_nil|by intros (j & ? & _)]. }
  assert (Htail : (k, c) ∈ nonzero_from bs (i + 1) ↔
                  ∃ j, (x :: bs) !! S j = Some c ∧ c ≠ 0 ∧ k = i + Z.of_nat (S j) + minIndex).
  { rewrite IH. split; intros (j & Hj & Hc & Hk); exists j; (split; [done|]; split; [done|]); lia. }
  destruct (Z.eqb_spec x 0) as [->|Hx].
  - rewrite Htail. split; [intros (j & ?); by exists (S j)|].
    intros ([|j] & Hj & Hc & Hk); [by injection Hj as <-|]. by exists j.
  - rewrite elem_of_cons, Htail. split.
    + intros [[= -> ->]|(j & ?)]; [exists 0%nat; split; [done|]; split; [done|lia]|by exists (S j)].
    + intros ([|j] & Hj & Hc & Hk); [left|right; by exists j]. injection Hj as ->. f_equal. lia.
Qed.

Lemma Buckets_lookup s k c :
  wf s → Buckets s !! k = Some c ↔ ∃ j, buckets s !! j = Some c ∧ c ≠ 0 ∧ k = Z.of_nat j + minIndex.
Proof.
  intros [L F C]. rewrite <-elem_of_map_to_list. unfold Buckets.
  rewrite buckets_from_enum by (rewrite ?L; try lia; intros; apply lookup_empty).
  rewrite map_to_list_empty, app_nil_r, nonzero_from_elem. by setoid_rewrite Z.add_0_l.
Qed.

(** The counter of an index: that of its array position. *)
Lemma Buckets_count s k :
  wf s → count_at (Buckets s) k =
  if decide (minIndex ≤ k) then default 0 (buckets s !! Z.to_nat (k - minIndex)) else 0.
Proof.
  intros Hwf. unfold count_at. destruct (Buckets s !! k) as [c|] eqn:E.
  - apply (Buckets_lookup s k c Hwf) in E as (j & Hj & _ & ->). rewrite decide_True by lia.
    replace (Z.to_nat (Z.of_nat j + minIndex - minIndex)) with j by lia. by rewrite Hj.
  - case_decide as Hk; [|done]. destruct (buckets s !! _) as [c|] eqn:Ec; [|done]. cbn.
    destruct (decide (c = 0)) as [->|Hc]; [done|].
    assert (Hs : Buckets s !! k = Some c); [|congruence]. apply (Buckets_lookup s k c Hwf).
    eexists. split; [exact Ec|]. split; [done|lia].
Qed.

Lemma Buckets_Merge_count a b k :
  wf a → wf b → count_at (Buckets (Merge a b)) k = u64 (count_at (Buckets a) k + count_at (Buckets b) k).
Proof.
  intros Ha Hb. rewrite !Buckets_count by auto using wf_Merge. case_decide; [|done].
  unfold Merge. cbn [buckets]. rewrite lookup_zip_with.
  destruct Ha as [La _ _], Hb as [Lb _ _]. set (j := Z.to_nat (k - minIndex)).
  destruct (buckets a !! j) as [x|] eqn:Ea; cbn.
  - destruct (lookup_lt_is_Some_2 (buckets b) j) as [y Ey]; [apply lookup_lt_Some in Ea; lia|]. by rewrite Ey.
  - rewrite (lookup_ge_None_2 (buckets b)); [done|]. apply lookup_ge_None in Ea. lia.
Qed.

Lemma Buckets_nonzero s k c : wf s → Buckets s !! k = Some c → c ≠ 0.
Proof. intros Hwf (j & _ & Hc & _)%(Buckets_lookup s k c Hwf). done. Qed.

(** The counters of a fed sketch add up to at most the number of observations. *)
Lemma AddAll_sum_le vs s s' :
  wf s → AddAll vs s = Ret s' → sumZ (buckets s') ≤ sumZ (buckets s) + Z.of_nat (length vs).
Proof.
  revert s. induction vs as [|v vs IH]; intros s Hwf H; cbn in H; [injection H as <-; cbn; lia|].
  destruct (Add s v) as [s1|] eqn:E; [|done]. pose proof (wf_Add _ _ _ Hwf E) as Hwf1.
  apply Add_Ret in E as (_ & [c Hc] & ->). specialize (IH _ Hwf1 H). cbn [length].
  cbn [add_at buckets] in IH. rewrite (sumZ_alter _ _ _ _ Hc) in IH.
  assert (u64 (c + 1) ≤ c + 1).
  { destruct Hwf as [_ F _]. rewrite Forall_lookup in F. specialize (F _ _ Hc).
    unfold u64, is_u64 in *. apply Z.mod_le; lia. }
  lia.
Qed.
End merge.

(** ** What a stored row records *)

Definition latencies (rs : recordings) : list f64 := dur_seconds ∘ ObsDuration ∘ fst <$> rs.

(** The row is the conversion of the summary of a window's series, which aggregates the
    requests [rs] of one key. *)
Definition recorded `{MathLib} (row : Row) (rs : recordings) : Prop :=
  ∃ tid service instance d key a startMs endMs start end_,
    aggregates rs a ∧ Forall (λ r, obs_key r.1 = key) rs ∧
    summaryToRow tid service instance d (build_summary startMs endMs (key, a)) start end_ = Ok row.

(** A request the server failed: a 5xx answer or none at all. *)
Definition server_failure (rec : Observation) : bool :=
  match key_class (obs_key rec) with SC_5XX | SC_NO_STATUS => true | _ => false end.

Section shown.
Context {M : MathLib} {Hspan : @Span M} `{SqlLib}.

Lemma recorded_columns row rs :
  recorded row rs →
  ∃ s, AddAll (latencies rs) New = Ret s ∧ sketchMap row = Buckets s ∧
       Storage.Count row = u64 (Z.of_nat (length rs)) ∧
       ∀ r, r ∈ rs → is_server_error row = server_failure r.1.
Proof.
  intros (tid & service & instance & d & key & a & startMs & endMs & start & end_ & Hag & Hkey & Hrow).
  cbn in Hrow. injection Hrow as <-. exists (sk a). split; [apply (ag_sketch _ _ Hag)|]. split.
  - unfold sketchMap. cbn. by apply (rebuild_perm _ _ _ mkBucket); [|apply sort_stable_perm].
  - split; [apply (ag_count _ _ Hag)|]. intros r Hr. rewrite Forall_forall in Hkey.
    unfold is_server_error, server_failure. rewrite (Hkey r Hr). cbn. by destruct (key_class key).
Qed.

(** The sum over one more row. *)
(** A group of recorded rows reads as one sketch fed with all their requests. *)
Lemma group_is_sketch (reqs : Row → recordings) g :
  (∀ row, row ∈ g → recorded row (reqs row)) →
  let rs := g ≫= reqs in
  ∃ s, AddAll (latencies rs) New = Ret s ∧ wf s ∧ merged g = Buckets s ∧
       total_count g = u64 (Z.of_nat (length rs)) ∧
       error_count g = u64 (Z.of_nat (length (select (λ r, server_failure r.1) rs))).
Proof.
  cbn zeta. induction g as [|row g IH]; intros Hg.
  { exists New. split; [done|]. split; [apply wf_New|]. split; [|done].
    apply nonzero_map_eq; [apply sumMap_nonzero|intros k c; apply Buckets_nonzero, wf_New|].
    intros k. unfold merged. rewrite sumMap_count, Buckets_count by apply wf_New. case_decide; [|done].
    unfold New. cbn [buckets]. destruct (replicate numBuckets 0 !! _) eqn:E; [|done].
    by apply lookup_replicate in E as [-> _]. }
  destruct IH as (s2 & H2 & Hwf2 & Hm & Ht & He); [intros; apply Hg; by constructor|].
  destruct (recorded_columns row (reqs row)) as (s1 & H1 & Hsk & Hc & Herr); [apply Hg; constructor|].
  pose proof (wf_AddAll _ _ _ wf_New H1) as Hwf1. cbn [mbind list_bind].
  exists (Merge s1 s2). unfold latencies. rewrite fmap_app. split; [by apply AddAll_split|].
  split; [by apply wf_Merge|]. split; [|split].
  - apply nonzero_map_eq; [apply sumMap_nonzero|intros k c; by apply Buckets_nonzero, wf_Merge|].
    intros k. unfold merged in Hm |- *. rewrite sumMap_count, sum_of_cons, Hsk, <-sumMap_count, Hm.
    by rewrite Buckets_Merge_count.
  - unfold total_count in Ht |- *. rewrite sum_of_cons, Hc, Ht, length_app. solve_u64.
  - unfold error_count, sumIf in He |- *. rewrite sum_of_cons, He, select_app, length_app.
    assert (Hs : (if is_server_error row then Storage.Count row else 0) =
                 u64 (Z.of_nat (length (select (λ r, server_failure r.1) (reqs row))))).
    { rewrite (select_const _ (is_server_error row)) by (intros r Hr; by rewrite <-(Herr r Hr)).
      by destruct (is_server_error row). }
    rewrite Hs. solve_u64.
Qed.
End shown.

(** The quantile of the sketch fed with [vs] falls in the bucket whose value is shown. *)
Definition shows `{MathLib} `{SqlLib} (vs : list f64) (q shown : f64) : Prop :=
  ∃ s i, AddAll vs New = Ret s ∧ shown = sql_value i ∧ Quantile s q = bucketValue i.

Section shown.
Context {M : MathLib} {Hspan : @Span M} `{SqlLib}.

Lemma in_span_keys s : wf s → in_span s → ∀ i, is_Some (Buckets s !! i) → minIndex ≤ i ≤ maxIndex.
Proof.
  intros Hwf Hsp i [c (j & Hj & Hc & ->)%(Buckets_lookup s i c Hwf)]. split; [lia|].
  destruct (Z_le_gt_dec (Z.of_nat j) (maxIndex - minIndex)); [lia|]. exfalso. apply Hc.
  specialize (Hsp j). rewrite Hj in Hsp. apply Hsp. lia.
Qed.

Lemma group_shows (reqs : Row → recordings) g q :
  log_nondecreasing → (∀ row, row ∈ g → recorded row (reqs row)) → unit_interval q →
  rank_fits q (Z.of_nat (length (g ≫= reqs))) →
  shows (latencies (g ≫= reqs)) q (percentile q g).
Proof.
  intros Hlog Hg Hq Hr. destruct (group_is_sketch reqs g Hg) as (s & Hs & Hwf & Hm & Ht & _).
  set (n := Z.of_nat (length (g ≫= reqs))) in *.
  assert (Hn : 1 ≤ n < 2 ^ 63) by (destruct Hr; lia).
  assert (Hu : u64 n = n) by (apply u64_small; unfold is_u64; lia). rewrite Hu in Ht.
  destruct (Add_total (latencies (g ≫= reqs)) New Hlog wf_New in_span_New) as (s' & Hs' & _ & Hsp & Hcount).
  rewrite Hs in Hs'. injection Hs' as <-.
  assert (Hlen : Z.of_nat (length (latencies (g ≫= reqs))) = n) by (unfold latencies; by rewrite length_fmap).
  rewrite Hlen in Hcount. cbn [Sketch.count New] in Hcount. rewrite Z.add_0_l, Hu in Hcount.
  pose proof (AddAll_sum_le _ _ _ wf_New Hs) as Hsum. rewrite Hlen in Hsum. unfold New in Hsum at 1.
  cbn [buckets] in Hsum. rewrite sumZ_replicate_0 in Hsum.
  assert (Hmt : map_total (Buckets s) = n) by (by rewrite map_total_Buckets, Hcount).
  destruct (percentile_index_server q (Buckets s)) as [Hsrv _]; [lia|by rewrite Hmt|].
  exists s, (percentile_index q (Buckets s) n). split; [done|]. rewrite Hmt in Hsrv.
  split; [unfold percentile, percentileExpr; by rewrite Hm, Ht|].
  rewrite server_quantile in Hsrv by (by apply in_span_keys || done).
  rewrite sparse_quantile in Hsrv by (done || lia). by injection Hsrv.
Qed.
End shown.

(** [C1] The dashboard shows what the requests took. Over tables the views keep and a window
    on the granularity of its tier, where every inserted row records the requests of a
    client's window: the points cover the window, one per bucket; each counts exactly the
    requests recorded for its bucket, gives as error rate the fraction of them the server
    failed, and its p50, p95 and p99 are the value of the bucket in which the quantile of a
    single sketch fed with all of those latencies falls, whichever instances, windows,
    summaries, rollups and engine merges they came through. *)
Theorem series_shows_requests {M : MathLib} {Hspan : @Span M} `{SqlLib}
  c blocks id service method route from to step tbl n pts (reqs : Row → recordings) :
  log_nondecreasing →
  fed c blocks → aligned c from to →
  buildSeriesQuery from to step = Ok (tbl, n) → (granularity tbl | n * Second) →
  (∀ row, row ∈ concat blocks → recorded row (reqs row)) →
  SeriesOverTime c id service method route from to step = Ok pts →
  let rows := select (where_endpoint c id service method route from to) (concat blocks) in
  let bucket row := toStartOfInterval n (WindowStart row) in
  NoDup (TimePoint.TS <$> pts) ∧ (∀ row, row ∈ rows → bucket row ∈ TimePoint.TS <$> pts) ∧
  ∀ p, p ∈ pts →
    let rs := group_of bucket rows (TimePoint.TS p) ≫= reqs in
    let total := Z.of_nat (length rs) in
    total < 2 ^ 64 →
    TimePoint.Count p = total ∧
    TimePoint.ErrorRate p =
      (if (total =? 0)%Z then 0%float
       else (f64_of_Z (Z.of_nat (length (select (λ r, server_failure r.1) rs))) / f64_of_Z total)%float) ∧
    (rank_fits 0.50%float total → shows (latencies rs) 0.50%float (TimePoint.P50 p)) ∧
    (rank_fits 0.95%float total → shows (latencies rs) 0.95%float (TimePoint.P95 p)) ∧
    (rank_fits 0.99%float total → shows (latencies rs) 0.99%float (TimePoint.P99 p)).
Proof.
  intros Hlog Hf Hal Hb Hd Hrec Hpts rows bucket.
  rewrite (SeriesOverTime_exact c blocks) in Hpts; [|done..|by intros ? ? [= <- <-]%(eq_trans (eq_sym Hb))].
  unfold SeriesOverTime in Hpts. rewrite Hb in Hpts. apply run_list_Ok in Hpts. cbn [c_table on_raw] in Hpts.
  change (where_endpoint (on_raw c blocks) id service method route from to)
    with (where_endpoint c id service method route from to) in Hpts. fold rows in Hpts.
  unfold series_select in Hpts. fold bucket in Hpts.
  assert (Hts : TimePoint.TS <$> pts = sort_stable Z.ltb (keys_of bucket rows)).
  { rewrite Hpts, <-list_fmap_compose. apply list_fmap_id. }
  split; [rewrite Hts, sort_stable_perm; apply NoDup_remove_dups|].
  split; [intros row Hrow; rewrite Hts, sort_stable_perm; unfold keys_of; rewrite elem_of_remove_dups; by apply list_elem_of_fmap_2|].
  intros p Hp rs total Htot. rewrite Hpts in Hp. apply list_elem_of_fmap in Hp as (b & -> & _).
  cbn [TimePoint.TS time_point] in rs. set (g := group_of bucket rows b) in rs.
  assert (Hg : ∀ row, row ∈ g → recorded row (reqs row)).
  { intros row Hrow. apply Hrec. unfold g, group_of in Hrow. apply list_elem_of_filter in Hrow as [_ Hrow].
    unfold rows, select in Hrow. by apply list_elem_of_filter in Hrow as [_ ?]. }
  destruct (group_is_sketch reqs g Hg) as (_ & _ & _ & _ & Ht & He). fold rs total in Ht, He.
  assert (Hle : (length (select (λ r : Observation * Time, server_failure r.1) rs) ≤ length rs)%nat)
    by apply length_filter.
  rewrite u64_small in Ht by (unfold is_u64; lia). rewrite u64_small in He by (unfold is_u64; lia).
  cbn. fold g. split; [done|]. split; [unfold per_request; by rewrite Ht, He|].
  split_and!; intros Hr; by apply (group_shows reqs g).
Qed.

(** Two requests of one instance, flushed, stored and shown. *)
Definition shown_requests : recordings := [(get_ok, UnixMilli 60001); (get_ok, UnixMilli 60007)].
Definition shown_row : Row :=
  let _ := step_math in
  match summaryToRow (tenant.mkID "acme") "api" "i1" (mkDeploy "v1" "" "" "" 0)
          (build_summary 60000 70000 (obs_key get_ok, observe_all new_series shown_requests))
          (UnixMilli 60000) (UnixMilli 70000) with
  | Ok row => row
  | Err _ => toy_row "" "" "" 0 ∅ 0
  end.
Definition shown_conn : Conn :=
  mkConn (λ tbl, concat (tier_of tbl <$> [[shown_row]])) [] (λ _, None) (λ _, NoFault) (λ t, t / Second * Second) (λ _ l, l).
Definition shown_points : result string (list TimePoint.t) :=
  let _ := step_math in let _ := sql_math in
  SeriesOverTime shown_conn (tenant.mkID "acme") "api" "GET" "/users/:id" 0 (180 * Minute) Minute.

Lemma shown_recorded : @recorded step_math shown_row shown_requests.
Proof.
  exists (tenant.mkID "acme"), "api"%string, "i1"%string, (mkDeploy "v1" "" "" "" 0), (obs_key get_ok),
    (@observe_all step_math new_series shown_requests), 60000, 70000, (UnixMilli 60000), (UnixMilli 70000).
  split; [|split; [by repeat constructor|reflexivity]].
  apply (@agg_all step_math step_span step_log_nondecreasing).
Qed.

Lemma series_shows_requests_witness :
  let _ := step_math in let _ := sql_math in
  ∃ p, shown_points = Ok [p] ∧ TimePoint.Count p = 2 ∧ TimePoint.ErrorRate p = 0%float ∧
       shows (latencies shown_requests) 0.95%float (TimePoint.P95 p).
Proof.
  assert (Hp : ∃ p, shown_points = Ok [p] ∧ TimePoint.TS p = 60 * Second) by (eexists; split; vm_compute; reflexivity).
  destruct Hp as (p & Hp & Hts). exists p. split; [exact Hp|].
  assert (Hs : select (where_endpoint shown_conn (tenant.mkID "acme") "api" "GET" "/users/:id" 0 (180 * Minute))
                 (concat [[shown_row]]) = [shown_row]) by (vm_compute; reflexivity).
  destruct (@series_shows_requests step_math step_span sql_math shown_conn [[shown_row]] (tenant.mkID "acme") "api" "GET"
    "/users/:id" 0 (180 * Minute) Minute table1m 60 [p] (λ _, shown_requests)) as (_ & _ & Hall).
  - exact step_log_nondecreasing.
  - intros tbl _. apply collapse_order. reflexivity.
  - split; [by exists 0|by exists 180].
  - reflexivity.
  - by exists 1.
  - intros row Hrow. cbn [concat app] in Hrow. apply list_elem_of_singleton in Hrow as ->. exact shown_recorded.
  - exact Hp.
  - specialize (Hall p ltac:(constructor)). rewrite Hs, Hts in Hall.
    assert (Hg : group_of (λ row : Row, toStartOfInterval 60 (WindowStart row)) [shown_row] (60 * Second) = [shown_row])
      by (vm_compute; reflexivity).
    rewrite Hg in Hall. destruct Hall as (Hc & He & _ & H95 & _); [reflexivity|].
    split; [exact Hc|]. split; [rewrite He; vm_compute; reflexivity|].
    apply H95. split; [split; vm_compute; discriminate|reflexivity].
Defined.
