(* ===== verification/Range.v ===== *)
(** * Ranges and links (server/internal/web/web_range.go, view_debug.go, chrome.go)

    The time range of the endpoint page: the custom range parsed from the query, the
    width of a chart bucket, the zoom and pan links, the window switcher and the live
    toggle. The links are query strings the same code parses on the next request. *)

From Stdlib Require Import ZArith Lia Ascii.
From Stdlib Require String.
From stdpp Require Import base option gmap strings list.
From S2P Require Import Prelude GoFloat GoTime GoDate GoString GoUrl GoQuery Storage Format Views.

Local Open Scope Z_scope.
Local Infix "+++" := String.append (at level 60, right associativity).

(** ** web_range.go *)

(** The lookback of the JSON endpoints. *)
Definition window : Duration := Hour.
Definition seriesStep : Duration := Minute.
Definition minDetailSpan : Duration := 10 * Second.
Definition detailBuckets : Z := 60.

Definition customRange (now : Time) (q : Values) : option (Time * Time) :=
  let fs := Get q "from" in
  let ts := Get q "to" in
  if bool_decide (fs = ""%string ∨ ts = ""%string) then None
  else
    match ParseInt fs, ParseInt ts with
    | Some fi, Some ti =>
        let f := Unix fi in
        let t := Unix ti in
        let t := if time_after t now then now else t in
        if time_sub t f <? minDetailSpan then None else Some (f, t)
    | _, _ => None
    end.

Definition resolveDetailRange (now : Time) (q : Values) (dur : Duration) : Time * Time * bool :=
  match customRange now q with
  | Some (f, t) => (f, t, true)
  | None => (windowRange now dur, false)
  end.

Definition adaptiveStep (span : Duration) : Duration :=
  let step := Z.quot span detailBuckets in
  if step <? 10 * Second then 10 * Second else step.

(** ** view_debug.go *)

Definition detailURL (service method route winKey : string) (bounds : option (Time * Time)) : string :=
  let q := Set_ (Set_ ∅ "method" method) "route" route in
  let q := if bool_decide (winKey = ""%string) then q else Set_ q "win" winKey in
  let q := match bounds with
           | Some (from, to) =>
               Set_ (Set_ q "from" (Itoa (to_unix_sec from))) "to" (Itoa (to_unix_sec to))
           | None => q
           end in
  "/services/" +++ service +++ "/endpoint?" +++ Encode q.

Record detailRange := mkDetailRange {
  Custom : bool; Label : string; ResetHref : string; ZoomOutHref : string; PanLeftHref : string;
  PanRightHref : string;
}.

Definition range_span (from to : Time) : Duration := time_sub to from.
Definition range_half (from to : Time) : Duration := Z.quot (range_span from to) 2.

Definition zoomOut (from to now : Time) : Time * Time :=
  let half := range_half from to in
  let zt := time_add to half in
  (time_add from (dur_neg half), if time_after zt now then now else zt).

Definition panLeft (from to : Time) : Time * Time :=
  let half := range_half from to in (time_add from (dur_neg half), time_add to (dur_neg half)).

Definition panRight (from to now : Time) : option (Time * Time) :=
  if time_before to now then
    let half := range_half from to in
    let gap := time_sub now to in
    let shift := if gap <? half then gap else half in
    Some (time_add from shift, time_add to shift)
  else None.

Definition buildDetailRange (service method route winKey : string) (from to now : Time)
  (custom : bool) : detailRange :=
  let url b := detailURL service method route winKey b in
  mkDetailRange custom
    (if custom then format_short from +++ " – " +++ format_short to +++ " UTC"
     else default "" (windowText !! winKey))
    (if custom then url None else "")
    (url (Some (zoomOut from to now)))
    (url (Some (panLeft from to)))
    (match panRight from to now with Some b => url (Some b) | None => "" end).

Record debugContext := mkDebugContext {
  dcService : string; dcMethod : string; dcRoute : string; dcFrom : string; dcTo : string;
  DominantErr : string; dcVersion : string; dcP95 : string; dcP99 : string; Summary_ : string;
}.

Definition dominantErrorClass (classes : list statusClassView) : string :=
  let best := (dominant scvIsError scvClass scvCount classes).1 in
  if bool_decide (best = ""%string) then "none" else best.

Definition format_debug (t : Time) : string := format_date t +++ " " +++ format_hms t +++ " UTC".

Definition buildDebugContext (service method route : string) (from to : Time) (dv : detailView)
  (version : string) : debugContext :=
  let fromS := format_debug from in
  let toS := format_debug to in
  let dom := dominantErrorClass (dvClasses dv) in
  let p95 := fmtMsFull (dvP95 dv) in
  let p99 := fmtMsFull (dvP99 dv) in
  let versionSeg := if bool_decide (version = ""%string) then ""%string else " · version " +++ version in
  mkDebugContext service method route fromS toS dom version p95 p99
    (service +++ " · " +++ method +++ " " +++ route +++ " · " +++ fromS +++ " → " +++ toS +++
     " · dominant error " +++ dom +++ versionSeg +++ " · p95 " +++ p95 +++ " · p99 " +++ p99).

(** ** The switcher and the live toggle (chrome.go) *)

Record windowOption := mkWindowOption { woKey : string; woHref : string; woActive : bool }.

Definition buildWindows (path rawQuery active : string) : list windowOption :=
  (λ k, let q := Del (Del (Set_ (ParseQuery rawQuery) "win" k) "from") "to" in
        mkWindowOption k (path +++ "?" +++ Encode q) (bool_decide (k = active))) <$> windowKeys.

Definition isLive (q : Values) : bool := bool_decide (Get q "live" = "1"%string).

Definition liveToggleHref (path rawQuery : string) (on : bool) : string :=
  let q := ParseQuery rawQuery in
  let q := if on then Del q "live" else Set_ q "live" "1" in
  let enc := Encode q in
  if bool_decide (enc = ""%string) then path else path +++ "?" +++ enc.

(** ** Following a link *)

Definition href_path (href : string) : string := of_bytes (cut "?" (bytes_of href)).1.
Definition href_query (href : string) : Values := ParseQuery (of_bytes (cut "?" (bytes_of href)).2).

(** The instant a link carries: whole seconds. *)
Definition floor_sec (t : Time) : Time := UnixSec (to_unix_sec t).

(** Within 73 billion years of the epoch, where no instant of the model wraps. *)
Definition plausible (t : Time) : Prop := - 2 ^ 61 * Second ≤ t ≤ 2 ^ 61 * Second.

(** The link leads to the endpoint page of the same service, method, route and window,
    and the page it leads to at the instant [now'] shows the range from [f] to [t]. *)
Definition opens (href service method route winKey : string) (now' f t : Time) : Prop :=
  let q := href_query href in
  href_path href = "/services/" +++ service +++ "/endpoint" ∧
  Get q "method" = method ∧ Get q "route" = route ∧ Get q "win" = winKey ∧
  customRange now' q = Some (floor_sec f, floor_sec t).

Lemma floor_sec_le t : floor_sec t ≤ t.
Proof. unfold floor_sec, UnixSec, to_unix_sec. pose proof (Z.mul_div_le t Second). unfold Second, Millisecond in *. lia. Qed.

Lemma floor_sec_add t n : floor_sec (t + n * Second) = floor_sec t + n * Second.
Proof. unfold floor_sec, UnixSec, to_unix_sec. rewrite Z.div_add by done. lia. Qed.

Lemma floor_sec_mono t u : t ≤ u → floor_sec t ≤ floor_sec u.
Proof.
  intros. unfold floor_sec, UnixSec, to_unix_sec. apply Z.mul_le_mono_nonneg_r; [done|].
  by apply Z.div_le_mono.
Qed.

Lemma time_sub_least t u d : is_i64 d → d ≤ t - u → d ≤ time_sub t u.
Proof.
  unfold is_i64, time_sub, minDuration, maxDuration. intros.
  destruct (Z.ltb_spec (t - u) (-2 ^ 63)); [lia|].
  destruct (Z.ltb_spec (2 ^ 63 - 1) (t - u)); lia.
Qed.

Lemma Unix_floor t : plausible t → Unix (to_unix_sec t) = floor_sec t ∧ is_i64 (to_unix_sec t).
Proof.
  intros [Hl Hu].
  assert (- 2 ^ 61 ≤ to_unix_sec t ≤ 2 ^ 61) as Hs.
  { unfold to_unix_sec. split; [apply Z.div_le_lower_bound | apply Z.div_le_upper_bound]; (done || lia). }
  split; [|unfold is_i64; lia]. rewrite Unix_small; [done | unfold is_i64; lia].
Qed.

(** The fixed parts of a link have no question mark. *)
Lemma services_no_query : "?"%char ∉ bytes_of "/services/" ++ bytes_of "/endpoint".
Proof. intros H. vm_compute in H. repeat (apply elem_of_cons in H as [H|H]; [done|]). by apply elem_of_nil in H. Qed.

Section detail_url.
Context (service method route winKey : string) (Hs : "?"%char ∉ bytes_of service).

Lemma detailURL_cut b :
  href_path (detailURL service method route winKey b) = "/services/" +++ service +++ "/endpoint" ∧
  href_query (detailURL service method route winKey b) =
    (let q := Set_ (Set_ ∅ "method" method) "route" route in
     let q := if bool_decide (winKey = ""%string) then q else Set_ q "win" winKey in
     match b with
     | Some (from, to) =>
         Set_ (Set_ q "from" (Itoa (to_unix_sec from))) "to" (Itoa (to_unix_sec to))
     | None => q
     end).
Proof.
  unfold href_path, href_query, detailURL. cbv zeta.
  match goal with |- context [Encode ?m] => set (q := m) end.
  assert (Hq : no_empty q) by (subst q; destruct b as [[]|]; case_bool_decide; auto 10 with go).
  assert (Hb : bytes_of ("/services/" +++ service +++ "/endpoint?" +++ Encode q) =
               bytes_of ("/services/" +++ service +++ "/endpoint") ++ "?"%char :: bytes_of (Encode q)).
  { rewrite !bytes_of_app, <-!app_assoc. done. }
  rewrite Hb, cut_app.
  - cbn [fst snd]. rewrite !of_bytes_of. split; [done | by apply ParseQuery_Encode].
  - rewrite !bytes_of_app, !elem_of_app. intros [H|[H|H]]; [|done|]; apply services_no_query, elem_of_app; auto.
Qed.

Lemma detailURL_get b :
  let q := href_query (detailURL service method route winKey b) in
  Get q "method" = method ∧ Get q "route" = route ∧ Get q "win" = winKey ∧
  Get q "from" = (if b is Some (f, _) then Itoa (to_unix_sec f) else ""%string) ∧
  Get q "to" = (if b is Some (_, t) then Itoa (to_unix_sec t) else ""%string).
Proof.
  cbv zeta. rewrite (proj2 (detailURL_cut b)). unfold Get, Set_.
  destruct b as [[f t]|]; case_bool_decide; subst; rewrite ?lookup_insert_eq;
    split_and!; by simplify_map_eq.
Qed.

Lemma reopen now' f t :
  plausible f → plausible t → floor_sec f + minDetailSpan ≤ floor_sec t → floor_sec t ≤ now' →
  opens (detailURL service method route winKey (Some (f, t))) service method route winKey now' f t.
Proof.
  intros Hf Ht Hspan Hnow. unfold opens. cbv zeta.
  destruct (detailURL_get (Some (f, t))) as (Hm & Hr & Hw & Hgf & Hgt). cbv zeta iota in *.
  split; [apply detailURL_cut|]. split; [done|]. split; [done|]. split; [done|].
  unfold customRange. rewrite Hgf, Hgt.
  destruct (Unix_floor f Hf) as [Uf If], (Unix_floor t Ht) as [Ut It].
  rewrite bool_decide_false, !ParseInt_Itoa, Uf, Ut by (done || intros [E|E];
    apply (f_equal ParseInt) in E; rewrite ParseInt_Itoa in E; done).
  unfold time_after. destruct (Z.ltb_spec now' (floor_sec t)); [lia|].
  destruct (Z.ltb_spec (time_sub (floor_sec t) (floor_sec f)) minDetailSpan) as [Hlt|]; [|done].
  pose proof (time_sub_least (floor_sec t) (floor_sec f) minDetailSpan ltac:(done)). lia.
Qed.
End detail_url.

Lemma floor_span f t : f + minDetailSpan ≤ t → floor_sec f + minDetailSpan ≤ floor_sec t.
Proof. intros H%floor_sec_mono. unfold minDetailSpan in *. by rewrite floor_sec_add in H. Qed.

Lemma range_half_bounds from to :
  minDetailSpan ≤ to - from →
  0 < range_half from to ≤ 2 ^ 62 ∧ dur_neg (range_half from to) = - range_half from to.
Proof.
  intros H. pose proof (time_sub_range to from) as Hr. unfold is_i64 in Hr.
  pose proof (time_sub_least to from minDetailSpan ltac:(done) H) as Hd.
  unfold range_half, range_span. set (s := time_sub to from) in *.
  unfold minDetailSpan, Second, Millisecond in Hd.
  rewrite Z.quot_div_nonneg by lia.
  assert (0 < s / 2 ≤ 2 ^ 62) as Hh.
  { split; [apply Z.div_str_pos; lia | apply Z.div_le_upper_bound; lia]. }
  split; [done|]. unfold dur_neg. apply i64_small. unfold is_i64. lia.
Qed.

(** The zoom and pan links of the endpoint page open the range they name. Take a page
    showing a range at least ten seconds wide that ends by now, for a service whose name
    has no question mark. Each link leads back to the same service, method, route and
    window, and at any later instant the range parsed from its query is the zoomed or
    shifted range in whole seconds: never rejected as too narrow, never past the instant
    the link was drawn. Panning right stops at that instant, is offered exactly when the
    range ends before it, and the reset link carries no range. *)
Theorem detail_links_reopen service method route winKey from to now now' custom :
  "?"%char ∉ bytes_of service →
  - 2 ^ 60 * Second ≤ from → minDetailSpan ≤ to - from → to ≤ now → now ≤ 2 ^ 60 * Second →
  now ≤ now' →
  let dr := buildDetailRange service method route winKey from to now custom in
  let half := range_half from to in
  let shift := Z.min half (now - to) in
  0 < half ∧
  opens (ZoomOutHref dr) service method route winKey now' (from - half) (Z.min (to + half) now) ∧
  opens (PanLeftHref dr) service method route winKey now' (from - half) (to - half) ∧
  (to < now → opens (PanRightHref dr) service method route winKey now' (from + shift) (to + shift)) ∧
  (now ≤ to → PanRightHref dr = ""%string) ∧
  (custom = true → customRange now' (href_query (ResetHref dr)) = None).
Proof.
  intros Hs Hfrom Hspan Hto Hnow Hnow'. cbv zeta.
  destruct (range_half_bounds from to Hspan) as [Hh Hneg].
  pose proof (floor_sec_le now) as Hfl. unfold minDetailSpan in Hspan.
  unfold buildDetailRange. cbn [ZoomOutHref PanLeftHref PanRightHref ResetHref].
  unfold zoomOut, panLeft, panRight, time_add, time_after, time_before. rewrite Hneg.
  assert (Hlink : ∀ f t, plausible f → plausible t → f + minDetailSpan ≤ t → t ≤ now →
    opens (detailURL service method route winKey (Some (f, t))) service method route winKey now' f t).
  { intros f t ? ? ? Ht. apply reopen; try done; [by apply floor_span|].
    apply floor_sec_mono in Ht. lia. }
  unfold plausible, minDetailSpan, Second, Millisecond in *.
  assert (Hz : (if now <? to + range_half from to then now else to + range_half from to) =
               Z.min (to + range_half from to) now) by (destruct (Z.ltb_spec now (to + range_half from to)); lia).
  split; [lia|]. split; [rewrite Hz; apply Hlink; lia|]. split; [apply Hlink; lia|].
  split; [|split].
  - intros Hlt. destruct (Z.ltb_spec to now); [|lia].
    assert (Hg : (if time_sub now to <? range_half from to then time_sub now to else range_half from to) =
                 Z.min (range_half from to) (now - to)).
    { destruct (Z.ltb_spec (time_sub now to) (range_half from to)) as [Hl|Hg].
      - revert Hl. unfold time_sub, minDuration, maxDuration.
        destruct (Z.ltb_spec (now - to) (-2 ^ 63)); [lia|].
        destruct (Z.ltb_spec (2 ^ 63 - 1) (now - to)); lia.
      - revert Hg. unfold time_sub, minDuration, maxDuration.
        destruct (Z.ltb_spec (now - to) (-2 ^ 63)); [lia|].
        destruct (Z.ltb_spec (2 ^ 63 - 1) (now - to)); lia. }
    rewrite Hg. apply Hlink; lia.
  - intros. by destruct (Z.ltb_spec to now); [lia|].
  - intros ->. unfold customRange.
    destruct (detailURL_get service method route winKey Hs None) as (_ & _ & _ & -> & _).
    by rewrite bool_decide_true by auto.
Qed.

Lemma detail_links_reopen_witness :
  let dr := buildDetailRange "checkout" "GET" "/a b" "1h"
              (UnixSec 1751328000) (UnixSec 1751328600) (UnixSec 1751328700) true in
  opens (ZoomOutHref dr) "checkout" "GET" "/a b" "1h" (UnixSec 1751329000)
    (UnixSec 1751327700) (UnixSec 1751328700) ∧
  ZoomOutHref dr =
    "/services/checkout/endpoint?from=1751327700&method=GET&route=%2Fa+b&to=1751328700&win=1h"%string.
Proof.
  split.
  - refine (proj1 (proj2 (detail_links_reopen "checkout" "GET" "/a b" "1h" (UnixSec 1751328000)
      (UnixSec 1751328600) (UnixSec 1751328700) (UnixSec 1751329000) true
      (bool_decide_unpack _ _) _ _ _ _ _))); first [exact I | by vm_compute].
  - vm_compute. reflexivity.
Defined.

(** A custom range is well formed whatever the query says: it is taken only when both
    bounds parse as integers, it ends by now, and it is at least ten seconds wide as
    [time.Sub] measures it; the chart's buckets are at least ten seconds wide and fewer than
    61 cover the range. Anything else is the preset window ending now. *)
Theorem resolveDetailRange_guard now q dur from to custom :
  0 < dur < 2 ^ 63 → resolveDetailRange now q dur = (from, to, custom) →
  to ≤ now ∧ from < to ∧
  (custom = true → minDetailSpan ≤ time_sub to from ∧
     ∃ fi ti, ParseInt (Get q "from") = Some fi ∧ ParseInt (Get q "to") = Some ti ∧
              from = Unix fi ∧ to = Z.min (Unix ti) now) ∧
  (custom = false → from = now - dur ∧ to = now) ∧
  (let step := adaptiveStep (time_sub to from) in
   10 * Second ≤ step ∧ time_sub to from < (detailBuckets + 1) * step).
Proof.
  intros Hdur Hr.
  assert (Hstep : ∀ s, s < (detailBuckets + 1) * adaptiveStep s ∧ 10 * Second ≤ adaptiveStep s).
  { intros s. unfold adaptiveStep, detailBuckets, Second, Millisecond.
    pose proof (Z.quot_rem s 60 ltac:(done)). pose proof (Z.rem_bound_abs s 60 ltac:(done)).
    destruct (Z.ltb_spec (Z.quot s 60) (10 * (1000 * 1000000))); lia. }
  unfold resolveDetailRange in Hr. destruct (customRange now q) as [[f t]|] eqn:Hc.
  - injection Hr as <- <- <-. unfold customRange in Hc.
    case_bool_decide; [done|].
    destruct (ParseInt (Get q "from")) as [fi|]; [|done].
    destruct (ParseInt (Get q "to")) as [ti|]; [|done].
    assert (Ht : (if time_after (Unix ti) now then now else Unix ti) = Z.min (Unix ti) now)
      by (unfold time_after; destruct (Z.ltb_spec now (Unix ti)); lia).
    rewrite Ht in Hc. destruct (Z.ltb_spec (time_sub (Z.min (Unix ti) now) (Unix fi)) minDetailSpan)
      as [|Hspan]; [done|]. injection Hc as <- <-.
    split; [lia|]. split; [|split; [|split; [done | split; apply Hstep]]].
    + revert Hspan. unfold time_sub, minDuration, maxDuration, minDetailSpan, Second, Millisecond.
      destruct (Z.ltb_spec (Z.min (Unix ti) now - Unix fi) (-2 ^ 63)); [lia|].
      destruct (Z.ltb_spec (2 ^ 63 - 1) (Z.min (Unix ti) now - Unix fi)); lia.
    + intros _. split; [done|]. by exists fi, ti.
  - injection Hr as <- <- <-. unfold time_add.
    split; [lia|]. split; [lia|]. split; [done|]. split; [intros _; lia | split; apply Hstep].
Qed.

Lemma resolveDetailRange_guard_witness :
  resolveDetailRange (UnixSec 1000) {[ "from" := ["900"]; "to" := ["5000"] ]} Hour =
    (UnixSec 900, UnixSec 1000, true) ∧ UnixSec 1000 ≤ UnixSec 1000.
Proof.
  split; [vm_compute; reflexivity|].
  refine (proj1 (resolveDetailRange_guard (UnixSec 1000) {[ "from" := ["900"]; "to" := ["5000"] ]} Hour
    (UnixSec 900) (UnixSec 1000) true _ _)); vm_compute; done.
Defined.

(** ** Links from the service overview and the window switcher *)

(** The link of an overview row opens its service: when the service name has no
    question mark, the path is exactly that service's page, the selected window survives,
    and the table opens in error order exactly when the service is not healthy. The name is
    not escaped: from the first question mark on it is read as the query, so the row of
    such a service leads to another service's page. *)
Theorem drill_link_opens_service s raw :
  let winKey := normalizeWindow raw in
  let href := drillHref s winKey in
  let service := ServiceStat.Service s in
  ("?"%char ∉ bytes_of service →
     href_path href = "/services/" +++ service ∧
     normalizeWindow (Get (href_query href) "win") = winKey ∧
     normalizeSort (Get (href_query href) "sort") =
       (if bool_decide (healthClass (ServiceStat.ErrorRate s) = "dot-ok"%string)
        then sortTraffic else sortError)) ∧
  (∀ l r, bytes_of service = l ++ "?"%char :: r → "?"%char ∉ l →
     href_path href = "/services/" +++ of_bytes l).
Proof.
  cbv zeta. unfold drillHref, withWin. set (bad := healthClass (ServiceStat.ErrorRate s)).
  set (svc := ServiceStat.Service s).
  assert (Hk : normalizeWindow raw = "5m"%string ∨ normalizeWindow raw = "1h"%string ∨
               normalizeWindow raw = "24h"%string).
  { unfold normalizeWindow, windowDur. destruct (_ !! raw) as [d|] eqn:E; [|by auto].
    rewrite !lookup_insert_Some, lookup_singleton_Some in E. naive_solver. }
  assert (Hcut : ∀ l r tl, bytes_of ("/services/" +++ of_bytes l +++ String.String "?" tl) = r →
     "?"%char ∉ l → cut "?" r = (bytes_of ("/services/" +++ of_bytes l), bytes_of tl)).
  { intros l r tl <- Hl. rewrite !bytes_of_app, app_assoc. apply cut_app.
    rewrite bytes_of_of, elem_of_app. intros [H|H]; [|done]; apply services_no_query, elem_of_app; by left. }
  assert (Hne : bool_decide (normalizeWindow raw = ""%string) = false)
    by (destruct Hk as [-> | [-> | ->]]; done).
  rewrite Hne. split.
  - intros Hs.
    assert (Hsep : IndexByte ("/services/" +++ svc) "?" = None).
    { unfold IndexByte. rewrite bytes_of_app. destruct (index_byte _ _) as [i|] eqn:E; [|done].
      apply index_byte_Some in E as (k & E & _). exfalso.
      assert (Hin : "?"%char ∈ bytes_of "/services/" ++ bytes_of svc)
        by (apply (subseteq_drop i); rewrite E; by left).
      apply elem_of_app in Hin as [H|H]; [|done]; apply services_no_query, elem_of_app; by left. }
    assert (Hof : of_bytes (bytes_of svc) = svc) by apply of_bytes_of.
    destruct (decide (bad = "dot-ok"%string)) as [Hb|Hb];
      [rewrite (bool_decide_false (bad ≠ _)), (bool_decide_true (bad = _)) by naive_solver
      |rewrite (bool_decide_true (bad ≠ _)), (bool_decide_false (bad = _)) by naive_solver]; cycle 1.
    + assert (Hsep2 : ∃ i, IndexByte (("/services/" +++ svc) +++ "?sort=" +++ sortError) "?" = Some i).
      { eexists. apply (IndexByte_app "?"%char ("/services/" +++ svc)). by apply index_byte_None. }
      destruct Hsep2 as [i ->].
      unfold href_path, href_query.
      rewrite (Hcut (bytes_of svc) _ ("sort=error&win=" +++ normalizeWindow raw)); [..|done].
      * cbn [fst snd]. rewrite !of_bytes_of. split; [done|].
        destruct Hk as [-> | [-> | ->]]; vm_compute; done.
      * rewrite Hof. by rewrite !bytes_of_app, <-!app_assoc.
    + rewrite Hsep. unfold href_path, href_query.
      rewrite (Hcut (bytes_of svc) _ ("win=" +++ normalizeWindow raw)); [..|done].
      * cbn [fst snd]. rewrite !of_bytes_of. split; [done|].
        destruct Hk as [-> | [-> | ->]]; vm_compute; done.
      * rewrite Hof. by rewrite !bytes_of_app, <-!app_assoc.
  - intros l r Hsvc Hl. unfold href_path.
    match goal with |- context [cut "?" (bytes_of ?h)] =>
      assert (Hh : ∃ sfx, h = "/services/" +++ svc +++ sfx) end.
    { destruct (bool_decide (bad ≠ _)); eexists; rewrite ?str_app_assoc; reflexivity. }
    destruct Hh as [sfx Hh]. rewrite Hh.
    rewrite (Hcut l _ (of_bytes r +++ sfx)); [by cbn [fst]; rewrite of_bytes_of| |done].
    rewrite !bytes_of_app, bytes_of_of. fold svc in Hsvc. rewrite Hsvc, <-app_assoc. do 2 f_equal.
    change (bytes_of (String.String "?" ?t)) with ("?"%char :: bytes_of t).
    by rewrite bytes_of_app, bytes_of_of.
Qed.

Lemma query_link path q :
  "?"%char ∉ bytes_of path → no_empty q →
  href_path (path +++ "?" +++ Encode q) = path ∧ href_query (path +++ "?" +++ Encode q) = q.
Proof.
  intros Hp Hq. unfold href_path, href_query.
  assert (Hb : bytes_of (path +++ "?" +++ Encode q) = bytes_of path ++ "?"%char :: bytes_of (Encode q))
    by by rewrite !bytes_of_app.
  rewrite Hb, cut_app by done. cbn [fst snd]. rewrite !of_bytes_of.
  split; [done | by apply ParseQuery_Encode].
Qed.

Lemma bare_link path : "?"%char ∉ bytes_of path → href_path path = path ∧ href_query path = ∅.
Proof.
  intros Hp. unfold href_path, href_query. rewrite cut_none by done. cbn [fst snd].
  rewrite of_bytes_of. split; [done | by vm_compute].
Qed.

(** Switching the window or the live refresh keeps the rest of the page's query. On a
    path without a question mark, each option of the switcher leads to the same path with
    that window, no custom range, and every other parameter with all its values; the live
    toggle turns the refresh to the other state and keeps every other parameter. *)
Theorem switcher_keeps_query path rawQuery active :
  "?"%char ∉ bytes_of path →
  let q := ParseQuery rawQuery in
  (∀ o, o ∈ buildWindows path rawQuery active →
     href_path (woHref o) = path ∧
     let q' := href_query (woHref o) in
     Get q' "win" = woKey o ∧ q' !! "from" = None ∧ q' !! "to" = None ∧
     ∀ k, k ≠ "win"%string → k ≠ "from"%string → k ≠ "to"%string → q' !! k = q !! k) ∧
  (let href := liveToggleHref path rawQuery (isLive q) in
   href_path href = path ∧ isLive (href_query href) = negb (isLive q) ∧
   ∀ k, k ≠ "live"%string → href_query href !! k = q !! k).
Proof.
  intros Hp q. assert (Hq : no_empty q) by apply no_empty_ParseQuery. split.
  - intros o Ho. unfold buildWindows in Ho. apply list_elem_of_fmap in Ho as (k & -> & _).
    cbn [woHref woKey]. fold q.
    destruct (query_link path (Del (Del (Set_ q "win" k) "from") "to") Hp) as [-> ->];
      [auto with go|]. split; [done|]. cbv zeta. unfold Get, Set_, Del.
    split; [by simplify_map_eq|]. split; [by simplify_map_eq|]. split; [by simplify_map_eq|].
    intros k' ? ? ?. by simplify_map_eq.
  - assert (Hgen : ∀ q', no_empty q' →
      let href := if bool_decide (Encode q' = ""%string) then path else path +++ "?" +++ Encode q' in
      href_path href = path ∧ href_query href = q').
    { intros q' Hq'. cbv zeta. case_bool_decide as He.
      - destruct (bare_link path Hp) as [-> ->]. split; [done|].
        rewrite <-(ParseQuery_Encode q' Hq'), He. by vm_compute.
      - by apply query_link. }
    unfold liveToggleHref. fold q. destruct (isLive q); cbv zeta.
    + destruct (Hgen (Del q "live")) as [-> ->]; [auto with go|]. split; [done|].
      unfold isLive, Get, Del. split; [by simplify_map_eq|]. intros. by simplify_map_eq.
    + destruct (Hgen (Set_ q "live" "1")) as [-> ->]; [auto with go|]. split; [done|].
      unfold isLive, Get, Set_. split; [by simplify_map_eq|]. intros. by simplify_map_eq.
Qed.

Lemma switcher_keeps_query_witness :
  href_path (liveToggleHref "/" "win=5m&x=%26" false) = "/"%string ∧
  liveToggleHref "/" "win=5m&x=%26" false = "/?live=1&win=5m&x=%26"%string.
Proof.
  split; [|vm_compute; reflexivity].
  refine (proj1 (proj2 (switcher_keeps_query "/" "win=5m&x=%26" "5m" _))).
  apply (bool_decide_unpack _). exact I.
Defined.
