(* ===== verification/Verdict.v ===== *)
(** * Health and memory verdicts (server/internal/web/verdict.go, memory.go)

    The grade of an endpoint window from its error count, its tail spread and its p95
    against a trailing baseline, and the leak-or-burst reading of the fleet's memory.
    Both are threshold rules over concrete numbers; the theorems restate them as tables. *)

From Stdlib Require Import ZArith Lia Floats Ascii.
From Stdlib Require String.
From stdpp Require Import base option strings sorting list.
From S2P Require Import Prelude GoFloat GoTime GoString Storage Format Views.

Local Open Scope Z_scope.
Local Open Scope go_scope.
Local Infix "+++" := String.append (at level 60, right associativity).

(** ** verdict.go *)

Record verdictView := mkVerdict {
  vLevel : string; vDotClass : string; vHeadline : string; vQualifier : string;
  vSentence : string; vOpen : bool;
}.

Inductive severity := sevNone | sevDegraded | sevCritical.
#[export] Instance severity_eq_dec : EqDecision severity.
Proof. solve_decision. Defined.

(** The underlying [int]. *)
Definition sev_int (s : severity) : Z :=
  match s with sevNone => 0 | sevDegraded => 1 | sevCritical => 2 end.

Definition maxSeverity (sevs : list severity) : severity :=
  fold_left (λ m s, if sev_int m <? sev_int s then s else m) sevs sevNone.

Definition floor100ms : f64 := 0.1%float.
Definition floor200ms : f64 := 0.2%float.
Definition floor800ms : f64 := 0.8%float.
Definition minBaselineBuckets : nat := 30.
Definition minVerdictSamples : Z := 20.
Definition lowTrafficRate : f64 := 0.05%float.

Definition errorSeverity (errors : Z) (rate : f64) : severity :=
  if (10 <=? errors) && (0.05 <=? rate)%float then sevCritical
  else if (5 <=? errors) && (0.01 <=? rate)%float then sevDegraded
  else sevNone.

Definition spreadSeverity (spread p95 : f64) (count : Z) : severity :=
  if (6 <=? spread)%float && (floor200ms <=? p95)%float && (50 <=? count) then sevCritical
  else if (2.5 <=? spread)%float && (floor100ms <=? p95)%float && (50 <=? count) then sevDegraded
  else sevNone.

Definition latencySeverity (p95 ratio : f64) : severity :=
  if (floor800ms <=? p95)%float && (4 <=? ratio)%float then sevCritical
  else if (floor200ms <=? p95)%float && (2 <=? ratio)%float then sevDegraded
  else sevNone.

(** The buckets that saw traffic. *)
Definition busy_buckets (baseline : list TimePoint.t) : list TimePoint.t :=
  filter (λ b, 0 < TimePoint.Count b) baseline.

Definition baselineMedianP95 (baseline : list TimePoint.t) : outcome (option f64) :=
  let p95s := TimePoint.P95 <$> busy_buckets baseline in
  if (length p95s <? minBaselineBuckets)%nat then Ret None
  else let! m := median (Float64s p95s) in Ret (Some m).

Definition healthySentence (d : detailView) (spread : f64) : string :=
  let word := if (spread <? 1.3)%float then "stable"
              else if (spread <? 2.5)%float then "steady" else "wide tail" in
  fmtPctD (dvErrorRate d) +++ " errors, p95 " +++ fmtMsFull (dvP95 d) +++ ", " +++ word +++ " latency.".

Record reason := mkReason { rSev : severity; rRank : Z; rText : string }.

Definition reason_less (a b : reason) : bool :=
  if bool_decide (rSev a ≠ rSev b) then sev_int (rSev b) <? sev_int (rSev a)
  else rRank a <? rRank b.

(** The components that fired, strongest first. *)
Definition problemReasons (d : detailView) (spread latRatio : f64)
  (errSev spreadSev latSev : severity) : list reason :=
  let fires (s : severity) (r : Z) (t : string) : list reason :=
    if bool_decide (s ≠ sevNone) then [mkReason s r t] else [] in
  sort_stable reason_less
    (fires latSev 0 ("p95 " +++ fmtMsFull (dvP95 d) +++ " (" +++ fmtRatio latRatio +++ " baseline)") ++
     fires errSev 1 (fmtPctD (dvErrorRate d) +++ " errors") ++
     fires spreadSev 2 ("spread " +++ fmtRatio spread +++ " (p95 " +++ fmtMsFull (dvP95 d) +++ ")")).

Definition problemSentence (d : detailView) (spread latRatio : f64)
  (errSev spreadSev latSev : severity) : string :=
  Join (rText <$> problemReasons d spread latRatio errSev spreadSev latSev) "; " +++ ".".

(** [int(math.Round(rate * float64(count)))]. *)
Definition error_count (d : detailView) : Z :=
  int_of_f64 (round (dvErrorRate d * f64_of_Z (dvCount d))%float).

(** The level is the strongest component; the rest of the view follows from it. *)
Definition gradedVerdict (d : detailView) (winSeconds spread latRatio : f64)
  (errSev spreadSev latSev : severity) : verdictView :=
  let level := maxSeverity [errSev; spreadSev; latSev] in
  let qualifier :=
    if (0 <? winSeconds)%float && (f64_of_Z (dvCount d) / winSeconds <? lowTrafficRate)%float
    then "low traffic"%string else ""%string in
  if bool_decide (level = sevNone) then
    if negb (minVerdictSamples <=? dvCount d) then
      mkVerdict "Unknown" "dot-muted" "Unknown" ""
        ("Insufficient traffic (n=" +++ Itoa (dvCount d) +++ ") — no verdict this window.") false
    else mkVerdict "Healthy" "dot-ok" "Healthy" "" (healthySentence d spread) false
  else
    let '(name, dot) := if bool_decide (level = sevCritical) then ("Critical", "dot-err")%string
                        else ("Degraded", "dot-warn")%string in
    mkVerdict name dot name qualifier
      (problemSentence d spread latRatio errSev spreadSev latSev) true.

Definition computeVerdict (d : detailView) (baseline : list TimePoint.t) (winSeconds : f64) :
  outcome verdictView :=
  let errSev := errorSeverity (error_count d) (dvErrorRate d) in
  if minVerdictSamples <=? dvCount d then
    let spread := if (0 <? dvP50 d)%float then (dvP95 d / dvP50 d)%float else 0%float in
    let spreadSev := spreadSeverity spread (dvP95 d) (dvCount d) in
    let! base := baselineMedianP95 baseline in
    match base with
    | Some baselineP95 =>
        if (0 <? baselineP95)%float then
          let latRatio := (dvP95 d / baselineP95)%float in
          Ret (gradedVerdict d winSeconds spread latRatio errSev spreadSev
                 (latencySeverity (dvP95 d) latRatio))
        else Ret (gradedVerdict d winSeconds spread 0 errSev spreadSev sevNone)
    | None => Ret (gradedVerdict d winSeconds spread 0 errSev spreadSev sevNone)
    end
  else Ret (gradedVerdict d winSeconds 0 0 errSev sevNone sevNone).

(** ** memory.go *)

Record memoryVerdict := mkMemory {
  mLevel : string; mDotClass : string; mSentence : string; mConfidence : string;
  mEvidence : list string; mFalsifier : string; mShow : bool;
}.

Definition minMemorySamples : nat := 4.
Definition leakRiseRatio : f64 := 1.5%float.
Definition leakRiseFloorBytes : Z := Z.shiftl 32 20.
Definition burstPeakRatio : f64 := 1.5%float.
Definition burstReturnRatio : f64 := 1.2%float.
Definition leakStrongRatio : f64 := 2.0%float.
Definition confidentSamples : nat := 8.

(** [maxU64] and [minU64] read the first element: an empty slice panics. *)
Definition extremeU64 (better : Z → Z → bool) (xs : list Z) : outcome Z :=
  match xs with
  | [] => Panic "index out of range [0] with length 0"
  | x :: xs => Ret (fold_left (λ m x, if better x m then x else m) xs x)
  end.
Definition maxU64 : list Z → outcome Z := extremeU64 (λ x m, m <? x).
Definition minU64 : list Z → outcome Z := extremeU64 (λ x m, x <? m).

Definition isBurst (first last firstInuse peakPostGC peakInuse : Z) : bool :=
  let spiked :=
    (burstPeakRatio * f64_of_Z first <=? f64_of_Z peakPostGC)%float ||
    ((0 <? firstInuse) && (burstPeakRatio * f64_of_Z firstInuse <=? f64_of_Z peakInuse)%float) in
  let returned := (f64_of_Z last <=? burstReturnRatio * f64_of_Z first)%float in
  spiked && returned.

Definition leakVerdict (first last secondLow firstHigh : Z) (n : nat) : memoryVerdict :=
  let ratio := (f64_of_Z last / f64_of_Z first)%float in
  let conf := if (leakStrongRatio <=? ratio)%float && (confidentSamples <=? n)%nat
              then "High"%string else "Medium"%string in
  mkMemory "Leak" "dot-err"
    ("Post-GC heap rose " +++ memBytes first +++ " → " +++ memBytes last +++ " and held — likely a leak.")
    conf
    [ "Post-GC live heap: " +++ memBytes first +++ " at window start → " +++ memBytes last +++
        " at end (" +++ fmtRatio ratio +++ " over " +++ Itoa (Z.of_nat n) +++ " buckets).";
      "Rise of " +++ memBytes (last -u first) +++ " clears the " +++ memBytes leakRiseFloorBytes +++
        " noise floor.";
      "Sustained: the second half's low (" +++ memBytes secondLow +++
        ") sits at or above the first half's high (" +++ memBytes firstHigh +++ ")." ]
    ("Not a leak if the heap returns to ~" +++ memBytes first +++
       " after the next GC — re-check over a longer window.") true.

Definition burstVerdict (first last peakPostGC peakInuse firstInuse : Z) (n : nat) : memoryVerdict :=
  let '(peak, base) := if (0 <? firstInuse) && (peakPostGC <? peakInuse)
                       then (peakInuse, firstInuse) else (peakPostGC, first) in
  let ratio := if 0 <? base then (f64_of_Z peak / f64_of_Z base)%float else 0%float in
  mkMemory "Burst" "dot-warn"
    ("Post-GC heap peaked at " +++ memBytes peakPostGC +++ " then returned to " +++ memBytes last +++
       " — an allocation burst, not a leak.")
    (if (confidentSamples <=? n)%nat then "High" else "Medium")
    [ "Peak heap " +++ memBytes peak +++ " reached " +++ fmtRatio ratio +++ " the " +++ memBytes base +++
        " baseline mid-window.";
      "Last bucket back to " +++ memBytes last +++ ", within " +++ fmtRatio burstReturnRatio +++
        " of the " +++ memBytes first +++ " start." ]
    ("A true leak if the baseline keeps climbing next window instead of holding near " +++
       memBytes first +++ ".") true.

Definition stableVerdict (low high : Z) (n : nat) : memoryVerdict :=
  let ratio := if 0 <? low then (f64_of_Z high / f64_of_Z low)%float else 1%float in
  mkMemory "Stable" "dot-ok"
    ("Post-GC heap held near " +++ memBytes low +++ " across the window — no leak signal.")
    (if (confidentSamples <=? n)%nat then "High" else "Medium")
    [ "Post-GC live heap ranged " +++ memBytes low +++ "–" +++ memBytes high +++ " over " +++
        Itoa (Z.of_nat n) +++ " buckets (" +++ fmtRatio ratio +++ " spread).";
      "No sustained rise above the " +++ memBytes leakRiseFloorBytes +++ " noise floor." ] "" true.

(** The buckets that carry a sample. *)
Definition memory_samples (points : list MemoryTrendPoint.t) : list (Z * Z) :=
  (λ p, (MemoryTrendPoint.PostGCHeapBytes p, MemoryTrendPoint.HeapInuseBytes p)) <$>
  filter (λ p, MemoryTrendPoint.PostGCHeapBytes p ≠ 0) points.

Definition insufficientMemory (n : nat) : memoryVerdict :=
  mkMemory "Unknown" "dot-muted"
    ("Insufficient memory samples (n=" +++ Itoa (Z.of_nat n) +++ ") — no leak/burst verdict this window.")
    "" [] "" false.

Definition at_index (l : list Z) (i : nat) : outcome Z :=
  match l !! i with Some x => Ret x | None => Panic "index out of range" end.

Definition computeMemoryVerdict (points : list MemoryTrendPoint.t) : outcome memoryVerdict :=
  let postGC := (memory_samples points).*1 in
  let inuse := (memory_samples points).*2 in
  let n := length postGC in
  if (n <? minMemorySamples)%nat then Ret (insufficientMemory n)
  else
    let! first := at_index postGC 0 in
    let! last := at_index postGC (n - 1) in
    let! peakPostGC := maxU64 postGC in
    let! peakInuse := maxU64 inuse in
    let! firstInuse := at_index inuse 0 in
    let! firstHalfHigh := maxU64 (take (n / 2) postGC) in
    let! secondHalfLow := minU64 (drop (n / 2) postGC) in
    let sustained := firstHalfHigh <=? secondHalfLow in
    let rise := i64 (i64 last - i64 first) in
    let leakRatioMet := (leakRiseRatio * f64_of_Z first <=? f64_of_Z last)%float in
    let leakFloorMet := leakRiseFloorBytes <=? rise in
    if leakRatioMet && leakFloorMet && sustained then
      Ret (leakVerdict first last secondHalfLow firstHalfHigh n)
    else if isBurst first last firstInuse peakPostGC peakInuse then
      Ret (burstVerdict first last peakPostGC peakInuse firstInuse n)
    else
      let! low := minU64 postGC in
      Ret (stableVerdict low peakPostGC n).

(** ** The verdict as a table *)

Lemma median_total l : l ≠ [] → ∃ m, median l = Ret m.
Proof.
  intros Hl. assert (Hn : (0 < length l)%nat) by (destruct l; simpl; [done | lia]).
  assert (Hat : ∀ i, (i < length l)%nat → ∃ x, l !! i = Some x)
    by (intros i Hi; apply lookup_lt_is_Some; done).
  assert (Hd : (length l / 2 < length l)%nat) by (apply Nat.div_lt; lia).
  unfold median. destruct (Nat.odd (length l)).
  - destruct (Hat (length l / 2)%nat Hd) as [x ->]. eauto.
  - destruct (Hat (length l / 2)%nat Hd) as [x Hx].
    destruct (Hat (length l / 2 - 1)%nat ltac:(lia)) as [y Hy]. rewrite Hx, Hy.
    destruct (length l); [lia|]. simpl. eauto.
Qed.

Lemma baselineMedianP95_total baseline :
  ∃ base, baselineMedianP95 baseline = Ret base ∧
  (base = None ↔ (length (busy_buckets baseline) < minBaselineBuckets)%nat).
Proof.
  unfold baselineMedianP95. rewrite length_fmap.
  destruct (Nat.ltb_spec (length (busy_buckets baseline)) minBaselineBuckets).
  - exists None. naive_solver.
  - destruct (median_total (Float64s (TimePoint.P95 <$> busy_buckets baseline)))
      as [m ->].
    + intros Hn%(f_equal length). unfold Float64s in Hn. rewrite sort_stable_length, length_fmap in Hn.
      unfold minBaselineBuckets in *. simpl in Hn. lia.
    + exists (Some m). simpl. split; [done|]. split; [done | lia].
Qed.

Definition spread_ratio (d : detailView) : f64 :=
  if (0 <? dvP50 d)%float then (dvP95 d / dvP50 d)%float else 0%float.

(** The p95 against the baseline, when the baseline can ground a ratio. *)
Definition baseline_ratio (d : detailView) (base : option f64) : option f64 :=
  b ← base; if (0 <? b)%float then Some (dvP95 d / b)%float else None.

(** One row of the table: an error count and rate, a tail spread and its p95 floor, a
    baseline multiple and its p95 floor. *)
Definition reaches (d : detailView) (base : option f64) (errors : Z)
  (rate spread sfloor ratio lfloor : f64) : Prop :=
  (errors ≤ error_count d ∧ (rate <=? dvErrorRate d)%float = true) ∨
  (50 ≤ dvCount d ∧ (spread <=? spread_ratio d)%float = true ∧ (sfloor <=? dvP95 d)%float = true) ∨
  (20 ≤ dvCount d ∧ (lfloor <=? dvP95 d)%float = true ∧
   ∃ r, baseline_ratio d base = Some r ∧ (ratio <=? r)%float = true).

Definition critical (d : detailView) (base : option f64) : Prop :=
  reaches d base 10 0.05 6 0.2 4 0.8.
Definition elevated (d : detailView) (base : option f64) : Prop :=
  reaches d base 5 0.01 2.5 0.1 2 0.2.

(** The three components a window is graded on. *)
Definition component_severities (d : detailView) (base : option f64) : severity * severity * severity :=
  (errorSeverity (error_count d) (dvErrorRate d),
   if 20 <=? dvCount d then spreadSeverity (spread_ratio d) (dvP95 d) (dvCount d) else sevNone,
   if 20 <=? dvCount d
   then match baseline_ratio d base with Some r => latencySeverity (dvP95 d) r | None => sevNone end
   else sevNone).

Lemma severity_two_steps (c e : bool) s :
  s = (if c then sevCritical else if e then sevDegraded else sevNone) →
  (s = sevCritical ↔ c = true) ∧ (s ≠ sevNone ↔ c = true ∨ e = true).
Proof. destruct c, e; naive_solver. Qed.

Lemma exists_Some {A} (o : option A) (Q : A → Prop) (R : Prop) :
  (R ∧ ∃ x, o = Some x ∧ Q x) ↔ match o with Some x => R ∧ Q x | None => False end.
Proof. destruct o; naive_solver. Qed.

Lemma component_severities_spec d base :
  let '(e, s, l) := component_severities d base in
  (e = sevCritical ∨ s = sevCritical ∨ l = sevCritical ↔ critical d base) ∧
  (e ≠ sevNone ∨ s ≠ sevNone ∨ l ≠ sevNone ↔ critical d base ∨ elevated d base).
Proof.
  unfold component_severities.
  destruct (severity_two_steps _ _ _ (eq_refl (errorSeverity (error_count d) (dvErrorRate d)))) as [E1 E2].
  destruct (severity_two_steps _ _ _
    (eq_refl (spreadSeverity (spread_ratio d) (dvP95 d) (dvCount d)))) as [S1 S2].
  assert (L : ∀ r, (latencySeverity (dvP95 d) r = sevCritical ↔
                     (0.8 <=? dvP95 d)%float = true ∧ (4 <=? r)%float = true) ∧
                   (latencySeverity (dvP95 d) r ≠ sevNone ↔
                     ((0.8 <=? dvP95 d)%float = true ∧ (4 <=? r)%float = true) ∨
                     ((0.2 <=? dvP95 d)%float = true ∧ (2 <=? r)%float = true))).
  { intros r. rewrite <-!andb_true_iff. exact (severity_two_steps _ _ _ (eq_refl (latencySeverity (dvP95 d) r))). }
  unfold floor200ms, floor100ms in *.
  repeat rewrite ?andb_true_iff, ?Z.leb_le in E1. repeat rewrite ?andb_true_iff, ?Z.leb_le in E2.
  repeat rewrite ?andb_true_iff, ?Z.leb_le in S1. repeat rewrite ?andb_true_iff, ?Z.leb_le in S2.
  unfold critical, elevated, reaches. destruct (Z.leb_spec 20 (dvCount d)).
  - rewrite E1, E2, S1, S2, !exists_Some. clear E1 E2 S1 S2.
    assert (sevNone ≠ sevCritical) by done.
    destruct (baseline_ratio d base) as [r|]; [destruct (L r) as [-> ->]|]; tauto.
  - rewrite E1, E2. assert (¬ 20 ≤ dvCount d) by lia. assert (¬ 50 ≤ dvCount d) by lia.
    assert (sevNone ≠ sevCritical) by done. tauto.
Qed.

Lemma maxSeverity3 a b c :
  (maxSeverity [a; b; c] = sevCritical ↔ a = sevCritical ∨ b = sevCritical ∨ c = sevCritical) ∧
  (maxSeverity [a; b; c] ≠ sevNone ↔ a ≠ sevNone ∨ b ≠ sevNone ∨ c ≠ sevNone).
Proof. destruct a, b, c; unfold maxSeverity; simpl; naive_solver. Qed.

Definition level_name (enough : bool) (level : severity) : string :=
  match level with
  | sevNone => if enough then "Healthy" else "Unknown"
  | sevDegraded => "Degraded"
  | sevCritical => "Critical"
  end.

Lemma gradedVerdict_spec d win spread ratio e s l :
  let v := gradedVerdict d win spread ratio e s l in
  let level := maxSeverity [e; s; l] in
  vLevel v = level_name (20 <=? dvCount d) level ∧
  vOpen v = bool_decide (level ≠ sevNone) ∧
  vQualifier v =
    (if bool_decide (level ≠ sevNone) && (0 <? win)%float &&
        (f64_of_Z (dvCount d) / win <? 0.05)%float then "low traffic"%string else ""%string).
Proof.
  unfold gradedVerdict, minVerdictSamples, lowTrafficRate. cbv zeta.
  destruct (maxSeverity [e; s; l]), (20 <=? dvCount d); cbn; repeat split; by destruct (0 <? win)%float.
Qed.

(** The verdict is the grade of the components. *)
Lemma computeVerdict_components d baseline win base :
  baselineMedianP95 baseline = Ret base →
  ∃ spread ratio,
    computeVerdict d baseline win =
    Ret (let '(e, s, l) := component_severities d base in gradedVerdict d win spread ratio e s l).
Proof.
  intros Hb. unfold computeVerdict, component_severities, minVerdictSamples.
  destruct (20 <=? dvCount d); [|eauto].
  rewrite Hb. cbn [outcome_bind]. fold (spread_ratio d). unfold baseline_ratio.
  destruct base as [b|]; cbn [mbind option_bind]; [destruct (0 <? b)%float|]; eauto.
Qed.

(** The health verdict is exactly its decision table. The verdict always exists. It is
    Critical when the error count and rate, the tail spread, or the p95 against the
    trailing median reach the critical row of the table, with its floors and its sample
    sizes (errors are judged at any volume, the percentile rules from 50 and 20 requests);
    Degraded when none is critical but one reaches the lower row; otherwise Healthy from 20
    requests on and Unknown below. The panel opens exactly on the first two, and the low
    traffic note appears exactly on those of a window under 0.05 requests per second. *)
Theorem verdict_table d baseline win :
  ∃ base v,
    baselineMedianP95 baseline = Ret base ∧
    (base = None ↔ (length (busy_buckets baseline) < 30)%nat) ∧
    computeVerdict d baseline win = Ret v ∧
    (vLevel v = "Critical"%string ↔ critical d base) ∧
    (vLevel v = "Degraded"%string ↔ elevated d base ∧ ¬ critical d base) ∧
    (vLevel v = "Unknown"%string ↔ ¬ critical d base ∧ ¬ elevated d base ∧ dvCount d < 20) ∧
    (vLevel v = "Healthy"%string ↔ ¬ critical d base ∧ ¬ elevated d base ∧ 20 ≤ dvCount d) ∧
    (vOpen v = true ↔ critical d base ∨ elevated d base) ∧
    (vQualifier v = "low traffic"%string ↔
       (critical d base ∨ elevated d base) ∧ (0 <? win)%float = true ∧
       (f64_of_Z (dvCount d) / win <? 0.05)%float = true).
Proof.
  destruct (baselineMedianP95_total baseline) as (base & Hb & Hn).
  destruct (computeVerdict_components d baseline win base Hb) as (spread & ratio & Hv).
  pose proof (component_severities_spec d base) as Hc.
  destruct (component_severities d base) as [[e s] l].
  destruct (maxSeverity3 e s l) as [M1 M2]. destruct Hc as [C1 C2]. rewrite <-M1 in C1. rewrite <-M2 in C2.
  destruct (gradedVerdict_spec d win spread ratio e s l) as (Hl & Ho & Hq).
  exists base, (gradedVerdict d win spread ratio e s l). rewrite Hl, Ho, Hq.
  split; [done|]. split; [done|]. split; [done|]. clear Hl Ho Hq Hv M1 M2.
  destruct (maxSeverity [e; s; l]), (Z.leb_spec 20 (dvCount d)), (0 <? win)%float,
    (f64_of_Z (dvCount d) / win <? 0.05)%float; cbn; naive_solver lia.
Qed.

(** A window in which every request failed. *)
Definition outage (n : Z) (p50 p95 p99 : f64) : detailView :=
  mkDetailView n 1 true p50 p95 p99 [] [].

Lemma outage_errors n p50 p95 p99 : 0 ≤ n ≤ 2000 → error_count (outage n p50 p95 p99) = n.
Proof.
  intros Hn. unfold error_count, outage. cbn [dvErrorRate dvCount].
  assert (H : forallb (λ n, int_of_f64 (round (1 * f64_of_Z n)%float) =? n) (seqZ 0 2001) = true)
    by (vm_compute; reflexivity).
  rewrite forallb_forall in H. apply Z.eqb_eq, H, list_elem_of_In, elem_of_seqZ. lia.
Qed.

(** A window whose requests all failed is never called healthy. From ten requests on
    it is Critical whatever its latencies and its baseline, from five to nine it is
    Degraded, and below five it is Unknown: the error count, not the traffic, decides.
    Stated for the windows of at most 2000 requests. *)
Theorem outage_is_critical n p50 p95 p99 baseline win :
  0 ≤ n ≤ 2000 →
  ∃ v, computeVerdict (outage n p50 p95 p99) baseline win = Ret v ∧
  (vLevel v = "Critical"%string ↔ 10 ≤ n) ∧
  (vLevel v = "Degraded"%string ↔ 5 ≤ n < 10) ∧
  (vLevel v = "Unknown"%string ↔ n < 5).
Proof.
  intros Hn. destruct (baselineMedianP95_total baseline) as (base & Hb & _).
  destruct (computeVerdict_components (outage n p50 p95 p99) baseline win base Hb)
    as (spread & ratio & ->).
  pose proof (outage_errors n p50 p95 p99 Hn) as He.
  unfold component_severities. rewrite He. cbn [dvErrorRate dvCount outage].
  unfold errorSeverity.
  change (0.05 <=? 1)%float with true. change (0.01 <=? 1)%float with true.
  rewrite !andb_true_r.
  match goal with |- context [gradedVerdict _ _ _ _ ?e ?s ?l] =>
    destruct (gradedVerdict_spec (outage n p50 p95 p99) win spread ratio e s l) as (Hl & _ & _) end.
  cbn [dvCount outage] in Hl. eexists; split; [reflexivity|]. rewrite Hl. clear Hl.
  destruct (Z.leb_spec 10 n), (Z.leb_spec 5 n); try lia.
  - match goal with |- context [maxSeverity [sevCritical; ?s; ?l]] =>
      assert (Hm : maxSeverity [sevCritical; s; l] = sevCritical) by (by destruct s, l) end.
    rewrite Hm. cbn. naive_solver lia.
  - destruct (Z.leb_spec 20 n); [lia|]. cbn. naive_solver lia.
  - destruct (Z.leb_spec 20 n); [lia|]. cbn. naive_solver lia.
Qed.

Lemma outage_is_critical_witness :
  ∃ v, computeVerdict (outage 12 0.01 0.02 0.03) [] 3600 = Ret v ∧
       (vLevel v = "Critical"%string ↔ 10 ≤ 12).
Proof.
  destruct (outage_is_critical 12 0.01 0.02 0.03 [] 3600) as (v & Hv & H & _);
    [split; vm_compute; discriminate|]. exists v. split; [exact Hv | exact H].
Defined.

(** ** Memory *)

Lemma extremeU64_spec (better : Z → Z → bool) (le : Z → Z → Prop) x xs :
  (∀ a, le a a) → (∀ a b c, le a b → le b c → le a c) →
  (∀ a b, better a b = true → le b a) → (∀ a b, better a b = false → le a b) →
  ∃ m, extremeU64 better (x :: xs) = Ret m ∧ m ∈ x :: xs ∧ ∀ y, y ∈ x :: xs → le y m.
Proof.
  intros Hr Ht Hb Hn. simpl. exists (fold_left (λ m x, if better x m then x else m) xs x).
  split; [done|]. revert x. induction xs as [|y xs IH]; intros x; simpl.
  - split; [by left|]. intros z ->%list_elem_of_singleton. done.
  - destruct (better y x) eqn:E.
    + destruct (IH y) as [Hin Hmax]. split; [by right|].
      intros z [->|Hz]%elem_of_cons; [|by apply Hmax].
      eapply Ht; [by apply Hb | apply Hmax; by left].
    + destruct (IH x) as [Hin Hmax]. split.
      * apply elem_of_cons in Hin as [->|?]; [by left | by right; right].
      * intros z [->|[->|Hz]%elem_of_cons]%elem_of_cons.
        -- apply Hmax. by left.
        -- eapply Ht; [by apply Hn | apply Hmax; by left].
        -- apply Hmax. by right.
Qed.

Lemma maxU64_spec xs : xs ≠ [] →
  ∃ m, maxU64 xs = Ret m ∧ m ∈ xs ∧ ∀ y, y ∈ xs → y ≤ m.
Proof.
  destruct xs as [|x xs]; [done|]. intros _. unfold maxU64.
  apply (extremeU64_spec (λ x m, m <? x) Z.le); intros; lia.
Qed.

Lemma minU64_spec xs : xs ≠ [] →
  ∃ m, minU64 xs = Ret m ∧ m ∈ xs ∧ ∀ y, y ∈ xs → m ≤ y.
Proof.
  destruct xs as [|x xs]; [done|]. intros _. unfold minU64.
  apply (extremeU64_spec (λ x m, x <? m) (λ a b, b ≤ a)); intros; lia.
Qed.

(** Every sample of the second half is at least every sample of the first. *)
Definition stepped_up (l : list Z) : Prop :=
  ∀ x y, x ∈ take (length l / 2) l → y ∈ drop (length l / 2) l → x ≤ y.

(** The leak rule on the live-heap samples. *)
Definition leaking (l : list Z) : Prop :=
  ∃ first last, l !! 0%nat = Some first ∧ l !! (length l - 1)%nat = Some last ∧
  (1.5 * f64_of_Z first <=? f64_of_Z last)%float = true ∧ 32 * 2 ^ 20 ≤ last - first ∧ stepped_up l.

(** The burst rule on the live-heap and in-use samples. *)
Definition bursting (l k : list Z) : Prop :=
  ∃ first last first_inuse peak peak_inuse,
  l !! 0%nat = Some first ∧ l !! (length l - 1)%nat = Some last ∧ k !! 0%nat = Some first_inuse ∧
  (peak ∈ l) ∧ (∀ x, x ∈ l → x ≤ peak) ∧ (peak_inuse ∈ k) ∧ (∀ x, x ∈ k → x ≤ peak_inuse) ∧
  ((1.5 * f64_of_Z first <=? f64_of_Z peak)%float = true ∨
   0 < first_inuse ∧ (1.5 * f64_of_Z first_inuse <=? f64_of_Z peak_inuse)%float = true) ∧
  (f64_of_Z last <=? 1.2 * f64_of_Z first)%float = true.

Lemma stepped_up_extremes l lo hi :
  (hi ∈ take (length l / 2) l) → (∀ y, y ∈ take (length l / 2) l → y ≤ hi) →
  (lo ∈ drop (length l / 2) l) → (∀ y, y ∈ drop (length l / 2) l → lo ≤ y) →
  (hi <=? lo) = true ↔ stepped_up l.
Proof.
  intros Hh Hhm Hl Hlm. rewrite Z.leb_le. unfold stepped_up. split.
  - intros H x y Hx Hy. specialize (Hhm x Hx). specialize (Hlm y Hy). lia.
  - intros H. by apply H.
Qed.

Lemma halves_nonempty {A} (l : list A) :
  (minMemorySamples ≤ length l)%nat → l ≠ [] ∧ take (length l / 2) l ≠ [] ∧ drop (length l / 2) l ≠ [].
Proof.
  unfold minMemorySamples. intros Hl.
  assert (1 ≤ length l / 2 < length l)%nat.
  { split; [apply Nat.div_le_lower_bound; lia | apply Nat.div_lt; lia]. }
  split_and!; intros Hn%(f_equal length); rewrite ?length_take, ?length_drop in Hn; cbn [length] in Hn; lia.
Qed.

Lemma at_index_total l i : (i < length l)%nat → ∃ x, at_index l i = Ret x ∧ l !! i = Some x.
Proof. intros [x Hx]%lookup_lt_is_Some. exists x. unfold at_index. by rewrite Hx. Qed.

Lemma computeMemoryVerdict_total points : ∃ v, computeMemoryVerdict points = Ret v.
Proof.
  unfold computeMemoryVerdict. set (l := (memory_samples points).*1). set (k := (memory_samples points).*2).
  destruct (Nat.ltb_spec (length l) minMemorySamples) as [Hn|Hn]; [by eexists|].
  assert (Hk : length k = length l) by (subst l k; by rewrite !length_fmap).
  destruct (halves_nonempty l Hn) as (N1 & N2 & N3). unfold minMemorySamples in Hn.
  assert (N4 : k ≠ []) by (intros E%(f_equal length); simpl in E; lia).
  destruct (at_index_total l 0) as (first & -> & _); [lia|].
  destruct (at_index_total l (length l - 1)) as (last & -> & _); [lia|].
  destruct (at_index_total k 0) as (fi & Hfi & _); [lia|].
  destruct (maxU64_spec l N1) as (peak & -> & _), (maxU64_spec k N4) as (peaki & -> & _),
    (maxU64_spec _ N2) as (hi & Hhi & _), (minU64_spec _ N3) as (lo & Hlo & _),
    (minU64_spec l N1) as (low & Hlow & _).
  cbn [outcome_bind]. rewrite Hfi, Hhi, Hlo, Hlow. cbn [outcome_bind].
  repeat case_match; eauto.
Qed.

(** The memory verdict always exists and is exactly its rule. Below four buckets with a
    sample it is Unknown and not shown. From four on it is a Leak exactly when the last
    live heap is at least 1.5 times and 32 MiB above the first and no sample of the second
    half lies below one of the first half; a Burst when there is no leak, a peak reached 1.5
    times the first sample and the last came back within 1.2 times the first; and Stable
    otherwise. Samples are below 2^63 bytes, where the signed difference does not wrap. *)
Theorem memory_verdict_rule points :
  let l := (memory_samples points).*1 in
  let k := (memory_samples points).*2 in
  Forall (λ x, 0 ≤ x < 2 ^ 63) l →
  ∃ v, computeMemoryVerdict points = Ret v ∧
  (mShow v = true ↔ (4 ≤ length l)%nat) ∧
  (mLevel v = "Unknown"%string ↔ (length l < 4)%nat) ∧
  (mLevel v = "Leak"%string ↔ (4 ≤ length l)%nat ∧ leaking l) ∧
  (mLevel v = "Burst"%string ↔ (4 ≤ length l)%nat ∧ ¬ leaking l ∧ bursting l k) ∧
  (mLevel v = "Stable"%string ↔ (4 ≤ length l)%nat ∧ ¬ leaking l ∧ ¬ bursting l k).
Proof.
  intros l k Hl. unfold computeMemoryVerdict. fold l k.
  destruct (Nat.ltb_spec (length l) minMemorySamples) as [Hn|Hn]; unfold minMemorySamples in Hn.
  { eexists; split; [reflexivity|]. cbn. naive_solver lia. }
  assert (Hk : length k = length l) by (subst l k; by rewrite !length_fmap).
  destruct (halves_nonempty l Hn) as (N1 & N2 & N3).
  assert (N4 : k ≠ []) by (intros E%(f_equal length); simpl in E; lia).
  destruct (at_index_total l 0) as (first & -> & F); [lia|].
  destruct (at_index_total l (length l - 1)) as (last & -> & La); [lia|].
  destruct (at_index_total k 0) as (fi & Hfi & Fi); [lia|].
  destruct (maxU64_spec l N1) as (peak & -> & P1 & P2).
  destruct (maxU64_spec k N4) as (peaki & -> & Pi1 & Pi2).
  destruct (maxU64_spec _ N2) as (hi & Hhi & H1 & H2).
  destruct (minU64_spec _ N3) as (lo & Hlo & L1 & L2).
  destruct (minU64_spec l N1) as (low & Hlow & _).
  cbn [outcome_bind]. rewrite Hfi, Hhi, Hlo, Hlow. cbn [outcome_bind].
  rewrite Forall_forall in Hl.
  assert (0 ≤ first < 2 ^ 63) by (apply Hl; by eapply list_elem_of_lookup_2).
  assert (0 ≤ last < 2 ^ 63) by (apply Hl; by eapply list_elem_of_lookup_2).
  rewrite (i64_small last), (i64_small first), i64_small by (unfold is_i64; lia).
  pose proof (stepped_up_extremes l lo hi H1 H2 L1 L2) as Hst.
  match goal with |- context [if ?b then Ret (leakVerdict _ _ _ _ _) else _] =>
    assert (Hleak : b = true ↔ leaking l); [|assert (Hburst : isBurst first last fi peak peaki = true ↔ bursting l k);
      [|destruct b, (isBurst first last fi peak peaki)]] end.
  - rewrite !andb_true_iff, Hst, Z.leb_le. unfold leaking, leakRiseRatio, leakRiseFloorBytes.
    change (Z.shiftl 32 20) with (32 * 2 ^ 20). split.
    + intros [[? ?] ?]. by exists first, last.
    + intros (f & a & Ef & Ea & ?). simplify_eq. tauto.
  - unfold isBurst, burstPeakRatio, burstReturnRatio, bursting.
    rewrite !andb_true_iff, orb_true_iff, andb_true_iff, Z.ltb_lt. split.
    + intros [? ?]. exists first, last, fi, peak, peaki. tauto.
    + intros (f & a & f' & p & p' & Ef & Ea & Ef' & Hp1 & Hp2 & Hp1' & Hp2' & ?). simplify_eq.
      assert (p = peak) as -> by (apply P2 in Hp1; apply Hp2 in P1; lia).
      assert (p' = peaki) as -> by (apply Pi2 in Hp1'; apply Hp2' in Pi1; lia). tauto.
  - eexists; split; [reflexivity|]. cbn. naive_solver lia.
  - eexists; split; [reflexivity|]. cbn. naive_solver lia.
  - eexists; split; [reflexivity|]. unfold burstVerdict. destruct (if (_ && _) then _ else _).
    cbn. naive_solver lia.
  - eexists; split; [reflexivity|]. cbn. naive_solver lia.
Qed.

Definition memory_series (l : list Z) : list MemoryTrendPoint.t :=
  (λ mib, MemoryTrendPoint.mk 0 (mib * 2 ^ 20) (mib * 2 ^ 20)) <$> l.

Lemma memory_verdict_rule_witness :
  (∃ v, computeMemoryVerdict (memory_series [100; 110; 160; 240]) = Ret v ∧
        (mShow v = true ↔ (4 ≤ 4)%nat)) ∧
  (mLevel <$> match computeMemoryVerdict (memory_series [100; 110; 160; 240]) with Ret v => Some v | _ => None end) =
    Some "Leak"%string ∧
  (mLevel <$> match computeMemoryVerdict (memory_series [100; 300; 160; 105]) with Ret v => Some v | _ => None end) =
    Some "Burst"%string.
Proof.
  split; [|split; vm_compute; reflexivity].
  destruct (memory_verdict_rule (memory_series [100; 110; 160; 240])) as (v & Hv & H & _).
  - repeat constructor; vm_compute; congruence.
  - exists v. split; [exact Hv | exact H].
Defined.
