(* ===== verification/Diagnosis.v ===== *)
(** * Ranked causes (server/internal/web/diagnosis.go, diagnosis_causes.go)

    The card that explains an anomalous window: eight candidate causes read the signals
    already on the page, those that fire are ranked by the number of corroborating signals
    and then by magnitude, and the first is shown with its evidence and its falsifier. *)

From Stdlib Require Import ZArith Lia Floats Ascii.
From Stdlib Require String.
From stdpp Require Import base option strings sorting list.
From S2P Require Import Prelude GoFloat GoTime GoString Storage Format Views Verdict.

Local Open Scope Z_scope.
Local Open Scope go_scope.
Local Infix "+++" := String.append (at level 60, right associativity).

(** ** The view *)

Record topCauseView := mkTopCause {
  tcName : string; tcDotClass : string; tcConfidence : string; tcSummary : string;
  tcEvidence : list string; tcFalsifier : string; tcChart : string;
}.
Record causeSummary := mkCauseSummary {
  csName : string; csDotClass : string; csConfidence : string;
}.
Record diagnosisView := mkDiagnosis {
  dgShow : bool; dgTopCause : topCauseView; dgWhy : string; dgScope : string;
  dgOthers : list causeSummary;
}.
Definition no_top : topCauseView := mkTopCause "" "" "" "" [] "" "".
Definition no_diagnosis : diagnosisView := mkDiagnosis false no_top "" "" [].

Record diagnosisParams := mkParams {
  pDetail : detailView; pVerdict : verdictView;
  pResources : list InstanceResourceStat.t; pResourceBaseline : list InstanceResourceStat.t;
  pMemory : memoryVerdict; pMemoryChart : string;
  pInstances : list instanceStatRow.t; pVersions : list VersionStat.t;
  pDownstream : DownstreamStat.t; pNoStatus : list NoStatusReasonStat;
  pP95Baseline : f64; pP95BaselineOK : bool; pWinSeconds : f64; pBaselineSeconds : f64;
}.

Definition cpuSatRatio : f64 := 0.85%float.
Definition gcCPUElevated : f64 := 0.10%float.
Definition resourceRiseRatio : f64 := 1.5%float.
Definition downstreamHighShare : f64 := 0.5%float.
(** [1 - selfDominantShare], an exact constant expression. *)
Definition selfDominantCeiling : f64 := 0.4%float.
Definition fdNearLimit : f64 := 0.7%float.
Definition deadlineCancelShare : f64 := 0.05%float.
Definition goroutineHighFloor : Z := 500.
Definition releaseWorseRatio : f64 := 1.5%float.
Definition minVersionSamples : Z := 20.

(** ** The fleet *)

Record fleetResources := mkFleet {
  cores : f64; gomaxprocs : f64; gcCPU : f64; allocRate : f64; gcFreq : f64;
  goroutines : Z; inFlight : Z; openFDs : Z; fdLimit : Z;
}.
Definition zero_fleet : fleetResources := mkFleet 0 0 0 0 0 0 0 0 0.

Section fleet.
Import InstanceResourceStat.
Definition aggregateFleet (stats : list InstanceResourceStat.t) (winSeconds : f64) : fleetResources :=
  match stats with
  | [] => zero_fleet
  | _ =>
      let sum (f : InstanceResourceStat.t → Z) := fold_left (λ a s, a +u f s) stats 0 in
      let peak (f : InstanceResourceStat.t → Z) :=
        fold_left (λ m s, if m <? f s then f s else m) stats 0 in
      let gc := fold_left (λ m s, if (m <? GCCPUFraction s)%float then GCCPUFraction s else m)
                  stats 0%float in
      let on := (0 <? winSeconds)%float in
      mkFleet
        (if on then (f64_of_Z (sum CPUNs) / (winSeconds * 1e9))%float else 0%float)
        (f64_of_Z (sum GOMAXPROCS)) gc
        (if on then (f64_of_Z (sum TotalAllocBytes) / winSeconds)%float else 0%float)
        (if on then (f64_of_Z (sum NumGC) / winSeconds)%float else 0%float)
        (peak Goroutines) (peak InFlight) (peak OpenFDs) (peak FDLimit)
  end.
End fleet.

Definition isUp (cur base : f64) : bool :=
  (0 <? base)%float && (resourceRiseRatio * base <=? cur)%float.
Definition isUpZ (cur base : Z) : bool := isUp (f64_of_Z cur) (f64_of_Z base).

(** ** Causes *)

Record cause := mkCause {
  name : string; dotClass : string; fired : bool; signals : Z; maxSignals : Z; mag : f64;
  summary : string; evidence : list string; falsifier : string; chart : string;
}.

(** A candidate that did not fire. *)
Definition idle (name : string) (maxSignals : Z) : cause :=
  mkCause name "dot-warn" false 0 maxSignals 0 "" [] "" "".

Definition score (c : cause) : f64 :=
  let m := if (9 <? mag c)%float then 9%float else mag c in
  (f64_of_Z (signals c) * 10 + m)%float.

(** One signal of a cause: its evidence when it holds. *)
Definition signal (b : bool) (ev : list string) : list string * Z := if b then (ev, 1) else ([], 0).
Definition gather (l : list (list string * Z)) : list string * Z :=
  (concat l.*1, sumZ l.*2).

Definition memoryEvidence (p : diagnosisParams) (win base : fleetResources)
  (leak burst gcUp allocUp : bool) : list string * Z :=
  gather
    [ signal (leak || burst) (mEvidence (pMemory p));
      signal gcUp ["GC CPU " +++ fmtPctD (gcCPU win) +++ " vs " +++ fmtPctD (gcCPU base) +++ " baseline."];
      signal allocUp ["Alloc rate " +++ fmtBytes (allocRate win) +++ "/s vs " +++
                        fmtBytes (allocRate base) +++ "/s baseline."];
      signal (isUp (gcFreq win) (gcFreq base))
        ["GC frequency " +++ fmtRate (gcFreq win) +++ "/s vs " +++ fmtRate (gcFreq base) +++ "/s baseline."] ].

Definition causeMemory (p : diagnosisParams) (win base : fleetResources) : cause :=
  let leak := bool_decide (mLevel (pMemory p) = "Leak"%string) in
  let burst := bool_decide (mLevel (pMemory p) = "Burst"%string) in
  let gcUp := (gcCPUElevated <=? gcCPU win)%float && isUp (gcCPU win) (gcCPU base) in
  let allocUp := isUp (allocRate win) (allocRate base) in
  let gcAlloc := gcUp && allocUp in
  if negb leak && negb burst && negb gcAlloc then idle "Memory / GC pressure" 4
  else
    let '(ev, n) := memoryEvidence p win base leak burst gcUp allocUp in
    let f := mFalsifier (pMemory p) in
    let m := (gcCPU win * 10)%float in
    mkCause "Memory / GC pressure" (if leak then "dot-err" else "dot-warn") true n 4
      (if leak then (m + 3)%float else m)
      "Memory pressure is elevated: the service is allocating and garbage-collecting more than usual, which slows request handling."
      ev
      (if bool_decide (f = ""%string)
       then "Not memory-driven if heap and GC CPU stay flat over a longer window while latency persists."
       else f)
      (pMemoryChart p).

Definition causeCPU (win : fleetResources) : cause :=
  if (gomaxprocs win <=? 0)%float then idle "CPU saturation" 1
  else
    let ratio := (cores win / gomaxprocs win)%float in
    if (ratio <? cpuSatRatio)%float then idle "CPU saturation" 1
    else mkCause "CPU saturation" "dot-warn" true 1 1 ratio
      "CPU is near its configured capacity: there isn't much headroom left before the service becomes compute-bound."
      [ fmtCores (cores win) +++ " used of " +++ format_f (gomaxprocs win) 0 +++ " available (" +++
          fmtPctD ratio +++ " of GOMAXPROCS)." ]
      "Not CPU-bound if cores-used drops well below GOMAXPROCS while latency stays high — look to congestion or downstream."
      "".

Definition peaked (what : string) (cur base : Z) : string :=
  what +++ " peaked " +++ Itoa cur +++ " vs " +++ Itoa base +++ " baseline".

Definition fdEvidence (win : fleetResources) : string :=
  if 0 <? fdLimit win
  then "Open FDs peaked " +++ Itoa (openFDs win) +++ " of " +++ Itoa (fdLimit win) +++ " limit."
  else "Open FDs peaked " +++ Itoa (openFDs win) +++ " (up vs baseline).".

(** [addCongestionSignals]: the signals, magnitude and evidence after the corroborators. *)
Definition addCongestionSignals (win base : fleetResources) (inflightUp fdNear fdUp : bool)
  (n : Z) (m : f64) (ev : list string) : Z * f64 * list string :=
  let '(n, m, ev) :=
    if inflightUp
    then (n + 1, (f64_of_Z (inFlight win) / f64_of_Z (inFlight base))%float,
          ev ++ [peaked "In-flight concurrency" (inFlight win) (inFlight base) +++ "."])
    else (n, m, ev) in
  if fdNear || fdUp then
    let r := (f64_of_Z (openFDs win) / f64_of_Z (fdLimit win))%float in
    (n + 1, (if (0 <? fdLimit win) && (m <? r)%float then r else m), ev ++ [fdEvidence win])
  else (n, m, ev).

Definition causeCongestion (win base : fleetResources) (ds : downstreamView) : cause :=
  let selfDominant := negb (HasData ds) || (DownFraction ds <=? selfDominantCeiling)%float in
  let cpuFlat := negb (isUp (cores win) (cores base)) in
  let gcFlat := negb (isUp (gcCPU win) (gcCPU base)) in
  if negb selfDominant || negb cpuFlat || negb gcFlat then idle "Connection / pool congestion" 4
  else
    let inflightUp := isUpZ (inFlight win) (inFlight base) in
    let fdNear := (0 <? fdLimit win) &&
                  (fdNearLimit <=? f64_of_Z (openFDs win) / f64_of_Z (fdLimit win))%float in
    let fdUp := isUpZ (openFDs win) (openFDs base) in
    if negb inflightUp && negb fdNear && negb fdUp then idle "Connection / pool congestion" 4
    else
      let '(n, m, ev) := addCongestionSignals win base inflightUp fdNear fdUp 2 0%float
        [ "Self-time dominates (downstream " +++ fmtPctD (DownFraction ds) +++
            ") while CPU and GC held flat vs baseline — blocked, not busy." ] in
      mkCause "Connection / pool congestion" "dot-warn" true n 4 m
        "Requests are waiting on internal contention (connections, worker pool, or similar), not because the CPU or memory is busy: blocked, not busy."
        ev
        "Not congestion if cores-used or GC CPU climbs with the latency — that points back to compute or memory."
        "".

(** Canceled or deadline-exceeded requests. *)
Definition abort_count (l : list NoStatusReasonStat) : Z :=
  fold_left (λ a r, if (nsrReason r =? 1) || (nsrReason r =? 2) then a +u nsrCount r else a) l 0.

Definition causeOverload (p : diagnosisParams) (win base : fleetResources) : cause :=
  let count := dvCount (pDetail p) in
  if count =? 0 then idle "Overload / timeouts" 2
  else
    let aborts := abort_count (pNoStatus p) in
    let share := (f64_of_Z aborts / f64_of_Z count)%float in
    if (share <? deadlineCancelShare)%float then idle "Overload / timeouts" 2
    else
      let up := isUpZ (inFlight win) (inFlight base) in
      mkCause "Overload / timeouts" "dot-warn" true (if up then 2 else 1) 2 share
        "A significant share of requests are timing out or being canceled, typically from a load spike or an aggressive timeout setting."
        (("Deadline/cancel aborts " +++ Itoa aborts +++ " of " +++ Itoa count +++ " requests (" +++
            fmtPctD share +++ ").") ::
         (if up then [peaked "In-flight concurrency" (inFlight win) (inFlight base) +++ "."] else []))
        "Not overload if the aborts persist at steady, low traffic — that is a downstream or timeout-config fault, not load."
        "".

Definition causeGoroutineLeak (win base : fleetResources) : cause :=
  if (goroutines win <? goroutineHighFloor) || negb (isUpZ (goroutines win) (goroutines base))
  then idle "Goroutine leak" 2
  else mkCause "Goroutine leak" "dot-warn" true 2 2
    (f64_of_Z (goroutines win) / f64_of_Z (goroutines base))%float
    "The goroutine count keeps climbing and isn't coming back down, usually a sign that something isn't being cleaned up."
    [ peaked "Goroutines" (goroutines win) (goroutines base) +++ ", above the " +++
        Itoa goroutineHighFloor +++ " floor." ]
    "Not a leak if the goroutine count returns to baseline after load subsides — re-check over a longer window."
    "".

Definition causeDownstream (ds : downstreamView) : cause :=
  if negb (HasData ds) || (DownFraction ds <? downstreamHighShare)%float
  then idle "Downstream / IO" 1
  else mkCause "Downstream / IO" "dot-warn" true 1 1 (DownFraction ds * 6)%float
    "Most of the request time is spent waiting on a downstream dependency (a database, cache, or external API), not on this endpoint's own work."
    [ "Downstream calls are " +++ fmtPctD (DownFraction ds) +++ " of request time (self is only " +++
        fmtPctD (1 - DownFraction ds)%float +++ ")." ]
    "Not downstream if self-time rises while downstream share falls — the endpoint's own work is the bottleneck."
    "".

(** The flagged replica of greatest p95, the first among equals. *)
Definition worstOutlier (instances : list instanceStatRow.t) : option instanceStatRow.t :=
  fold_left (λ worst r,
    if instanceStatRow.IsOutlier r then
      match worst with
      | None => Some r
      | Some w => if (instanceStatRow.P95 w <? instanceStatRow.P95 r)%float then Some r else Some w
      end
    else worst) instances None.

Definition causeInstanceLocalized (instances : list instanceStatRow.t) : outcome cause :=
  let p95s := instanceStatRow.P95 <$> filter (λ r, 0 < instanceStatRow.Count r) instances in
  match p95s with
  | [] => Ret (idle "Instance-localized" 1)
  | _ =>
      let! fleetMed := median (Float64s p95s) in
      match worstOutlier instances with
      | None => Ret (idle "Instance-localized" 1)
      | Some worst =>
          Ret (mkCause "Instance-localized" "dot-warn" true 1 1
            (if (0 <? fleetMed)%float then (instanceStatRow.P95 worst / fleetMed)%float else 0%float)
            "The slowdown is concentrated on one instance rather than the whole fleet, likely a bad host, a hot shard, or uneven load balancing."
            [ "Localized to " +++ instanceStatRow.Instance worst +++ ": p95 " +++
                fmtMsFull (instanceStatRow.P95 worst) +++ " vs " +++ fmtMsFull fleetMed +++ " fleet median." ]
            "Not localized if the p95 gap closes when the instance drains — the outlier was a transient, not a bad host."
            "")
      end
  end.

(** A version whose samples ground a comparison. *)
Definition qualifies (v : VersionStat.t) : bool :=
  negb (bool_decide (VersionStat.Version v = ""%string) ||
        (VersionStat.Count v <? minVersionSamples) || (VersionStat.P95 v <=? 0)%float).

Definition bestWorstVersion (versions : list VersionStat.t) : option (VersionStat.t * VersionStat.t) :=
  let pick (better : VersionStat.t → VersionStat.t → bool) :=
    fold_left (λ acc v,
      if qualifies v then
        match acc with None => Some v | Some a => if better v a then Some v else Some a end
      else acc) versions None in
  best ← pick (λ v a, (VersionStat.P95 v <? VersionStat.P95 a)%float);
  worst ← pick (λ v a, (VersionStat.P95 a <? VersionStat.P95 v)%float);
  if bool_decide (VersionStat.Version best = VersionStat.Version worst) then None
  else Some (best, worst).

Definition causeRelease (versions : list VersionStat.t) : cause :=
  match bestWorstVersion versions with
  | None => idle "Release regression" 2
  | Some (best, worst) =>
      let ratio := (VersionStat.P95 worst / VersionStat.P95 best)%float in
      if (ratio <? releaseWorseRatio)%float then idle "Release regression" 2
      else
        let errs := (VersionStat.ErrorRate best + 0.01 <=? VersionStat.ErrorRate worst)%float in
        mkCause "Release regression" "dot-warn" true (if errs then 2 else 1) 2 ratio
          "One deployed version is measurably slower than another, consistent with a release regression rather than a resource or dependency issue."
          (("Version " +++ VersionStat.Version worst +++ " p95 " +++ fmtMsFull (VersionStat.P95 worst) +++
              " vs " +++ VersionStat.Version best +++ " p95 " +++ fmtMsFull (VersionStat.P95 best) +++
              " (" +++ fmtRatio ratio +++ ").") ::
           (if errs then
              [ "Version " +++ VersionStat.Version worst +++ " error rate " +++
                  fmtPctD (VersionStat.ErrorRate worst) +++ " vs " +++ VersionStat.Version best +++ " " +++
                  fmtPctD (VersionStat.ErrorRate best) +++ "." ]
            else []))
          "Not a regression if both versions converge once traffic rebalances — the gap was a warm-up or a skewed sample."
          ""
  end.

(** ** The card *)

Definition confidenceLabel (signals maxSignals : Z) : string :=
  let tier := if 3 <=? signals then "High" else if signals =? 2 then "Medium" else "Low" in
  tier +++ " (" +++ Itoa signals +++ "/" +++ Itoa maxSignals +++ " signals)".

Definition diagnosisWhy (d : detailView) (p95Base : f64) (ok : bool) : string :=
  let ratio := (dvP95 d / p95Base)%float in
  if ok && (0 <? p95Base)%float && (2 <=? ratio)%float
  then "Latency p95 " +++ fmtRatio ratio +++ " the trailing baseline."
  else if (0 <? dvErrorRate d)%float then "Error rate " +++ fmtPctD (dvErrorRate d) +++ "."
  else if (0 <? dvP50 d)%float
       then "Tail spread p95/p50 " +++ fmtRatio (dvP95 d / dvP50 d)%float +++ "."
  else "p95 " +++ fmtMsFull (dvP95 d) +++ ".".

Definition diagnosisScope (d : detailView) (instances : list instanceStatRow.t)
  (versions : list VersionStat.t) : string :=
  let total := Z.of_nat (length (filter (λ r, 0 < instanceStatRow.Count r) instances)) in
  let outliers := Z.of_nat (length (filter (λ r, instanceStatRow.IsOutlier r = true) instances)) in
  let who :=
    if total =? 0 then []
    else if 0 <? outliers then [Itoa outliers +++ " of " +++ Itoa total +++ " instances"]
    else [Itoa total +++ " instances"] in
  let v := dominantVersion versions in
  let ver := if bool_decide (v = ""%string) then [] else [v] in
  let what := if (0 <? dvErrorRate d)%float then "success and error"%string else "success only"%string in
  Join (who ++ ver ++ [what]) " · ".

Definition anomalous (p : diagnosisParams) : bool :=
  bool_decide (vLevel (pVerdict p) = "Degraded"%string ∨ vLevel (pVerdict p) = "Critical"%string ∨
               mLevel (pMemory p) = "Leak"%string ∨ mLevel (pMemory p) = "Burst"%string).

Definition candidates (p : diagnosisParams) : outcome (list cause) :=
  let win := aggregateFleet (pResources p) (pWinSeconds p) in
  let base := aggregateFleet (pResourceBaseline p) (pBaselineSeconds p) in
  let ds := toDownstreamView (pDownstream p) in
  let! localized := causeInstanceLocalized (pInstances p) in
  Ret [ causeMemory p win base; causeCPU win; causeCongestion win base ds; causeOverload p win base;
        causeGoroutineLeak win base; causeDownstream ds; localized; causeRelease (pVersions p) ].

Definition rank (l : list cause) : list cause :=
  sort_stable (λ a b, (score b <? score a)%float) (filter (λ c, fired c = true) l).

Definition unattributed : topCauseView :=
  mkTopCause "Unattributed" "dot-muted" "Low (0 signals)"
    "None of the tracked signals stand out enough to point at a specific cause yet."
    ["No resource signal explains this degradation — check the timeline and exemplars."]
    "A cause would attach if a resource, downstream, version, or instance signal crossed its threshold next window."
    "".

Definition show_top (c : cause) : topCauseView :=
  mkTopCause (name c) (dotClass c) (confidenceLabel (signals c) (maxSignals c)) (summary c)
    (evidence c) (falsifier c) (chart c).
Definition show_other (c : cause) : causeSummary :=
  mkCauseSummary (name c) (dotClass c) (confidenceLabel (signals c) (maxSignals c)).

Definition computeDiagnosis (p : diagnosisParams) : outcome diagnosisView :=
  if negb (anomalous p) then Ret no_diagnosis
  else
    let! l := candidates p in
    let why := diagnosisWhy (pDetail p) (pP95Baseline p) (pP95BaselineOK p) in
    let scope := diagnosisScope (pDetail p) (pInstances p) (pVersions p) in
    match rank l with
    | [] => Ret (mkDiagnosis true unattributed why scope [])
    | top :: others => Ret (mkDiagnosis true (show_top top) why scope (show_other <$> others))
    end.

(** ** What a candidate promises *)

(** A candidate either stays idle, or fires with between one and its maximum of signals and
    a summary and a falsifier to show. *)
Record honest (n : string) (k : Z) (c : cause) : Prop := {
  honest_name : name c = n;
  honest_max : maxSignals c = k;
  honest_signals : fired c = true → 1 ≤ signals c ≤ maxSignals c;
  honest_summary : fired c = true → summary c ≠ ""%string;
  honest_falsifier : fired c = true → falsifier c ≠ ""%string;
}.

Ltac honest := constructor; cbn; try done; intros _; try done; lia.

Lemma honest_idle n k : honest n k (idle n k).
Proof. by constructor. Qed.
#[local] Hint Resolve honest_idle : core.

Lemma gather_count l :
  Forall (λ s : list string * Z, 0 ≤ s.2 ≤ 1) l →
  0 ≤ (gather l).2 ≤ Z.of_nat (length l) ∧ ((∃ s, s ∈ l ∧ s.2 = 1) → 1 ≤ (gather l).2).
Proof.
  unfold gather. cbn [snd]. induction 1 as [|s l Hs Hl IH].
  - split; [done|]. by intros (? & ?%elem_of_nil & _).
  - rewrite fmap_cons. change (sumZ (s.2 :: l.*2)) with (s.2 + sumZ l.*2). cbn [length].
    rewrite Nat2Z.inj_succ. split; [lia|]. intros (s' & [->|Hin]%elem_of_cons & Hs').
    + lia.
    + assert (1 ≤ sumZ l.*2) by (apply IH; eauto). lia.
Qed.

Lemma signal_bit b ev : 0 ≤ (signal b ev).2 ≤ 1 ∧ (b = true → (signal b ev).2 = 1).
Proof. by destruct b. Qed.

Lemma causeMemory_honest p win base : honest "Memory / GC pressure" 4 (causeMemory p win base).
Proof.
  unfold causeMemory. set (leak := bool_decide _). set (burst := bool_decide _).
  set (gcUp := _ && isUp (gcCPU win) _). set (allocUp := isUp (allocRate win) _).
  destruct (negb leak && negb burst && negb (gcUp && allocUp)) eqn:Hidle; [done|].
  assert (Hsome : (leak || burst) = true ∨ gcUp = true)
    by (revert Hidle; destruct leak, burst, gcUp, allocUp; auto).
  clearbody leak burst gcUp allocUp. unfold memoryEvidence.
  match goal with |- context [gather ?l] => destruct (gather_count l) as [Hb H1] end.
  { repeat constructor; apply signal_bit. }
  destruct (gather _) as [ev n] eqn:E. cbn [snd length] in *.
  assert (1 ≤ n).
  { apply H1. destruct Hsome as [Hs|Hs]; rewrite Hs; eexists; (split; [|apply signal_bit; reflexivity]);
      [left | right; left]. }
  constructor; cbn; try done; intros _; [lia|]. by case_bool_decide.
Qed.

Lemma causeCPU_honest win : honest "CPU saturation" 1 (causeCPU win).
Proof. unfold causeCPU. do 2 (case_match; [done|]). honest. Qed.

Lemma causeCongestion_honest win base ds :
  honest "Connection / pool congestion" 4 (causeCongestion win base ds).
Proof.
  unfold causeCongestion. cbv zeta. case_match; [done|]. case_match; [done|].
  unfold addCongestionSignals.
  destruct (isUpZ (inFlight win) (inFlight base)); destruct (_ || isUpZ _ _); honest.
Qed.

Lemma causeOverload_honest p win base : honest "Overload / timeouts" 2 (causeOverload p win base).
Proof.
  unfold causeOverload. cbv zeta. do 2 (case_match; [done|]).
  destruct (isUpZ _ _); honest.
Qed.

Lemma causeGoroutineLeak_honest win base : honest "Goroutine leak" 2 (causeGoroutineLeak win base).
Proof. unfold causeGoroutineLeak. case_match; [done|]. honest. Qed.

Lemma causeDownstream_honest ds : honest "Downstream / IO" 1 (causeDownstream ds).
Proof. unfold causeDownstream. case_match; [done|]. honest. Qed.

Lemma causeInstanceLocalized_honest instances :
  ∃ c, causeInstanceLocalized instances = Ret c ∧ honest "Instance-localized" 1 c.
Proof.
  unfold causeInstanceLocalized. destruct (_ <$> _) as [|x xs] eqn:E; [by eauto|].
  destruct (median_total (Float64s (x :: xs))) as [m ->].
  { intros Hn%(f_equal length). unfold Float64s in Hn. by rewrite sort_stable_length in Hn. }
  cbn [outcome_bind]. destruct (worstOutlier instances); eexists; (split; [reflexivity|]); [honest | done].
Qed.

Lemma causeRelease_honest versions : honest "Release regression" 2 (causeRelease versions).
Proof.
  unfold causeRelease. destruct (bestWorstVersion versions) as [[best worst]|]; [|done].
  case_match; [done|]. case_match; honest.
Qed.

Definition cause_list : list (string * Z) :=
  [ ("Memory / GC pressure", 4); ("CPU saturation", 1); ("Connection / pool congestion", 4);
    ("Overload / timeouts", 2); ("Goroutine leak", 2); ("Downstream / IO", 1);
    ("Instance-localized", 1); ("Release regression", 2) ]%string.

Lemma candidates_honest p :
  ∃ l, candidates p = Ret l ∧ Forall2 (λ nk c, honest nk.1 nk.2 c) cause_list l.
Proof.
  unfold candidates. cbv zeta.
  destruct (causeInstanceLocalized_honest (pInstances p)) as (c & -> & Hc).
  eexists; split; [reflexivity|]. unfold cause_list.
  repeat apply Forall2_cons_2; cbn [fst snd]; try done.
  - apply causeMemory_honest.
  - apply causeCPU_honest.
  - apply causeCongestion_honest.
  - apply causeOverload_honest.
  - apply causeGoroutineLeak_honest.
  - apply causeDownstream_honest.
  - apply causeRelease_honest.
Qed.

Lemma computeDiagnosis_total p : ∃ view, computeDiagnosis p = Ret view.
Proof.
  unfold computeDiagnosis. destruct (negb _); [eauto|].
  destruct (candidates_honest p) as (l & -> & _). cbn. destruct (rank l); eauto.
Qed.

Lemma Forall2_right {A B} (P : A → B → Prop) (Q : B → Prop) l k :
  (∀ a b, P a b → Q b) → Forall2 P l k → Forall Q k.
Proof. intros HPQ. induction 1; constructor; eauto. Qed.

(** The diagnosis card tells what fired and claims no more. It exists for every input
    and shows exactly when the verdict is Degraded or Critical or the memory verdict is a
    leak or a burst. Then either no candidate fired and the top cause is Unattributed with
    nothing else listed, or the top cause and the others are exactly the candidates that
    fired, none listed before one of a greater score; each fired with at least one and at
    most its maximum of signals, and the card always carries a summary and a falsifier.
    The scores are numbers: no ratio among them is NaN. *)
Theorem diagnosis_ranks_causes p :
  (∀ l, candidates p = Ret l → Forall (λ c, is_nan (score c) = false) l) →
  ∃ l view,
    candidates p = Ret l ∧ (λ c, (name c, maxSignals c)) <$> l = cause_list ∧
    computeDiagnosis p = Ret view ∧ dgShow view = anomalous p ∧
    (anomalous p = true →
       tcSummary (dgTopCause view) ≠ ""%string ∧ tcFalsifier (dgTopCause view) ≠ ""%string ∧
       ((filter (λ c, fired c = true) l = [] ∧ dgTopCause view = unattributed ∧ dgOthers view = []) ∨
        ∃ top others,
          top :: others ≡ₚ filter (λ c, fired c = true) l ∧
          Forall (λ c, 1 ≤ signals c ≤ maxSignals c) (top :: others) ∧
          StronglySorted (λ a b, (score b <=? score a)%float = true) (top :: others) ∧
          dgTopCause view = show_top top ∧ dgOthers view = show_other <$> others)).
Proof.
  intros Hnan. destruct (candidates_honest p) as (l & Hl & Hh). specialize (Hnan l Hl).
  assert (Hnames : (λ c, (name c, maxSignals c)) <$> l = cause_list).
  { clear -Hh. induction Hh as [|[n k] c ? ? [] _ IH]; [done|]. rewrite fmap_cons. cbn in *. congruence. }
  assert (Hgood : Forall (λ c, fired c = true → 1 ≤ signals c ≤ maxSignals c ∧
                               summary c ≠ ""%string ∧ falsifier c ≠ ""%string) l)
    by (eapply Forall2_right; [|exact Hh]; intros [] ? [] ?; auto).
  unfold computeDiagnosis. rewrite Hl. destruct (anomalous p); cbn [negb outcome_bind].
  2:{ exists l, no_diagnosis. by split_and!. }
  assert (Hperm : rank l ≡ₚ filter (λ c, fired c = true) l) by apply sort_stable_perm.
  assert (Hon : Forall (λ c, is_nan (score c) = false) (filter (λ c, fired c = true) l)).
  { rewrite Forall_forall in *. intros c [_ Hc]%list_elem_of_filter. auto. }
  assert (Hsort : StronglySorted (λ a b, (score b <=? score a)%float = true) (rank l)).
  { eapply (StronglySorted_impl_on (λ c, is_nan (score c) = false)); [|by rewrite Hperm|].
    2:{ apply (sort_stable_sorted_on _ (λ c, is_nan (score c) = false)); [..|exact Hon].
        - intros x y _ _. apply ltb_asym.
        - intros x y z Hx Hy Hz H1 H2. exact (nltb_trans _ _ _ Hz Hy Hx H2 H1). }
    intros x y Hx Hy Hxy. cbv beta in *. rewrite leb_nltb by done. by rewrite Hxy. }
  destruct (rank l) as [|top others] eqn:Hr.
  - apply Permutation_nil in Hperm. exists l; eexists. split_and!; [done..|]. intros _.
    split; [done|]. split; [done|]. by left.
  - assert (Hin : Forall (λ c, fired c = true ∧ c ∈ l) (top :: others)).
    { rewrite Hperm. apply Forall_forall. intros c Hc%list_elem_of_filter. tauto. }
    assert (Hall : Forall (λ c, 1 ≤ signals c ≤ maxSignals c ∧ summary c ≠ ""%string ∧
                                falsifier c ≠ ""%string) (top :: others)).
    { eapply Forall_impl; [exact Hin|]. intros c [Hf Hc]. rewrite Forall_forall in Hgood. auto. }
    exists l; eexists. split_and!; [done..|]. intros _.
    pose proof Hall as [(_ & ? & ?) _]%Forall_cons. split; [done|]. split; [done|]. right.
    exists top, others. split; [done|]. split; [|done].
    eapply Forall_impl; [exact Hall|]. cbn. tauto.
Qed.

(** An endpoint whose downstream calls take four fifths of its time, on a fleet whose
    in-flight concurrency doubled. *)
Definition slow_downstream : diagnosisParams :=
  mkParams (mkDetailView 1000 0 false 0.1 1.2 1.5 [] [])
    (mkVerdict "Degraded" "dot-warn" "Degraded" "" "" true) [] []
    (insufficientMemory 0) "" [] [] (DownstreamStat.mk 1000 100 80)
    [mkNoStatusReasonStat 2 100] 0 false 60 21600.

Lemma diagnosis_ranks_causes_witness :
  (∃ l view, candidates slow_downstream = Ret l ∧ computeDiagnosis slow_downstream = Ret view ∧
             dgShow view = true) ∧
  match computeDiagnosis slow_downstream with
  | Ret view => (tcName (dgTopCause view), csName <$> dgOthers view) =
                ("Downstream / IO", ["Overload / timeouts"])%string
  | Panic _ => False
  end.
Proof.
  split; [|vm_compute; reflexivity].
  destruct (diagnosis_ranks_causes slow_downstream) as (l & view & Hl & _ & Hv & Hs & _).
  - assert (Hb : match candidates slow_downstream with
                 | Ret l => forallb (λ c, negb (is_nan (score c))) l | Panic _ => false end = true)
      by (vm_compute; reflexivity).
    intros l Hl. rewrite Hl in Hb. apply Forall_forall. intros c Hc%list_elem_of_In.
    rewrite forallb_forall in Hb. apply Hb, negb_true_iff in Hc. exact Hc.
  - exists l, view. split; [exact Hl|]. split; [exact Hv|].
    rewrite Hs. vm_compute. reflexivity.
Defined.

(** The congestion cause means blocked, not busy. When it fires, the fleet's CPU and GC
    use are not up against the baseline, so CPU-driven memory pressure is excluded and
    memory can only be named by a leak or burst verdict; and the downstream cause does not
    fire, because its share of at least a half contradicts a dominant self time. It always
    rests on at least three signals. *)
Theorem congestion_excludes_busy p :
  let win := aggregateFleet (pResources p) (pWinSeconds p) in
  let base := aggregateFleet (pResourceBaseline p) (pBaselineSeconds p) in
  let ds := toDownstreamView (pDownstream p) in
  fired (causeCongestion win base ds) = true →
  isUp (cores win) (cores base) = false ∧ isUp (gcCPU win) (gcCPU base) = false ∧
  fired (causeDownstream ds) = false ∧
  3 ≤ signals (causeCongestion win base ds) ≤ 4 ∧
  (fired (causeMemory p win base) = true →
     mLevel (pMemory p) = "Leak"%string ∨ mLevel (pMemory p) = "Burst"%string).
Proof.
  intros win base ds. clearbody win base ds. unfold causeCongestion. cbv zeta.
  destruct (isUp (cores win) (cores base)); [by rewrite orb_true_r|].
  destruct (isUp (gcCPU win) (gcCPU base)) eqn:Hgc; [by rewrite !orb_true_r|].
  cbn [negb]. rewrite !orb_false_r.
  destruct (negb (HasData ds) || (DownFraction ds <=? selfDominantCeiling)%float) eqn:Hself; [|done].
  cbn [negb]. destruct (negb _ && negb _ && negb _) eqn:Hany; [done|]. intros _.
  split; [done|]. split; [done|]. split; [|split].
  - unfold causeDownstream. destruct (HasData ds); [|done]. cbn [negb orb] in *.
    unfold selfDominantCeiling, downstreamHighShare in *.
    rewrite (leb_ltb_trans _ _ 0.5 Hself) by (vm_compute; reflexivity). done.
  - unfold addCongestionSignals. revert Hany.
    generalize ((0 <? fdLimit win) && (fdNearLimit <=? f64_of_Z (openFDs win) / f64_of_Z (fdLimit win))%float).
    intros near. destruct (isUpZ (inFlight win) (inFlight base)), near, (isUpZ (openFDs win) (openFDs base));
      cbn; intros; (done || lia).
  - unfold causeMemory. rewrite Hgc. cbv zeta. rewrite andb_false_r. cbn [negb andb].
    destruct (decide (mLevel (pMemory p) = "Leak"%string)) as [|H1]; [auto|].
    destruct (decide (mLevel (pMemory p) = "Burst"%string)) as [|H2]; [auto|].
    rewrite !bool_decide_false by done. done.
Qed.

Definition busy_replica (in_flight : Z) : InstanceResourceStat.t :=
  InstanceResourceStat.mk "pod-a" 1000000000 0 0 0 100 0 0 0 0.01 0 4 0 0 10 1024 in_flight.

(** The in-flight peak went from 10 to 40 while the CPU did the same work. *)
Definition stalled_pool : diagnosisParams :=
  mkParams (mkDetailView 1000 0 false 0.1 1.2 1.5 [] [])
    (mkVerdict "Degraded" "dot-warn" "Degraded" "" "" true) [busy_replica 40] [busy_replica 10]
    (insufficientMemory 0) "" [] [] DownstreamStat.zero [] 0 false 60 60.

Lemma congestion_excludes_busy_witness :
  fired (causeDownstream (toDownstreamView (pDownstream stalled_pool))) = false ∧
  match computeDiagnosis stalled_pool with
  | Ret view => (tcName (dgTopCause view), tcConfidence (dgTopCause view)) =
                ("Connection / pool congestion", "High (3/4 signals)")%string
  | Panic _ => False
  end.
Proof.
  split; [|vm_compute; reflexivity].
  apply (congestion_excludes_busy stalled_pool). vm_compute. reflexivity.
Defined.
