(* ===== verification/Pages.v ===== *)
(** * Page builders (server/internal/web/view_page.go, chrome.go, template.go)

    The performance page's arithmetic, the rows of the keys panel, the handshake stepper
    and the chrome every page carries. *)

From Stdlib Require Import ZArith Lia Floats Ascii.
From Stdlib Require String.
From stdpp Require Import base option gmap strings sorting list.
From S2P Require Import Prelude GoFloat GoTime GoDate GoString Storage Format Views Range.

Local Open Scope Z_scope.
Local Infix "+++" := String.append (at level 60, right associativity).

(** ** The chrome *)

Record crumb := mkCrumb { crLabel : string; crHref : string }.

Record Shell := mkShell {
  shOrg : string; shUser : string; shRole : string; shAccountHref : string;
  shNav : list navItem; shCrumbs : list crumb; shPageTitle : string; shShowControls : bool;
  shWindows : list windowOption; shWindowKey : string; shFlushLabel : string; shKeyMask : string;
  shLive : bool; shLiveHref : string;
}.

(** ** The performance page (view_page.go) *)

Definition bytesPerRawEvent : Z := 300.

Record rollupTier := mkRollupTier { rtRes : string; rtRetention : string; rtBarPct : string }.

(** Resolution label, retention label, resolution in seconds, retention in days. *)
Definition tier_specs : list (string * string * f64 * f64) :=
  [ ("10s", "raw · 7 days", 10%float, 7%float); ("1min", "30 days", 60%float, 30%float);
    ("1hr", "180 days", 3600%float, 180%float); ("1day", "730 days", 86400%float, 730%float) ].

Definition tier_windows (s : string * string * f64 * f64) : f64 := (s.2 * 86400 / s.1.2)%float.

Definition rollupTiers : list rollupTier :=
  let maxWin := fold_left (λ m s, if (m <? tier_windows s)%float then tier_windows s else m)
                  tier_specs 0%float in
  (λ s, let pct := if (0 <? maxWin)%float then (tier_windows s / maxWin * 100)%float else 100%float in
        mkRollupTier s.1.1.1 s.1.1.2 (format_f pct 1 +++ "%")) <$> tier_specs.

Record performancePage := mkPerformancePage {
  ppShell : Shell; ppHasData : bool; ppRequests : string; ppSummaries : string;
  ppCompression : string; ppIngestRate : string; ppQueryMs : string; ppWindowLabel : string;
  ppWindowShort : string; ppRawDisk : string; ppSummaryDisk : string; ppSummaryBarPct : string;
  ppRatio : string; ppRawEventBytes : Z; ppTiers : list rollupTier;
}.

(** The window keys are digits and lower-case letters. *)
Definition upper_byte (a : ascii) : ascii :=
  if (97 <=? byte_of a) && (byte_of a <=? 122) then ascii_of (byte_of a - 32) else a.
Definition ToUpper (s : string) : string := of_bytes (upper_byte <$> bytes_of s).

(** The width of the summaries bar and the reduction factor. *)
Definition disk_reduction (rawBytes summaryBytes : f64) : string * string :=
  if (0 <? summaryBytes)%float && (summaryBytes <? rawBytes)%float then
    let pct := (summaryBytes / rawBytes * 100)%float in
    let pct := if (pct <? 0.5)%float then 0.5%float else pct in
    (format_f pct 1 +++ "%", fmtCompact (rawBytes / summaryBytes)%float +++ "×")
  else ("100%"%string, "—"%string).

Definition buildPerformance (shell : Shell) (s : PerformanceStat.t) (window queryDur : Duration)
  (winKey : string) : performancePage :=
  let queryMs := format_f (f64_of_Z (Z.quot queryDur 1000) / 1000)%float 0 in
  let label := default "" (windowText !! winKey) in
  let short := ToUpper winKey in
  let requests := PerformanceStat.Requests s in
  let summaries := PerformanceStat.Summaries s in
  if (requests =? 0) || (summaries =? 0) then
    mkPerformancePage shell false "" "" "" "" queryMs label short "" "" "" "" bytesPerRawEvent rollupTiers
  else
    let rawBytes := (f64_of_Z requests * 300)%float in
    let summaryBytes := f64_of_Z (PerformanceStat.SummaryDiskBytes s) in
    let secs := Seconds window in
    let '(bar, ratio) := disk_reduction rawBytes summaryBytes in
    mkPerformancePage shell true (fmtCompact (f64_of_Z requests)) (fmtCompact (f64_of_Z summaries))
      (fmtCompact (f64_of_Z requests / f64_of_Z summaries)%float +++ "×")
      (if (0 <? secs)%float then fmtCompact (f64_of_Z requests / secs)%float +++ "/s" else "")
      queryMs label short (fmtBytes rawBytes) (fmtBytes summaryBytes) bar ratio bytesPerRawEvent rollupTiers.

(** ** The keys panel *)

Record KeyInfo := mkKeyInfo {
  kiID : string; kiLabel : string; kiLast4 : string; kiCreatedAt : Time; kiRevokedAt : option Time;
}.
Record keyRow := mkKeyRow {
  krID : string; krLabel : string; krMasked : string; krCreated : string; krRevoked : bool;
}.

Definition toKeyRows (infos : list KeyInfo) : list keyRow :=
  (λ k, mkKeyRow (kiID k) (kiLabel k) ("····" +++ kiLast4 k) (format_date (kiCreatedAt k))
          (bool_decide (is_Some (kiRevokedAt k)))) <$> infos.

(** ** Onboarding *)

Record ServiceOnboarding := mkServiceOnboarding { soService : string; soInstance : string; soAt : Time }.
Record onboardingStep := mkStep { stLabel : string; stDone : bool }.
Record onboardingData := mkOnboardingData {
  obSteps : list onboardingStep; obConnected : list ServiceOnboarding; obFrozen : bool;
}.

Definition buildOnboarding (connected : list ServiceOnboarding) (frozen : bool) : onboardingData :=
  let serviceConnected := (0 <? length connected)%nat in
  mkOnboardingData
    [ mkStep "Ingest key valid" true; mkStep "Service connected" serviceConnected;
      mkStep "Waiting for first Summary" serviceConnected; mkStep "First data received" false ]
    connected frozen.

Record onbStepView := mkStepView {
  ovIcon : string; ovDotClass : string; ovLabelClass : string; ovLabel : string; ovSub : string;
  ovConnector : bool;
}.

Definition step_subs : list string :=
  [ "ingest key resolved"; "handshake received"; "flush window ~10s (accelerated on cold start)";
    "RED metrics live" ].

(** The index of the first step that is not done. *)
Definition current_step (steps : list onboardingStep) : option nat :=
  fst <$> list_find (λ s, stDone s = false) steps.

Definition onboardingStepViews (steps : list onboardingStep) : list onbStepView :=
  imap (λ i s,
    let '(icon, dot, label) :=
      if stDone s then ("✓", "dot-done", "c-txt")%string
      else if bool_decide (current_step steps = Some i) then ("◐", "dot-current", "c-txt")%string
      else (Itoa (Z.of_nat i + 1), "dot-todo", "c-txt3")%string in
    mkStepView icon dot label (stLabel s) (default "" (step_subs !! i)) (S i <? length steps)%nat) steps.

Record handshakeView := mkHandshake {
  hvSteps : list onbStepView; hvConnected : list ServiceOnboarding; hvFrozen : bool; hvComplete : bool;
}.

(** [selectedFramework] (web.go): only known adapters. *)
Definition selectedFramework (fw : string) : string :=
  if bool_decide (fw ∈ ["nethttp"; "echo"; "chi"; "beego"]%string) then fw else "gin".

Example rollupTiers_widths :
  rtBarPct <$> rollupTiers = ["100.0%"; "71.4%"; "7.1%"; "1.2%"]%string.
Proof. vm_compute. reflexivity. Qed.
Example stepper_waiting :
  ovIcon <$> onboardingStepViews (obSteps (buildOnboarding [] false)) = ["✓"; "◐"; "3"; "4"]%string.
Proof. vm_compute. reflexivity. Qed.
