(* ===== verification/Chart.v ===== *)
(** * Server-rendered charts (server/internal/web/chart.go)

    The SVG text of the endpoint page's charts: the timeline, the latency histogram and
    the memory trend. The markup is built from the same pieces in the same order; a
    double quote is written with [dq]. The theorems here are about the geometry the
    text is made of; that it is well-formed markup is in the file ChartMarkup. *)

From Stdlib Require Import ZArith Lia Floats Ascii.
From Stdlib Require String.
From stdpp Require Import base option strings sorting list.
From S2P Require Import Prelude GoFloat GoTime GoString Storage Format Views.

Local Open Scope Z_scope.
Local Infix "+++" := String.append (at level 60, right associativity).

Definition cat (l : list string) : string := fold_right String.append "" l.
Definition dq : string := of_bytes [ascii_of 34].

(** One attribute: [ name="value"]. *)
Definition attr (n v : string) : string := " " +++ n +++ "=" +++ dq +++ v +++ dq.
(** An element with its attributes and its text. *)
Definition elem (tag : string) (attrs : list (string * string)) (text : string) : string :=
  "<" +++ tag +++ cat ((λ a, attr a.1 a.2) <$> attrs) +++ ">" +++ text +++ "</" +++ tag +++ ">".

Definition f1 (x : f64) : string := format_f x 1.
Definition f0 (x : f64) : string := format_f x 0.

Definition svg_open (w hgt : string) : string :=
  "<svg" +++ attr "viewBox" ("0 0 " +++ w +++ " " +++ hgt) +++ attr "width" "100%" +++
  attr "style" "display:block;height:auto" +++ ">".

(** The only messages are the three constants below: none needs escaping. *)
Definition emptyChart (w hgt halfw halfh msg : string) : string :=
  svg_open w hgt +++
  elem "text" [("x", halfw); ("y", halfh); ("text-anchor", "middle"); ("fill", "#69727F");
               ("style", "font:500 12px var(--mono)")]%string msg +++ "</svg>".

(** [svgPath]: a polyline through the mapped points. *)
Definition svgPath (x : Z → f64) (y : f64 → f64) (vals : list f64) : string :=
  TrimSpace (cat (imap (λ i v,
    (if Nat.eqb i 0 then "M" else "L") +++ f1 (x (Z.of_nat i)) +++ "," +++ f1 (y v) +++ " ") vals)).

Definition fmax (l : list f64) : f64 := fold_left (λ m v, if (m <? v)%float then v else m) l 0%float.

Definition gradient (id color o1 : string) : string :=
  elem "linearGradient" [("id", id); ("x1", "0"); ("y1", "0"); ("x2", "0"); ("y2", "1")]%string
    (elem "stop" [("offset", "0%"); ("stop-color", color); ("stop-opacity", o1)]%string "" +++
     elem "stop" [("offset", "100%"); ("stop-color", color); ("stop-opacity", "0")]%string "").

Definition stroke_path (d color width : string) : string :=
  elem "path" [("d", d); ("fill", "none"); ("stroke", color); ("stroke-width", width);
               ("stroke-linejoin", "round")]%string "".

(** The frame of a line chart: its size and paddings. *)
Record frame := mkFrame { fw : f64; fh : f64; pL : f64; pR : f64; pT : f64; pB : f64 }.
Definition ts_frame : frame := mkFrame 560 250 44 46 14 26.
Definition mem_frame : frame := mkFrame 560 210 62 12 14 20.

(** The abscissa of point [i] of [n], and the ordinate of [v] on a scale up to [vMax]. *)
Definition x_at (f : frame) (n i : Z) : f64 :=
  (pL f + f64_of_Z i * (fw f - pL f - pR f) / f64_of_Z (n - 1))%float.
Definition y_at (f : frame) (vMax v : f64) : f64 :=
  (fh f - pB f - v / vMax * (fh f - pT f - pB f))%float.

(** One horizontal grid line of four. *)
Definition grid_y (f : frame) (g : Z) : f64 :=
  (pT f + f64_of_Z g * (fh f - pT f - pB f) / 3)%float.
Definition grid_line (f : frame) (pLs : string) (g : Z) : string :=
  elem "line" [("x1", pLs); ("y1", f1 (grid_y f g)); ("x2", f1 (fw f - pR f)%float);
               ("y2", f1 (grid_y f g)); ("stroke", "rgba(255,255,255,.055)"); ("stroke-width", "1")]%string "".
Definition axis_label (f : frame) (g : Z) (x : f64) (anchor fill text : string) : string :=
  elem "text" [("x", f1 x); ("y", f1 (grid_y f g + 3)%float); ("text-anchor", anchor); ("fill", fill);
               ("style", "font:500 9px var(--mono)")]%string text.

(** The share of the axis left at grid line [g]. *)
Definition left_at (vMax : f64) (g : Z) : f64 := (vMax * (1 - f64_of_Z g / 3))%float.

Definition area (f : frame) (n : Z) (line fill : string) : string :=
  elem "path" [("d", line +++ " L" +++ f1 (x_at f n (n - 1)) +++ "," +++ f1 (fh f - pB f)%float +++
                     " L" +++ f1 (pL f) +++ "," +++ f1 (fh f - pB f)%float +++ " Z");
               ("fill", fill)]%string "".

Definition scale_top (m k : f64) : f64 :=
  let m := (m * k)%float in if (m <=? 0)%float then 1%float else m.

Definition timeSeriesSVG (points : list TimePoint.t) (step : Duration) : string :=
  if (length points <? 2)%nat then emptyChart "560" "250" "280" "125" "no time-series data yet"
  else
    let stepSec := Seconds step in
    let stepSec := if (stepSec <=? 0)%float then 1%float else stepSec in
    let n := Z.of_nat (length points) in
    let rate := (λ p, (f64_of_Z (TimePoint.Count p) / stepSec)%float) <$> points in
    let errPS := (λ p, (f64_of_Z (TimePoint.Count p) * TimePoint.ErrorRate p / stepSec)%float) <$> points in
    let p95 := TimePoint.P95 <$> points in
    let rMax := scale_top (fmax rate) 1.15 in
    let pMax := scale_top (fmax p95) 1.2 in
    let f := ts_frame in
    let x := x_at f n in
    let rLine := svgPath x (y_at f rMax) rate in
    let eLine := svgPath x (y_at f rMax) errPS in
    cat ([ svg_open "560" "250";
           elem "defs" [] (gradient "ts" "#B4F14A" "0.22" +++ gradient "tse" "#FF6B6B" "0.30") ] ++
         ((λ g, grid_line f "44" g +++
              axis_label f g (pL f - 8)%float "end" "#69727F" (f0 (left_at rMax g)) +++
              axis_label f g (fw f - pR f + 8)%float "start" "#A78BFA" (f0 (left_at pMax g * 1000)%float))
            <$> [0; 1; 2; 3]) ++
         [ area f n rLine "url(#ts)"; area f n eLine "url(#tse)";
           stroke_path rLine "#B4F14A" "2"; stroke_path eLine "#FF6B6B" "2";
           stroke_path (svgPath x (y_at f pMax) p95) "#A78BFA" "2"; "</svg>" ]).

Definition bytesLabel (v : f64) : string := fmtBytes (if (v <? 0)%float then 0%float else v).

Definition memoryTrendSVG (points : list MemoryTrendPoint.t) (_ : Duration) : string :=
  if (length points <? 2)%nat then emptyChart "560" "210" "280" "105" "no memory data yet"
  else
    let n := Z.of_nat (length points) in
    let postGC := (λ p, f64_of_Z (MemoryTrendPoint.PostGCHeapBytes p)) <$> points in
    let inuse := (λ p, f64_of_Z (MemoryTrendPoint.HeapInuseBytes p)) <$> points in
    let vMax := scale_top
      (fold_left (λ m p,
         let a := f64_of_Z (MemoryTrendPoint.PostGCHeapBytes p) in
         let b := f64_of_Z (MemoryTrendPoint.HeapInuseBytes p) in
         let m := if (m <? a)%float then a else m in if (m <? b)%float then b else m) points 0%float) 1.15 in
    let f := mem_frame in
    let pgLine := svgPath (x_at f n) (y_at f vMax) postGC in
    cat ([ svg_open "560" "210"; elem "defs" [] (gradient "mt" "#B4F14A" "0.20") ] ++
         ((λ g, grid_line f "62" g +++
              axis_label f g (pL f - 8)%float "end" "#69727F" (bytesLabel (left_at vMax g)))
            <$> [0; 1; 2; 3]) ++
         [ area f n pgLine "url(#mt)";
           elem "path" [("d", svgPath (x_at f n) (y_at f vMax) inuse); ("fill", "none");
                        ("stroke", "#69727F"); ("stroke-width", "1.6"); ("stroke-dasharray", "4 3");
                        ("stroke-linejoin", "round")]%string "";
           stroke_path pgLine "#B4F14A" "2"; "</svg>" ]).

Definition latencyLabel (sec : f64) : string :=
  let ms := (sec * 1000)%float in
  if (1000 <=? ms)%float then TrimSuffix (f1 (ms / 1000)%float) ".0" +++ "s" else f0 ms +++ "ms".

(** The last bar whose latency does not exceed the quantile, the first bar otherwise. *)
Definition marker_index (sorted : list HistogramBar) (v : f64) : Z :=
  fold_left (λ idx '(i, bar), if (LatencySeconds bar <=? v)%float then i else idx)
    (imap (λ i bar, (Z.of_nat i, bar)) sorted) 0.

Definition sort_bars (bars : list HistogramBar) : list HistogramBar :=
  sort_stable (λ a b, (LatencySeconds a <? LatencySeconds b)%float) bars.

Definition histogramSVG (bars : list HistogramBar) (p50 p95 p99 : f64) : string :=
  match bars with
  | [] => emptyChart "760" "220" "380" "110" "no latency data yet"
  | _ =>
      let sorted := sort_bars bars in
      let cMax := fold_left (λ m b, if m <? barCount b then barCount b else m) sorted 0 in
      let cMax := if cMax =? 0 then 1 else cMax in
      let bw := ((760 - 8 - 8) / f64_of_Z (Z.of_nat (length sorted)))%float in
      let bar_svg (i : nat) (bar : HistogramBar) : string :=
        let bh := (f64_of_Z (barCount bar) / f64_of_Z cMax * (220 - 12 - 34))%float in
        let left := (8 + f64_of_Z (Z.of_nat i) * bw)%float in
        elem "rect" [("x", f1 (left + 3)%float); ("y", f1 (220 - 34 - bh)%float); ("width", f1 (bw - 6)%float);
                     ("height", f1 bh); ("rx", "3"); ("fill", "#A78BFA"); ("opacity", "0.78")]%string "" +++
        (if Nat.even i then
           elem "text" [("x", f1 (left + bw / 2)%float); ("y", f1 (220 - 34 + 16)%float);
                        ("text-anchor", "middle"); ("fill", "#69727F");
                        ("style", "font:500 9px var(--mono)")]%string (latencyLabel (LatencySeconds bar))
         else "") in
      let marker (v : f64) (label color : string) : string :=
        let x := f1 (8 + f64_of_Z (marker_index sorted v) * bw + bw / 2)%float in
        elem "line" [("x1", x); ("y1", "12"); ("x2", x); ("y2", "186"); ("stroke", color);
                     ("stroke-width", "1.4"); ("stroke-dasharray", "3 3"); ("opacity", "0.9")]%string "" +++
        elem "text" [("x", x); ("y", "14"); ("text-anchor", "middle"); ("fill", color);
                     ("style", "font:700 9px var(--mono)")]%string label in
      cat ([svg_open "760" "220"] ++ imap bar_svg sorted ++
           [ marker p50 "p50" "#5FE3A1"; marker p95 "p95" "#B4F14A"; marker p99 "p99" "#FF6B6B"; "</svg>" ])
  end.

(** Two points, one second apart: the timeline's lines go from edge to edge. *)
Example timeline_path :
  svgPath (x_at ts_frame 2) (y_at ts_frame 10) [0%float; 10%float] = "M44.0,224.0 L514.0,14.0"%string.
Proof. vm_compute. reflexivity. Qed.
Example empty_timeline : timeSeriesSVG [] Second = emptyChart "560" "250" "280" "125" "no time-series data yet".
Proof. reflexivity. Qed.
