(* ===== verification/ChartMarkup.v ===== *)
(** * The charts are well-formed fragments (server/internal/web/chart.go)

    The three SVG charts are inserted into the endpoint page as [template.HTML], without
    escaping. Whatever the numbers, each is a balanced fragment: it starts and ends in
    element text, because its text and attribute values are numerals and constants. *)

From Stdlib Require Import ZArith Lia Ascii Floats.
From Stdlib Require String.
From stdpp Require Import base option strings pretty list.
From S2P Require Import Prelude GoFloat GoTime GoString GoUrl GoHtml Markup Storage Format Views Chart.

Local Open Scope Z_scope.
Local Infix "+++" := String.append (at level 60, right associativity).

(** ** Text without markup *)

Definition plain (s : string) : Prop := forallb (λ a, negb (markup a)) (bytes_of s) = true.

Lemma plain_app s t : plain (s +++ t) ↔ plain s ∧ plain t.
Proof. unfold plain. rewrite bytes_of_app, forallb_app. apply andb_true_iff. Qed.

Lemma plain_take n s : plain s → plain (str_take n s).
Proof.
  unfold plain, str_take. rewrite bytes_of_of. rewrite <-(take_drop n (bytes_of s)) at 1.
  rewrite forallb_app. by intros [? _]%andb_true_iff.
Qed.
Lemma plain_TrimSuffix s p : plain s → plain (TrimSuffix s p).
Proof. unfold TrimSuffix. case_match; [apply plain_take|done]. Qed.

Lemma plain_concat l : Forall plain l → plain (cat l).
Proof. induction 1; cbn; [done|]. by apply plain_app. Qed.

Lemma plain_bytes l k : forallb (λ a, negb (markup a)) l = true → k ⊆ l → forallb (λ a, negb (markup a)) k = true.
Proof. rewrite !forallb_forall. intros Hl Hk a Ha. apply Hl, list_elem_of_In, Hk, list_elem_of_In, Ha. Qed.

Lemma drop_while_subseteq f l : drop_while f l ⊆ l.
Proof. induction l as [|a l IH]; [done|]. cbn. case_match; [|done]. intros x Hx. right. by apply IH. Qed.

Lemma plain_TrimSpace s : plain s → plain (TrimSpace s).
Proof.
  unfold plain, TrimSpace, trim_right_bytes. rewrite bytes_of_of. intros Hs. apply (plain_bytes _ _ Hs).
  intros x Hx. apply list_elem_of_In, in_rev, list_elem_of_In, drop_while_subseteq in Hx.
  by apply list_elem_of_In, in_rev, list_elem_of_In, drop_while_subseteq in Hx.
Qed.

Lemma plain_pretty (z : Z) : plain (pretty z).
Proof.
  assert (Hdig : ∀ l, Forall is_digit l → forallb (λ a, negb (markup a)) l = true).
  { induction 1 as [|a l Ha _ IH]; [done|]. cbn. rewrite IH, andb_true_r. unfold is_digit in Ha.
    unfold markup, byte_is. repeat (rewrite (proj2 (Z.eqb_neq _ _)) by lia). done. }
  assert (Hn : ∀ n : N, plain (pretty n)).
  { intros n. unfold pretty, pretty_N. case_decide; [done|]. by apply Hdig, pretty_go_digits. }
  destruct z as [|p|p]; [done|apply (Hn (N.pos p))|]. apply (plain_app "-"). split; [done|apply (Hn (N.pos p))].
Qed.

Lemma plain_zeros n : plain (String.concat "" (replicate n "0"%string)).
Proof.
  induction n as [|[|n] IH]; [done|done|]. cbn [replicate String.concat] in IH |- *.
  by repeat (apply plain_app; split).
Qed.

Lemma plain_pad n s : plain s → plain (pad_zeros n s).
Proof. intros Hs. apply plain_app. split; [apply plain_zeros|done]. Qed.

Lemma plain_fixed n prec : plain (fixed_digits n prec).
Proof.
  unfold fixed_digits, dec. destruct prec; [apply plain_pretty|].
  apply plain_app. split; [apply plain_pretty|]. apply plain_app. split; [done|]. apply plain_pad, plain_pretty.
Qed.

Lemma plain_format_f x prec : plain (format_f x prec).
Proof.
  unfold format_f. destruct (Prim2SF x) as [s|[]| |s m e]; try done.
  - apply plain_app. split; [by destruct s|apply plain_fixed].
  - destruct (scaled m e _) as [n d]. apply plain_app. split; [by destruct s|apply plain_fixed].
Qed.

Lemma plain_fmtBytes x : plain (fmtBytes x).
Proof.
  unfold fmtBytes.
  repeat case_match; apply plain_app; (split; [|done]); try apply plain_TrimSuffix; apply plain_format_f.
Qed.

Lemma plain_latencyLabel x : plain (latencyLabel x).
Proof.
  unfold latencyLabel. case_match; apply plain_app; (split; [|done]); try apply plain_TrimSuffix; apply plain_format_f.
Qed.

Create HintDb plain.
#[export] Hint Resolve plain_format_f plain_fmtBytes plain_latencyLabel plain_TrimSpace plain_TrimSuffix : plain.

(** ** Elements *)

(** Names of tags and attributes: letters, digits and dashes. *)
Definition name_byte (a : ascii) : bool := is_alpha a || is_num a || byte_is 45 a.
Definition plain_name (s : string) : bool :=
  match bytes_of s with a :: l => is_alpha a && forallb name_byte l | [] => false end.
Definition plain_tag (t : string) : bool := plain_name t && negb (special (of_bytes (lower_byte <$> bytes_of t))).

(** A byte of a name is none of the bytes a tag turns on. *)
Lemma name_byte_other a :
  name_byte a = true →
  hspace a = false ∧ byte_is 47 a = false ∧ byte_is 61 a = false ∧ byte_is 62 a = false.
Proof.
  unfold name_byte, is_alpha, is_num, hspace, byte_is. intros Ha.
  rewrite !orb_true_iff, !andb_true_iff, !Z.leb_le, Z.eqb_eq in Ha.
  repeat rewrite (proj2 (Z.eqb_neq _ _)) by lia. done.
Qed.
Lemma alpha_other a :
  is_alpha a = true → name_byte a = true ∧ byte_is 33 a = false ∧ byte_is 34 a = false ∧ byte_is 39 a = false.
Proof.
  unfold name_byte, is_alpha, byte_is. intros Ha. rewrite Ha. split; [done|].
  rewrite !orb_true_iff, !andb_true_iff, !Z.leb_le in Ha.
  repeat rewrite (proj2 (Z.eqb_neq _ _)) by lia. done.
Qed.

Lemma run_tag_name close nm l :
  forallb name_byte l = true → run (HTagName close nm) l = HTagName close (nm +++ of_bytes (lower_byte <$> l)).
Proof.
  revert nm. induction l as [|a l IH]; intros nm Hl; [by rewrite str_app_nil_r|].
  cbn in Hl. apply andb_true_iff in Hl as [Ha Hl]. destruct (name_byte_other a Ha) as (Hs & H47 & _ & H62).
  unfold run. cbn [fold_left step]. rewrite Hs, H47, H62. fold (run (HTagName close (snoc nm a)) l). rewrite IH by done.
  f_equal. unfold snoc. by rewrite str_app_assoc.
Qed.

Lemma run_attr_name e l : forallb name_byte l = true → run (HAttrName e) l = HAttrName e.
Proof.
  induction l as [|a l IH]; [done|]. cbn [forallb]. intros [Ha Hl]%andb_true_iff.
  destruct (name_byte_other a Ha) as (Hs & H47 & H61 & H62). unfold run. cbn [fold_left step].
  rewrite Hs, H47, H61, H62. by apply IH.
Qed.

(** The states an attribute may follow in a tag whose text is not special. *)
Definition in_tag (s : hstate) : Prop :=
  (∃ nm, s = HTagName false nm ∧ special nm = false) ∨ s = HAfterValue "".

Lemma run_attr s n v : in_tag s → plain_name n = true → plain v → run s (bytes_of (attr n v)) = HAfterValue "".
Proof.
  intros Hs Hn Hv. unfold attr, plain_name in *. destruct (bytes_of n) as [|a l] eqn:Hb; [done|].
  apply andb_true_iff in Hn as [Ha Hl]. destruct (alpha_other a Ha) as (Hna & _).
  destruct (name_byte_other a Hna) as (Hsp & H47 & H61 & H62).
  rewrite !bytes_of_app, Hb, !run_app.
  assert (Hsp' : run s (bytes_of " ") = HBeforeAttr "").
  { destruct Hs as [(nm & -> & Hnm)| ->]; [|done]. cbn. by rewrite Hnm. }
  rewrite Hsp'. change (run (HBeforeAttr "") (a :: l)) with (run (before_attr "" a) l).
  unfold before_attr. rewrite Hsp, H47, H62. cbn [orb]. rewrite run_attr_name by done.
  change (run (run (HAttrName "") (bytes_of "=")) (bytes_of dq)) with (HValueDQ "").
  by rewrite (run_settled (HValueDQ "")).
Qed.

Definition good_attr (a : string * string) : Prop := plain_name a.1 = true ∧ plain a.2.

Lemma run_attrs s attrs :
  in_tag s → Forall good_attr attrs →
  in_tag (run s (bytes_of (cat ((λ a, attr a.1 a.2) <$> attrs)))).
Proof.
  intros Hs Ha. revert s Hs. induction Ha as [|[n v] l [Hn Hv] _ IH]; intros s Hs; [done|].
  cbn [fmap list_fmap cat fold_right]. rewrite bytes_of_app, run_app, run_attr by done. apply IH. by right.
Qed.

Lemma run_close s : in_tag s → run s (bytes_of ">") = HText.
Proof. intros [(nm & -> & Hnm)| ->]; [|done]. cbn. by rewrite Hnm. Qed.

Lemma run_open_name t :
  plain_tag t = true →
  run HText (bytes_of "<" ++ bytes_of t) = HTagName false (of_bytes (lower_byte <$> bytes_of t)) ∧
  run HText (bytes_of "</" ++ bytes_of t) = HTagName true (of_bytes (lower_byte <$> bytes_of t)).
Proof.
  unfold plain_tag, plain_name. intros [Ht _]%andb_true_iff. destruct (bytes_of t) as [|a l]; [done|].
  apply andb_true_iff in Ht as [Ha Hl]. destruct (alpha_other a Ha) as (Hna & H33 & _).
  destruct (name_byte_other a Hna) as (_ & H47 & _ & _). rewrite !run_app.
  change (run HText (bytes_of "<")) with HTagOpen. change (run HText (bytes_of "</")) with HEndTagOpen.
  change (run HTagOpen (a :: l)) with (run (step HTagOpen a) l).
  change (run HEndTagOpen (a :: l)) with (run (step HEndTagOpen a) l). cbn [step]. rewrite H33, H47, Ha.
  split; by rewrite run_tag_name.
Qed.

Lemma elem_balanced tag attrs text :
  plain_tag tag = true → Forall good_attr attrs → balanced text → balanced (elem tag attrs text).
Proof.
  intros Ht Ha Hx. unfold balanced, elem in *. destruct (run_open_name tag Ht) as [Hopen Hclose].
  rewrite run_app in Hopen, Hclose. rewrite !bytes_of_app, !run_app, Hopen.
  assert (Hin : in_tag (HTagName false (of_bytes (lower_byte <$> bytes_of tag)))).
  { left. eexists. split; [done|]. apply andb_true_iff in Ht as [_ Ht]. by apply negb_true_iff. }
  rewrite (run_close _ (run_attrs _ _ Hin Ha)), Hx, Hclose. done.
Qed.

Lemma plain_balanced s : plain s → balanced s.
Proof. intros Hs. by apply (run_settled HText). Qed.
Lemma balanced_app s t : balanced s → balanced t → balanced (s +++ t).
Proof. unfold balanced. intros Hs Ht. by rewrite bytes_of_app, run_app, Hs. Qed.
Lemma balanced_cat l : Forall balanced l → balanced (cat l).
Proof. induction 1; [done|]. by apply balanced_app. Qed.

(** ** The charts *)

(** Numerals and constants, and what is pasted from them. *)
Ltac solve_plain :=
  repeat match goal with
    | |- plain (_ +++ _) => apply plain_app; split
    | |- plain (if ?b then _ else _) => destruct b
    end; try solve [assumption | eauto with plain | vm_compute; reflexivity].
Ltac solve_elem :=
  apply elem_balanced;
  [ vm_compute; reflexivity
  | repeat (apply Forall_cons_2; [split; [vm_compute; reflexivity|cbn [snd]; solve_plain]|]); apply Forall_nil_2
  | try solve [apply plain_balanced; solve_plain] ].

Lemma plain_f1 x : plain (f1 x).
Proof. apply plain_format_f. Qed.
Lemma plain_f0 x : plain (f0 x).
Proof. apply plain_format_f. Qed.
#[export] Hint Resolve plain_f0 plain_f1 : plain.

Lemma plain_svgPath x y vals : plain (svgPath x y vals).
Proof.
  apply plain_TrimSpace, plain_concat. apply Forall_lookup. intros i s Hs.
  apply list_lookup_imap_Some in Hs as (v & _ & ->). solve_plain.
Qed.
#[export] Hint Resolve plain_svgPath : plain.

Lemma svg_open_balanced w hgt : plain w → plain hgt → balanced (svg_open w hgt).
Proof.
  intros Hw Hh. unfold balanced, svg_open. rewrite !bytes_of_app, !run_app.
  change (run HText (bytes_of "<svg")) with (HTagName false "svg").
  rewrite (run_attr (HTagName false "svg"));
    [|left; eexists; split; [done|vm_compute; reflexivity]|vm_compute; reflexivity|solve_plain].
  reflexivity.
Qed.

Lemma emptyChart_balanced w hgt halfw halfh msg :
  plain w → plain hgt → plain halfw → plain halfh → plain msg → balanced (emptyChart w hgt halfw halfh msg).
Proof.
  intros. unfold emptyChart. apply balanced_app; [by apply svg_open_balanced|].
  apply balanced_app; [solve_elem|done].
Qed.

Lemma gradient_balanced id color o1 : plain id → plain color → plain o1 → balanced (gradient id color o1).
Proof. intros. unfold gradient. solve_elem. apply balanced_app; solve_elem. Qed.
Lemma stroke_path_balanced d color width : plain d → plain color → plain width → balanced (stroke_path d color width).
Proof. intros. unfold stroke_path. solve_elem. Qed.
Lemma grid_line_balanced f s g : plain s → balanced (grid_line f s g).
Proof. intros. unfold grid_line. solve_elem. Qed.
Lemma axis_label_balanced f g x anchor fill text :
  plain anchor → plain fill → plain text → balanced (axis_label f g x anchor fill text).
Proof. intros. unfold axis_label. solve_elem. Qed.
Lemma area_balanced f n line fill : plain line → plain fill → balanced (area f n line fill).
Proof. intros. unfold area. solve_elem. Qed.

Lemma fmap_balanced {A} (f : A → string) l : (∀ a, balanced (f a)) → Forall balanced (f <$> l).
Proof. intros Hf. apply Forall_fmap, Forall_forall. intros. apply Hf. Qed.

Ltac solve_piece :=
  lazymatch goal with
  | |- Forall _ (_ ++ _) => apply Forall_app; split
  | |- Forall _ (_ :: _) => apply Forall_cons_2
  | |- Forall _ [] => apply Forall_nil_2
  | |- Forall _ (_ <$> _) => apply fmap_balanced; intros ?
  | |- balanced (svg_open _ _) => apply svg_open_balanced; solve_plain
  | |- balanced (area _ _ _ _) => apply area_balanced; solve_plain
  | |- balanced (stroke_path _ _ _) => apply stroke_path_balanced; solve_plain
  | |- balanced (grid_line _ _ _) => apply grid_line_balanced; solve_plain
  | |- balanced (axis_label _ _ _ _ _ _) => apply axis_label_balanced; solve_plain
  | |- balanced (gradient _ _ _) => apply gradient_balanced; solve_plain
  | |- balanced (elem _ _ _) => solve_elem
  | |- balanced (_ +++ _) => apply balanced_app
  | |- balanced (if ?b then _ else _) => destruct b
  | |- balanced _ => vm_compute; reflexivity
  end.
Ltac solve_pieces := repeat solve_piece.

Lemma timeSeriesSVG_balanced points step : balanced (timeSeriesSVG points step).
Proof.
  unfold timeSeriesSVG. case_match; [apply emptyChart_balanced; vm_compute; reflexivity|]. cbn zeta. apply balanced_cat.
  solve_pieces.
Qed.

Lemma plain_bytesLabel v : plain (bytesLabel v).
Proof. apply plain_fmtBytes. Qed.
#[export] Hint Resolve plain_bytesLabel : plain.

Lemma memoryTrendSVG_balanced points step : balanced (memoryTrendSVG points step).
Proof.
  unfold memoryTrendSVG. case_match; [apply emptyChart_balanced; vm_compute; reflexivity|]. cbn zeta. apply balanced_cat. solve_pieces.
Qed.

Lemma histogramSVG_balanced bars p50 p95 p99 : balanced (histogramSVG bars p50 p95 p99).
Proof.
  unfold histogramSVG. destruct bars as [|b bars]; [apply emptyChart_balanced; vm_compute; reflexivity|]. cbn zeta. apply balanced_cat.
  apply Forall_app. split; [solve_pieces|]. apply Forall_app. split; [|solve_pieces].
  apply Forall_lookup. intros i s Hs. apply list_lookup_imap_Some in Hs as (x & _ & ->).
  solve_pieces.
Qed.
