(* ===== verification/Dashboard.v ===== *)
(** * The dashboard's handlers (server/internal/web/csrf.go, web.go, web_detail.go,
    web_setup.go, web_api.go, assets.go)

    Every page, JSON endpoint and form of the dashboard, over an abstract control plane:
    the key and team administrations are records of operations on a state of their own,
    the data plane is a function from a tenant to its scoped queries. A handler takes the
    state and a response in progress and returns both, or panics: form tokens dereference a
    signer that a handler may lack. The JSON encoder writes nothing when a number is not
    finite. *)

From Stdlib Require Import ZArith Lia Floats Ascii.
From Stdlib Require String.
From stdpp Require Import base option gmap strings sorting list.
From S2P Require Import Prelude GoFloat GoTime GoDate GoString GoUrl GoQuery Http Storage.
From S2P Require Import Auth Format Views Range Verdict Diagnosis Pages Chart.

Local Open Scope Z_scope.
Local Open Scope go_scope.
Local Infix "+++" := String.append (at level 60, right associativity).

(** ** csrf.go *)

Section csrf.
Context `{MacLib}.

Definition newCSRF (key : string) : option string :=
  if bool_decide (key = ""%string) then None else Some key.

(** [nonce]: the 16 random bytes of this call. *)
Definition issue (key tenant nonce : string) : string := sign key (tenant +++ "|" +++ b64_encode nonce).

Definition verify (key tenant token : string) : bool :=
  match open_signed key token with
  | Some payload =>
      let prefix := tenant +++ "|" in
      HasPrefix payload prefix && (String.length prefix <? String.length payload)%nat
  | None => false
  end.
End csrf.

(** ** What the handlers depend on (web_types.go) *)

Record ScopedQuery := mkScopedQuery {
  SeriesOverTime : string → string → string → Time → Time → Duration → option (list TimePoint.t);
  Services : Time → Time → option (list ServiceStat.t);
  Endpoints : string → Time → Time → option (list EndpointStat.t);
  EndpointDetail_ : string → string → string → Time → Time → option EndpointDetail;
  InstancesForEndpoint : string → string → string → Time → Time → option (list InstanceStat.t);
  VersionsForEndpoint : string → string → string → Time → Time → option (list VersionStat.t);
  ExemplarsForEndpoint : string → string → string → Time → Time → option (list ExemplarRow.t);
  LatencyByStatusClass : string → string → string → Time → Time → option (gmap string ClassLatency.t);
  ErrorClassesForEndpoint : string → string → string → Time → Time → option (list ErrorClassStat);
  NoStatusReasonsForEndpoint : string → string → string → Time → Time → option (list NoStatusReasonStat);
  DownstreamForEndpoint : string → string → string → Time → Time → option DownstreamStat.t;
  InstanceResourcesForService : string → Time → Time → option (list InstanceResourceStat.t);
  MemoryTrendForService : string → Time → Time → Duration → option (list MemoryTrendPoint.t);
  PerformanceStats : Time → Time → option PerformanceStat.t;
  HasAnySummary : option bool;
}.

(** The only way to the data plane is a tenant's scoped handle. *)
Abbreviation Querier := (tenant.ID → ScopedQuery) (only parsing).

Record MemberInfo := mkMemberInfo {
  miID : string; miEmail : string; miRole : string; miCreatedAt : Time; miIsOwner : bool;
}.
Record InviteInfo := mkInviteInfo {
  iiID : string; iiEmail : string; iiRole : string; iiCreatedAt : Time; iiExpiresAt : Time;
}.

(** The control plane as the web layer sees it: operations on a state [St], each with the
    organization it acts for. *)
Record KeyAdmin (St : Type) := mkKeyAdmin {
  IssueKey : St → string → string → St * option string;
  ListKeys : St → string → St * option (list KeyInfo);
  RevokeKey : St → string → string → St * bool;
}.
Record MemberAdmin (St : Type) := mkMemberAdmin {
  ListMembers : St → string → St * option (list MemberInfo);
  ListInvites : St → string → St * option (list InviteInfo);
  CreateInvite : St → string → string → string → string → St * option string;
  RevokeInvite : St → string → string → St * bool;
  RemoveMember : St → string → string → St * bool;
  SeatUsage : St → string → St * option (Z * Z);
}.
Arguments IssueKey {St}.
Arguments ListKeys {St}.
Arguments RevokeKey {St}.
Arguments ListMembers {St}.
Arguments ListInvites {St}.
Arguments CreateInvite {St}.
Arguments RevokeInvite {St}.
Arguments RemoveMember {St}.
Arguments SeatUsage {St}.

(** One call of a handler: the request, its raw query, the session the middleware put in
    its context, the successive readings of the clock and the random bytes it draws. *)
Record call := mkCall {
  c_req : Request; c_raw : string; c_session : option Session; c_now : nat → Time; c_nonce : string;
}.
Definition query_of (c : call) : Values := ParseQuery (c_raw c).
Definition param (c : call) (k : string) : string := Get (query_of c) k.

Record Config (St : Type) := mkConfig {
  cf_querier : option Querier;
  cf_tenant : option (call → option tenant.ID);
  cf_onboarding : option (St → string → St * option (list ServiceOnboarding));
  cf_frozen : option (string → bool);
  cf_keys : option (KeyAdmin St);
  cf_members : option (MemberAdmin St);
  cf_role : option (call → option (string * string));
  cf_csrfkey : string;
  cf_org : string; cf_user : string; cf_urole : string; cf_account : string;
}.
Arguments cf_querier {St}.
Arguments cf_tenant {St}.
Arguments cf_onboarding {St}.
Arguments cf_frozen {St}.
Arguments cf_keys {St}.
Arguments cf_members {St}.
Arguments cf_role {St}.
Arguments cf_csrfkey {St}.
Arguments cf_org {St}.
Arguments cf_user {St}.
Arguments cf_urole {St}.
Arguments cf_account {St}.

Record Handler (St : Type) := mkHandler {
  h_q : Querier;
  h_tenant : call → option tenant.ID;
  h_onboarding : option (St → string → St * option (list ServiceOnboarding));
  h_frozen : option (string → bool);
  h_keys : option (KeyAdmin St);
  h_members : option (MemberAdmin St);
  h_roleOf : option (call → option (string * string));
  h_csrf : option string;
  h_org : string; h_user : string; h_role : string; h_account : string;
}.
Arguments h_q {St}.
Arguments h_tenant {St}.
Arguments h_onboarding {St}.
Arguments h_frozen {St}.
Arguments h_keys {St}.
Arguments h_members {St}.
Arguments h_roleOf {St}.
Arguments h_csrf {St}.
Arguments h_org {St}.
Arguments h_user {St}.
Arguments h_role {St}.
Arguments h_account {St}.

Definition orDefault (v def : string) : string := if bool_decide (v = ""%string) then def else v.

Definition NewHandler {St} (cfg : Config St) : result string (Handler St) :=
  match cf_querier cfg, cf_tenant cfg with
  | None, _ => Err "web.NewHandler: nil Querier"%string
  | _, None => Err "web.NewHandler: nil Tenant resolver"%string
  | Some q, Some t =>
      if (bool_decide (is_Some (cf_keys cfg)) || bool_decide (is_Some (cf_members cfg))) &&
         bool_decide (cf_csrfkey cfg = ""%string)
      then Err "web.NewHandler: KeyAdmin/MemberAdmin set without a CSRFKey"%string
      else Ok (mkHandler St q t (cf_onboarding cfg) (cf_frozen cfg) (cf_keys cfg) (cf_members cfg)
                 (cf_role cfg) (newCSRF (cf_csrfkey cfg))
                 (orDefault (cf_org cfg) "mAPI-ng") (orDefault (cf_user cfg) "dev")
                 (orDefault (cf_urole cfg) "admin") (cf_account cfg))
  end.

(** ** What a handler writes (template.go) *)

Record detailData := mkDetailData {
  ddShell : Shell; ddService : string; ddMethod : string; ddRoute : string; ddDetail : detailView;
  ddVerdict : verdictView; ddStats : list kpi; ddStatusBars : list statusBar; ddDebug : debugContext;
  ddRange : detailRange; ddTSChart : string; ddHistChart : string;
  ddInstances : list instanceStatRow.t; ddVersions : list versionRow.t;
  ddExemplars : list exemplarRow.t; ddClassLatency : list classLatencyRow.t;
  ddErrorClasses : list (string * Z); ddNoStatusReasons : list (string * Z);
  ddDownstream : downstreamView; ddResources : list resourceRow; ddDiagnosis : diagnosisView;
}.

Record memberRow := mkMemberRow {
  mrID : string; mrEmail : string; mrRole : string; mrIsOwner : bool; mrCreated : string;
}.
Record inviteRow := mkInviteRow {
  irID : string; irEmail : string; irRole : string; irExpires : string;
}.

Record setupPage := mkSetupPage {
  spShell : Shell; spHandshake : handshakeView; spFrozen : bool; spShowKeys : bool;
  spKeys : list keyRow; spNewToken : string; spCSRFToken : string; spRefresh : bool;
  spShowTeam : bool; spIsAdmin : bool; spSeatUsed : Z; spSeatLimit : Z;
  spMembers : list memberRow; spInvites : list inviteRow; spInviteURL : string; spTeamError : string;
}.

Inductive page :=
| Text (s : string)
| OverviewPage (shell : Shell) (frozen : bool) (kpis : list kpi) (services : list serviceRow.t) (label : string)
| EndpointsPage (shell : Shell) (service sort : string) (frozen : bool) (kpis : list kpi) (rows : list endpointRow.t)
| DetailPage (d : detailData)
| PerformancePage (p : performancePage)
| OnboardingPage (shell : Shell) (hv : handshakeView) (frozen refresh : bool) (framework : string)
| SetupPage (p : setupPage)
| StepperFragment (hv : handshakeView)
| ShellPage (shell : Shell) (title content : string)
| SeriesJSON (l : list TimePoint.t)
| HistogramJSON (l : list HistogramBar)
| InstancesJSON (l : list InstanceStat.t)
| Script (s : string).

Abbreviation response := (Response page) (only parsing).

Definition contentSecurityPolicy : string :=
  "default-src 'self'; script-src 'self'; style-src 'self' 'unsafe-inline' https://fonts.googleapis.com; font-src https://fonts.gstatic.com; img-src 'self' data:; base-uri 'none'; frame-ancestors 'none'".

Definition html_headers (w : response) : response :=
  set_header (set_header w "Content-Type" "text/html; charset=utf-8")
    "Content-Security-Policy" contentSecurityPolicy.

(** [render]; executing a template writes the page. *)
Definition render (w : response) (p : page) : response := Write (html_headers w) p.

Definition NotFound (w : response) : response := Error w (Text "404 page not found") 404.
Definition serverError (w : response) : response := Error w (Text "query failed") 500.

(** What [encoding/json] accepts: a NaN or an infinity has no JSON form. *)
Definition finite (x : f64) : bool := negb (is_nan x || is_infinity x).
Definition encodable (p : page) : bool :=
  match p with
  | SeriesJSON l =>
      forallb (λ t, forallb finite [TimePoint.ErrorRate t; TimePoint.P50 t; TimePoint.P95 t; TimePoint.P99 t]) l
  | HistogramJSON l => forallb (λ b, finite (LatencySeconds b)) l
  | InstancesJSON l =>
      forallb (λ i, forallb finite [InstanceStat.ErrorRate i; InstanceStat.P50 i; InstanceStat.P95 i; InstanceStat.P99 i;
                                    InstanceStat.ReqBytesAvg i; InstanceStat.RespBytesAvg i]) l
  | _ => true
  end.

(** [writeJSON]. [Encode] marshals the whole value before it writes, so that after an error,
    which is only logged, nothing of the answer has been written, its status included. *)
Definition writeJSON (w : response) (p : page) : response :=
  let w := set_header w "Content-Type" "application/json" in
  if encodable p then Write w p else w.

Definition serveJS (w : response) (script : string) : response :=
  Write (set_header (set_header (set_header w "Content-Type" "text/javascript; charset=utf-8")
           "Cache-Control" "public, max-age=3600") "Content-Security-Policy" contentSecurityPolicy)
    (Script script).

(** [softQuery]: a failed secondary query is its zero value. *)
Definition softQuery {A} (zero : A) (r : option A) : A := default zero r.

(** ** The handlers *)

Section handlers.
Context `{MacLib} `{NetIP} {St : Type} (h : Handler St).
Implicit Types (st : St) (w : response) (c : call).

(** [activeKeyMask]: the newest active key's last four, or nothing on any miss. *)
Definition activeKeyMask st c : St * string :=
  match h_keys h, h_tenant h c with
  | Some ka, Some tid =>
      let '(st, infos) := ListKeys ka st (tenant.String tid) in
      (st, match infos ≫= λ l, hd_error (filter (λ k, kiRevokedAt k = None) l) with
           | Some k => "····" +++ kiLast4 k
           | None => ""
           end)
  | _, _ => (st, ""%string)
  end.

Definition buildShell st c (activeNav : string) (crumbs : list crumb) (title : string)
  (showControls : bool) (winKey : string) : St * Shell :=
  let '(st, mask) := activeKeyMask st c in
  (st, mkShell (h_org h) (h_user h) (h_role h) (h_account h) (buildNav activeNav winKey) crumbs title
         showControls (buildWindows (r_path (c_req c)) (c_raw c) winKey) winKey "flush 10s" mask false "").

(** [RenderShellPage] and [RenderDocPage]. The tenant is not required here. *)
Definition renderShellContent st w c (activeNav : string) (crumbs : list crumb) (title content : string)
  : St * response :=
  let '(st, shell) := buildShell st c activeNav crumbs title false (normalizeWindow (param c "win")) in
  (st, Write (set_header w "Content-Type" "text/html; charset=utf-8") (ShellPage shell title content)).
Definition RenderShellPage st w c (title content : string) : St * response :=
  renderShellContent st w c "" [mkCrumb title ""] title content.
Definition RenderDocPage st w c (title content : string) : St * response :=
  renderShellContent st w c "docs" [mkCrumb "docs" "/doc"; mkCrumb title ""] title content.

(** [resolveTenant]: the tenant, or a 401. *)
Definition with_tenant st w c (k : tenant.ID → outcome (St * response)) : outcome (St * response) :=
  match h_tenant h c with
  | Some tid => k tid
  | None => Ret (st, Error w (Text "unauthorized") 401)
  end.

Definition frozenFor (tid : tenant.ID) : bool :=
  match h_frozen h with Some f => f (tenant.String tid) | None => false end.

Definition windowDurOf (winKey : string) : Duration := default 0 (windowDur !! winKey).
Definition windowLabel (winKey : string) : string := default "" (windowText !! winKey).

(** [elapsed]: what [time.Since] measured around the query. *)
Definition servePerformance st w c (elapsed : Duration) : outcome (St * response) :=
  with_tenant st w c (λ tid,
    let winKey := normalizeWindow (param c "win") in
    let dur := windowDurOf winKey in
    let '(st, shell) := buildShell st c "performance" [mkCrumb "performance" ""] "Performance" true winKey in
    let '(from, to) := windowRange (c_now c 0%nat) dur in
    let stat := default PerformanceStat.zero (PerformanceStats (h_q h tid) from to) in
    Ret (st, render w (PerformancePage (buildPerformance shell stat dur elapsed winKey)))).

Definition buildHandshakeView st (tid : tenant.ID) : St * handshakeView :=
  let '(st, connected) :=
    match h_onboarding h with
    | Some src => let '(st, got) := src st (tenant.String tid) in (st, default [] got)
    | None => (st, [])
    end in
  let ob := buildOnboarding connected (frozenFor tid) in
  (st, mkHandshake (onboardingStepViews (obSteps ob)) (obConnected ob) (obFrozen ob)
         (default false (HasAnySummary (h_q h tid)))).

Definition renderOnboarding st w c (tid : tenant.ID) (winKey : string) : St * response :=
  let '(st, hv) := buildHandshakeView st tid in
  let '(st, shell) := buildShell st c "setup" [mkCrumb "setup" ""] "Get started" false winKey in
  (st, render w (OnboardingPage shell hv (hvFrozen hv) true (selectedFramework (param c "fw")))).

Definition serveOverview st w c : outcome (St * response) :=
  if bool_decide (r_path (c_req c) ≠ "/"%string ∧ r_path (c_req c) ≠ "/dashboard"%string)
  then Ret (st, NotFound w)
  else with_tenant st w c (λ tid,
    let winKey := normalizeWindow (param c "win") in
    let dur := windowDurOf winKey in
    let '(from, to) := windowRange (c_now c 0%nat) dur in
    match HasAnySummary (h_q h tid) with
    | None => Ret (st, serverError w)
    | Some false => Ret (renderOnboarding st w c tid winKey)
    | Some true =>
        match Services (h_q h tid) from to with
        | None => Ret (st, serverError w)
        | Some services =>
            let live := isLive (query_of c) in
            let '(st, shell) := buildShell st c "overview" [mkCrumb "services" ""] "Service overview" true winKey in
            let shell := mkShell (shOrg shell) (shUser shell) (shRole shell) (shAccountHref shell)
                           (shNav shell) (shCrumbs shell) (shPageTitle shell) (shShowControls shell)
                           (shWindows shell) (shWindowKey shell) (shFlushLabel shell) (shKeyMask shell)
                           live (liveToggleHref (r_path (c_req c)) (c_raw c) live) in
            let rows := toServiceRows services dur winKey in
            Ret (st, render w (OverviewPage shell (frozenFor tid) (overviewKPIs rows (windowLabel winKey))
                             rows (windowLabel winKey)))
        end
    end).

Definition serveEndpoints st w c : outcome (St * response) :=
  with_tenant st w c (λ tid,
    let service := r_value (c_req c) "service" in
    let winKey := normalizeWindow (param c "win") in
    let dur := windowDurOf winKey in
    let '(from, to) := windowRange (c_now c 0%nat) dur in
    match Endpoints (h_q h tid) service from to with
    | None => Ret (st, serverError w)
    | Some endpoints =>
        let sortKey := normalizeSort (param c "sort") in
        let rows := sortEndpointRows (toEndpointRows endpoints dur) sortKey in
        let crumbs := [mkCrumb "services" (withWin "/" winKey); mkCrumb service ""] in
        let '(st, shell) := buildShell st c "overview" crumbs service true winKey in
        Ret (st, render w (EndpointsPage shell service sortKey (frozenFor tid) (endpointKPIs rows) rows))
    end).

(** The twelve secondary queries of the endpoint page. They run concurrently, each writing
    its own field, so their results are independent of the order. *)
Record detailPanels := mkPanels {
  pn_points : list TimePoint.t; pn_baseline : list TimePoint.t; pn_instances : list InstanceStat.t;
  pn_versions : list VersionStat.t; pn_exemplars : list ExemplarRow.t;
  pn_byClass : gmap string ClassLatency.t; pn_errorClasses : list ErrorClassStat;
  pn_noStatusReasons : list NoStatusReasonStat; pn_downstream : DownstreamStat.t;
  pn_resources : list InstanceResourceStat.t; pn_resourceBaseline : list InstanceResourceStat.t;
  pn_memory : list MemoryTrendPoint.t;
}.

Definition detailBaselineLag : Duration := 5 * Minute.
Definition detailBaselineWindow : Duration := 6 * Hour.

Definition loadDetailPanels (tq : ScopedQuery) (service method route : string) (from to : Time)
  (step : Duration) : detailPanels :=
  let baseTo := time_add to (- detailBaselineLag) in
  let baseFrom := time_add baseTo (- detailBaselineWindow) in
  mkPanels (softQuery [] (SeriesOverTime tq service method route from to step))
    (softQuery [] (SeriesOverTime tq service method route baseFrom baseTo Minute))
    (softQuery [] (InstancesForEndpoint tq service method route from to))
    (softQuery [] (VersionsForEndpoint tq service method route from to))
    (softQuery [] (ExemplarsForEndpoint tq service method route from to))
    (softQuery ∅ (LatencyByStatusClass tq service method route from to))
    (softQuery [] (ErrorClassesForEndpoint tq service method route from to))
    (softQuery [] (NoStatusReasonsForEndpoint tq service method route from to))
    (softQuery DownstreamStat.zero (DownstreamForEndpoint tq service method route from to))
    (softQuery [] (InstanceResourcesForService tq service from to))
    (softQuery [] (InstanceResourcesForService tq service baseFrom baseTo))
    (softQuery [] (MemoryTrendForService tq service from to step)).

Definition open_verdict (v : verdictView) : verdictView :=
  mkVerdict (vLevel v) (vDotClass v) (vHeadline v) (vQualifier v) (vSentence v) true.

(** What the endpoint page computes from its queries, chrome aside. *)
Definition detail_body (shell : Shell) (service method route winKey : string) (from to now : Time)
  (custom : bool) (step : Duration) (detail : EndpointDetail) (p : detailPanels) : outcome detailData :=
  let dv := toDetailView detail in
  let winSec := Seconds (time_sub to from) in
  let! verdict := computeVerdict dv (pn_baseline p) winSec in
  let! mv := computeMemoryVerdict (pn_memory p) in
  let! instances := toInstanceRows (pn_instances p) in
  let! base := baselineMedianP95 (pn_baseline p) in
  let! diag := computeDiagnosis
    (mkParams dv verdict (pn_resources p) (pn_resourceBaseline p) mv (memoryTrendSVG (pn_memory p) step)
       instances (pn_versions p) (pn_downstream p) (pn_noStatusReasons p)
       (default 0%float base) (bool_decide (is_Some base)) winSec (Seconds detailBaselineWindow)) in
  let verdict := if dgShow diag then open_verdict verdict else verdict in
  Ret (mkDetailData shell service method route dv verdict (detailStats dv winSec) (statusBarsFor dv)
         (buildDebugContext service method route from to dv (dominantVersion (pn_versions p)))
         (buildDetailRange service method route winKey from to now custom)
         (timeSeriesSVG (pn_points p) step)
         (histogramSVG (dHistogram detail) (dP50 detail) (dP95 detail) (dP99 detail))
         instances (toVersionRows (pn_versions p)) (toExemplarRows (pn_exemplars p))
         (toClassLatencyRows (pn_byClass p)) (toErrorClassRows (pn_errorClasses p))
         (toNoStatusReasonRows (pn_noStatusReasons p)) (toDownstreamView (pn_downstream p))
         (toResourceRows (pn_resources p) winSec) diag).

Definition serveEndpointDetail st w c : outcome (St * response) :=
  with_tenant st w c (λ tid,
    let service := r_value (c_req c) "service" in
    let method := param c "method" in
    let route := param c "route" in
    let winKey := normalizeWindow (param c "win") in
    let '(from, to, custom) := resolveDetailRange (c_now c 0%nat) (query_of c) (windowDurOf winKey) in
    let step := if custom : bool then adaptiveStep (time_sub to from) else seriesStep in
    let tq := h_q h tid in
    match EndpointDetail_ tq service method route from to with
    | None => Ret (st, serverError w)
    | Some detail =>
        let p := loadDetailPanels tq service method route from to step in
        let crumbs := [mkCrumb "services" (withWin "/" winKey);
                       mkCrumb service (withWin ("/services/" +++ service) winKey);
                       mkCrumb (method +++ " " +++ route) ""] in
        let '(st, shell) := buildShell st c "overview" crumbs (method +++ " " +++ route) true winKey in
        let! d := detail_body shell service method route winKey from to (c_now c 1%nat) custom step detail p in
        Ret (st, render w (DetailPage d))
    end).

(** *** JSON endpoints (web_api.go) *)

Definition json_query {A} st w c (q : ScopedQuery → string → string → string → Time → Time → option A)
  (out : A → page) : outcome (St * response) :=
  with_tenant st w c (λ tid,
    let '(from, to) := windowRange (c_now c 0%nat) window in
    match q (h_q h tid) (param c "service") (param c "method") (param c "route") from to with
    | None => Ret (st, serverError w)
    | Some a => Ret (st, writeJSON w (out a))
    end).

Definition serveSeries st w c : outcome (St * response) :=
  json_query st w c (λ tq s m r from to, SeriesOverTime tq s m r from to seriesStep) SeriesJSON.
Definition serveHistogram st w c : outcome (St * response) :=
  json_query st w c EndpointDetail_ (λ d, HistogramJSON (dHistogram d)).
Definition serveInstances st w c : outcome (St * response) :=
  json_query st w c InstancesForEndpoint InstancesJSON.

(** *** The Setup page (web_setup.go) *)

Record setupExtras := mkExtras { newToken : string; inviteURL : string; teamError : string }.
Definition no_extras : setupExtras := mkExtras "" "" "".

Definition caller c : option (string * string) := h_roleOf h ≫= λ f, f c.
Definition isAdmin c : bool :=
  match caller c with Some (role, _) => bool_decide (role = "admin"%string) | None => false end.

Definition serveHandshakeFragment st w c : outcome (St * response) :=
  with_tenant st w c (λ tid,
    let '(st, hv) := buildHandshakeView st tid in
    Ret (st, Write (set_header (html_headers w) "X-Handshake-Complete" (if hvComplete hv then "true" else "false"))
           (StepperFragment hv))).

(** [h.csrf.issue]: without a signer, [mac] dereferences its nil receiver. *)
Definition nil_dereference : string := "runtime error: invalid memory address or nil pointer dereference".
Definition issueCSRF c (tid : tenant.ID) : outcome string :=
  match h_csrf h with
  | Some key => Ret (issue key (tenant.String tid) (c_nonce c))
  | None => Panic nil_dereference
  end.

Definition populateKeys st c (tid : tenant.ID) (p : setupPage) : outcome (St * setupPage) :=
  match h_keys h with
  | None => Ret (st, p)
  | Some ka =>
      let! tok := issueCSRF c tid in
      let '(st, infos) := ListKeys ka st (tenant.String tid) in
      Ret (st, mkSetupPage (spShell p) (spHandshake p) (spFrozen p) true
             (match infos with Some l => toKeyRows l | None => spKeys p end) (spNewToken p) tok
             (spRefresh p) (spShowTeam p) (spIsAdmin p) (spSeatUsed p) (spSeatLimit p) (spMembers p)
             (spInvites p) (spInviteURL p) (spTeamError p))
  end.

Definition populateTeam st c (tid : tenant.ID) (ex : setupExtras) (p : setupPage) : outcome (St * setupPage) :=
  match h_members h with
  | None => Ret (st, p)
  | Some ma =>
      let org := tenant.String tid in
      let! tok := if bool_decide (spCSRFToken p = ""%string) then issueCSRF c tid else Ret (spCSRFToken p) in
      let '(st, seats) := SeatUsage ma st org in
      let '(used, limit) := default (0, 0) seats in
      let '(st, ms) := ListMembers ma st org in
      let '(st, is_) := ListInvites ma st org in
      Ret (st, mkSetupPage (spShell p) (spHandshake p) (spFrozen p) (spShowKeys p) (spKeys p) (spNewToken p)
             tok (spRefresh p) true (isAdmin c) used limit
             (match ms with
              | Some ms => (λ m, mkMemberRow (miID m) (miEmail m) (miRole m) (miIsOwner m)
                                   (format_date (miCreatedAt m))) <$> ms
              | None => [] end)
             (match is_ with
              | Some is_ => (λ i, mkInviteRow (iiID i) (iiEmail i) (iiRole i) (format_date (iiExpiresAt i))) <$> is_
              | None => [] end)
             (inviteURL ex) (teamError ex))
  end.

Definition renderSetup st w c (tid : tenant.ID) (winKey : string) (ex : setupExtras) : outcome (St * response) :=
  let '(st, hv) := buildHandshakeView st tid in
  let '(st, shell) := buildShell st c "setup" [mkCrumb "setup" ""] "Setup" false winKey in
  let p := mkSetupPage shell hv (hvFrozen hv) false [] (newToken ex) "" (negb (hvComplete hv))
             false false 0 0 [] [] "" "" in
  let! sp := populateKeys st c tid p in
  let! sp := populateTeam sp.1 c tid ex sp.2 in
  Ret (sp.1, render w (SetupPage sp.2)).

Definition serveSetup st w c : outcome (St * response) :=
  with_tenant st w c (λ tid, renderSetup st w c tid (normalizeWindow (param c "win")) no_extras).

(** [checkCSRF]: a valid form token of this tenant, or a 403. *)
Definition with_csrf st w c (tid : tenant.ID) (k : outcome (St * response)) : outcome (St * response) :=
  match h_csrf h with
  | Some key =>
      if verify key (tenant.String tid) (r_form (c_req c) "csrf_token") then k
      else Ret (st, Error w (Text "invalid csrf token") 403)
  | None => Ret (st, Error w (Text "invalid csrf token") 403)
  end.

Definition serveCreateKey st w c : outcome (St * response) :=
  with_tenant st w c (λ tid,
    match h_keys h with
    | None => Ret (st, NotFound w)
    | Some ka =>
        with_csrf st w c tid
          (let label := TrimSpace (r_form (c_req c) "label") in
           let label := if bool_decide (label = ""%string) then "default"%string else label in
           let '(st, tok) := IssueKey ka st (tenant.String tid) label in
           match tok with
           | None => Ret (st, serverError w)
           | Some tok => renderSetup st w c tid (normalizeWindow (param c "win")) (mkExtras tok "" "")
           end)
    end).

Definition serveRevokeKey st w c : outcome (St * response) :=
  with_tenant st w c (λ tid,
    match h_keys h with
    | None => Ret (st, NotFound w)
    | Some ka =>
        with_csrf st w c tid
          (let '(st, _) := RevokeKey ka st (tenant.String tid) (r_value (c_req c) "id") in
           Ret (st, Redirect w "/setup" 303))
    end).

(** [teamAction]: tenant, control plane, CSRF, then admin. *)
Definition teamAction st w c (k : MemberAdmin St → tenant.ID → outcome (St * response)) : outcome (St * response) :=
  with_tenant st w c (λ tid,
    match h_members h with
    | None => Ret (st, NotFound w)
    | Some ma =>
        with_csrf st w c tid
          (if isAdmin c then k ma tid else Ret (st, Error w (Text "admin only") 403))
    end).

Definition serveCreateInvite st w c : outcome (St * response) :=
  teamAction st w c (λ ma tid,
    let email := TrimSpace (r_form (c_req c) "email") in
    let role := r_form (c_req c) "role" in
    if bool_decide (email = ""%string) || negb (bool_decide (role = "admin"%string ∨ role = "member"%string))
    then Ret (st, Error w (Text "invalid invite (email and role required)") 400)
    else
      let memberID := match caller c with Some (_, m) => m | None => ""%string end in
      let win := normalizeWindow (param c "win") in
      let '(st, link) := CreateInvite ma st (tenant.String tid) memberID email role in
      match link with
      | None => renderSetup st w c tid win
          (mkExtras "" "" "Could not create the invite — the team may be at its seat limit for this plan.")
      | Some link => renderSetup st w c tid win (mkExtras "" link "")
      end).

Definition teamMutation st w c (do_ : MemberAdmin St → St → string → string → St * bool) : outcome (St * response) :=
  teamAction st w c (λ ma tid,
    let '(st, _) := do_ ma st (tenant.String tid) (r_value (c_req c) "id") in
    Ret (st, Redirect w "/setup" 303)).
Definition serveRevokeInvite st w c : outcome (St * response) := teamMutation st w c RevokeInvite.
Definition serveRemoveMember st w c : outcome (St * response) := teamMutation st w c RemoveMember.
End handlers.
