(* ===== verification/Scoped.v ===== *)
(** * The tenant-scoped handle (server/internal/storage/query.go, server/app/deps.go)

    [QueryService.Tenant] and the forwarding methods of [TenantQuery]: the data plane the web
    layer is given. A handle is proved to read the rows of its own tenant only, the average size of a row
    apart ([weighed]), and to answer completely or not at all. *)

From Stdlib Require Import ZArith Lia Floats FunctionalExtensionality.
From Stdlib Require String.
From stdpp Require Import base option gmap fin_maps strings list sorting.
From S2P Require Import Prelude GoFloat GoTime GoMath Wire Storage Sql Views Dashboard Query.

Local Open Scope Z_scope.

Section scoped.
Context `{SqlLib} `{MathLib}.
Implicit Types (c : Conn) (id : tenant.ID).

(** A Go error is an absent answer to the web layer. *)
Definition answer {A} (r : result string A) : option A := match r with Ok a => Some a | Err _ => None end.

Definition detail_answer (r : outcome (result string EndpointDetail)) : option EndpointDetail :=
  match r with Ret r => answer r | Panic _ => None end.

Definition TenantQuery c id : ScopedQuery :=
  Dashboard.mkScopedQuery
    (λ service method route from to step, answer (SeriesOverTime c id service method route from to step))
    (λ from to, answer (Services c id from to))
    (λ service from to, answer (Endpoints c id service from to))
    (λ service method route from to, detail_answer (QueryEndpointDetail c id service method route from to))
    (λ service method route from to, answer (InstancesForEndpoint c id service method route from to))
    (λ service method route from to, answer (VersionsForEndpoint c id service method route from to))
    (λ service method route from to, answer (ExemplarsForEndpoint c id service method route from to))
    (λ service method route from to, answer (LatencyByStatusClass c id service method route from to))
    (λ service method route from to, answer (ErrorClassesForEndpoint c id service method route from to))
    (λ service method route from to, answer (NoStatusReasonsForEndpoint c id service method route from to))
    (λ service method route from to, answer (DownstreamForEndpoint c id service method route from to))
    (λ service from to, answer (InstanceResourcesForService c id service from to))
    (λ service from to step, answer (MemoryTrendForService c id service from to step))
    (λ from to, answer (PerformanceStats c id from to))
    (answer (HasAnySummary c id)).

(** ** Only the tenant's rows *)

Definition gauge_of (id : tenant.ID) (r : InstanceWindowRow) : bool :=
  bool_decide (tenant.String (iwr_tenant r) = tenant.String id).

(** Two databases that differ in other tenants' rows, and in what those weigh, only. *)
Record agree id c c' : Prop := {
  ag_tables : ∀ tbl, select (of_tenant id) (c_table c tbl) = select (of_tenant id) (c_table c' tbl);
  ag_gauges : select (gauge_of id) (c_gauges c) = select (gauge_of id) (c_gauges c');
  ag_fault : c_fault c = c_fault c';
  ag_bind : c_bind c = c_bind c';
  ag_shuffle : @c_shuffle c = @c_shuffle c';
}.

Lemma select_within {A} (P Q : A → bool) l : (∀ x, P x = true → Q x = true) → select P l = select P (select Q l).
Proof.
  intros HPQ. unfold select. induction l as [|x l IH]; [done|]. rewrite !filter_cons.
  destruct (decide (P x = true)) as [HP|HP].
  - rewrite (decide_True (P := Q x = true)) by auto. rewrite filter_cons, decide_True by done. by rewrite IH.
  - case_decide; [|exact IH]. rewrite filter_cons, decide_False by done. exact IH.
Qed.

Lemma tenant_select id c c' tbl P :
  agree id c c' → (∀ r, P r = true → of_tenant id r = true) → select P (c_table c tbl) = select P (c_table c' tbl).
Proof.
  intros Ha HP. rewrite (select_within P (of_tenant id) (c_table c tbl)) by done.
  by rewrite (select_within P (of_tenant id) (c_table c' tbl)), (ag_tables _ _ _ Ha) by done.
Qed.

Lemma gauge_select id c c' P :
  agree id c c' → (∀ r, P r = true → gauge_of id r = true) → select P (c_gauges c) = select P (c_gauges c').
Proof.
  intros Ha HP. rewrite (select_within P (gauge_of id) (c_gauges c)) by done.
  by rewrite (select_within P (gauge_of id) (c_gauges c')), (ag_gauges _ _ _ Ha) by done.
Qed.

Lemma endpoint_within c id service method route from to r :
  where_endpoint c id service method route from to r = true → of_tenant id r = true.
Proof. unfold where_endpoint. by destruct (of_tenant id r). Qed.

(** A condition that starts with the tenant's. *)
Ltac within := intros r; cbv beta; by destruct (of_tenant _ r).
Ltac gauge_within := intros r; unfold where_gauges, gauge_of; by case_bool_decide.

(** The disk estimate counted with another reading of [system.parts]. *)
Definition weighed (parts : option (Z * Z)) (s : PerformanceStat.t) : PerformanceStat.t :=
  PerformanceStat.mk (PerformanceStat.Requests s) (PerformanceStat.Summaries s)
    (SummaryDiskBytes (PerformanceStat.Summaries s) parts).
Definition weighed_query (parts : option (Z * Z)) (q : ScopedQuery) : ScopedQuery :=
  Dashboard.mkScopedQuery (Dashboard.SeriesOverTime q) (Dashboard.Services q) (Dashboard.Endpoints q) (EndpointDetail_ q)
    (Dashboard.InstancesForEndpoint q) (Dashboard.VersionsForEndpoint q) (Dashboard.ExemplarsForEndpoint q)
    (Dashboard.LatencyByStatusClass q) (Dashboard.ErrorClassesForEndpoint q) (Dashboard.NoStatusReasonsForEndpoint q)
    (Dashboard.DownstreamForEndpoint q) (Dashboard.InstanceResourcesForService q) (Dashboard.MemoryTrendForService q)
    (λ from to, weighed parts <$> Dashboard.PerformanceStats q from to) (Dashboard.HasAnySummary q).

(** The average size of a summary row is read off the whole table. *)
Definition same_row_size c c' : Prop := summaryRowBytes (parts_seen c) = summaryRowBytes (parts_seen c').

Lemma SummaryDiskBytes_row_size n p p' :
  summaryRowBytes p = summaryRowBytes p' → SummaryDiskBytes n p = SummaryDiskBytes n p'.
Proof. unfold SummaryDiskBytes. by intros ->. Qed.

Lemma PerformanceStats_agree id c c' from to :
  agree id c c' →
  answer (PerformanceStats c' id from to) = weighed (parts_seen c') <$> answer (PerformanceStats c id from to).
Proof.
  intros Ha. unfold PerformanceStats, QueryRow, in_window. rewrite (ag_fault _ _ _ Ha), (ag_bind _ _ _ Ha). cbv zeta.
  erewrite (tenant_select id c c' tableRaw) by (exact Ha || within). by destruct (c_fault c' "PerformanceStats").
Qed.

Lemma TenantQuery_agree id c c' : agree id c c' → TenantQuery c' id = weighed_query (parts_seen c') (TenantQuery c id).
Proof.
  intros Ha. pose proof Ha as [_ _ Hf Hb Hs].
  assert (HP : ∀ from to, answer (PerformanceStats c' id from to) =
    weighed (parts_seen c') <$> answer (PerformanceStats c id from to)) by (intros; by apply PerformanceStats_agree).
  set (parts := parts_seen c') in *. clearbody parts.
  assert (HT : ∀ tbl P, (∀ r, P r = true → of_tenant id r = true) → select P (c_table c' tbl) = select P (c_table c tbl))
    by (intros; symmetry; by apply (tenant_select id)).
  assert (HG : ∀ P, (∀ r, P r = true → gauge_of id r = true) → select P (c_gauges c') = select P (c_gauges c))
    by (intros; symmetry; by apply (gauge_select id)).
  assert (HR : ∀ A op (l : list A), run_list c' op l = run_list c op l) by (intros; unfold run_list, Query; by rewrite Hf).
  destruct c as [tab gau par fau bin shu], c' as [tab' gau' par' fau' bin' shu']. cbn in Hf, Hb, Hs. subst.
  set (c := mkConn tab _ _ _ _ _) in *. set (c' := mkConn tab' _ _ _ _ _) in *.
  assert (HE : ∀ A service method route from to op (cols : list Row → list A),
    endpoint_breakdown c' id service method route from to op cols = endpoint_breakdown c id service method route from to op cols).
  { intros. unfold endpoint_breakdown, on_tier. destruct (tierQuery from to); [|done].
    rewrite HR. f_equal. f_equal. apply HT. intros r. apply endpoint_within. }
  unfold TenantQuery, weighed_query. cbn [Dashboard.SeriesOverTime Dashboard.Services Dashboard.Endpoints EndpointDetail_
    Dashboard.InstancesForEndpoint Dashboard.VersionsForEndpoint Dashboard.ExemplarsForEndpoint Dashboard.LatencyByStatusClass
    Dashboard.ErrorClassesForEndpoint Dashboard.NoStatusReasonsForEndpoint Dashboard.DownstreamForEndpoint
    Dashboard.InstanceResourcesForService Dashboard.MemoryTrendForService Dashboard.PerformanceStats Dashboard.HasAnySummary].
  f_equal; repeat (apply functional_extensionality; intros ?); try (apply HP); f_equal.
  - unfold SeriesOverTime. destruct (buildSeriesQuery _ _ _) as [[tbl n]|]; [|done].
    by rewrite HR, (HT tbl _ (endpoint_within c' id _ _ _ _ _)).
  - unfold Services, on_tier. destruct (tierQuery _ _) as [tbl|]; [|done]. cbv zeta. rewrite HR, (HT tbl); [done|within].
  - unfold Endpoints, on_tier. destruct (tierQuery _ _) as [tbl|]; [|done]. cbv zeta. rewrite HR, (HT tbl); [done|within].
  - unfold QueryEndpointDetail. destruct (tierQuery _ _) as [tbl|]; [|done]. cbv zeta. rewrite (HT tbl); [done|within].
  - apply HE.
  - apply HE.
  - unfold ExemplarsForEndpoint. by rewrite HR, (HT tableRaw _ (endpoint_within c' id _ _ _ _ _)).
  - unfold LatencyByStatusClass. by rewrite HE.
  - apply HE.
  - apply HE.
  - unfold DownstreamForEndpoint. destruct (tierQuery _ _) as [tbl|]; [|done]. cbv zeta.
    by rewrite (HT tbl _ (endpoint_within c' id _ _ _ _ _)).
  - unfold InstanceResourcesForService. rewrite HR, HG; [done|gauge_within].
  - unfold MemoryTrendForService. rewrite HR, HG; [done|gauge_within].
  - unfold HasAnySummary. rewrite (HT tableRaw); [done|within].
Qed.

(** A handle's own estimate is its summaries times its own reading. *)
Lemma TenantQuery_weighed c id : weighed_query (parts_seen c) (TenantQuery c id) = TenantQuery c id.
Proof. symmetry. by apply TenantQuery_agree. Qed.

Lemma weighed_row_size p p' q : summaryRowBytes p = summaryRowBytes p' → weighed_query p q = weighed_query p' q.
Proof.
  intros Hp. unfold weighed_query. f_equal. repeat (apply functional_extensionality; intros ?). f_equal.
  apply functional_extensionality. intros s. unfold weighed. f_equal. by apply SummaryDiskBytes_row_size.
Qed.

Lemma TenantQuery_same id c c' : agree id c c' → same_row_size c c' → TenantQuery c' id = TenantQuery c id.
Proof.
  intros Ha Hp. rewrite (TenantQuery_agree id c c') by done.
  by rewrite <-(weighed_row_size (parts_seen c)), TenantQuery_weighed.
Qed.

(** The rows the usage view weighs. *)
Definition weighed_rows c id (now : Time) : Z :=
  row_count (select (λ r, of_tenant id r && in_window c (time_add now (- usageDiskWindow)) now (WindowStart r)) (c_table c tableRaw)).
Definition set_disk (bytes : Z) (u : TenantUsage) : TenantUsage :=
  mkUsage (FirstIngest u) (LastIngest u) (u_endpoints u) (u_series u) (u_services u) (u_instances u) (u_requests30d u) bytes.

Lemma Usage_agree id c c' now :
  agree id c c' →
  answer (Usage c' id now) = set_disk (SummaryDiskBytes (weighed_rows c id now) (parts_seen c')) <$> answer (Usage c id now).
Proof.
  intros Ha. pose proof Ha as [_ _ Hf Hb _].
  assert (HT : ∀ tbl P, (∀ r, P r = true → of_tenant id r = true) → select P (c_table c tbl) = select P (c_table c' tbl))
    by (intros; by apply (tenant_select id)).
  unfold Usage, weighed_rows, PerformanceStats, QueryRow, in_window. rewrite Hf, Hb. cbv zeta.
  rewrite (HT table1d (of_tenant id)) by done.
  rewrite (HT table1m (λ r, of_tenant id r && (c_bind c' (time_add now (- usageCardinalityWindow)) <=? WindowStart r)))
    by within.
  erewrite (HT tableRaw) by within.
  by destruct (c_fault c' "Usage: liveness"), (c_fault c' "Usage: cardinality"), (c_fault c' "PerformanceStats").
Qed.

(** ** The operator's seam (server/app/usage.go) *)

Record UsageStats := mkUsageStats {
  us_FirstIngest : Time; us_LastIngest : Time; us_Endpoints : Z; us_Series : Z; us_Services : Z;
  us_Instances : Z; us_Requests30d : Z; us_DiskBytes : Z;
}.

(** The two closures of [buildUsageSeam]; [now] is what the first reads of the clock. *)
Definition usage c (tenantID : string) (now : Time) : option UsageStats :=
  id ← tenant.Parse tenantID;
  u ← answer (Usage c id now);
  Some (mkUsageStats (FirstIngest u) (LastIngest u) (u_endpoints u) (u_series u) (u_services u) (u_instances u)
          (u_requests30d u) (u_diskBytes u)).
Definition lastIngest c : option (gmap string Time) := answer (LastIngestByTenant c).

(** The same stats with another disk estimate. *)
Definition with_disk_bytes (bytes : Z) (u : UsageStats) : UsageStats :=
  mkUsageStats (us_FirstIngest u) (us_LastIngest u) (us_Endpoints u) (us_Series u) (us_Services u) (us_Instances u)
    (us_Requests30d u) bytes.

Lemma usage_agree tenantID id c c' now :
  tenant.Parse tenantID = Some id → agree id c c' →
  usage c' tenantID now =
    with_disk_bytes (SummaryDiskBytes (weighed_rows c id now) (parts_seen c')) <$> usage c tenantID now.
Proof. intros Ht Ha. unfold usage. rewrite Ht. cbn. rewrite (Usage_agree id c c') by done. by destruct (answer (Usage c id now)). Qed.

Lemma usage_same tenantID id c c' now :
  tenant.Parse tenantID = Some id → agree id c c' → same_row_size c c' → usage c' tenantID now = usage c tenantID now.
Proof.
  intros Ht Ha Hp. rewrite (usage_agree tenantID id c c' now), (usage_agree tenantID id c c now) by done.
  by rewrite (SummaryDiskBytes_row_size _ _ _ Hp); destruct (usage c tenantID now).
Qed.
End scoped.

(** ** Whole answers *)

Section whole.
Context `{SqlLib} `{MathLib}.
Implicit Types (c : Conn) (id : tenant.ID).

(** The same database over a connection that never fails. *)
Definition fault_free c : Conn :=
  mkConn (c_table c) (c_gauges c) (c_parts c) (λ _, NoFault) (c_bind c) (@c_shuffle c).

(** What [q] answers, [q'] answers the same; the disk estimate apart, which falls back. *)
Definition answers_as (q q' : ScopedQuery) : Prop :=
  (∀ s m r f t st a, Dashboard.SeriesOverTime q s m r f t st = Some a → Dashboard.SeriesOverTime q' s m r f t st = Some a) ∧
  (∀ f t a, Dashboard.Services q f t = Some a → Dashboard.Services q' f t = Some a) ∧
  (∀ s f t a, Dashboard.Endpoints q s f t = Some a → Dashboard.Endpoints q' s f t = Some a) ∧
  (∀ s m r f t a, EndpointDetail_ q s m r f t = Some a → EndpointDetail_ q' s m r f t = Some a) ∧
  (∀ s m r f t a, Dashboard.InstancesForEndpoint q s m r f t = Some a → Dashboard.InstancesForEndpoint q' s m r f t = Some a) ∧
  (∀ s m r f t a, Dashboard.VersionsForEndpoint q s m r f t = Some a → Dashboard.VersionsForEndpoint q' s m r f t = Some a) ∧
  (∀ s m r f t a, Dashboard.ExemplarsForEndpoint q s m r f t = Some a → Dashboard.ExemplarsForEndpoint q' s m r f t = Some a) ∧
  (∀ s m r f t a, Dashboard.LatencyByStatusClass q s m r f t = Some a → Dashboard.LatencyByStatusClass q' s m r f t = Some a) ∧
  (∀ s m r f t a, Dashboard.ErrorClassesForEndpoint q s m r f t = Some a → Dashboard.ErrorClassesForEndpoint q' s m r f t = Some a) ∧
  (∀ s m r f t a, Dashboard.NoStatusReasonsForEndpoint q s m r f t = Some a →
    Dashboard.NoStatusReasonsForEndpoint q' s m r f t = Some a) ∧
  (∀ s m r f t a, Dashboard.DownstreamForEndpoint q s m r f t = Some a → Dashboard.DownstreamForEndpoint q' s m r f t = Some a) ∧
  (∀ s f t a, Dashboard.InstanceResourcesForService q s f t = Some a → Dashboard.InstanceResourcesForService q' s f t = Some a) ∧
  (∀ s f t st a, Dashboard.MemoryTrendForService q s f t st = Some a → Dashboard.MemoryTrendForService q' s f t st = Some a) ∧
  (∀ f t a, Dashboard.PerformanceStats q f t = Some a → ∃ b, Dashboard.PerformanceStats q' f t = Some b ∧
    PerformanceStat.Requests b = PerformanceStat.Requests a ∧ PerformanceStat.Summaries b = PerformanceStat.Summaries a) ∧
  (∀ a, Dashboard.HasAnySummary q = Some a → Dashboard.HasAnySummary q' = Some a).

(** [q] answers every read. *)
Definition answers_all (q : ScopedQuery) : Prop :=
  (∀ s m r f t st, is_i64 st → is_Some (Dashboard.SeriesOverTime q s m r f t st)) ∧
  (∀ f t, is_Some (Dashboard.Services q f t)) ∧ (∀ s f t, is_Some (Dashboard.Endpoints q s f t)) ∧
  (∀ s m r f t, is_Some (EndpointDetail_ q s m r f t) ∧ is_Some (Dashboard.InstancesForEndpoint q s m r f t) ∧
    is_Some (Dashboard.VersionsForEndpoint q s m r f t) ∧ is_Some (Dashboard.ExemplarsForEndpoint q s m r f t) ∧
    is_Some (Dashboard.LatencyByStatusClass q s m r f t) ∧ is_Some (Dashboard.ErrorClassesForEndpoint q s m r f t) ∧
    is_Some (Dashboard.NoStatusReasonsForEndpoint q s m r f t) ∧ is_Some (Dashboard.DownstreamForEndpoint q s m r f t)) ∧
  (∀ s f t, is_Some (Dashboard.InstanceResourcesForService q s f t)) ∧
  (∀ s f t st, is_Some (Dashboard.MemoryTrendForService q s f t st)) ∧
  (∀ f t, is_Some (Dashboard.PerformanceStats q f t)) ∧ is_Some (Dashboard.HasAnySummary q).

Lemma run_list_free {A} c op (l : list A) : run_list (fault_free c) op l = Ok l.
Proof. unfold run_list, Query, scanRows. cbn. by rewrite scan_loop_all. Qed.

Lemma run_list_whole {A} c op (l a : list A) :
  answer (run_list c op l) = Some a → answer (run_list (fault_free c) op l) = Some a.
Proof.
  rewrite run_list_free. destruct (run_list c op l) eqn:E; [|done]. apply run_list_Ok in E as ->. done.
Qed.

Lemma tierQuery_Ok from to : ∃ tbl, tierQuery from to = Ok tbl.
Proof.
  exists (table (selectTier from to)). unfold tierQuery. rewrite bool_decide_false; [done|].
  intros Hn. apply Hn. unfold selectTier, tierTables. repeat case_match; cbn; set_solver.
Qed.

Lemma on_tier_whole {A} c from to op (q : list Row → list A) a :
  answer (on_tier c from to op q) = Some a → answer (on_tier (fault_free c) from to op q) = Some a.
Proof. unfold on_tier. destruct (tierQuery_Ok from to) as [tbl ->]. apply run_list_whole. Qed.

Lemma on_tier_free {A} c from to op (q : list Row → list A) : ∃ l, on_tier (fault_free c) from to op q = Ok l.
Proof. unfold on_tier. destruct (tierQuery_Ok from to) as [tbl ->]. rewrite run_list_free. by eexists. Qed.

Lemma QueryRow_whole {A} c op (x a : A) : answer (QueryRow c op x) = Some a → x = a.
Proof. unfold QueryRow. destruct (c_fault c op); [|done..]. by intros [= <-]. Qed.

Lemma detail_whole c id s m r f t a :
  detail_answer (QueryEndpointDetail c id s m r f t) = Some a →
  detail_answer (QueryEndpointDetail (fault_free c) id s m r f t) = Some a.
Proof.
  unfold QueryEndpointDetail. destruct (tierQuery_Ok f t) as [tbl ->]. cbv zeta.
  change (c_table (fault_free c)) with (c_table c). unfold Query. cbn [c_fault fault_free fetched broken].
  destruct (c_fault c "EndpointDetail") as [| |i|i]; [done|done|destruct i; done|destruct i; done].
Qed.

Lemma detail_free c id s m r f t : is_Some (detail_answer (QueryEndpointDetail (fault_free c) id s m r f t)).
Proof.
  unfold QueryEndpointDetail. destruct (tierQuery_Ok f t) as [tbl ->]. cbv zeta. unfold Query. cbn [c_fault fault_free fetched broken fmap list_fmap].
  set (l := select _ _). unfold detail_columns.
  destruct (buildEndpointDetail_total (total_count l) (sumIf Count (has_class "STATUS_CLASS_2XX") l)
    (sumIf Count (has_class "STATUS_CLASS_3XX") l) (sumIf Count (has_class "STATUS_CLASS_4XX") l)
    (sumIf Count (has_class "STATUS_CLASS_5XX") l) (sumIf Count (has_class "STATUS_CLASS_NO_STATUS") l)
    (sorted_indices (merged l)) (count_at (merged l) <$> sorted_indices (merged l))
    (map_to_list (sumMap statusCodeMap l)).*1 (map_to_list (sumMap statusCodeMap l)).*2) as (d & -> & _).
  - by rewrite length_fmap.
  - cbn. by eexists.
Qed.

Lemma answers_whole c id : answers_as (TenantQuery c id) (TenantQuery (fault_free c) id).
Proof.
  split_and!; cbn.
  - intros s m r f t st a. unfold SeriesOverTime. destruct (buildSeriesQuery f t st) as [[tbl n]|]; [|done].
    apply run_list_whole.
  - intros f t a. apply on_tier_whole.
  - intros s f t a. apply on_tier_whole.
  - intros s m r f t a. apply detail_whole.
  - intros s m r f t a. apply on_tier_whole.
  - intros s m r f t a. apply on_tier_whole.
  - intros s m r f t a. apply run_list_whole.
  - intros s m r f t a. unfold LatencyByStatusClass, endpoint_breakdown, on_tier.
    destruct (tierQuery_Ok f t) as [tbl ->]. rewrite run_list_free.
    match goal with |- context [run_list c ?op ?l] => destruct (run_list c op l) eqn:E; [|done] end.
    apply run_list_Ok in E as ->. done.
  - intros s m r f t a. apply on_tier_whole.
  - intros s m r f t a. apply on_tier_whole.
  - intros s m r f t a. unfold DownstreamForEndpoint. destruct (tierQuery_Ok f t) as [tbl ->].
    by intros <-%QueryRow_whole.
  - intros s f t a. apply run_list_whole.
  - intros s f t st a. apply run_list_whole.
  - intros f t a. unfold PerformanceStats, QueryRow. destruct (c_fault c "PerformanceStats"); [|done..].
    intros [= <-]. by eexists.
  - intros a. unfold HasAnySummary, QueryRow. by destruct (c_fault c "HasAnySummary").
Qed.

Lemma answers_free c id : answers_all (TenantQuery (fault_free c) id).
Proof.
  assert (Hl : ∀ A op (l : list A), is_Some (answer (run_list (fault_free c) op l))).
  { intros. rewrite run_list_free. by eexists. }
  assert (Ht : ∀ A f t op (q : list Row → list A), is_Some (answer (on_tier (fault_free c) f t op q))).
  { intros. destruct (on_tier_free c f t op q) as [l ->]. by eexists. }
  split_and!; cbn.
  - intros s m r f t st Hst. unfold SeriesOverTime.
    destruct (buildSeriesQuery_safe f t st Hst) as (tbl & n & -> & _). apply Hl.
  - intros. apply Ht.
  - intros. apply Ht.
  - intros s m r f t. split_and!; try apply Ht; [apply detail_free|apply Hl| |].
    + unfold LatencyByStatusClass, endpoint_breakdown.
      match goal with |- context [on_tier _ f t ?op ?q] => destruct (on_tier_free c f t op q) as [l ->] end. by eexists.
    + unfold DownstreamForEndpoint. destruct (tierQuery_Ok f t) as [tbl ->]. by eexists.
  - intros. apply Hl.
  - intros. apply Hl.
  - intros. by eexists.
  - by eexists.
Qed.
End whole.

(** ** Theorems *)

(** [C12] A tenant's handle reads its own rows, and of the others only what they weigh. Take two
    databases that hold the same rows of the tenant and any rows of others, over connections
    that fail, round and order alike. Every read through the handle gives the same answer from
    both, and the operator sees the same usage, up to one number: the disk estimate, which is
    the tenant's own summaries times the average size of a row of the whole table, as the
    database answered from reads it in [system.parts]. When the two averages agree, so do the
    two handles and the two usages. *)
Theorem handle_reads_own_rows `{SqlLib} `{MathLib} c c' id :
  agree id c c' →
  TenantQuery c' id = weighed_query (parts_seen c') (TenantQuery c id) ∧
  (∀ tenantID now, tenant.Parse tenantID = Some id →
     usage c' tenantID now =
       with_disk_bytes (SummaryDiskBytes (weighed_rows c id now) (parts_seen c')) <$> usage c tenantID now) ∧
  (same_row_size c c' → TenantQuery c' id = TenantQuery c id ∧
     ∀ tenantID now, tenant.Parse tenantID = Some id → usage c' tenantID now = usage c tenantID now).
Proof.
  intros Ha. split; [by apply TenantQuery_agree|]. split; [intros t now Ht; by apply (usage_agree t id)|].
  intros Hp. split; [by apply TenantQuery_same|]. intros t now Ht. by apply (usage_same t id).
Qed.

(** [C32] No read shows part of an answer. Whatever goes wrong with a query (its start, the scan
    of a row, the connection after some rows), the handle answers what it would answer over
    a connection that never fails, or nothing; over such a connection it answers every
    read, so no endpoint aggregate panics. (The disk estimate alone has a documented
    fallback.) *)
Theorem answers_are_whole `{SqlLib} `{MathLib} c id :
  answers_as (TenantQuery c id) (TenantQuery (fault_free c) id) ∧ answers_all (TenantQuery (fault_free c) id).
Proof. split; [apply answers_whole|apply answers_free]. Qed.

Definition tenant_row (id : string) (n : Z) : Row :=
  NewRow (tenant.mkID id) "api" "i1" "GET" "/a" "STATUS_CLASS_2XX" 0 (10 * Second) n 0 0 0
    {[ 3 := n ]} ∅ "v1" "" "" "" 0 9 [] ∅ ∅ 0.
(** Rows of globex weigh 900 bytes, those of the others 100. *)
Definition toy_parts (l : list Row) : option (Z * Z) :=
  Some (sumZ ((λ r, if bool_decide (tenant.String (Tenant r) = "globex"%string) then 900 else 100) <$> l),
        Z.of_nat (length l)).
Definition shared_db (others : list Row) : Conn :=
  mkConn (λ _, tenant_row "acme" 4 :: others) [] toy_parts (λ _, NoFault) (λ t, t) (λ _ l, l).

Lemma handle_reads_own_rows_witness :
  let _ := {| sql_pow := go_pow |} : SqlLib in let _ := go_math in
  TenantQuery (shared_db [tenant_row "globex" 7; tenant_row "initech" 1]) (tenant.mkID "acme") =
    weighed_query (Some (1100, 3)) (TenantQuery (shared_db []) (tenant.mkID "acme")) ∧
  TenantQuery (shared_db [tenant_row "initech" 1]) (tenant.mkID "acme") = TenantQuery (shared_db []) (tenant.mkID "acme").
Proof.
  cbv zeta. split.
  - apply (@handle_reads_own_rows {| sql_pow := go_pow |} go_math (shared_db [])
      (shared_db [tenant_row "globex" 7; tenant_row "initech" 1]) (tenant.mkID "acme")). by split.
  - apply (@handle_reads_own_rows {| sql_pow := go_pow |} go_math (shared_db []) (shared_db [tenant_row "initech" 1])
      (tenant.mkID "acme")); [by split|]. vm_compute. reflexivity.
Defined.

(** The estimate does see the other tenants: rows of globex that arrive next to acme's make
    acme's own summary weigh more on acme's performance page. *)
Lemma disk_estimate_crosses_tenants :
  let _ := {| sql_pow := go_pow |} : SqlLib in let _ := go_math in
  let disk others := PerformanceStat.SummaryDiskBytes <$>
    Dashboard.PerformanceStats (TenantQuery (shared_db others) (tenant.mkID "acme")) 0 Minute in
  disk [] = Some 100 ∧ disk [tenant_row "globex" 7] = Some 500.
Proof. split; vm_compute; reflexivity. Qed.
