(* ===== verification/Routes.v ===== *)
(** * The dashboard's routing table and what every request may do (server/internal/web/web.go)

    [Register] lists the patterns with their handlers. The theorems quantify over its
    entries: who may change the control plane through which form, that a request stays
    inside the organization of its session, that a handler that started answers it, with an
    empty body where the JSON encoder refuses a figure, and where a form token that verifies
    can come from. *)

From Stdlib Require Import ZArith Lia Floats Ascii.
From Stdlib Require String.
From stdpp Require Import base option gmap strings sorting list.
From S2P Require Import Prelude GoFloat GoTime GoDate GoString GoUrl GoQuery Http Storage Auth.
From S2P Require Import Format Views Range Verdict Diagnosis Pages Chart Dashboard.

Local Open Scope Z_scope.
Local Open Scope go_scope.
Local Infix "+++" := String.append (at level 60, right associativity).

(** ** The routing table *)

Section routes.
Context `{MacLib} `{NetIP} {St : Type}.

Abbreviation handler := (St → response → call → outcome (St * response)) (only parsing).

(** [performance_elapsed], [copyJS], [handshakeJS]: the time the query took and the two
    embedded scripts. *)
Definition Register (h : Handler St) (elapsed : Duration) (copyJS handshakeJS : string)
  : list (string * handler) :=
  [ ("GET /", serveOverview h);
    ("GET /dashboard", serveOverview h);
    ("GET /performance", λ st w c, servePerformance h st w c elapsed);
    ("GET /setup", serveSetup h);
    ("GET /setup/handshake", serveHandshakeFragment h);
    ("POST /setup/keys", serveCreateKey h);
    ("POST /setup/keys/{id}/revoke", serveRevokeKey h);
    ("POST /setup/invites", serveCreateInvite h);
    ("POST /setup/invites/{id}/revoke", serveRevokeInvite h);
    ("POST /setup/members/{id}/remove", serveRemoveMember h);
    ("GET /services/{service}", serveEndpoints h);
    ("GET /services/{service}/endpoint", serveEndpointDetail h);
    ("GET /api/series", serveSeries h);
    ("GET /api/histogram", serveHistogram h);
    ("GET /api/instances", serveInstances h);
    ("GET /assets/copy.js", λ st w c, Ret (st, serveJS w copyJS));
    ("GET /assets/handshake.js", λ st w c, Ret (st, serveJS w handshakeJS)) ]%string.

(** ** What a request may touch *)

(** Every operation a page uses to look at organization [org] relates the states by [R]. *)
Record reads_within (h : Handler St) (org : string) (R : relation St) : Prop := {
  rw_keys : ∀ ka st, h_keys h = Some ka → R st (ListKeys ka st org).1;
  rw_onboarding : ∀ src st, h_onboarding h = Some src → R st (src st org).1;
  rw_seats : ∀ ma st, h_members h = Some ma → R st (SeatUsage ma st org).1;
  rw_members : ∀ ma st, h_members h = Some ma → R st (ListMembers ma st org).1;
  rw_invites : ∀ ma st, h_members h = Some ma → R st (ListInvites ma st org).1;
}.

(** The write a form stands for. *)
Definition form_write (h : Handler St) (pat org : string) (R : relation St) : Prop :=
  match pat with
  | "POST /setup/keys" => ∀ ka st label, h_keys h = Some ka → R st (IssueKey ka st org label).1
  | "POST /setup/keys/{id}/revoke" => ∀ ka st id, h_keys h = Some ka → R st (RevokeKey ka st org id).1
  | "POST /setup/invites" =>
      ∀ ma st by_ email role, h_members h = Some ma → R st (CreateInvite ma st org by_ email role).1
  | "POST /setup/invites/{id}/revoke" => ∀ ma st id, h_members h = Some ma → R st (RevokeInvite ma st org id).1
  | "POST /setup/members/{id}/remove" => ∀ ma st id, h_members h = Some ma → R st (RemoveMember ma st org id).1
  | _ => False
  end%string.

Definition team_forms : list string :=
  ["POST /setup/invites"; "POST /setup/invites/{id}/revoke"; "POST /setup/members/{id}/remove"]%string.
Definition key_forms : list string := ["POST /setup/keys"; "POST /setup/keys/{id}/revoke"]%string.

(** The form's token verifies for the tenant, and a team form comes from an admin. *)
Definition may_write (h : Handler St) (pat : string) (c : call) (tid : tenant.ID) : Prop :=
  pat ∈ key_forms ++ team_forms ∧
  (∃ key, h_csrf h = Some key ∧ verify key (tenant.String tid) (r_form (c_req c) "csrf_token") = true) ∧
  (pat ∈ team_forms → isAdmin h c = true).
End routes.

(** ** One step at a time *)

Create HintDb calls.

(** What the page operations guarantee for the tenant of the request. *)
Definition reads_ok {St} (h : Handler St) (c : call) (R : relation St) : Prop :=
  ∀ tid, h_tenant h c = Some tid → reads_within h (tenant.String tid) R.

(** Whatever a computation returns, it left a state that [R] relates to [st]. *)
Definition leaves {St A} (R : relation St) (st : St) (o : outcome (St * A)) : Prop := ends (λ x, R st x.1) o.

Lemma leaves_after {St A} (R : relation St) `{!PreOrder R} st st' (o : outcome (St * A)) :
  R st st' → leaves R st' o → leaves R st o.
Proof. destruct o; cbn; [by intros; etrans|done]. Qed.
Lemma leaves_here {St A} (R : relation St) `{!PreOrder R} st (a : A) : leaves R st (Ret (st, a)).
Proof. exact (reflexivity st). Qed.
#[export] Hint Resolve leaves_here : calls.

(** Runs the next call that threads the state: its lemma, from the database [calls], says
    how it relates the states. *)
Ltac run_call R :=
  match goal with
  | |- context [match ?e with pair _ _ => _ end] =>
      let HR := fresh "HR" in
      assert (HR : R _ (fst e)) by eauto with calls;
      let st := fresh "st" in destruct e as [st ?]; cbn [fst] in HR
  end.
(** Several calls in a row, then the chain of their relations. *)
Ltac run_calls R := repeat run_call R; unfold leaves, ends; cbn [fst snd]; repeat (etrans; [eassumption|]); try reflexivity.

Section confined.
Context `{MacLib} `{NetIP} {St : Type} (h : Handler St) (c : call) (R : relation St) `{!PreOrder R}.
Hypothesis reads : reads_ok h c R.

Lemma ListKeys_reads ka st tid :
  h_keys h = Some ka → h_tenant h c = Some tid → R st (ListKeys ka st (tenant.String tid)).1.
Proof. intros Hk Ht. by apply (rw_keys _ _ _ (reads _ Ht)). Qed.
Lemma onboarding_reads src st tid :
  h_onboarding h = Some src → h_tenant h c = Some tid → R st (src st (tenant.String tid)).1.
Proof. intros Hk Ht. by apply (rw_onboarding _ _ _ (reads _ Ht)). Qed.
Lemma SeatUsage_reads ma st tid :
  h_members h = Some ma → h_tenant h c = Some tid → R st (SeatUsage ma st (tenant.String tid)).1.
Proof. intros Hk Ht. by apply (rw_seats _ _ _ (reads _ Ht)). Qed.
Lemma ListMembers_reads ma st tid :
  h_members h = Some ma → h_tenant h c = Some tid → R st (ListMembers ma st (tenant.String tid)).1.
Proof. intros Hk Ht. by apply (rw_members _ _ _ (reads _ Ht)). Qed.
Lemma ListInvites_reads ma st tid :
  h_members h = Some ma → h_tenant h c = Some tid → R st (ListInvites ma st (tenant.String tid)).1.
Proof. intros Hk Ht. by apply (rw_invites _ _ _ (reads _ Ht)). Qed.
#[local] Hint Resolve ListKeys_reads onboarding_reads SeatUsage_reads ListMembers_reads ListInvites_reads : calls.

Lemma activeKeyMask_reads st : R st (activeKeyMask h st c).1.
Proof.
  unfold activeKeyMask. destruct (h_keys h) eqn:Ek, (h_tenant h c) eqn:Et; try done. run_calls R.
Qed.
#[local] Hint Resolve activeKeyMask_reads : calls.

Lemma buildShell_reads st nav crumbs title controls win :
  R st (buildShell h st c nav crumbs title controls win).1.
Proof. unfold buildShell. run_calls R. Qed.
#[local] Hint Resolve buildShell_reads : calls.

Lemma RenderDocPage_reads st w title content : R st (RenderDocPage h st w c title content).1.
Proof. unfold RenderDocPage, renderShellContent. run_calls R. Qed.

Lemma buildHandshakeView_reads st tid : h_tenant h c = Some tid → R st (buildHandshakeView h st tid).1.
Proof. intros Ht. unfold buildHandshakeView. destruct (h_onboarding h) eqn:Eo; run_calls R. Qed.

Lemma leaves_bind {A B} (o : outcome B) st (k : B → outcome (St * A)) :
  (∀ b, leaves R st (k b)) → leaves R st (outcome_bind o k).
Proof. intros Hk. destruct o; [apply Hk|done]. Qed.

Lemma populateKeys_reads st tid p : h_tenant h c = Some tid → leaves R st (populateKeys h st c tid p).
Proof.
  intros Ht. unfold populateKeys. destruct (h_keys h) eqn:Ek; [|by apply leaves_here]. apply leaves_bind. intros tok. run_calls R.
Qed.

Lemma populateTeam_reads st tid ex p : h_tenant h c = Some tid → leaves R st (populateTeam h st c tid ex p).
Proof.
  intros Ht. unfold populateTeam. destruct (h_members h) eqn:Em; [|by apply leaves_here]. cbn zeta. apply leaves_bind.
  intros tok. run_call R. destruct (default _ _). run_calls R.
Qed.
#[local] Hint Resolve buildHandshakeView_reads : calls.

Lemma renderSetup_reads st w tid win ex : h_tenant h c = Some tid → leaves R st (renderSetup h st w c tid win ex).
Proof.
  intros Ht. unfold renderSetup. run_call R. run_call R. cbv zeta. eapply (leaves_after R); [by etrans|].
  eapply ends_bind; [by apply populateKeys_reads|]. intros [sk pk] H1. apply (leaves_after R _ _ _ H1).
  eapply ends_bind; [by apply populateTeam_reads|]. by intros [sm pm].
Qed.

Lemma renderOnboarding_reads st w tid win : h_tenant h c = Some tid → R st (renderOnboarding h st w c tid win).1.
Proof. intros Ht. unfold renderOnboarding. run_calls R. Qed.
#[local] Hint Resolve populateKeys_reads populateTeam_reads renderSetup_reads renderOnboarding_reads : calls.

(** A page relates the states by [R], whatever it answers. *)
Lemma with_tenant_reads st w k :
  (∀ tid, h_tenant h c = Some tid → leaves R st (k tid)) → leaves R st (with_tenant h st w c k).
Proof. intros Hk. unfold with_tenant. destruct (h_tenant h c); eauto with calls. Qed.

Lemma serveOverview_reads st w : leaves R st (serveOverview h st w c).
Proof.
  unfold serveOverview. destruct (bool_decide _); [eauto with calls|]. apply with_tenant_reads. intros tid Ht. cbn zeta.
  destruct (windowRange _ _). destruct (HasAnySummary _) as [[]|]; [|by apply renderOnboarding_reads|eauto with calls].
  destruct (Services _ _ _); [|eauto with calls]. run_calls R.
Qed.
Lemma servePerformance_reads st w elapsed : leaves R st (servePerformance h st w c elapsed).
Proof. apply with_tenant_reads. intros tid Ht. cbn zeta. run_call R. by destruct (windowRange _ _). Qed.
Lemma serveEndpoints_reads st w : leaves R st (serveEndpoints h st w c).
Proof.
  apply with_tenant_reads. intros tid Ht. cbn zeta.
  destruct (windowRange _ _), (Endpoints _ _ _ _); [run_calls R|eauto with calls].
Qed.
Lemma json_query_reads {A} st w (q : ScopedQuery → string → string → string → Time → Time → option A) out :
  leaves R st (json_query h st w c q out).
Proof. apply with_tenant_reads. intros tid Ht. destruct (windowRange _ _). case_match; eauto with calls. Qed.
Lemma serveHandshakeFragment_reads st w : leaves R st (serveHandshakeFragment h st w c).
Proof. apply with_tenant_reads. intros tid Ht. run_calls R. Qed.
Lemma serveSetup_reads st w : leaves R st (serveSetup h st w c).
Proof. apply with_tenant_reads. intros tid Ht. eauto with calls. Qed.
Lemma serveEndpointDetail_reads st w : leaves R st (serveEndpointDetail h st w c).
Proof.
  apply with_tenant_reads. intros tid Ht. cbn zeta. destruct (resolveDetailRange _ _ _) as [[from to] custom].
  destruct (EndpointDetail_ _ _ _ _ _ _); [|eauto with calls]. run_call R. apply (leaves_after R _ _ _ HR).
  apply leaves_bind. eauto with calls.
Qed.

(** A form: nothing happens unless the token verifies and, for the team, an admin asks. *)
Lemma form_reads st w tid pat k :
  h_tenant h c = Some tid → pat ∈ key_forms →
  (may_write h pat c tid → leaves R st k) → leaves R st (with_csrf h st w c tid k).
Proof.
  intros Ht Hp Hk. unfold with_csrf. destruct (h_csrf h) as [key|] eqn:Ec; [|eauto with calls].
  destruct (verify _ _ _) eqn:Ev; [|eauto with calls]. apply Hk. split_and!; [set_solver|eauto|].
  intros Hteam. exfalso. revert Hp Hteam. unfold key_forms, team_forms. set_solver.
Qed.
Lemma teamAction_reads st w pat k :
  pat ∈ team_forms →
  (∀ ma tid, h_members h = Some ma → h_tenant h c = Some tid → may_write h pat c tid → leaves R st (k ma tid)) →
  leaves R st (teamAction h st w c k).
Proof.
  intros Hp Hk. apply with_tenant_reads. intros tid Ht. destruct (h_members h) as [ma|]; [|eauto with calls].
  unfold with_csrf. destruct (h_csrf h) as [key|] eqn:Ec; [|eauto with calls].
  destruct (verify _ _ _) eqn:Ev; [|eauto with calls]. destruct (isAdmin h c) eqn:Ea; [|eauto with calls].
  apply Hk; [done..|]. split_and!; [set_solver|eauto|done].
Qed.
End confined.

Section table.
Context `{MacLib} `{NetIP} {St : Type}.
Implicit Types (h : Handler St) (st : St).

(** [f], serving [pat], only takes steps of [R] that its request is entitled to. *)
Definition entitled h c (R : relation St) (pat : string)
  (f : St → response → call → outcome (St * response)) : Prop :=
  (∀ tid, h_tenant h c = Some tid → may_write h pat c tid → form_write h pat (tenant.String tid) R) →
  ∀ st w, leaves R st (f st w c).

Context (h : Handler St) (c : call) (R : relation St) `{!PreOrder R}.
Hypothesis reads : reads_ok h c R.
#[local] Hint Extern 1 (leaves R _ _) => apply (renderSetup_reads h c R reads) : calls.

Lemma serveCreateKey_entitled : entitled h c R "POST /setup/keys" (serveCreateKey h).
Proof.
  intros Hw st w. unfold serveCreateKey. apply (with_tenant_reads h c R).
  intros tid Ht. destruct (h_keys h) as [ka|] eqn:Ek; [|eauto with calls].
  eapply (form_reads h c R reads); [exact Ht|by left|]. intros Hm.
  assert (Hi : ∀ st label, R st (IssueKey ka st (tenant.String tid) label).1) by (intros; by apply (Hw tid)).
  cbn zeta. run_call R. apply (leaves_after R _ _ _ HR). destruct o; eauto with calls.
Qed.

Lemma serveRevokeKey_entitled : entitled h c R "POST /setup/keys/{id}/revoke" (serveRevokeKey h).
Proof.
  intros Hw st w. unfold serveRevokeKey. apply (with_tenant_reads h c R).
  intros tid Ht. destruct (h_keys h) as [ka|] eqn:Ek; [|eauto with calls].
  eapply (form_reads h c R reads); [exact Ht|by right; left|]. intros Hm.
  assert (Hi : ∀ st id, R st (RevokeKey ka st (tenant.String tid) id).1) by (intros; by apply (Hw tid)).
  run_calls R.
Qed.

Lemma serveCreateInvite_entitled : entitled h c R "POST /setup/invites" (serveCreateInvite h).
Proof.
  intros Hw st w. unfold serveCreateInvite.
  eapply (teamAction_reads h c R reads); [by left|]. intros ma tid Em Ht Hm. cbn zeta.
  destruct (bool_decide _ || _); [eauto with calls|].
  assert (Hi : ∀ st m e r, R st (CreateInvite ma st (tenant.String tid) m e r).1) by (intros; by apply (Hw tid)).
  run_call R. apply (leaves_after R _ _ _ HR). destruct o; eauto with calls.
Qed.

Lemma serveRevokeInvite_entitled : entitled h c R "POST /setup/invites/{id}/revoke" (serveRevokeInvite h).
Proof.
  intros Hw st w. eapply (teamAction_reads h c R reads); [by right; left|].
  intros ma tid Em Ht Hm.
  assert (Hi : ∀ st id, R st (RevokeInvite ma st (tenant.String tid) id).1) by (intros; by apply (Hw tid)).
  run_calls R.
Qed.
Lemma serveRemoveMember_entitled : entitled h c R "POST /setup/members/{id}/remove" (serveRemoveMember h).
Proof.
  intros Hw st w. eapply (teamAction_reads h c R reads); [by right; right; left|].
  intros ma tid Em Ht Hm.
  assert (Hi : ∀ st id, R st (RemoveMember ma st (tenant.String tid) id).1) by (intros; by apply (Hw tid)).
  run_calls R.
Qed.

Lemma Register_entitled elapsed js1 js2 :
  Forall (λ pf, entitled h c R pf.1 pf.2) (Register h elapsed js1 js2).
Proof.
  unfold Register; repeat apply List.Forall_cons; try apply List.Forall_nil; cbn [fst snd];
    first
      [ exact serveCreateKey_entitled | exact serveRevokeKey_entitled
      | exact serveCreateInvite_entitled | exact serveRevokeInvite_entitled
      | exact serveRemoveMember_entitled
      | intros _ st w;
        first
          [ apply (serveOverview_reads h c R reads) | apply (servePerformance_reads h c R reads)
          | apply (serveSetup_reads h c R reads) | apply (serveHandshakeFragment_reads h c R reads)
          | apply (serveEndpoints_reads h c R reads) | apply (json_query_reads h c R)
          | apply (serveEndpointDetail_reads h c R reads) | exact (reflexivity st) ] ].
Qed.
End table.

(** ** Every request is answered *)

Section answered.
Context `{MacLib} `{NetIP} {St : Type}.
Implicit Types (h : Handler St) (st : St) (w : response) (c : call).

(** The status and headers went out, with a status of [l]. *)
Definition answered_with (l : list Z) w : Prop := ∃ code hs, sent w = Some (code, hs) ∧ code ∈ l.

(** The statuses the dashboard uses. *)
Definition statuses : list Z := [200; 303; 400; 401; 403; 404; 500].

Lemma status_in (code : Z) (l : list Z) : bool_decide (code ∈ l) = true → code ∈ l.
Proof. apply bool_decide_eq_true_1. Qed.
Lemma answered_Write l w p : sent w = None → 200 ∈ l → answered_with l (Write w p).
Proof. intros Hw Hl. unfold answered_with, Write, WriteHeader. cbn. rewrite Hw. eexists 200, _. by split. Qed.
Lemma answered_Error l w p code : sent w = None → code ∈ l → answered_with l (Error w p code).
Proof.
  intros Hw Hc. unfold answered_with, Error, Write, WriteHeader. cbn. rewrite Hw. cbn. eexists code, _. by split.
Qed.
Lemma answered_Redirect l w url : sent w = None → 303 ∈ l → answered_with l (Redirect w url 303).
Proof. intros Hw Hl. unfold answered_with, Redirect, WriteHeader. cbn. rewrite Hw. eexists 303, _. by split. Qed.

Lemma toInstanceRows_total l : ∃ rows, toInstanceRows l = Ret rows.
Proof.
  unfold toInstanceRows. destruct (trafficked_p95s l) as [|x p95s] eqn:E; [by eexists|].
  destruct (median_total (Float64s (x :: p95s))) as [m ->]; [|by eexists].
  intros Hn%(f_equal length). unfold Float64s in Hn. by rewrite sort_stable_length in Hn.
Qed.

(** The endpoint page is computed from whatever the queries returned. *)
Lemma detail_body_total shell s m r win from to now custom step detail p :
  ∃ d, detail_body shell s m r win from to now custom step detail p = Ret d.
Proof.
  unfold detail_body. destruct (baselineMedianP95_total (pn_baseline p)) as (base & Hb & _).
  destruct (computeVerdict_components (toDetailView detail) _ (Seconds (time_sub to from)) base Hb)
    as (spread & ratio & ->). cbn [outcome_bind].
  destruct (computeMemoryVerdict_total (pn_memory p)) as [mv ->]. cbn [outcome_bind].
  destruct (toInstanceRows_total (pn_instances p)) as [rows ->]. cbn [outcome_bind].
  rewrite Hb. cbn [outcome_bind].
  match goal with |- context [computeDiagnosis ?q] => destruct (computeDiagnosis_total q) as [d ->] end.
  cbn [outcome_bind]. eauto.
Qed.

(** The handlers that issue form tokens have a signer, as [NewHandler] sees to. *)
Definition csrf_ready h : Prop := is_Some (h_keys h) ∨ is_Some (h_members h) → is_Some (h_csrf h).

Lemma NewHandler_ready cfg h : NewHandler cfg = Ok h → csrf_ready h.
Proof.
  unfold NewHandler, csrf_ready, newCSRF. destruct (cf_querier cfg); [|done]. destruct (cf_tenant cfg); [|done].
  destruct (_ && _) eqn:Ek; [done|]. intros [= <-]. cbn [h_keys h_members h_csrf]. intros Hs.
  rewrite (bool_decide_decide (cf_csrfkey cfg = _)) in *. destruct (decide _); [|by eexists].
  rewrite andb_true_r, orb_false_iff, !bool_decide_eq_false in Ek. tauto.
Qed.

Lemma csrf_is_ready h key : h_csrf h = Some key → csrf_ready h.
Proof. intros Hk _. by exists key. Qed.

(** The answers the JSON endpoints encode are finite. *)
Definition finite_answers (q : ScopedQuery) : Prop :=
  ∀ s m r from to,
    (∀ step l, SeriesOverTime q s m r from to step = Some l → encodable (SeriesJSON l) = true) ∧
    (∀ d, EndpointDetail_ q s m r from to = Some d → encodable (HistogramJSON (dHistogram d)) = true) ∧
    (∀ l, InstancesForEndpoint q s m r from to = Some l → encodable (InstancesJSON l) = true).

Definition json_routes : list string := ["GET /api/series"; "GET /api/histogram"; "GET /api/instances"]%string.

(** A status went out; or a JSON endpoint found a NaN or an infinity in its data, and nothing
    of the answer was written. *)
Definition settled h c (pat : string) w : Prop :=
  answered_with statuses w ∨
  pat ∈ json_routes ∧ sent w = None ∧ body w = [] ∧ ∃ tid, h_tenant h c = Some tid ∧ ¬ finite_answers (h_q h tid).

Definition answers h (pat : string) (f : St → response → call → outcome (St * response)) : Prop :=
  ∀ st w c, sent w = None → body w = [] → returns (λ x, settled h c pat x.2) (f st w c).

(** A handler that always writes a status. *)
Definition replies (l : list Z) (o : outcome (St * response)) : Prop := returns (λ x, answered_with l x.2) o.

Lemma replies_settled h pat f : (∀ st w c, sent w = None → replies statuses (f st w c)) → answers h pat f.
Proof. intros Hf st w c Hw _. specialize (Hf st w c Hw). unfold replies in Hf. destruct (f st w c); [by left|done]. Qed.
End answered.

(** Runs the state-passing calls of the goal, whatever they return. *)
Ltac forget_calls :=
  repeat match goal with |- context [match ?e with pair _ _ => _ end] => destruct e end; cbn [fst snd].
Ltac status := apply status_in; vm_compute; reflexivity.
Ltac answer := unfold replies; cbn [returns snd]; lazymatch goal with
  | |- answered_with _ (Error _ _ _) => apply answered_Error; [done|status]
  | |- answered_with _ (Redirect _ _ _) => apply answered_Redirect; [done|status]
  | |- answered_with _ (Write _ _) => apply answered_Write; [done|status]
  | _ => unfold render, NotFound, serverError, serveJS; answer
  end.

Section answers.
Context `{MacLib} `{NetIP} {St : Type} (h : Handler St).
Implicit Types (st : St) (w : response) (c : call).

Lemma with_tenant_answers st w c k :
  sent w = None → (∀ tid, replies statuses (k tid)) → replies statuses (with_tenant h st w c k).
Proof. intros Hw Hk. unfold with_tenant. destruct (h_tenant h c); [apply Hk|]. answer. Qed.
Lemma with_csrf_answers st w c tid k :
  sent w = None → (csrf_ready h → replies statuses k) → replies statuses (with_csrf h st w c tid k).
Proof.
  intros Hw Hk. unfold with_csrf. destruct (h_csrf h) as [key|] eqn:Ec; [|answer].
  destruct (verify _ _ _); [by apply Hk, (csrf_is_ready h key)|answer].
Qed.
Lemma teamAction_answers st w c k :
  sent w = None → (csrf_ready h → ∀ ma tid, replies statuses (k ma tid)) → replies statuses (teamAction h st w c k).
Proof.
  intros Hw Hk. apply with_tenant_answers; [done|]. intros tid. destruct (h_members h); [|answer].
  apply with_csrf_answers; [done|]. intros Hr. destruct (isAdmin h c); [by apply Hk|answer].
Qed.
Lemma issueCSRF_returns c tid : is_Some (h_csrf h) → returns (λ _, True) (issueCSRF h c tid).
Proof. unfold issueCSRF. by intros [key ->]. Qed.
Lemma populateKeys_returns st c tid p : csrf_ready h → returns (λ _, True) (populateKeys h st c tid p).
Proof.
  intros Hr. unfold populateKeys. destruct (h_keys h) eqn:Ek; [|done].
  eapply returns_bind; [apply issueCSRF_returns, Hr; left; by rewrite Ek|]. intros tok _. by forget_calls.
Qed.
Lemma populateTeam_returns st c tid ex p : csrf_ready h → returns (λ _, True) (populateTeam h st c tid ex p).
Proof.
  intros Hr. unfold populateTeam. destruct (h_members h) eqn:Em; [|done]. cbv zeta.
  apply (returns_bind (λ _, True)); [|intros tok _; by forget_calls].
  case_bool_decide; [|done]. apply issueCSRF_returns, Hr. right. by rewrite Em.
Qed.
Lemma renderSetup_answers l st w c tid win ex :
  sent w = None → 200 ∈ l → csrf_ready h → replies l (renderSetup h st w c tid win ex).
Proof.
  intros Hw Hl Hr. unfold renderSetup. forget_calls.
  eapply returns_bind; [by apply populateKeys_returns|]. intros sk _.
  eapply returns_bind; [by apply populateTeam_returns|]. intros sm _. by apply answered_Write.
Qed.
Lemma renderOnboarding_answers st w c tid win :
  sent w = None → answered_with statuses (renderOnboarding h st w c tid win).2.
Proof. intros Hw. unfold renderOnboarding. forget_calls. answer. Qed.

Lemma serveOverview_answers pat : answers h pat (serveOverview h).
Proof.
  apply replies_settled. intros st w c Hw. unfold serveOverview. destruct (bool_decide _); [answer|].
  apply with_tenant_answers; [done|]. intros tid. cbn zeta. destruct (windowRange _ _).
  destruct (HasAnySummary _) as [[]|]; [|by apply renderOnboarding_answers|answer].
  destruct (Services _ _ _); [|answer]. forget_calls. answer.
Qed.
Lemma servePerformance_answers pat elapsed : answers h pat (λ st w c, servePerformance h st w c elapsed).
Proof.
  apply replies_settled. intros st w c Hw. apply with_tenant_answers; [done|]. intros tid. cbn zeta.
  forget_calls. answer.
Qed.
Lemma serveEndpoints_answers pat : answers h pat (serveEndpoints h).
Proof.
  apply replies_settled. intros st w c Hw. apply with_tenant_answers; [done|]. intros tid. cbn zeta.
  destruct (windowRange _ _), (Endpoints _ _ _ _); [|answer]. forget_calls. answer.
Qed.

(** [writeJSON] settles the answer exactly when the value has a JSON form. *)
Lemma writeJSON_sent w p : sent w = None → answered_with statuses (writeJSON w p) ↔ encodable p = true.
Proof.
  intros Hw. unfold writeJSON. destruct (encodable p); split; try done; intros Ha.
  - apply answered_Write; [done|status].
  - destruct Ha as (code & hs & Hs & _). cbn in Hs. by rewrite Hw in Hs.
Qed.
Lemma json_query_answers {A} pat (q : ScopedQuery → string → string → string → Time → Time → option A) out :
  pat ∈ json_routes →
  (∀ tq s m r from to a, finite_answers tq → q tq s m r from to = Some a → encodable (out a) = true) →
  answers h pat (λ st w c, json_query h st w c q out).
Proof.
  intros Hp Hq st w c Hw Hb. unfold json_query, with_tenant. destruct (h_tenant h c) as [tid|] eqn:Ht; [|left; answer].
  destruct (windowRange _ _) as [from to]. destruct (q _ _ _ _ _ _) as [a|] eqn:Ea; [|left; answer].
  cbn [returns snd]. destruct (encodable (out a)) eqn:Ee; [left; by apply writeJSON_sent|]. right. unfold writeJSON.
  rewrite Ee. split_and!; [done..|]. exists tid. split; [done|]. intros Hf.
  by rewrite (Hq _ _ _ _ _ _ _ Hf Ea) in Ee.
Qed.
Lemma serveHandshakeFragment_answers pat : answers h pat (serveHandshakeFragment h).
Proof.
  apply replies_settled. intros st w c Hw. apply with_tenant_answers; [done|]. intros tid.
  forget_calls. answer.
Qed.
Lemma serveSetup_answers pat : csrf_ready h → answers h pat (serveSetup h).
Proof.
  intros Hr. apply replies_settled. intros st w c Hw. apply with_tenant_answers; [done|]. intros tid.
  apply renderSetup_answers; [done|status|done].
Qed.
Lemma serveJS_answers pat script : answers h pat (λ st w c, Ret (st, serveJS w script)).
Proof. apply replies_settled. intros st w c Hw. answer. Qed.

Lemma serveCreateKey_answers pat : answers h pat (serveCreateKey h).
Proof.
  apply replies_settled. intros st w c Hw. apply with_tenant_answers; [done|]. intros tid.
  destruct (h_keys h); [|answer]. apply with_csrf_answers; [done|]. intros Hr. cbn zeta.
  destruct (IssueKey _ _ _ _) as [? []]; [apply renderSetup_answers; [done|status|done]|answer].
Qed.
Lemma serveRevokeKey_answers pat : answers h pat (serveRevokeKey h).
Proof.
  apply replies_settled. intros st w c Hw. apply with_tenant_answers; [done|]. intros tid.
  destruct (h_keys h); [|answer]. apply with_csrf_answers; [done|]. intros Hr. forget_calls. answer.
Qed.
Lemma serveCreateInvite_answers pat : answers h pat (serveCreateInvite h).
Proof.
  apply replies_settled. intros st w c Hw. apply teamAction_answers; [done|]. intros Hr ma tid. cbn zeta.
  destruct (bool_decide _ || _); [answer|].
  destruct (CreateInvite _ _ _ _ _ _) as [? []]; (apply renderSetup_answers; [done|status|done]).
Qed.
Lemma teamMutation_answers pat do_ : answers h pat (λ st w c, teamMutation h st w c do_).
Proof.
  apply replies_settled. intros st w c Hw. apply teamAction_answers; [done|]. intros Hr ma tid.
  forget_calls. answer.
Qed.

Lemma serveEndpointDetail_answers pat : answers h pat (serveEndpointDetail h).
Proof.
  apply replies_settled. intros st w c Hw. apply with_tenant_answers; [done|]. intros tid. cbn zeta.
  destruct (resolveDetailRange _ _ _) as [[from to] custom].
  destruct (EndpointDetail_ _ _ _ _ _ _) as [detail|]; [|answer].
  destruct (buildShell _ _ _ _ _ _ _ _) as [st' shell].
  match goal with |- context [detail_body ?a ?b ?c ?d ?e ?f ?g ?h ?i ?j ?k ?l] =>
    destruct (detail_body_total a b c d e f g h i j k l) as [x ->] end.
  cbn [outcome_bind]. answer.
Qed.

Lemma Register_answers elapsed js1 js2 :
  csrf_ready h → Forall (λ pf, answers h pf.1 pf.2) (Register h elapsed js1 js2).
Proof.
  intros Hr. unfold Register. repeat apply List.Forall_cons; try apply List.Forall_nil; cbn [fst snd]; first
    [ apply serveOverview_answers | apply servePerformance_answers | apply
      serveEndpoints_answers | apply serveHandshakeFragment_answers |
      by apply serveSetup_answers | apply serveJS_answers | apply serveCreateKey_answers | apply
      serveRevokeKey_answers | apply serveCreateInvite_answers | apply teamMutation_answers |
      apply serveEndpointDetail_answers
    | apply json_query_answers; [apply (bool_decide_unpack _); vm_compute; exact I|];
      intros tq s m r from to a Hf; apply (Hf s m r from to) ].
Qed.
End answers.

(** [C30] Every request the dashboard routes is answered. Take the handler [NewHandler] builds,
    any of its patterns, any state, request and clock, and whatever the queries and the control
    plane return, empty and malformed results included. The handler returns without
    panicking, and what the client receives has one of the statuses 200, 303, 400, 401, 403,
    404 and 500. The handler itself has sent it, but in one case: a JSON endpoint whose data
    holds a NaN or an infinity writes nothing, and the client gets an empty 200. *)
Theorem every_request_is_answered `{MacLib} `{NetIP} {St} (cfg : Config St) h elapsed js1 js2 pat f :
  NewHandler cfg = Ok h → (pat, f) ∈ Register h elapsed js1 js2 →
  ∀ st c, ∃ st' w', f st fresh_response c = Ret (st', w') ∧ (finished w').1 ∈ statuses ∧
    (is_Some (sent w') ∨
     pat ∈ json_routes ∧ body w' = [] ∧ ∃ tid, h_tenant h c = Some tid ∧ ¬ finite_answers (h_q h tid)).
Proof.
  intros Hn Hin st c. pose proof (proj1 (List.Forall_forall _ _)
    (Register_answers h elapsed js1 js2 (NewHandler_ready _ _ Hn)) (pat, f) (proj1 (list_elem_of_In _ _) Hin)) as Hf.
  destruct (proj1 (returns_spec _ _) (Hf st fresh_response c eq_refl eq_refl)) as ([st' w'] & Hr & Hs).
  exists st', w'. split; [done|]. cbn [snd] in Hs. unfold finished.
  destruct Hs as [(code & hs & -> & Hc)|(Hp & -> & Hb & Ht)]; [by eauto|]. split; [status|]. by right.
Qed.

(** ** A request stays inside its organization *)

(** [C23] A request only does to the control plane what it is entitled to. Take any
    reflexive and transitive relation on the control plane's states that holds across the
    listing operations on the organization of the request's tenant and, if the request
    is one of the five setup forms, its token verifies under that tenant and a team form
    comes from an admin, across the one write operation that form stands for, on that
    organization. Then it holds across the whole request, on every pattern. So without a
    tenant, without a valid token or as a plain member on a team form, no write operation
    runs, and none ever runs on another organization. *)
Theorem requests_are_confined `{MacLib} `{NetIP} {St} (h : Handler St) elapsed js1 js2 pat f c
  (R : relation St) :
  PreOrder R →
  (pat, f) ∈ Register h elapsed js1 js2 →
  (∀ tid, h_tenant h c = Some tid →
     reads_within h (tenant.String tid) R ∧
     (may_write h pat c tid → form_write h pat (tenant.String tid) R)) →
  ∀ st w st' w', f st w c = Ret (st', w') → R st st'.
Proof.
  intros HR Hin Hops. assert (Hreads : reads_ok h c R) by (intros tid Ht; by apply Hops).
  pose proof (Register_entitled h c R Hreads elapsed js1 js2) as Hall. rewrite Forall_forall in Hall.
  intros st w st' w' Hr. refine (ends_Ret _ _ _ (Hall _ Hin _ st w) Hr). intros tid Ht. by apply Hops.
Qed.

(** A toy control plane: the issued keys as pairs of an organization and a label. *)
Definition ledger_keys : KeyAdmin (list (string * string)) := mkKeyAdmin _
  (λ st org label, (st ++ [(org, label)], Some "token"%string))
  (λ st org, (st, Some ((λ k, mkKeyInfo k.2 k.2 "0000" 0 None) <$> filter (λ k, k.1 = org) st)))
  (λ st org id, (filter (λ k, k ≠ (org, id)) st, true)).
Definition empty_query : ScopedQuery := mkScopedQuery (λ _ _ _ _ _ _, None) (λ _ _, None) (λ _ _ _, None)
  (λ _ _ _ _ _, None) (λ _ _ _ _ _, None) (λ _ _ _ _ _, None) (λ _ _ _ _ _, None) (λ _ _ _ _ _, None)
  (λ _ _ _ _ _, None) (λ _ _ _ _ _, None) (λ _ _ _ _ _, None) (λ _ _ _, None) (λ _ _ _ _, None)
  (λ _ _, None) (Some false).
Definition ledger_handler : Handler (list (string * string)) := mkHandler _ (λ _, empty_query)
  (λ _, Some (tenant.mkID "acme")) None None (Some ledger_keys) None None (Some "key"%string)
  "acme" "dev" "admin" "".
Definition key_form (token : string) : call :=
  mkCall (mkRequest "/setup/keys" [] (λ _, ""%string)
            (λ k, if bool_decide (k = "csrf_token"%string) then token else "ci"%string) (λ _, ""%string))
    "" None (λ _, 0) "0123456789abcdef".

Definition other_orgs (st st' : list (string * string)) : Prop :=
  filter (λ k, k.1 ≠ "acme"%string) st' = filter (λ k, k.1 ≠ "acme"%string) st.

Lemma filter_other_snoc (st : list (string * string)) (label : string) :
  filter (λ k, k.1 ≠ "acme"%string) (st ++ [("acme"%string, label)]) = filter (λ k, k.1 ≠ "acme"%string) st.
Proof. rewrite filter_app. cbn. by rewrite app_nil_r. Qed.

Lemma requests_are_confined_witness :
  let _ := toy_mac in let _ := no_ipv6 in
  let c := key_form (issue "key" "acme" "0123456789abcdef") in
  ∃ st' w', serveCreateKey ledger_handler [("globex", "prod")]%string fresh_response c = Ret (st', w') ∧
    st' = [("globex", "prod"); ("acme", "ci")]%string ∧ other_orgs [("globex", "prod")]%string st'.
Proof.
  cbv zeta. destruct (serveCreateKey _ _ _ _) as [[st' w']|] eqn:Hr; [|vm_compute in Hr; discriminate Hr].
  exists st', w'. split; [reflexivity|]. split; [vm_compute in Hr; by injection Hr as <- _|].
  apply (@requests_are_confined toy_mac no_ipv6 _ ledger_handler 0 "" "" "POST /setup/keys"
           (@serveCreateKey toy_mac _ ledger_handler)
           (key_form (@issue toy_mac "key" "acme" "0123456789abcdef")) other_orgs) with
    (w := fresh_response) (w' := w').
  - split; [by intros x0|]. intros x0 y z Hxy Hyz. unfold other_orgs in *. congruence.
  - unfold Register. do 5 right. left.
  - intros tid [= <-]. split.
    + split; try done. by intros ka st [= <-].
    + intros _. cbn [form_write]. intros ka st label [= <-]. apply filter_other_snoc.
  - exact Hr.
Defined.

(** A database whose series divide by zero: the JSON endpoint answers, with nothing in it. *)
Definition nan_query : ScopedQuery := mkScopedQuery
  (λ _ _ _ _ _ _, Some [TimePoint.mk 0 0 (0 / 0)%float 0%float 0%float 0%float]) (λ _ _, None) (λ _ _ _, None)
  (λ _ _ _ _ _, None) (λ _ _ _ _ _, None) (λ _ _ _ _ _, None) (λ _ _ _ _ _, None) (λ _ _ _ _ _, None)
  (λ _ _ _ _ _, None) (λ _ _ _ _ _, None) (λ _ _ _ _ _, None) (λ _ _ _, None) (λ _ _ _ _, None)
  (λ _ _, None) (Some false).
Definition nan_config : Config (list (string * string)) := mkConfig _ (Some (λ _, nan_query))
  (Some (λ _, Some (tenant.mkID "acme"))) None None (Some ledger_keys) None None "key" "" "" "" "".

Lemma every_request_is_answered_witness :
  let _ := toy_mac in let _ := no_ipv6 in
  ∃ h, NewHandler nan_config = Ok h ∧ ∃ st' w', serveSeries h [] fresh_response (key_form "") = Ret (st', w') ∧
    (finished w').1 ∈ statuses ∧ sent w' = None ∧ body w' = [] ∧ ¬ finite_answers nan_query.
Proof.
  cbv zeta. eexists. split; [reflexivity|].
  match goal with |- context [serveSeries ?h] =>
    destruct (@every_request_is_answered toy_mac no_ipv6 _ nan_config h 0 "" "" "GET /api/series" (serveSeries h) eq_refl
      ltac:(unfold Register; do 12 right; left) [] (key_form "")) as (st' & w' & Hr & Hs & Hw) end.
  exists st', w'. split; [exact Hr|]. split; [exact Hs|].
  assert (Hn : sent w' = None) by (vm_compute in Hr; by injection Hr as _ <-).
  split; [exact Hn|]. rewrite Hn in Hw. destruct Hw as [[? Hw]|(_ & Hb & tid & Ht & Hf)]; [discriminate Hw|].
  split; [exact Hb|exact Hf].
Defined.

(** ** Refusals *)

(** The first check of a form that fails, with its status. *)
Definition refusal `{MacLib} {St} (h : Handler St) (pat : string) (c : call) : option Z :=
  match h_tenant h c with
  | None => Some 401
  | Some tid =>
      if (if bool_decide (pat ∈ key_forms) then bool_decide (h_keys h = None)
          else bool_decide (h_members h = None))
      then Some 404
      else match h_csrf h with
           | None => Some 403
           | Some key =>
               if negb (verify key (tenant.String tid) (r_form (c_req c) "csrf_token")) then Some 403
               else if bool_decide (pat ∈ team_forms) && negb (isAdmin h c) then Some 403 else None
           end
  end.

Section refusals.
Context `{MacLib} `{NetIP} {St : Type} (h : Handler St) (c : call).
Implicit Types (st : St) (w : response).

Definition acted : list Z := [200; 303; 400; 500].

(** Refused with its status and the state kept, or acted upon. *)
Definition refused_or_acted st (o : option Z) (r : outcome (St * response)) : Prop :=
  returns (λ x,
    match o with
    | Some code => x.1 = st ∧ (finished x.2).1 = code
    | None => answered_with acted x.2
    end) r.

Lemma forms_disjoint pat : pat ∈ key_forms → pat ∉ team_forms.
Proof. unfold key_forms, team_forms. set_solver. Qed.

Lemma key_form_refuses pat st k :
  pat ∈ key_forms →
  (csrf_ready h → ∀ ka tid, replies acted (k ka tid)) →
  refused_or_acted st (refusal h pat c) (with_tenant h st fresh_response c (λ tid,
    match h_keys h with None => Ret (st, NotFound fresh_response)
    | Some ka => with_csrf h st fresh_response c tid (k ka tid) end)).
Proof.
  intros Hp Hk. unfold refusal, with_tenant, with_csrf. rewrite (bool_decide_eq_true_2 _ Hp).
  rewrite (bool_decide_eq_false_2 (pat ∈ team_forms)) by by apply forms_disjoint.
  destruct (h_tenant h c) as [tid|]; [|done].
  destruct (h_keys h) as [ka|]; [|done]. rewrite bool_decide_eq_false_2 by done.
  destruct (h_csrf h) as [key|] eqn:Ec; [|done]. destruct (verify _ _ _); [by apply Hk, (csrf_is_ready h key)|done].
Qed.

Lemma team_form_refuses pat st k :
  pat ∈ team_forms →
  (csrf_ready h → ∀ ma tid, replies acted (k ma tid)) →
  refused_or_acted st (refusal h pat c) (teamAction h st fresh_response c k).
Proof.
  intros Hp Hk. unfold refusal, teamAction, with_tenant, with_csrf. rewrite (bool_decide_eq_true_2 _ Hp).
  rewrite (bool_decide_eq_false_2 (pat ∈ key_forms)) by (intros ?; by apply (forms_disjoint pat)).
  destruct (h_tenant h c) as [tid|]; [|done].
  destruct (h_members h) as [ma|]; [|done]. rewrite bool_decide_eq_false_2 by done.
  destruct (h_csrf h) as [key|] eqn:Ec; [|done]. destruct (verify _ _ _); [|done].
  destruct (isAdmin h c); [by apply Hk, (csrf_is_ready h key)|done].
Qed.

Lemma serveCreateKey_refuses st :
  refused_or_acted st (refusal h "POST /setup/keys" c) (serveCreateKey h st fresh_response c).
Proof.
  apply key_form_refuses; [by left|]. intros Hr ka tid. cbn zeta.
  destruct (IssueKey _ _ _ _) as [? []]; [apply renderSetup_answers; [done|status|done]|answer].
Qed.
Lemma serveRevokeKey_refuses st :
  refused_or_acted st (refusal h "POST /setup/keys/{id}/revoke" c) (serveRevokeKey h st fresh_response c).
Proof. apply key_form_refuses; [by right; left|]. intros Hr ka tid. forget_calls. answer. Qed.
Lemma serveCreateInvite_refuses st :
  refused_or_acted st (refusal h "POST /setup/invites" c) (serveCreateInvite h st fresh_response c).
Proof.
  apply team_form_refuses; [by left|]. intros Hr ma tid. cbn zeta. destruct (bool_decide _ || _); [answer|].
  destruct (CreateInvite _ _ _ _ _ _) as [? []]; (apply renderSetup_answers; [done|status|done]).
Qed.
Lemma teamMutation_refuses pat st do_ :
  pat ∈ team_forms → refused_or_acted st (refusal h pat c) (teamMutation h st fresh_response c do_).
Proof. intros Hp. apply team_form_refuses; [done|]. intros Hr ma tid. forget_calls. answer. Qed.

Lemma refused_total st o (f : St → response → call → outcome (St * response)) :
  refused_or_acted st o (f st fresh_response c) →
  ∃ st' w', f st fresh_response c = Ret (st', w') ∧
  match o with
  | Some code => st' = st ∧ (finished w').1 = code
  | None => (finished w').1 ∈ acted
  end.
Proof.
  intros ([st' w'] & Hr & Ho)%returns_spec. exists st', w'. split; [done|].
  destruct o; [exact Ho|]. destruct Ho as (code & hs & Hs & Hc). unfold finished. cbn [snd] in Hs. by rewrite Hs.
Qed.

Definition refuses st (pat : string) (f : St → response → call → outcome (St * response)) : Prop :=
  pat ∈ key_forms ++ team_forms → ∃ st' w', f st fresh_response c = Ret (st', w') ∧
  match refusal h pat c with
  | Some code => st' = st ∧ (finished w').1 = code
  | None => (finished w').1 ∈ acted
  end.
Lemma not_a_form st pat f : bool_decide (pat ∈ key_forms ++ team_forms) = false → refuses st pat f.
Proof. by intros Hb%bool_decide_eq_false Hp. Qed.

Lemma Register_refuses elapsed js1 js2 st : Forall (λ pf, refuses st pf.1 pf.2) (Register h elapsed js1 js2).
Proof.
  unfold Register. repeat apply List.Forall_cons; try apply List.Forall_nil; cbn [fst snd];
    try (apply not_a_form; vm_compute; reflexivity); intros _; apply refused_total;
    first [ apply serveCreateKey_refuses | apply serveRevokeKey_refuses | apply serveCreateInvite_refuses
          | apply teamMutation_refuses; apply (bool_decide_unpack _); vm_compute; exact I ].
Qed.
End refusals.

(** A form that may not act answers with its reason and changes nothing: on each of
    the five POST routes the checks are made in the order tenant (401), the surface of the
    control plane being configured (404), the form token under the tenant (403) and, for
    the team forms, the admin role (403); the first that fails gives the status and the
    control plane is left exactly as it was, not even listed. When none fails the answer is
    200, 303, 400 or 500. *)
Theorem setup_forms_refuse `{MacLib} `{NetIP} {St} (h : Handler St) elapsed js1 js2 pat f c st :
  (pat, f) ∈ Register h elapsed js1 js2 → pat ∈ key_forms ++ team_forms →
  ∃ st' w', f st fresh_response c = Ret (st', w') ∧
  match refusal h pat c with
  | Some code => st' = st ∧ (finished w').1 = code
  | None => (finished w').1 ∈ [200; 303; 400; 500]
  end.
Proof.
  intros Hin Hp. pose proof (proj1 (List.Forall_forall _ _) (Register_refuses h c elapsed js1 js2 st)
    (pat, f) (proj1 (list_elem_of_In _ _) Hin)) as Hr. exact (Hr Hp).
Qed.

Lemma setup_forms_refuse_witness :
  let _ := toy_mac in let _ := no_ipv6 in
  ∃ st' w', serveCreateKey ledger_handler [] fresh_response (key_form "stolen.token") = Ret (st', w') ∧
            st' = [] ∧ (finished w').1 = 403.
Proof.
  destruct (@setup_forms_refuse toy_mac no_ipv6 _ ledger_handler 0 "" "" "POST /setup/keys"
           (@serveCreateKey toy_mac _ ledger_handler) (key_form "stolen.token") [])
    as (st' & w' & Hr & Hs).
  - unfold Register. do 5 right. left.
  - by left.
  - exists st', w'. exact (conj Hr Hs).
Defined.

(** ** Where a form token can come from *)

Section csrf_lemmas.
Context `{MacLib}.

(** A signed payload is its first field, a bar and a rest. *)
Definition first_field (p : signed_payload) : string :=
  match p with SessionCookie s => OrgID s | StateCookie name _ _ => name | FormToken t _ => t end.
Definition payload_rest (p : signed_payload) : string :=
  match p with
  | SessionCookie s => Join [MemberID s; Role s; Itoa (to_unix_sec (Exp s))] "|"
  | StateCookie _ state next => state +++ "|" +++ next
  | FormToken _ nonce => nonce
  end.

Lemma payload_fields p : payload_of p = first_field p +++ "|" +++ payload_rest p.
Proof. by destruct p. Qed.

Lemma first_field_bar_free p : signed_ok p → bar_free (first_field p).
Proof. destruct p; [by intros []|by intros []..]. Qed.

Lemma payload_rest_empty p : payload_rest p = ""%string → ∃ t, p = FormToken t "".
Proof.
  intros Hr%(f_equal bytes_of). destruct p as [s|name state next|t nonce]; cbn [payload_rest Join] in Hr.
  - exfalso. rewrite !bytes_of_app in Hr. by destruct (bytes_of (MemberID s)).
  - exfalso. rewrite !bytes_of_app in Hr. by destruct (bytes_of state).
  - exists t. f_equal. by destruct nonce.
Qed.

(** Up to the first bar two strings are the same. *)
Lemma first_bar (a b x y : list ascii) :
  "|"%char ∉ a → "|"%char ∉ b → a ++ "|"%char :: x = b ++ "|"%char :: y → a = b ∧ x = y.
Proof.
  revert b. induction a as [|c a IH]; intros [|d b] Ha Hb Heq; cbn in Heq; simplify_eq.
  - done.
  - set_solver.
  - set_solver.
  - destruct (IH b) as [-> ->]; [set_solver..|done|done].
Qed.

Lemma prefix_first_field p tid :
  bar_free (first_field p) → bar_free tid →
  HasPrefix (payload_of p) (tid +++ "|") = bool_decide (first_field p = tid).
Proof.
  intros Hf Ht. apply eq_true_iff_eq. rewrite HasPrefix_spec, bool_decide_eq_true, payload_fields. split.
  - intros (r & Hr%(f_equal bytes_of)). rewrite !bytes_of_app in Hr. change (bytes_of "|") with ["|"%char] in Hr.
    rewrite <-app_assoc in Hr. cbn in Hr. apply first_bar in Hr as [Hr _]; [|done..].
    rewrite <-(of_bytes_of (first_field p)), <-(of_bytes_of tid). by rewrite Hr.
  - intros ->. exists (payload_rest p). by rewrite str_app_assoc.
Qed.
End csrf_lemmas.

(** The form token of the Setup page is bound to its tenant, and no further. If every
    value the server verifies carries a payload it signed itself, a token verifies for a
    tenant exactly when its payload is one of those and names the tenant in its first
    field: a form token issued for it with a non-empty nonce, a session cookie of that
    organization, or an OAuth state whose provider is named like it. So a token never
    verifies for another tenant; but the three kinds of values share the key without
    being told apart, so any session cookie of the organization is also a valid token. *)
Theorem csrf_verify_exact `{MacLib} key tid token (signed : list signed_payload) :
  (∀ payload, open_signed key token = Some payload → ∃ p, p ∈ signed ∧ payload = payload_of p) →
  Forall signed_ok signed → bar_free tid →
  verify key tid token = true ↔
  ∃ p, p ∈ signed ∧ open_signed key token = Some (payload_of p) ∧ first_field p = tid ∧
       p ≠ FormToken tid "".
Proof.
  intros Hunf Hok Ht. unfold verify. rewrite Forall_forall in Hok.
  assert (Hone : ∀ p, p ∈ signed →
    HasPrefix (payload_of p) (tid +++ "|") &&
    (String.length (tid +++ "|") <? String.length (payload_of p))%nat = true ↔
    first_field p = tid ∧ p ≠ FormToken tid "").
  { intros p Hp. rewrite andb_true_iff, prefix_first_field by auto using first_field_bar_free.
    rewrite bool_decide_eq_true, Nat.ltb_lt, payload_fields, <-!length_bytes_of, !bytes_of_app, !length_app.
    split; intros [<- Hr]; (split; [done|]).
    - intros Hp0. rewrite Hp0 in Hr. cbn in Hr. lia.
    - destruct (decide (payload_rest p = ""%string)) as [He|He].
      + destruct (payload_rest_empty p He) as [t ->]. by destruct Hr.
      + destruct (payload_rest p) as [|a s]; [done|]. cbn. lia. }
  destruct (open_signed key token) as [payload|] eqn:Eo.
  - destruct (Hunf payload eq_refl) as (p & Hp & ->). cbv zeta. rewrite (Hone p Hp). split.
    + intros [? ?]. by exists p.
    + intros (q & Hq & [= Heq] & Hf & Hn). apply Hone; [done|]. rewrite Heq. by apply Hone.
  - split; [done|]. intros (q & _ & [=] & _).
Qed.

Lemma csrf_verify_exact_witness :
  let _ := toy_mac in verify "key" "org" (encode "key" some_session) = true.
Proof.
  cbv zeta. apply (@csrf_verify_exact toy_mac "key" "org" (@encode toy_mac "key" some_session)
    [SessionCookie some_session]).
  - intros payload Ho. exists (SessionCookie some_session). split; [by left|].
    pose proof (@open_signed_sign toy_mac "key" (session_payload some_session)) as E.
    pose proof (eq_trans (eq_sym E) Ho) as E'. by injection E' as <-.
  - constructor; [apply some_session_ok|constructor].
  - apply (bool_decide_unpack _). vm_compute. exact I.
  - exists (SessionCookie some_session). split_and!; [by left|apply (@open_signed_sign toy_mac)|done|done].
Defined.

(** ** Tenants do not see each other *)

(** The same dashboard over another data plane. *)
Definition with_data {St} (h : Handler St) (q : Querier) (frozen : option (string → bool)) : Handler St :=
  mkHandler St q (h_tenant h) (h_onboarding h) frozen (h_keys h) (h_members h) (h_roleOf h) (h_csrf h)
    (h_org h) (h_user h) (h_role h) (h_account h).

(** Two runs of a call end in related states with the same answer. *)
Definition same {St A} (E : relation St) (x y : St * A) : Prop := E x.1 y.1 ∧ x.2 = y.2.

(** The runs themselves: both end so, or both panic for want of a form-token signer. *)
Definition same_run {St A} (h : Handler St) (E : relation St) (x y : outcome (St * A)) : Prop :=
  in_step (¬ csrf_ready h) (same E) x y.

(** [E] relates the states that look alike to organization [org]: no operation on [org]
    tells them apart, in what it answers and in what it leaves. *)
Record unwinding {St} (h : Handler St) (org : string) (E : relation St) : Prop := {
  uw_list : ∀ ka s t, h_keys h = Some ka → E s t → same E (ListKeys ka s org) (ListKeys ka t org);
  uw_issue : ∀ ka s t l, h_keys h = Some ka → E s t → same E (IssueKey ka s org l) (IssueKey ka t org l);
  uw_revoke : ∀ ka s t i, h_keys h = Some ka → E s t → same E (RevokeKey ka s org i) (RevokeKey ka t org i);
  uw_onboarding : ∀ src s t, h_onboarding h = Some src → E s t → same E (src s org) (src t org);
  uw_members : ∀ ma s t, h_members h = Some ma → E s t → same E (ListMembers ma s org) (ListMembers ma t org);
  uw_invites : ∀ ma s t, h_members h = Some ma → E s t → same E (ListInvites ma s org) (ListInvites ma t org);
  uw_seats : ∀ ma s t, h_members h = Some ma → E s t → same E (SeatUsage ma s org) (SeatUsage ma t org);
  uw_invite : ∀ ma s t m e r, h_members h = Some ma → E s t →
    same E (CreateInvite ma s org m e r) (CreateInvite ma t org m e r);
  uw_revoke_invite : ∀ ma s t i, h_members h = Some ma → E s t →
    same E (RevokeInvite ma s org i) (RevokeInvite ma t org i);
  uw_remove : ∀ ma s t i, h_members h = Some ma → E s t →
    same E (RemoveMember ma s org i) (RemoveMember ma t org i);
}.

(** Runs the next call on both sides; afterwards they have the same answer. *)
Ltac run_both E :=
  match goal with
  | |- _ (match ?x with pair _ _ => _ end) (match ?y with pair _ _ => _ end) =>
      let HR := fresh "HR" in
      assert (HR : same E x y) by eauto with isolation;
      let s := fresh "s" in let t := fresh "t" in
      let a := fresh "a" in let b := fresh "b" in
      destruct x as [s a], y as [t b], HR as [HR Hab]; cbn [fst snd] in HR, Hab; subst b
  end.
Ltac runs_both E := repeat run_both E; try (split; [assumption|reflexivity]).

Create HintDb isolation.
#[export] Hint Resolve uw_list uw_issue uw_revoke uw_onboarding uw_members uw_invites uw_seats uw_invite
  uw_revoke_invite uw_remove : isolation.

Section isolation.
Context `{MacLib} `{NetIP} {St : Type} (h : Handler St) (c : call) (tid : tenant.ID)
  (q : Querier) (frozen : option (string → bool)) (E : relation St).
Hypothesis tenant_is : h_tenant h c = Some tid.
Hypothesis looks_alike : unwinding h (tenant.String tid) E.
Hypothesis same_data : q tid = h_q h tid.
Hypothesis same_frozen : frozenFor (with_data h q frozen) tid = frozenFor h tid.
Abbreviation h' := (with_data h q frozen).
#[local] Hint Resolve looks_alike : isolation.

Lemma activeKeyMask_same s t : E s t → same E (activeKeyMask h s c) (activeKeyMask h' t c).
Proof.
  intros HE. unfold activeKeyMask. cbn [h_keys h_tenant with_data]. rewrite tenant_is.
  destruct (h_keys h) as [ka|] eqn:Ek; runs_both E.
Qed.
#[local] Hint Resolve activeKeyMask_same : isolation.

Lemma buildShell_same s t nav crumbs title controls win :
  E s t → same E (buildShell h s c nav crumbs title controls win) (buildShell h' t c nav crumbs title controls win).
Proof. intros HE. unfold buildShell. cbn [h_org h_user h_role h_account with_data]. runs_both E. Qed.

Lemma buildHandshakeView_same s t :
  E s t → same E (buildHandshakeView h s tid) (buildHandshakeView h' t tid).
Proof.
  intros HE. unfold buildHandshakeView. rewrite same_frozen. cbn [h_onboarding h_q with_data].
  rewrite same_data. destruct (h_onboarding h) as [src|] eqn:Eo; [|by split].
  destruct (uw_onboarding _ _ _ looks_alike src s t Eo HE) as [HR Hgot].
  destruct (src s _), (src t _). cbn in HR, Hgot |- *. subst. by split.
Qed.

Lemma run_Ret s t {A} (a : A) : E s t → same_run h E (Ret (s, a)) (Ret (t, a)).
Proof. by split. Qed.
#[local] Hint Resolve run_Ret : isolation.

(** Without a signer both runs panic, and the handler was not ready. *)
Lemma issueCSRF_same {A} (k k' : string → outcome (St * A)) :
  is_Some (h_keys h) ∨ is_Some (h_members h) → (∀ tok, same_run h E (k tok) (k' tok)) →
  same_run h E (outcome_bind (issueCSRF h c tid) k) (outcome_bind (issueCSRF h' c tid) k').
Proof.
  intros Hs Hk. unfold issueCSRF. cbn [h_csrf with_data]. destruct (h_csrf h) as [key|] eqn:Ec; [apply Hk|].
  split; [done|]. intros Hr. destruct (Hr Hs) as [key Hk']. by rewrite Ec in Hk'.
Qed.

Lemma populateKeys_same s t p : E s t → same_run h E (populateKeys h s c tid p) (populateKeys h' t c tid p).
Proof.
  intros HE. unfold populateKeys. cbn [h_keys with_data].
  destruct (h_keys h) as [ka|] eqn:Ek; [|by apply run_Ret]. apply issueCSRF_same; [left; by rewrite Ek|]. intros tok.
  run_both E. by apply run_Ret.
Qed.

Lemma populateTeam_same s t ex p : E s t → same_run h E (populateTeam h s c tid ex p) (populateTeam h' t c tid ex p).
Proof.
  intros HE. unfold populateTeam, isAdmin, caller. cbn [h_members h_roleOf with_data].
  destruct (h_members h) as [ma|] eqn:Em; [|by apply run_Ret]. cbv zeta.
  case_bool_decide; [apply issueCSRF_same; [right; by rewrite Em|]; intros tok|cbn [outcome_bind]];
    (run_both E; destruct (default (0, 0) _) as [used limit]; repeat run_both E; by apply run_Ret).
Qed.
#[local] Hint Resolve buildShell_same buildHandshakeView_same populateKeys_same populateTeam_same : isolation.

Lemma renderSetup_same s t w win ex :
  E s t → same_run h E (renderSetup h s w c tid win ex) (renderSetup h' t w c tid win ex).
Proof.
  intros HE. unfold renderSetup. repeat run_both E. cbv zeta.
  eapply in_step_bind; [by apply populateKeys_same|]. intros [sk pk] [tk pk'] [H1 Hpk]. cbn [fst snd] in *. subst pk'.
  eapply in_step_bind; [by apply populateTeam_same|]. intros [sm pm] [tm pm'] [H2 Hpm]. cbn [fst snd] in *. subst pm'.
  by apply run_Ret.
Qed.
Lemma renderOnboarding_same s t w win :
  E s t → same E (renderOnboarding h s w c tid win) (renderOnboarding h' t w c tid win).
Proof. intros HE. unfold renderOnboarding. runs_both E. Qed.
#[local] Hint Resolve renderSetup_same renderOnboarding_same : isolation.

Lemma with_tenant_same s t w k k' :
  E s t → same_run h E (k tid) (k' tid) → same_run h E (with_tenant h s w c k) (with_tenant h' t w c k').
Proof. intros HE Hk. unfold with_tenant. cbn [h_tenant with_data]. by rewrite tenant_is. Qed.
Lemma with_csrf_same s t w k k' :
  E s t → same_run h E k k' → same_run h E (with_csrf h s w c tid k) (with_csrf h' t w c tid k').
Proof.
  intros HE Hk. unfold with_csrf. cbn [h_csrf with_data].
  destruct (h_csrf h) as [key|]; [destruct (verify _ _ _); [done|]|]; by apply run_Ret.
Qed.
Lemma teamAction_same s t w k k' :
  E s t → (∀ ma, h_members h = Some ma → same_run h E (k ma tid) (k' ma tid)) →
  same_run h E (teamAction h s w c k) (teamAction h' t w c k').
Proof.
  intros HE Hk. apply with_tenant_same; [done|]. cbn [h_members with_data].
  destruct (h_members h) as [ma|]; [|by apply run_Ret]. apply with_csrf_same; [done|].
  change (isAdmin h' c) with (isAdmin h c). destruct (isAdmin h c); [by apply Hk|by apply run_Ret].
Qed.

(** One route run on both sides. *)
Definition isolated (f f' : St → response → call → outcome (St * response)) : Prop :=
  ∀ s t w, E s t → same_run h E (f s w c) (f' t w c).

Lemma serveOverview_isolated : isolated (serveOverview h) (serveOverview h').
Proof.
  intros s t w HE. unfold serveOverview. destruct (bool_decide _); [by apply run_Ret|].
  apply with_tenant_same; [done..|]. cbv zeta. rewrite same_frozen. cbn [h_q with_data]. rewrite same_data.
  destruct (windowRange _ _), (HasAnySummary _) as [[]|]; [|by apply renderOnboarding_same|by apply run_Ret].
  destruct (Services _ _ _); [run_both E|]; by apply run_Ret.
Qed.
Lemma servePerformance_isolated elapsed :
  isolated (λ s w c, servePerformance h s w c elapsed) (λ s w c, servePerformance h' s w c elapsed).
Proof.
  intros s t w HE. apply with_tenant_same; [done..|]. cbv zeta.
  cbn [h_q with_data]. rewrite same_data. run_both E. destruct (windowRange _ _). by apply run_Ret.
Qed.
Lemma serveEndpoints_isolated : isolated (serveEndpoints h) (serveEndpoints h').
Proof.
  intros s t w HE. apply with_tenant_same; [done..|]. cbv zeta. rewrite same_frozen.
  cbn [h_q with_data]. rewrite same_data. destruct (windowRange _ _), (Endpoints _ _ _ _); [run_both E|]; by apply run_Ret.
Qed.
Lemma json_query_isolated {A} (jq : ScopedQuery → string → string → string → Time → Time → option A) out :
  isolated (λ s w c, json_query h s w c jq out) (λ s w c, json_query h' s w c jq out).
Proof.
  intros s t w HE. apply with_tenant_same; [done..|]. cbn [h_q with_data].
  rewrite same_data. destruct (windowRange _ _), (jq _ _ _ _ _ _); by apply run_Ret.
Qed.
Lemma serveHandshakeFragment_isolated : isolated (serveHandshakeFragment h) (serveHandshakeFragment h').
Proof. intros s t w HE. apply with_tenant_same; [done..|]. run_both E. by apply run_Ret. Qed.
Lemma serveSetup_isolated : isolated (serveSetup h) (serveSetup h').
Proof. intros s t w HE. apply with_tenant_same; [done..|]. by apply renderSetup_same. Qed.
Lemma static_isolated (f : response → response) : isolated (λ s w _, Ret (s, f w)) (λ s w _, Ret (s, f w)).
Proof. intros s t w HE. by apply run_Ret. Qed.

Lemma serveEndpointDetail_isolated : isolated (serveEndpointDetail h) (serveEndpointDetail h').
Proof.
  intros s t w HE. apply with_tenant_same; [done..|]. cbn [h_q with_data]. rewrite same_data. cbv zeta.
  destruct (resolveDetailRange _ _ _) as [[from to] custom].
  destruct (EndpointDetail_ _ _ _ _ _ _) as [detail|]; [|by apply run_Ret]. run_both E.
  match goal with |- context [detail_body ?a ?b ?c ?d ?e ?f ?g ?h ?i ?j ?k ?l] =>
    destruct (detail_body_total a b c d e f g h i j k l) as [x ->] end.
  by apply run_Ret.
Qed.

Lemma serveCreateKey_isolated : isolated (serveCreateKey h) (serveCreateKey h').
Proof.
  intros s t w HE. apply with_tenant_same; [done..|]. cbn [h_keys with_data].
  destruct (h_keys h) as [ka|] eqn:Ek; [|by apply run_Ret]. apply with_csrf_same; [done..|]. cbv zeta. run_both E.
  destruct a; [by apply renderSetup_same|by apply run_Ret].
Qed.
Lemma serveRevokeKey_isolated : isolated (serveRevokeKey h) (serveRevokeKey h').
Proof.
  intros s t w HE. apply with_tenant_same; [done..|]. cbn [h_keys with_data].
  destruct (h_keys h) as [ka|] eqn:Ek; [|by apply run_Ret]. apply with_csrf_same; [done..|]. run_both E. by apply run_Ret.
Qed.
Lemma serveCreateInvite_isolated : isolated (serveCreateInvite h) (serveCreateInvite h').
Proof.
  intros s t w HE. apply teamAction_same; [done..|]. intros ma Em. cbv zeta.
  destruct (bool_decide _ || _); [by apply run_Ret|]. change (caller h' c) with (caller h c). run_both E.
  destruct a; by apply renderSetup_same.
Qed.
Lemma serveRevokeInvite_isolated : isolated (serveRevokeInvite h) (serveRevokeInvite h').
Proof. intros s t w HE. apply teamAction_same; [done..|]. intros ma Em. run_both E. by apply run_Ret. Qed.
Lemma serveRemoveMember_isolated : isolated (serveRemoveMember h) (serveRemoveMember h').
Proof. intros s t w HE. apply teamAction_same; [done..|]. intros ma Em. run_both E. by apply run_Ret. Qed.

Lemma Register_isolated elapsed js1 js2 :
  Forall2 (λ x y, x.1 = y.1 ∧ isolated x.2 y.2) (Register h elapsed js1 js2) (Register h' elapsed js1 js2).
Proof.
  unfold Register. repeat apply Forall2_cons_2; try apply Forall2_nil_2; cbn [fst snd]; (split; [done|]);
    first
      [ exact serveOverview_isolated | apply servePerformance_isolated | exact serveSetup_isolated
      | exact serveHandshakeFragment_isolated | exact serveCreateKey_isolated
      | exact serveRevokeKey_isolated | exact serveCreateInvite_isolated
      | exact serveRevokeInvite_isolated | exact serveRemoveMember_isolated
      | exact serveEndpoints_isolated | exact serveEndpointDetail_isolated | apply json_query_isolated
      | apply static_isolated ].
Qed.
End isolation.

(** [C22] Tenants do not see each other. Take two dashboards that differ only in their data
    planes and cardinality guards, which agree on one tenant and are arbitrary on every
    other, and two states of the control plane that no operation on that tenant's
    organization tells apart. On every route a request of that tenant gets the same
    response from both and leaves states that still look alike to it; or both panic, for
    the same reason, which takes a handler [NewHandler] does not build: keys or members to
    show and no signer of form tokens. *)
Theorem tenants_are_isolated `{MacLib} `{NetIP} {St} (h : Handler St) q frozen (E : relation St)
  c tid i elapsed js1 js2 pat f pat' f' :
  h_tenant h c = Some tid →
  q tid = h_q h tid → frozenFor (with_data h q frozen) tid = frozenFor h tid →
  unwinding h (tenant.String tid) E →
  Register h elapsed js1 js2 !! i = Some (pat, f) →
  Register (with_data h q frozen) elapsed js1 js2 !! i = Some (pat', f') →
  pat' = pat ∧ ∀ s t w, E s t →
    (∃ s' t' w', f s w c = Ret (s', w') ∧ f' t w c = Ret (t', w') ∧ E s' t') ∨
    ¬ csrf_ready h ∧ ∃ why, f s w c = Panic why ∧ f' t w c = Panic why.
Proof.
  intros Ht Hq Hf Hu Hi Hi'.
  pose proof (Register_isolated h c tid q frozen E Ht Hu Hq Hf elapsed js1 js2) as HF.
  destruct (Forall2_lookup_lr _ _ _ _ _ _ HF Hi Hi') as [Hp Hiso]. split; [done|]. intros s t w HE.
  specialize (Hiso s t w HE). unfold same_run in Hiso. cbn [snd] in Hiso.
  destruct (f s w c) as [[s' w']|why], (f' t w c) as [[t' w'']|why']; try done.
  - destruct Hiso as [HE' Heq]. cbn in HE', Heq. subst. left. eauto 10.
  - destruct Hiso as [-> Hn]. right. eauto.
Qed.

Definition acme_view (s t : list (string * string)) : Prop :=
  filter (λ k, k.1 = "acme"%string) s = filter (λ k, k.1 = "acme"%string) t.

Lemma filter_remove (s : list (string * string)) (id : string) :
  filter (λ k, k.1 = "acme"%string) (filter (λ k, k ≠ ("acme"%string, id)) s) =
  filter (λ k, k ≠ ("acme"%string, id)) (filter (λ k, k.1 = "acme"%string) s).
Proof. rewrite !list_filter_filter. apply list_filter_iff. naive_solver. Qed.

Lemma ledger_unwinding : unwinding ledger_handler "acme" acme_view.
Proof.
  split; try done.
  - intros ka s t [= <-] HE. split; [done|]. cbn. by rewrite HE.
  - intros ka s t l [= <-] HE. split; [|done]. cbn. unfold acme_view in *. rewrite !filter_app. by rewrite HE.
  - intros ka s t i [= <-] HE. split; [|done]. cbn. unfold acme_view in *. rewrite !filter_remove. by rewrite HE.
Qed.

(** Another tenant's data is there in one dashboard and not in the other. *)
Definition busy_query : ScopedQuery := mkScopedQuery (λ _ _ _ _ _ _, Some []) (λ _ _, Some []) (λ _ _ _, Some [])
  (λ _ _ _ _ _, None) (λ _ _ _ _ _, None) (λ _ _ _ _ _, None) (λ _ _ _ _ _, None) (λ _ _ _ _ _, None)
  (λ _ _ _ _ _, None) (λ _ _ _ _ _, None) (λ _ _ _ _ _, None) (λ _ _ _, None) (λ _ _ _ _, None)
  (λ _ _, None) (Some true).
Definition other_data : Querier :=
  λ id, if decide (tenant.String id = "acme"%string) then empty_query else busy_query.

Lemma tenants_are_isolated_witness :
  let _ := toy_mac in let _ := no_ipv6 in
  let h' := with_data ledger_handler other_data (Some (λ org, bool_decide (org = "globex"%string))) in
  ∃ s' t' w',
    serveSetup ledger_handler [("acme", "ci")]%string fresh_response (key_form "") = Ret (s', w') ∧
    serveSetup h' [("globex", "prod"); ("acme", "ci")]%string fresh_response (key_form "") = Ret (t', w') ∧
    acme_view s' t'.
Proof.
  destruct (@tenants_are_isolated toy_mac no_ipv6 _ ledger_handler other_data
    (Some (λ org, bool_decide (org = "globex"%string))) acme_view (key_form "") (tenant.mkID "acme") 3 0 "" ""
    "GET /setup" (@serveSetup toy_mac _ ledger_handler) "GET /setup"
    (@serveSetup toy_mac _ (with_data ledger_handler other_data
       (Some (λ org, bool_decide (org = "globex"%string))))))
    as [_ Hiso]; try reflexivity; [apply ledger_unwinding|].
  destruct (Hiso [("acme", "ci")]%string [("globex", "prod"); ("acme", "ci")]%string fresh_response eq_refl) as [Hrun|[Hn _]];
    [exact Hrun|]. destruct Hn. intros _. by eexists.
Defined.

(** ** The stepper *)

(** The Setup page never shows the last onboarding step as done. Whatever the control
    plane and the data plane answer, the four steps of the stepper end with one that has
    not the done icon; in particular when the tenant has data, the page's own completion
    flag is set and the onboarding step "First data received" is still shown as current. *)
Theorem handshake_never_done `{MacLib} {St} (h : Handler St) st tid :
  let hv := (buildHandshakeView h st tid).2 in
  length (hvSteps hv) = 4%nat ∧
  (hvComplete hv = true ↔ HasAnySummary (h_q h tid) = Some true) ∧
  ∃ step, last (hvSteps hv) = Some step ∧ ovLabel step = "First data received"%string ∧ ovIcon step ≠ "✓"%string ∧
          (hvConnected hv ≠ [] → ovIcon step = "◐"%string).
Proof.
  unfold buildHandshakeView. destruct (match h_onboarding h with Some _ => _ | None => _ end) as [s connected].
  cbn [snd hvSteps hvComplete hvConnected obSteps obConnected buildOnboarding].
  split; [done|]. split; [by destruct (HasAnySummary _) as [[]|]|].
  destruct connected; eexists; (split; [vm_compute; reflexivity|]); by split_and!.
Qed.
