(* ===== verification/Docs.v ===== *)
(** * The documentation pages (server/docs: docs.go, render.go, render_app.go)

    The table of contents every page shares, the lookup of a topic's file and the two ways
    a page is framed. The Markdown renderer and the embedded files are parameters, and so is the
    template of the in-app fragment, which the file Render defines. *)

From Stdlib Require Import ZArith Lia.
From Stdlib Require String.
From stdpp Require Import base option gmap strings list sorting.
From S2P Require Import Prelude GoString Http.

Local Open Scope Z_scope.

(** ** The table of contents *)

Record Section_ := mkSection { Group : string; Title : string; Href : string; Order : Z }.
Record navLink := mkLink { nl_Title : string; nl_Href : string; Active : bool }.
Record navGroup := mkGroup { ng_Group : string; Items : list navLink }.

Definition coreSections : list Section_ := [
  mkSection "Product" "Quickstart" "/doc/quickstart" 1;
  mkSection "Product" "What data is collected" "/doc/data-collected" 2;
  mkSection "Product" "Runtime overhead" "/doc/runtime-overhead" 3;
  mkSection "Product" "Failure & retry behaviour" "/doc/failure-retry" 4;
  mkSection "Product" "Security & data flow" "/doc/security-data-flow" 5;
  mkSection "Product" "Self-hosting" "/doc/self-hosting" 6;
  mkSection "Product" "Architecture" "/doc/architecture" 7;
  mkSection "Product" "Benchmarks" "/doc/benchmarks" 8;
  mkSection "Product" "Licensing" "/doc/licensing" 9].

Fixpoint titleOf (sections : list Section_) (href : string) : string :=
  match sections with
  | [] => ""
  | s :: l => if bool_decide (Href s = href) then Title s else titleOf l href
  end.

(** [NewHandler]: the core sections, then the injected ones. *)
Definition NewHandler (extra : list Section_) : list Section_ := coreSections ++ extra.

Fixpoint orderOf (nav : list Section_) (group href : string) : Z :=
  match nav with
  | [] => 0
  | s :: l => if bool_decide (Group s = group ∧ Href s = href) then Order s else orderOf l group href
  end.

Definition link_of (activePath : string) (s : Section_) : navLink :=
  mkLink (Title s) (Href s) (bool_decide (Href s = activePath)).

(** The loop of [groups]: the headings as they are first seen, and the links of each. *)
Definition collect (activePath : string) (acc : list string * gmap string (list navLink)) (s : Section_)
  : list string * gmap string (list navLink) :=
  let '(order, byGroup) := acc in
  (match byGroup !! Group s with Some _ => order | None => order ++ [Group s] end,
   <[Group s := default [] (byGroup !! Group s) ++ [link_of activePath s]]> byGroup).

Definition in_rail_order (nav : list Section_) (g : string) (a b : navLink) : bool :=
  orderOf nav g (nl_Href a) <? orderOf nav g (nl_Href b).

Definition groups (nav : list Section_) (activePath : string) : list navGroup :=
  let '(order, byGroup) := fold_left (collect activePath) nav ([], ∅) in
  (λ g, mkGroup g (sort_stable (in_rail_order nav g) (default [] (byGroup !! g)))) <$> order.

(** ** Serving a page *)

Definition contentSecurityPolicy : string :=
  "default-src 'self'; script-src 'none'; style-src 'self' 'unsafe-inline' https://fonts.googleapis.com; font-src https://fonts.gstatic.com; img-src 'self' data:; base-uri 'none'; frame-ancestors 'none'".

Inductive doc_page :=
  | Shell (title body : string) (rail : list navGroup) (header : string)
  | Message (s : string).

(** Pages are written to a response of the server's; [R] is a request, [St] what the
    dashboard's frame may read. [appTmpl] is the in-app fragment's template. *)
Section docs.
Context {R St B : Type} (path_of : R → string) (inj : doc_page → B).
Context (ReadFile : string → option string) (MarkdownToHTML : string → option string)
  (appTmpl : string → list navGroup → option string).

Abbreviation handler := (R → St → Response B → outcome (St * Response B)) (only parsing).

(** [inapp]: the two collaborators of [EnableInApp]. *)
Record Handler := mkHandler {
  nav : list Section_; header : string;
  inapp : option ((R → bool) * (string → string → handler));
}.

Definition renderInApp (h : Handler) (renderApp : string → string → handler) (title body : string) : handler := λ r st w,
  match appTmpl body (groups (nav h) (path_of r)) with
  | None => Ret (st, Error w (inj (Message "documentation unavailable")) 500)
  | Some fragment => renderApp title fragment r st w
  end.

Definition render_shell (h : Handler) (title body : string) : handler := λ r st w,
  let w := set_header w "Content-Type" "text/html; charset=utf-8" in
  let w := set_header w "Content-Security-Policy" contentSecurityPolicy in
  Ret (st, Write w (inj (Shell title body (groups (nav h) (path_of r)) (header h)))).

Definition Render (h : Handler) (title body : string) : handler := λ r st w,
  match inapp h with
  | Some (authed, renderApp) =>
      if authed r then renderInApp h renderApp title body r st w else render_shell h title body r st w
  | None => render_shell h title body r st w
  end.

Definition serveFile (h : Handler) (slug activeHref : string) : handler := λ r st w,
  match ReadFile (str_app "content/" (str_app slug ".md")) with
  | None => Ret (st, Error w (inj (Message "404 page not found")) 404)
  | Some src =>
      match MarkdownToHTML src with
      | None => Ret (st, Error w (inj (Message "documentation unavailable")) 500)
      | Some body =>
          let title := titleOf (nav h) activeHref in
          Render h (if bool_decide (title = ""%string) then "Documentation" else title) body r st w
      end
  end.

Definition index (h : Handler) : handler := serveFile h "index" "/doc".
(** [slug] is the path value [topic]. *)
Definition topic (h : Handler) (slug : string) : handler := serveFile h slug (str_app "/doc/" slug).
End docs.
Arguments Handler : clear implicits.
Arguments mkHandler {R St B}.
Arguments nav {R St B}.
Arguments header {R St B}.
Arguments inapp {R St B}.

(** ** The rail *)

Definition of_group (g : string) (nav : list Section_) : list Section_ := filter (λ s, Group s = g) nav.

Lemma collect_spec path l :
  let '(order, byGroup) := fold_left (collect path) l ([], ∅) in
  NoDup order ∧ (∀ g, g ∈ order ↔ g ∈ Group <$> l) ∧
  ∀ g, byGroup !! g = if decide (g ∈ Group <$> l) then Some (link_of path <$> of_group g l) else None.
Proof.
  induction l as [|s l IH] using rev_ind; cbn; [split_and!; [constructor|set_solver|done]|].
  rewrite fold_left_app. cbn. destruct (fold_left _ l _) as [order byGroup]. destruct IH as (Hnd & Hin & Hby). cbn.
  assert (Hs : ∀ g, of_group g (l ++ [s]) = of_group g l ++ if decide (Group s = g) then [s] else []).
  { intros g. unfold of_group. rewrite filter_app. f_equal. }
  assert (Hnone : ∀ g, g ∉ Group <$> l → of_group g l = []).
  { intros g Hg. unfold of_group. apply filter_nil_all, Forall_forall.
    intros x Hx <-. by apply Hg, list_elem_of_fmap_2. }
  rewrite (Hby (Group s)). split_and!.
  - destruct (decide (Group s ∈ Group <$> l)) as [|Hd]; [done|]. apply NoDup_app. split_and!; [done| |apply NoDup_singleton].
    intros x Hx ->%list_elem_of_singleton. by apply Hd, Hin.
  - intros g. rewrite fmap_app, elem_of_app. cbn. rewrite list_elem_of_singleton. pose proof (Hin g) as Hg.
    destruct (decide (Group s ∈ Group <$> l)) as [Hd|Hd]; [|rewrite elem_of_app, list_elem_of_singleton; tauto].
    split; [tauto|]. intros [?| ->]; tauto.
  - intros g. rewrite Hs, fmap_app. destruct (decide (Group s = g)) as [<-|Hne].
    + rewrite lookup_insert_eq. destruct (decide (Group s ∈ Group <$> l)) as [Hd|Hd];
        rewrite decide_True by set_solver; rewrite fmap_app; cbn; [done|by rewrite (Hnone _ Hd)].
    + rewrite lookup_insert_ne, Hby, app_nil_r by done. apply decide_ext.
      rewrite elem_of_app. cbn. rewrite list_elem_of_singleton. naive_solver.
Qed.

(** *** Every section once *)

Lemma groups_spec nav path :
  ∃ names, NoDup names ∧ (∀ g, g ∈ names ↔ g ∈ Group <$> nav) ∧
    groups nav path = (λ g, mkGroup g (sort_stable (in_rail_order nav g) (link_of path <$> of_group g nav))) <$> names.
Proof.
  unfold groups. pose proof (collect_spec path nav) as Hc.
  destruct (fold_left (collect path) nav ([], ∅)) as [order byGroup]. destruct Hc as (Hnd & Hin & Hby).
  exists order. split; [done|]. split; [done|]. apply list_fmap_ext. intros i g Hg. f_equal.
  rewrite Hby, decide_True; [done|]. apply Hin. by eapply list_elem_of_lookup_2.
Qed.

Lemma orderOf_own nav s :
  NoDup ((λ s, (Group s, Href s)) <$> nav) → s ∈ nav → orderOf nav (Group s) (Href s) = Order s.
Proof.
  induction nav as [|x l IH]; cbn; [by intros _ ?%not_elem_of_nil|]. intros [Hx Hnd]%NoDup_cons Hs.
  apply elem_of_cons in Hs as [->|Hs]; [by rewrite bool_decide_true|]. rewrite bool_decide_false; [by apply IH|].
  intros [Hg Hh]. apply Hx. apply list_elem_of_fmap. exists s. by rewrite Hg, Hh.
Qed.

(** The rail is a faithful table of contents: its headings are the groups of the
    sections, each once; under each heading stand exactly the links of its sections, each
    once, lit exactly when it is the current page; and when a group names no page twice,
    they stand in the order the sections declare. *)
Theorem rail_is_exact nav path :
  let gs := groups nav path in
  NoDup (ng_Group <$> gs) ∧ (∀ g, g ∈ ng_Group <$> gs ↔ g ∈ Group <$> nav) ∧
  ∀ grp, grp ∈ gs →
    Items grp ≡ₚ link_of path <$> of_group (ng_Group grp) nav ∧
    in_order (in_rail_order nav (ng_Group grp)) (Items grp) ∧
    (NoDup ((λ s, (Group s, Href s)) <$> nav) →
     ∀ s, s ∈ of_group (ng_Group grp) nav → orderOf nav (ng_Group grp) (Href s) = Order s).
Proof.
  intros gs. destruct (groups_spec nav path) as (names & Hnd & Hin & Hgs). fold gs in Hgs.
  assert (Hnames : ng_Group <$> gs = names) by (rewrite Hgs, <-list_fmap_compose; apply list_fmap_id).
  rewrite Hnames. split; [done|]. split; [done|]. intros grp Hg. rewrite Hgs in Hg.
  apply list_elem_of_fmap in Hg as (g & -> & _). cbn. split; [apply sort_stable_perm|]. split.
  - apply sort_stable_sorted; unfold in_rail_order; intros; lia.
  - intros Hn s [<- Hs]%list_elem_of_filter. by apply orderOf_own.
Qed.

(** *** Every request is answered *)

Definition status_of {B} (w : Response B) : option Z := fst <$> sent w.

(** A page is served with the rail and its own title, or it is a 404 for a topic without a
    file, or a 500 for one that does not render; never an empty frame. The public frame is
    the one an anonymous visitor gets, whether or not the in-app frame is enabled. *)
Theorem doc_pages_exact {R St B} path_of (inj : doc_page → B) ReadFile MarkdownToHTML appTmpl (h : Handler R St B) slug r st :
  (∀ authed render, inapp h = Some (authed, render) → authed r = false) →
  ∃ w, topic path_of inj ReadFile MarkdownToHTML appTmpl h slug r st fresh_response = Ret (st, w) ∧
  match ReadFile (str_app "content/" (str_app slug ".md")) with
  | None => status_of w = Some 404 ∧ body w = [inj (Message "404 page not found")]
  | Some src =>
      match MarkdownToHTML src with
      | None => status_of w = Some 500 ∧ body w = [inj (Message "documentation unavailable")]
      | Some html => status_of w = Some 200 ∧ ∃ title, title ≠ ""%string ∧
          body w = [inj (Shell title html (groups (nav h) (path_of r)) (header h))]
      end
  end.
Proof.
  intros Hi. unfold topic, serveFile. destruct (ReadFile _) as [src|]; [|by eexists].
  destruct (MarkdownToHTML src) as [html|]; [|by eexists]. unfold Render, render_shell.
  destruct (inapp h) as [[authed render]|]; [rewrite (Hi authed render eq_refl)|];
    (eexists; split; [done|]; split; [done|]; eexists; split; [|done]; by case_bool_decide).
Qed.
