(* ===== verification/ViewData.v ===== *)
(** * View data as the templates see it (server/internal/web, server/internal/auth, server/docs)

    The exported fields of every struct a template reads, by their Go names and types, and
    the functions the dashboard's templates call. A [time.Time] shows no exported field. *)

From Stdlib Require Import ZArith Lia Floats.
From Stdlib Require String.
From stdpp Require Import base option strings list.
From S2P Require Import Prelude GoFloat GoTime GoString GoRunes GoTemplate Storage Format Views Range Verdict Diagnosis Pages Dashboard Docs.

Local Open Scope Z_scope.
Local Infix "+++" := String.append (at level 60, right associativity).

(** ** The dashboard's rows (view.go, view_detail.go, view_page.go, view_debug.go) *)

Definition time_fields : list (go_field Time) := [].

#[export] Instance serviceRow_reflect : Reflect serviceRow.t := reflect_struct
  [ field_of "Service" serviceRow.Service; field_num Uint64 "Count" serviceRow.Count;
    field_of "RatePerSec" serviceRow.RatePerSec; field_of "ErrorRate" serviceRow.ErrorRate;
    field_of "ErrorHigh" serviceRow.ErrorHigh; field_of "Client4xxRate" serviceRow.Client4xxRate;
    field_of "P50" serviceRow.P50; field_of "P95" serviceRow.P95; field_of "P99" serviceRow.P99;
    field_of "DrillHref" serviceRow.DrillHref ].

#[export] Instance endpointRow_reflect : Reflect endpointRow.t := reflect_struct
  [ field_of "Method" endpointRow.Method; field_of "Route" endpointRow.Route;
    field_num Uint64 "Count" endpointRow.Count; field_of "RatePerSec" endpointRow.RatePerSec;
    field_of "ErrorRate" endpointRow.ErrorRate; field_of "ErrorHigh" endpointRow.ErrorHigh;
    field_of "Client4xxRate" endpointRow.Client4xxRate; field_of "P50" endpointRow.P50;
    field_of "P95" endpointRow.P95; field_of "P99" endpointRow.P99;
    field_of "ReqBytesAvg" endpointRow.ReqBytesAvg; field_of "RespBytesAvg" endpointRow.RespBytesAvg ].

#[export] Instance statusClassView_reflect : Reflect statusClassView := reflect_struct
  [ field_of "Class" scvClass; field_num Uint64 "Count" scvCount; field_of "IsError" scvIsError ].
#[export] Instance statusCodeView_reflect : Reflect statusCodeView := reflect_struct
  [ field_num Uint32 "Code" scoCode; field_num Uint64 "Count" scoCount ].
#[export] Instance detailView_reflect : Reflect detailView := reflect_struct
  [ field_num Uint64 "Count" dvCount; field_of "ErrorRate" dvErrorRate; field_of "ErrorHigh" dvErrorHigh;
    field_of "P50" dvP50; field_of "P95" dvP95; field_of "P99" dvP99;
    field_of "Classes" dvClasses; field_of "Codes" dvCodes ].

#[export] Instance instanceStatRow_reflect : Reflect instanceStatRow.t := reflect_struct
  [ field_of "Instance" instanceStatRow.Instance; field_num Uint64 "Count" instanceStatRow.Count;
    field_of "ErrorRate" instanceStatRow.ErrorRate; field_of "ErrorHigh" instanceStatRow.ErrorHigh;
    field_of "P50" instanceStatRow.P50; field_of "P95" instanceStatRow.P95; field_of "P99" instanceStatRow.P99;
    field_of "ReqBytesAvg" instanceStatRow.ReqBytesAvg; field_of "RespBytesAvg" instanceStatRow.RespBytesAvg;
    field_of "IsOutlier" instanceStatRow.IsOutlier ].

#[export] Instance versionRow_reflect : Reflect versionRow.t := reflect_struct
  [ field_of "Version" versionRow.Version; field_num Uint64 "Count" versionRow.Count;
    field_of "ErrorRate" versionRow.ErrorRate; field_of "ErrorHigh" versionRow.ErrorHigh;
    field_of "P50" versionRow.P50; field_of "P95" versionRow.P95; field_of "P99" versionRow.P99 ].

#[export] Instance exemplarRow_reflect : Reflect exemplarRow.t := reflect_struct
  [ field_of "Time" exemplarRow.Time; field_num Uint32 "StatusCode" exemplarRow.StatusCode;
    field_of "Latency" exemplarRow.Latency; field_of "FullTrace" exemplarRow.FullTrace;
    field_of "ShortTrace" exemplarRow.ShortTrace; field_of "FullReq" exemplarRow.FullReq;
    field_of "ShortReq" exemplarRow.ShortReq ].

#[export] Instance classLatencyRow_reflect : Reflect classLatencyRow.t := reflect_struct
  [ field_of "Class" classLatencyRow.Class_; field_num Uint64 "Count" classLatencyRow.Count;
    field_of "P50" classLatencyRow.P50; field_of "P95" classLatencyRow.P95; field_of "P99" classLatencyRow.P99 ].

(** [errorClassRow] and [noStatusReasonRow] are pairs of a label and a count. *)
Definition errorClassRow_reflect : Reflect (string * Z) := reflect_struct
  [ field_of "Class" fst; field_num Uint64 "Count" snd ].
Definition noStatusReasonRow_reflect : Reflect (string * Z) := reflect_struct
  [ field_of "Reason" fst; field_num Uint64 "Count" snd ].

#[export] Instance downstreamView_reflect : Reflect downstreamView := reflect_struct
  [ field_of "HasData" HasData; field_of "SelfSeconds" SelfSeconds; field_of "DownSeconds" DownSeconds;
    field_of "SelfWidth" SelfWidth; field_of "DownWidth" DownWidth; field_of "DownFraction" DownFraction ].

#[export] Instance resourceRow_reflect : Reflect resourceRow := reflect_struct
  [ field_of "Instance" rrInstance; field_of "CoresUsed" CoresUsed; field_of "GCShare" GCShare;
    field_of "RSSBytes" RSSBytes_; field_of "HeapBytes" HeapBytes; field_num Uint64 "Goroutines" Goroutines_;
    field_of "GCFreq" GCFreq; field_of "GCCPUFraction" GCCPUFraction_; field_of "AllocRate" AllocRate;
    field_of "AvgAllocSize" AvgAllocSize; field_of "PostGCHeap" PostGCHeap; field_of "TrueRSSBytes" TrueRSSBytes;
    field_of "HasTrueRSS" HasTrueRSS; field_num Uint64 "OpenFDs" OpenFDs_; field_num Uint64 "FDLimit" FDLimit_;
    field_of "HasFDLimit" HasFDLimit; field_num Uint64 "InFlight" InFlight_ ].

#[export] Instance rollupTier_reflect : Reflect rollupTier := reflect_struct
  [ field_of "Res" rtRes; field_of "Retention" rtRetention; field_of "BarPct" rtBarPct ].
#[export] Instance keyRow_reflect : Reflect keyRow := reflect_struct
  [ field_of "ID" krID; field_of "Label" krLabel; field_of "Masked" krMasked; field_of "Created" krCreated;
    field_of "Revoked" krRevoked ].
#[export] Instance memberRow_reflect : Reflect memberRow := reflect_struct
  [ field_of "ID" mrID; field_of "Email" mrEmail; field_of "Role" mrRole; field_of "IsOwner" mrIsOwner;
    field_of "Created" mrCreated ].
#[export] Instance inviteRow_reflect : Reflect inviteRow := reflect_struct
  [ field_of "ID" irID; field_of "Email" irEmail; field_of "Role" irRole; field_of "Expires" irExpires ].

#[export] Instance debugContext_reflect : Reflect debugContext := reflect_struct
  [ field_of "Service" dcService; field_of "Method" dcMethod; field_of "Route" dcRoute; field_of "From" dcFrom;
    field_of "To" dcTo; field_of "DominantErr" DominantErr; field_of "Version" dcVersion; field_of "P95" dcP95;
    field_of "P99" dcP99; field_of "Summary" Summary_ ].
#[export] Instance detailRange_reflect : Reflect detailRange := reflect_struct
  [ field_of "Custom" Custom; field_of "Label" Label; field_of "ResetHref" ResetHref;
    field_of "ZoomOutHref" ZoomOutHref; field_of "PanLeftHref" PanLeftHref; field_of "PanRightHref" PanRightHref ].

(** ** The chrome (chrome.go) *)

#[export] Instance navItem_reflect : Reflect navItem := reflect_struct
  [ field_of "Label" nLabel; field_of "Icon" nIcon; field_of "Href" nHref; field_of "Badge" nBadge;
    field_of "Active" nActive ].
#[export] Instance crumb_reflect : Reflect crumb := reflect_struct
  [ field_of "Label" crLabel; field_of "Href" crHref ].
#[export] Instance windowOption_reflect : Reflect windowOption := reflect_struct
  [ field_of "Key" woKey; field_of "Href" woHref; field_of "Active" woActive ].
#[export] Instance kpi_reflect : Reflect kpi := reflect_struct
  [ field_of "Label" kLabel; field_of "Value" kValue; field_of "Unit" kUnit; field_of "Sub" kSub;
    field_of "ColorClass" kColorClass ].
#[export] Instance statusBar_reflect : Reflect statusBar := reflect_struct
  [ field_of "Label" sbLabel; field_num Uint64 "Count" sbCount; field_of "Pct" sbPct;
    field_of "LabelClass" sbLabelClass; field_of "BarClass" sbBarClass ].
#[export] Instance onbStepView_reflect : Reflect onbStepView := reflect_struct
  [ field_of "Icon" ovIcon; field_of "DotClass" ovDotClass; field_of "LabelClass" ovLabelClass;
    field_of "Label" ovLabel; field_of "Sub" ovSub; field_of "Connector" ovConnector ].
#[export] Instance Shell_reflect : Reflect Pages.Shell := reflect_struct
  [ field_of "Org" shOrg; field_of "User" shUser; field_of "Role" shRole; field_of "AccountHref" shAccountHref;
    field_of "Nav" shNav; field_of "Crumbs" shCrumbs; field_of "PageTitle" shPageTitle;
    field_of "ShowControls" shShowControls; field_of "Windows" shWindows; field_of "WindowKey" shWindowKey;
    field_of "FlushLabel" shFlushLabel; field_of "KeyMask" shKeyMask; field_of "Live" shLive;
    field_of "LiveHref" shLiveHref ].

(** ** Verdict, diagnosis, onboarding *)

#[export] Instance verdictView_reflect : Reflect verdictView := reflect_struct
  [ field_of "Level" vLevel; field_of "DotClass" vDotClass; field_of "Headline" vHeadline;
    field_of "Qualifier" vQualifier; field_of "Sentence" vSentence; field_of "Open" vOpen ].
#[export] Instance topCauseView_reflect : Reflect topCauseView := reflect_struct
  [ field_of "Name" tcName; field_of "DotClass" tcDotClass; field_of "Confidence" tcConfidence;
    field_of "Summary" tcSummary; field_of "Evidence" tcEvidence; field_of "Falsifier" tcFalsifier;
    field_html "Chart" tcChart ].
#[export] Instance causeSummary_reflect : Reflect causeSummary := reflect_struct
  [ field_of "Name" csName; field_of "DotClass" csDotClass; field_of "Confidence" csConfidence ].
#[export] Instance diagnosisView_reflect : Reflect diagnosisView := reflect_struct
  [ field_of "Show" dgShow; field_of "TopCause" dgTopCause; field_of "Why" dgWhy; field_of "Scope" dgScope;
    field_of "Others" dgOthers ].
#[export] Instance ServiceOnboarding_reflect : Reflect ServiceOnboarding := reflect_struct
  [ field_of "Service" soService; field_of "Instance" soInstance;
    field_as "HandshakeAt" (reflect_struct time_fields) soAt ].
#[export] Instance handshakeView_reflect : Reflect handshakeView := reflect_struct
  [ field_of "Steps" hvSteps; field_of "Connected" hvConnected; field_of "Frozen" hvFrozen;
    field_of "Complete" hvComplete ].

(** ** Pages (template.go) *)

Record overviewData := mkOverviewData {
  ovShell : Pages.Shell; ovFrozen : bool; ovKPIs : list kpi; ovServices : list serviceRow.t; ovWindowLabel : string;
}.
#[export] Instance overviewData_reflect : Reflect overviewData := reflect_struct
  [ field_of "Shell" ovShell; field_of "Frozen" ovFrozen; field_of "KPIs" ovKPIs; field_of "Services" ovServices;
    field_of "WindowLabel" ovWindowLabel ].

Record endpointsData := mkEndpointsData {
  edShell : Pages.Shell; edService : string; edSort : string; edFrozen : bool; edKPIs : list kpi;
  edEndpoints : list endpointRow.t;
}.
#[export] Instance endpointsData_reflect : Reflect endpointsData := reflect_struct
  [ field_of "Shell" edShell; field_of "Service" edService; field_of "Sort" edSort; field_of "Frozen" edFrozen;
    field_of "KPIs" edKPIs; field_of "Endpoints" edEndpoints ].

#[export] Instance detailData_reflect : Reflect detailData := reflect_struct
  [ field_of "Shell" ddShell; field_of "Service" ddService; field_of "Method" ddMethod; field_of "Route" ddRoute;
    field_of "Detail" ddDetail; field_of "Verdict" ddVerdict; field_of "Stats" ddStats;
    field_of "StatusBars" ddStatusBars; field_of "Debug" ddDebug; field_of "Range" ddRange;
    field_html "TSChart" ddTSChart; field_html "HistChart" ddHistChart; field_of "Instances" ddInstances;
    field_of "Versions" ddVersions; field_of "Exemplars" ddExemplars; field_of "ClassLatency" ddClassLatency;
    field_as "ErrorClasses" (@reflect_slice _ errorClassRow_reflect) ddErrorClasses;
    field_as "NoStatusReasons" (@reflect_slice _ noStatusReasonRow_reflect) ddNoStatusReasons;
    field_of "Downstream" ddDownstream; field_of "Resources" ddResources; field_of "Diagnosis" ddDiagnosis ].

Record onboardingPage := mkOnboardingPage {
  opShell : Pages.Shell; opHandshake : handshakeView; opFrozen : bool; opRefresh : bool; opFramework : string;
}.
#[export] Instance onboardingPage_reflect : Reflect onboardingPage := reflect_struct
  [ field_of "Shell" opShell; field_of "Handshake" opHandshake; field_of "Frozen" opFrozen;
    field_of "Refresh" opRefresh; field_of "Framework" opFramework ].

#[export] Instance performancePage_reflect : Reflect performancePage := reflect_struct
  [ field_of "Shell" ppShell; field_of "HasData" ppHasData; field_of "Requests" ppRequests;
    field_of "Summaries" ppSummaries; field_of "Compression" ppCompression; field_of "IngestRate" ppIngestRate;
    field_of "QueryMs" ppQueryMs; field_of "WindowLabel" ppWindowLabel; field_of "WindowShort" ppWindowShort;
    field_of "RawDisk" ppRawDisk; field_of "SummaryDisk" ppSummaryDisk; field_of "SummaryBarPct" ppSummaryBarPct;
    field_of "Ratio" ppRatio; field_num Int "RawEventBytes" ppRawEventBytes; field_of "Tiers" ppTiers ].

#[export] Instance setupPage_reflect : Reflect setupPage := reflect_struct
  [ field_of "Shell" spShell; field_of "Handshake" spHandshake; field_of "Frozen" spFrozen;
    field_of "ShowKeys" spShowKeys; field_of "Keys" spKeys; field_of "NewToken" spNewToken;
    field_of "CSRFToken" spCSRFToken; field_of "Refresh" spRefresh; field_of "ShowTeam" spShowTeam;
    field_of "IsAdmin" spIsAdmin; field_num Int "SeatUsed" spSeatUsed; field_num Int "SeatLimit" spSeatLimit;
    field_of "Members" spMembers; field_of "Invites" spInvites; field_of "InviteURL" spInviteURL;
    field_of "TeamError" spTeamError ].

(** The page of [renderShellContent]. *)
Record shellContent := mkShellContent { scShell : Pages.Shell; scTitle : string; scContent : string }.
#[export] Instance shellContent_reflect : Reflect shellContent := reflect_struct
  [ field_of "Shell" scShell; field_of "Title" scTitle; field_html "Content" scContent ].

(** ** The sign-in pages (auth/handlers.go) and the documentation (docs/render.go) *)

Record loginData := mkLoginData { lgGitHub : bool; lgGoogle : bool; lgDevLogin : bool; lgNext : string }.
#[export] Instance loginData_reflect : Reflect loginData := reflect_struct
  [ field_of "GitHub" lgGitHub; field_of "Google" lgGoogle; field_of "DevLogin" lgDevLogin; field_of "Next" lgNext ].

Record interstitialData := mkInterstitialData { inToken : string; inNext : string }.
#[export] Instance interstitialData_reflect : Reflect interstitialData := reflect_struct
  [ field_of "Token" inToken; field_of "Next" inNext ].

#[export] Instance navLink_reflect : Reflect navLink := reflect_struct
  [ field_of "Title" nl_Title; field_of "Href" nl_Href; field_of "Active" Docs.Active ].
#[export] Instance navGroup_reflect : Reflect navGroup := reflect_struct
  [ field_of "Group" ng_Group; field_of "Items" Items ].

Record shellData := mkShellData { sdTitle : string; sdBody : string; sdHeader : string; sdGroups : list navGroup }.
#[export] Instance shellData_reflect : Reflect shellData := reflect_struct
  [ field_of "Title" sdTitle; field_html "Body" sdBody; field_html "Header" sdHeader; field_of "Groups" sdGroups ].
Record appData := mkAppData { adBody : string; adGroups : list navGroup }.
#[export] Instance appData_reflect : Reflect appData := reflect_struct
  [ field_html "Body" adBody; field_of "Groups" adGroups ].

(** ** Functions (templates.go, template.go) *)

Section funcs.
Context `{CaseTable}.

(** [initials]: the first two letters of one word, the first letters of the first and the
    last of several. *)
Definition initials (name : string) : string :=
  match Fields name with
  | [] => "?"
  | [w] => ToUpperRunes (take 2 w)
  | w :: ws => ToUpperRunes (take 1 w ++ take 1 (default [] (last ws)))
  end.

Definition fmtFloat (x : f64) (prec : nat) : string := format_f x prec.

Definition templateFuncs : list (string * gofunc) :=
  [ ("pct", FFloat (λ f, fmtFloat (f * 100)%float 2 +++ "%"));
    ("ms", FFloat (λ seconds, fmtFloat (seconds * 1000)%float 1 +++ " ms"));
    ("rate", FFloat (λ r, fmtFloat r 2 +++ "/s"));
    ("msf", FFloat fmtMsFull); ("msv", FFloat fmtMsVal); ("msu", FFloat fmtMsUnit);
    ("pctd", FFloat fmtPctD); ("rated", FFloat fmtRate); ("bytes", FFloat fmtBytes);
    ("fmtCores", FFloat fmtCores); ("errc", FFloat errClass); ("p99c", FFloat p99Class);
    ("hc", FFloat healthClass); ("mcls", FString methodClass); ("codec", FNum Uint32 codeClass);
    ("barc", FString classBarClass); ("initials", FString initials) ]%string.
End funcs.

Example initials_two : @initials {| upper_rune r := r |} "mAPI ng"%string = "MN"%string.
Proof. vm_compute. reflexivity. Qed.
Example initials_one : @initials {| upper_rune r := r |} "dev"%string = "DE"%string.
Proof. vm_compute. reflexivity. Qed.
Example initials_none : @initials {| upper_rune r := r |} "  "%string = "?"%string.
Proof. vm_compute. reflexivity. Qed.
