(* ===== verification/Render.v ===== *)
(** * Rendering: the pages as HTML (server/internal/web, server/internal/auth, server/docs)

    The template texts are parsed and escaped once, as the handlers do at start-up; a page is
    the execution of a named template on its data. Every page runs to its end, and in every
    page the data is confined to the text and the attribute values it was meant for. *)

From Stdlib Require Import ZArith Lia Ascii.
From Stdlib Require String.
From stdpp Require Import base option strings list.
From S2P Require Import Prelude GoString GoUrl GoRunes GoHtml GoTemplate HtmlEscape Markup Templates Storage Views Chart ChartMarkup Range Verdict Diagnosis Pages Dashboard Auth Docs ViewData.

Local Open Scope Z_scope.
Local Open Scope go_scope.

(** ** From text to an executable set (template.Must, parseTemplates) *)

(** A file of definitions, and a text that is one template. *)
Definition prepare (text : string) : result string (list (string * tree)) :=
  match ParseDefinitions text with
  | Some defs => escape_templates defs
  | None => Err "parse error"%string
  end.
Definition prepare_one (name text : string) : result string (list (string * tree)) :=
  match Parse text with
  | Some t => escape_templates [(name, t)]
  | None => Err "parse error"%string
  end.

Definition parseTemplates : result string (list (string * tree)) := prepare templatesHTML.
Definition loginPage : result string (list (string * tree)) := prepare_one "login" loginPage_text.
Definition interstitialPage : result string (list (string * tree)) := prepare_one "interstitial" interstitialPage_text.
Definition shellTmpl : result string (list (string * tree)) := prepare_one "doc" shellTmpl_text.
Definition appTmpl : result string (list (string * tree)) := prepare_one "docapp" appTmpl_text.

(** The depth of calls the pages need; Go allows 100000. *)
Definition call_depth : nat := 3.

(** The prepared sets, computed. *)
Definition compiled (r : result string (list (string * tree))) : list (string * tree) :=
  match r with Ok defs => defs | Err _ => [] end.
Definition web_set : list (string * tree) := Eval vm_compute in compiled parseTemplates.
Definition login_set : list (string * tree) := Eval vm_compute in compiled loginPage.
Definition interstitial_set : list (string * tree) := Eval vm_compute in compiled interstitialPage.
Definition doc_set : list (string * tree) := Eval vm_compute in compiled shellTmpl.
Definition docapp_set : list (string * tree) := Eval vm_compute in compiled appTmpl.

(** The texts parse, and every action stands in a context [html/template] can escape. *)
Lemma web_prepared : parseTemplates = Ok web_set.
Proof. vm_compute. reflexivity. Qed.
Lemma auth_prepared : loginPage = Ok login_set ∧ interstitialPage = Ok interstitial_set.
Proof. split; vm_compute; reflexivity. Qed.
Lemma docs_prepared : shellTmpl = Ok doc_set ∧ appTmpl = Ok docapp_set.
Proof. split; vm_compute; reflexivity. Qed.

(** ** Pages *)

Section render.
Context `{CaseTable}.

(** A page: a prepared set, the template to run, and its data. *)
Record html_page := mkHtml {
  hp_set : result string (list (string * tree)); hp_funcs : list (string * gofunc); hp_name : string; hp_data : value;
}.
Definition execute (depth : nat) (p : html_page) : exec_result (list chunk) :=
  let? defs := hp_set p in ExecuteTemplate (hp_funcs p) depth defs (hp_name p) (hp_data p).

Definition web_page {A} `{Reflect A} (name : string) (a : A) : html_page :=
  mkHtml parseTemplates templateFuncs name (to_value a).

(** What the dashboard's handlers render; the other bodies are text, JSON and scripts. *)
Definition dashboard_html (p : Dashboard.page) : option html_page :=
  match p with
  | OverviewPage shell frozen kpis services label =>
      Some (web_page "overview" (mkOverviewData shell frozen kpis services label))
  | EndpointsPage shell service sort frozen kpis rows =>
      Some (web_page "endpoints" (mkEndpointsData shell service sort frozen kpis rows))
  | DetailPage d => Some (web_page "detail" d)
  | PerformancePage p => Some (web_page "performance" p)
  | OnboardingPage shell hv frozen refresh framework =>
      Some (web_page "onboarding" (mkOnboardingPage shell hv frozen refresh framework))
  | SetupPage p => Some (web_page "setup" p)
  | StepperFragment hv => Some (web_page "handshake-stepper" hv)
  | ShellPage shell title content => Some (web_page "shellpage" (mkShellContent shell title content))
  | Dashboard.Text _ | SeriesJSON _ | HistogramJSON _ | InstancesJSON _ | Script _ => None
  end.

Definition auth_html (p : Auth.page) : option html_page :=
  match p with
  | LoginPage github google dev next =>
      Some (mkHtml loginPage [] "login" (to_value (mkLoginData github google dev next)))
  | KeyPage token next => Some (mkHtml interstitialPage [] "interstitial" (to_value (mkInterstitialData token next)))
  | Auth.Text _ | JSONError _ => None
  end.

Definition docs_html (p : doc_page) : option html_page :=
  match p with
  | Docs.Shell title body rail header => Some (mkHtml shellTmpl [] "doc" (to_value (mkShellData title body header rail)))
  | Message _ => None
  end.
Definition fragment_html (body : string) (rail : list navGroup) : html_page :=
  mkHtml appTmpl [] "docapp" (to_value (mkAppData body rail)).

(** *** Every page is checked *)

(** A template of a prepared set, checked against the type of its data and followed from
    text to text. *)
Definition checked (set : list (string * tree)) (funcs : list (string * gofunc)) (name : string) (t : ty) : bool :=
  template_typed funcs call_depth set name t && template_tracked call_depth set name.

Local Notation web_ok := (checked web_set templateFuncs).
Lemma web_checked :
  (web_ok "overview" (go_type overviewData) = true ∧ web_ok "endpoints" (go_type endpointsData) = true
   ∧ web_ok "detail" (go_type detailData) = true ∧ web_ok "performance" (go_type performancePage) = true)
  ∧ (web_ok "onboarding" (go_type onboardingPage) = true ∧ web_ok "setup" (go_type setupPage) = true
   ∧ web_ok "handshake-stepper" (go_type handshakeView) = true ∧ web_ok "shellpage" (go_type shellContent) = true).
Proof. repeat split; vm_compute; reflexivity. Qed.
Lemma auth_checked :
  checked login_set [] "login" (go_type loginData) && checked interstitial_set [] "interstitial" (go_type interstitialData) = true.
Proof. vm_compute. reflexivity. Qed.
Lemma docs_checked :
  checked doc_set [] "doc" (go_type shellData) && checked docapp_set [] "docapp" (go_type appData) = true.
Proof. vm_compute. reflexivity. Qed.

(** *** Pages and their trusted parts *)

(** The [template.HTML] values a page carries. *)
Definition dashboard_trusted (p : Dashboard.page) : list string :=
  match p with
  | DetailPage d => [ddTSChart d; ddHistChart d; tcChart (dgTopCause (ddDiagnosis d))]
  | ShellPage _ _ content => [content]
  | _ => []
  end.
Definition docs_trusted (p : doc_page) : list string :=
  match p with Docs.Shell _ body _ header => [body; header] | Message _ => [] end.

(** An HTML page with its trusted parts. *)
Inductive served : html_page → list string → Prop :=
  | served_web p hp : dashboard_html p = Some hp → served hp (dashboard_trusted p)
  | served_auth p hp : auth_html p = Some hp → served hp []
  | served_docs p hp : docs_html p = Some hp → served hp (docs_trusted p)
  | served_fragment body rail : served (fragment_html body rail) [body].

Section good.
Context (P : string → Prop).

Lemma good_detail d : Forall P (dashboard_trusted (DetailPage d)) → markup_good P d.
Proof.
  intros [Hts [Hh [Hc _]%Forall_cons]%Forall_cons]%Forall_cons. apply struct_good_fields.
  apply Forall_cons_2; [exact Hts|]. apply Forall_cons_2; [exact Hh|]. apply Forall_cons_2; [|apply Forall_nil_2].
  apply struct_good_fields. apply Forall_cons_2; [|apply Forall_nil_2].
  apply struct_good_fields. apply Forall_cons_2; [exact Hc|apply Forall_nil_2].
Qed.
Lemma good_content d : P (scContent d) → markup_good P d.
Proof. intros Hc. apply struct_good_fields, Forall_cons_2; [exact Hc|apply Forall_nil_2]. Qed.
Lemma good_doc d : P (sdBody d) → P (sdHeader d) → markup_good P d.
Proof. intros Hb Hh. apply struct_good_fields. apply Forall_cons_2; [exact Hb|]. apply Forall_cons_2; [exact Hh|apply Forall_nil_2]. Qed.
Lemma good_app d : P (adBody d) → markup_good P d.
Proof. intros Hb. apply struct_good_fields, Forall_cons_2; [exact Hb|apply Forall_nil_2]. Qed.

(** Which page was asked for, without evaluating its templates. *)
Ltac page_inv Hp :=
  lazymatch type of Hp with
  | None = _ => discriminate Hp
  | _ => apply Some_inj in Hp; destruct Hp
  end.

(** A page is a checked template on data of the type it was checked against. *)
Definition checked_page (hp : html_page) : Prop :=
  ∃ set t, hp_set hp = Ok set ∧ checked set (hp_funcs hp) (hp_name hp) t = true ∧ has_type P t (hp_data hp).

Lemma checked_intro {A} `{Reflect A} r set funcs name (a : A) :
  r = Ok set → checked set funcs name (go_type A) = true → markup_good P a →
  checked_page (mkHtml r funcs name (to_value a)).
Proof. intros Hr Hc Hg. exists set, (go_type A). split; [exact Hr|]. split; [exact Hc|]. by apply reflect_typed. Qed.

Lemma checked_free {A} `{Reflect A} r set funcs name (a : A) :
  r = Ok set → checked set funcs name (go_type A) = true → html_free (go_type A) = true →
  checked_page (mkHtml r funcs name (to_value a)).
Proof. intros Hr Hc Hf. apply (checked_intro r set); [done..|]. by apply reflect_free. Qed.

Lemma dashboard_checked p hp :
  dashboard_html p = Some hp → Forall P (dashboard_trusted p) → checked_page hp.
Proof.
  pose proof web_checked as [(Hov & Hen & Hde & Hpe) (Hon & Hse & Hst & Hsh)].
  intros Hp HP. destruct p; cbn [dashboard_html] in Hp; page_inv Hp.
  - exact (checked_free _ _ _ _ _ web_prepared Hov eq_refl).
  - exact (checked_free _ _ _ _ _ web_prepared Hen eq_refl).
  - exact (checked_intro _ _ _ _ _ web_prepared Hde (good_detail _ HP)).
  - exact (checked_free _ _ _ _ _ web_prepared Hpe eq_refl).
  - exact (checked_free _ _ _ _ _ web_prepared Hon eq_refl).
  - exact (checked_free _ _ _ _ _ web_prepared Hse eq_refl).
  - exact (checked_free _ _ _ _ _ web_prepared Hst eq_refl).
  - apply Forall_cons in HP as [HP _]. exact (checked_intro _ _ _ _ _ web_prepared Hsh (good_content (mkShellContent shell title content) HP)).
Qed.

Lemma served_checked hp parts : served hp parts → Forall P parts → checked_page hp.
Proof.
  pose proof auth_checked as [Hlg Hin]%andb_true_iff. pose proof docs_checked as [Hdoc Happ]%andb_true_iff.
  destruct 1 as [p hp Hp|p hp Hp|p hp Hp|body rail]; intros HP.
  - by apply (dashboard_checked p).
  - destruct p; cbn [auth_html] in Hp; page_inv Hp.
    + exact (checked_free _ _ _ _ _ (proj1 auth_prepared) Hlg eq_refl).
    + exact (checked_free _ _ _ _ _ (proj2 auth_prepared) Hin eq_refl).
  - destruct p; cbn [docs_html] in Hp; page_inv Hp. apply Forall_cons in HP as [Hb [Hh _]%Forall_cons].
    exact (checked_intro _ _ _ _ _ (proj1 docs_prepared) Hdoc (good_doc (mkShellData title body header rail) Hb Hh)).
  - apply Forall_cons in HP as [Hb _].
    exact (checked_intro _ _ _ _ _ (proj2 docs_prepared) Happ (good_app (mkAppData body rail) Hb)).
Qed.
End good.

Lemma served_runs P hp parts depth :
  served hp parts → Forall P parts → (call_depth ≤ depth)%nat →
  ∃ cs, execute depth hp = Ok cs ∧ Forall (chunk_ok P) cs ∧ follows [HText] [HText] (Ok cs).
Proof.
  intros Hs HP Hd. destruct (served_checked P hp parts Hs HP) as (set & t & Hset & [Ht Htr]%andb_true_iff & Hty).
  unfold execute. rewrite Hset. cbn [result_bind].
  destruct (ExecuteTemplate_sound _ P call_depth depth set (hp_name hp) t (hp_data hp) Hd Ht Hty) as (cs & Hcs & Hok).
  exists cs. split; [done|]. split; [done|]. rewrite <-Hcs. by eapply ExecuteTemplate_tracked.
Qed.
End render.
