(* ===== verification/Migrations.v ===== *)
(** * Schema migrations (server/internal/storage/migrate.go, server/internal/control/store.go)

    How both stores bring their schema up at every start: the files of a directory in
    lexical order, a ClickHouse file split into statements, a Postgres file executed whole.
    The directory, the files and the database are parameters. The run is proved to refine
    a plan computed before anything is executed. *)

From Stdlib Require Import ZArith Lia Ascii.
From Stdlib Require String.
From stdpp Require Import base option sets strings list sorting.
From S2P Require Import Prelude GoString.

(** ** Splitting a file into statements *)

(** [strings.Index]: [None] for -1. *)
Fixpoint index_of (p l : list ascii) : option nat :=
  if hasPrefix_bytes p l then Some O
  else match l with [] => None | _ :: l => S <$> index_of p l end.
Definition Index (s sub : string) : option nat := index_of (bytes_of sub) (bytes_of s).

Definition newline : ascii := "010"%char.
Definition semicolon : ascii := ";"%char.
Definition dash : ascii := "-"%char.

(** [ln] without its line comment. *)
Definition strip_comment (ln : string) : string :=
  match Index ln "--" with Some i => str_take i ln | None => ln end.

Definition clean (sql : string) : string :=
  str_concat ((λ ln, str_app (strip_comment ln) (of_bytes [newline])) <$> Split sql newline).

Definition splitStatements (sql : string) : list string :=
  filter (λ stmt, stmt ≠ ""%string) (TrimSpace <$> Split (clean sql) semicolon).

(** ** Applying them *)

Inductive migrate_error :=
  | EReadDir (dir : string)
  | EReadFile (dir name : string)
  | EApply (dir name : string) (stmt : nat).

(** A directory listing: names, and whether each is a directory itself. *)
Record FS := mkFS {
  ReadDir : string → option (list (string * bool));
  ReadFile : string → option string;
}.

Section apply.
Context {D : Type} (Exec : D → string → bool * D).

(** The statements of one file, numbered from [i]. *)
Fixpoint exec_statements (dir name : string) (i : nat) (l : list string) (d : D)
  : result migrate_error unit * D :=
  match l with
  | [] => (Ok tt, d)
  | stmt :: l =>
      let '(ok, d) := Exec d stmt in
      if ok : bool then exec_statements dir name (S i) l d else (Err (EApply dir name i), d)
  end.

(** The files in turn; [statements] is what a file's text is cut into. *)
Fixpoint apply_files (statements : string → list string) (fs : FS) (dir : string)
  (names : list string) (d : D) : result migrate_error unit * D :=
  match names with
  | [] => (Ok tt, d)
  | name :: names =>
      match ReadFile fs (str_app dir (str_app "/" name)) with
      | None => (Err (EReadFile dir name), d)
      | Some sql =>
          match exec_statements dir name 1 (statements sql) d with
          | (Err e, d) => (Err e, d)
          | (Ok _, d) => apply_files statements fs dir names d
          end
      end
  end.

(** [storage.ApplyMigrations]. *)
Definition ApplyMigrations (fs : FS) (d : D) : result migrate_error unit * D :=
  let dir := "migrations/clickhouse"%string in
  match ReadDir fs dir with
  | None => (Err (EReadDir dir), d)
  | Some entries =>
      let names := sort_Strings (filter (λ e, e.2 = false) entries).*1 in
      apply_files splitStatements fs dir names d
  end.

(** [control.applyMigrationSource]: one [Exec] for the whole text of each [.sql] file. *)
Definition applyMigrationSource (src : FS * string) (d : D) : result migrate_error unit * D :=
  let '(fs, dir) := src in
  match ReadDir fs dir with
  | None => (Err (EReadDir dir), d)
  | Some entries =>
      let names := sort_Strings (filter (λ e, e.2 = false ∧ HasSuffix e.1 ".sql" = true) entries).*1 in
      apply_files (λ sql, [sql]) fs dir names d
  end.

Fixpoint apply_sources (sources : list (FS * string)) (d : D) : result migrate_error unit * D :=
  match sources with
  | [] => (Ok tt, d)
  | src :: sources =>
      match applyMigrationSource src d with
      | (Err e, d) => (Err e, d)
      | (Ok _, d) => apply_sources sources d
      end
  end.

(** [control.applyMigrations]: the embedded schema first, then the extra sources. *)
Definition applyMigrations (embedded : FS) (extra : list (FS * string)) (d : D)
  : result migrate_error unit * D :=
  apply_sources ((embedded, "migrations/postgres"%string) :: extra) d.

(** *** The plan *)

(** A statement to execute, with the error of its refusal, or a read that fails. *)
Inductive planned := Run (e : migrate_error) (stmt : string) | Stop (e : migrate_error).

Fixpoint run_plan (p : list planned) (d : D) : result migrate_error unit * D :=
  match p with
  | [] => (Ok tt, d)
  | Run e stmt :: p => let '(ok, d) := Exec d stmt in if ok : bool then run_plan p d else (Err e, d)
  | Stop e :: _ => (Err e, d)
  end.

(** The database took every statement, in order. *)
Inductive accepted : D → list string → D → Prop :=
  | accepted_nil d : accepted d [] d
  | accepted_cons d stmt d1 l d2 : Exec d stmt = (true, d1) → accepted d1 l d2 → accepted d (stmt :: l) d2.

Lemma run_plan_app p q d :
  run_plan (p ++ q) d = match run_plan p d with (Err e, d) => (Err e, d) | (Ok _, d) => run_plan q d end.
Proof.
  revert d. induction p as [|[e stmt|e] p IH]; intros d; cbn; [done| |done].
  destruct (Exec d stmt) as [[] d1]; [apply IH|done].
Qed.
End apply.

Definition statements_of (dir name : string) (i : nat) (l : list string) : list planned :=
  imap (λ j stmt, Run (EApply dir name (i + j)) stmt) l.

Definition file_plan (statements : string → list string) (fs : FS) (dir name : string) : list planned :=
  match ReadFile fs (str_app dir (str_app "/" name)) with
  | None => [Stop (EReadFile dir name)]
  | Some sql => statements_of dir name 1 (statements sql)
  end.

Definition dir_plan (statements : string → list string) (pick : string * bool → Prop) `{∀ e, Decision (pick e)}
  (src : FS * string) : list planned :=
  match ReadDir src.1 src.2 with
  | None => [Stop (EReadDir src.2)]
  | Some entries => sort_Strings (filter pick entries).*1 ≫= file_plan statements src.1 src.2
  end.

(** What a start executes against each store. *)
Definition clickhouse_plan (fs : FS) : list planned :=
  dir_plan splitStatements (λ e, e.2 = false) (fs, "migrations/clickhouse"%string).
Definition postgres_plan (embedded : FS) (extra : list (FS * string)) : list planned :=
  ((embedded, "migrations/postgres"%string) :: extra) ≫=
    dir_plan (λ sql, [sql]) (λ e, e.2 = false ∧ HasSuffix e.1 ".sql" = true).

Section refine.
Context {D : Type} (Exec : D → string → bool * D).

Lemma exec_statements_plan dir name i l d :
  exec_statements Exec dir name i l d = run_plan Exec (statements_of dir name i l) d.
Proof.
  unfold statements_of. revert i d. induction l as [|stmt l IH]; intros i d; [done|].
  cbn [exec_statements imap run_plan]. rewrite Nat.add_0_r. destruct (Exec d stmt) as [[] d1]; [|done].
  rewrite IH. f_equal. apply imap_ext. intros j s _. cbn. by rewrite Nat.add_succ_r.
Qed.

Lemma apply_files_plan statements fs dir names d :
  apply_files Exec statements fs dir names d = run_plan Exec (names ≫= file_plan statements fs dir) d.
Proof.
  revert d. induction names as [|name names IH]; intros d; [done|].
  cbn [apply_files mbind list_bind]. rewrite run_plan_app. unfold file_plan at 1.
  destruct (ReadFile fs _) as [sql|]; [|done]. rewrite <-exec_statements_plan.
  destruct (exec_statements Exec dir name 1 (statements sql) d) as [[[]|e] d1]; [apply IH|done].
Qed.

Lemma ApplyMigrations_plan fs d : ApplyMigrations Exec fs d = run_plan Exec (clickhouse_plan fs) d.
Proof.
  unfold ApplyMigrations, clickhouse_plan, dir_plan. cbn [fst snd].
  destruct (ReadDir fs _) as [entries|]; [apply apply_files_plan|done].
Qed.

Lemma apply_sources_plan sources d :
  apply_sources Exec sources d =
  run_plan Exec (sources ≫= dir_plan (λ sql, [sql]) (λ e, e.2 = false ∧ HasSuffix e.1 ".sql" = true)) d.
Proof.
  revert d. induction sources as [|[fs dir] sources IH]; intros d; [done|].
  cbn [apply_sources mbind list_bind]. rewrite run_plan_app.
  replace (run_plan Exec (dir_plan _ _ (fs, dir)) d) with (applyMigrationSource Exec (fs, dir) d).
  { destruct (applyMigrationSource Exec (fs, dir) d) as [[[]|e] d1]; [apply IH|done]. }
  unfold applyMigrationSource, dir_plan. cbn [fst snd].
  destruct (ReadDir fs dir) as [entries|]; [apply apply_files_plan|done].
Qed.

(** A plan runs to its end or stops at the first step that fails, and executes nothing
    after it. *)
Lemma run_plan_outcome p d :
  match run_plan Exec p d with
  | (Ok _, d') => ∃ l, Forall2 (λ s stmt, ∃ e, s = Run e stmt) p l ∧ accepted Exec d l d'
  | (Err e, d') => ∃ q s r l d1, p = q ++ s :: r ∧ Forall2 (λ s stmt, ∃ e, s = Run e stmt) q l ∧
      accepted Exec d l d1 ∧
      match s with
      | Run e' stmt => e = e' ∧ Exec d1 stmt = (false, d')
      | Stop e' => e = e' ∧ d' = d1
      end
  end.
Proof.
  revert d. induction p as [|[e stmt|e] p IH]; intros d; cbn.
  - exists []. split; constructor.
  - destruct (Exec d stmt) as [[] d1] eqn:E.
    + specialize (IH d1). destruct (run_plan Exec p d1) as [[[]|e'] d'].
      * destruct IH as (l & Hl & Ha). exists (stmt :: l). split; [constructor; [by eexists|done]|].
        by econstructor.
      * destruct IH as (q & s & r & l & d2 & -> & Hl & Ha & Hs). exists (Run e stmt :: q), s, r, (stmt :: l), d2.
        split; [done|]. split; [constructor; [by eexists|done]|]. split; [by econstructor|done].
    + exists [], (Run e stmt), p, [], d. split_and!; try done; constructor.
  - exists [], (Stop e), p, [], d. split_and!; try done; constructor.
Qed.

(** A schema statement that was accepted stays in force and is a no-op from then on. *)
Lemma rerun_noop (inforce : string → D → Prop) p d d1 :
  (∀ d stmt d', Exec d stmt = (true, d') → inforce stmt d' ∧ ∀ s, inforce s d → inforce s d') →
  (∀ d stmt, inforce stmt d → Exec d stmt = (true, d)) →
  run_plan Exec p d = (Ok tt, d1) → run_plan Exec p d1 = (Ok tt, d1).
Proof.
  intros Hkeep Hnoop Hp.
  assert (Hg : ∀ d, run_plan Exec p d = (Ok tt, d1) →
    (∀ s, inforce s d → inforce s d1) ∧
    Forall (λ st, match st with Run _ stmt => inforce stmt d1 | Stop _ => False end) p).
  { clear Hp d. induction p as [|[e stmt|e] p IH]; intros d Hr; cbn in Hr; [|destruct (Exec d stmt) as [[] d2] eqn:E|]; try done.
    - injection Hr as ->. split; [done|constructor].
    - destruct (IH _ Hr) as [H1 H2]. destruct (Hkeep _ _ _ E) as [Hs Hm]. split; [auto|].
      constructor; auto. }
  destruct (Hg _ Hp) as [_ Hall]. clear Hg Hp. induction Hall as [|[e stmt|e] p Hs Hall IH]; cbn; try done.
  by rewrite (Hnoop _ _ Hs).
Qed.
End refine.

(** *** Lexical order *)

Lemma in_order_unique l l' : in_order String.ltb l → in_order String.ltb l' → l ≡ₚ l' → l = l'.
Proof.
  assert (Anti : AntiSymm (=) (λ x y, String.ltb y x = false)).
  { intros x y H1 H2. by apply str_ltb_total. }
  intros H1 H2 Hp. by apply (StronglySorted_unique (λ x y, String.ltb y x = false)).
Qed.

Lemma sort_Strings_in_order l : in_order String.ltb (sort_Strings l).
Proof. apply sort_stable_sorted; [exact str_ltb_asym | exact str_nltb_trans]. Qed.

(** The order in which a directory lists its files does not matter. *)
Lemma sort_Strings_perm l l' : l ≡ₚ l' → sort_Strings l = sort_Strings l'.
Proof.
  intros Hp. apply in_order_unique; [apply sort_Strings_in_order..|]. unfold sort_Strings.
  by rewrite !sort_stable_perm.
Qed.

(** *** Splitting *)

Lemma hasPrefix_bytes_mono p l k : hasPrefix_bytes p l = true → hasPrefix_bytes p (l ++ k) = true.
Proof. rewrite !hasPrefix_bytes_spec. intros [r ->]. exists (r ++ k). by rewrite app_assoc. Qed.

Lemma index_of_cons p a l :
  index_of p (a :: l) = if hasPrefix_bytes p (a :: l) then Some O else S <$> index_of p l.
Proof. done. Qed.

Lemma index_of_app_l p l k : index_of p (l ++ k) = None → index_of p l = None.
Proof.
  induction l as [|a l IH]; cbn.
  - destruct p; [by destruct k|done].
  - destruct (hasPrefix_bytes p (a :: l)) eqn:E.
    + apply (hasPrefix_bytes_mono _ _ k) in E. cbn in E |- *. by rewrite E.
    + destruct (hasPrefix_bytes p (a :: l ++ k)); [done|]. rewrite !fmap_None. apply IH.
Qed.

Lemma index_of_app_r p l k : index_of p (l ++ k) = None → index_of p k = None.
Proof.
  induction l as [|a l IH]; [done|]. cbn. destruct (hasPrefix_bytes _ _); [done|]. rewrite fmap_None. apply IH.
Qed.

(** On bytes: a line without its comment, the text without comments. *)
Definition strip_bytes (l : list ascii) : list ascii :=
  match index_of [dash; dash] l with Some i => take i l | None => l end.
Definition clean_bytes (lines : list (list ascii)) : list ascii :=
  concat ((λ x, strip_bytes x ++ [newline]) <$> lines).

Lemma bytes_of_concat l : bytes_of (str_concat l) = concat (bytes_of <$> l).
Proof. induction l as [|s l IH]; [done|]. cbn. by rewrite bytes_of_app, IH. Qed.

Lemma bytes_of_clean sql : bytes_of (clean sql) = clean_bytes (split_bytes newline (bytes_of sql) []).
Proof.
  unfold clean, clean_bytes, Split. rewrite bytes_of_concat, <-!list_fmap_compose. f_equal.
  apply list_fmap_ext. intros i l _. cbn. rewrite bytes_of_app. f_equal.
  unfold strip_comment, strip_bytes, Index, str_take. rewrite bytes_of_of.
  change (bytes_of "--") with [dash; dash]. destruct (index_of _ l); [by rewrite !bytes_of_of|].
  apply bytes_of_of.
Qed.

Lemma clean_bytes_app l k : clean_bytes (l ++ k) = clean_bytes l ++ clean_bytes k.
Proof. unfold clean_bytes. by rewrite fmap_app, concat_app. Qed.

(** A text up to its last line, and that line, which more text continues. *)
Lemma split_bytes_last c l cur :
  ∃ front end_, split_bytes c l cur = front ++ [end_] ∧
    (∀ k, split_bytes c (l ++ k) cur = front ++ split_bytes c k (rev end_)) ∧
    end_ `suffix_of` rev cur ++ l.
Proof.
  revert cur. induction l as [|a l IH]; intros cur; cbn.
  - exists [], (rev cur). rewrite rev_involutive, app_nil_r. split_and!; done.
  - case_decide as Ha.
    + destruct (IH []) as (front & end_ & H1 & H2 & H3). exists (rev cur :: front), end_.
      rewrite H1. split; [done|]. split; [intros k; by rewrite H2|].
      cbn in H3. apply suffix_app_r. by apply suffix_cons_r.
    + destruct (IH (a :: cur)) as (front & end_ & H1 & H2 & H3). exists front, end_. split; [done|].
      split; [exact H2|]. cbn in H3. by rewrite <-app_assoc in H3.
Qed.

Lemma strip_bytes_comment l c : last l ≠ Some dash → strip_bytes (l ++ dash :: dash :: c) = strip_bytes l.
Proof.
  intros Hl. unfold strip_bytes.
  assert (Hi : index_of [dash; dash] (l ++ dash :: dash :: c) =
               Some (default (length l) (index_of [dash; dash] l)) ∧
               (∀ i, index_of [dash; dash] l = Some i → (i ≤ length l)%nat)).
  { induction l as [|a l IH]; [done|]. destruct l as [|b l].
    - cbn. assert (a ≠ dash) by (intros ->; done). rewrite bool_decide_false by done. done.
    - assert (last (b :: l) ≠ Some dash) as Hl' by done. destruct (IH Hl') as [H1 H2]. clear IH.
      change ((a :: b :: l) ++ dash :: dash :: c) with (a :: (b :: l) ++ dash :: dash :: c).
      rewrite !(index_of_cons _ a). rewrite H1.
      replace (hasPrefix_bytes [dash; dash] (a :: (b :: l) ++ dash :: dash :: c))
        with (hasPrefix_bytes [dash; dash] (a :: b :: l)) by done.
      destruct (hasPrefix_bytes _ _); [split; [done|intros i [= <-]; lia]|].
      split; [by destruct (index_of _ (b :: l))|].
      intros i (j & Hj & ->)%fmap_Some. apply H2 in Hj. cbn in *. lia. }
  destruct Hi as [-> Hi]. destruct (index_of [dash; dash] l) as [i|]; cbn.
  - apply take_app_le. by apply Hi.
  - by rewrite take_app_length.
Qed.

Lemma clean_bytes_comment a c b :
  last a ≠ Some dash → newline ∉ c →
  clean_bytes (split_bytes newline (a ++ dash :: dash :: c ++ newline :: b) []) =
  clean_bytes (split_bytes newline (a ++ newline :: b) []).
Proof.
  intros Ha Hc. destruct (split_bytes_last newline a []) as (front & end_ & _ & Hs & Hend).
  rewrite !Hs, !clean_bytes_app. f_equal.
  change (dash :: dash :: c ++ newline :: b) with ((dash :: dash :: c) ++ newline :: b).
  rewrite split_bytes_app by (rewrite !not_elem_of_cons; by split_and!).
  cbn [split_bytes]. rewrite decide_True by done. rewrite rev_involutive.
  change (?x :: ?l) with ([x] ++ l). rewrite !clean_bytes_app. f_equal.
  unfold clean_bytes. cbn. rewrite !app_nil_r. f_equal. apply strip_bytes_comment.
  intros Hl. apply Ha. cbn in Hend. destruct Hend as [u ->]. by rewrite last_app, Hl.
Qed.

Lemma clean_bytes_plain l cur :
  index_of [dash; dash] (rev cur ++ l) = None →
  clean_bytes (split_bytes newline l cur) = rev cur ++ l ++ [newline].
Proof.
  revert cur. induction l as [|a l IH]; intros cur Hi; cbn [split_bytes].
  - rewrite app_nil_r in Hi. unfold clean_bytes, strip_bytes. cbn. by rewrite Hi, app_nil_r.
  - case_decide as Ha.
    + change (?x :: ?l) with ([x] ++ l) at 1. rewrite clean_bytes_app, IH.
      * unfold clean_bytes, strip_bytes. cbn. rewrite (index_of_app_l _ _ _ Hi), app_nil_r, <-app_assoc. by subst.
      * cbn. apply (index_of_app_r _ (rev cur ++ [a])). by rewrite <-app_assoc.
    + rewrite IH; cbn; by rewrite <-app_assoc.
Qed.

Lemma drop_while_app_all f l k : Forall (λ a, f a = true) l → drop_while f (l ++ k) = drop_while f k.
Proof. induction 1 as [|a l Ha _ IH]; cbn; [done|]. by rewrite Ha. Qed.

Lemma TrimSpace_newline s : TrimSpace (str_app s (of_bytes [newline])) = TrimSpace s.
Proof.
  unfold TrimSpace. f_equal. rewrite bytes_of_app, bytes_of_of. generalize (bytes_of s) as l.
  induction l as [|a l IH]; [done|]. cbn. destruct (is_space a); [exact IH|].
  unfold trim_right_bytes. cbn. by rewrite rev_app_distr.
Qed.

Lemma splitStatements_comment a c b :
  last (bytes_of a) ≠ Some dash → newline ∉ bytes_of c →
  splitStatements (str_app a (str_app "--" (str_app c (String.String newline b)))) =
  splitStatements (str_app a (String.String newline b)).
Proof.
  intros Ha Hc. unfold splitStatements. do 3 f_equal.
  rewrite <-(of_bytes_of (clean _)), <-(of_bytes_of (clean (str_app a (String.String newline b)))).
  rewrite !bytes_of_clean, !bytes_of_app. change (bytes_of (String.String newline b)) with (newline :: bytes_of b).
  change (bytes_of "--") with [dash; dash]. f_equal. by apply clean_bytes_comment.
Qed.

Lemma clean_plain sql : Index sql "--" = None → clean sql = str_app sql (of_bytes [newline]).
Proof.
  intros Hi. rewrite <-(of_bytes_of (clean sql)), bytes_of_clean, clean_bytes_plain by exact Hi.
  cbn [rev app]. by rewrite of_bytes_app, of_bytes_of.
Qed.

Lemma Split_Join_newline l :
  l ≠ [] → Forall (λ s, semicolon ∉ bytes_of s) l →
  TrimSpace <$> Split (str_app (Join l (of_bytes [semicolon])) (of_bytes [newline])) semicolon = TrimSpace <$> l.
Proof.
  intros Hl Hs. destruct (exists_last Hl) as (front & end_ & ->).
  assert (Hj : ∀ t, Join (front ++ [str_app end_ t]) (of_bytes [semicolon]) =
                    str_app (Join (front ++ [end_]) (of_bytes [semicolon])) t).
  { intros t. clear. induction front as [|s front IH]; [done|]. cbn [app].
    rewrite !Join_cons by (by destruct front). by rewrite IH, !str_app_assoc. }
  rewrite <-Hj, Split_Join.
  - rewrite !fmap_app. f_equal. cbn. by rewrite TrimSpace_newline.
  - by destruct front.
  - apply Forall_app in Hs as [? He]. rewrite Forall_singleton in He. apply Forall_app. split; [done|].
    apply Forall_singleton. rewrite bytes_of_app, not_elem_of_app, bytes_of_of. split; [done|]. by rewrite list_elem_of_singleton.
Qed.

(** ** Theorems *)

(** A schema file is cut where its author meant: a line comment is invisible wherever
    it stands, whatever is in it (a semicolon or a further dash included), and a text
    without comments gives back the statements it was joined from, trimmed, without the
    blank ones. *)
Theorem splitStatements_exact :
  (∀ a c b, last (bytes_of a) ≠ Some dash → newline ∉ bytes_of c →
    splitStatements (str_app a (str_app "--" (str_app c (String.String newline b)))) =
    splitStatements (str_app a (String.String newline b))) ∧
  (∀ l, l ≠ [] → Forall (λ s, semicolon ∉ bytes_of s) l → Index (Join l ";") "--" = None →
    splitStatements (Join l ";") = filter (λ s, s ≠ ""%string) (TrimSpace <$> l)).
Proof.
  split; [exact splitStatements_comment|]. intros l Hl Hs Hi. unfold splitStatements.
  rewrite clean_plain by done. f_equal. by apply Split_Join_newline.
Qed.

(** Both facts on a script: the comment holds a semicolon, as the embedded files do. *)
Definition toy_script : string :=
  str_app "CREATE TABLE a (x Int64)" (str_app "--" (str_app " rows; the coarser" (String.String newline "; ALTER TABLE a ADD COLUMN y Int64;"))).

Lemma splitStatements_exact_witness :
  splitStatements toy_script = ["CREATE TABLE a (x Int64)"; "ALTER TABLE a ADD COLUMN y Int64"]%string.
Proof.
  unfold toy_script. rewrite (proj1 splitStatements_exact); [|vm_compute; congruence|vm_compute; set_solver].
  change (str_app _ _) with (Join [str_app "CREATE TABLE a (x Int64)" (of_bytes [newline]);
    " ALTER TABLE a ADD COLUMN y Int64"; ""]%string ";").
  rewrite (proj2 splitStatements_exact); [reflexivity|discriminate| |reflexivity].
  repeat constructor; vm_compute; set_solver.
Defined.

(** The result of running a plan: everything was accepted, or the error is that of the
    first step that failed and nothing after it was executed. *)
Definition ran {D} (Exec : D → string → bool * D) (p : list planned) (d : D)
  (res : result migrate_error unit * D) : Prop :=
  match res with
  | (Ok _, d') => ∃ l, Forall2 (λ s stmt, ∃ e, s = Run e stmt) p l ∧ accepted Exec d l d'
  | (Err e, d') => ∃ q s r l d1, p = q ++ s :: r ∧ Forall2 (λ s stmt, ∃ e, s = Run e stmt) q l ∧
      accepted Exec d l d1 ∧
      match s with
      | Run e' stmt => e = e' ∧ Exec d1 stmt = (false, d')
      | Stop e' => e = e' ∧ d' = d1
      end
  end.

(** [C33] Both stores bring their schema up by the plan, whatever the database and the file
    system do: the data plane executes the statements of its files one at a time, the
    control plane the core files and then each extra source's, file by file; a start that
    succeeds has executed all of them in order, and one that fails reports the first
    statement refused or file unreadable, having executed exactly what is before it. *)
Theorem migrations_follow_the_plan {D} (Exec : D → string → bool * D) fs embedded extra d :
  ran Exec (clickhouse_plan fs) d (ApplyMigrations Exec fs d) ∧
  ran Exec (postgres_plan embedded extra) d (applyMigrations Exec embedded extra d).
Proof.
  rewrite ApplyMigrations_plan. unfold applyMigrations. rewrite apply_sources_plan.
  split; apply run_plan_outcome.
Qed.

(** The plan is in lexical order and does not depend on the order the files are listed in. *)
Theorem plan_is_lexical {statements pick} `{∀ e : string * bool, Decision (pick e)} src src' entries entries' :
  ReadDir src.1 src.2 = Some entries → ReadDir src'.1 src'.2 = Some entries' → entries ≡ₚ entries' →
  src.2 = src'.2 → ReadFile src.1 = ReadFile src'.1 →
  dir_plan statements pick src = dir_plan statements pick src' ∧
  in_order String.ltb (sort_Strings (filter pick entries).*1).
Proof.
  intros H1 H2 Hp Hd Hf. split; [|apply sort_Strings_in_order]. unfold dir_plan. rewrite H1, H2, Hd.
  rewrite (sort_Strings_perm (filter pick entries).*1 (filter pick entries').*1) by by rewrite Hp.
  unfold file_plan. by rewrite Hf.
Qed.

(** A restart is safe: over statements that stay in force once accepted and change
    nothing when they are in force already (CREATE ... IF NOT EXISTS and its like), a
    start that succeeded can be repeated, succeeds again, and leaves the schema as it is. *)
Theorem restart_is_safe {D} (Exec : D → string → bool * D) (inforce : string → D → Prop) fs embedded extra d d1 d2 :
  (∀ d stmt d', Exec d stmt = (true, d') → inforce stmt d' ∧ ∀ s, inforce s d → inforce s d') →
  (∀ d stmt, inforce stmt d → Exec d stmt = (true, d)) →
  (ApplyMigrations Exec fs d = (Ok tt, d1) → ApplyMigrations Exec fs d1 = (Ok tt, d1)) ∧
  (applyMigrations Exec embedded extra d = (Ok tt, d2) → applyMigrations Exec embedded extra d2 = (Ok tt, d2)).
Proof.
  intros Hkeep Hnoop. rewrite !ApplyMigrations_plan. unfold applyMigrations. rewrite !apply_sources_plan.
  split; by apply (rerun_noop Exec inforce).
Qed.

(** A schema as the list of the statements in force. *)
Definition schema_exec (d : list string) (stmt : string) : bool * list string :=
  (true, if decide (stmt ∈ d) then d else d ++ [stmt]).
Definition toy_fs : FS := mkFS
  (λ _, Some [("0002_b.sql", false); ("0001_a.sql", false); ("old", true)]%string)
  (λ f, if decide (f = "migrations/clickhouse/0001_a.sql"%string) then Some toy_script
        else if decide (f = "migrations/clickhouse/0002_b.sql"%string) then Some "CREATE TABLE b (z Int64)"%string
        else None).

Lemma restart_is_safe_witness :
  let schema := (["CREATE TABLE a (x Int64)"; "ALTER TABLE a ADD COLUMN y Int64"; "CREATE TABLE b (z Int64)"]%string) in
  ApplyMigrations schema_exec toy_fs [] = (Ok tt, schema) ∧
  ApplyMigrations schema_exec toy_fs schema = (Ok tt, schema).
Proof.
  cbv zeta. split; [vm_compute; reflexivity|].
  apply (restart_is_safe schema_exec elem_of toy_fs toy_fs [] []
    (["CREATE TABLE a (x Int64)"; "ALTER TABLE a ADD COLUMN y Int64"; "CREATE TABLE b (z Int64)"]%string) []).
  - intros d stmt d' [= <-]. case_decide; [done|]. split; [set_solver|]. intros s ?. set_solver.
  - intros d stmt Hs. unfold schema_exec. by rewrite decide_True.
  - vm_compute. reflexivity.
Defined.
