(* ===== verification/App.v ===== *)
(** * The composition root (server/app)

    The environment's configuration, the adapters between the control plane and the
    dashboard, the session gate in front of the dashboard's routes, and the assembly that
    decides which of them are mounted. The theorems run the assembled handler over the
    control plane of the file Control. *)

From Stdlib Require Import ZArith Lia Ascii.
From Stdlib Require String.
From stdpp Require Import base option gmap strings list.
From S2P Require Import Prelude GoString GoTime GoUrl Http Token Storage.
From S2P Require Import Docs.
From S2P Require Import Auth Guardrail Control Pages Dashboard Routes.

Local Open Scope Z_scope.
Local Open Scope go_scope.

(** ** Configuration (config.go) *)

Section config.
Context (getenv : string → string).

(** [random]: 32 fresh bytes, or the failure of the random source. *)
Definition sessionKey (requireStable : bool) (random : option string) : result string string :=
  let v := getenv "MAPING_SESSION_KEY" in
  if negb (bool_decide (v = ""%string)) then
    if (String.length v <? 32)%nat
    then Err (str_app "MAPING_SESSION_KEY must be >= 32 bytes, got " (Itoa (Z.of_nat (String.length v))))
    else Ok v
  else if requireStable
  then Err "MAPING_SESSION_KEY is required for an https deployment: an ephemeral key would drop every session on restart"%string
  else match random with
       | None => Err "generate session key"%string
       | Some key => Ok key
       end.

Definition defaultMaxBodyCeiling : Z := Z.shiftl 4 20.

Definition maxBodyCeiling : Z :=
  let v := getenv "MAPING_MAX_BODY_BYTES" in
  if bool_decide (v = ""%string) then defaultMaxBodyCeiling
  else match ParseInt v with
       | Some n => if n <=? 0 then defaultMaxBodyCeiling else n
       | None => defaultMaxBodyCeiling
       end.

Definition oidcConfigFromEnv (baseURL : string) : ProviderConfig :=
  mkProviderConfig (getenv "MAPING_OIDC_GITHUB_CLIENT_ID") (getenv "MAPING_OIDC_GITHUB_CLIENT_SECRET")
    (getenv "MAPING_OIDC_GOOGLE_CLIENT_ID") (getenv "MAPING_OIDC_GOOGLE_CLIENT_SECRET") baseURL.

Definition secureFromBaseURL (baseURL : string) : bool := HasPrefix baseURL "https://".
End config.

(** ** Adapters (deps.go) *)

(** The part of the control plane the dashboard adapts. *)
Record controlPlane (St : Type) := mkControlPlane {
  cpIssueKey : St → string → string → St * option string;
  cpListKeys : St → string → St * option (list Control.KeyInfo);
  cpRevokeKey : St → string → string → St * bool;
  cpOnboardingState : St → string → St * option (list Control.ServiceOnboarding);
}.
Arguments cpIssueKey {St}.
Arguments cpListKeys {St}.
Arguments cpRevokeKey {St}.
Arguments cpOnboardingState {St}.

(** [auth.TenantFromContext] and [sessionRole]. *)
Definition TenantFromContext (c : call) : option string := OrgID <$> c_session c.
Definition sessionRole (c : call) : option (string * string) := (λ s, (Role s, MemberID s)) <$> c_session c.

Definition tenantResolver (authOn : bool) (constTenant : string) : call → option tenant.ID :=
  if authOn then λ c, TenantFromContext c ≫= tenant.Parse
  else λ _, tenant.Parse constTenant.

Section adapters.
Context {St : Type}.

Definition onboardingSource (cp : controlPlane St) : St → string → St * option (list Pages.ServiceOnboarding) :=
  λ st tenant,
    let '(st, got) := cpOnboardingState cp st tenant in
    (st, (λ l : list _, (λ o, Pages.mkServiceOnboarding (Control.Service o) (Control.Instance_ o) (Control.HandshakeAt o)) <$> l)
           <$> got).

(** [keyAdmin]: an issued secret is wrapped with the deployment's origin. *)
Definition keyAdmin (cp : controlPlane St) (baseURL : string) : KeyAdmin St := mkKeyAdmin St
  (λ st org label,
     let '(st, secret) := cpIssueKey cp st org label in (st, Token.Encode baseURL <$> secret))
  (λ st org,
     let '(st, got) := cpListKeys cp st org in
     (st, (λ l : list _, (λ k, Pages.mkKeyInfo (Control.ID k) (Control.Label k) (Control.Last4 k) (Control.CreatedAt k)
                        (Control.RevokedAt k)) <$> l) <$> got))
  (λ st org id, cpRevokeKey cp st org id).

Definition buildWebConfig (querier : Querier) (cp : option (controlPlane St)) (memberAdmin : option (MemberAdmin St))
  (frozen : option (string → bool)) (authOn : bool) (constTenant baseURL csrfKey accountHref : string) : Config St :=
  mkConfig St (Some querier) (Some (tenantResolver authOn constTenant))
    (onboardingSource <$> cp) frozen (flip keyAdmin baseURL <$> cp)
    (match cp with Some _ => memberAdmin | None => None end)
    (if authOn then Some sessionRole else None)
    (match cp with Some _ => csrfKey | None => ""%string end) "" "" "" accountHref.
End adapters.

(** [buildAuth]: none without a member store. *)
Definition devOrgName : string := "dev-org".
Definition devIngestKey : string := "dev-key".
Definition devTenant : string := "dev-tenant".
Definition buildAuth (getenv : string → string) (hasStore : bool) (baseURL key : string)
  : result string (option Auth) :=
  if negb hasStore then Ok None
  else match New (mkAuthConfig key (oidcConfigFromEnv getenv baseURL) devOrgName (secureFromBaseURL baseURL)) with
       | Some a => Ok (Some a)
       | None => Err (str_app "auth: session key must be >= 32 bytes, got " (Itoa (Z.of_nat (String.length key))))
       end.

(** ** Responses of the assembled server *)

Inductive page :=
  | FromAuth (p : Auth.page) | FromWeb (p : Dashboard.page) | FromDoc (p : Docs.doc_page) | Plain (s : string).
Abbreviation response := (Response page) (only parsing).

(** A handler writing pages of its own, run on the server's response. *)
Definition embed {A} (inj : A → page) (f : Response A → Response A) (w : response) : response :=
  let w' := f (mkResponse (pending w) (sent w) []) in
  mkResponse (pending w') (sent w') (body w ++ (inj <$> body w')).

(** [healthHandler]. *)
Definition healthHandler (ready : bool) (w : response) : response :=
  if ready then Write w (Plain "ok") else Error w (Plain "shutting down") 503.

Section assembly.
Context `{MacLib} `{NetIP} {St : Type}.

Abbreviation handler := (St → response → call → outcome (St * response)) (only parsing).

(** A dashboard handler on the server's response. *)
Definition web_handler (f : St → Response Dashboard.page → call → outcome (St * Response Dashboard.page)) : handler :=
  λ st w c,
    let! r := f st (mkResponse (pending w) (sent w) []) c in
    Ret (r.1, mkResponse (pending r.2) (sent r.2) (body w ++ (FromWeb <$> body r.2))).

Definition with_session (c : call) (sess : Session) : call :=
  mkCall (c_req c) (c_raw c) (Some sess) (c_now c) (c_nonce c).

(** [Middleware] (auth/middleware.go) in front of a handler; [now]: its reading of the clock. *)
Definition gate (a : Auth) (now : Time) (next : handler) : handler := λ st w c,
  match sessionFromRequest a (c_req c) now with
  | Some sess => next st w (with_session c sess)
  | None => Ret (st, embed FromAuth (λ w, denyUnauthenticated w (c_req c)) w)
  end.

(** [mountDashboard] with [rootHandler]: what serves the dashboard's own mux. The check for
    the public home and the gate read the clock one after the other: [seen] and [now]. *)
Definition mountDashboard (home : option (response → response)) (authLayer : option Auth) (seen now : Time)
  (webMux : handler) : handler :=
  match authLayer with
  | None => webMux
  | Some a =>
      let gated := gate a now webMux in
      match home with
      | Some home => λ st w c,
          if bool_decide (r_path (c_req c) = "/"%string) && negb (Authenticated a (c_req c) seen)
          then Ret (st, home w) else gated st w c
      | None => gated
      end
  end.

Definition securityHeaders (secure : bool) (next : handler) : handler := λ st w c,
  let w := set_header w "X-Content-Type-Options" "nosniff" in
  let w := if secure then set_header w "Strict-Transport-Security" "max-age=31536000; includeSubDomains" else w in
  next st w c.

(** [cpDeps] and [builtDeps]: what [build] hands over, the control plane's share being
    absent in static dev mode. *)
Record builtDeps := mkBuiltDeps {
  bd_querier : Querier;
  bd_cp : option (controlPlane St);
  bd_memberAdmin : option (MemberAdmin St);
  bd_frozen : option (string → bool);
  bd_constTenant : string; bd_baseURL : string; bd_sessKey : string;
}.

(** The options a composed build may set that reach the dashboard. *)
Record options := mkOptions {
  publicHome : option (response → response);
  memberAdmin : option (MemberAdmin St);
  accountHref : string;
}.

(** [resolveControlPlane], then the rest of what [build] gathers. *)
Definition gatherDeps (getenv : string → string) (random : option string) (o : options)
  (querier : Querier) (store : option (controlPlane St)) (frozen : option (string → bool)) (constTenant : string)
  : result string builtDeps :=
  let baseURL := getenv "MAPING_BASE_URL" in
  match store with
  | None => Ok (mkBuiltDeps querier None None frozen constTenant baseURL "")
  | Some cp =>
      match sessionKey getenv (secureFromBaseURL baseURL) random with
      | Err e => Err e
      | Ok key => Ok (mkBuiltDeps querier (Some cp) (memberAdmin o) frozen constTenant baseURL key)
      end
  end.

Record App := mkApp { app_auth : option Auth; app_web : Handler St; app_secure : bool }.

(** [assembleMux]. *)
Definition assembleMux (getenv : string → string) (d : builtDeps) (o : options) : result string App :=
  match buildAuth getenv (bool_decide (is_Some (bd_cp d))) (bd_baseURL d) (bd_sessKey d) with
  | Err e => Err e
  | Ok authLayer =>
      match NewHandler (buildWebConfig (bd_querier d) (bd_cp d) (bd_memberAdmin d) (bd_frozen d)
                          (bool_decide (is_Some authLayer)) (bd_constTenant d) (bd_baseURL d) (bd_sessKey d)
                          (accountHref o)) with
      | Err e => Err e
      | Ok web => Ok (mkApp authLayer web (secureFromBaseURL (bd_baseURL d)))
      end
  end.

End assembly.
Arguments builtDeps : clear implicits.
Arguments options : clear implicits.
Arguments App : clear implicits.

(** [*control.Store] as the dashboard's control plane. *)
Definition store_plane `{DBLib} : controlPlane World := mkControlPlane World
  (λ st org label, as_store (issueKey org label) st)
  (λ st org, as_store (Control.ListKeys org) st)
  (λ st org id, let '(st, r) := as_store (revokeKey org id) st in (st, bool_decide (is_Some r)))
  (λ st tenant, as_store (onboardingState tenant) st).

(** ** Start-up *)

Lemma sessionKey_length getenv stable random k :
  (∀ k, random = Some k → String.length k = 32%nat) →
  sessionKey getenv stable random = Ok k → (32 ≤ String.length k)%nat.
Proof.
  intros Hr. unfold sessionKey. destruct (bool_decide _); cbn [negb].
  - destruct stable; [done|]. destruct random as [k'|]; [|done]. intros [= <-]. by rewrite (Hr k').
  - destruct (Nat.ltb_spec (String.length (getenv "MAPING_SESSION_KEY")) 32); [done|]. by intros [= <-].
Qed.

Lemma buildAuth_Some getenv baseURL key :
  (32 ≤ String.length key)%nat →
  ∃ a, buildAuth getenv true baseURL key = Ok (Some a) ∧ signer a = key ∧ secure a = secureFromBaseURL baseURL.
Proof.
  intros Hk. unfold buildAuth, New, newSigner. cbn [SessionKey negb].
  rewrite (proj2 (Nat.ltb_ge _ _)) by done. cbn. eexists. by split_and!.
Qed.

Lemma long_key_csrf key : (32 ≤ String.length key)%nat → newCSRF key = Some key.
Proof. intros Hk. unfold newCSRF. case_bool_decide as He; [|done]. rewrite He in Hk. cbn in Hk. lia. Qed.

Lemma NewHandler_Ok {St} (cfg : Config St) q t :
  cf_querier cfg = Some q → cf_tenant cfg = Some t →
  (cf_csrfkey cfg = ""%string → cf_keys cfg = None ∧ cf_members cfg = None) →
  ∃ h, NewHandler cfg = Ok h ∧ h_keys h = cf_keys cfg ∧ h_members h = cf_members cfg ∧ h_tenant h = t ∧
       h_onboarding h = cf_onboarding cfg ∧ h_csrf h = newCSRF (cf_csrfkey cfg) ∧ h_q h = q ∧
       h_roleOf h = cf_role cfg.
Proof.
  intros Hq Ht Hk. unfold NewHandler. rewrite Hq, Ht.
  destruct (decide (cf_csrfkey cfg = ""%string)) as [He|Hn].
  - destruct (Hk He) as [-> ->]. cbn [bool_decide]. eexists. split; [reflexivity|]. done.
  - rewrite (bool_decide_eq_false_2 _ Hn), andb_false_r. eexists. split; [reflexivity|]. done.
Qed.

Lemma assembleMux_gated `{MacLib} {St} getenv (d : builtDeps St) cp o :
  bd_cp d = Some cp → (32 ≤ String.length (bd_sessKey d))%nat →
  ∃ app a, assembleMux getenv d o = Ok app ∧ app_auth app = Some a ∧ signer a = bd_sessKey d.
Proof.
  intros Hcp Hk. unfold assembleMux. rewrite Hcp, (bool_decide_true (is_Some (Some cp))) by by eexists.
  destruct (buildAuth_Some getenv (bd_baseURL d) _ Hk) as (a & -> & Hs & _).
  destruct (NewHandler_Ok (buildWebConfig (bd_querier d) (Some cp) (bd_memberAdmin d) (bd_frozen d)
    (bool_decide (is_Some (Some a))) (bd_constTenant d) (bd_baseURL d) (bd_sessKey d) (accountHref o)) (bd_querier d)
    (tenantResolver (bool_decide (is_Some (Some a))) (bd_constTenant d))) as (h & -> & _); [done|done| |by eexists _, a].
  cbn. intros Hz. rewrite Hz in Hk. cbn in Hk. lia.
Qed.

(** The server starts exactly when its session key is usable, and what it then mounts
    is consistent. Without a control plane it always starts, ungated. With one it starts
    exactly when [sessionKey] accepts, which needs 32 bytes in MAPING_SESSION_KEY, or none
    set, a deployment that is not https and a random source that works; the auth layer and
    the form tokens then share that key of at least 32 bytes, every dashboard route is
    gated, cookies are Secure and HSTS is sent exactly over https. *)
Theorem server_starts_gated `{MacLib} `{NetIP} {St} getenv random (o : options St) q
  (store : option (controlPlane St)) frozen const :
  let key := sessionKey getenv (secureFromBaseURL (getenv "MAPING_BASE_URL")) random in
  (∀ k, random = Some k → String.length k = 32%nat) →
  match store with
  | None => ∃ d app, gatherDeps getenv random o q store frozen const = Ok d ∧ assembleMux getenv d o = Ok app ∧
                     app_auth app = None ∧ h_keys (app_web app) = None ∧ h_members (app_web app) = None
  | Some cp =>
      match key with
      | Err e => gatherDeps getenv random o q store frozen const = Err e
      | Ok k => ∃ d app a, gatherDeps getenv random o q store frozen const = Ok d ∧ assembleMux getenv d o = Ok app ∧
                 (32 ≤ String.length k)%nat ∧ app_auth app = Some a ∧ signer a = k ∧
                 h_csrf (app_web app) = Some k ∧ secure a = app_secure app ∧
                 app_secure app = secureFromBaseURL (getenv "MAPING_BASE_URL") ∧
                 is_Some (h_keys (app_web app))
      end
  end.
Proof.
  intros key Hr. unfold gatherDeps. destruct store as [cp|].
  - fold key. destruct key as [k|e] eqn:Ek; [|done]. set (d := mkBuiltDeps _ _ _ _ _ _ _).
    pose proof (sessionKey_length _ _ _ _ Hr Ek) as Hk.
    destruct (buildAuth_Some getenv (bd_baseURL d) k Hk) as (a & Ha & Hs & Hsec).
    destruct (NewHandler_Ok (buildWebConfig q (Some cp) (memberAdmin o) frozen true const (bd_baseURL d) k (accountHref o))
      q (tenantResolver true const)) as (h & Hh & Hkeys & _ & _ & _ & Hc & _); [done|done| |].
    { cbn. intros ->. cbn in Hk. lia. }
    exists d, (mkApp (Some a) h (secureFromBaseURL (bd_baseURL d))), a. split; [done|]. split.
    { unfold assembleMux. cbn in Ha |- *. rewrite Ha. cbn in Hh |- *. by rewrite Hh. }
    split_and!; try done; cbn.
    + rewrite Hc. by apply long_key_csrf.
    + rewrite Hkeys. by eexists.
  - eexists _, _. split; [done|]. split; [reflexivity|]. done.
Qed.

Definition prod_env (k : string) : string :=
  if bool_decide (k = "MAPING_SESSION_KEY"%string) then "0123456789abcdef0123456789abcdef"
  else if bool_decide (k = "MAPING_BASE_URL"%string) then "https://maping.example" else "".

Definition public_build {St} : options St := mkOptions None None "".

Lemma server_starts_gated_witness :
  let _ := toy_mac in let _ := no_ipv6 in let _ := toy_db in
  ∃ d app a, gatherDeps prod_env None public_build (λ _, empty_query) (Some store_plane) None "" = Ok d ∧
    assembleMux prod_env d public_build = Ok app ∧ (32 ≤ 32)%nat ∧ app_auth app = Some a ∧
    signer a = "0123456789abcdef0123456789abcdef"%string ∧
    h_csrf (app_web app) = Some "0123456789abcdef0123456789abcdef"%string ∧ secure a = app_secure app ∧
    app_secure app = true ∧ is_Some (h_keys (app_web app)).
Proof.
  apply (@server_starts_gated toy_mac no_ipv6 World prod_env None public_build (λ _, empty_query)
           (Some (@store_plane toy_db)) None ""). done.
Defined.

(** ** The dashboard over the control plane *)

(** Everything but the keys of [org]. *)
Record foreign_same (org : string) (d0 d : DB) : Prop := {
  fs_orgs : orgs d = orgs d0;
  fs_members : members d = members d0;
  fs_plans : plans d = plans d0;
  fs_handshakes : handshakes d = handshakes d0;
  fs_keys : filter (λ k, k_org k ≠ org) (keys d) = filter (λ k, k_org k ≠ org) (keys d0);
}.

#[export] Instance foreign_same_preorder org : PreOrder (foreign_same org).
Proof. split; [by split|]. intros x y z [] []. split; congruence. Qed.

Section plane.
Context `{DBLib}.

Lemma query_db {A} (f : DB → A) w : w_db (query f w).2 = w_db w.
Proof.
  unfold query. pose proof (next_fault_db w) as Hd. by destruct (next_fault w) as [[] w'].
Qed.

Lemma issueKey_foreign org label d0 : preserves (foreign_same org d0) (issueKey org label).
Proof.
  apply preserves_bind; [apply preserves_new_secret|]. intros secret.
  apply preserves_bind; [|intros ?; apply preserves_ret]. apply preserves_exec. intros now d a d' [] Hf.
  case_bool_decide; [|done]. injection Hf as _ <-. split; try done. cbn [keys].
  rewrite filter_app, filter_cons_False by (cbn; tauto). by rewrite app_nil_r.
Qed.

Lemma filter_revoked org id now (l : list KeyRow) :
  filter (λ k, k_org k ≠ org) ((λ k, if decide (revokes org id k) then revoke now k else k) <$> l) =
  filter (λ k, k_org k ≠ org) l.
Proof.
  induction l as [|k l IH]; [done|]. rewrite fmap_cons, !filter_cons, IH.
  destruct (decide (revokes org id k)) as [(_ & Ho & _)|]; [|done].
  by rewrite !decide_False by (cbn; tauto).
Qed.

Lemma revokeKey_foreign org id d0 : preserves (foreign_same org d0) (revokeKey org id).
Proof.
  apply preserves_bind.
  - apply preserves_exec. intros now d a d' [] [= _ <-]. split; try done. cbn [keys]. by rewrite filter_revoked.
  - intros n. case_match; [apply preserves_throw|apply preserves_ret].
Qed.

(** The adapters leave the store's world. *)
Lemma keyAdmin_worlds baseURL org st label id :
  let ka := keyAdmin store_plane baseURL in
  (Dashboard.IssueKey ka st org label).1 = (issueKey org label st).2 ∧
  (Dashboard.ListKeys ka st org).1 = (Control.ListKeys org st).2 ∧
  (Dashboard.RevokeKey ka st org id).1 = (revokeKey org id st).2 ∧
  (onboardingSource store_plane st org).1 = (onboardingState org st).2.
Proof.
  unfold onboardingSource, keyAdmin, store_plane, as_store. cbn.
  destruct (issueKey org label st) as [[]], (Control.ListKeys org st) as [[]], (revokeKey org id st) as [[]],
    (onboardingState org st) as [[]]; done.
Qed.

(** What the dashboard's reads and writes on [org] do to the database. *)
Definition world_rel (R : relation DB) : relation World := λ w w', R (w_db w) (w_db w').
#[export] Instance world_rel_preorder R : PreOrder R → PreOrder (world_rel R).
Proof. intros [Hr Ht]. split; [intros w; apply Hr|]. intros x y z. apply Ht. Qed.
End plane.

(** ** What a request does to the control plane, end to end *)

Section served.
Context `{MacLib} `{NetIP} `{DBLib}.

Lemma assembled getenv (d : builtDeps World) (o : options World) app a cp :
  assembleMux getenv d o = Ok app → app_auth app = Some a → bd_cp d = Some cp → bd_memberAdmin d = None →
  h_tenant (app_web app) = tenantResolver true (bd_constTenant d) ∧
  h_keys (app_web app) = Some (keyAdmin cp (bd_baseURL d)) ∧
  h_onboarding (app_web app) = Some (onboardingSource cp) ∧ h_members (app_web app) = None.
Proof.
  unfold assembleMux. intros Hm Ha Hcp Hma. rewrite Hcp, Hma in Hm.
  destruct (buildAuth _ _ _ _) as [authLayer|]; [|done].
  unfold NewHandler in Hm. cbn [cf_querier cf_tenant buildWebConfig] in Hm.
  match type of Hm with context [if ?b then Err _ else _] => destruct b; [done|] end.
  injection Hm as <-. cbn in Ha |- *. by subst authLayer.
Qed.

(** The operations of the assembled dashboard keep [R] if [R] is reflexive and holds
    across the two writes. *)
Lemma store_reads (h : Handler World) baseURL org R `{!PreOrder R} :
  h_keys h = Some (keyAdmin store_plane baseURL) → h_onboarding h = Some (onboardingSource store_plane) →
  h_members h = None → reads_within h org (world_rel R).
Proof.
  intros Hk Ho Hm. split.
  - intros ka st [= <-]%(eq_trans (eq_sym Hk)). unfold world_rel.
    destruct (keyAdmin_worlds baseURL org st "" "") as (_ & -> & _). unfold Control.ListKeys. by rewrite queryList_query, query_db.
  - intros src st [= <-]%(eq_trans (eq_sym Ho)). unfold world_rel.
    destruct (keyAdmin_worlds baseURL org st "" "") as (_ & _ & _ & ->). unfold onboardingState. by rewrite queryList_query, query_db.
  - intros ma st Hs. by rewrite Hm in Hs.
  - intros ma st Hs. by rewrite Hm in Hs.
  - intros ma st Hs. by rewrite Hm in Hs.
Qed.

Lemma no_team_forms (h : Handler World) pat org R :
  h_members h = None → pat ∈ team_forms → form_write h pat org R.
Proof.
  intros Hm Hp. unfold team_forms in Hp.
  repeat (apply elem_of_cons in Hp as [->|Hp]); cbn [form_write];
    try (intros; by rewrite Hm in *). by apply elem_of_nil in Hp.
Qed.

Lemma store_writes (h : Handler World) baseURL org pat :
  h_keys h = Some (keyAdmin store_plane baseURL) → pat ∈ key_forms →
  form_write h pat org (world_rel (foreign_same org)).
Proof.
  intros Hk Hp. unfold key_forms in Hp.
  repeat (apply elem_of_cons in Hp as [->|Hp]); cbn [form_write].
  - intros ka st label [= <-]%(eq_trans (eq_sym Hk)). unfold world_rel.
    destruct (keyAdmin_worlds baseURL org st label "") as (-> & _). by apply issueKey_foreign.
  - intros ka st id [= <-]%(eq_trans (eq_sym Hk)). unfold world_rel.
    destruct (keyAdmin_worlds baseURL org st "" id) as (_ & _ & -> & _). by apply revokeKey_foreign.
  - by apply elem_of_nil in Hp.
Qed.

(** Either [P] holds or the database is the same. *)
Definition same_unless (P : Prop) (d0 d : DB) : Prop := P ∨ d = d0.
#[export] Instance same_unless_preorder P : PreOrder (same_unless P).
Proof. split; [by right|]. intros x y z [] []; unfold same_unless in *; [tauto..|right; congruence]. Qed.

Lemma with_session_tenant const c s tid :
  tenantResolver true const (with_session c s) = Some tid → tenant.String tid = OrgID s.
Proof.
  cbn. unfold TenantFromContext, tenant.Parse. cbn. case_bool_decide; [done|]. by intros [= <-].
Qed.

(** The gate, with and without a session. *)
Lemma gated_run {St} (home : option (response → response)) a seen now (f : St → response → call → outcome (St * response))
  st w c st' w' :
  mountDashboard home (Some a) seen now f st w c = Ret (st', w') →
  match sessionFromRequest a (c_req c) now with
  | None => st' = st
  | Some s => st' = st ∨ f st w (with_session c s) = Ret (st', w')
  end.
Proof.
  unfold mountDashboard, gate. cbv zeta. destruct home as [home|].
  - destruct (_ && _); [intros [= <- _]; by destruct (sessionFromRequest _ _ _); [left|]|].
    destruct (sessionFromRequest a (c_req c) now) as [s|]; [by right|by intros [= <- _]].
  - destruct (sessionFromRequest a (c_req c) now) as [s|]; [by right|by intros [= <- _]].
Qed.

Lemma web_run {St} (f : St → Response Dashboard.page → call → outcome (St * Response Dashboard.page)) st w c st' w' :
  web_handler f st w c = Ret (st', w') → ∃ w1 w2, f st w1 c = Ret (st', w2).
Proof.
  unfold web_handler. match goal with |- context [f ?x ?y ?z] => destruct (f x y z) as [[st1 w1]|] eqn:E end; [|done].
  intros [= <- _]. eauto.
Qed.
End served.

(** A dashboard route acts for the session it runs in: the organizations, members, plans and
    handshakes and every key of any other organization are as before, and the database
    changed at all only on one of the two key forms, with a token that verifies. *)
Lemma session_route_acts `{MacLib} `{NetIP} `{DBLib} getenv (d : builtDeps World) (o : options World) app a elapsed js1 js2
  pat g st w c s st' w' :
  assembleMux getenv d o = Ok app → app_auth app = Some a → bd_cp d = Some store_plane → bd_memberAdmin d = None →
  (pat, g) ∈ Register (app_web app) elapsed js1 js2 →
  web_handler g st w (with_session c s) = Ret (st', w') →
  foreign_same (OrgID s) (w_db st) (w_db st') ∧
  (w_db st' = w_db st ∨
   pat ∈ key_forms ∧ ∃ key, h_csrf (app_web app) = Some key ∧
     verify key (OrgID s) (r_form (c_req c) "csrf_token") = true).
Proof.
  intros Hm Ha Hcp Hma Hin Hrun. destruct (assembled _ _ _ _ _ _ Hm Ha Hcp Hma) as (Ht & Hk & Ho & Hmem).
  apply web_run in Hrun as (w1 & w2 & Hrun). set (c' := with_session c s) in *.
  set (P := pat ∈ key_forms ∧ ∃ key, h_csrf (app_web app) = Some key ∧
              verify key (OrgID s) (r_form (c_req c) "csrf_token") = true).
  assert (Hent : ∀ R (HR : PreOrder R),
    (pat ∈ key_forms → P → form_write (app_web app) pat (OrgID s) (world_rel R)) → R (w_db st) (w_db st')).
  { intros R HR Hw. assert (Hr : reads_ok (app_web app) c' (world_rel R)).
    { intros tid Htid. by eapply store_reads. }
    pose proof (Register_entitled (app_web app) c' (world_rel R) Hr elapsed js1 js2) as Hall.
    rewrite Forall_forall in Hall. refine (ends_Ret (λ x, world_rel R st x.1) _ (st', w2) (Hall _ Hin _ st w1) Hrun). cbn [fst].
    intros tid Htid (Hp & Hv & _). rewrite Ht in Htid. pose proof (with_session_tenant _ _ _ _ Htid) as Hs.
    rewrite Hs in Hv |- *. apply elem_of_app in Hp as [Hp|Hp].
    - apply Hw; [done|]. split; [done|]. exact Hv.
    - by apply no_team_forms. }
  split.
  - apply (Hent (foreign_same (OrgID s)) _). intros Hp _. by eapply store_writes.
  - destruct (Hent (same_unless P) _) as [HP|Hsame]; [|by right|by left].
    intros Hp HP. unfold key_forms in Hp.
    repeat (apply elem_of_cons in Hp as [->|Hp]); cbn [form_write]; [by left..|by apply elem_of_nil in Hp].
Qed.

(** The public build over https, its key, a session of organization "0" and the form that
    creates a key, with the token the Setup page put in it. *)
Definition prod_key : string := "0123456789abcdef0123456789abcdef".
Definition prod_deps `{DBLib} : builtDeps World :=
  mkBuiltDeps (λ _, empty_query) (Some store_plane) None None "" "https://maping.example" prod_key.
Definition prod_session : Session := mkSession "0" "1" "admin" (UnixSec 2000000000).
Definition create_key_call `{MacLib} : call :=
  mkCall (mkRequest "/setup/keys" [(sessionCookie, encode prod_key prod_session)] (λ _, ""%string)
            (λ k, if bool_decide (k = "csrf_token"%string) then issue prod_key "0" "0123456789abcdef" else "ci"%string)
            (λ _, ""%string))
    "" None (λ _, 0) "fedcba9876543210".
Definition second_key_world : World := mkWorld (w_db keyed_world) [] 7
  [Some (bytes_of "fedcba9876543210fedcba9876543210")].

Definition prod_auth : Auth := mkAuth prod_key ∅ true devOrgName "https://maping.example" true.
Definition prod_app `{DBLib} : App World := mkApp (Some prod_auth)
  (mkHandler World (λ _, empty_query) (tenantResolver true "") (Some (onboardingSource store_plane)) None
     (Some (keyAdmin store_plane "https://maping.example")) None (Some sessionRole) (Some prod_key)
     "mAPI-ng" "dev" "admin" "") true.
