(* ===== verification/Server.v ===== *)
(** * The assembled server (server/app/assemble.go, app.go, extensions.go)

    Every pattern the server registers, on the outer router and on the dashboard's own, with
    the handler behind it: the readiness probe, the dashboard behind its gate, the login
    routes, the ingest service, the documentation and the routes of a composed build. The
    theorems are about any request whatever, whichever handler the routers pick. What the
    ingest service does with a request is a parameter here, as are the extension's code and
    the embedded documents. *)

From Stdlib Require Import ZArith Lia Ascii.
From Stdlib Require String.
From stdpp Require Import base option gmap strings list.
From S2P Require Import Docs.
From S2P Require Import Prelude GoString GoTime GoUrl Http Mux Token Storage.
From S2P Require Import Auth Guardrail Control Pages Dashboard Routes App Scoped Migrations.

Local Open Scope Z_scope.
Local Open Scope go_scope.

(** ** Requests *)

(** One request as the server sees it: what the router reads, what the handlers read, the
    body with whether reading it to the end succeeds, and the two readings of the clock a
    gated request takes. *)
Record req := mkReq {
  q_method : string; q_escaped : string; q_call : call; q_body : string * bool; q_seen : Time; q_now : Time;
}.
Definition with_call (q : req) (c : call) : req := mkReq (q_method q) (q_escaped q) c (q_body q) (q_seen q) (q_now q).
Definition with_body (q : req) (b : string * bool) : req :=
  mkReq (q_method q) (q_escaped q) (q_call q) b (q_seen q) (q_now q).
Definition target_of (q : req) : target :=
  mkTarget (q_method q) (q_escaped q) (r_path (c_req (q_call q))) (c_raw (q_call q)).

(** [r.SetPathValue], by the router. *)
Definition with_values (q : req) (values : list (string * string)) : req :=
  let c := q_call q in let r := c_req c in
  with_call q (mkCall (mkRequest (r_path r) (r_cookies r) (r_query r) (r_form r) (PathValue values))
                 (c_raw c) (c_session c) (c_now c) (c_nonce c)).

(** [http.MaxBytesReader]: what the handler can read of a body. *)
Definition MaxBytesReader (b : string * bool) (limit : Z) : string * bool :=
  if limit <? Z.of_nat (String.length b.1) then (str_take (Z.to_nat limit) b.1, false) else b.

(** [auth.randomToken]. *)
Definition randomToken (random : string) : string := b64_encode random.

Section server.
Context `{MacLib} `{NetIP} {St : Type} `{!MemberStore St}.

Abbreviation handler := (St → response → req → outcome (St * response)) (only parsing).

(** [ServeMux.ServeHTTP]. *)
Definition serve_table (t : list (pattern * handler)) : handler := λ st w q,
  match findHandler t (target_of q) with
  | Serve _ h values => h st w (with_values q values)
  | MovedPermanently u => Ret (st, Redirect w u 301)
  | MethodNotAllowed allow => Ret (st, Error (set_header w "Allow" (Join allow ", ")) (Plain "Method Not Allowed") 405)
  | NoRoute => Ret (st, Error w (Plain "404 page not found") 404)
  end.

(** ** Options (extensions.go) *)

(** What an extension is given; the pool is represented by whether there is one. *)
Record RouteContext := mkRouteContext {
  Pool : bool;
  Gate : option (handler → handler);
  SessionOrg : option (req → option string);
  SessionMemberID : option (req → option string);
  RenderShell : string → string → handler;
  RenderDoc : string → string → handler;
  Usage : string → Time → option UsageStats;
  LastIngestByTenant : option (gmap string Time);
}.
Definition RouteRegistrar : Type := RouteContext → list (string * handler).

(** A factory is what it returns for the pool. *)
Context {Job LimitProvider : Type}.
Record options_ := mkOptions_ {
  o_routes : list RouteRegistrar; o_jobs : list Job; o_limitProvider : option (LimitProvider → LimitProvider);
  o_migrations : list (FS * string); o_loginInterceptor : option (interceptor St);
  o_memberAdmin : option (MemberAdmin St); o_publicHome : option (response → response);
  o_accountHref : string; o_docSections : list Section_; o_docHeader : string;
}.
Definition no_options : options_ := mkOptions_ [] [] None [] None None None "" [] "".
Definition Option_ : Type := options_ → options_.

Definition WithRoutes (r : RouteRegistrar) : Option_ := λ o,
  mkOptions_ (o_routes o ++ [r]) (o_jobs o) (o_limitProvider o) (o_migrations o) (o_loginInterceptor o)
    (o_memberAdmin o) (o_publicHome o) (o_accountHref o) (o_docSections o) (o_docHeader o).
Definition WithBackgroundJob (j : Job) : Option_ := λ o,
  mkOptions_ (o_routes o) (o_jobs o ++ [j]) (o_limitProvider o) (o_migrations o) (o_loginInterceptor o)
    (o_memberAdmin o) (o_publicHome o) (o_accountHref o) (o_docSections o) (o_docHeader o).
Definition WithExtraMigrations (fsys : FS) (dir : string) : Option_ := λ o,
  mkOptions_ (o_routes o) (o_jobs o) (o_limitProvider o) (o_migrations o ++ [(fsys, dir)]) (o_loginInterceptor o)
    (o_memberAdmin o) (o_publicHome o) (o_accountHref o) (o_docSections o) (o_docHeader o).
Definition WithLimitProvider (f : LimitProvider → LimitProvider) : Option_ := λ o,
  mkOptions_ (o_routes o) (o_jobs o) (Some f) (o_migrations o) (o_loginInterceptor o)
    (o_memberAdmin o) (o_publicHome o) (o_accountHref o) (o_docSections o) (o_docHeader o).
Definition WithLoginInterceptor (f : interceptor St) : Option_ := λ o,
  mkOptions_ (o_routes o) (o_jobs o) (o_limitProvider o) (o_migrations o) (Some f)
    (o_memberAdmin o) (o_publicHome o) (o_accountHref o) (o_docSections o) (o_docHeader o).
Definition WithMemberAdmin (ma : MemberAdmin St) : Option_ := λ o,
  mkOptions_ (o_routes o) (o_jobs o) (o_limitProvider o) (o_migrations o) (o_loginInterceptor o)
    (Some ma) (o_publicHome o) (o_accountHref o) (o_docSections o) (o_docHeader o).
Definition WithPublicHome (home : response → response) : Option_ := λ o,
  mkOptions_ (o_routes o) (o_jobs o) (o_limitProvider o) (o_migrations o) (o_loginInterceptor o)
    (o_memberAdmin o) (Some home) (o_accountHref o) (o_docSections o) (o_docHeader o).
Definition WithDocSections (sections : list Section_) : Option_ := λ o,
  mkOptions_ (o_routes o) (o_jobs o) (o_limitProvider o) (o_migrations o) (o_loginInterceptor o)
    (o_memberAdmin o) (o_publicHome o) (o_accountHref o) (o_docSections o ++ sections) (o_docHeader o).
Definition WithDocHeader (html : string) : Option_ := λ o,
  mkOptions_ (o_routes o) (o_jobs o) (o_limitProvider o) (o_migrations o) (o_loginInterceptor o)
    (o_memberAdmin o) (o_publicHome o) (o_accountHref o) (o_docSections o) html.
Definition WithAccountLink (href : string) : Option_ := λ o,
  mkOptions_ (o_routes o) (o_jobs o) (o_limitProvider o) (o_migrations o) (o_loginInterceptor o)
    (o_memberAdmin o) (o_publicHome o) href (o_docSections o) (o_docHeader o).

(** The loop at the top of [build]. *)
Definition apply_options (opts : list Option_) : options_ := fold_left (λ o opt, opt o) opts no_options.

(** What of them the dashboard is assembled with. *)
Definition dashboard_options (o : options_) : options St := mkOptions (o_publicHome o) (o_memberAdmin o) (o_accountHref o).

(** Each registrar in registration order; each job with the pool. *)
Definition mountExtensions (rs : list RouteRegistrar) (ctx : RouteContext) : list (string * handler) := rs ≫= λ r, r ctx.
Definition startBackgroundJobs (jobs : list Job) (pool : bool) : list (Job * bool) := (λ j, (j, pool)) <$> jobs.

(** ** The routes *)

(** [Auth.Middleware] around any handler of the server. *)
Definition Middleware_ (a : Auth) (next : handler) : handler := λ st w q,
  gate a (q_now q) (λ st w c, next st w (with_call q c)) st w (q_call q).

(** A login handler on the server's response. *)
Definition auth_handler (f : St → Response Auth.page → req → St * Response Auth.page) : handler := λ st w q,
  let '(st, w') := f st (mkResponse (pending w) (sent w) []) q in
  Ret (st, mkResponse (pending w') (sent w') (body w ++ (FromAuth <$> body w'))).

(** [Auth.Register]. *)
Definition Register_auth (a : Auth) (o : oauth) (postAuth : option (interceptor St)) : list (string * handler) :=
  [ ("GET /login", auth_handler (λ st w q, (st, handleLoginPage a w (c_req (q_call q)))));
    ("GET /auth/{provider}/start",
      auth_handler (λ st w q, (st, handleStart a o w (c_req (q_call q)) (randomToken (c_nonce (q_call q))))));
    ("GET /auth/{provider}/callback",
      auth_handler (λ st w q, handleCallback a o postAuth st w (c_req (q_call q)) (q_now q)));
    ("GET /logout", auth_handler (λ st w q, (st, handleLogout a w)));
    ("POST /logout", auth_handler (λ st w q, (st, handleLogout a w))) ]%string ++
  (if devLogin a
   then [("POST /auth/dev/login", auth_handler (λ st w q, handleDevLogin a st w (c_req (q_call q)) (q_now q)))]%string
   else []).

Definition withMaxBody (next : handler) (limit : Z) : handler := λ st w q,
  next st w (with_body q (MaxBytesReader (q_body q) limit)).

(** The path of the generated Connect handler. *)
Definition ingest_path : string := "/maping.v1.IngestService/".
Definition mountIngest (ingest : handler) (bodyCap : Z) : list (string * handler) :=
  [(ingest_path, withMaxBody ingest bodyCap)].

(** What the assembly is made of that is not under [src/] or not part of it: the OAuth peers,
    the service behind the ingest path, the embedded documents and the scripts. *)
Record environment := mkEnvironment {
  e_oauth : oauth; e_ingest : handler; e_bodyCap : Z; e_ready : bool; e_pool : bool;
  e_readFile : string → option string; e_markdown : string → option string;
  e_appTmpl : string → list navGroup → option string;
  e_elapsed : Duration; e_copyJS : string; e_handshakeJS : string;
  e_usage : string → Time → option UsageStats; e_lastIngest : option (gmap string Time);
}.

Section assembled.
Context (env : environment) (app : App St) (o : options_).

(** The dashboard's own router. *)
Definition web_table : outcome (list (pattern * handler)) :=
  register [] ((λ pf, (pf.1, λ st w q, web_handler pf.2 st w (q_call q))) <$>
                 Register (app_web app) (e_elapsed env) (e_copyJS env) (e_handshakeJS env)).

Definition dashboard (webMux : handler) : handler := λ st w q,
  mountDashboard (o_publicHome o) (app_auth app) (q_seen q) (q_now q)
    (λ st w c, webMux st w (with_call q c)) st w (q_call q).

(** The documentation, in the dashboard's frame for a signed-in visitor. *)
Definition render_doc_page (title content : string) : handler := λ st w q,
  web_handler (λ st w c, Ret (RenderDocPage (app_web app) st w c title content)) st w (q_call q).
Definition docsHandler : Docs.Handler req St page :=
  Docs.mkHandler (Docs.NewHandler (o_docSections o)) (o_docHeader o)
    ((λ a, ((λ q, Authenticated a (c_req (q_call q)) (q_seen q)),
            (λ title content q st w, Middleware_ a (render_doc_page title content) st w q))) <$> app_auth app).
Definition path_of (q : req) : string := r_path (c_req (q_call q)).
Definition docs_routes : list (string * handler) :=
  let serve f : handler := λ st w q, f q st w in
  [ ("GET /doc", serve (Docs.index path_of FromDoc (e_readFile env) (e_markdown env) (e_appTmpl env) docsHandler));
    ("GET /doc/{topic}", serve (λ q, Docs.topic path_of FromDoc (e_readFile env) (e_markdown env) (e_appTmpl env) docsHandler
                                       (r_value (c_req (q_call q)) "topic") q)) ]%string.

(** What [assembleMux] hands to the extensions. *)
Definition routeContext : RouteContext := mkRouteContext (e_pool env)
  (Middleware_ <$> app_auth app)
  ((λ _ q, TenantFromContext (q_call q)) <$> app_auth app)
  ((λ _ q, MemberID <$> c_session (q_call q)) <$> app_auth app)
  (λ title content st w q, web_handler (λ st w c, Ret (RenderShellPage (app_web app) st w c title content)) st w (q_call q))
  (λ title content st w q, Docs.Render path_of FromDoc (e_appTmpl env) docsHandler title content q st w)
  (e_usage env) (e_lastIngest env).

Definition core_routes (webMux : handler) : list (string * handler) :=
  ("GET /healthz"%string, λ st w _, Ret (st, healthHandler (e_ready env) w)) ::
  ("/"%string, dashboard webMux) ::
  match app_auth app with Some a => Register_auth a (e_oauth env) (o_loginInterceptor o) | None => [] end ++
  mountIngest (e_ingest env) (e_bodyCap env) ++ docs_routes.

Definition all_routes (webMux : handler) : list (string * handler) :=
  core_routes webMux ++ mountExtensions (o_routes o) routeContext.

(** The routed handler of [assembleMux]; a pattern that cannot be registered panics. *)
Definition routed : outcome handler :=
  let! webMux := web_table in
  let! t := register [] (all_routes (serve_table webMux)) in
  Ret (λ st w q, securityHeaders (app_secure app) (λ st w _, serve_table t st w q) st w (q_call q)).
End assembled.
End server.
Arguments options_ : clear implicits.
Arguments environment : clear implicits.

(** ** Registration *)

(** Whether a registration succeeds depends on the patterns only. *)
Definition bare {H} (t : list (pattern * H)) : list (pattern * ()) := (λ e, (e.1, tt)) <$> t.

Lemma existsb_bare {H} (f : pattern → bool) (t : list (pattern * H)) :
  existsb (λ e, f e.1) (bare t) = existsb (λ e, f e.1) t.
Proof. induction t as [|e t IH]; [done|]. cbn. by rewrite <-IH. Qed.

Lemma register_bare {H} (es : list (string * H)) t :
  match register (bare t) ((λ s, (s, tt)) <$> es.*1) with
  | Ret u => ∃ t', register t es = Ret t' ∧ u = bare t'
  | Panic w => register t es = Panic w
  end.
Proof.
  revert t. induction es as [|[s h] es IH]; intros t; cbn; [by eexists|].
  unfold Handle. destruct (parsePattern s) as [p|]; [|done]. rewrite existsb_bare.
  destruct (existsb _ t); [done|]. cbn. specialize (IH (t ++ [(p, h)])).
  unfold bare at 1 in IH. by rewrite fmap_app in IH.
Qed.

Definition registers (patterns : list string) : bool :=
  match register [] ((λ s, (s, tt)) <$> patterns) with Ret _ => true | Panic _ => false end.

Lemma register_succeeds {H} (es : list (string * H)) :
  registers es.*1 = true → ∃ t, register [] es = Ret t.
Proof.
  unfold registers. pose proof (register_bare es []) as Hb. destruct (register _ _); [|done].
  destruct Hb as (t & ? & _). by exists t.
Qed.

Section served.
Context `{MacLib} `{NetIP} {St : Type} `{!MemberStore St} {Job LimitProvider : Type}.
Abbreviation handler := (St → response → req → outcome (St * response)) (only parsing).
Implicit Types (env : environment St) (app : App St) (o : options_ St Job LimitProvider) (q : req).

(** The routes of the server without extensions never collide: every pattern parses, and
    no two conflict, whatever providers are configured. *)
Lemma core_registers env app o :
  o_routes o = [] → ∃ serve, routed env app o = Ret serve.
Proof.
  intros Ho. unfold routed.
  destruct (register_succeeds ((λ pf, (pf.1, λ st w q, web_handler pf.2 st w (q_call q))) <$>
    Register (app_web app) (e_elapsed env) (e_copyJS env) (e_handshakeJS env) : list (string * handler))) as [t Ht];
    [vm_compute; reflexivity|].
  unfold web_table. rewrite Ht. cbn [outcome_bind].
  destruct (register_succeeds (all_routes env app o (serve_table t))) as [t' ->]; [|by eexists].
  unfold all_routes, core_routes. rewrite Ho. destruct (app_auth app) as [a|]; [unfold Register_auth; destruct (devLogin a)|];
    vm_compute; reflexivity.
Qed.

(** *** What the routers do with a request *)

(** The request matches the pattern. *)
Definition addressed q (s : string) : Prop :=
  ∃ p, parsePattern s = Some p ∧ matches p (q_method q) (path_segments (bytes_of (q_escaped q))) = true.

(** The router's own redirect or refusal; [w]: the response it was handed. *)
Definition router_answers (w w' : response) : Prop :=
  (∃ u, w' = Redirect w u 301) ∨ (∃ allow, w' = Error (set_header w "Allow" allow) (Plain "Method Not Allowed") 405) ∨
  w' = Error w (Plain "404 page not found") 404.

Lemma serve_table_run (es : list (string * handler)) t st w q st' w' :
  register [] es = Ret t → serve_table t st w q = Ret (st', w') →
  st' = st ∧ router_answers w w' ∨
  ∃ s h values, (s, h) ∈ es ∧ addressed q s ∧ h st w (with_values q values) = Ret (st', w').
Proof.
  intros Ht. unfold serve_table, findHandler, router_answers. cbv zeta.
  destruct (slash_redirect _ _ _) as [u|]; [intros [= <- <-]; left; eauto|].
  destruct (negb _ && negb _) eqn:Eclean; [intros [= <- <-]; left; eauto|].
  set (path := if bool_decide _ then _ else _) in *.
  assert (Hpath : path = bytes_of (q_escaped q)).
  { subst path. cbn [target_of t_method t_escaped] in *. destruct (bool_decide (q_method q = _)); [done|].
    cbn in Eclean. apply negb_false_iff, bool_decide_eq_true in Eclean. exact Eclean. }
  destruct (match_ t _ path) as [[p h]|] eqn:Em.
  - intros Hrun. right. apply register_ok in Ht as Hok; [|apply table_ok_nil].
    pose proof (match_most_specific t (t_method (target_of q)) path (proj1 Hok)) as Hm. rewrite Em in Hm.
    destruct Hm as (Hin & Hmatch & _). destruct (register_elem _ _ _ _ Ht Hin) as (s & Hs & Hp).
    eexists s, h, _. split; [exact Hs|]. split; [|exact Hrun]. exists p. rewrite <-Hpath. by split.
  - destruct (matchingMethods t path) as [|m l]; intros [= <- <-]; left; eauto.
Qed.

(** *** Open and gated *)

(** What the server answers without looking at a session, besides extensions. *)
Definition open_patterns : list string :=
  ["GET /healthz"; "GET /login"; "GET /auth/{provider}/start"; "GET /auth/{provider}/callback"; "GET /logout";
   "POST /logout"; "POST /auth/dev/login"; ingest_path; "GET /doc"; "GET /doc/{topic}"]%string.

Definition secured (secure : bool) (w : response) : response :=
  let w := set_header w "X-Content-Type-Options" "nosniff" in
  if secure then set_header w "Strict-Transport-Security" "max-age=31536000; includeSubDomains" else w.

Lemma routed_run env app o serve st w q st' w' :
  o_routes o = [] → routed env app o = Ret serve → serve st w q = Ret (st', w') →
  ∃ webMux, web_table env app = Ret webMux ∧
  (st' = st ∧ router_answers (secured (app_secure app) w) w' ∨
   ∃ s h values, (s, h) ∈ core_routes env app o (serve_table webMux) ∧ addressed q s ∧
     h st (secured (app_secure app) w) (with_values q values) = Ret (st', w')).
Proof.
  intros Ho. unfold routed. destruct (web_table env app) as [webMux|]; [|done]. cbn [outcome_bind].
  destruct (register [] (all_routes env app o (serve_table webMux))) as [t|] eqn:Et; [|done].
  intros [= <-] Hrun. exists webMux. split; [done|].
  unfold all_routes, mountExtensions in Et. rewrite Ho, app_nil_r in Et.
  exact (serve_table_run _ _ _ _ _ _ _ Et Hrun).
Qed.

Lemma core_route_cases env app o webMux s h :
  (s, h) ∈ core_routes env app o webMux →
  s ∈ open_patterns ∨ s = "/"%string ∧ h = dashboard app o webMux.
Proof.
  unfold core_routes. rewrite !elem_of_cons, !elem_of_app. intros [[= -> _]|[[= -> ->]|[Hs|[Hs|Hs]]]].
  - left. by left.
  - by right.
  - left. destruct (app_auth app) as [a|]; [|by apply elem_of_nil in Hs].
    unfold Register_auth in Hs. apply elem_of_app in Hs as [Hs|Hs].
    + repeat (apply elem_of_cons in Hs as [[= -> _]|Hs]; [apply (bool_decide_unpack _); vm_compute; exact I|]).
      by apply elem_of_nil in Hs.
    + destruct (devLogin a); [|by apply elem_of_nil in Hs].
      apply list_elem_of_singleton in Hs as [= -> _]. apply (bool_decide_unpack _); vm_compute; exact I.
  - left. apply list_elem_of_singleton in Hs as [= -> _]. apply (bool_decide_unpack _); vm_compute; exact I.
  - left. repeat (apply elem_of_cons in Hs as [[= -> _]|Hs]; [apply (bool_decide_unpack _); vm_compute; exact I|]).
    by apply elem_of_nil in Hs.
Qed.

(** The handlers behind the open patterns that write to the control plane, or may. *)
Definition login_patterns : list string :=
  ["GET /auth/{provider}/callback"; "POST /auth/dev/login"; ingest_path]%string.
End served.

Section acts.
Context `{MacLib} `{NetIP} `{DBLib} {Job LimitProvider : Type}.
Implicit Types (env : environment World) (app : App World) (o : options_ World Job LimitProvider) (q : req).

Lemma render_doc_run app baseURL title content q st w st' w' :
  h_keys (app_web app) = Some (keyAdmin store_plane baseURL) →
  h_onboarding (app_web app) = Some (onboardingSource store_plane) → h_members (app_web app) = None →
  render_doc_page app title content st w q = Ret (st', w') → w_db st' = w_db st.
Proof.
  intros Hk Hob Hm Hrun.
  apply (web_run (λ st w c, Ret (RenderDocPage (app_web app) st w c title content))) in Hrun as (w1 & w2 & Hrun).
  pose proof (RenderDocPage_reads (app_web app) (q_call q) (world_rel eq)
    (λ tid _, store_reads _ baseURL _ eq Hk Hob Hm) st w1 title content) as Hr.
  destruct (RenderDocPage _ _ _ _ _ _) as [st1 w3]. injection Hrun as <- _. symmetry. exact Hr.
Qed.

(** The documentation reads at most the key mask of the frame. *)
Lemma docs_run env app o cp baseURL slug href q st w st' w' :
  cp = store_plane → h_keys (app_web app) = Some (keyAdmin cp baseURL) →
  h_onboarding (app_web app) = Some (onboardingSource cp) → h_members (app_web app) = None →
  Docs.serveFile path_of FromDoc (e_readFile env) (e_markdown env) (e_appTmpl env) (docsHandler app o) slug href q st w =
    Ret (st', w') →
  w_db st' = w_db st.
Proof.
  intros -> Hk Hob Hm. unfold Docs.serveFile. destruct (e_readFile env _); [|by intros [= <- _]].
  destruct (e_markdown env _); [|by intros [= <- _]].
  unfold Docs.Render, docsHandler. cbn [Docs.inapp]. destruct (app_auth app) as [a|]; [|by intros [= <- _]].
  cbn [fmap option_fmap option_map fst snd]. destruct (Authenticated _ _ _); [|by intros [= <- _]].
  unfold Docs.renderInApp. destruct (e_appTmpl env _ _); [|by intros [= <- _]].
  unfold Middleware_, gate. destruct (sessionFromRequest _ _ _) as [sess|]; [|by intros [= <- _]].
  exact (render_doc_run app baseURL _ _ _ _ _ _ _ Hk Hob Hm).
Qed.

Lemma open_route_run getenv (d : builtDeps World) env app o a webMux s h st w q st' w' :
  assembleMux getenv d (dashboard_options o) = Ok app → app_auth app = Some a → bd_cp d = Some store_plane →
  bd_memberAdmin d = None →
  (s, h) ∈ core_routes env app o webMux → s ≠ "/"%string → s ∉ login_patterns →
  h st w q = Ret (st', w') → w_db st' = w_db st.
Proof.
  intros Hasm Ha Hcp Hma. destruct (assembled _ _ _ _ _ _ Hasm Ha Hcp Hma) as (_ & Hk & Hob & Hmem).
  unfold core_routes. rewrite Ha, !elem_of_cons, !elem_of_app. intros [[= -> ->]|[[= -> _]|[Hs|[Hs|Hs]]]] Hroot Hlogin.
  - by intros [= <- _].
  - done.
  - unfold Register_auth in Hs. apply elem_of_app in Hs as [Hs|Hs].
    + repeat (apply elem_of_cons in Hs as [[= -> ->]|Hs];
        [first [by intros [= <- _] | by destruct Hlogin; apply (bool_decide_unpack _); vm_compute; exact I]|]).
      by apply elem_of_nil in Hs.
    + destruct (devLogin a); [|by apply elem_of_nil in Hs]. apply list_elem_of_singleton in Hs as [= -> _].
      destruct Hlogin; apply (bool_decide_unpack _); vm_compute; exact I.
  - apply list_elem_of_singleton in Hs as [= -> _]. destruct Hlogin; apply (bool_decide_unpack _); vm_compute; exact I.
  - repeat (apply elem_of_cons in Hs as [[= -> ->]|Hs]; [by apply (docs_run env app o store_plane (bd_baseURL d))|]).
    by apply elem_of_nil in Hs.
Qed.

Lemma web_table_run env app webMux st w q st' w' :
  web_table env app = Ret webMux → serve_table webMux st w q = Ret (st', w') →
  st' = st ∨ ∃ s g values, (s, g) ∈ Register (app_web app) (e_elapsed env) (e_copyJS env) (e_handshakeJS env) ∧
    addressed q s ∧ web_handler g st w (q_call (with_values q values)) = Ret (st', w').
Proof.
  intros Hw Hrun. destruct (serve_table_run _ _ _ _ _ _ _ Hw Hrun) as [[-> _]|(s & h & values & Hin & Hq & Hh)]; [by left|right].
  apply list_elem_of_fmap in Hin as ([s' g] & [= -> ->] & Hin). exists s', g, values. exact (conj Hin (conj Hq Hh)).
Qed.
End acts.

(** [C2] Whatever request arrives, the control plane changes only as the caller's session
    allows. On the server assembled over the store's control plane, without a composed team
    panel or extension, any request the routers can be given leaves the database as it was,
    unless it is addressed to the OAuth callback, the development login or the ingest service,
    or it carries a valid session cookie, is addressed to one of the two key forms and has a
    form token that verifies for the session's organization; and then the organizations,
    members, plans and handshakes and every key of any other organization stay as they were. *)
Theorem server_acts_for_its_session `{MacLib} `{NetIP} `{DBLib} {Job LimitProvider} getenv (d : builtDeps World)
  (env : environment World) (o : options_ World Job LimitProvider) app a serve st w q st' w' :
  assembleMux getenv d (dashboard_options o) = Ok app → app_auth app = Some a → bd_cp d = Some store_plane →
  bd_memberAdmin d = None → o_routes o = [] →
  routed env app o = Ret serve → serve st w q = Ret (st', w') →
  w_db st' = w_db st ∨
  (∃ pat, pat ∈ login_patterns ∧ addressed q pat) ∨
  ∃ s pat key, sessionFromRequest a (c_req (q_call q)) (q_now q) = Some s ∧ pat ∈ key_forms ∧ addressed q pat ∧
    h_csrf (app_web app) = Some key ∧ verify key (OrgID s) (r_form (c_req (q_call q)) "csrf_token") = true ∧
    foreign_same (OrgID s) (w_db st) (w_db st').
Proof.
  intros Hasm Ha Hcp Hma Ho Hr Hrun.
  destruct (routed_run _ _ _ _ _ _ _ _ _ Ho Hr Hrun) as (webMux & Hw & [[-> _]|(pat & h & values & Hin & Hq & Hh)]); [by left|].
  destruct (decide (pat ∈ login_patterns)) as [Hl|Hl]; [right; left; exists pat; exact (conj Hl Hq)|].
  destruct (decide (pat = "/"%string)) as [->|Hroot]; [|left; by eapply open_route_run].
  destruct (core_route_cases _ _ _ _ _ _ Hin) as [Hopen|[_ ->]].
  { exfalso. revert Hopen. apply (bool_decide_unpack _). vm_compute. exact I. }
  unfold dashboard in Hh. rewrite Ha in Hh. apply gated_run in Hh.
  change (sessionFromRequest a (c_req (q_call (with_values q values))) (q_now (with_values q values))) with
    (sessionFromRequest a (c_req (q_call q)) (q_now q)) in Hh.
  destruct (sessionFromRequest a (c_req (q_call q)) (q_now q)) as [s|]; [|left; by rewrite Hh].
  destruct Hh as [->|Hh]; [by left|].
  apply (web_table_run env app _ _ _ _ _ _ Hw) in Hh as [->|(pat & g & values' & Hin' & Hq' & Hg)]; [by left|].
  destruct (session_route_acts getenv d (dashboard_options o) app a (e_elapsed env) (e_copyJS env) (e_handshakeJS env)
    pat g st (secured (app_secure app) w) (q_call (with_values (with_values q values) values')) s st' w')
    as [Hf [Hsame|[Hp (key & Hkey & Hv)]]]; [done..|exact Hg|by left|].
  right. right. exists s, pat, key. exact (conj eq_refl (conj Hp (conj Hq' (conj Hkey (conj Hv Hf))))).
Qed.

(** *** Every page at its address *)

(** The dashboard's patterns but the root's. *)
Definition page_patterns : list string :=
  ["GET /dashboard"; "GET /performance"; "GET /setup"; "GET /setup/handshake"; "POST /setup/keys";
   "POST /setup/keys/{id}/revoke"; "POST /setup/invites"; "POST /setup/invites/{id}/revoke";
   "POST /setup/members/{id}/remove"; "GET /services/{service}"; "GET /services/{service}/endpoint"; "GET /api/series";
   "GET /api/histogram"; "GET /api/instances"; "GET /assets/copy.js"; "GET /assets/handshake.js"]%string.

(** No open pattern matches a page's requests, nor their slashed forms; no other pattern of
    the dashboard outranks the page's own; and the page is no subtree. *)
Definition page_alone (pat : string) : bool :=
  match parsePattern pat with
  | Some p =>
      negb (last_multi (segments p)) && negb (bool_decide (method p = ""%string)) && negb (bool_decide (method p = "CONNECT"%string)) &&
      forallb (λ s', apart s' p && apart s' (slashed p)) open_patterns &&
      forallb (λ s', bool_decide (s' = pat) || negb (outranks s' pat)) ("GET /"%string :: page_patterns)
  | None => false
  end.
Lemma pages_alone : forallb page_alone page_patterns = true.
Proof. vm_compute. reflexivity. Qed.

Section pages.
Context `{MacLib} `{NetIP} {St : Type} `{!MemberStore St} {Job LimitProvider : Type}.
Abbreviation handler := (St → response → req → outcome (St * response)) (only parsing).
Implicit Types (env : environment St) (app : App St) (o : options_ St Job LimitProvider) (q : req).

Definition web_routes env app : list (string * handler) :=
  (λ pf, (pf.1, λ st w q, web_handler pf.2 st w (q_call q))) <$>
    Register (app_web app) (e_elapsed env) (e_copyJS env) (e_handshakeJS env).

Lemma core_patterns_distinct env app o webMux : NoDup (core_routes env app o webMux).*1.
Proof.
  unfold core_routes. destruct (app_auth app) as [a|]; [unfold Register_auth; destruct (devLogin a)|];
    apply (bool_decide_unpack _); vm_compute; exact I.
Qed.
Lemma web_patterns_distinct env app : NoDup (web_routes env app).*1.
Proof. apply (bool_decide_unpack _); vm_compute; exact I. Qed.

Lemma page_method p m xs :
  negb (bool_decide (method p = ""%string)) = true → negb (bool_decide (method p = "CONNECT"%string)) = true →
  matches p m xs = true → m ≠ "CONNECT"%string.
Proof.
  rewrite !negb_true_iff, !bool_decide_eq_false. intros Hg Hc Hm ->. unfold matches, match_method in Hm.
  rewrite (bool_decide_false (method p = "")), (bool_decide_false (method p = "CONNECT")) in Hm by done.
  cbn [orb] in Hm. apply andb_true_iff in Hm as [[_ [=]]%bool_decide_eq_true _].
Qed.

Lemma page_outer env app o webMux t pat p q (path := bytes_of (q_escaped q)) :
  register [] (core_routes env app o (serve_table webMux)) = Ret t →
  page_alone pat = true → parsePattern pat = Some p → cleanPath path = path →
  matches p (q_method q) (path_segments path) = true →
  findHandler t (target_of q) = Serve (mkPattern "" [subtree]) (dashboard app o (serve_table webMux)) [].
Proof.
  intros Ht Hal Hp Hclean Hm. unfold page_alone in Hal. rewrite Hp, !andb_true_iff in Hal.
  destruct Hal as [[[[Hl Hg] Hc] Hopen] _]. apply negb_true_iff in Hl. pose proof (parsePattern_wf _ _ Hp) as Hwf.
  rewrite forallb_forall in Hopen.
  destruct (cleanPath_rooted path) as [elems He]. rewrite Hclean in He.
  assert (Hroot : ∀ elems', let xs := path_segments ("/"%char :: elems') in
    matches p (q_method q) xs = true ∨ matches (slashed p) (q_method q) xs = true →
    match_ t (q_method q) ("/"%char :: elems') = Some (mkPattern "" [subtree], dashboard app o (serve_table webMux))).
  { intros elems' xs Hor.
    apply (match_exact _ _ "/" _ _ _ _ (core_patterns_distinct _ _ _ _) Ht); [right; left|reflexivity|apply root_matches|].
    intros s' Hs' Hne p' Hp' Hm'. exfalso. apply list_elem_of_fmap in Hs' as ([s'' h'] & -> & Hin).
    destruct (core_route_cases _ _ _ _ _ _ Hin) as [Ho|[Hr _]]; [|by destruct Hne].
    pose proof (Hopen _ (proj1 (list_elem_of_In _ _) Ho)) as [H1 H2]%andb_true_iff. cbn [fst] in *. fold xs in Hm'.
    destruct Hor as [Hor|Hor].
    - rewrite (apart_matches _ _ _ _ _ Hp' Hwf H1 Hor) in Hm'. done.
    - rewrite (apart_matches _ _ _ _ _ Hp' (slashed_wf _ Hl Hwf) H2 Hor) in Hm'. done. }
  pose proof (Hroot elems (or_introl (eq_trans (f_equal _ (f_equal _ (eq_sym He))) Hm))) as Hfound.
  rewrite (findHandler_serve t (target_of q) (mkPattern "" [subtree]) (dashboard app o (serve_table webMux)));
    cbn [target_of t_method t_escaped]; fold path; [|by apply (page_method p _ (path_segments path))|exact Hclean|by rewrite He|].
  - f_equal. rewrite He. pose proof (path_segments_nonempty elems) as Hne. by destruct (path_segments ("/"%char :: elems)).
  - rewrite He. apply (root_no_redirect t (target_of q) elems "" (dashboard app o (serve_table webMux))); [exact Hfound|].
    intros Hend. apply (Hroot (elems ++ ["/"%char])). right. rewrite (path_segments_slash elems Hend).
    apply slashed_matches; [done..|]. by rewrite <-He.
Qed.

Lemma page_inner env app webMux pat g p q (path := bytes_of (q_escaped q)) :
  web_table env app = Ret webMux → pat ∈ page_patterns →
  (pat, g) ∈ Register (app_web app) (e_elapsed env) (e_copyJS env) (e_handshakeJS env) →
  parsePattern pat = Some p → cleanPath path = path → matches p (q_method q) (path_segments path) = true →
  findHandler webMux (target_of q) =
    Serve p (λ st w q, web_handler g st w (q_call q)) (default [] (match_segments (segments p) (path_segments path))).
Proof.
  intros Hw Hpage Hin Hp Hclean Hm. pose proof pages_alone as Hal. rewrite forallb_forall in Hal.
  specialize (Hal pat (proj1 (list_elem_of_In _ _) Hpage)). unfold page_alone in Hal. rewrite Hp, !andb_true_iff in Hal.
  destruct Hal as [[[[Hl Hg] Hc] _] Hbest]. apply negb_true_iff in Hl. rewrite forallb_forall in Hbest.
  assert (Hfound : match_ webMux (q_method q) path = Some (p, λ st w q, web_handler g st w (q_call q))).
  { apply (match_exact _ _ pat _ _ _ _ (web_patterns_distinct env app) Hw); [|exact Hp|exact Hm|].
    - apply list_elem_of_fmap. exists (pat, g). exact (conj eq_refl Hin).
    - intros s' Hs' Hne p' Hp' _. assert (Hin' : In s' ("GET /"%string :: page_patterns)) by exact (proj1 (list_elem_of_In _ _) Hs').
      specialize (Hbest s' Hin'). apply orb_true_iff in Hbest as [Hb%bool_decide_eq_true|Hb];
        [by destruct (Hne Hb)|]. exact (proj1 (negb_true_iff _) Hb). }
  apply (findHandler_serve webMux (target_of q)); cbn [target_of t_method t_escaped]; fold path;
    [by apply (page_method p _ (path_segments path))|exact Hclean|exact Hfound|].
  exact (no_slash_redirect webMux (target_of q) path _ _ Hfound Hl).
Qed.
End pages.

(** [C5] Every page answers at its address, and under the caller's session. On the server
    with its gate and without extensions, a request with a clean path that matches one of the
    dashboard's sixteen page patterns, and whose cookie holds a valid session, runs exactly
    that page's handler, with the session in its context and the wildcards' values of the
    path: no other route of the server, however specific, takes the request away. *)
Theorem pages_served_at_their_address `{MacLib} `{NetIP} {St} `{!MemberStore St} {Job LimitProvider}
  (env : environment St) app (o : options_ St Job LimitProvider) a serve pat g p q s0 s st w :
  let path := bytes_of (q_escaped q) in
  o_routes o = [] → app_auth app = Some a → routed env app o = Ret serve →
  pat ∈ page_patterns → (pat, g) ∈ Register (app_web app) (e_elapsed env) (e_copyJS env) (e_handshakeJS env) →
  parsePattern pat = Some p → cleanPath path = path → matches p (q_method q) (path_segments path) = true →
  sessionFromRequest a (c_req (q_call q)) (q_seen q) = Some s0 →
  sessionFromRequest a (c_req (q_call q)) (q_now q) = Some s →
  serve st w q = web_handler g st (secured (app_secure app) w)
    (with_session (q_call (with_values q (default [] (match_segments (segments p) (path_segments path))))) s).
Proof.
  intros path Ho Ha Hr Hpage Hin Hp Hclean Hm Hseen Hnow. unfold routed in Hr.
  destruct (web_table env app) as [webMux|] eqn:Hw; [|done]. cbn [outcome_bind] in Hr.
  destruct (register [] (all_routes env app o (serve_table webMux))) as [t|] eqn:Et; [|done].
  unfold all_routes, mountExtensions in Et. rewrite Ho, app_nil_r in Et. injection Hr as <-.
  pose proof pages_alone as Hal. rewrite forallb_forall in Hal.
  specialize (Hal pat (proj1 (list_elem_of_In _ _) Hpage)).
  change (securityHeaders (app_secure app) (λ st w _, serve_table t st w q) st w (q_call q)) with
    (serve_table t st (secured (app_secure app) w) q).
  unfold serve_table at 1. rewrite (page_outer env app o webMux t pat p q Et Hal Hp Hclean Hm).
  set (w1 := secured (app_secure app) w). unfold dashboard, mountDashboard, gate. rewrite Ha. cbv zeta.
  set (q1 := with_values q []).
  change (sessionFromRequest a (c_req (q_call q1)) (q_now q1) = Some s) in Hnow.
  change (sessionFromRequest a (c_req (q_call q1)) (q_seen q1) = Some s0) in Hseen.
  assert (Hinner : serve_table webMux st w1 (with_call q1 (with_session (q_call q1) s)) =
    web_handler g st w1 (with_session (q_call (with_values q (default [] (match_segments (segments p) (path_segments path))))) s)).
  { unfold serve_table.
    by rewrite (page_inner env app webMux pat g p (with_call q1 (with_session (q_call q1) s)) Hw Hpage Hin Hp Hclean Hm). }
  destruct (o_publicHome o) as [home|]; rewrite Hnow; [|exact Hinner].
  unfold Authenticated. rewrite Hseen, (bool_decide_true (is_Some (Some s0))), andb_false_r by by eexists. exact Hinner.
Qed.

(** The public build over https, asked to create a key with a session of organization "0" and
    the form's token. *)
Definition no_oauth : oauth := mkOAuth (λ _ _, ""%string) (λ _ _, None) (λ _ _, None).
Definition bare_environment {St} : environment St :=
  mkEnvironment no_oauth (λ st w _, Ret (st, w)) defaultMaxBodyCeiling true true (λ _, None) (λ _, None) (λ _ _, None)
    0 "" "" (λ _ _, None) None.
Definition public_options : options_ World () () := no_options.
Definition create_key_req `{MacLib} : req := mkReq "POST" "/setup/keys" create_key_call ("", true) 0 0.
Definition public_server `{MacLib} `{NetIP} `{DBLib} : World → response → req → outcome (World * response) :=
  match routed bare_environment prod_app public_options with Ret h => h | Panic why => λ _ _ _, Panic why end.
Definition world_after (r : outcome (World * response)) (st : World) : World :=
  match r with Ret x => x.1 | Panic _ => st end.

Lemma public_server_routed `{MacLib} `{NetIP} `{DBLib} : routed bare_environment prod_app public_options = Ret public_server.
Proof.
  unfold public_server. by destruct (core_registers bare_environment prod_app public_options eq_refl) as [h ->].
Qed.

Lemma server_acts_for_its_session_witness :
  let _ := toy_mac in let _ := no_ipv6 in let _ := toy_db in
  let st' := world_after (public_server second_key_world fresh_response create_key_req) second_key_world in
  length (keys (w_db second_key_world)) = 1%nat ∧ length (keys (w_db st')) = 2%nat ∧
  ∃ s pat key, sessionFromRequest prod_auth (c_req create_key_call) 0 = Some s ∧ pat ∈ key_forms ∧
    addressed create_key_req pat ∧ h_csrf (app_web prod_app) = Some key ∧
    verify key (OrgID s) (r_form (c_req create_key_call) "csrf_token") = true ∧
    foreign_same (OrgID s) (w_db second_key_world) (w_db st').
Proof.
  cbv zeta. split; [vm_compute; reflexivity|].
  assert (Hlen : length (keys (w_db (world_after (@public_server toy_mac no_ipv6 toy_db second_key_world fresh_response
    (@create_key_req toy_mac)) second_key_world))) = 2%nat) by (vm_compute; reflexivity).
  split; [exact Hlen|].
  destruct (@public_server toy_mac no_ipv6 toy_db second_key_world fresh_response (@create_key_req toy_mac))
    as [[st' w']|] eqn:E; [|cbn in Hlen; by vm_compute in Hlen].
  cbn [world_after fst] in Hlen |- *.
  destruct (@server_acts_for_its_session toy_mac no_ipv6 toy_db _ _ prod_env (@prod_deps toy_db) bare_environment
    public_options (@prod_app toy_db) prod_auth _ _ _ _ _ _ eq_refl eq_refl eq_refl eq_refl eq_refl
    (@public_server_routed toy_mac no_ipv6 toy_db) E) as [Hs|[(pat & Hp & (p & Hparse & Hm))|Hs]].
  - rewrite Hs in Hlen. by vm_compute in Hlen.
  - exfalso. unfold login_patterns in Hp.
    repeat (apply elem_of_cons in Hp as [->|Hp];
      [vm_compute in Hparse; injection Hparse as <-; by vm_compute in Hm|]). by apply elem_of_nil in Hp.
  - exact Hs.
Defined.

(** [C4] A visitor without a valid session sees the open surface and nothing else. On the
    server with its gate and without extensions, a request whose cookie does not verify is
    answered by one of the ten open patterns - the probe, the login pages, the ingest
    service, the documentation - or by the public home at exactly the root when the build has
    one, or by the router's own redirect; or it is refused, with a redirect to the login page
    and under /api/ with a 401, before any handler of the dashboard runs. *)
Theorem strangers_see_the_open_surface `{MacLib} `{NetIP} {St} `{!MemberStore St} {Job LimitProvider}
  (env : environment St) app (o : options_ St Job LimitProvider) a serve st w q st' w' :
  o_routes o = [] → app_auth app = Some a → routed env app o = Ret serve →
  sessionFromRequest a (c_req (q_call q)) (q_now q) = None → serve st w q = Ret (st', w') →
  let w1 := secured (app_secure app) w in
  (∃ pat, pat ∈ open_patterns ∧ addressed q pat) ∨
  st' = st ∧ (router_answers w1 w' ∨ w' = embed FromAuth (λ w, denyUnauthenticated w (c_req (q_call q))) w1 ∨
              ∃ home, o_publicHome o = Some home ∧ path_of q = "/"%string ∧ w' = home w1).
Proof.
  intros Ho Ha Hr Hs Hrun w1.
  destruct (routed_run _ _ _ _ _ _ _ _ _ Ho Hr Hrun) as (webMux & Hw & [[-> Hrt]|(pat & h & values & Hin & Hq & Hh)]);
    [by right; split; [|left]|].
  destruct (core_route_cases _ _ _ _ _ _ Hin) as [Hopen|[-> ->]]; [left; exists pat; exact (conj Hopen Hq)|right].
  unfold dashboard, mountDashboard, gate in Hh. rewrite Ha in Hh. cbv zeta in Hh.
  change (sessionFromRequest a (c_req (q_call (with_values q values))) (q_now (with_values q values)) = None) in Hs.
  destruct (o_publicHome o) as [home|]; rewrite Hs in Hh.
  - destruct (bool_decide _) eqn:Ep; cbn [andb] in Hh; [destruct (negb _)|]; injection Hh as <- <-; (split; [reflexivity|right]).
    + right. exists home. apply bool_decide_eq_true in Ep. exact (conj eq_refl (conj Ep eq_refl)).
    + left. reflexivity.
    + left. reflexivity.
  - injection Hh as <- <-. split; [reflexivity|]. right. left. reflexivity.
Qed.

(** A stranger asks for the form that creates keys. *)
Definition stranger_req : req :=
  mkReq "POST" "/setup/keys" (mkCall (mkRequest "/setup/keys" [] (λ _, "") (λ _, "") (λ _, "")) "" None (λ _, 0) "")%string
    ("", true)%string 0 0.

Lemma strangers_see_the_open_surface_witness :
  let _ := toy_mac in let _ := no_ipv6 in let _ := toy_db in
  match public_server second_key_world fresh_response stranger_req with
  | Ret (st', w') => st' = second_key_world ∧
      w' = embed FromAuth (λ w, denyUnauthenticated w (c_req (q_call stranger_req))) (secured true fresh_response) ∧
      finished w' = (303, [Header "X-Content-Type-Options" "nosniff";
                           Header "Strict-Transport-Security" "max-age=31536000; includeSubDomains";
                           Header "Location" "/login"])
  | Panic _ => False
  end%string.
Proof.
  cbv zeta. destruct (@public_server toy_mac no_ipv6 toy_db second_key_world fresh_response stranger_req)
    as [[st' w']|] eqn:E; [|by vm_compute in E].
  assert (Hfin : finished w' = (303, [Header "X-Content-Type-Options" "nosniff";
    Header "Strict-Transport-Security" "max-age=31536000; includeSubDomains"; Header "Location" "/login"]))
    by (vm_compute in E; by injection E as <- <-).
  destruct (@strangers_see_the_open_surface toy_mac no_ipv6 World _ _ _ bare_environment (@prod_app toy_db)
    public_options prod_auth _ second_key_world fresh_response stranger_req st' w' eq_refl eq_refl
    (@public_server_routed toy_mac no_ipv6 toy_db) eq_refl E) as [(pat & Hp & (p & Hparse & Hm))|(-> & [Hrt|[->|(home & Hh & _)]])].
  - exfalso. unfold open_patterns in Hp.
    repeat (apply elem_of_cons in Hp as [->|Hp];
      [vm_compute in Hparse; injection Hparse as <-; by vm_compute in Hm|]). by apply elem_of_nil in Hp.
  - exfalso. apply (f_equal fst) in Hfin.
    destruct Hrt as [(u & ->)|[(allow & ->)| ->]].
    + rewrite Redirect_finished in Hfin by reflexivity. discriminate Hfin.
    + rewrite Error_status in Hfin by reflexivity. discriminate Hfin.
    + rewrite Error_status in Hfin by reflexivity. discriminate Hfin.
  - split; [done|]. split; [done|exact Hfin].
  - by vm_compute in Hh.
Defined.

(** The page of the service [a/b], by its escaped path. *)
Definition service_req `{MacLib} : req :=
  mkReq "HEAD" "/services/a%2Fb" (mkCall (mkRequest "/services/a/b" [(sessionCookie, encode prod_key prod_session)]
    (λ _, "") (λ _, "") (λ _, "")) "" None (λ _, 0) "")%string ("", true)%string 0 0.

Lemma pages_served_at_their_address_witness :
  let _ := toy_mac in let _ := no_ipv6 in let _ := toy_db in
  ∃ c, r_value (c_req c) "service" = "a/b"%string ∧ c_session c = Some prod_session ∧
    public_server second_key_world fresh_response service_req =
      web_handler (serveEndpoints (app_web prod_app)) second_key_world (secured true fresh_response) c.
Proof.
  cbv zeta.
  pose proof (@pages_served_at_their_address toy_mac no_ipv6 World (@control_store toy_db) _ _ bare_environment (@prod_app toy_db) public_options
    prod_auth (@public_server toy_mac no_ipv6 toy_db) "GET /services/{service}"
    (@serveEndpoints World (app_web (@prod_app toy_db)))
    (mkPattern "GET" [literal "services"; wildcard "service"]) (@service_req toy_mac) prod_session prod_session
    second_key_world fresh_response) as T. cbv zeta in T.
  eexists. split; [|split; [|apply T]]; [vm_compute; reflexivity|reflexivity|reflexivity|reflexivity| | | |reflexivity|
    vm_compute; reflexivity|vm_compute; reflexivity|vm_compute; reflexivity|vm_compute; reflexivity].
  - exact (@public_server_routed toy_mac no_ipv6 toy_db).
  - apply (bool_decide_unpack _). vm_compute. exact I.
  - do 10 right. left.
Defined.

(** ** Extensions *)

(** A route an extension mounts behind the gate runs only with a session that verifies, and
    the readers it is given then name that session's organization and member; without one
    the visitor is refused and nothing changes. *)
Theorem extension_gate_is_sound `{MacLib} `{NetIP} {St} `{!MemberStore St} {Job LimitProvider}
  (env : environment St) app (o : options_ St Job LimitProvider) a next st w q :
  app_auth app = Some a →
  ∃ g org member, Gate (routeContext env app o) = Some g ∧ SessionOrg (routeContext env app o) = Some org ∧
    SessionMemberID (routeContext env app o) = Some member ∧
    match sessionFromRequest a (c_req (q_call q)) (q_now q) with
    | Some s => ∃ q', g next st w q = next st w q' ∧ org q' = Some (OrgID s) ∧ member q' = Some (MemberID s)
    | None => g next st w q = Ret (st, embed FromAuth (λ w, denyUnauthenticated w (c_req (q_call q))) w)
    end.
Proof.
  intros Ha. unfold routeContext. cbn [Gate SessionOrg SessionMemberID]. rewrite Ha. eexists _, _, _.
  do 3 (split; [reflexivity|]). cbn. unfold Middleware_, gate.
  destruct (sessionFromRequest a (c_req (q_call q)) (q_now q)) as [s|]; [|done].
  by exists (with_call q (with_session (q_call q) s)).
Qed.

(** The documentation's frame checks the session twice: a session that expires between the
    two readings of the clock sends a public page's visitor to the login. *)
Definition expiring_doc_req `{MacLib} : req :=
  mkReq "GET" "/doc" (mkCall (mkRequest "/doc" [(sessionCookie, encode prod_key prod_session)]
    (λ _, "") (λ _, "") (λ _, "")) "" None (λ _, 0) "")%string ("", true)%string
    (UnixSec 1999999999) (UnixSec 2000000000).
Definition one_page_environment {St} : environment St :=
  mkEnvironment no_oauth (λ st w _, Ret (st, w)) defaultMaxBodyCeiling true true (λ _, Some "# doc"%string)
    (λ s, Some s) (λ s _, Some s) 0 "" "" (λ _ _, None) None.

Lemma expiring_doc_page_redirects :
  let _ := toy_mac in let _ := no_ipv6 in let _ := toy_db in
  match routed one_page_environment prod_app public_options with
  | Ret serve =>
      match serve second_key_world fresh_response expiring_doc_req with
      | Ret (_, w) => (finished w).1 = 303 ∧ locations_of (finished w).2 = ["/login"%string]
      | Panic _ => False
      end
  | Panic _ => False
  end.
Proof. vm_compute. by split. Qed.

(** Options apply in the order given: routes and jobs accumulate, the last header stays. *)
Lemma apply_options_snoc {St} {Job LimitProvider : Type} (opts : list (Option_ (St:=St) (Job:=Job) (LimitProvider:=LimitProvider))) opt :
  apply_options (opts ++ [opt]) = opt (apply_options opts).
Proof. unfold apply_options. by rewrite fold_left_app. Qed.
