(* ===== verification/PageSafety.v ===== *)
(** * Data stays data, on every page of the server

    The assembled server (file Server), its pages rendered through their templates (file
    Render): whatever the request, the session, the database and the queries hold, every HTML
    page of the response runs to its end, and nothing a caller can store or send leaves the
    text or the attribute value it is printed in. *)

From Stdlib Require Import ZArith Lia Ascii.
From Stdlib Require String.
From stdpp Require Import base option gmap strings list.
From S2P Require Import Docs.
From S2P Require Import Prelude GoString GoTime GoUrl GoQuery GoRunes GoHtml GoTemplate Http Mux Markup Token Storage.
From S2P Require Import Auth Guardrail Control Views Range Verdict Diagnosis Pages Chart ChartMarkup Dashboard Routes ViewData Render App Server.

Local Open Scope Z_scope.
Local Open Scope go_scope.

(** ** The HTML of the server's pages *)

Section pages.
Context `{CaseTable}.

Definition page_html (p : App.page) : option html_page :=
  match p with
  | FromWeb p => dashboard_html p
  | FromAuth p => auth_html p
  | FromDoc p => docs_html p
  | Plain _ => None
  end.

(** The [template.HTML] values of a page. *)
Definition page_trusted (p : App.page) : list string :=
  match p with
  | FromWeb p => dashboard_trusted p
  | FromDoc p => docs_trusted p
  | FromAuth _ | Plain _ => []
  end.
Definition trusted_ok (p : App.page) : Prop := Forall balanced (page_trusted p).

(** Within any depth of calls the page needs, the template runs to its end, the data stays
    where it stands, and the page is back in text when it ends. *)
Definition renders (p : App.page) : Prop :=
  ∀ hp depth, page_html p = Some hp → (call_depth ≤ depth)%nat →
    ∃ cs, execute depth hp = Ok cs ∧ confined HText cs ∧ balanced (output cs).

Lemma served_confined hp parts depth :
  served hp parts → Forall balanced parts → (call_depth ≤ depth)%nat →
  ∃ cs, execute depth hp = Ok cs ∧ confined HText cs ∧ balanced (output cs).
Proof.
  intros Hs Hp Hd. destruct (served_runs balanced hp parts depth Hs Hp Hd) as (cs & Hcs & Hok & Hf).
  destruct (Hf HText cs) as [Hc Hr]; [by left|done|done|]. exists cs. split; [done|]. split; [done|].
  unfold balanced. rewrite bytes_of_output. by apply list_elem_of_singleton in Hr.
Qed.

Lemma served_ok hp parts depth : served hp parts → (call_depth ≤ depth)%nat → ∃ cs, execute depth hp = Ok cs.
Proof.
  intros Hs Hd. destruct (served_runs (λ _, True) hp parts depth Hs) as (cs & Hcs & _); [|done|by exists cs].
  apply Forall_forall. done.
Qed.

Lemma page_served p hp : page_html p = Some hp → served hp (page_trusted p).
Proof.
  intros Hp. destruct p; cbn [page_html page_trusted] in *;
    [by eapply served_auth|by eapply served_web|by eapply served_docs|discriminate Hp].
Qed.

Lemma trusted_renders p : trusted_ok p → renders p.
Proof.
  intros Hok hp depth Hp Hd. by apply (served_confined hp (page_trusted p)); [apply page_served| |].
Qed.

(** The in-app fragment of the documentation ([renderInApp]): the template's text, or the
    error of its execution. *)
Definition doc_fragment (depth : nat) (body : string) (rail : list navGroup) : option string :=
  match execute depth (fragment_html body rail) with Ok cs => Some (output cs) | Err _ => None end.

Lemma doc_fragment_balanced depth body rail s :
  (call_depth ≤ depth)%nat → balanced body → doc_fragment depth body rail = Some s → balanced s.
Proof.
  intros Hd Hb. unfold doc_fragment.
  destruct (served_confined _ _ depth (served_fragment body rail) (Forall_cons_2 _ _ _ Hb (Forall_nil_2 _)) Hd)
    as (cs & -> & _ & Hbal). by intros [= <-].
Qed.
End pages.

(** ** What the dashboard's handlers write *)

Section writes.
Context {B : Type} (G : B → Prop).
Implicit Types (w : Response B).

(** Every page written so far is a good one. *)
Definition wrote w : Prop := Forall G (body w).

Lemma wrote_header w k v : wrote w → wrote (set_header w k v).
Proof. done. Qed.
Lemma wrote_cookie w c : wrote w → wrote (SetCookie w c).
Proof. done. Qed.
Lemma wrote_status w code : wrote w → wrote (WriteHeader w code).
Proof. unfold WriteHeader. by destruct (sent w) as [[]|]. Qed.
Lemma wrote_Write w b : wrote w → G b → wrote (Write w b).
Proof. intros Hw Hb. unfold wrote, Write. cbn. apply Forall_app_2; [by apply (wrote_status w 200)|by repeat constructor]. Qed.
Lemma wrote_Error w b code : wrote w → G b → wrote (Error w b code).
Proof. intros Hw Hb. unfold Error. by apply wrote_Write, Hb; apply wrote_status, wrote_header, wrote_header. Qed.
Lemma wrote_Redirect `{NetIP} w url code : wrote w → wrote (Redirect w url code).
Proof. intros Hw. by apply wrote_status, wrote_header. Qed.
End writes.
#[export] Hint Resolve wrote_header wrote_cookie wrote_status wrote_Write wrote_Error wrote_Redirect : wrote.

(** A page of the dashboard whose trusted parts are balanced; only the endpoint page and an
    embedded page have any. *)
Definition sound_page (p : Dashboard.page) : Prop := Forall balanced (dashboard_trusted p).
#[export] Hint Extern 0 (sound_page _) => exact (Forall_nil_2 _) : wrote.

Lemma wrote_writeJSON w p : wrote sound_page w → sound_page p → wrote sound_page (writeJSON w p).
Proof. unfold writeJSON. intros Hw Hp. destruct (encodable p); auto with wrote. Qed.
#[export] Hint Resolve wrote_writeJSON : wrote.

(** Whatever a computation returns, its response holds sound pages only. *)
Definition sound_run {St} (o : outcome (St * Response Dashboard.page)) : Prop := ends (λ x, wrote sound_page x.2) o.

Ltac wrote := unfold sound_run, ends; cbn [outcome_bind snd]; unfold render, NotFound, serverError, serveJS, html_headers; auto 10 with wrote.

(** *** The diagnosis keeps the chart it was given *)

Definition own_chart (p : diagnosisParams) (c : string) : Prop := c = ""%string ∨ c = pMemoryChart p.

Lemma candidate_charts p l : candidates p = Ret l → Forall (λ c, own_chart p (chart c)) l.
Proof.
  unfold candidates. destruct (causeInstanceLocalized _) as [c|] eqn:Hi; [|done]. intros [= <-].
  repeat apply List.Forall_cons; try apply List.Forall_nil;
    try (unfold causeMemory, causeCPU, causeCongestion, causeOverload, causeGoroutineLeak, causeDownstream, causeRelease, own_chart;
         by repeat case_match; cbn; tauto).
  unfold causeInstanceLocalized in Hi. destruct (_ <$> _); [injection Hi as <-; by left|].
  destruct (median _); [|done]. cbn [outcome_bind] in Hi. destruct (worstOutlier _); injection Hi as <-; by left.
Qed.

Lemma shown_chart p d : computeDiagnosis p = Ret d → own_chart p (tcChart (dgTopCause d)).
Proof.
  unfold computeDiagnosis. destruct (anomalous p); cbn [negb]; [|intros [= <-]; by left].
  destruct (candidates p) as [l|] eqn:Hl; [|done]. cbn [outcome_bind].
  apply candidate_charts in Hl. destruct (Diagnosis.rank l) as [|top others] eqn:Hr; intros [= <-]; [by left|].
  assert (Hin : top ∈ Diagnosis.rank l) by (rewrite Hr; by left).
  unfold Diagnosis.rank in Hin. rewrite sort_stable_perm in Hin. apply list_elem_of_filter in Hin as [_ Hin].
  rewrite Forall_forall in Hl. exact (Hl _ Hin).
Qed.

Lemma memory_chart_balanced p c :
  balanced (pMemoryChart p) → own_chart p c → balanced c.
Proof. by intros Hb [->| ->]. Qed.

(** The endpoint page's charts are the ones drawn from its queries. *)
Lemma detail_body_sound shell s m r win from to now custom step detail p d :
  detail_body shell s m r win from to now custom step detail p = Ret d → sound_page (DetailPage d).
Proof.
  unfold detail_body. destruct (computeVerdict _ _ _) as [v|]; [|done]. cbn [outcome_bind].
  destruct (computeMemoryVerdict _) as [mv|]; [|done]. cbn [outcome_bind].
  destruct (toInstanceRows _) as [rows|]; [|done]. cbn [outcome_bind].
  destruct (baselineMedianP95 _) as [base|]; [|done]. cbn [outcome_bind].
  destruct (computeDiagnosis _) as [diag|] eqn:Hd; [|done]. intros [= <-]. apply shown_chart in Hd.
  repeat apply Forall_cons_2; [apply timeSeriesSVG_balanced|apply histogramSVG_balanced| |apply Forall_nil_2].
  eapply memory_chart_balanced; [|exact Hd]. apply memoryTrendSVG_balanced.
Qed.

(** *** Every route *)

Section dashboard.
Context `{MacLib} `{NetIP} {St : Type} (h : Handler St).
Implicit Types (st : St) (w : Response Dashboard.page) (c : call).

(** A handler that writes sound pages only. *)
Definition writes_sound (f : St → Response Dashboard.page → call → outcome (St * Response Dashboard.page)) : Prop :=
  ∀ st w c st' w', wrote sound_page w → f st w c = Ret (st', w') → wrote sound_page w'.

Lemma writes_sound_run f : (∀ st w c, wrote sound_page w → sound_run (f st w c)) → writes_sound f.
Proof. intros Hf st w c st' w' Hw Hr. exact (ends_Ret _ _ _ (Hf st w c Hw) Hr). Qed.

Lemma with_tenant_wrote st w c k :
  wrote sound_page w → (∀ tid, sound_run (k tid)) → sound_run (with_tenant h st w c k).
Proof. intros Hw Hk. unfold with_tenant. destruct (h_tenant h c); [apply Hk|wrote]. Qed.
Lemma with_csrf_wrote st w c tid k :
  wrote sound_page w → sound_run k → sound_run (with_csrf h st w c tid k).
Proof. intros Hw Hk. unfold with_csrf. destruct (h_csrf h); [destruct (verify _ _ _); [done|]|]; wrote. Qed.
Lemma teamAction_wrote st w c k :
  wrote sound_page w → (∀ ma tid, sound_run (k ma tid)) → sound_run (teamAction h st w c k).
Proof.
  intros Hw Hk. apply with_tenant_wrote; [done|]. intros tid. destruct (h_members h); [|wrote].
  apply with_csrf_wrote; [done|]. destruct (isAdmin h c); [apply Hk|wrote].
Qed.
Lemma renderSetup_wrote st w c tid win ex : wrote sound_page w → sound_run (renderSetup h st w c tid win ex).
Proof.
  intros Hw. unfold renderSetup. forget_calls. destruct (populateKeys _ _ _ _ _) as [sk|]; [|done]. cbn [outcome_bind].
  destruct (populateTeam _ _ _ _ _ _) as [sm|]; [|done]. wrote.
Qed.
Lemma renderOnboarding_wrote st w c tid win : wrote sound_page w → wrote sound_page (renderOnboarding h st w c tid win).2.
Proof. intros Hw. unfold renderOnboarding. forget_calls. wrote. Qed.

Lemma serveOverview_wrote : writes_sound (serveOverview h).
Proof.
  apply writes_sound_run. intros st w c Hw. unfold serveOverview. destruct (bool_decide _); [wrote|].
  apply with_tenant_wrote; [done|]. intros tid. cbn zeta. destruct (windowRange _ _).
  destruct (HasAnySummary _) as [[]|]; [|by apply renderOnboarding_wrote|wrote].
  destruct (Services _ _ _); [|wrote]. forget_calls. wrote.
Qed.
Lemma servePerformance_wrote elapsed : writes_sound (λ st w c, servePerformance h st w c elapsed).
Proof. apply writes_sound_run. intros st w c Hw. apply with_tenant_wrote; [done|]. intros tid. cbn zeta. forget_calls. wrote. Qed.
Lemma serveEndpoints_wrote : writes_sound (serveEndpoints h).
Proof.
  apply writes_sound_run. intros st w c Hw. apply with_tenant_wrote; [done|]. intros tid. cbn zeta.
  destruct (windowRange _ _), (Endpoints _ _ _ _); [|wrote]. forget_calls. wrote.
Qed.
Lemma json_query_wrote {A} (q : ScopedQuery → string → string → string → Time → Time → option A) out :
  (∀ a, sound_page (out a)) → writes_sound (λ st w c, json_query h st w c q out).
Proof.
  intros Hout. apply writes_sound_run. intros st w c Hw. apply with_tenant_wrote; [done|]. intros tid.
  destruct (windowRange _ _), (q _ _ _ _ _ _); wrote.
Qed.
Lemma serveHandshakeFragment_wrote : writes_sound (serveHandshakeFragment h).
Proof. apply writes_sound_run. intros st w c Hw. apply with_tenant_wrote; [done|]. intros tid. forget_calls. wrote. Qed.
Lemma serveSetup_wrote : writes_sound (serveSetup h).
Proof. apply writes_sound_run. intros st w c Hw. apply with_tenant_wrote; [done|]. intros tid. by apply renderSetup_wrote. Qed.
Lemma serveJS_wrote script : writes_sound (λ st w c, Ret (st, serveJS w script)).
Proof. apply writes_sound_run. intros st w c Hw. wrote. Qed.
Lemma serveCreateKey_wrote : writes_sound (serveCreateKey h).
Proof.
  apply writes_sound_run. intros st w c Hw. apply with_tenant_wrote; [done|]. intros tid. destruct (h_keys h); [|wrote].
  apply with_csrf_wrote; [done|]. cbv zeta. destruct (IssueKey k st _ _) as [st' [tok|]]; [by apply renderSetup_wrote|wrote].
Qed.
Lemma serveRevokeKey_wrote : writes_sound (serveRevokeKey h).
Proof.
  apply writes_sound_run. intros st w c Hw. apply with_tenant_wrote; [done|]. intros tid. destruct (h_keys h); [|wrote].
  apply with_csrf_wrote; [done|]. forget_calls. wrote.
Qed.
Lemma serveCreateInvite_wrote : writes_sound (serveCreateInvite h).
Proof.
  apply writes_sound_run. intros st w c Hw. apply teamAction_wrote; [done|]. intros ma tid. cbn zeta.
  destruct (_ || _); [wrote|]. destruct (CreateInvite ma st _ _ _ _) as [st' [link|]]; by apply renderSetup_wrote.
Qed.
Lemma teamMutation_wrote do_ : writes_sound (λ st w c, teamMutation h st w c do_).
Proof. apply writes_sound_run. intros st w c Hw. apply teamAction_wrote; [done|]. intros ma tid. forget_calls. wrote. Qed.
Lemma serveEndpointDetail_wrote : writes_sound (serveEndpointDetail h).
Proof.
  apply writes_sound_run. intros st w c Hw. apply with_tenant_wrote; [done|]. intros tid. cbv zeta.
  destruct (resolveDetailRange _ _ _) as [[from to] custom]. destruct (EndpointDetail_ _ _ _ _ _ _); [|wrote].
  forget_calls. destruct (detail_body _ _ _ _ _ _ _ _ _ _ _ _) as [d|] eqn:Hd; [|done].
  apply detail_body_sound in Hd. wrote.
Qed.

Lemma Register_wrote elapsed js1 js2 pat f : (pat, f) ∈ Register h elapsed js1 js2 → writes_sound f.
Proof.
  intros Hin. change f with (pat, f).2. revert Hin. generalize (pat, f). apply Forall_forall.
  unfold Register. repeat apply List.Forall_cons; try apply List.Forall_nil; cbn [snd]; first
    [ apply serveOverview_wrote | apply servePerformance_wrote | apply serveEndpoints_wrote
    | apply json_query_wrote; intros a; exact (Forall_nil_2 _) | apply serveHandshakeFragment_wrote | apply serveSetup_wrote
    | apply serveJS_wrote | apply serveCreateKey_wrote | apply serveRevokeKey_wrote | apply serveCreateInvite_wrote
    | apply teamMutation_wrote | apply serveEndpointDetail_wrote ].
Qed.
End dashboard.

(** ** Every route of the server *)

Section server.
Context `{CaseTable} `{MacLib} `{NetIP} {St : Type} `{!MemberStore St} {Job LimitProvider : Type}.
Abbreviation handler := (St → App.response → req → outcome (St * App.response)) (only parsing).
Implicit Types (env : environment St) (app : App St) (o : options_ St Job LimitProvider) (q : req).
#[local] Hint Extern 0 (trusted_ok _) => exact (Forall_nil_2 _) : wrote.

Definition keeps_sound (f : handler) : Prop :=
  ∀ st w q st' w', wrote trusted_ok w → f st w q = Ret (st', w') → wrote trusted_ok w'.

(** What the assembly is given keeps to it: the service behind the ingest path and the public
    home write no unbalanced markup of their own, Markdown is turned into balanced markup, the
    documentation's header is balanced, and its fragment is the template's. *)
Record env_sound env o (depth : nat) : Prop := {
  es_ingest : keeps_sound (e_ingest env);
  es_home : ∀ home w, o_publicHome o = Some home → wrote trusted_ok w → wrote trusted_ok (home w);
  es_markdown : ∀ src s, e_markdown env src = Some s → balanced s;
  es_header : balanced (o_docHeader o);
  es_fragment : ∀ body rail, e_appTmpl env body rail = doc_fragment depth body rail;
  es_depth : (call_depth ≤ depth)%nat;
}.

(** A dashboard handler, or a login handler, on the server's response. *)
Lemma embedded_wrote {A} (inj : A → App.page) (G : A → Prop) (w : App.response) (v : Response A) :
  (∀ a, G a → trusted_ok (inj a)) → wrote trusted_ok w → wrote G v →
  wrote trusted_ok (mkResponse (pending v) (sent v) (body w ++ (inj <$> body v))).
Proof.
  intros Hi Hw Hv. apply Forall_app_2; [done|]. apply Forall_fmap. eapply Forall_impl; [exact Hv|]. exact Hi.
Qed.

Lemma web_handler_wrote f (st : St) w c st' w' :
  writes_sound f → wrote trusted_ok w → web_handler f st w c = Ret (st', w') → wrote trusted_ok w'.
Proof.
  intros Hf Hw. unfold web_handler.
  match goal with |- context [f ?x ?y ?z] => destruct (f x y z) as [[st1 w1]|] eqn:E end; [|done].
  intros [= _ <-]. apply (embedded_wrote FromWeb sound_page w w1); [done|done|].
  eapply Hf; [|exact E]. apply Forall_nil_2.
Qed.

Lemma auth_handler_keeps (f : St → Response Auth.page → req → St * Response Auth.page) : keeps_sound (auth_handler f).
Proof.
  intros st w q st' w' Hw. unfold auth_handler.
  match goal with |- context [f ?x ?y ?z] => destruct (f x y z) as [st1 w1] end.
  intros [= _ <-]. apply (embedded_wrote FromAuth (λ _, True) w w1); [intros a _; exact (Forall_nil_2 _)|done|].
  apply Forall_forall. done.
Qed.

Lemma gate_wrote a now next (st : St) w c st' w' :
  (∀ c st' w', next st w c = Ret (st', w') → wrote trusted_ok w') → wrote trusted_ok w →
  gate a now next st w c = Ret (st', w') → wrote trusted_ok w'.
Proof.
  intros Hn Hw. unfold gate. destruct (sessionFromRequest _ _ _); [apply Hn|]. intros [= _ <-].
  apply (embedded_wrote FromAuth (λ _, True)); [intros p _; exact (Forall_nil_2 _)|done|]. apply Forall_forall. done.
Qed.

Lemma secured_wrote secure : wrote trusted_ok (secured secure fresh_response).
Proof. destruct secure; apply Forall_nil_2. Qed.
Lemma router_wrote w w' : router_answers w w' → wrote trusted_ok w → wrote trusted_ok w'.
Proof. intros [[u ->]|[[allow ->]| ->]] Hw; wrote. Qed.

Lemma serve_table_keeps (es : list (string * handler)) t :
  (∀ s f, (s, f) ∈ es → keeps_sound f) → register [] es = Ret t → keeps_sound (serve_table t).
Proof.
  intros Hes Ht st w q st' w' Hw Hr. destruct (serve_table_run es t st w q st' w' Ht Hr) as [[-> Ha]|(s & f & v & Hin & _ & Hf)].
  - by eapply router_wrote.
  - by eapply Hes.
Qed.

Lemma web_table_keeps env app webMux : web_table env app = Ret webMux → keeps_sound (serve_table webMux).
Proof.
  apply serve_table_keeps. intros s f Hin. apply list_elem_of_fmap in Hin as ([s' g] & [= -> ->] & Hin).
  intros st w q st' w' Hw. apply web_handler_wrote; [|done]. by eapply Register_wrote.
Qed.

Lemma dashboard_keeps env app o depth webMux :
  env_sound env o depth → keeps_sound webMux → keeps_sound (dashboard app o webMux).
Proof.
  intros He Hm st w q st' w' Hw. unfold dashboard, mountDashboard.
  assert (Hg : ∀ c st' w', webMux st w (with_call q c) = Ret (st', w') → wrote trusted_ok w') by (intros c s v; by apply Hm).
  destruct (app_auth app) as [a|]; [|apply Hg].
  destruct (o_publicHome o) as [home|] eqn:Hh; [|by apply gate_wrote].
  destruct (_ && _); [|by apply gate_wrote]. intros [= _ <-]. by apply (es_home _ _ _ He).
Qed.

Lemma RenderDocPage_wrote (h : Dashboard.Handler St) title content :
  balanced content → writes_sound (λ st w c, Ret (RenderDocPage h st w c title content)).
Proof.
  intros Hb. apply writes_sound_run. intros st w c Hw. unfold RenderDocPage, renderShellContent. forget_calls. cbn [sound_run ends snd].
  apply wrote_Write; [by apply wrote_header|]. apply Forall_cons_2; [done|apply Forall_nil_2].
Qed.

Lemma docs_keeps env app o depth slug href :
  env_sound env o depth →
  keeps_sound (λ st w q, Docs.serveFile path_of FromDoc (e_readFile env) (e_markdown env) (e_appTmpl env)
                           (docsHandler app o) slug href q st w).
Proof.
  intros He st w q st' w' Hw. unfold Docs.serveFile. destruct (e_readFile env _) as [src|]; [|intros [= _ <-]; wrote].
  destruct (e_markdown env src) as [body|] eqn:Hm; [|intros [= _ <-]; wrote]. apply (es_markdown _ _ _ He) in Hm.
  assert (Hshell : ∀ title st' w', Docs.render_shell path_of FromDoc (docsHandler app o) title body q st w = Ret (st', w') →
    wrote trusted_ok w').
  { intros title s v. unfold Docs.render_shell. intros [= _ <-].
    apply wrote_Write; [by repeat apply wrote_header|]. repeat apply Forall_cons_2; [done|apply (es_header _ _ _ He)|apply Forall_nil_2]. }
  unfold Docs.Render. cbn [docsHandler Docs.inapp].
  destruct (app_auth app) as [a|]; cbn [fmap option_fmap option_map fst snd]; [|apply Hshell].
  destruct (Authenticated _ _ _); [|apply Hshell].
  unfold Docs.renderInApp. rewrite (es_fragment _ _ _ He).
  destruct (doc_fragment depth body _) as [frag|] eqn:Hfr; [|intros [= _ <-]; wrote].
  apply (doc_fragment_balanced _ _ _ _ (es_depth _ _ _ He) Hm) in Hfr.
  unfold Middleware_. apply gate_wrote; [|done]. intros c s v. by apply web_handler_wrote; [apply RenderDocPage_wrote|].
Qed.

Lemma core_routes_keep env app o depth webMux s f :
  env_sound env o depth → keeps_sound webMux → (s, f) ∈ core_routes env app o webMux → keeps_sound f.
Proof.
  intros He Hm. unfold core_routes. rewrite !elem_of_cons, !elem_of_app.
  intros [[= -> ->]|[[= -> ->]|[Hs|[Hs|Hs]]]].
  - intros st w q st' w' Hw. unfold healthHandler. destruct (e_ready env); intros [= _ <-]; wrote.
  - by eapply dashboard_keeps.
  - destruct (app_auth app) as [a|]; [|by apply elem_of_nil in Hs].
    unfold Register_auth in Hs. rewrite !elem_of_app in Hs. destruct Hs as [Hs|Hs].
    + repeat (apply elem_of_cons in Hs as [[= -> ->]|Hs]; [apply auth_handler_keeps|]). by apply elem_of_nil in Hs.
    + destruct (devLogin a); [|by apply elem_of_nil in Hs]. apply list_elem_of_singleton in Hs as [= -> ->].
      apply auth_handler_keeps.
  - apply list_elem_of_singleton in Hs as [= -> ->]. intros st w q st' w'. apply (es_ingest _ _ _ He).
  - repeat (apply elem_of_cons in Hs as [[= -> ->]|Hs];
      [intros st w q st' w' Hw Hr; revert Hw Hr; apply (docs_keeps env app o depth _ _ He)|]). by apply elem_of_nil in Hs.
Qed.
End server.

(** ** The pages *)

(** [C13] Every page renders. On whatever data, the template of every page the server writes -
    the dashboard's eight, the sign-in and key pages, the documentation and its in-app
    fragment - parses, passes the contextual escaper and runs to its end: no action names a
    field the data does not have, calls a function on a value of another type, indexes or
    compares what cannot be, or calls a template that is not there. *)
Theorem every_page_renders `{CaseTable} (p : App.page) (hp : html_page) (depth : nat) :
  page_html p = Some hp → (call_depth ≤ depth)%nat →
  (∃ cs, execute depth hp = Ok cs) ∧ ∀ body rail, is_Some (doc_fragment depth body rail).
Proof.
  intros Hp Hd. split; [exact (served_ok _ _ _ (page_served _ _ Hp) Hd)|]. intros body rail. unfold doc_fragment.
  destruct (served_ok _ _ _ (served_fragment body rail) Hd) as [cs ->]. by eexists.
Qed.

(** [C6] Data stays data. Whatever request arrives at the server without extensions, and
    whatever the session, the control plane and the data plane hold, every HTML page of the
    response runs to its end with its data confined: no prefix of a value a client stored, a
    caller sent or the database returned moves a browser's tokenizer out of the text or the
    quoted attribute value it was printed in, and the page is back in text at its end. The
    charts drawn from the data and the documentation's fragment are trusted markup; they are
    balanced, whatever they were drawn from. *)
Theorem data_stays_data `{CaseTable} `{MacLib} `{NetIP} {St} `{!MemberStore St} {Job LimitProvider}
  (env : environment St) (app : App St) (o : options_ St Job LimitProvider) depth serve st q st' w' :
  env_sound env o depth → o_routes o = [] → routed env app o = Ret serve →
  serve st fresh_response q = Ret (st', w') → Forall renders (body w').
Proof.
  intros He Ho Hr Hs. destruct (routed_run env app o serve st fresh_response q st' w' Ho Hr Hs)
    as (webMux & Hm & [[_ Ha]|(s & f & values & Hin & _ & Hf)]).
  - eapply Forall_impl; [|exact trusted_renders]. eapply router_wrote; [exact Ha|]. apply secured_wrote.
  - eapply Forall_impl; [|exact trusted_renders].
    eapply (core_routes_keep env app o depth); [done|by eapply web_table_keeps|exact Hin| |exact Hf]. apply secured_wrote.
Qed.

(** The public build with one page of documentation; its Markdown is one escaped paragraph. *)
Definition paragraph (src : string) : string := str_concat ["<p>"; htmlReplacer src; "</p>"]%string.
Definition doc_environment `{CaseTable} {St} : environment St :=
  mkEnvironment no_oauth (λ st w _, Ret (st, w)) defaultMaxBodyCeiling true true (λ _, Some "a < b"%string)
    (λ src, Some (paragraph src)) (doc_fragment call_depth) 0 "" "" (λ _ _, None) None.

Lemma paragraph_balanced src : balanced (paragraph src).
Proof.
  unfold paragraph, balanced. cbn [str_concat]. rewrite !bytes_of_app, !run_app.
  replace (run HText (bytes_of "<p>")) with HText by reflexivity.
  rewrite (run_settled HText (bytes_of (htmlReplacer src))); [reflexivity|reflexivity|apply htmlReplacer_inert].
Qed.

Lemma doc_environment_sound `{CaseTable} `{MacLib} {St} `{!MemberStore St} {Job LimitProvider} :
  env_sound (doc_environment : environment St) (no_options : options_ St Job LimitProvider) call_depth.
Proof.
  split; [by intros st w q st' w' Hw [= _ <-]|done| | |done|done].
  - intros src s [= <-]. apply paragraph_balanced.
  - reflexivity.
Qed.

(** A link to the login page that tries to leave the hidden field it is carried in. *)
Definition hostile_next : string := raw "/`><script>alert(1)</script>".
Definition login_req : req :=
  mkReq "GET" "/login" (mkCall (mkRequest "/login" [] (λ k, if String.eqb k "next" then hostile_next else "")
    (λ _, "") (λ _, "")) "" None (λ _, 0) "")%string ("", true)%string 0 0.
Definition login_data : loginData := mkLoginData false false true hostile_next.

Definition doc_server `{CaseTable} `{MacLib} `{NetIP} `{DBLib} : outcome (World → App.response → req → outcome (World * App.response)) :=
  routed doc_environment prod_app public_options.
Definition body_after (r : outcome (World * App.response)) : list App.page :=
  match r with Ret x => body x.2 | Panic _ => [] end.

Definition plain_case : CaseTable := {| upper_rune r := r |}.

Lemma every_page_renders_witness :
  let _ := plain_case in
  (∃ cs, execute call_depth (mkHtml loginPage [] "login" (to_value login_data)) = Ok cs)
  ∧ is_Some (doc_fragment call_depth "<p>" [mkGroup "Guides" [mkLink "Start" "/doc" true]]).
Proof.
  cbv zeta.
  destruct (@every_page_renders plain_case (FromAuth (LoginPage false false true hostile_next))
    (mkHtml loginPage [] "login" (to_value login_data)) call_depth eq_refl (Nat.le_refl _)) as [Hp Hf].
  split; [exact Hp|apply Hf].
Defined.

Lemma data_stays_data_witness :
  let _ := plain_case in let _ := toy_mac in let _ := no_ipv6 in let _ := toy_db in
  ∃ serve st' w' cs, doc_server = Ret serve ∧
    serve second_key_world fresh_response login_req = Ret (st', w') ∧
    body w' = [FromAuth (LoginPage false false true hostile_next)] ∧
    execute call_depth (mkHtml loginPage [] "login" (to_value login_data)) = Ok cs ∧ confined HText cs ∧ balanced (output cs).
Proof.
  cbv zeta. destruct (@core_registers toy_mac no_ipv6 World (@control_store toy_db) () () (@doc_environment plain_case World)
    (@prod_app toy_db) public_options eq_refl) as [serve Hserve].
  assert (Hbody : match @doc_server plain_case toy_mac no_ipv6 toy_db with
    | Ret serve => body_after (serve second_key_world fresh_response login_req) | Panic _ => [] end =
    [FromAuth (LoginPage false false true hostile_next)]) by (vm_compute; reflexivity).
  unfold doc_server in *. rewrite Hserve in Hbody. unfold body_after in Hbody.
  destruct (serve second_key_world fresh_response login_req) as [[st' w']|] eqn:Hs; [|discriminate Hbody].
  pose proof (@data_stays_data plain_case toy_mac no_ipv6 World (@control_store toy_db) () () doc_environment (@prod_app toy_db)
    public_options call_depth serve second_key_world login_req st' w' (@doc_environment_sound plain_case toy_mac World (@control_store toy_db) () ()) eq_refl Hserve Hs) as Hr.
  cbn [snd] in Hbody. rewrite Hbody in Hr. apply Forall_cons in Hr as [Hr _].
  destruct (Hr _ call_depth eq_refl (Nat.le_refl _)) as (cs & Hcs & Hc & Hb).
  exists serve, st', w', cs. split; [exact Hserve|]. split; [exact Hs|]. split; [exact Hbody|]. split; [exact Hcs|]. by split.
Defined.

(** What the browser receives: the quotation mark and the angle brackets are references. *)
Example hostile_next_is_quoted :
  match execute call_depth (mkHtml loginPage [] "login" (to_value login_data)) with
  | Ok cs => omap (λ c, match c with Data d => Some d | _ => None end) cs
  | Err _ => []
  end = ["/&#34;&gt;&lt;script&gt;alert(1)&lt;/script&gt;"]%string.
Proof. vm_compute. reflexivity. Qed.
