(* ===== verification/Links.v ===== *)
(** * The links of the endpoints table

    A row of the endpoints table carries a link whose parts are a service name, a method, a
    route and the window, each put through the escapers of its place. A browser undoes the
    character references; the server's router splits the path and decodes the service, the
    handler parses the query. The file follows a link through all of them. *)

From Stdlib Require Import ZArith Lia Floats Ascii.
From Stdlib Require String.
From stdpp Require Import base option gmap sets strings list.
From S2P Require Import Prelude Auth Control GoString GoUrl GoQuery GoRunes GoHtml GoTemplate Markup Http Mux Storage.
From S2P Require Import Views Pages Dashboard Routes ViewData Render App Server PageSafety.

Local Open Scope Z_scope.
Local Open Scope go_scope.

(** ** Escaped parts of a link *)

(** What the URL escapers write for a byte that starts no escape of its own. *)
Definition esc_byte (norm : bool) (a : ascii) : list ascii :=
  if url_unreserved a || (norm && url_reserved a) then [a] else percent a.
Definition url_byte (a : ascii) : bool := url_unreserved a || byte_is 37 a.

Lemma process_url_cons norm a l :
  norm = false ∨ byte_is 37 a = false → process_url norm (a :: l) = esc_byte norm a ++ process_url norm l.
Proof.
  intros Hn. cbn [process_url]. unfold esc_byte. f_equal.
  assert (norm && byte_is 37 a = false) as -> by (destruct Hn as [-> | ->]; [done|apply andb_false_r]).
  cbn [andb]. by rewrite orb_false_r.
Qed.

Lemma esc_byte_elem norm a b : b ∈ esc_byte norm a → b = a ∧ norm = true ∧ url_reserved a = true ∨ url_byte b = true.
Proof.
  unfold esc_byte. destruct (url_unreserved a) eqn:Hu.
  - cbn. intros ->%list_elem_of_singleton. right. unfold url_byte. by rewrite Hu.
  - destruct norm; [destruct (url_reserved a)|]; cbn [orb andb];
      try (intros ->%list_elem_of_singleton; left; done); intros Hb; right; revert Hb; clear;
      unfold percent; rewrite !elem_of_cons, elem_of_nil; intros [->|[->|[->|[]]]]; [done|..];
      destruct a as [[] [] [] [] [] [] [] []]; vm_compute; reflexivity.
Qed.

Lemma escaper_bytes l b : b ∈ process_url false l → url_byte b = true.
Proof.
  induction l as [|a l IH]; [by intros ?%elem_of_nil|]. rewrite process_url_cons by by left.
  intros [Hb|Hb]%elem_of_app; [|auto]. by apply esc_byte_elem in Hb as [(_ & [=] & _)|Hb].
Qed.

Lemma normalizer_bytes l b : "%"%char ∉ l → b ∈ process_url true l → b ∈ l ∨ url_byte b = true.
Proof.
  induction l as [|a l IH]; [by intros _ ?%elem_of_nil|]. intros [Ha Hl]%not_elem_of_cons.
  rewrite process_url_cons by (right; unfold byte_is; apply Z.eqb_neq; intros He; apply Ha; by rewrite <-(ascii_of_byte_of a), He).
  intros [Hb|Hb]%elem_of_app.
  - apply esc_byte_elem in Hb as [(-> & _)|Hb]; [left; by left|by right].
  - apply IH in Hb as [Hb|Hb]; [left; by right|by right|done].
Qed.

(** The query's decoder and the router's undo the escapers. *)
Lemma query_unescape_escaper l : query_unescape (process_url false l) = Some l.
Proof.
  induction l as [|a l IH]; [done|]. rewrite process_url_cons by by left.
  assert (query_unescape (esc_byte false a ++ process_url false l) = cons a <$> query_unescape (process_url false l)) as ->;
    [|by rewrite IH]. generalize (process_url false l).
  destruct a as [[] [] [] [] [] [] [] []]; intros k; reflexivity.
Qed.
Lemma unescape_normalizer l : "%"%char ∉ l → unescape encodeOther (process_url true l) = Some l.
Proof.
  induction l as [|a l IH]; [done|]. intros [Ha Hl]%not_elem_of_cons. specialize (IH Hl).
  assert (Hb : byte_is 37 a = false) by (unfold byte_is; apply Z.eqb_neq; intros He; apply Ha; by rewrite <-(ascii_of_byte_of a), He).
  rewrite process_url_cons by by right.
  assert (unescape encodeOther (esc_byte true a ++ process_url true l) = cons a <$> unescape encodeOther (process_url true l)) as ->;
    [|by rewrite IH]. generalize (process_url true l). clear IH Ha. revert Hb.
  destruct a as [[] [] [] [] [] [] [] []]; try discriminate; intros _ k; reflexivity.
Qed.

(** ** What a browser reads *)

Lemma decode_app_replaced l k :
  Forall (λ a, byte_is 0 a = false) l → html_decode_bytes 0 (html_replace_all l ++ k) = l ++ html_decode_bytes 0 k.
Proof.
  unfold html_replace_all. induction l as [|a l IH]; [done|]. intros [Ha Hl]%Forall_cons.
  cbn [mbind list_bind]. rewrite <-app_assoc, html_decode_replace by done. cbn. by rewrite <-(IH Hl).
Qed.
Lemma decode_app_plain l k :
  forallb (λ a, negb (byte_is 38 a)) l = true → html_decode_bytes 0 (l ++ k) = l ++ html_decode_bytes 0 k.
Proof.
  induction l as [|a l IH]; [done|]. cbn [forallb app html_decode_bytes]. intros [Ha Hl]%andb_true_iff.
  rewrite reference_at_amp by by apply negb_true_iff. f_equal. by apply IH.
Qed.
(** An ampersand before a letter but a, g or l starts none of the references. *)
Lemma decode_amp b k :
  b ∈ ["r"; "w"]%char → html_decode_bytes 0 ("&"%char :: b :: k) = "&"%char :: html_decode_bytes 0 (b :: k).
Proof. intros [->|[->|[]%elem_of_nil]%elem_of_cons]%elem_of_cons; reflexivity. Qed.

(** ** What the server reads *)

(** The query of a row's link. *)
Definition row_query (m r w : string) : list ascii :=
  (bytes_of "method" ++ "="%char :: process_url false (bytes_of m)) ++ "&"%char ::
  (bytes_of "route" ++ "="%char :: process_url false (bytes_of r)) ++ "&"%char ::
  (bytes_of "win" ++ "="%char :: process_url false (bytes_of w)).

Lemma not_in_escaper c l : url_byte c = false → c ∉ process_url false l.
Proof. intros Hc Hin. apply escaper_bytes in Hin. congruence. Qed.

Lemma parse_escaped_pair k v :
  forallb (λ a, url_unreserved a) (bytes_of k) = true → k ≠ ""%string →
  parse_pair (of_bytes (bytes_of k ++ "="%char :: process_url false (bytes_of v))) = Some (k, v).
Proof.
  intros Hk Hne. assert (Hin : ∀ c, url_unreserved c = false → c ∉ bytes_of k).
  { intros c Hc Hin%list_elem_of_In. rewrite forallb_forall in Hk. rewrite (Hk c Hin) in Hc. discriminate Hc. }
  unfold parse_pair. destruct (one_of _ ";") eqn:E.
  { exfalso. apply one_of_elem in E. rewrite bytes_of_of, elem_of_app, elem_of_cons in E.
    destruct E as [E|[E|E]]; [by apply Hin in E|discriminate E|by apply escaper_bytes in E]. }
  rewrite bool_decide_false.
  - rewrite bytes_of_of, cut_app by by apply Hin. rewrite query_unescape_escaper.
    assert (Hu : query_unescape (bytes_of k) = Some (bytes_of k)).
    { clear -Hk. induction (bytes_of k) as [|a l IH]; [done|]. cbn [forallb] in Hk. apply andb_true_iff in Hk as [Ha Hl].
      specialize (IH Hl). revert Ha. destruct a as [[] [] [] [] [] [] [] []]; try discriminate; intros _; cbn; by rewrite IH. }
    rewrite Hu. cbn. by rewrite !of_bytes_of.
  - intros He. apply (f_equal bytes_of) in He. rewrite bytes_of_of in He. by destruct (bytes_of k).
Qed.

Lemma ParseQuery_row m r w :
  let q := ParseQuery (of_bytes (row_query m r w)) in
  Get q "method" = m ∧ Get q "route" = r ∧ Get q "win" = w.
Proof.
  cbv zeta. unfold ParseQuery, Split, row_query. rewrite bytes_of_of.
  assert (Hno : ∀ k v, forallb url_unreserved (bytes_of k) = true → "&"%char ∉ bytes_of k ++ "="%char :: process_url false (bytes_of v)).
  { intros k v Hk. rewrite elem_of_app, elem_of_cons. intros [H%list_elem_of_In|[[=]|H%escaper_bytes]]; [|done].
    rewrite forallb_forall in Hk. by apply Hk in H. }
  pose proof (Hno "method"%string m eq_refl) as H1. pose proof (Hno "route"%string r eq_refl) as H2.
  pose proof (Hno "win"%string w eq_refl) as H3.
  rewrite (split_bytes_app "&") by exact H1. rewrite (split_bytes_app "&") by exact H2.
  rewrite split_bytes_none by exact H3. cbn [fmap list_fmap rev app].
  cbn [omap list_omap].
  rewrite (parse_escaped_pair "method" m eq_refl), (parse_escaped_pair "route" r eq_refl), (parse_escaped_pair "win" w eq_refl) by done.
  unfold Get, add_value. cbn [fold_left fst snd].
  repeat split; reflexivity.
Qed.

(** A service name that a link carries as it is written: one path element, no start of a
    query, a fragment or an escape. *)
Definition plain_service (s : string) : Prop :=
  s ≠ ""%string ∧ s ≠ "."%string ∧ s ≠ ".."%string ∧
  "/"%char ∉ bytes_of s ∧ "?"%char ∉ bytes_of s ∧ "#"%char ∉ bytes_of s ∧ "%"%char ∉ bytes_of s.

(** The path of a row's link. *)
Definition row_path (s : string) : list ascii :=
  bytes_of "/services/" ++ process_url true (bytes_of s) ++ bytes_of "/endpoint".

Section path.
Context (s : string) (Hs : plain_service s).
Let e : list ascii := process_url true (bytes_of s).

Lemma element_free c : url_byte c = false → c ∉ bytes_of s → c ∉ e.
Proof.
  destruct Hs as (_ & _ & _ & _ & _ & _ & Hp). intros Hc Hn Hin. apply (normalizer_bytes _ _ Hp) in Hin as [|]; congruence.
Qed.
Lemma element_unescapes : pathUnescape e = bytes_of s.
Proof. unfold pathUnescape, e. by rewrite unescape_normalizer by apply Hs. Qed.
Lemma element_is_name : e ≠ [] ∧ e ≠ bytes_of "." ∧ e ≠ bytes_of "..".
Proof.
  destruct Hs as (H1 & H2 & H3 & _). pose proof element_unescapes as Hu.
  repeat split; intros He; rewrite He in Hu; apply (f_equal of_bytes) in Hu; rewrite of_bytes_of in Hu; symmetry in Hu;
    vm_compute in Hu; congruence.
Qed.

Definition row_elements : list ascii := bytes_of "services" ++ "/"%char :: e ++ "/"%char :: bytes_of "endpoint".
Lemma row_path_elements : row_path s = "/"%char :: row_elements.
Proof. reflexivity. Qed.

Lemma split_row_elements : split_bytes "/" row_elements [] = [bytes_of "services"; e; bytes_of "endpoint"].
Proof.
  assert (Hsl : "/"%char ∉ e) by (apply element_free; [done|apply Hs]). unfold row_elements.
  rewrite split_bytes_app by by apply (bool_decide_unpack _). rewrite split_bytes_app by done.
  rewrite split_bytes_none by by apply (bool_decide_unpack _). done.
Qed.
Lemma split_row_path : split_bytes "/" (row_path s) [] = [[]; bytes_of "services"; e; bytes_of "endpoint"].
Proof. rewrite row_path_elements. cbn [split_bytes]. rewrite decide_True by done. by rewrite split_row_elements. Qed.

Lemma clean_elem_name stack x : x ≠ [] ∧ x ≠ bytes_of "." ∧ x ≠ bytes_of ".." → clean_elem stack x = x :: stack.
Proof. intros (H1 & H2 & H3). unfold clean_elem. rewrite !decide_False; tauto. Qed.

Lemma row_path_clean : cleanPath (row_path s) = row_path s.
Proof.
  pose proof element_is_name as Hn.
  assert (Hl : last (row_path s) = Some "t"%char) by (unfold row_path; rewrite app_assoc, last_app; reflexivity).
  assert (Hc : Clean (row_path s) = row_path s).
  { unfold Clean. rewrite split_row_path. cbn [fold_left]. change (clean_elem [] []) with (@nil (list ascii)).
    rewrite !clean_elem_name by done. reflexivity. }
  change (row_path s) with ("/"%char :: (bytes_of "services/" ++ e ++ bytes_of "/endpoint")) at 1. unfold cleanPath.
  rewrite decide_True by done. change ("/"%char :: (bytes_of "services/" ++ e ++ bytes_of "/endpoint")) with (row_path s).
  rewrite Hc, Hl. by rewrite bool_decide_false.
Qed.

Lemma row_path_segments : path_segments (row_path s) = ["services"; s; "endpoint"]%string.
Proof.
  rewrite row_path_elements. unfold path_segments. rewrite split_row_elements. unfold imap, compose. cbn [length].
  rewrite element_unescapes, of_bytes_of.
  assert (bool_decide (e = [] ∧ 2%nat = 3%nat) = false) as -> by (apply bool_decide_false; by intros [_ [=]]). reflexivity.
Qed.
End path.

(** ** What the page contains *)

(** One stretch of a page. *)
Definition part_of {A} (a b : list A) : Prop := ∃ pre post, b = pre ++ a ++ post.

Lemma part_of_refl {A} (a : list A) : part_of a a.
Proof. exists [], []. by rewrite app_nil_r. Qed.
Lemma part_of_l {A} (a b c : list A) : part_of a b → part_of a (b ++ c).
Proof. intros (p & q & ->). exists p, (q ++ c). by rewrite <-!app_assoc. Qed.
Lemma part_of_r {A} (a b c : list A) : part_of a c → part_of a (b ++ c).
Proof. intros (p & q & ->). exists (b ++ p), q. by rewrite <-!app_assoc. Qed.
Lemma part_of_cons {A} (a b : list A) x : part_of a b → part_of a (x :: b).
Proof. apply (part_of_r a [x]). Qed.
#[local] Hint Resolve part_of_refl part_of_l part_of_r : part.

(** The body of the first loop over a field of the page, with the variables set before it. *)
Fixpoint find_range (f : string) (t : tree) : option (list (string * expr) * tree) :=
  match t with
  | Done => None
  | GoTemplate.Text _ k | Action _ _ k | If _ _ _ k | Call _ _ k => find_range f k
  | Assign x a k => (λ r, ((x, a) :: r.1, r.2)) <$> find_range f k
  | Range None None (EField EDot f') body _ k => if String.eqb f f' then Some ([], body) else find_range f k
  | Range _ _ _ _ _ k => find_range f k
  end.

(** One step of a run that ended well. *)
Ltac run_step Hr Hstep :=
  match type of Hr with (let? x := ?e in _) = _ => destruct e eqn:Hstep; [|discriminate Hr]; cbn [result_bind] in Hr end.

Section ranges.
Context (funcs : list (string * gofunc)) (call : string → value → exec_result (list chunk)).

Definition assigned (dot : value) (vars : list (string * value)) (asg : list (string * expr)) : list (string * value) :=
  fold_left (λ vars xe, match eval funcs vars dot xe.2 with Ok v => (xe.1, v) :: vars | Err _ => vars end) asg vars.

Lemma each_part (body : nat → value → exec_result (list chunk)) n l cs v :
  (fix each (n : nat) (l : list value) : exec_result (list chunk) :=
     match l with
     | [] => Ok []
     | v :: l => let? a := body n v in let? r := each (S n) l in Ok (a ++ r)
     end) n l = Ok cs →
  v ∈ l → ∃ m c, body m v = Ok c ∧ part_of c cs.
Proof.
  revert n cs. induction l as [|u l IH]; intros n cs Hr Hin; [by apply elem_of_nil in Hin|].
  destruct (body n u) as [a|] eqn:Ha; [|done]. cbn [result_bind] in Hr.
  match type of Hr with (let? r := ?x in _) = _ => destruct x as [r|] eqn:Hl; [|done] end.
  cbn [result_bind] in Hr. injection Hr as <-. apply elem_of_cons in Hin as [->|Hin]; [eauto with part|].
  destruct (IH _ _ Hl Hin) as (m & c & ? & ?). eauto with part.
Qed.

(** Every item of the loop is a stretch of the page. *)
Lemma range_runs f l v t vars dot asg body cs :
  find_range f t = Some (asg, body) → field dot f = Ok (VSlice l) → v ∈ l → exec funcs call vars dot t = Ok cs →
  ∃ c, exec funcs call (assigned dot vars asg) v body = Ok c ∧ part_of c cs.
Proof.
  intros Hf Hdot Hin. revert vars asg cs Hf.
  induction t as [|s k IHk|e esc k IHk|x e k IHk|c thn IHt els IHe k IHk|i x e b IHb els IHe k IHk|n arg k IHk];
    intros vars asg cs Hf Hr; cbn [find_range] in Hf; [done|..]; cbn [exec] in Hr.
  - run_step Hr Hk. injection Hr as <-. destruct (IHk _ _ _ Hf Hk) as (c & ? & ?). eauto using part_of_cons.
  - run_step Hr Hv. run_step Hr Hp. run_step Hr Hk. injection Hr as <-.
    destruct (IHk _ _ _ Hf Hk) as (c & ? & ?). eauto using part_of_cons.
  - run_step Hr Hv. destruct (find_range f k) as [[asg' body']|] eqn:Hf'; [|done]. cbn in Hf. injection Hf as <- <-.
    destruct (IHk _ _ _ eq_refl Hr) as (c & Hc & Hp). exists c. split; [|done]. unfold assigned. cbn [fold_left fst snd].
    by rewrite Hv.
  - run_step Hr Hv. run_step Hr Ha. run_step Hr Hk. injection Hr as <-.
    destruct (IHk _ _ _ Hf Hk) as (c' & ? & ?). eauto with part.
  - run_step Hr Hv. run_step Hr Hl. run_step Hr Hk. injection Hr as <-.
    match goal with |- ?G => assert (Hskip : find_range f k = Some (asg, body) → G) end.
    { intros Hfk. destruct (IHk _ _ _ Hfk Hk) as (c & ? & ?). eauto with part. }
    destruct i, x; try by apply Hskip. destruct e as [| |e' f'| |]; try by apply Hskip. destruct e'; try by apply Hskip.
    destruct (String.eqb_spec f f') as [<-|]; [|by apply Hskip]. injection Hf as <- <-. clear Hskip IHb IHe IHk.
    cbn [eval result_bind] in Hv. rewrite Hdot in Hv. injection Hv as <-.
    destruct l as [|u l]; [by apply elem_of_nil in Hin|].
    destruct (each_part (λ n v, exec funcs call vars v b) 0 (u :: l) _ _ Hl Hin) as (m & c & ? & ?). eauto with part.
  - run_step Hr Hv. run_step Hr Ha. run_step Hr Hk. injection Hr as <-.
    destruct (IHk _ _ _ Hf Hk) as (c' & ? & ?). eauto with part.
Qed.
End ranges.

(** ** The link of a row *)

Definition row_link (s m r w : string) : list ascii :=
  bytes_of "/services/" ++ html_replace_all (process_url true (bytes_of s)) ++
  bytes_of "/endpoint?method=" ++ html_replace_all (process_url false (bytes_of m)) ++
  bytes_of "&route=" ++ html_replace_all (process_url false (bytes_of r)) ++
  bytes_of "&win=" ++ html_replace_all (process_url false (bytes_of w)).

Lemma escaped_no_nul norm l : Forall (λ a, byte_is 0 a = false) (process_url norm l).
Proof.
  apply Forall_forall. intros b Hb. destruct (byte_is 0 b) eqn:H0; [|done]. exfalso.
  apply byte_is_elim in H0 as ->. revert Hb. induction l as [|a l IH]; cbn [process_url]; [by intros ?%elem_of_nil|].
  intros [Hb|Hb]%elem_of_app; [|auto]. clear IH. revert Hb. match goal with |- context [if ?c then _ else _] => destruct c eqn:Hc end.
  - intros <-%list_elem_of_singleton. destruct norm; discriminate Hc.
  - unfold percent. clear. rewrite !elem_of_cons, elem_of_nil. intros [[=]|[H|[H|[]]]]; revert H;
      destruct a as [[] [] [] [] [] [] [] []]; discriminate.
Qed.

Lemma decode_row_link s m r w : html_decode_bytes 0 (row_link s m r w) = row_path s ++ "?"%char :: row_query m r w.
Proof.
  unfold row_link. rewrite decode_app_plain by reflexivity. rewrite decode_app_replaced by apply escaped_no_nul.
  rewrite decode_app_plain by reflexivity. rewrite decode_app_replaced by apply escaped_no_nul.
  change (bytes_of "&route=") with ("&"%char :: "r"%char :: bytes_of "oute=").
  change (bytes_of "&win=") with ("&"%char :: "w"%char :: bytes_of "in=").
  cbn [app]. rewrite decode_amp by (by left).
  change ("r"%char :: bytes_of "oute=" ++ ?x) with (bytes_of "route=" ++ x).
  rewrite decode_app_plain by reflexivity. rewrite decode_app_replaced by apply escaped_no_nul.
  rewrite decode_amp by (right; by left). change ("w"%char :: bytes_of "in=" ++ ?x) with (bytes_of "win=" ++ x).
  rewrite decode_app_plain by reflexivity.
  rewrite <-(app_nil_r (html_replace_all (process_url false (bytes_of w)))), decode_app_replaced by apply escaped_no_nul.
  unfold row_path, row_query. cbn [html_decode_bytes]. rewrite app_nil_r, <-!app_assoc. reflexivity.
Qed.

Lemma row_link_unquoted s m r w : ascii_of 34 ∉ row_link s m r w.
Proof.
  assert (Hh : ∀ l, ascii_of 34 ∉ html_replace_all l).
  { intros l Hin%list_elem_of_In. pose proof (htmlReplacer_inert (of_bytes l)) as H.
    unfold htmlReplacer in H. rewrite !bytes_of_of, forallb_forall in H. by apply H in Hin. }
  unfold row_link. rewrite !elem_of_app. intros H.
  repeat (destruct H as [H|H]; [first [by apply Hh in H | revert H; apply (bool_decide_unpack _); vm_compute; exact I]|]).
  by apply Hh in H.
Qed.

#[local] Opaque parseTemplates.

(** The loop of the endpoints template, from its first byte to the end of the link. *)
Definition row_loop : option (list (string * expr) * tree) := find_range "Endpoints" (default Done (assoc "endpoints" web_set)).
Definition row_open : string := Eval vm_compute in
  match row_loop with Some (_, GoTemplate.Text s _) => str_take (String.length s - 17) s | _ => ""%string end.
Fixpoint after (n : nat) (t : tree) : tree :=
  match n, t with S n, (GoTemplate.Text _ k | Action _ _ k) => after n k | _, _ => t end.
Definition row_close : string * tree := Eval vm_compute in
  match row_loop with
  | Some (_, t) => match after 8 t with GoTemplate.Text s k => (str_drop 1 s, k) | _ => (""%string, Done) end
  | None => (""%string, Done)
  end.

Lemma row_template :
  row_loop = Some
    ([("$svc", EField EDot "Service"); ("$win", EField (EField EDot "Shell") "WindowKey")],
     GoTemplate.Text (str_app row_open (raw " href=`/services/"))
       (Action (EVar "$svc") [urlnormalizer; attrescaper] (GoTemplate.Text "/endpoint?method="
       (Action (EField EDot "Method") [urlescaper; attrescaper] (GoTemplate.Text "&route="
       (Action (EField EDot "Route") [urlescaper; attrescaper] (GoTemplate.Text "&win="
       (Action (EVar "$win") [urlescaper; attrescaper] (GoTemplate.Text (str_app (raw "`") row_close.1) row_close.2)))))))))%string.
Proof. vm_compute. reflexivity. Qed.

Lemma escape_normal s : escape_all [urlnormalizer; attrescaper] s = of_bytes (html_replace_all (process_url true (bytes_of s))).
Proof. cbn. unfold htmlReplacer, urlNormalizer. by rewrite bytes_of_of. Qed.
Lemma escape_query s : escape_all [urlescaper; attrescaper] s = of_bytes (html_replace_all (process_url false (bytes_of s))).
Proof. cbn. unfold htmlReplacer, urlEscaper. by rewrite bytes_of_of. Qed.

(** A text, then the rest. *)
Lemma exec_text funcs call vars dot s k cs :
  exec funcs call vars dot (GoTemplate.Text s k) = Ok cs → ∃ r, exec funcs call vars dot k = Ok r ∧ cs = Lit s :: r.
Proof. cbn [exec]. intros H. run_step H Hk. injection H as <-. eauto. Qed.
(** The value of a string, then the rest. *)
Lemma exec_string funcs call vars dot e esc s k cs :
  eval funcs vars dot e = Ok (VString s) → exec funcs call vars dot (Action e esc k) = Ok cs →
  ∃ r, exec funcs call vars dot k = Ok r ∧ cs = Data (escape_all esc s) :: r.
Proof. intros He. cbn [exec]. rewrite He. cbn [result_bind]. intros H. run_step H Hp. injection Hp as <-. run_step H Hk. injection H as <-. eauto. Qed.

Section row.
Context `{CaseTable} (shell : Shell) (service sort : string) (frozen : bool) (kpis : list kpi) (rows : list endpointRow.t).

Definition endpoints_data : endpointsData := mkEndpointsData shell service sort frozen kpis rows.

Lemma row_part depth r cs :
  r ∈ rows → execute depth (web_page "endpoints" endpoints_data) = Ok cs →
  ∃ c1 c2, part_of (c1 ++ [Lit (str_app row_open (raw " href=`/services/"));
    Data (escape_all [urlnormalizer; attrescaper] service); Lit "/endpoint?method="%string;
    Data (escape_all [urlescaper; attrescaper] (endpointRow.Method r)); Lit "&route="%string;
    Data (escape_all [urlescaper; attrescaper] (endpointRow.Route r)); Lit "&win="%string;
    Data (escape_all [urlescaper; attrescaper] (shWindowKey shell)); Lit (str_app (raw "`") row_close.1)] ++ c2) cs.
Proof.
  intros Hin Hrun. unfold execute, web_page in Hrun. cbn [hp_set hp_funcs hp_name hp_data] in Hrun.
  rewrite web_prepared in Hrun. cbn [result_bind] in Hrun.
  destruct depth as [|depth]; [discriminate Hrun|]. cbn [ExecuteTemplate] in Hrun.
  destruct (assoc "endpoints" web_set) as [t|] eqn:Ht; [|discriminate Hrun].
  pose proof row_template as Hloop. unfold row_loop in Hloop. rewrite Ht in Hloop. cbn [default] in Hloop.
  assert (Hrows : field (to_value endpoints_data) "Endpoints" = Ok (VSlice (to_value <$> rows))) by (vm_compute; reflexivity).
  assert (Hr : to_value r ∈ to_value <$> rows) by (apply list_elem_of_fmap; by exists r).
  destruct (range_runs _ _ _ _ _ _ _ _ _ _ _ Hloop Hrows Hr Hrun) as (c & Hc & Hp).
  apply exec_text in Hc as (c1 & Hc & ->).
  apply (exec_string _ _ _ _ _ _ service) in Hc as (c2 & Hc & ->); [|reflexivity].
  apply exec_text in Hc as (c3 & Hc & ->).
  apply (exec_string _ _ _ _ _ _ (endpointRow.Method r)) in Hc as (c4 & Hc & ->); [|reflexivity].
  apply exec_text in Hc as (c5 & Hc & ->).
  apply (exec_string _ _ _ _ _ _ (endpointRow.Route r)) in Hc as (c6 & Hc & ->); [|reflexivity].
  apply exec_text in Hc as (c7 & Hc & ->).
  apply (exec_string _ _ _ _ _ _ (shWindowKey shell)) in Hc as (c8 & Hc & ->); [|reflexivity].
  apply exec_text in Hc as (c9 & Hc & ->).
  exists [], c9. exact Hp.
Qed.
End row.

Definition endpoint_pattern : pattern := mkPattern "GET" [literal "services"; wildcard "service"; literal "endpoint"].

Lemma match_endpoint s : plain_service s →
  match_segments (segments endpoint_pattern) ["services"; s; "endpoint"]%string = Some [("service", s)]%string.
Proof.
  intros Hs. assert (Hne : s ≠ "/"%string) by (intros ->; destruct Hs as (_ & _ & _ & H & _); apply H; by left).
  cbn. by rewrite (bool_decide_false (s = "/"%string)).
Qed.

(** The dashboard's router on a row's path. *)
Lemma endpoint_routed `{MacLib} `{NetIP} {St} (env : environment St) (app : App St) webMux service path query :
  web_table env app = Ret webMux → plain_service service →
  findHandler webMux (mkTarget "GET" (of_bytes (row_path service)) path query) =
    Serve endpoint_pattern (λ st w q, web_handler (serveEndpointDetail (app_web app)) st w (q_call q)) [("service"%string, service)].
Proof.
  intros Hw Hs.
  pose proof (page_inner env app webMux "GET /services/{service}/endpoint" (serveEndpointDetail (app_web app)) endpoint_pattern
    (mkReq "GET" (of_bytes (row_path service)) (mkCall (mkRequest path [] (λ _, "") (λ _, "") (λ _, "")) query None (λ _, 0) "")
       ("", true) 0 0)%string Hw) as Hp.
  cbn [q_escaped q_method target_of q_call c_req r_path c_raw] in Hp. rewrite bytes_of_of in Hp.
  rewrite row_path_segments in Hp by done. refine (eq_trans (Hp _ _ _ _ _) _).
  - apply (bool_decide_unpack _). vm_compute. exact I.
  - do 11 right. left.
  - reflexivity.
  - by apply row_path_clean.
  - unfold matches. by rewrite (match_endpoint service Hs).
  - by rewrite (match_endpoint service Hs).
Qed.

(** The path and the query are what they are up to the first question mark and after it. *)
Lemma row_path_free s c : plain_service s → c = "?"%char ∨ c = "#"%char → c ∉ row_path s.
Proof.
  intros Hs Hc. assert (Hlit : c ∉ bytes_of "/services/" ∧ c ∉ bytes_of "/endpoint").
  { destruct Hc as [-> | ->]; split; apply (bool_decide_unpack _); vm_compute; exact I. }
  assert (He : c ∉ process_url true (bytes_of s)).
  { apply element_free; [done|by destruct Hc as [-> | ->]|]. destruct Hs as (_ & _ & _ & _ & H1 & H2 & _). by destruct Hc as [-> | ->]. }
  unfold row_path. rewrite !elem_of_app. tauto.
Qed.
Lemma row_query_free m r w : "#"%char ∉ row_query m r w.
Proof.
  unfold row_query. rewrite !elem_of_app, !elem_of_cons, !elem_of_app, !elem_of_cons, !elem_of_app, !elem_of_cons.
  assert (H : ∀ s, "#"%char ∉ process_url false (bytes_of s)) by (intros s; by apply not_in_escaper).
  assert ("#"%char ∉ bytes_of "method" ∧ "#"%char ∉ bytes_of "route" ∧ "#"%char ∉ bytes_of "win")
    by (repeat split; apply (bool_decide_unpack _); vm_compute; exact I).
  pose proof (H m). pose proof (H r). pose proof (H w). assert ("#"%char ≠ "="%char ∧ "#"%char ≠ "&"%char) by done. tauto.
Qed.

(** [C10] A row of the endpoints table opens its endpoint. Whatever the rows hold, the page
    carries, for each of them, a link that a browser reads as a path and a query of this
    server; when the service name is one plain path element, the dashboard's router hands a
    request for it to the endpoint page with exactly that service, and the handler reads from
    the query exactly the row's method and route and the window of the page, whatever bytes
    the client stored in them. *)
Theorem rows_open_their_endpoint `{CaseTable} `{MacLib} `{NetIP} {St} (env : environment St) (app : App St) webMux
  shell service sort frozen kpis rows r depth cs :
  web_table env app = Ret webMux → plain_service service → r ∈ rows →
  execute depth (web_page "endpoints" (mkEndpointsData shell service sort frozen kpis rows)) = Ok cs →
  ∃ link, part_of (bytes_of (raw " href=`") ++ link ++ [ascii_of 34]) (bytes_of (output cs)) ∧ ascii_of 34 ∉ link ∧
    let '(path, query) := cut "?" (html_decode_bytes 0 link) in
    "#"%char ∉ path ++ query ∧
    findHandler webMux (mkTarget "GET" (of_bytes path) (of_bytes (pathUnescape path)) (of_bytes query)) =
      Serve endpoint_pattern (λ st w q, web_handler (serveEndpointDetail (app_web app)) st w (q_call q)) [("service"%string, service)] ∧
    let q := ParseQuery (of_bytes query) in
    Get q "method" = endpointRow.Method r ∧ Get q "route" = endpointRow.Route r ∧ Get q "win" = shWindowKey shell.
Proof.
  intros Hw Hplain Hin Hrun. destruct (row_part shell service sort frozen kpis rows depth r cs Hin Hrun) as (c1 & c2 & pre & post & ->).
  set (link := row_link service (endpointRow.Method r) (endpointRow.Route r) (shWindowKey shell)).
  exists link. split; [|split; [apply row_link_unquoted|]].
  - exists (out_bytes pre ++ out_bytes c1 ++ bytes_of row_open), (bytes_of row_close.1 ++ out_bytes c2 ++ out_bytes post).
    rewrite bytes_of_output, !out_bytes_app. unfold out_bytes at 3. cbn [mbind list_bind text_of].
    rewrite escape_normal, !escape_query, !bytes_of_app, !bytes_of_of. subst link. unfold row_link.
    change (bytes_of (raw "`")) with [ascii_of 34].
    change (bytes_of (raw " href=`/services/")) with (bytes_of (raw " href=`") ++ bytes_of "/services/").
    rewrite app_nil_r, <-!app_assoc. reflexivity.
  - subst link. rewrite decode_row_link, cut_app by (apply row_path_free; [done|by left]).
    split; [|split; [by apply (endpoint_routed env)|apply ParseQuery_row]].
    intros [Hp|Hq]%elem_of_app; [|by apply row_query_free in Hq]. revert Hp. apply row_path_free; [done|by right].
Qed.

(** A route that holds everything a link could trip over. *)
Definition odd_route : string := raw "/a&win=5m#`x` y%2F+<b>".
Definition odd_row : endpointRow.t := endpointRow.mk "GET" odd_route 1 0%float 0%float false 0%float 0%float 0%float 0%float 0%float 0%float.
Definition bare_shell : Shell := mkShell "" "" "" "" [] [] "" false [] "1h" "" "" false "".

Lemma rows_open_their_endpoint_witness :
  let _ := plain_case in let _ := toy_mac in let _ := no_ipv6 in let _ := toy_db in
  ∃ webMux cs link, web_table doc_environment prod_app = Ret webMux ∧
    execute call_depth (web_page "endpoints" (mkEndpointsData bare_shell "api é" "" false [] [odd_row])) = Ok cs ∧
    part_of (bytes_of (raw " href=`") ++ link ++ [ascii_of 34]) (bytes_of (output cs)) ∧
    let q := ParseQuery (of_bytes (cut "?" (html_decode_bytes 0 link)).2) in
    Get q "route" = odd_route ∧ Get q "win" = "1h"%string.
Proof.
  cbv zeta.
  assert (Hok : match @web_table toy_mac no_ipv6 World (@doc_environment plain_case World) (@prod_app toy_db) with
    Ret _ => True | Panic _ => False end) by (vm_compute; exact I).
  destruct (@web_table toy_mac no_ipv6 World (@doc_environment plain_case World) (@prod_app toy_db))
    as [webMux|] eqn:Hw; [clear Hok|destruct Hok].
  destruct (@served_ok plain_case _ _ call_depth (@served_web plain_case
    (EndpointsPage bare_shell "api é" "" false [] [odd_row]) _ eq_refl) (Nat.le_refl _)) as [cs Hcs].
  assert (Hs : plain_service "api é") by (repeat split; apply (bool_decide_unpack _); vm_compute; exact I).
  destruct (@rows_open_their_endpoint plain_case toy_mac no_ipv6 World doc_environment (@prod_app toy_db) webMux
    bare_shell "api é" "" false [] [odd_row] odd_row call_depth cs Hw Hs (list_elem_of_here _ _) Hcs) as (link & Hp & _ & Hl).
  exists webMux, cs, link. split; [reflexivity|]. split; [exact Hcs|]. split; [exact Hp|].
  destruct (cut "?" (html_decode_bytes 0 link)) as [path query]. destruct Hl as (_ & _ & _ & Hr & Hwin). by split.
Defined.

(** The service name is only normalized: a question mark in it ends the path. *)
Example row_of_odd_service : (cut "?" (html_decode_bytes 0 (row_link "a?b" "GET" "/x" "1h"))).1 = bytes_of "/services/a".
Proof. vm_compute. reflexivity. Qed.
