(* ===== verification/Tenancy.v ===== *)
(** * What the server shows of whose data (server/app, server/internal/web, storage)

    Two servers over two databases, side by side: a request is answered alike by both as
    soon as the databases agree on the rows of the organization its session names, up to the
    one figure the code takes from the whole table: the average size of a row, from which the
    performance page estimates a disk size. The routers, the gate, the pages and the tenant-scoped handle are composed; nothing is
    assumed about the request. *)

From Stdlib Require Import ZArith Lia Ascii.
From Stdlib Require String.
From stdpp Require Import base option gmap strings list.
From S2P Require Import Docs.
From S2P Require Import Prelude GoString GoTime GoMath GoUrl Http Mux Token Storage Sql.
From S2P Require Import Auth Guardrail Control Views Pages Query Dashboard Routes App Scoped Migrations Server.

Local Open Scope Z_scope.

(** ** Pages of a request without a tenant *)

Section no_tenant.
Context `{MacLib} `{NetIP} {St : Type} (h : Handler St) (q : Querier) (frozen : option (string → bool)).

Lemma Register_no_tenant c elapsed js1 js2 :
  h_tenant h c = None →
  Forall2 (λ x y, x.1 = y.1 ∧ ∀ st w, x.2 st w c = y.2 st w c)
    (Register h elapsed js1 js2) (Register (with_data h q frozen) elapsed js1 js2).
Proof.
  intros Hn. unfold Register.
  repeat apply Forall2_cons_2; try apply Forall2_nil_2; cbn [fst snd]; (split; [done|]); intros st w;
    unfold serveOverview, servePerformance, serveSetup, serveHandshakeFragment, serveCreateKey, serveRevokeKey,
      serveCreateInvite, serveRevokeInvite, serveRemoveMember, serveEndpoints, serveEndpointDetail, serveSeries,
      serveHistogram, serveInstances, teamMutation, teamAction, json_query, with_tenant;
    cbn [h_tenant with_data]; rewrite ?Hn; reflexivity.
Qed.
End no_tenant.

Lemma unwinding_eq {St} (h : Handler St) org : unwinding h org eq.
Proof. by split; intros; subst; split. Qed.

Section same_pages.
Context `{MacLib} `{NetIP} {St : Type} (h : Handler St) (q : Querier) (frozen : option (string → bool)).

(** The two data planes agree on whatever tenant a call is for. *)
Definition data_agree (tid : tenant.ID) : Prop :=
  q tid = h_q h tid ∧ frozenFor (with_data h q frozen) tid = frozenFor h tid.

Lemma Register_same c elapsed js1 js2 :
  (∀ tid, h_tenant h c = Some tid → data_agree tid) →
  Forall2 (λ x y, x.1 = y.1 ∧ ∀ st w, x.2 st w c = y.2 st w c)
    (Register h elapsed js1 js2) (Register (with_data h q frozen) elapsed js1 js2).
Proof.
  intros Ha. destruct (h_tenant h c) as [tid|] eqn:Et; [|by apply Register_no_tenant].
  destruct (Ha tid eq_refl) as [Hq Hf].
  eapply Forall2_impl; [exact (Register_isolated h c tid q frozen eq Et (unwinding_eq _ _) Hq Hf elapsed js1 js2)|].
  intros x y [Hp Hiso]. split; [done|]. intros st w.
  specialize (Hiso st st w eq_refl). unfold same_run, in_step, same in Hiso.
  destruct (x.2 st w c) as [[? ?]|], (y.2 st w c) as [[? ?]|]; try done; destruct Hiso as [? ?]; cbn in *; by subst.
Qed.
End same_pages.

(** ** The disk estimate apart *)

(** The performance page with its disk estimate, and what is drawn from it, blanked. *)
Definition sans_disk_page (p : Dashboard.page) : Dashboard.page :=
  match p with
  | PerformancePage p =>
      PerformancePage (mkPerformancePage (ppShell p) (ppHasData p) (ppRequests p) (ppSummaries p) (ppCompression p)
        (ppIngestRate p) (ppQueryMs p) (ppWindowLabel p) (ppWindowShort p) (ppRawDisk p) "" "" "" (ppRawEventBytes p)
        (ppTiers p))
  | p => p
  end.
Definition sans_disk (p : App.page) : App.page := match p with FromWeb p => FromWeb (sans_disk_page p) | p => p end.

(** What a run leaves, its pages seen through [f]. *)
Definition seen_through {St B} (f : B → B) (o : outcome (St * Response B)) : outcome (St * Response B) :=
  match o with
  | Ret (st, w) => Ret (st, mkResponse (pending w) (sent w) (f <$> body w))
  | Panic why => Panic why
  end.
Definition same_sans_disk {St} (o o' : outcome (St * App.response)) : Prop :=
  seen_through sans_disk o = seen_through sans_disk o'.
#[export] Instance same_sans_disk_equiv {St} : Equivalence (@same_sans_disk St).
Proof. unfold same_sans_disk. split; [by intros o|by intros o o' ->|by intros o o' o'' -> ->]. Qed.

Lemma buildPerformance_weighed shell parts s win dur key :
  sans_disk_page (PerformancePage (buildPerformance shell (weighed parts s) win dur key)) =
  sans_disk_page (PerformancePage (buildPerformance shell s win dur key)).
Proof.
  unfold buildPerformance. cbn [weighed PerformanceStat.Requests PerformanceStat.Summaries]. destruct (_ || _); [done|].
  cbv zeta. by destruct (disk_reduction _ _), (disk_reduction _ _).
Qed.

Lemma seen_render {St} (st : St) w p p' :
  sans_disk_page p = sans_disk_page p' →
  seen_through sans_disk_page (Ret (st, render w p)) = seen_through sans_disk_page (Ret (st, render w p')).
Proof. intros Hp. unfold render, Write. cbn. rewrite !fmap_app. cbn. by rewrite Hp. Qed.

Section weighed.
Context `{MacLib} `{NetIP} {St : Type} (h : Handler St) (parts : option (Z * Z)).
Definition weighed_handler : Handler St := with_data h (λ id, weighed_query parts (h_q h id)) (h_frozen h).

Lemma servePerformance_weighed st w c elapsed :
  seen_through sans_disk_page (servePerformance weighed_handler st w c elapsed) =
  seen_through sans_disk_page (servePerformance h st w c elapsed).
Proof.
  unfold servePerformance, with_tenant. cbn [h_tenant weighed_handler with_data]. destruct (h_tenant h c) as [tid|]; [|done].
  cbv zeta. change (buildShell weighed_handler) with (buildShell h). destruct (buildShell _ _ _ _ _ _ _ _) as [st' shell].
  destruct (windowRange _ _) as [from to]. apply seen_render.
  change (PerformanceStats (h_q weighed_handler tid) from to) with (weighed parts <$> PerformanceStats (h_q h tid) from to).
  destruct (PerformanceStats _ _ _) as [s|]; [|done]. apply buildPerformance_weighed.
Qed.

Lemma Register_weighed elapsed js1 js2 :
  Forall2 (λ x y, x.1 = y.1 ∧ ∀ st w c, seen_through sans_disk_page (x.2 st w c) = seen_through sans_disk_page (y.2 st w c))
    (Register weighed_handler elapsed js1 js2) (Register h elapsed js1 js2).
Proof.
  unfold Register. repeat apply Forall2_cons_2; try apply Forall2_nil_2; cbn [fst snd]; (split; [done|]); intros st w c;
    first [apply servePerformance_weighed|reflexivity].
Qed.
End weighed.

Lemma web_handler_seen {St} (f f' : St → Response Dashboard.page → call → outcome (St * Response Dashboard.page)) st w c :
  (∀ v, seen_through sans_disk_page (f st v c) = seen_through sans_disk_page (f' st v c)) →
  same_sans_disk (web_handler f st w c) (web_handler f' st w c).
Proof.
  intros Hf. unfold same_sans_disk, web_handler. match goal with |- context [f st ?v c] => specialize (Hf v); revert Hf end.
  destruct (f _ _ _) as [[s v]|], (f' _ _ _) as [[s' v']|]; cbn; try done; [|by intros [= ->]].
  intros [= -> -> -> Hb]. do 3 f_equal. rewrite !fmap_app. f_equal. rewrite <-!list_fmap_compose.
  change (sans_disk ∘ FromWeb) with (FromWeb ∘ sans_disk_page). rewrite !list_fmap_compose. by rewrite Hb.
Qed.

Section pages_alike.
Context `{MacLib} `{NetIP} {St : Type} (h : Handler St) (q : Querier) (frozen : option (string → bool)).

(** The two data planes answer a tenant alike up to what [system.parts] holds. *)
Definition data_weighed (parts : option (Z * Z)) (tid : tenant.ID) : Prop :=
  q tid = weighed_query parts (h_q h tid) ∧ frozenFor (with_data h q frozen) tid = frozenFor h tid.

Lemma pages_same elapsed js1 js2 c :
  (∀ tid, h_tenant h c = Some tid → data_agree h q frozen tid) →
  Forall2 (λ x y, x.1 = y.1 ∧ ∀ st w, web_handler x.2 st w c = web_handler y.2 st w c)
    (Register h elapsed js1 js2) (Register (with_data h q frozen) elapsed js1 js2).
Proof.
  intros Ha. eapply Forall2_impl; [by apply Register_same|]. intros x y [Hp Hxy]. split; [done|].
  intros st w. unfold web_handler. by rewrite Hxy.
Qed.

Lemma pages_weighed parts elapsed js1 js2 c :
  (∀ tid, h_tenant h c = Some tid → data_weighed parts tid) →
  Forall2 (λ x y, x.1 = y.1 ∧ ∀ st w, same_sans_disk (web_handler x.2 st w c) (web_handler y.2 st w c))
    (Register h elapsed js1 js2) (Register (with_data h q frozen) elapsed js1 js2).
Proof.
  intros Ha. pose proof (Register_weighed h parts elapsed js1 js2) as Hw.
  pose proof (Register_same (weighed_handler h parts) q frozen c elapsed js1 js2 Ha) as Hs.
  apply Forall2_same_length_lookup. split; [reflexivity|]. intros i x y Hx Hy.
  destruct (lookup_lt_is_Some_2 (Register (weighed_handler h parts) elapsed js1 js2) i) as [z Hz];
    [by apply lookup_lt_Some in Hx|].
  destruct (Forall2_lookup_lr _ _ _ _ _ _ Hw Hz Hx) as [Hzx Hw']. destruct (Forall2_lookup_lr _ _ _ _ _ _ Hs Hz Hy) as [Hzy Hs'].
  split; [by rewrite <-Hzx|]. intros st w. apply web_handler_seen. intros v. by rewrite <-Hw', Hs'.
Qed.
End pages_alike.

(** ** The whole server, twice *)

Section twice.
Context `{MacLib} `{NetIP} {St : Type} `{!MemberStore St} {Job LimitProvider : Type}.
Context (env : environment St) (app : App St) (o : options_ St Job LimitProvider) (a : Auth).
Context (q' : Querier) (frozen : option (string → bool)).
Context (Rel : relation (outcome (St * App.response))) `{!Reflexive Rel} (data_ok : tenant.ID → Prop).
Hypothesis auth_is : app_auth app = Some a.
Hypothesis tenant_is : ∀ c, h_tenant (app_web app) c = TenantFromContext c ≫= tenant.Parse.
Hypothesis no_extensions : o_routes o = [].

Abbreviation handler := (St → response → req → outcome (St * response)) (only parsing).

(** The same server over another data plane. *)
Definition other_data : App St := mkApp (app_auth app) (with_data (app_web app) q' frozen) (app_secure app).

(** On whatever tenant a call is for, the two data planes are close enough for the pages to
    answer alike. *)
Hypothesis pages_alike : ∀ elapsed js1 js2 c,
  (∀ tid, h_tenant (app_web app) c = Some tid → data_ok tid) →
  Forall2 (λ x y, x.1 = y.1 ∧ ∀ st w, Rel (web_handler x.2 st w c) (web_handler y.2 st w c))
    (Register (app_web app) elapsed js1 js2) (Register (with_data (app_web app) q' frozen) elapsed js1 js2).

Definition page_alike (q : req) : Prop := ∀ tid, h_tenant (app_web app) (q_call q) = Some tid → data_ok tid.
Definition alike (q : req) : Prop :=
  ∀ s, sessionFromRequest a (c_req (q_call q)) (q_now q) = Some s → OrgID s ≠ ""%string → data_ok (tenant.mkID (OrgID s)).

Definition agree_on (P : req → Prop) (f f' : handler) : Prop := ∀ st w q, P q → Rel (f st w q) (f' st w q).

Lemma page_alike_values q values : page_alike q → page_alike (with_values q values).
Proof. intros Hq tid. rewrite tenant_is. specialize (Hq tid). by rewrite tenant_is in Hq. Qed.

Lemma web_tables_alike t :
  web_table env app = Ret t → ∃ t', web_table env other_data = Ret t' ∧ Forall2 (entry_rel (agree_on page_alike)) t t'.
Proof.
  intros Ht. refine (register_related (agree_on page_alike) [] [] _ _ t _ _ Ht); [constructor|].
  unfold other_data. cbn [app_web].
  set (l := Register (app_web app) _ _ _). set (l' := Register (with_data _ _ _) _ _ _).
  apply Forall2_fmap, Forall2_same_length_lookup. split; [reflexivity|]. intros i x y Hx Hy. cbn [fst snd]. split.
  - assert (He : l.*1 = l'.*1) by reflexivity. apply (f_equal (λ k, k !! i)) in He.
    rewrite !list_lookup_fmap, Hx, Hy in He. by injection He.
  - intros st w q Hq. by destruct (Forall2_lookup_lr _ _ _ _ _ _ (pages_alike _ _ _ (q_call q) Hq) Hx Hy) as [_ Hxy].
Qed.

Lemma serve_tables_alike (P : req → Prop) t t' :
  (∀ q values, P q → P (with_values q values)) →
  Forall2 (entry_rel (agree_on P)) t t' → agree_on P (serve_table t) (serve_table t').
Proof.
  intros HP Ht st w q Hq. unfold serve_table. pose proof (findHandler_related _ t t' (target_of q) Ht) as Hd.
  destruct (findHandler t _), (findHandler t' _); cbn in Hd; try done.
  - destruct Hd as (-> & Hh & ->). by apply Hh, HP.
  - by rewrite Hd.
  - by rewrite Hd.
Qed.

Lemma alike_values q values : alike q → alike (with_values q values).
Proof. exact id. Qed.

Lemma dashboards_alike (f f' : handler) :
  agree_on page_alike f f' → agree_on alike (dashboard app o f) (dashboard other_data o f').
Proof.
  intros Hf st w q Hq. unfold dashboard, mountDashboard, gate. cbn [app_auth other_data]. rewrite auth_is. cbv zeta.
  assert (Hs : ∀ s, sessionFromRequest a (c_req (q_call q)) (q_now q) = Some s →
    Rel (f st w (with_call q (with_session (q_call q) s))) (f' st w (with_call q (with_session (q_call q) s)))).
  { intros s Hs. apply Hf. intros tid. rewrite tenant_is. cbn. unfold TenantFromContext, tenant.Parse. cbn.
    case_bool_decide as He; [done|]. intros [= <-]. by apply Hq. }
  destruct (o_publicHome o); [destruct (_ && _); [done|]|]; (destruct (sessionFromRequest _ _ _) as [s|]; [by apply Hs|done]).
Qed.

Lemma same_agrees P (f : handler) : agree_on P f f.
Proof. by intros st w q _. Qed.

Lemma core_routes_alike (f f' : handler) :
  agree_on page_alike f f' →
  Forall2 (λ e e', e.1 = e'.1 ∧ agree_on alike e.2 e'.2) (core_routes env app o f) (core_routes env other_data o f').
Proof.
  intros Hf. unfold core_routes. cbn [app_auth other_data]. constructor; [split; [done|apply same_agrees]|].
  constructor; [split; [done|by apply dashboards_alike]|].
  rewrite auth_is. apply Forall2_app; [|apply Forall2_app].
  - apply Forall_Forall2_diag, Forall_forall. intros x _. split; [done|apply same_agrees].
  - apply Forall_Forall2_diag, Forall_forall. intros x _. split; [done|apply same_agrees].
  - constructor; [split; [done|apply same_agrees]|]. constructor; [split; [done|apply same_agrees]|constructor].
Qed.

Lemma servers_alike serve st w q :
  routed env app o = Ret serve → alike q →
  ∃ serve', routed env other_data o = Ret serve' ∧ Rel (serve st w q) (serve' st w q).
Proof.
  unfold routed. destruct (web_table env app) as [t|] eqn:Et; [|done]. cbn [outcome_bind].
  destruct (web_tables_alike t Et) as (t' & -> & Htt). cbn [outcome_bind].
  pose proof (serve_tables_alike page_alike t t' page_alike_values Htt) as Hinner.
  destruct (register [] (all_routes env app o (serve_table t))) as [u|] eqn:Eu; [|done]. intros [= <-] Hq.
  unfold all_routes, mountExtensions in Eu |- *. rewrite no_extensions, app_nil_r in *. cbn [mbind list_bind].
  destruct (register_related (agree_on alike) [] [] _ _ u (Forall2_nil_2 _ _ _) (core_routes_alike _ _ Hinner) Eu) as (u' & Hu' & Huu).
  rewrite Hu'. cbn [outcome_bind]. eexists. split; [reflexivity|].
  exact (serve_tables_alike alike u u' alike_values Huu st (secured (app_secure app) w) q Hq).
Qed.
End twice.

(** The assembly over another data plane and guard is the same server with other data. *)
Lemma assembled_twice `{MacLib} {St} getenv cp ma (guard guard' : string → bool) const baseURL key (o : options St) (qr qr' : Querier)
  app a :
  assembleMux getenv (mkBuiltDeps qr (Some cp) ma (Some guard) const baseURL key) o = Ok app → app_auth app = Some a →
  assembleMux getenv (mkBuiltDeps qr' (Some cp) ma (Some guard') const baseURL key) o = Ok (other_data app qr' (Some guard')) ∧
  (∀ c, h_tenant (app_web app) c = TenantFromContext c ≫= tenant.Parse) ∧ h_q (app_web app) = qr ∧
  h_frozen (app_web app) = Some guard.
Proof.
  unfold assembleMux. cbn [bd_cp bd_baseURL bd_sessKey bd_querier bd_memberAdmin bd_frozen bd_constTenant].
  destruct (buildAuth _ _ _ _) as [authLayer|]; [|done]. unfold NewHandler.
  cbn [cf_querier cf_tenant cf_keys cf_members cf_csrfkey buildWebConfig].
  destruct (_ && _); [done|]. intros [= <-] Ha. cbn in Ha. subst authLayer. by split_and!.
Qed.

(** [C3] Whatever a visitor asks for, the server shows the rows of the session's own
    organization and no others. Take the server with its gate over two databases, with two
    cardinality guards, and any request at all: if its cookie holds no valid session, or if
    the databases hold the same rows of the organization the session names (and fail, round
    and order alike), the two servers give the same status, headers and pages and leave the
    control plane the same, up to one number on one page: the disk estimate of the
    performance page, with the bar and the ratio drawn from it, which the code computes from
    the average weight of everyone's rows. When that average is the same in both databases
    the two answers are equal. *)
Theorem server_shows_own_rows `{MacLib} `{NetIP} `{SqlLib} `{GoMath.MathLib} {St} `{!MemberStore St} {Job LimitProvider}
  getenv cp ma (guard guard' : string → bool) const baseURL key (env : environment St) (o : options_ St Job LimitProvider)
  c c' app a serve st w q :
  let deps db frozen := mkBuiltDeps (TenantQuery db) (Some cp) ma (Some frozen) const baseURL key in
  assembleMux getenv (deps c guard) (dashboard_options o) = Ok app → app_auth app = Some a → o_routes o = [] →
  routed env app o = Ret serve →
  (∀ s, sessionFromRequest a (c_req (q_call q)) (q_now q) = Some s →
     agree (tenant.mkID (OrgID s)) c c' ∧ guard (OrgID s) = guard' (OrgID s)) →
  ∃ app' serve', assembleMux getenv (deps c' guard') (dashboard_options o) = Ok app' ∧ routed env app' o = Ret serve' ∧
    same_sans_disk (serve st w q) (serve' st w q) ∧ (same_row_size c c' → serve st w q = serve' st w q).
Proof.
  intros deps Hasm Ha Ho Hr Hq.
  destruct (assembled_twice _ _ _ _ guard' _ _ _ _ _ (TenantQuery c') _ _ Hasm Ha) as (Happ & Ht & Hqr & Hfr).
  assert (Hg : ∀ s, sessionFromRequest a (c_req (q_call q)) (q_now q) = Some s →
    frozenFor (with_data (app_web app) (TenantQuery c') (Some guard')) (tenant.mkID (OrgID s)) =
    frozenFor (app_web app) (tenant.mkID (OrgID s))).
  { intros s Hs. unfold frozenFor. cbn [h_frozen with_data]. rewrite Hfr. cbn. by destruct (Hq s Hs) as [_ ->]. }
  destruct (servers_alike env app o a (TenantQuery c') (Some guard') same_sans_disk
    (data_weighed (app_web app) (TenantQuery c') (Some guard') (parts_seen c')) Ha Ht Ho
    (λ _ _ _ _, pages_weighed _ _ _ _ _ _ _ _) serve st w q Hr) as (serve' & Hr' & Hs).
  { intros s Hs _. split; [|by apply Hg]. rewrite Hqr. by apply TenantQuery_agree, (Hq s). }
  exists (other_data app (TenantQuery c') (Some guard')), serve'. do 3 (split; [done|]). intros Hsize.
  destruct (servers_alike env app o a (TenantQuery c') (Some guard') eq (data_agree (app_web app) (TenantQuery c') (Some guard')) Ha Ht Ho
    (λ _ _ _ _, pages_same _ _ _ _ _ _ _) serve st w q Hr) as (serve'' & Hr'' & Hs').
  { intros s Hs' _. split; [|by apply Hg]. rewrite Hqr. apply TenantQuery_same; [by apply (Hq s)|done]. }
  rewrite Hr' in Hr''. by injection Hr'' as <-.
Qed.

(** The performance page of organization "0", asked of a database with its rows only and of one
    that holds other tenants' rows too. *)
Definition performance_req `{MacLib} : req :=
  mkReq "GET" "/performance" (mkCall (mkRequest "/performance" [(sessionCookie, encode prod_key prod_session)]
    (λ _, "") (λ _, "") (λ _, "")) "win=1h" None (λ _, 2 * Hour) "")%string ("", true)%string 0 0.
Definition own_db : Conn := mkConn (λ _, [tenant_row "0" 4]) [] toy_parts (λ _, NoFault) (λ t, t) (λ _ l, l).
Definition crowded_db : Conn :=
  mkConn (λ _, [tenant_row "globex" 7; tenant_row "0" 4; tenant_row "initech" 1]) [] toy_parts (λ _, NoFault) (λ t, t) (λ _ l, l).
Definition served_by `{MacLib} `{NetIP} `{DBLib} (q : Querier) (guard : string → bool)
  : World → response → req → outcome (World * response) :=
  match assembleMux prod_env (mkBuiltDeps q (Some store_plane) None (Some guard) "" "https://maping.example" prod_key)
          (dashboard_options public_options) with
  | Ok app => match routed bare_environment app public_options with Ret h => h | Panic why => λ _ _ _, Panic why end
  | Err why => λ _ _ _, Panic why
  end.

Lemma server_shows_own_rows_witness :
  let _ := toy_mac in let _ := no_ipv6 in let _ := toy_db in
  let _ := {| sql_pow := go_pow |} : SqlLib in let _ := go_math in
  parts_seen own_db ≠ parts_seen crowded_db ∧
  same_sans_disk
    (served_by (TenantQuery own_db) (λ _, false) second_key_world fresh_response performance_req)
    (served_by (TenantQuery crowded_db) (λ t, bool_decide (t = "globex"%string)) second_key_world fresh_response performance_req).
Proof.
  cbv zeta. split; [vm_compute; discriminate|].
  set (sql := {| sql_pow := go_pow |} : SqlLib).
  pose proof (@server_shows_own_rows toy_mac no_ipv6 sql go_math World (@control_store toy_db) () () prod_env
    (@store_plane toy_db) None (λ _, false) (λ t, bool_decide (t = "globex"%string)) "" "https://maping.example" prod_key
    bare_environment public_options own_db crowded_db) as T. cbv zeta in T.
  unfold served_by. set (d := mkBuiltDeps (@TenantQuery sql go_math own_db) _ _ _ _ _ _) in *.
  destruct (@assembleMux_gated toy_mac World prod_env d (@store_plane toy_db) (dashboard_options public_options) eq_refl
    ltac:(vm_compute; lia)) as (app & a & Ea & Hauth & Hsig). change (bd_sessKey d) with prod_key in Hsig. rewrite Ea.
  assert (Hs : @sessionFromRequest toy_mac a (c_req (q_call (@performance_req toy_mac))) 0 = Some prod_session).
  { unfold sessionFromRequest. rewrite Hsig. vm_compute. reflexivity. }
  destruct (@core_registers toy_mac no_ipv6 World (@control_store toy_db) () () bare_environment app public_options eq_refl) as [serve Hr].
  rewrite Hr.
  destruct (T app a serve second_key_world fresh_response (@performance_req toy_mac) Ea Hauth eq_refl Hr) as (app' & serve' & Hasm & Hr' & Heq & _).
  { intros s Hs'. change (q_now (@performance_req toy_mac)) with 0 in Hs'. rewrite Hs in Hs'. injection Hs' as <-. split; [|reflexivity].
    split; reflexivity. }
  rewrite Hasm, Hr'. exact Heq.
Defined.
