(* ===== verification/Wiring.v ===== *)
(** * The ingest path as the server wires it (server/app/app.go)

    [buildIngestWiring] puts the caching key resolver, the cached limit provider, the rate
    limiter and the cardinality guard behind the ingest handler. This file composes their
    models into one node that serves a sequence of uploads, each with its own clock
    readings and its own replies of the control plane, and proves what a stored row owes to
    them. Without a control plane the handler keeps its defaults: the development server. *)

From Stdlib Require Import ZArith Lia Ascii Floats.
From Stdlib Require String.
From stdpp Require Import base option gmap strings list.
From S2P Require Import Prelude GoFloat GoString GoTime Wire Token Storage Auth Guardrail.
From S2P Require Import Control Ingest App.

Local Open Scope Z_scope.

(** ** The collaborators of [buildIngestWiring] *)

(** The zero value of [guardrail.Limits]. *)
Definition zero_limits : Limits := mkLimits 0%float 0 0 0 0.

(** [limitProvider.Limits]: an error of the store is "not resolved". *)
Definition limitProvider_Limits (reply : option Limits) : Limits * bool :=
  match reply with Some l => (l, true) | None => (zero_limits, false) end.

(** Without a control plane: the static dev key. With one: the seeded dev organization. *)
Inductive wiring := StaticWiring (keys : list (string * string)) | StoreWiring.
Record ingestWiring := mkIngestWiring { iw_wiring : wiring; iw_tenant : string }.

(** [opened]: the store [control.New] opened and migrated, or its failure. *)
Definition buildIngestWiring `{DBLib} (getenv : string → string) (opened : option World)
  : result string (ingestWiring * option World) :=
  if bool_decide (getenv "MAPING_POSTGRES_DSN"%string = ""%string)
  then Ok (mkIngestWiring (StaticWiring [(devIngestKey, devTenant)]) devTenant, None)
  else match opened with
       | None => Err "control plane"%string
       | Some w =>
           match ensureDevKey devIngestKey App.devOrgName w with
           | (Err _, _) => Err "seed dev key"%string
           | (Ok tenant, w) => Ok (mkIngestWiring StoreWiring tenant, Some w)
           end
       end.

(** ** One node *)

(** Reads a field of a handler through the options that built it. *)
Ltac configured :=
  cbn [NewHandler fold_left WithLimiter WithCardinality WithPayloadLimit WithHandshakeRecorder WithInstanceWindowSink
       resolver limiter_allow cardinality cap payloadLimit proto_size recordHandshake sink_accepts iw_accepts].

Section node.
Context `{DBLib} `{RateLib}.

(** The shared state of the wired collaborators and of the two sinks. *)
Record node := mkNode {
  n_resolver : Resolver; n_limits : gmap string limitCacheEntry;
  n_ingest : Ingest.state (gmap string limiter);
}.
Definition new_node : node := mkNode newResolver ∅ (mkState ∅ NewCardinality [] []).

(** One upload: the request, what the database replies to it and the clocks it reads. The
    limits are resolved up to three times, each time through the cache. *)
Record upload_call := mkUploadCall {
  uc_hdr : headers; uc_req : UploadRequest; uc_now : Time; uc_bucket_now : Time;
  uc_guard_now : nat → Time;
  uc_clocks : clocks; uc_lookup : lookupFunc;
  uc_limits : nat → Time * Time * Time * option Limits;
}.

Definition limits_call (x : upload_call) (i : nat) (tenant : string) : lookup_call :=
  let '(now, stored, sweep, reply) := uc_limits x i in
  mkLookup now stored sweep tenant (limitProvider_Limits reply).

(** [provider.Limits] through the cache. *)
Definition provider_Limits (cache : gmap string limitCacheEntry) (x : upload_call) (i : nat) (tenant : string)
  : (Limits * bool) * gmap string limitCacheEntry :=
  let '(a, _, cache) := CachedLimits cache (limits_call x i tenant) in (a, cache).

(** [Resolver.Resolve] as the handler's key resolver. *)
Definition resolve_key (n : node) (x : upload_call) (key : string) : (string * bool) * Resolver :=
  Control.Resolve (uc_lookup x) (n_resolver n) key (uc_clocks x).

(** What the handler's calls leave of the resolver: an empty key is refused before it. *)
Definition resolver_after (n : node) (x : upload_call) : Resolver :=
  let key := extractKey (uc_hdr x) in
  if bool_decide (key = ""%string) then n_resolver n else (resolve_key n x key).2.

(** [newTenantLimiter], whose buckets read the clock at [now]. *)
Definition newTenantLimiter (now : Time) (rps : f64) (burst : Z) : gmap string limiter → string → bool * gmap string limiter :=
  λ lims t, tenantLimiter_allow rps burst lims now t.

Section upload.
Context (sink : list Row → Row → bool) (iw_sink : list InstanceWindowRow → InstanceWindowRow → bool)
  (size : UploadRequest → Z).

(** The handler of this upload, with the answers its providers give in turn: the rate
    limiter resolves the limits first, then the payload check, then the cardinality cap. *)
Definition wired (n : node) (x : upload_call) : Ingest.Handler (gmap string limiter) :=
  let limits_1 t := provider_Limits (n_limits n) x 0 t in
  let limits_2 t := provider_Limits (limits_1 t).2 x 1 t in
  let limits_3 t := provider_Limits (limits_2 t).2 x 2 t in
  NewHandler (newTenantLimiter (uc_bucket_now x)) size
    (λ key, let '(tenant, ok) := (resolve_key n x key).1 in if ok : bool then Some tenant else None) sink
    [WithLimiter (Some (λ lims t,
       RateAllow (Some (λ t, let '(l, ok) := (limits_1 t).1 in if ok : bool then Some l else None))
         lims (uc_bucket_now x) t));
     WithCardinality (Some (uc_guard_now x)) (Some (λ t, CardinalityCap (limits_3 t).1.1));
     WithPayloadLimit (Some (λ t, MaxPayloadBytes (limits_2 t).1.1));
     WithHandshakeRecorder (Some (λ _ _ _ _, None));
     WithInstanceWindowSink (Some iw_sink)].

(** The limit cache afterwards: as many lookups as the upload got to. *)
Definition limits_after (n : node) (x : upload_call) : gmap string limitCacheEntry :=
  match authenticate (wired n x) (uc_hdr x) with
  | Err _ => n_limits n
  | Ok tid =>
      let t := tenant.String tid in
      let c1 := (provider_Limits (n_limits n) x 0 t).2 in
      if negb (limiter_allow (wired n x) (Ingest.limits (n_ingest n)) t).1 then c1
      else
        let c2 := (provider_Limits c1 x 1 t).2 in
        if negb (payloadWithinLimit (wired n x) tid (uc_req x)) then c2
        else (provider_Limits c2 x 2 t).2
  end.

Definition serve_upload (n : node) (x : upload_call) : result code UploadResponse * node :=
  let '(r, st) := Upload (wired n x) (n_ingest n) (uc_hdr x) (uc_req x) (uc_now x) in
  (r, mkNode (resolver_after n x) (limits_after n x) st).

Fixpoint serve_uploads (n : node) (l : list upload_call) : list (result code UploadResponse) * node :=
  match l with
  | [] => ([], n)
  | x :: l => let '(r, n) := serve_upload n x in
              let '(rs, n) := serve_uploads n l in (r :: rs, n)
  end.
End upload.
End node.

(** ** The development server

    Without a control plane the handler has the static key, the default limiter and no
    option but the window sink: no cap, no payload bound, no recorded handshakes. *)

Section dev.
Context {digest : Type} `{EqDecision digest} (hashKey : string → digest) `{RateLib}.
Context (sink : list Row → Row → bool) (iw_sink : list InstanceWindowRow → InstanceWindowRow → bool)
  (size : UploadRequest → Z).

Definition dev_handler (keys : list (string * string)) (bucket_now : Time) : Ingest.Handler (gmap string limiter) :=
  NewHandler (newTenantLimiter bucket_now) size (Ingest.Resolve hashKey (NewStaticKeyResolver hashKey keys)) sink
    [WithInstanceWindowSink (Some iw_sink)].

(** The development server, on every upload: the development key is accepted under the
    development tenant and its summaries are all stored while its bucket of 200 requests,
    refilled at 100 a second, lasts, however many series there are and however large the
    request; then it is throttled and nothing is stored. Any other key changes nothing. *)
Theorem dev_server_takes_the_dev_key `{!Inj (=) (=) hashKey} bucket_now st hdr req now :
  (∀ rows r, sink rows r = true) →
  Forall (λ s, is_Some s ∧
    is_Some (applyTimestampPolicy (sum_window_start_ms (get_summary s)) (sum_window_end_ms (get_summary s)) now))
    (up_summaries req) →
  let bucket := default (NewLimiter defaultTenantRPS defaultTenantBurst) (Ingest.limits st !! devTenant) in
  let '(r, st') := Upload (dev_handler [(devIngestKey, devTenant)] bucket_now) st hdr req now in
  if decide (extractKey hdr = devIngestKey) then
    if (AllowNow bucket bucket_now).1 then
      r = Ok (mkUploadResponse true "" 0) ∧
      ∃ new, stored st' = stored st ++ new ∧
        Forall2 (converts (tenant.mkID devTenant) (env_service (get_envelope req)) (env_instance (get_envelope req))
                   (deploy_of (get_envelope req)) now) (up_summaries req) new
    else r = Err CodeResourceExhausted ∧ stored st' = stored st ∧ stored_iw st' = stored_iw st
  else r = Err CodeUnauthenticated ∧ st' = st.
Proof.
  intros Hsink Hin bucket. set (h := dev_handler _ _).
  assert (Ha : authenticate h hdr = if decide (extractKey hdr = devIngestKey) then Ok (tenant.mkID devTenant) else Err CodeUnauthenticated).
  { unfold authenticate. case_bool_decide as He; [by rewrite He|]. subst h. unfold dev_handler. configured.
    cbn [NewStaticKeyResolver fmap list_fmap Ingest.Resolve fold_left hash key_tenant fst snd].
    destruct (decide (extractKey hdr = devIngestKey)) as [->|Hne]; [by rewrite decide_True|].
    rewrite decide_False; [done|]. by intros ?%(inj hashKey). }
  assert (Hl : ∃ l, limiter_allow h (Ingest.limits st) devTenant = ((AllowNow bucket bucket_now).1, l)).
  { subst h. unfold dev_handler. configured. unfold newTenantLimiter, tenantLimiter_allow. fold bucket.
    destruct (AllowNow bucket bucket_now) as [ok lim]. by eexists. }
  destruct (decide _); [|unfold Upload; by rewrite Ha].
  destruct Hl as [l Hl]. destruct (AllowNow bucket bucket_now).1.
  - destruct (Upload_stores h st hdr req now (tenant.mkID devTenant) l) as (st' & new & -> & ? & ?); [done..|by left|].
    split; [done|]. by exists new.
  - unfold Upload. rewrite Ha. cbn [tenant.String tenant.v]. rewrite Hl. done.
Qed.
End dev.

(** ** What a stored row owes to the control plane *)

Section provenance.
Context `{DBLib} `{RateLib}.
Context (sink : list Row → Row → bool) (iw_sink : list InstanceWindowRow → InstanceWindowRow → bool)
  (size : UploadRequest → Z).
Implicit Types (x y : upload_call) (n : node).

(** The upload as a call of the key resolver. *)
Definition key_call x : rcall := mkCall_ (extractKey (uc_hdr x)) (uc_clocks x) (uc_lookup x).

(** The database replied that the key of the [i]-th upload [x] is an active key of [org]:
    to that upload, or to an earlier one whose reply had not run out. *)
Definition vouched (l : list upload_call) (i : nat) x (org : string) : Prop :=
  ∃ dg y, call_digest (key_call x) = Some dg ∧ call_digest (key_call y) = Some dg ∧
    uc_lookup y dg = Ok (Some org) ∧
    (y = x ∨ y ∈ take i l ∧ t_fresh (uc_clocks x) < t_expiry (uc_clocks y) + 30 * Second).

(** A row is the conversion of a summary of an upload whose key was vouched for, a window
    row that of one of its instance windows. *)
Definition row_owed (l : list upload_call) (row : Row) : Prop :=
  ∃ i x s, l !! i = Some x ∧ vouched l i x (tenant.String (Tenant row)) ∧
    s ∈ up_summaries (uc_req x) ∧
    converts (Tenant row) (env_service (get_envelope (uc_req x))) (env_instance (get_envelope (uc_req x)))
      (deploy_of (get_envelope (uc_req x))) (uc_now x) s row.
Definition window_owed (l : list upload_call) (w : InstanceWindowRow) : Prop :=
  ∃ i x, l !! i = Some x ∧ vouched l i x (tenant.String (iwr_tenant w)) ∧
    converts_window (iwr_tenant w) (env_service (get_envelope (uc_req x)))
      (env_instance (get_envelope (uc_req x))) (uc_now x) (up_instance_windows (uc_req x)) w.

Lemma vouched_app l l' i x org : (i < length l)%nat → vouched l i x org → vouched (l ++ l') i x org.
Proof.
  intros Hi (dg & y & ? & ? & ? & Hy). exists dg, y. split_and!; [done..|].
  by rewrite take_app_le by lia.
Qed.
Lemma row_owed_app l l' row : row_owed l row → row_owed (l ++ l') row.
Proof.
  intros (i & x & s & Hx & Hv & ?). pose proof (lookup_lt_Some _ _ _ Hx). exists i, x, s.
  split; [by apply lookup_app_l_Some|]. split; [by apply vouched_app|done].
Qed.
Lemma window_owed_app l l' w : window_owed l w → window_owed (l ++ l') w.
Proof.
  intros (i & x & Hx & Hv & ?). pose proof (lookup_lt_Some _ _ _ Hx). exists i, x.
  split; [by apply lookup_app_l_Some|]. split; [by apply vouched_app|done].
Qed.

(** What the resolver lets in is vouched for. *)
Lemma let_in_vouched past x a r' r :
  from_replies r (key_call <$> past) → Control.Resolve (uc_lookup x) r (extractKey (uc_hdr x)) (uc_clocks x) = (a, r') →
  (∀ org, a = (org, true) → vouched (past ++ [x]) (length past) x org) ∧
  from_replies r' (key_call <$> (past ++ [x])).
Proof.
  intros Hf Hr. destruct (Resolve_backed r (key_call <$> past) (key_call x) a r' Hf Hr) as [Hb Hf'].
  rewrite fmap_app. split; [|exact Hf']. intros org ->. unfold backed in Hb.
  unfold vouched. rewrite take_app_length. destruct (call_digest (key_call x)) as [dg|] eqn:Ed; [|done]. exists dg.
  destruct Hb as [(y & found & Hy & Hdg & Hl & Ha & Ht)|Hl].
  - apply list_elem_of_fmap in Hy as (z & -> & Hz). exists z. destruct found; [|done]. injection Ha as <-.
    split_and!; [done..|]. by right.
  - destruct (rc_lookup (key_call x) dg) as [[t|]|] eqn:El; try done. injection Hl as <-. exists x.
    split_and!; [done..|]. by left.
Qed.

Lemma from_replies_mono r past x : from_replies r (key_call <$> past) → from_replies r (key_call <$> (past ++ [x])).
Proof.
  intros Hf dg e He. destruct (Hf dg e He) as (y & found & Hy & ?). exists y, found.
  rewrite fmap_app. split; [|done]. apply elem_of_app. by left.
Qed.

Lemma authenticate_vouched n x tid :
  authenticate (wired sink iw_sink size n x) (uc_hdr x) = Ok tid →
  (resolve_key n x (extractKey (uc_hdr x))).1 = (tenant.String tid, true).
Proof.
  unfold authenticate. case_bool_decide; [done|]. unfold wired; configured.
  destruct (resolve_key n x (extractKey (uc_hdr x))) as [[t []] r']; cbn [fst]; [|done].
  unfold tenant.Parse. case_bool_decide; [done|]. by intros [= <-].
Qed.

(** One upload keeps the resolver's cache founded and adds only owed rows. *)
Lemma serve_upload_owed past n x r n' :
  from_replies (n_resolver n) (key_call <$> past) →
  serve_upload sink iw_sink size n x = (r, n') →
  from_replies (n_resolver n') (key_call <$> (past ++ [x])) ∧
  ∃ new new_iw, stored (n_ingest n') = stored (n_ingest n) ++ new ∧
    stored_iw (n_ingest n') = stored_iw (n_ingest n) ++ new_iw ∧
    Forall (row_owed (past ++ [x])) new ∧ Forall (window_owed (past ++ [x])) new_iw.
Proof.
  intros Hf Hs. unfold serve_upload in Hs.
  destruct (Upload (wired sink iw_sink size n x) (n_ingest n) (uc_hdr x) (uc_req x) (uc_now x)) as [res st] eqn:EU.
  injection Hs as <- <-. cbn [n_resolver n_ingest]. unfold resolver_after, resolve_key.
  destruct (Control.Resolve (uc_lookup x) (n_resolver n) (extractKey (uc_hdr x)) (uc_clocks x)) as [a r'] eqn:ER.
  destruct (let_in_vouched past x a r' _ Hf ER) as [Hv Hf'].
  split; [case_bool_decide; [by apply from_replies_mono|done]|].
  pose proof (Upload_cases (wired sink iw_sink size n x) (n_ingest n) (uc_hdr x) (uc_req x) (uc_now x)) as HU.
  rewrite EU in HU. destruct res as [resp|[]].
  - destruct HU as (tid & kept & new & new_iw & Ha & _ & -> & -> & Hsub & Hconv & Hten & Hiw & _).
    apply authenticate_vouched in Ha. unfold resolve_key in Ha. rewrite ER in Ha. specialize (Hv _ Ha).
    exists new, new_iw. split; [done|]. split; [done|]. split.
    + rewrite Forall_forall. intros row Hrow. rewrite Forall_forall in Hten. pose proof (Hten _ Hrow) as Ht.
      apply list_elem_of_lookup_1 in Hrow as [j Hj].
      destruct (Forall2_lookup_r _ _ _ _ _ Hconv Hj) as (s & Hsj & Hc).
      exists (length past), x, s. rewrite Ht. split; [by apply list_lookup_middle|]. split; [exact Hv|].
      split; [|exact Hc]. eapply elem_of_sublist; [by eapply list_elem_of_lookup_2|exact Hsub].
    + eapply Forall_impl; [exact Hiw|]. intros w Hw. pose proof Hw as (iw & _ & Hc).
      apply instanceWindowToRow_tenant in Hc. exists (length past), x. rewrite Hc.
      split; [by apply list_lookup_middle|]. split; [exact Hv|exact Hw].
  - destruct HU as [-> _]. exists [], []. by rewrite !app_nil_r.
  - destruct HU as (-> & -> & _). exists [], []. by rewrite !app_nil_r.
Qed.

Lemma serve_uploads_owed past n l rs n' :
  from_replies (n_resolver n) (key_call <$> past) →
  Forall (row_owed past) (stored (n_ingest n)) → Forall (window_owed past) (stored_iw (n_ingest n)) →
  serve_uploads sink iw_sink size n l = (rs, n') →
  Forall (row_owed (past ++ l)) (stored (n_ingest n')) ∧ Forall (window_owed (past ++ l)) (stored_iw (n_ingest n')).
Proof.
  revert past n rs. induction l as [|x l IH]; intros past n rs Hf Hr Hw Hs; cbn [serve_uploads] in Hs.
  { injection Hs as <- <-. by rewrite app_nil_r. }
  destruct (serve_upload sink iw_sink size n x) as [r n1] eqn:E1.
  destruct (serve_uploads sink iw_sink size n1 l) as [rs1 n2] eqn:E2. injection Hs as <- <-.
  destruct (serve_upload_owed past n x r n1 Hf E1) as (Hf1 & new & new_iw & Hst & Hiw & Hn & Hni).
  replace (past ++ x :: l) with ((past ++ [x]) ++ l) by by rewrite <-app_assoc.
  apply (IH (past ++ [x]) n1 rs1 Hf1); [rewrite Hst|rewrite Hiw|exact E2]; apply Forall_app; (split; [|done]).
  - eapply Forall_impl; [exact Hr|]. intros row. apply row_owed_app.
  - eapply Forall_impl; [exact Hw|]. intros w. apply window_owed_app.
Qed.
End provenance.

(** [C7] Every stored row is owed to a key. Whatever sequence of uploads a node serves, with
    whatever replies and failures of the control plane and of the sinks, each row it has
    stored is the conversion, inside the accepted time skew, of a summary of one of those
    uploads, and it is stored under the organization of which the database said, to that
    upload or to one that read the clock less than 30 seconds earlier, that the presented
    key is an active key; the same holds of each stored instance window. *)
Theorem stored_rows_are_owed `{DBLib} `{RateLib} sink iw_sink size l rs n :
  serve_uploads sink iw_sink size new_node l = (rs, n) →
  Forall (row_owed l) (stored (n_ingest n)) ∧ Forall (window_owed l) (stored_iw (n_ingest n)).
Proof. by apply (serve_uploads_owed sink iw_sink size [] new_node l rs n). Qed.

(** A customer signs up, is issued a key and uploads two summaries, one of them far in
    the past. *)
Definition toy_limits : Limits := mkLimits 5%float 2 10 100 30.
Definition toy_summary (end_ms : Z) : option Summary :=
  Some (mkSummary 0 end_ms "GET" "/a" SC_2XX 1 5 0 0 ∅ ∅ 5 [] ∅ ∅ 0).
Definition toy_call (summaries : list (option Summary)) : upload_call :=
  let _ := toy_db in
  mkUploadCall
    (λ k, if decide (k = "Authorization"%string)
          then str_app "Bearer " (Token.Encode "https://maping.example" toy_secret) else ""%string)
    (mkUpload None summaries []) (3600000 * Millisecond) 0 (λ _, 3600000 * Millisecond) (at_clock 5) (poolLookup keyed_world)
    (λ _, (0, 0, 0, Some toy_limits)).
Definition toy_upload : upload_call := toy_call [toy_summary 3600000; toy_summary 0].
Definition toy_served (l : list upload_call) :=
  let _ := toy_db in let _ := counting in
  serve_uploads (λ _ _, true) (λ _ _, true) (λ _, 10) new_node l.

Lemma stored_rows_are_owed_witness :
  let _ := toy_db in
  length (stored (n_ingest (toy_served [toy_upload; toy_upload]).2)) = 2%nat ∧
  Forall (row_owed [toy_upload; toy_upload]) (stored (n_ingest (toy_served [toy_upload; toy_upload]).2)) ∧
  Forall (window_owed [toy_upload; toy_upload]) (stored_iw (n_ingest (toy_served [toy_upload; toy_upload]).2)).
Proof.
  split; [vm_compute; reflexivity|].
  apply (@stored_rows_are_owed toy_db counting (λ _ _, true) (λ _ _, true) (λ _, 10)
    [toy_upload; toy_upload] (toy_served [toy_upload; toy_upload]).1).
  exact (surjective_pairing (toy_served [toy_upload; toy_upload])).
Defined.

(** ** The first upload of a new customer *)

Section first_upload.
Context `{DBLib} `{RateLib}.
Context (sink : list Row → Row → bool) (iw_sink : list InstanceWindowRow → InstanceWindowRow → bool)
  (size : UploadRequest → Z).
Implicit Types (x : upload_call) (lim : Limits).

(** A request that plan [lim] has room for: its encoded size is within the payload bound,
    its summaries number at most the cap, are all present and end inside the time skew. *)
Definition in_plan lim x : Prop :=
  (MaxPayloadBytes lim ≤ 0 ∨ size (uc_req x) ≤ MaxPayloadBytes lim) ∧
  (CardinalityCap lim ≤ 0 ∨ Z.of_nat (length (up_summaries (uc_req x))) ≤ CardinalityCap lim) ∧
  Forall (λ s, is_Some s ∧
    is_Some (applyTimestampPolicy (sum_window_start_ms (get_summary s)) (sum_window_end_ms (get_summary s))
               (uc_now x))) (up_summaries (uc_req x)).

Lemma provider_Limits_answers cache x i t lim :
  (uc_limits x i).2 = Some lim → answers cache t (lim, true) →
  (provider_Limits cache x i t).1 = (lim, true) ∧ answers (provider_Limits cache x i t).2 t (lim, true).
Proof.
  intros Hlim Hc. unfold provider_Limits.
  assert (Ht : lk_tenant (limits_call x i t) = t) by (unfold limits_call; by destruct (uc_limits x i) as [[[]]]).
  assert (Hb : lk_base (limits_call x i t) = (lim, true)).
  { unfold limits_call. destruct (uc_limits x i) as [[[]] r]. cbn in Hlim |- *. by rewrite Hlim. }
  pose proof (CachedLimits_answers cache (limits_call x i t) (lim, true)) as HC. rewrite Ht in HC.
  specialize (HC Hc Hb). by destruct (CachedLimits cache _) as [[a asked] c].
Qed.

(** A presented key is read off the header whole. *)
Lemma extractKey_bearer hdr origin b secret :
  NewSecret (Some b) = Some secret →
  hdr "Authorization"%string = str_app "Bearer " (Token.Encode origin secret) →
  extractKey hdr = Token.Encode origin secret.
Proof.
  intros Hs Hh. unfold extractKey. rewrite Hh, HasPrefix_app. unfold TrimPrefix.
  rewrite HasPrefix_app, str_drop_app. by eapply TrimSpace_Encode.
Qed.

Lemma wired_stores x org lim :
  (resolve_key new_node x (extractKey (uc_hdr x))).1 = (org, true) → extractKey (uc_hdr x) ≠ ""%string → org ≠ ""%string →
  (∀ i, (uc_limits x i).2 = Some lim) →
  (AllowNow (NewLimiter (MaxRPS lim) (Burst lim)) (uc_bucket_now x)).1 = true →
  in_plan lim x → (∀ rows r, sink rows r = true) →
  let env := get_envelope (uc_req x) in
  let '(r, n) := serve_upload sink iw_sink size new_node x in
  r = Ok (mkUploadResponse true "" 0) ∧
  Forall2 (converts (tenant.mkID org) (env_service env) (env_instance env) (deploy_of env) (uc_now x))
    (up_summaries (uc_req x)) (stored (n_ingest n)).
Proof.
  intros Hres Hkey Horg Hlim Hallow (Hsize & Hcap & Hall) Hsink. cbn zeta.
  set (h := wired sink iw_sink size new_node x).
  destruct (provider_Limits_answers ∅ x 0 org lim (Hlim _) (answers_empty _ _)) as [H1 A1].
  destruct (provider_Limits_answers _ x 1 org lim (Hlim _) A1) as [H2 A2].
  destruct (provider_Limits_answers _ x 2 org lim (Hlim _) A2) as [H3 _].
  assert (Ha : authenticate h (uc_hdr x) = Ok (tenant.mkID org)).
  { unfold authenticate. rewrite bool_decide_false by done. subst h; unfold wired; configured. rewrite Hres.
    unfold tenant.Parse. by rewrite bool_decide_false. }
  assert (Hl : (limiter_allow h ∅ org).1 = true).
  { subst h; unfold wired; configured. unfold RateAllow, resolved. cbn [n_limits new_node]. rewrite H1. cbn.
    by destruct (AllowNow _ _). }
  assert (Hp : payloadWithinLimit h (tenant.mkID org) (uc_req x) = true).
  { change (let limit := MaxPayloadBytes (provider_Limits (provider_Limits ∅ x 0 org).2 x 1 org).1.1 in
            (limit <=? 0) || (size (uc_req x) <=? limit) = true).
    rewrite H2. cbn. apply orb_true_iff. destruct Hsize; [left|right]; lia. }
  destruct (limiter_allow h ∅ org) as [ok l] eqn:El. cbn in Hl. subst ok.
  assert (Hc : (match cap h with Some f => if cardinality h then f org else 0 | None => 0 end) = CardinalityCap lim).
  { apply (f_equal (λ a, CardinalityCap a.1)) in H3. exact H3. }
  destruct (Upload_stores h (n_ingest new_node) (uc_hdr x) (uc_req x) (uc_now x) (tenant.mkID org) l)
    as (st & new & HU & Hst & Hf); [done..| |].
  { cbn [tenant.String tenant.v]. rewrite Hc. cbn. rewrite lookup_empty. cbn. rewrite map_size_empty. lia. }
  unfold serve_upload. fold h. rewrite HU. cbn [n_ingest]. by rewrite Hst.
Qed.
End first_upload.

(** An issued key opens the server: presented in the first upload after any history that
    does not revoke it. *)
Lemma issued_key_upload `{DBLib} `{RateLib} sink iw_sink size org label w a b rest secret w1 l origin x lim :
  w_rand w = Some (a :: b) :: rest →
  issueKey org label w = (Ok secret, w1) → org ≠ ""%string →
  (∀ k, active_key (hashKey secret) (w_db w1) = Some k → Forall (spares (k_id k)) l.*1) →
  w_faults (run_ops w1 l) = [] →
  uc_hdr x "Authorization"%string = str_app "Bearer " (Token.Encode origin secret) →
  uc_lookup x = poolLookup (run_ops w1 l) →
  (∀ i, (uc_limits x i).2 = Some lim) →
  (AllowNow (NewLimiter (MaxRPS lim) (Burst lim)) (uc_bucket_now x)).1 = true →
  in_plan size lim x → (∀ rows r, sink rows r = true) →
  let env := get_envelope (uc_req x) in
  let '(r, n) := serve_upload sink iw_sink size new_node x in
  r = Ok (mkUploadResponse true "" 0) ∧
  Forall2 (converts (tenant.mkID org) (env_service env) (env_instance env) (deploy_of env) (uc_now x))
    (up_summaries (uc_req x)) (stored (n_ingest n)).
Proof.
  intros Hrand Hi Horg Hl Hf Hhdr Hx Hlim Hallow Hplan Hsink.
  destruct (issueKey_Ok _ _ _ _ _ Hi) as (b' & bs & _ & _ & Hb & Hs & _). rewrite Hrand in Hb.
  injection Hb as <- <-. pose proof (extractKey_bearer _ origin _ _ Hs Hhdr) as Hkey.
  apply (wired_stores sink iw_sink size x org lim); rewrite ?Hkey; try done.
  - destruct (issued_active _ _ _ _ _ Hi) as (k & Hk & <-). unfold resolve_key. rewrite Hx.
    apply Resolve_fresh_lookup; [by eapply NewSecret_dotless| |done|done].
    by apply active_history; [apply Hl|].
  - unfold Token.Encode. case_bool_decide; by destruct secret.
Qed.
