(* ===== verification/Insert.v ===== *)
(** * What an insert writes (server/internal/storage/writer.go, migrations/clickhouse)

    A batch is one prepared statement, one [Append] of positional values per row and one
    [Send]; the columns are those the statement lists, with the types the migrations declare.
    The driver is a parameter: which values a column of a type takes is its business, and
    [DriverLaws] states the part of its documentation the code relies on, the milliseconds a
    date column keeps included. A [Send] that fails may have landed any part of its batch, and
    the engine merges rows behind the node's back ([collapses], file Rollup). Proved: every
    row a node stores fits its table column by column, reads back as itself but for the zero
    time, counts once and for all in every sum, and can only be refused for one of its times. *)

From Stdlib Require Import ZArith Lia Ascii Floats.
From Stdlib Require String.
From stdpp Require Import base option gmap fin_maps strings list.
From S2P Require Import Prelude GoFloat GoString GoTime Wire Writer Guardrail Control Ingest App Wiring Storage Sql Rollup.

Local Open Scope Z_scope.

(** ** The statements *)

Definition insertStmt : string := "INSERT INTO summaries (
    tenant, service, instance, method, route_template, status_class,
    window_start, window_end, count, sum_duration_ns, req_bytes, resp_bytes,
    latency_sketch, status_codes,
    deploy_version, deploy_id, environment, region, instance_start_time,
    max_duration_ns, exemplars,
    error_classes, no_status_reasons,
    sum_downstream_duration_ns
)".

Definition instanceWindowInsertStmt : string := "INSERT INTO instance_windows (
    tenant, service, instance, window_start, window_end,
    cpu_ns, rss_bytes, heap_alloc_bytes, gc_pause_ns, goroutines,
    num_gc, total_alloc_bytes, mallocs, gc_cpu_fraction, heap_inuse_bytes, gomaxprocs,
    post_gc_heap_bytes, rss_true_bytes, open_fds, fd_limit, in_flight
)".

(** The columns a statement lists: the names between its parentheses. *)
Definition statement_columns (stmt : string) : list string :=
  match Split stmt "("%char with
  | [_; rest] => match Split rest ")"%char with
                 | names :: _ => TrimSpace <$> Split names ","%char
                 | [] => []
                 end
  | _ => []
  end.

(** ** The tables *)

Inductive ColType :=
  | CString | CUInt8 | CInt32 | CUInt32 | CUInt64 | CFloat64
  | CDateTime64                                  (* DateTime64(3) *)
  | CEnum8 (names : list (string * Z))
  | CLowCardinality (t : ColType)
  | CSimpleAggregate (f : string) (t : ColType)  (* SimpleAggregateFunction(f, t) *)
  | CMap (k v : ColType)
  | CArray (t : ColType)
  | CTuple (ts : list ColType).

Definition schema := list (string * ColType).

Definition status_classes : list (string * Z) :=
  [("STATUS_CLASS_UNSPECIFIED", 0); ("STATUS_CLASS_2XX", 1); ("STATUS_CLASS_3XX", 2);
   ("STATUS_CLASS_4XX", 3); ("STATUS_CLASS_5XX", 4); ("STATUS_CLASS_NO_STATUS", 5)]%string.

Definition exemplar_tuple : ColType :=
  CTuple [CDateTime64; CUInt64; CUInt32; CString; CString; CString].

Definition column_type (table : schema) (name : string) : option ColType :=
  (λ found, found.2.2) <$> list_find (λ c, c.1 = name) table.

(** 0001_summaries.sql *)
Definition summaries_schema : schema :=
  [("tenant", CString); ("service", CString); ("instance", CString); ("method", CString);
   ("route_template", CString); ("status_class", CEnum8 status_classes);
   ("window_start", CDateTime64); ("window_end", CSimpleAggregate "max" CDateTime64);
   ("count", CSimpleAggregate "sum" CUInt64); ("sum_duration_ns", CSimpleAggregate "sum" CUInt64);
   ("req_bytes", CSimpleAggregate "sum" CUInt64); ("resp_bytes", CSimpleAggregate "sum" CUInt64);
   ("latency_sketch", CSimpleAggregate "sumMap" (CMap CInt32 CUInt64));
   ("status_codes", CSimpleAggregate "sumMap" (CMap CUInt32 CUInt64));
   ("deploy_version", CLowCardinality CString); ("deploy_id", CLowCardinality CString);
   ("environment", CLowCardinality CString); ("region", CLowCardinality CString);
   ("instance_start_time", CSimpleAggregate "max" CDateTime64);
   ("max_duration_ns", CSimpleAggregate "max" CUInt64);
   ("exemplars", CSimpleAggregate "groupArrayArray" (CArray exemplar_tuple));
   ("error_classes", CSimpleAggregate "sumMap" (CMap CString CUInt64));
   ("no_status_reasons", CSimpleAggregate "sumMap" (CMap CUInt8 CUInt64));
   ("sum_downstream_duration_ns", CSimpleAggregate "sum" CUInt64)]%string.

(** 0003_instance_windows.sql, which declares the columns 0004 to 0006 add to an older table. *)
Definition instance_windows_schema : schema :=
  [("tenant", CString); ("service", CString); ("instance", CString);
   ("window_start", CDateTime64); ("window_end", CDateTime64);
   ("cpu_ns", CUInt64); ("rss_bytes", CUInt64); ("heap_alloc_bytes", CUInt64);
   ("gc_pause_ns", CUInt64); ("goroutines", CUInt64); ("num_gc", CUInt64);
   ("total_alloc_bytes", CUInt64); ("mallocs", CUInt64); ("gc_cpu_fraction", CFloat64);
   ("heap_inuse_bytes", CUInt64); ("gomaxprocs", CUInt32); ("post_gc_heap_bytes", CUInt64);
   ("rss_true_bytes", CUInt64); ("open_fds", CUInt64); ("fd_limit", CUInt64);
   ("in_flight", CUInt64)]%string.

(** ** The values *)

(** An argument of [Append]: an [any] with its Go type. *)
Inductive cell :=
  | GString (s : string) | GTime (t : Time)
  | GUint64 (z : Z) | GUint32 (z : Z) | GFloat64 (x : f64)
  | GMapInt32 (m : gmap Z Z) | GMapUint32 (m : gmap Z Z) | GMapUint8 (m : gmap Z Z)
  | GMapString (m : gmap string Z)
  | GTuples (l : list (list cell)).              (* [][]any *)

Definition tuple_cells (e : Time * Z * Z * string * string * string) : list cell :=
  let '(at_, duration, code, trace, span, req) := e in
  [GTime at_; GUint64 duration; GUint32 code; GString trace; GString span; GString req].

(** The arguments of [batch.Append] in [insert]. *)
Definition row_cells (r : Row) : list cell :=
  [GString (tenant.String (Tenant r)); GString (Service r); GString (Instance_ r); GString (Method r);
   GString (RouteTemplate r); GString (StatusClass r);
   GTime (WindowStart r); GTime (WindowEnd r); GUint64 (Count r); GUint64 (SumDurationNs r);
   GUint64 (ReqBytes r); GUint64 (RespBytes r);
   GMapInt32 (sketchMap r); GMapUint32 (statusCodeMap r);
   GString (DeployVersion r); GString (DeployID r); GString (Environment r); GString (Region r);
   GTime (InstanceStart r);
   GUint64 (MaxDurationNs r); GTuples (tuple_cells <$> exemplarTuples r);
   GMapString (errorClassMap r); GMapUint8 (noStatusReasonMap r);
   GUint64 (SumDownstreamNs r)].

(** The arguments of [batch.Append] in [insertInstanceWindows]. *)
Definition window_cells (r : InstanceWindowRow) : list cell :=
  let g := iwr_gauges r in
  [GString (tenant.String (iwr_tenant r)); GString (iwr_service r); GString (iwr_instance r);
   GTime (iwr_start r); GTime (iwr_end r);
   GUint64 (iw_cpu_ns g); GUint64 (iw_rss_bytes g); GUint64 (iw_heap_alloc_bytes g);
   GUint64 (iw_gc_pause_ns g); GUint64 (iw_goroutines g);
   GUint64 (iw_num_gc g); GUint64 (iw_total_alloc_bytes g); GUint64 (iw_mallocs g);
   GFloat64 (iw_gc_cpu_fraction g); GUint64 (iw_heap_inuse_bytes g); GUint32 (iw_gomaxprocs g);
   GUint64 (iw_post_gc_heap_bytes g); GUint64 (iw_rss_true_bytes g); GUint64 (iw_open_fds g);
   GUint64 (iw_fd_limit g); GUint64 (iw_in_flight g)].

(** ** The driver *)

(** [PrepareBatch] of a statement on a table, [batch.Append] of positional values, whether
    a column of the type takes the value, whether a date column takes a time (a
    [DateTime64(3)] has a range), and what it then holds. *)
Class Driver := {
  prepare : schema → string → result string (list ColType);
  append : list ColType → list cell → bool;
  column_takes : ColType → cell → bool;
  takes_time : Time → bool;
  held_time : Time → Time;
}.

Definition is_u32 (z : Z) : Prop := 0 ≤ z < 2 ^ 32.
Definition is_u8 (z : Z) : Prop := 0 ≤ z < 2 ^ 8.

(** The documented conversions the code relies on. *)
Class DriverLaws (D : Driver) : Prop := {
  prepare_known table stmt types :
    mapM (column_type table) (statement_columns stmt) = Some types → prepare table stmt = Ok types;
  append_positional types cells :
    append types cells = (length types =? length cells)%nat && forallb id (zip_with column_takes types cells);
  takes_low_cardinality t c : column_takes (CLowCardinality t) c = column_takes t c;
  takes_aggregate f t c : column_takes (CSimpleAggregate f t) c = column_takes t c;
  takes_string s : column_takes CString (GString s) = true;
  takes_enum names s : column_takes (CEnum8 names) (GString s) = bool_decide (s ∈ names.*1);
  takes_date t : column_takes CDateTime64 (GTime t) = takes_time t;
  holds_milliseconds t : takes_time t = true → t ≠ zero_time → (Millisecond | t) → held_time t = t;
  takes_u64 z : is_u64 z → column_takes CUInt64 (GUint64 z) = true;
  takes_u32 z : is_u32 z → column_takes CUInt32 (GUint32 z) = true;
  takes_float x : column_takes CFloat64 (GFloat64 x) = true;
  takes_map_i32 (m : gmap Z Z) : map_Forall (λ k c, is_i32 k ∧ is_u64 c) m →
    column_takes (CMap CInt32 CUInt64) (GMapInt32 m) = true;
  takes_map_u32 (m : gmap Z Z) : map_Forall (λ k c, is_u32 k ∧ is_u64 c) m →
    column_takes (CMap CUInt32 CUInt64) (GMapUint32 m) = true;
  takes_map_u8 (m : gmap Z Z) : map_Forall (λ k c, is_u8 k ∧ is_u64 c) m →
    column_takes (CMap CUInt8 CUInt64) (GMapUint8 m) = true;
  takes_map_string (m : gmap string Z) : map_Forall (λ _ c, is_u64 c) m →
    column_takes (CMap CString CUInt64) (GMapString m) = true;
  takes_tuples ts l : column_takes (CArray (CTuple ts)) (GTuples l) =
    forallb (λ cells, forallb id (zip_with column_takes ts cells) && (length ts =? length cells)%nat) l;
}.

(** ** Inserting a batch *)

Section insert.
Context {D : Driver}.

(** The loop of appends: the first failure leaves it. *)
Fixpoint append_rows (types : list ColType) (batch : list (list cell)) (rows : list (list cell))
  : result string (list (list cell)) :=
  match rows with
  | [] => Ok batch
  | r :: rows => if append types r then append_rows types (batch ++ [r]) rows else Err "append row"%string
  end.

(** A table row: the values under the names the statement gives them, as the columns hold
    them. *)
Definition table_row := list (string * cell).

Fixpoint held_cell (c : cell) : cell :=
  match c with
  | GTime t => GTime (held_time t)
  | GTuples l => GTuples (map (map held_cell) l)
  | c => c
  end.
Definition held (cells : list (string * cell)) : table_row := prod_map id held_cell <$> cells.

(** What comes of [batch.Send]: the server acknowledged the batch, or the call failed. It may
    have failed before, while or after the server wrote (the deadline of [timedInsert] cuts a
    wait for an asynchronous insert short): [landed] tells which rows it wrote all the same. *)
Inductive reply := Acknowledged | Failed (landed : list bool).
Definition acknowledged (a : reply) : bool := match a with Acknowledged => true | Failed _ => false end.
Definition written {A} (a : reply) (batch : list A) : list A :=
  match a with
  | Acknowledged => batch
  | Failed landed => omap (λ x, if x.1 : bool then Some x.2 else None) (zip landed batch)
  end.

(** The body of [insert] and of [insertInstanceWindows]. [prepared]: whether the server
    answered the preparation within the deadline [timedInsert] sets. *)
Definition insert_rows (table : schema) (stmt : string) (rows : list (list cell)) (prepared : bool) (sent : reply)
  (stored : list table_row) : result string unit * list table_row :=
  match if prepared then prepare table stmt else Err "prepare batch"%string with
  | Err e => (Err e, stored)
  | Ok types =>
      match append_rows types [] rows with
      | Err e => (Err e, stored)
      | Ok batch =>
          (if acknowledged sent then Ok () else Err "send batch"%string,
           stored ++ ((λ cells, held (zip (statement_columns stmt) cells)) <$> written sent batch))
      end
  end.

Definition insert (rows : list Row) : bool → reply → list table_row → result string unit * list table_row :=
  insert_rows summaries_schema insertStmt (row_cells <$> rows).

Definition insertInstanceWindows (rows : list InstanceWindowRow)
  : bool → reply → list table_row → result string unit * list table_row :=
  insert_rows instance_windows_schema instanceWindowInsertStmt (window_cells <$> rows).
End insert.

(** ** The columns and their types *)

Lemma summaries_columns : statement_columns insertStmt = summaries_schema.*1.
Proof. vm_compute. reflexivity. Qed.
Lemma instance_windows_columns : statement_columns instanceWindowInsertStmt = instance_windows_schema.*1.
Proof. vm_compute. reflexivity. Qed.

(** ** The Go types of what is appended *)

(** A row whose fields are in the range of their Go types and whose class is one of the
    enum's names; and the times it carries. *)
Definition row_typed (r : Row) : Prop :=
  StatusClass r ∈ status_classes.*1 ∧
  Forall is_u64 [Count r; SumDurationNs r; ReqBytes r; RespBytes r; MaxDurationNs r; SumDownstreamNs r] ∧
  Forall (λ b, is_i32 (Index b) ∧ is_u64 (bucketCount b)) (Sketch r) ∧
  Forall (λ s, is_u32 (Code s) ∧ is_u64 (codeCount s)) (StatusCodes r) ∧
  Forall (λ e, is_u64 (classCount e)) (ErrorClasses r) ∧
  Forall (λ n, is_u8 (Reason n) ∧ is_u64 (reasonCount n)) (NoStatusReasons r) ∧
  Forall (λ e, is_u64 (DurationNs e) ∧ is_u32 (StatusCode_ e)) (Exemplars r).

Definition window_typed (r : InstanceWindowRow) : Prop :=
  let g := iwr_gauges r in
  is_u32 (iw_gomaxprocs g) ∧
  Forall is_u64 [iw_cpu_ns g; iw_rss_bytes g; iw_heap_alloc_bytes g; iw_gc_pause_ns g; iw_goroutines g;
    iw_num_gc g; iw_total_alloc_bytes g; iw_mallocs g; iw_heap_inuse_bytes g; iw_post_gc_heap_bytes g;
    iw_rss_true_bytes g; iw_open_fds g; iw_fd_limit g; iw_in_flight g].

Definition row_times (r : Row) : list Time :=
  [WindowStart r; WindowEnd r; InstanceStart r] ++ (At <$> Exemplars r).
Definition window_times (r : InstanceWindowRow) : list Time := [iwr_start r; iwr_end r].

Lemma rebuild_Forall `{Countable K} {V} (keyOf : V → K) (countOf : V → Z) (P : K → Z → Prop) (l : list V) :
  Forall (λ e, P (keyOf e) (countOf e)) l → map_Forall P (rebuild keyOf countOf l).
Proof.
  unfold rebuild. assert (He : map_Forall P (∅ : gmap K Z)) by apply map_Forall_empty.
  revert He. generalize (∅ : gmap K Z). induction l as [|e l IH]; intros m Hm Hl; [done|].
  apply Forall_cons in Hl as [Hp Hl]. cbn [fold_left]. apply IH; [|done]. by apply map_Forall_insert_2.
Qed.

Section fits.
Context {D : Driver} {laws : DriverLaws D}.

Lemma takes_exemplars (l : list Exemplar) :
  Forall (λ e, is_u64 (DurationNs e) ∧ is_u32 (StatusCode_ e)) l →
  column_takes (CArray exemplar_tuple)
    (GTuples (tuple_cells <$> ((λ e, (At e, DurationNs e, StatusCode_ e, TraceID e, SpanID e, RequestID e)) <$> l)))
  = forallb takes_time (At <$> l).
Proof.
  intros Hl. unfold exemplar_tuple. rewrite takes_tuples.
  induction Hl as [|e l [Hd Hc] _ IH]; [done|]. cbn -[column_takes] in IH |- *. rewrite IH.
  rewrite takes_date, takes_u64, takes_u32, !takes_string by done.
  by destruct (takes_time (At e)).
Qed.

Lemma append_row r : row_typed r →
  append summaries_schema.*2 (row_cells r) = forallb takes_time (row_times r).
Proof.
  intros (Hsc & Hn & Hs & Hc & He & Hr & Hx). repeat (apply Forall_cons in Hn as [? Hn]).
  rewrite append_positional. unfold row_cells, summaries_schema, exemplarTuples, row_times. cbn -[column_takes status_classes exemplar_tuple].
  rewrite !takes_low_cardinality, !takes_aggregate, !takes_string, !takes_date, !takes_u64 by done.
  rewrite takes_enum, bool_decide_true by done.
  rewrite takes_map_i32, takes_map_u32, takes_map_string, takes_map_u8 by (by apply rebuild_Forall).
  rewrite takes_exemplars by done. cbn.
  destruct (takes_time (WindowStart r)), (takes_time (WindowEnd r)), (takes_time (InstanceStart r)); cbn; try done.
  by rewrite andb_true_r.
Qed.

Lemma append_window r : window_typed r →
  append instance_windows_schema.*2 (window_cells r) = forallb takes_time (window_times r).
Proof.
  intros [Hg Hn]. repeat (apply Forall_cons in Hn as [? Hn]).
  rewrite append_positional. unfold window_cells, instance_windows_schema, window_times. cbn -[column_takes].
  rewrite !takes_string, !takes_date, !takes_u64, takes_u32, takes_float by done. cbn. done.
Qed.

Lemma append_rows_all types batch rows :
  append_rows types batch rows =
  if forallb (append types) rows then Ok (batch ++ rows) else Err "append row"%string.
Proof.
  revert batch. induction rows as [|r rows IH]; intros batch; cbn; [by rewrite app_nil_r|].
  destruct (append types r); [|done]. cbn. rewrite IH. by rewrite <-app_assoc.
Qed.

Lemma prepare_summaries : prepare summaries_schema insertStmt = Ok summaries_schema.*2.
Proof. apply prepare_known. vm_compute. reflexivity. Qed.
Lemma prepare_windows :
  prepare instance_windows_schema instanceWindowInsertStmt = Ok instance_windows_schema.*2.
Proof. apply prepare_known. vm_compute. reflexivity. Qed.
End fits.

(** ** A batch is all or nothing *)

Definition times_taken {D : Driver} (times : list Time) : bool := forallb takes_time times.

Definition succeeded (r : result string unit) : bool := match r with Ok _ => true | Err _ => false end.

Section batches.
Context {D : Driver} {laws : DriverLaws D}.

Lemma written_fmap {A B} (f : A → B) a l : written a (f <$> l) = f <$> written a l.
Proof.
  destruct a as [|mask]; [done|]. cbn. revert l. induction mask as [|[] mask IH]; intros [|x l]; cbn; try done.
  by rewrite <-IH.
Qed.

Lemma written_in {A} a (l : list A) x : x ∈ written a l → x ∈ l.
Proof.
  destruct a as [|mask]; [done|]. cbn. intros ([b y] & Hin & Hb)%list_elem_of_omap. destruct b; [|done].
  injection Hb as ->. by apply elem_of_zip_r in Hin.
Qed.

Lemma insert_rows_spec {T} table stmt types (cells : T → list cell) (times : T → list Time)
  (rows : list T) prepared sent stored :
  prepare table stmt = Ok types →
  Forall (λ r, append types (cells r) = times_taken (times r)) rows →
  let taken := prepared && forallb (λ r, times_taken (times r)) rows in
  let '(r, stored') := insert_rows table stmt (cells <$> rows) prepared sent stored in
  succeeded r = taken && acknowledged sent ∧
  stored' = if taken then stored ++ ((λ r, held (zip (statement_columns stmt) (cells r))) <$> written sent rows) else stored.
Proof.
  intros Hp Hrows. unfold insert_rows. destruct prepared; [|done]. rewrite Hp, append_rows_all.
  replace (forallb (append types) (cells <$> rows)) with (forallb (λ r, times_taken (times r)) rows).
  - cbn [andb]. destruct (forallb _ rows); [|done]. cbn [app]. rewrite written_fmap, <-list_fmap_compose.
    split; [by destruct sent|done].
  - induction Hrows as [|r rows Hr _ IH]; [done|]. cbn. by rewrite IH, Hr.
Qed.

Lemma insert_spec rows prepared sent stored :
  Forall row_typed rows →
  let taken := prepared && forallb (λ r, times_taken (row_times r)) rows in
  let '(r, stored') := insert rows prepared sent stored in
  succeeded r = taken && acknowledged sent ∧
  stored' = if taken then stored ++ ((λ r, held (zip (statement_columns insertStmt) (row_cells r))) <$> written sent rows)
            else stored.
Proof.
  intros Ht. apply (insert_rows_spec _ _ summaries_schema.*2); [apply prepare_summaries|].
  eapply Forall_impl; [exact Ht|]. apply append_row.
Qed.

Lemma insertInstanceWindows_spec rows prepared sent stored :
  Forall window_typed rows →
  let taken := prepared && forallb (λ r, times_taken (window_times r)) rows in
  let '(r, stored') := insertInstanceWindows rows prepared sent stored in
  succeeded r = taken && acknowledged sent ∧
  stored' =
    if taken then
      stored ++ ((λ r, held (zip (statement_columns instanceWindowInsertStmt) (window_cells r))) <$> written sent rows)
    else stored.
Proof.
  intros Ht. apply (insert_rows_spec _ _ instance_windows_schema.*2); [apply prepare_windows|].
  eapply Forall_impl; [exact Ht|]. apply append_window.
Qed.
End batches.

(** ** Reading a row back *)

Fixpoint column (name : string) (r : table_row) : option cell :=
  match r with
  | [] => None
  | (n, c) :: r => if String.eqb n name then Some c else column name r
  end.

Definition as_string (c : cell) : option string := match c with GString s => Some s | _ => None end.
Definition as_time (c : cell) : option Time := match c with GTime t => Some t | _ => None end.
Definition as_u64 (c : cell) : option Z := match c with GUint64 z => Some z | _ => None end.
Definition as_buckets (c : cell) : option (list SketchBucket) :=
  match c with GMapInt32 m => Some (sortedSketch m) | _ => None end.
Definition as_codes (c : cell) : option (list StatusCode) :=
  match c with GMapUint32 m => Some (sortedStatusCodes m) | _ => None end.
Definition as_classes (c : cell) : option (list ErrorClass) :=
  match c with GMapString m => Some (sortedErrorClasses m) | _ => None end.
Definition as_reasons (c : cell) : option (list NoStatusReason) :=
  match c with GMapUint8 m => Some (sortedNoStatusReasons m) | _ => None end.
Definition as_exemplar (cells : list cell) : option Exemplar :=
  match cells with
  | [GTime at_; GUint64 d; GUint32 code; GString trace; GString span; GString req] =>
      Some (mkExemplar at_ d code trace span req)
  | _ => None
  end.
Definition as_exemplars (c : cell) : option (list Exemplar) :=
  match c with GTuples l => mapM as_exemplar l | _ => None end.

(** The row a table row stands for: every field from the column that bears its name. *)
Definition read_row (t : table_row) : option Row :=
  let str name := column name t ≫= as_string in
  let time name := column name t ≫= as_time in
  let u64 name := column name t ≫= as_u64 in
  tenant ← str "tenant"%string; service ← str "service"%string; instance ← str "instance"%string;
  method ← str "method"%string; route ← str "route_template"%string; class ← str "status_class"%string;
  start ← time "window_start"%string; end_ ← time "window_end"%string;
  count ← u64 "count"%string; sum ← u64 "sum_duration_ns"%string;
  req ← u64 "req_bytes"%string; resp ← u64 "resp_bytes"%string;
  sketch ← column "latency_sketch"%string t ≫= as_buckets;
  codes ← column "status_codes"%string t ≫= as_codes;
  version ← str "deploy_version"%string; did ← str "deploy_id"%string;
  env ← str "environment"%string; region ← str "region"%string; boot ← time "instance_start_time"%string;
  maxd ← u64 "max_duration_ns"%string; exemplars ← column "exemplars"%string t ≫= as_exemplars;
  classes ← column "error_classes"%string t ≫= as_classes;
  reasons ← column "no_status_reasons"%string t ≫= as_reasons;
  downstream ← u64 "sum_downstream_duration_ns"%string;
  Some (mkRow (tenant.mkID tenant) service instance method route class start end_ count sum req resp
          sketch codes maxd exemplars classes reasons downstream version did env region boot).

(** The slices of the row are those its maps sort to. *)
Definition row_sorted (r : Row) : Prop :=
  sortedSketch (sketchMap r) = Sketch r ∧ sortedStatusCodes (statusCodeMap r) = StatusCodes r ∧
  sortedErrorClasses (errorClassMap r) = ErrorClasses r ∧
  sortedNoStatusReasons (noStatusReasonMap r) = NoStatusReasons r.

Lemma as_exemplars_tuples r :
  as_exemplars (GTuples (tuple_cells <$> exemplarTuples r)) = Some (Exemplars r).
Proof.
  unfold as_exemplars, exemplarTuples. induction (Exemplars r) as [|[] l IH]; [done|]. cbn in IH |- *. by rewrite IH.
Qed.

Lemma read_row_cells r :
  row_sorted r → read_row (zip (statement_columns insertStmt) (row_cells r)) = Some r.
Proof.
  intros (Hs & Hc & He & Hr). rewrite summaries_columns.
  pose proof (as_exemplars_tuples r) as Hx. unfold row_cells. revert Hx.
  generalize (tuple_cells <$> exemplarTuples r). intros tuples Hx.
  unfold read_row. cbn -[as_exemplars].
  rewrite Hx. cbn. rewrite Hs, Hc, He, Hr. by destruct r as [[]].
Qed.

(** The same row with its times as [f] has them. *)
Definition map_times (f : Time → Time) (r : Row) : Row :=
  mkRow (Tenant r) (Service r) (Instance_ r) (Method r) (RouteTemplate r) (StatusClass r)
    (f (WindowStart r)) (f (WindowEnd r)) (Count r) (SumDurationNs r) (ReqBytes r) (RespBytes r)
    (Sketch r) (StatusCodes r) (MaxDurationNs r)
    ((λ e, mkExemplar (f (At e)) (DurationNs e) (StatusCode_ e) (TraceID e) (SpanID e) (RequestID e)) <$> Exemplars r)
    (ErrorClasses r) (NoStatusReasons r) (SumDownstreamNs r)
    (DeployVersion r) (DeployID r) (Environment r) (Region r) (f (InstanceStart r)).

Lemma map_times_ext f g r : Forall (λ t, f t = g t) (row_times r) → map_times f r = map_times g r.
Proof.
  unfold row_times. cbn [app]. intros Ht. repeat (apply Forall_cons in Ht as [? Ht]). unfold map_times. f_equal; [done..| |done].
  revert Ht. induction (Exemplars r) as [|e l IH]; cbn; [done|]. intros [-> Hl]%Forall_cons. by rewrite IH.
Qed.

(** What a read finds: a reported time is kept, to its millisecond; the zero time of one that
    was not is what the column holds for it. *)
Definition read_time {D : Driver} (t : Time) : Time := if bool_decide (t = zero_time) then held_time zero_time else t.
Definition read_back {D : Driver} (r : Row) : Row := map_times read_time r.

(** Stored times are whole milliseconds. *)
Definition whole_times (r : Row) : Prop := Forall (λ t, (Millisecond | t)) (row_times r).

Section held.
Context {D : Driver} {laws : DriverLaws D}.

Lemma held_zip (names : list string) cells : held (zip names cells) = zip names (held_cell <$> cells).
Proof. revert cells. unfold held. induction names as [|n names IH]; intros [|c cells]; cbn; try done. by rewrite IH. Qed.

Lemma held_tuples r :
  map (map held_cell) (tuple_cells <$> exemplarTuples r) = tuple_cells <$> exemplarTuples (map_times held_time r).
Proof.
  unfold exemplarTuples. cbn [Exemplars map_times]. induction (Exemplars r) as [|e l IH]; [done|]. cbn in IH |- *. by rewrite IH.
Qed.

Lemma held_row_cells r :
  held (zip (statement_columns insertStmt) (row_cells r)) =
  zip (statement_columns insertStmt) (row_cells (map_times held_time r)).
Proof.
  rewrite held_zip. unfold row_cells. cbn [fmap list_fmap held_cell]. rewrite held_tuples. reflexivity.
Qed.

Lemma held_read_back r : whole_times r → times_taken (row_times r) = true → map_times held_time r = read_back r.
Proof.
  intros Hw Ht. apply map_times_ext. unfold whole_times, times_taken in *. rewrite Forall_forall in Hw |- *.
  rewrite forallb_forall in Ht. intros t Hin. unfold read_time. case_bool_decide as Hz; [by rewrite Hz|].
  apply holds_milliseconds; [by apply Ht, list_elem_of_In|done|by apply Hw].
Qed.

Lemma read_held r : row_sorted r → whole_times r → times_taken (row_times r) = true →
  read_row (held (zip (statement_columns insertStmt) (row_cells r))) = Some (read_back r).
Proof. intros Hs Hw Ht. rewrite held_row_cells, <-held_read_back by done. by apply read_row_cells. Qed.
End held.

(** ** From the wire to the tables *)

(** The ranges the protobuf types give the fields of an upload. *)
Definition summary_typed (s : Summary) : Prop :=
  Forall is_u64 [sum_count s; sum_duration_ns s; sum_req_bytes s; sum_resp_bytes s;
    sum_max_duration_ns s; sum_downstream_ns s] ∧
  map_Forall (λ k c, is_i32 k ∧ is_u64 c) (sum_latency_sketch s) ∧
  map_Forall (λ k c, is_u32 k ∧ is_u64 c) (sum_status_codes s) ∧
  map_Forall (λ _ c, is_u64 c) (sum_error_classes s) ∧
  map_Forall (λ k c, is_u32 k ∧ is_u64 c) (sum_no_status_reasons s) ∧
  Forall (λ e, ∀ x, e = Some x → is_u64 (ex_duration_ns x) ∧ is_u32 (ex_status_code x)) (sum_exemplars s).

Definition gauges_typed (g : InstanceWindow) : Prop :=
  is_u32 (iw_gomaxprocs g) ∧
  Forall is_u64 [iw_cpu_ns g; iw_rss_bytes g; iw_heap_alloc_bytes g; iw_gc_pause_ns g; iw_goroutines g;
    iw_num_gc g; iw_total_alloc_bytes g; iw_mallocs g; iw_heap_inuse_bytes g; iw_post_gc_heap_bytes g;
    iw_rss_true_bytes g; iw_open_fds g; iw_fd_limit g; iw_in_flight g].

Definition upload_typed (req : UploadRequest) : Prop :=
  Forall (λ s, summary_typed (get_summary s)) (up_summaries req) ∧
  Forall (λ w, ∀ g, w = Some g → gauges_typed g) (up_instance_windows req).

(** The reasons of a summary are numbers of the enum, which the column has room for. *)
Definition reasons_fit (req : UploadRequest) : Prop :=
  Forall (λ s, map_Forall (λ k _, is_u8 k) (sum_no_status_reasons (get_summary s))) (up_summaries req).

Lemma sorted_entries {K V} `{Countable K} (ltb : V → V → bool) (elem : K → Z → V) (P : K → Z → Prop)
  (Q : V → Prop) (m : gmap K Z) :
  (∀ k c, P k c → Q (elem k c)) → map_Forall P m →
  Forall Q (sort_stable ltb ((λ kc, elem kc.1 kc.2) <$> map_to_list m)).
Proof.
  intros Hq Hm. rewrite sort_stable_perm, Forall_fmap, Forall_forall.
  intros [k c] Hin%elem_of_map_to_list. apply Hq. by apply Hm.
Qed.

Lemma statusClassName_named c : statusClassName c ∈ status_classes.*1.
Proof. destruct c; cbn; set_solver. Qed.

Lemma converts_typed tid service instance d now s r :
  converts tid service instance d now s r → summary_typed (get_summary s) → row_typed r.
Proof.
  intros (start & end_ & _ & Hr) (Hn & Hsk & Hco & Hcl & Hre & Hex). unfold summaryToRow in Hr.
  destruct s as [s|]; [|done]. injection Hr as <-.
  unfold row_typed, NewRow. cbn -[status_classes]. split; [apply statusClassName_named|].
  split; [exact Hn|].
  split; [by eapply sorted_entries; [|exact Hsk]|]. split; [by eapply sorted_entries; [|exact Hco]|].
  split; [by eapply sorted_entries; [|exact Hcl]|]. split.
  - eapply (sorted_entries _ (λ k c, mkReason (u8 k) c)); [|exact Hre]. intros k c [_ Hc]. cbn.
    split; [|done]. unfold is_u8, u8. apply Z.mod_pos_bound. done.
  - cbn in Hex. unfold exemplarsToRows. apply Forall_forall. intros e (x & Hx & He)%list_elem_of_omap.
    rewrite Forall_forall in Hex. destruct x as [x|]; [|done]. injection He as <-. by eapply Hex.
Qed.

Lemma converts_sorted tid service instance d now s r :
  converts tid service instance d now s r →
  map_Forall (λ k _, is_u8 k) (sum_no_status_reasons (get_summary s)) → row_sorted r.
Proof.
  intros (start & end_ & _ & Hr) Hk. unfold summaryToRow in Hr. destruct s as [s|]; [|done].
  injection Hr as <-. unfold row_sorted.
  edestruct NewRow_maps_roundtrip as ([-> _] & [-> _] & -> & Hre). rewrite Hre; [done|].
  intros k [c Hc]. exact (Hk k c Hc).
Qed.

Lemma UnixMilli_whole ms : (Millisecond | UnixMilli ms).
Proof. by exists ms. Qed.

Lemma converts_whole tid service instance env now s r :
  converts tid service instance (deploy_of env) now s r → whole_times r.
Proof.
  intros (start & end_ & Hp & Hr). unfold summaryToRow in Hr. destruct s as [s|]; [|done]. injection Hr as <-.
  unfold applyTimestampPolicy in Hp. destruct (_ <? _) in Hp; [done|]. injection Hp as <- <-.
  unfold whole_times, row_times. cbn. repeat apply Forall_cons_2; try apply UnixMilli_whole.
  - unfold instanceStartTime. case_match; [by eexists (-62135596800000)|apply UnixMilli_whole].
  - unfold exemplarsToRows. apply Forall_fmap, Forall_forall. intros e (x & _ & He)%list_elem_of_omap.
    destruct x; [|done]. injection He as <-. apply UnixMilli_whole.
Qed.

Lemma converts_window_typed tid service instance now l w :
  converts_window tid service instance now l w →
  Forall (λ w, ∀ g, w = Some g → gauges_typed g) l → window_typed w.
Proof.
  intros (iw & Hin & Hc) Hl. rewrite Forall_forall in Hl. unfold instanceWindowToRow in Hc.
  destruct iw as [iw|]; [|done]. destruct (applyTimestampPolicy _ _ _) as [[]|]; [|done].
  injection Hc as <-. by apply (Hl _ Hin).
Qed.

Section stored.
Context `{DBLib} `{RateLib}.
Context (sink : list Row → Row → bool) (iw_sink : list InstanceWindowRow → InstanceWindowRow → bool)
  (size : UploadRequest → Z) (l : list upload_call).

Lemma stored_typed rs n :
  Forall (λ x, upload_typed (uc_req x)) l → serve_uploads sink iw_sink size new_node l = (rs, n) →
  Forall row_typed (stored (n_ingest n)) ∧ Forall window_typed (stored_iw (n_ingest n)).
Proof.
  intros Hl Hs. rewrite Forall_forall in Hl.
  destruct (serve_uploads_owed sink iw_sink size [] new_node l rs n) as [Hr Hw]; try done.
  split; [eapply Forall_impl; [exact Hr|] | eapply Forall_impl; [exact Hw|]].
  - intros r (i & x & s & Hx & _ & Hin & Hc). eapply converts_typed; [exact Hc|].
    destruct (Hl x) as [Hsum _]; [by eapply list_elem_of_lookup_2|]. rewrite Forall_forall in Hsum. by apply Hsum.
  - intros w (i & x & Hx & _ & Hc). eapply converts_window_typed; [exact Hc|].
    destruct (Hl x) as [_ ?]; [by eapply list_elem_of_lookup_2|done].
Qed.

Lemma stored_sorted rs n :
  Forall (λ x, reasons_fit (uc_req x)) l → serve_uploads sink iw_sink size new_node l = (rs, n) →
  Forall row_sorted (stored (n_ingest n)).
Proof.
  intros Hl Hs. rewrite Forall_forall in Hl.
  destruct (serve_uploads_owed sink iw_sink size [] new_node l rs n) as [Hr _]; try done.
  eapply Forall_impl; [exact Hr|]. intros r (i & x & s & Hx & _ & Hin & Hc).
  eapply converts_sorted; [exact Hc|]. specialize (Hl x ltac:(by eapply list_elem_of_lookup_2)).
  unfold reasons_fit in Hl. rewrite Forall_forall in Hl. by apply Hl.
Qed.
Lemma stored_whole rs n :
  serve_uploads sink iw_sink size new_node l = (rs, n) → Forall whole_times (stored (n_ingest n)).
Proof.
  intros Hs. destruct (serve_uploads_owed sink iw_sink size [] new_node l rs n) as [Hr _]; try done.
  eapply Forall_impl; [exact Hr|]. intros r (i & x & s & _ & _ & _ & Hc). by eapply converts_whole.
Qed.
End stored.

(** ** A driver *)

(** ClickHouse's documented range of a [DateTime64], the years 1900 to 2299, and the zero
    time, which stands for an instance start that was not reported. *)
Definition documented_time (t : Time) : bool :=
  (t =? zero_time) || ((- 2208988800 * Second <=? t) && (t <? 10413792000 * Second)).

Fixpoint documented_takes (t : ColType) (c : cell) : bool :=
  match t, c with
  | CLowCardinality t, _ | CSimpleAggregate _ t, _ => documented_takes t c
  | CString, GString _ | CUInt64, GUint64 _ | CUInt32, GUint32 _ | CFloat64, GFloat64 _ => true
  | CEnum8 names, GString s => bool_decide (s ∈ names.*1)
  | CDateTime64, GTime t => documented_time t
  | CMap CInt32 CUInt64, GMapInt32 _ | CMap CUInt32 CUInt64, GMapUint32 _
  | CMap CUInt8 CUInt64, GMapUint8 _ | CMap CString CUInt64, GMapString _ => true
  | CArray (CTuple ts), GTuples l =>
      forallb (λ cells, forallb id (zip_with documented_takes ts cells) && (length ts =? length cells)%nat) l
  | _, _ => false
  end.

Definition documented : Driver := {|
  prepare table stmt :=
    match mapM (column_type table) (statement_columns stmt) with
    | Some types => Ok types
    | None => Err "unknown column"%string
    end;
  append types cells := (length types =? length cells)%nat && forallb id (zip_with documented_takes types cells);
  column_takes := documented_takes;
  takes_time := documented_time;
  held_time t := if t =? zero_time then 0 else Z.quot t Millisecond * Millisecond;
|}.
Lemma documented_laws : DriverLaws documented.
Proof.
  split; try done.
  - by intros table stmt types; cbn; intros ->.
  - intros t _ Ht [k ->]. cbn. rewrite (proj2 (Z.eqb_neq _ _) Ht). by rewrite Z.quot_mul.
Qed.

(** ** What the tables hold *)

(** [C9] Nothing a client can send makes a column refuse a value for its type. Whatever
    uploads a node serves, with their fields in the ranges of the protobuf types, every row
    and instance window it stores is in the range of its Go types, and the prepared
    statement, whose every column the table declares, takes its values one for one: a driver
    that keeps to its documented conversions refuses the row exactly when a date column
    refuses one of its times. *)
Theorem stored_rows_fit_their_table `{DBLib} `{RateLib} sink iw_sink size l rs n :
  Forall (λ x, upload_typed (uc_req x)) l →
  serve_uploads sink iw_sink size new_node l = (rs, n) →
  ∃ types window_types,
    mapM (column_type summaries_schema) (statement_columns insertStmt) = Some types ∧
    mapM (column_type instance_windows_schema) (statement_columns instanceWindowInsertStmt) = Some window_types ∧
    Forall (λ r, row_typed r ∧ ∀ (D : Driver), DriverLaws D →
      append types (row_cells r) = times_taken (row_times r)) (stored (n_ingest n)) ∧
    Forall (λ w, window_typed w ∧ ∀ (D : Driver), DriverLaws D →
      append window_types (window_cells w) = times_taken (window_times w)) (stored_iw (n_ingest n)).
Proof.
  intros Hl Hs. destruct (stored_typed sink iw_sink size l rs n Hl Hs) as [Hr Hw].
  exists summaries_schema.*2, instance_windows_schema.*2.
  split; [vm_compute; reflexivity|]. split; [vm_compute; reflexivity|].
  split; (eapply Forall_impl; [done|]); intros r Ht; (split; [done|]); intros D laws;
    [by apply append_row | by apply append_window].
Qed.

Lemma read_rows_omap (t : list table_row) : omap read_row t = omap id (read_row <$> t).
Proof. induction t as [|x t IH]; [done|]. cbn. by rewrite IH. Qed.
Lemma omap_Some_fmap {A} (l : list A) : omap id (Some <$> l) = l.
Proof. induction l as [|x l IH]; [done|]. cbn. by rewrite IH. Qed.

(** [C8] What is inserted is what was stored. Take any batch of rows a node stored, from uploads
    whose reasons are numbers of the enum. The insert reports success exactly when the server
    prepares the statement, every time in the batch is one a date column takes, and the server
    acknowledges the batch. If the preparation or a time fails, nothing is written; if the
    acknowledgement fails, any part of the batch may have been. Each row that was written
    reads back from its columns, every field under its own name, the maps in their sorted form
    and the times to the millisecond, as itself, but for a time that was never reported, which
    reads as what the column holds for the zero time. And however the engine merges rows from
    then on, every sum a query can take over the table is that of the rows of before and of
    the rows written. *)
Theorem inserted_rows_read_back `{DBLib} `{RateLib} sink iw_sink size l rs n (D : Driver) rows prepared sent table r table' :
  DriverLaws D →
  Forall (λ x, upload_typed (uc_req x) ∧ reasons_fit (uc_req x)) l →
  serve_uploads sink iw_sink size new_node l = (rs, n) →
  Forall (λ r, r ∈ stored (n_ingest n)) rows →
  insert rows prepared sent table = (r, table') →
  let taken := prepared && forallb (λ r, times_taken (row_times r)) rows in
  let landed := if taken then written sent rows else [] in
  succeeded r = taken && acknowledged sent ∧
  read_row <$> table' = (read_row <$> table) ++ (Some <$> (read_back <$> landed)) ∧
  ∀ merged, collapses (omap read_row table') merged →
    same_cube 1 merged (omap read_row table ++ (read_back <$> landed)).
Proof.
  intros laws Hl Hs Hrows Hi taken landed. apply Forall_and in Hl as [Ht Hk]. rewrite Forall_forall in Hrows.
  assert (Hok : Forall (λ r, row_typed r ∧ row_sorted r ∧ whole_times r) rows).
  { destruct (stored_typed sink iw_sink size l rs n Ht Hs) as [Htyped _].
    pose proof (stored_sorted sink iw_sink size l rs n Hk Hs) as Hsorted.
    pose proof (stored_whole sink iw_sink size l rs n Hs) as Hwhole.
    rewrite Forall_forall in Htyped, Hsorted, Hwhole. apply Forall_forall. intros x Hx. specialize (Hrows x Hx). auto. }
  pose proof (insert_spec rows prepared sent table) as Hspec. rewrite Hi in Hspec.
  destruct Hspec as [-> ->]; [eapply Forall_impl; [exact Hok|by intros ? []]|]. fold taken. split; [done|].
  assert (Hread : read_row <$> (if taken
      then table ++ ((λ r, held (zip (statement_columns insertStmt) (row_cells r))) <$> written sent rows) else table) =
    (read_row <$> table) ++ (Some <$> (read_back <$> landed))).
  { subst landed. destruct taken eqn:Etk; [|by rewrite app_nil_r]. rewrite fmap_app, <-!list_fmap_compose. f_equal.
    apply Forall_fmap_ext_1, Forall_forall. intros x Hx%written_in. cbn [compose].
    rewrite Forall_forall in Hok. destruct (Hok x Hx) as (_ & Hso & Hwh). apply read_held; [done..|].
    apply andb_true_iff in Etk as [_ Etk]. rewrite forallb_forall in Etk. by apply Etk, list_elem_of_In. }
  split; [exact Hread|]. intros merged Hm%collapses_same_cube. symmetry.
  rewrite <-Hm. apply reflexive_eq. rewrite !(read_rows_omap _), Hread, omap_app. f_equal. by rewrite omap_Some_fmap.
Qed.

(** ** One row's time, everyone's batch *)

Lemma refused_batch {D : Driver} {laws : DriverLaws D} (row : Row) (rows : list Row) prepared sent table :
  row ∈ rows → row_typed row → times_taken (row_times row) = false →
  let '(r, table') := insert rows prepared sent table in succeeded r = false ∧ table' = table.
Proof.
  intros Hin Ht Hrow. unfold insert, insert_rows. destruct prepared; [|done].
  rewrite prepare_summaries, append_rows_all.
  replace (forallb _ (row_cells <$> rows)) with false; [done|]. symmetry. apply not_true_iff_false.
  rewrite forallb_forall. intros Hall. specialize (Hall (row_cells row)).
  rewrite append_row in Hall by done. unfold times_taken in Hrow. rewrite Hrow in Hall. discriminate Hall.
  apply list_elem_of_In, list_elem_of_fmap. by exists row.
Qed.

(** [C37] The policy bounds the end of a window and not its start. An upload in its plan
    whose summaries all end inside the time skew is accepted whole; if the start of one of
    them is a time the date column refuses, the row stored for it takes every batch it lands
    in down with it: whatever the other rows are and however often the server answers, the
    insert fails, the table stays as it was, and both the steady flush and the retried final
    flush drop the batch. *)
Theorem refused_start_drops_the_batch `{DBLib} `{RateLib} (D : Driver) sink iw_sink size x org lim s :
  DriverLaws D →
  (resolve_key new_node x (extractKey (uc_hdr x))).1 = (org, true) → extractKey (uc_hdr x) ≠ ""%string → org ≠ ""%string →
  (∀ i, (uc_limits x i).2 = Some lim) →
  (AllowNow (NewLimiter (MaxRPS lim) (Burst lim)) (uc_bucket_now x)).1 = true →
  in_plan size lim x → (∀ rows r, sink rows r = true) → upload_typed (uc_req x) →
  Some s ∈ up_summaries (uc_req x) → takes_time (UnixMilli (sum_window_start_ms s)) = false →
  let '(r, n) := serve_upload sink iw_sink size new_node x in
  r = Ok (mkUploadResponse true "" 0) ∧
  ∃ row, row ∈ stored (n_ingest n) ∧ ∀ (st : stream Row) table, row ∈ batch st →
    (∀ prepared sent, let '(res, table') := insert (batch st) prepared sent table in
       table' = table ∧ out (flushBatch st (succeeded res)) = out st ++ [(batch st, false)]) ∧
    ∀ answers : nat → bool * reply,
      out (finalFlushBatch st (λ i, succeeded (insert (batch st) (answers i).1 (answers i).2 table).1)) =
      out st ++ [(batch st, false)].
Proof.
  intros laws Hres Hkey Horg Hlim Hallow Hplan Hsink [Ht _] Hs Hstart.
  pose proof (wired_stores sink iw_sink size x org lim Hres Hkey Horg Hlim Hallow Hplan Hsink) as Hw. cbn zeta in Hw.
  destruct (serve_upload sink iw_sink size new_node x) as [r n]. destruct Hw as [-> Hf]. split; [done|].
  apply list_elem_of_lookup in Hs as [j Hj]. destruct (Forall2_lookup_l _ _ _ _ _ Hf Hj) as (row & Hrow & Hc).
  assert (Htr : row_typed row).
  { eapply converts_typed; [exact Hc|]. rewrite Forall_lookup in Ht. by eapply Ht. }
  assert (Hbad : times_taken (row_times row) = false).
  { destruct Hc as (start & end_ & Hp & Hr). injection Hr as <-. unfold applyTimestampPolicy in Hp.
    destruct (_ <? _) in Hp; [done|]. injection Hp as <- <-. unfold times_taken. cbn. by rewrite Hstart. }
  exists row. split; [by eapply list_elem_of_lookup_2|]. intros st table Hin.
  assert (Hfail : ∀ p q, succeeded (insert (batch st) p q table).1 = false ∧ (insert (batch st) p q table).2 = table).
  { intros p q. pose proof (refused_batch row (batch st) p q table Hin Htr Hbad) as Hb.
    by destruct (insert (batch st) p q table). }
  unfold flushBatch, finalFlushBatch. destruct (batch st) as [|r0 b] eqn:Eb; [by apply not_elem_of_nil in Hin|].
  rewrite <-Eb in *. split.
  - intros p q. destruct (Hfail p q) as [H1 H2]. destruct (insert (batch st) p q table). cbn in H1, H2. by rewrite H1.
  - intros answers. cbn [final_attempts finalFlushAttempts out]. by rewrite !(proj1 (Hfail _ _)).
Qed.

(** ** Witnesses *)

(** Two summaries of a new customer, one of them ended long ago; and one that ends now and
    says it started in the year 5138. *)
Definition future_start : Summary :=
  mkSummary 100000000000000 3600000 "GET" "/a" SC_2XX 1 5 0 0 ∅ ∅ 5 [] ∅ ∅ 0.
Definition future_upload : upload_call := toy_call [Some future_start].

Lemma toy_typed : Forall (λ x, upload_typed (uc_req x) ∧ reasons_fit (uc_req x)) [toy_upload; toy_upload].
Proof.
  assert (Ht : upload_typed (uc_req toy_upload) ∧ reasons_fit (uc_req toy_upload)).
  { split; [split|]; cbn; [|constructor|].
    - repeat apply Forall_cons_2; [| |constructor]; unfold summary_typed; cbn; split_and!;
        try apply map_Forall_empty; repeat apply Forall_cons_2; unfold is_u64; try lia; constructor.
    - repeat apply Forall_cons_2; [apply map_Forall_empty..|constructor]. }
  by repeat constructor.
Qed.

Lemma stored_rows_fit_their_table_witness :
  let _ := toy_db in
  let n := (toy_served [toy_upload; toy_upload]).2 in
  length (stored (n_ingest n)) = 2%nat ∧
  ∃ types window_types,
    mapM (column_type summaries_schema) (statement_columns insertStmt) = Some types ∧
    mapM (column_type instance_windows_schema) (statement_columns instanceWindowInsertStmt) = Some window_types ∧
    Forall (λ r, row_typed r ∧ ∀ (D : Driver), DriverLaws D →
      append types (row_cells r) = times_taken (row_times r)) (stored (n_ingest n)) ∧
    Forall (λ w, window_typed w ∧ ∀ (D : Driver), DriverLaws D →
      append window_types (window_cells w) = times_taken (window_times w)) (stored_iw (n_ingest n)).
Proof.
  split; [vm_compute; reflexivity|].
  apply (@stored_rows_fit_their_table toy_db counting (λ _ _, true) (λ _ _, true) (λ _, 10)
    [toy_upload; toy_upload] (toy_served [toy_upload; toy_upload]).1).
  - eapply Forall_impl; [exact toy_typed|]. by intros x [? _].
  - exact (surjective_pairing (toy_served [toy_upload; toy_upload])).
Defined.

Lemma inserted_rows_read_back_witness :
  let _ := toy_db in
  let rows := stored (n_ingest (toy_served [toy_upload; toy_upload]).2) in
  let sent := Failed [false; true] in
  let inserted := @insert documented rows true sent [] in
  succeeded inserted.1 = false ∧ length inserted.2 = 1%nat ∧
  read_row <$> inserted.2 = [] ++ (Some <$> (@read_back documented <$> drop 1 rows)) ∧
  ∀ merged, collapses (omap read_row inserted.2) merged → same_cube 1 merged (@read_back documented <$> drop 1 rows).
Proof.
  pose proof (@inserted_rows_read_back toy_db counting (λ _ _, true) (λ _ _, true) (λ _, 10)
    [toy_upload; toy_upload] (toy_served [toy_upload; toy_upload]).1
    (toy_served [toy_upload; toy_upload]).2 documented
    (stored (n_ingest (toy_served [toy_upload; toy_upload]).2)) true (Failed [false; true]) []
    _ _ documented_laws toy_typed (surjective_pairing _) ltac:(by apply Forall_forall) (surjective_pairing _)) as T.
  cbv zeta in T |- *. destruct T as (T1 & T2 & T3).
  split; [vm_compute; reflexivity|]. split; [vm_compute; reflexivity|]. split; [exact T2|exact T3].
Defined.

(** A batch whose acknowledgement is lost can be written, and the final flush, which tries
    again, then writes it a second time: the rows count twice. *)
Lemma retried_insert_counts_twice :
  let _ := toy_db in let _ := documented in
  let rows := stored (n_ingest (toy_served [toy_upload]).2) in
  let first := insert rows true (Failed [true]) [] in
  let second := insert rows true Acknowledged first.2 in
  length rows = 1%nat ∧ succeeded first.1 = false ∧ succeeded second.1 = true ∧
  omap read_row second.2 = (read_back <$> rows) ++ (read_back <$> rows).
Proof. split_and!; vm_compute; reflexivity. Qed.

Lemma refused_start_drops_the_batch_witness :
  let _ := toy_db in let _ := counting in
  let '(r, n) := serve_upload (λ _ _, true) (λ _ _, true) (λ _, 10) new_node future_upload in
  r = Ok (mkUploadResponse true "" 0) ∧
  ∃ row, row ∈ stored (n_ingest n) ∧ ∀ (st : stream Row) table, row ∈ batch st →
    (∀ prepared sent, let '(res, table') := @insert documented (batch st) prepared sent table in
       table' = table ∧ out (flushBatch st (succeeded res)) = out st ++ [(batch st, false)]) ∧
    ∀ answers : nat → bool * reply,
      out (finalFlushBatch st (λ i, succeeded (@insert documented (batch st) (answers i).1 (answers i).2 table).1)) =
      out st ++ [(batch st, false)].
Proof.
  apply (@refused_start_drops_the_batch toy_db counting documented (λ _ _, true) (λ _ _, true) (λ _, 10)
    future_upload "0" toy_limits future_start documented_laws).
  - reflexivity.
  - discriminate.
  - discriminate.
  - reflexivity.
  - reflexivity.
  - split; [right; vm_compute; discriminate|]. split; [right; vm_compute; discriminate|].
    repeat constructor; eexists; reflexivity.
  - reflexivity.
  - split; [|constructor]. apply Forall_cons_2; [|constructor]. unfold summary_typed. cbn. split_and!;
      try apply map_Forall_empty; repeat apply Forall_cons_2; unfold is_u64; try lia; constructor.
  - constructor.
  - reflexivity.
Defined.
