(* ===== verification/Codec.v ===== *)
(** * The zstd codec of the uploads (proto/mapingcompress/zstd.go)

    Connect keeps compressors and decompressors in pools: an instance serves one upload, is
    closed, and serves another. The zstd library is a parameter with its documented
    contract, in which closing a decoder is final; the theorems say that no upload sees what
    an earlier one left in the instance, and that no upload, however malformed, takes an
    instance away from the others. *)

From Stdlib Require Import ZArith Lia.
From Stdlib Require String.
From stdpp Require Import base option strings list.
From S2P Require Import Prelude GoString.

(** ** github.com/klauspost/compress/zstd

    An encoder writes to the sink it was reset to, and [Close] completes the stream: [eClose]
    also gives the bytes the sink received. A read returns some bytes, or [None] at the end
    of the stream or on corrupt input. [Reset] reports whether it succeeded. *)
Class ZstdLib := {
  Encoder : Type;
  NewWriter : Encoder;
  eReset : Encoder → Encoder;
  eWrite : Encoder → string → Encoder;
  eClose : Encoder → Encoder * string;
  Decoder : Type;
  NewReader : Decoder;
  dReset : Decoder → option string → Decoder * bool;
  dRead : Decoder → nat → Decoder * option string;
  dClose : Decoder → Decoder;
}.

(** The documented contract. [writing e s]: [s] was written since the reset; [holds d s]: [s]
    is what is left to read; [usable d]: the decoder was not closed. *)
Class ZstdLaws `{ZstdLib} := {
  frames : string → string;
  writing : Encoder → string → Prop;
  usable : Decoder → Prop;
  holds : Decoder → string → Prop;
  eReset_writing e : writing (eReset e) "";
  eWrite_writing e s p : writing e s → writing (eWrite e p) (str_app s p);
  eClose_frames e s : writing e s → (eClose e).2 = frames s;
  NewReader_usable : usable NewReader;
  dReset_usable d r : usable d → usable (dReset d r).1 ∧ (dReset d r).2 = true;
  dReset_holds d s : usable d → holds (dReset d (Some (frames s))).1 s;
  dRead_usable d n : usable d → usable (dRead d n).1;
  dRead_end d n : holds d "" → (dRead d n).2 = None;
  dRead_more d n s : holds d s → s ≠ ""%string → (0 < n)%nat →
    ∃ p t, (dRead d n).2 = Some p ∧ p ≠ ""%string ∧ s = str_app p t ∧ holds (dRead d n).1 t;
  dClose_final d r : (dReset (dClose d) r).2 = false;
}.

(** ** The codec *)

Definition Name : string := "zstd".

Section codec.
Context `{ZstdLib}.

Record compressor := mkCompressor { enc : Encoder }.
Definition newCompressor : compressor := mkCompressor NewWriter.
Definition Write (c : compressor) (p : string) : compressor := mkCompressor (eWrite (enc c) p).
Definition Close (c : compressor) : compressor * string := let '(e, out) := eClose (enc c) in (mkCompressor e, out).
Definition Reset (c : compressor) : compressor := mkCompressor (eReset (enc c)).

Record decompressor := mkDecompressor { dec : Decoder }.
Definition newDecompressor : decompressor := mkDecompressor NewReader.
Definition Read (d : decompressor) (n : nat) : decompressor * option string :=
  let '(x, p) := dRead (dec d) n in (mkDecompressor x, p).
Definition ResetTo (d : decompressor) (r : option string) : decompressor * bool :=
  let '(x, ok) := dReset (dec d) r in (mkDecompressor x, ok).
(** [decompressor.Close]: detaches the input, and does not close the decoder. *)
Definition Detach (d : decompressor) : decompressor * bool := ResetTo d None.

(** What the two ends are configured with. *)
Inductive option_ :=
  | WithCompression (name : string) (d : decompressor) (c : compressor)
  | WithAcceptCompression (name : string) (d : decompressor) (c : compressor)
  | WithSendCompression (name : string).
Definition HandlerOption : option_ := WithCompression Name newDecompressor newCompressor.
Definition ClientOptions : list option_ :=
  [WithAcceptCompression Name newDecompressor newCompressor; WithSendCompression Name].

(** ** Connect's use of it

    The protocol the source states: a compressor is reset to the request, written to and
    closed; a decompressor is taken from the pool or made, reset to the body, read, closed,
    reset to an empty body and put back. Which instance the pool hands out, how the text is
    cut into writes and how long the body is read are the schedule's. *)

Definition compress (c : compressor) (parts : list string) : compressor * string :=
  Close (fold_left Write parts (Reset c)).

Record request := mkRequest { rq_pick : nat; rq_body : string; rq_reads : list nat }.

(** The bytes a sequence of reads returns. *)
Fixpoint read_some (d : decompressor) (sizes : list nat) : decompressor * string :=
  match sizes with
  | [] => (d, ""%string)
  | n :: sizes => match Read d n with
                  | (d, Some p) => let '(d, s) := read_some d sizes in (d, str_app p s)
                  | (d, None) => (d, ""%string)
                  end
  end.

(** One upload: what the handler read of it, or a refusal. *)
Definition serve (pool : list decompressor) (q : request) : list decompressor * result string string :=
  let '(d, pool) := match pool !! rq_pick q with
                    | Some d => (d, delete (rq_pick q) pool)
                    | None => (newDecompressor, pool)
                    end in
  match ResetTo d (Some (rq_body q)) with
  | (_, false) => (pool, Err "get decompressor"%string)
  | (d, true) =>
      let '(d, out) := read_some d (rq_reads q) in
      match Detach d with
      | (_, false) => (pool, Ok out)
      | (d, true) => let '(d, _) := ResetTo d (Some ""%string) in (d :: pool, Ok out)
      end
  end.
Definition serve_all (pool : list decompressor) (qs : list request) : list decompressor :=
  fold_left (λ pool q, (serve pool q).1) qs pool.
End codec.

(** ** Proofs *)

Section laws.
Context `{ZstdLaws}.

Definition alive (d : decompressor) : Prop := usable (dec d).

Lemma ResetTo_alive d r : alive d → alive (ResetTo d r).1 ∧ (ResetTo d r).2 = true.
Proof.
  intros Hd. pose proof (dReset_usable (dec d) r Hd) as Hr. unfold ResetTo. destruct (dReset (dec d) r). exact Hr.
Qed.
Lemma Read_alive d n : alive d → alive (Read d n).1.
Proof. intros Hd. pose proof (dRead_usable (dec d) n Hd) as Hr. unfold Read. destruct (dRead (dec d) n). exact Hr. Qed.
Lemma read_some_alive d sizes : alive d → alive (read_some d sizes).1.
Proof.
  revert d. induction sizes as [|n sizes IH]; intros d Hd; [done|]. cbn [read_some].
  pose proof (Read_alive d n Hd) as Hr. destruct (Read d n) as [d' [p|]]; [|done].
  specialize (IH d' Hr). by destruct (read_some d' sizes).
Qed.

(** Reading gives a prefix of what is held, and all of it when the reads are enough. *)
Lemma read_some_holds d s sizes :
  holds (dec d) s → Forall (λ n, 0 < n)%nat sizes →
  ∃ t, s = str_app (read_some d sizes).2 t ∧ ((String.length s < length sizes)%nat → t = ""%string).
Proof.
  revert d s. induction sizes as [|n sizes IH]; intros d s Hs Hn.
  - exists s. split; [done|]. cbn. lia.
  - apply Forall_cons in Hn as [Hn Hrest]. cbn [read_some]. unfold Read.
    destruct (decide (s = ""%string)) as [->|Hne].
    + pose proof (dRead_end (dec d) n Hs) as He. destruct (dRead (dec d) n) as [x o]. cbn in He. subst o. by exists ""%string.
    + destruct (dRead_more (dec d) n s Hs Hne Hn) as (p & t & Hp & Hpne & -> & Ht).
      destruct (dRead (dec d) n) as [x o]. cbn [fst snd] in *. subst o.
      destruct (IH (mkDecompressor x) t Ht Hrest) as (u & Hu & Hlen). destruct (read_some _ sizes) as [d' out]. cbn [snd] in *.
      exists u. subst t. split; [by rewrite str_app_assoc|]. intros Hl. apply Hlen. rewrite <-length_bytes_of, bytes_of_app, length_app, !length_bytes_of in Hl.
      destruct p; [done|]. cbn [String.length length] in Hl. lia.
Qed.

Lemma serve_alive pool q : Forall alive pool → Forall alive (serve pool q).1.
Proof.
  intros Hp. unfold serve.
  assert (Hpick : ∀ d rest, match pool !! rq_pick q with Some d => (d, delete (rq_pick q) pool) | None => (newDecompressor, pool) end = (d, rest) →
    alive d ∧ Forall alive rest).
  { intros d rest. destruct (pool !! rq_pick q) as [x|] eqn:Hx; intros [= <- <-].
    - split; [by eapply Forall_lookup_1|by apply Forall_delete].
    - split; [apply NewReader_usable|done]. }
  destruct (match pool !! rq_pick q with Some d => _ | None => _ end) as [d rest]. destruct (Hpick _ _ eq_refl) as [Hd Hrest].
  destruct (ResetTo_alive d (Some (rq_body q)) Hd) as [Hr Hok]. destruct (ResetTo d _) as [d1 ok]. cbn [fst snd] in *. subst ok.
  pose proof (read_some_alive d1 (rq_reads q) Hr) as Hd2. destruct (read_some d1 _) as [d2 out]. cbn [fst] in Hd2.
  destruct (ResetTo_alive d2 None Hd2) as [Hd3 Hok]. unfold Detach. destruct (ResetTo d2 None) as [d3 ok]. cbn [fst snd] in *. subst ok.
  destruct (ResetTo_alive d3 (Some ""%string) Hd3) as [Hd4 _]. destruct (ResetTo d3 _) as [d4 ok]. by apply Forall_cons.
Qed.

Lemma serve_all_alive qs pool : Forall alive pool → Forall alive (serve_all pool qs).
Proof. revert pool. induction qs as [|q qs IH]; intros pool Hp; [done|]. by apply IH, serve_alive. Qed.

Lemma compress_frames c parts : (compress c parts).2 = frames (str_concat parts).
Proof.
  unfold compress, Close. assert (Hw : ∀ parts s c, writing (enc c) s → writing (enc (fold_left Write parts c)) (str_app s (str_concat parts))).
  { clear. induction parts as [|p parts IH]; intros s c Hs; cbn [fold_left str_concat]; [by rewrite str_app_nil_r|].
    rewrite <-str_app_assoc. apply IH. by apply eWrite_writing. }
  specialize (Hw parts ""%string (Reset c) (eReset_writing (enc c))). apply eClose_frames in Hw.
  by destruct (eClose _).
Qed.
End laws.

(** Every upload reads its own text. Whatever uploads a pool of decompressors served before,
    well-formed or not, read to the end or abandoned, and whichever instance the pool hands
    out, a body that a client's compressor wrote is accepted, however often that compressor
    was used; what is read of it is a prefix of the text the client wrote, and the whole text
    when it is read for long enough. *)
Theorem uploads_read_their_own `{ZstdLaws} history c parts pick reads :
  Forall (λ n, 0 < n)%nat reads →
  ∃ out rest, (serve (serve_all [] history) (mkRequest pick (compress c parts).2 reads)).2 = Ok out ∧
    str_concat parts = str_app out rest ∧ ((String.length (str_concat parts) < length reads)%nat → rest = ""%string).
Proof.
  intros Hn. pose proof (serve_all_alive history [] (Forall_nil_2 _)) as Hpool.
  set (pool := serve_all [] history) in *. unfold serve. cbn [rq_pick rq_body rq_reads]. rewrite compress_frames.
  assert (Hd : ∀ d, match pool !! pick with Some d => d | None => newDecompressor end = d → alive d).
  { intros d <-. destruct (pool !! pick) as [x|] eqn:Hx; [by eapply Forall_lookup_1|apply NewReader_usable]. }
  specialize (Hd _ eq_refl).
  assert (Hread : ∀ d, alive d → ∃ d1 out rest, ResetTo d (Some (frames (str_concat parts))) = (d1, true) ∧
    (read_some d1 reads).2 = out ∧ alive (read_some d1 reads).1 ∧ str_concat parts = str_app out rest ∧
    ((String.length (str_concat parts) < length reads)%nat → rest = ""%string)).
  { clear -Hn. intros d Hd. destruct (ResetTo_alive d (Some (frames (str_concat parts))) Hd) as [Ha Hok].
    pose proof (dReset_holds (dec d) (str_concat parts) Hd) as Hh. unfold ResetTo in *.
    destruct (dReset (dec d) _) as [x ok]. cbn [fst snd] in *. subst ok.
    destruct (read_some_holds (mkDecompressor x) _ reads Hh Hn) as (rest & Ht & Hl).
    eexists _, _, rest. split; [reflexivity|]. split; [reflexivity|]. split; [by apply read_some_alive|]. by split. }
  destruct (pool !! pick) as [x|]; destruct (Hread _ Hd) as (d1 & out & rest & -> & Hout & Ha & Ht & Hl);
    exists out, rest; (split; [|by split]); destruct (read_some d1 reads) as [d2 o]; cbn [fst snd] in *; subst o;
    destruct (ResetTo_alive d2 None Ha) as [_ Hok]; unfold Detach; destruct (ResetTo d2 None) as [d3 ok];
    cbn [snd] in Hok; subst ok; by destruct (ResetTo d3 _).
Qed.

(** The two ends agree on the codec: what the client sends is registered on both. *)
Lemma codec_is_negotiated `{ZstdLib} n :
  WithSendCompression n ∈ ClientOptions →
  (∃ d c, HandlerOption = WithCompression n d c) ∧ ∃ d c, WithAcceptCompression n d c ∈ ClientOptions.
Proof.
  unfold ClientOptions. rewrite !elem_of_cons, elem_of_nil. intros [[=]|[[= ->]|[]]]. split; [by repeat eexists|].
  do 2 eexists. by left.
Qed.

(** Why [Close] only detaches: a decoder that was closed refuses every later body. *)
Lemma terminal_close_poisons `{ZstdLaws} d body : (ResetTo (mkDecompressor (dClose (dec d))) (Some body)).2 = false.
Proof. pose proof (dClose_final (dec d) (Some body)) as Hc. unfold ResetTo. cbn [dec]. by destruct (dReset _ _). Qed.

(** A library that meets the contract: a frame is a mark before the text. *)
Definition mark_frames (s : string) : string := str_app "Z" s.
Definition mark_zstd : ZstdLib := {|
  Encoder := string; NewWriter := ""%string; eReset _ := ""%string; eWrite e p := str_app e p; eClose e := (e, mark_frames e);
  Decoder := option string; NewReader := Some ""%string;
  dReset d r := match d with
                | None => (None, false)
                | Some _ => (Some match r with Some b => str_drop 1 b | None => ""%string end, true)
                end;
  dRead d n := match d with
               | Some s => if decide (s = ""%string) then (d, None) else (Some (str_drop n s), Some (str_take n s))
               | None => (d, None)
               end;
  dClose _ := None |}.

Lemma mark_zstd_laws : @ZstdLaws mark_zstd.
Proof.
  refine (@Build_ZstdLaws mark_zstd mark_frames eq is_Some (λ d s, d = Some s) _ _ _ _ _ _ _ _ _ _); cbn.
  - done.
  - by intros e s p <-.
  - by intros e s <-.
  - by eexists.
  - intros [d|] r Hd; [|by destruct Hd]. split; [by eexists|done].
  - intros [d|] s Hd; [|by destruct Hd]. cbn. unfold mark_frames. by rewrite (str_drop_app "Z").
  - intros [d|] n Hd; [|by destruct Hd]. by destruct (decide _).
  - by intros d n ->.
  - intros d n s -> Hs Hn. rewrite decide_False by done. exists (str_take n s), (str_drop n s).
    split; [done|]. unfold str_take, str_drop. split; [|split; [|done]].
    + intros He. apply (f_equal bytes_of) in He. rewrite bytes_of_of in He. destruct (bytes_of s) eqn:Eb; [|by destruct n; [lia|]].
      apply Hs. by rewrite <-(of_bytes_of s), Eb.
    + rewrite <-(of_bytes_of s) at 1. rewrite <-(take_drop n (bytes_of s)) at 1.
      rewrite <-(of_bytes_of (str_app _ _)), bytes_of_app, !bytes_of_of. done.
  - done.
Qed.

(** Two uploads through one instance, the first malformed and abandoned. *)
Lemma uploads_read_their_own_witness :
  let _ := mark_zstd in let _ := mark_zstd_laws in
  ∃ out rest, (serve (serve_all [] [mkRequest 0 "garbage" [2%nat]]) (mkRequest 0 (compress newCompressor ["hello "; "world"]).2 (repeat 5%nat 20))).2 = Ok out ∧
    ("hello world" = str_app out rest)%string ∧ rest = ""%string.
Proof.
  cbv zeta. destruct (@uploads_read_their_own mark_zstd mark_zstd_laws [mkRequest 0 "garbage" [2%nat]]
    (@newCompressor mark_zstd) ["hello "; "world"]%string 0 (repeat 5%nat 20)) as (out & rest & Hs & Ht & Hr).
  - apply (bool_decide_unpack _). vm_compute. exact I.
  - exists out, rest. split; [exact Hs|]. split; [exact Ht|]. apply Hr. vm_compute. lia.
Defined.
