(* ===== verification/Transport.v ===== *)
(** * The client's transport (client/internal/transport/transport.go, client/maping.go)

    Building the recorder from the process's surroundings, the scheme the transport accepts,
    and the header that carries the key; proved to reach the collector of the file Wiring. *)

From Stdlib Require Import ZArith Lia Ascii Floats.
From Stdlib Require String.
From stdpp Require Import base option gmap strings list.
From S2P Require Import Prelude GoString GoTime GoUrl Wire Token ClientConfig Storage Auth Guardrail.
From S2P Require Import Control Ingest App Wiring.

Local Open Scope Z_scope.

(** ** The client *)

Definition httpClientTimeout : Duration := 10 * Second.

(** Cleartext HTTP/2 or TLS. *)
Inductive httpClient := H2C | TLS.
Record Client := mkClient { svc : httpClient; base : string; key : string }.

Section transport.
Context `{NetIP}.

Definition New (endpoint key : string) : result string Client :=
  match Parse endpoint with
  | None => Err "transport: parse endpoint"%string
  | Some u =>
      if bool_decide (Scheme u = "https"%string) then Ok (mkClient TLS endpoint key)
      else if bool_decide (Scheme u = "http"%string) then Ok (mkClient H2C endpoint key)
      else Err (str_app "transport: unsupported endpoint scheme " (Scheme u))
  end.

Definition authHeader (c : Client) (hdr : headers) : headers :=
  if bool_decide (key c ≠ ""%string)
  then λ k, if bool_decide (k = "Authorization"%string) then str_app "Bearer " (key c) else hdr k
  else hdr.

(** The headers of a new request. *)
Definition no_headers : headers := λ _, ""%string.

(** [NewRecorder]: [None] is the recorder that does nothing. *)
Definition NewRecorder (h : Host) (opts : list ClientConfig.Option) : option (ClientConfig.Config * Client) :=
  let cfg := resolveConfig h opts in
  if bool_decide (ClientConfig.Key cfg = ""%string) then None
  else match New (ClientConfig.Endpoint cfg) (ClientConfig.Key cfg) with
       | Err _ => None
       | Ok tx => Some (cfg, tx)
       end.

(** ** Which processes upload *)

Lemma New_valid endpoint k :
  validOrigin endpoint = true → ∃ c, New endpoint k = Ok c ∧ base c = endpoint ∧ key c = k.
Proof.
  unfold validOrigin, New. case_bool_decide; [done|]. destruct (Parse endpoint) as [u|]; [|done].
  intros [Hs _]%andb_true_iff. apply orb_true_iff in Hs as [Hs|Hs]; apply bool_decide_eq_true in Hs; rewrite Hs;
    repeat (case_bool_decide; try done); by eexists.
Qed.

(** The endpoint a key or the default gives is one the transport takes. *)
Lemma derived_endpoint_valid h k : validOrigin (resolveEndpoint h "" "" k) = true.
Proof.
  unfold resolveEndpoint. cbn.
  assert (Hd : validOrigin defaultEndpoint = true) by (vm_compute; reflexivity).
  destruct (Decode k) as [[origin secret]|]; [|exact Hd].
  destruct (validOrigin origin) eqn:E; [|exact Hd]. by destruct (originIsTrusted h origin).
Qed.

(** [C29] An application is never broken by the recorder and never silently unmonitored. A
    recorder runs exactly when a key is configured and the endpoint is a URL of scheme http
    or https; it then presents that key to that endpoint, in the clear exactly for http. So
    with a key and no endpoint chosen by the operator it always runs, whatever the key. *)
Theorem recorder_runs_exactly h opts :
  let cfg := resolveConfig h opts in
  (∀ c, NewRecorder h opts = Some c ↔
    c.1 = cfg ∧ ClientConfig.Key cfg ≠ ""%string ∧ base c.2 = ClientConfig.Endpoint cfg ∧ key c.2 = ClientConfig.Key cfg ∧
    ∃ u, Parse (ClientConfig.Endpoint cfg) = Some u ∧
      (Scheme u = "https"%string ∧ svc c.2 = TLS ∨ Scheme u = "http"%string ∧ svc c.2 = H2C)) ∧
  (no_endpoint_option opts → Getenv h "MAPING_ENDPOINT" = ""%string → ClientConfig.Key cfg ≠ ""%string →
   is_Some (NewRecorder h opts)).
Proof.
  intros cfg. split.
  - intros [cfg' [sv b k]]. unfold NewRecorder, New. fold cfg. cbn [fst snd svc base key].
    case_bool_decide as Hk; [naive_solver|]. destruct (Parse (ClientConfig.Endpoint cfg)) as [u|] eqn:Eu; [|naive_solver].
    repeat case_bool_decide; (split; [intros [= <- <- <- <-]; naive_solver|]);
      intros (-> & _ & -> & -> & u' & [= <-] & [[? ->]|[? ->]]); congruence.
  - intros Ho He Hk. unfold NewRecorder. fold cfg. rewrite bool_decide_false by done.
    destruct (New_valid (ClientConfig.Endpoint cfg) (ClientConfig.Key cfg)) as (c & -> & _); [|by eexists].
    subst cfg. unfold resolveConfig. cbn [ClientConfig.Endpoint]. unfold no_endpoint_option in Ho. rewrite Ho, He.
    apply derived_endpoint_valid.
Qed.
End transport.

(** The hosted service's application: nothing configured but the key. *)
Lemma recorder_runs_exactly_witness :
  is_Some (@NewRecorder no_ipv6 (test_host "MAPING_KEY" "mk_live_c2VjcmV0") []).
Proof. by apply (@recorder_runs_exactly no_ipv6 (test_host "MAPING_KEY" "mk_live_c2VjcmV0") []). Defined.

(** ** The first upload of a new customer *)

Section first_upload.
Context `{NetIP}.

Lemma authHeader_bearer c : key c ≠ ""%string → authHeader c no_headers "Authorization" = str_app "Bearer " (key c).
Proof. intros Hk. unfold authHeader. by rewrite bool_decide_true. Qed.

(** Where a process reports that is given an issued key: to the endpoint it is set up with, if
    any; else to the deployment the key names, if it may be trusted with the key; else to the
    hosted service. *)
Definition reports_to (h : Host) (origin : string) : string :=
  let chosen := Getenv h "MAPING_ENDPOINT" in
  if bool_decide (chosen ≠ ""%string) then chosen
  else if validOrigin origin && originIsTrusted h origin then origin else defaultEndpoint.

Lemma keyed_recorder h origin secret :
  dotless secret → Getenv h "MAPING_KEY" = Token.Encode origin secret →
  (Getenv h "MAPING_ENDPOINT" = ""%string ∨ validOrigin (Getenv h "MAPING_ENDPOINT") = true) →
  ∃ cfg c, NewRecorder h [] = Some (cfg, c) ∧ base c = reports_to h origin ∧ key c = Token.Encode origin secret.
Proof.
  intros [Hs Hdot] Hk He.
  assert (Hne : Token.Encode origin secret ≠ ""%string) by (unfold Token.Encode; case_bool_decide; done).
  assert (Hd : Token.Decode (Token.Encode origin secret) = Some (origin, secret)).
  { unfold Token.Encode. case_bool_decide as Ho; [rewrite Ho; by apply Decode_dotless|by apply Decode_structured]. }
  set (k := Token.Encode origin secret) in *. clearbody k.
  assert (Hend : ClientConfig.Endpoint (resolveConfig h []) = reports_to h origin).
  { unfold resolveConfig, resolveEndpoint, reports_to. cbn. unfold override_s.
    rewrite Hk, !(bool_decide_false (""%string ≠ ""%string)) by naive_solver. by rewrite Hd. }
  assert (Hv : validOrigin (reports_to h origin) = true).
  { unfold reports_to. case_bool_decide as Hc; [by destruct He|].
    destruct (validOrigin origin) eqn:Ho; [destruct (originIsTrusted h origin); [exact Ho|]|]; vm_compute; reflexivity. }
  unfold NewRecorder. rewrite Hend. change (ClientConfig.Key (resolveConfig h [])) with (Getenv h "MAPING_KEY").
  rewrite Hk, bool_decide_false by done. destruct (New_valid _ k Hv) as (c & -> & ? & ?). by eexists _, c.
Qed.
End first_upload.

(** [C14] Onboarding works end to end. An application whose only setting is a key that was
    issued to a customer runs a recorder, which presents that key to the deployment the key
    names, when its origin is an http(s) URL this client trusts (the hosted service's domain,
    or any origin under the operator's opt-in), and to the hosted service's own endpoint
    otherwise; an endpoint set in the environment goes before both. And the first upload a
    freshly started server of the deployment that issued the key receives with it, after any
    history of the control plane that does not revoke that key, is let in and every one of
    its summaries stored, converted and in order, under the customer's organization, with
    nothing rejected, as long as the database answers, the plan has room for the request, its
    bucket allows a first request and the sink accepts. So a customer of a self-hosted
    deployment who sets the key alone is not onboarded there: trust or the endpoint must be
    configured too. *)
Theorem first_upload_is_stored `{NetIP} `{DBLib} `{RateLib} sink iw_sink size h org label w a b rest secret w1 l origin x lim :
  w_rand w = Some (a :: b) :: rest →
  issueKey org label w = (Ok secret, w1) → org ≠ ""%string →
  (∀ k, active_key (hashKey secret) (w_db w1) = Some k → Forall (spares (k_id k)) l.*1) →
  w_faults (run_ops w1 l) = [] →
  Getenv h "MAPING_KEY" = Token.Encode origin secret →
  (Getenv h "MAPING_ENDPOINT" = ""%string ∨ validOrigin (Getenv h "MAPING_ENDPOINT") = true) →
  uc_lookup x = poolLookup (run_ops w1 l) →
  (∀ i, (uc_limits x i).2 = Some lim) →
  (AllowNow (NewLimiter (MaxRPS lim) (Burst lim)) (uc_bucket_now x)).1 = true →
  in_plan size lim x → (∀ rows r, sink rows r = true) →
  ∃ cfg c, NewRecorder h [] = Some (cfg, c) ∧ base c = reports_to h origin ∧
    (uc_hdr x = authHeader c no_headers →
     let env := get_envelope (uc_req x) in
     let '(r, n) := serve_upload sink iw_sink size new_node x in
     r = Ok (mkUploadResponse true "" 0) ∧
     Forall2 (converts (tenant.mkID org) (env_service env) (env_instance env) (deploy_of env) (uc_now x))
       (up_summaries (uc_req x)) (stored (n_ingest n))).
Proof.
  intros Hrand Hi Horg Hl Hf Hk He Hx Hlim Hallow Hplan Hsink.
  destruct (issueKey_Ok _ _ _ _ _ Hi) as (b' & bs & _ & _ & Hb & Hs & _). rewrite Hrand in Hb.
  injection Hb as <- <-. pose proof (NewSecret_dotless _ _ _ Hs) as Hne.
  destruct (keyed_recorder h origin secret Hne Hk He) as (cfg & c & Hc & Hbase & Hkey).
  exists cfg, c. split; [done|]. split; [done|]. intros Hhdr.
  apply (issued_key_upload sink iw_sink size org label w a b rest secret w1 l origin x lim); try done.
  rewrite Hhdr, <-Hkey. apply authHeader_bearer. rewrite Hkey. unfold Token.Encode. case_bool_decide; by destruct secret, Hne.
Qed.

(** A customer of the hosted service. *)
Definition hosted_origin : string := "https://eu.mapi-ng.com".
Definition hosted_client : Client := mkClient TLS hosted_origin (Token.Encode hosted_origin toy_secret).
Definition first_upload : upload_call :=
  let x := toy_call [toy_summary 3600000; toy_summary 3600001] in
  mkUploadCall (authHeader hosted_client no_headers) (uc_req x) (uc_now x) (uc_bucket_now x) (uc_guard_now x) (uc_clocks x)
    (uc_lookup x) (uc_limits x).

Lemma first_upload_is_stored_witness :
  let _ := toy_db in let _ := counting in
  @reports_to no_ipv6 (test_host "MAPING_KEY" (Token.Encode hosted_origin toy_secret)) hosted_origin = hosted_origin ∧
  let '(r, n) := serve_upload (λ _ _, true) (λ _ _, true) (λ _, 10) new_node first_upload in
  r = Ok (mkUploadResponse true "" 0) ∧
  Forall2 (converts (tenant.mkID "0") "" "" (deploy_of zero_envelope) (3600000 * Millisecond))
    (up_summaries (uc_req first_upload)) (stored (n_ingest n)).
Proof.
  split; [vm_compute; reflexivity|].
  destruct (@first_upload_is_stored no_ipv6 toy_db counting (λ _ _, true) (λ _ _, true) (λ _, 10)
    (test_host "MAPING_KEY" (Token.Encode hosted_origin toy_secret)) "0" "default"
    (@upsertMemberFromOIDC toy_db "github:1" "a@b.c" fresh_world).2 "0"%char
    (bytes_of "123456789abcdef0123456789abcdef") [] toy_secret keyed_world [] hosted_origin
    first_upload toy_limits) as (cfg & c & Hc & _ & Hall);
    [reflexivity|reflexivity|discriminate|intros; constructor|reflexivity|reflexivity|by left
    |reflexivity|reflexivity|reflexivity| |reflexivity|].
  - split; [right; vm_compute; discriminate|]. split; [right; vm_compute; discriminate|].
    repeat constructor; eexists; reflexivity.
  - apply Hall. assert (Hh : c = hosted_client); [|by rewrite Hh].
    vm_compute in Hc. by injection Hc as _ <-.
Defined.

(** A key of a self-hosted deployment, as the only setting: the recorder runs, and reports to
    the hosted service. *)
Lemma untrusted_key_reports_elsewhere :
  let h := test_host "MAPING_KEY" (Token.Encode "https://metrics.acme.example" toy_secret) in
  ∃ cfg c, @NewRecorder no_ipv6 h [] = Some (cfg, c) ∧ base c = defaultEndpoint.
Proof. eexists _, _. split; vm_compute; reflexivity. Qed.
