(* ===== verification/Boot.v ===== *)
(** * Building the server (server/app/app.go: [build]; server/internal/control/store.go: [New])

    The start-up of the collector in the order the code takes it: the batcher's connection,
    the data-plane schema, the control plane with its own schema and the development key,
    the session key, and the assembly of the routes. What fails stops it; the resources
    that are then still open are part of the result. *)

From Stdlib Require Import ZArith Lia.
From Stdlib Require String.
From stdpp Require Import base option gmap strings list.
From S2P Require Import Prelude GoString GoTime GoUrl Http Token Storage Auth Guardrail.
From S2P Require Import Control Pages Dashboard Routes App Ingest Wiring Migrations.

Local Open Scope Z_scope.

(** What [build] opens and its caller is to close. *)
Inductive resource := TheWriter | ThePool.
#[export] Instance resource_eq_dec : EqDecision resource.
Proof. solve_decision. Defined.

(** ** The control plane *)

(** [control.New]: a pool that could be made and answers, and its schema. [opened] is the
    control plane over the migrated database. *)
Section control_new.
Context {D : Type} (Exec : D → string → bool * D).

Definition control_New (pool_ok ping_ok : bool) (embedded : FS) (extra : list (FS * string)) (opened : World) (d : D)
  : option World * D :=
  if negb (pool_ok && ping_ok) then (None, d)
  else match applyMigrations Exec embedded extra d with
       | (Ok _, d) => (Some opened, d)
       | (Err _, d) => (None, d)
       end.
End control_new.

(** ** [build] *)

Record built := mkBuilt {
  b_app : App.App World; b_wiring : ingestWiring; b_store : option World; b_listen : string;
}.

(** [newHTTPServer]'s address. *)
Definition server_addr (listen : string) : string := if bool_decide (listen = ""%string) then ":8080" else listen.

(** The surroundings of a start: the environment, the random source, whether ClickHouse and
    Postgres could be connected to, and what each of them makes of a statement. *)
Record surroundings (D E : Type) := mkSurroundings {
  getenv : string → string; random : option string;
  writer_ok : bool; ch_exec : D → string → bool * D; ch_files : FS;
  pool_ok : bool; ping_ok : bool; pg_exec : E → string → bool * E; pg_files : FS;
  migrations : list (FS * string); opened : World;
}.
Arguments getenv {D E}.
Arguments random {D E}.
Arguments writer_ok {D E}.
Arguments ch_exec {D E}.
Arguments ch_files {D E}.
Arguments pool_ok {D E}.
Arguments ping_ok {D E}.
Arguments pg_exec {D E}.
Arguments pg_files {D E}.
Arguments migrations {D E}.
Arguments opened {D E}.

Section build.
Context `{MacLib} `{NetIP} `{DBLib} {D E : Type}.
Implicit Types (s : surroundings D E) (o : options World).

(** [control.New] is called only when a DSN is configured. *)
Definition connect s (e : E) : option World * E :=
  if bool_decide (getenv s "MAPING_POSTGRES_DSN"%string = ""%string) then (None, e)
  else control_New (pg_exec s) (pool_ok s) (ping_ok s) (pg_files s) (migrations s) (opened s) e.

(** [closeStore] on an early return. *)
Definition closeStore (l : list resource) : list resource := filter (λ r, r ≠ ThePool) l.

Definition assemble s o (querier : Querier) (frozen : string → bool) (w : ingestWiring) (store : option World)
  : result string built * list resource :=
  let held := TheWriter :: match store with Some _ => [ThePool] | None => [] end in
  match gatherDeps (getenv s) (random s) o querier ((λ _, store_plane) <$> store) ((λ _, frozen) <$> store) (iw_tenant w) with
  | Err e => (Err e, closeStore held)
  | Ok deps =>
      match assembleMux (getenv s) deps o with
      | Err e => (Err e, closeStore held)
      | Ok app => (Ok (mkBuilt app w store (server_addr (getenv s "MAPING_LISTEN"))), held)
      end
  end.

Definition build s o (querier : Querier) (frozen : string → bool) (d : D) (e : E)
  : (result string built * list resource) * (D * E) :=
  if negb (writer_ok s) then ((Err "storage.NewWriter"%string, []), (d, e))
  else match ApplyMigrations (ch_exec s) (ch_files s) d with
  | (Err _, d) => ((Err "storage.ApplyMigrations"%string, [TheWriter]), (d, e))
  | (Ok _, d) =>
      let '(store, e) := connect s e in
      match buildIngestWiring (getenv s) store with
      | Err err => ((Err err, [TheWriter]), (d, e))
      | Ok (w, store) => (assemble s o querier frozen w store, (d, e))
      end
  end.

(** ** When it comes up, and as what *)

(** No control plane is configured. *)
Definition dev_mode s : Prop := getenv s "MAPING_POSTGRES_DSN"%string = ""%string.

#[export] Instance dev_mode_dec s : Decision (dev_mode s).
Proof. unfold dev_mode. apply _. Defined.

(** What [build] needs of its surroundings. *)
Definition schema_applied s (d : D) : Prop := (ApplyMigrations (ch_exec s) (ch_files s) d).1 = Ok tt.
Definition control_plane_ready s (e : E) (org : string) (w : World) : Prop :=
  ∃ w0, (connect s e).1 = Some w0 ∧ ensureDevKey devIngestKey App.devOrgName w0 = (Ok org, w).
Definition session_key s : result string string :=
  sessionKey (getenv s) (secureFromBaseURL (getenv s "MAPING_BASE_URL")) (random s).

Lemma wiring_dev s store :
  dev_mode s → buildIngestWiring (getenv s) store =
    Ok (mkIngestWiring (StaticWiring [(devIngestKey, devTenant)]) devTenant, None).
Proof. intros Hd. unfold buildIngestWiring. by rewrite bool_decide_true. Qed.

Lemma wiring_store s e :
  ¬ dev_mode s →
  match buildIngestWiring (getenv s) (connect s e).1 with
  | Ok (w, store) => ∃ org w', control_plane_ready s e org w' ∧ w = mkIngestWiring StoreWiring org ∧ store = Some w'
  | Err _ => ∀ org w', ¬ control_plane_ready s e org w'
  end.
Proof.
  intros Hd. unfold buildIngestWiring. rewrite bool_decide_false by done. unfold control_plane_ready.
  destruct (connect s e).1 as [w0|]; [|by intros org w' (? & ? & _)].
  destruct (ensureDevKey _ _ w0) as [[org|err] w'] eqn:Ek.
  - exists org, w'. split; [|done]. by exists w0.
  - intros org' w'' (? & [= <-] & Hk). congruence.
Qed.

(** What the assembly gives, in either mode. *)
Definition came_up_dev s (b : built) (held : list resource) : Prop :=
  held = [TheWriter] ∧ b_store b = None ∧ app_auth (b_app b) = None ∧
  b_wiring b = mkIngestWiring (StaticWiring [(devIngestKey, devTenant)]) devTenant.
Definition came_up_gated s (e : E) (b : built) (held : list resource) : Prop :=
  held = [TheWriter; ThePool] ∧
  ∃ org w k a, control_plane_ready s e org w ∧ b_store b = Some w ∧ b_wiring b = mkIngestWiring StoreWiring org ∧
    session_key s = Ok k ∧ (32 ≤ String.length k)%nat ∧ app_auth (b_app b) = Some a ∧ signer a = k ∧
    h_csrf (app_web (b_app b)) = Some k ∧ secure a = secureFromBaseURL (getenv s "MAPING_BASE_URL") ∧
    app_secure (b_app b) = secure a.

Lemma assemble_dev s o q frozen w :
  dev_mode s → w = mkIngestWiring (StaticWiring [(devIngestKey, devTenant)]) devTenant →
  ∃ b held, assemble s o q frozen w None = (Ok b, held) ∧ came_up_dev s b held.
Proof.
  intros Hd ->. unfold assemble. cbn [fmap option_fmap option_map].
  destruct (server_starts_gated (getenv s) None o q None None (iw_tenant (mkIngestWiring (StaticWiring [(devIngestKey, devTenant)]) devTenant)))
    as (deps & app & Hg & Ha & Hn & _); [done|].
  unfold gatherDeps in Hg |- *. injection Hg as <-. cbn [iw_tenant fmap option_fmap option_map] in *. rewrite Ha. by eexists _, _.
Qed.

Lemma assemble_gated s o q frozen e org w :
  (∀ k, random s = Some k → String.length k = 32%nat) → control_plane_ready s e org w →
  match assemble s o q frozen (mkIngestWiring StoreWiring org) (Some w) with
  | (Ok b, held) => came_up_gated s e b held
  | (Err _, held) => held = [TheWriter] ∧ ∃ err, session_key s = Err err
  end.
Proof.
  intros Hr Hc. unfold assemble. cbn [fmap option_fmap option_map iw_tenant].
  pose proof (server_starts_gated (getenv s) (random s) o q (Some store_plane) (Some frozen) org Hr) as Hs.
  cbv zeta in Hs. unfold session_key. destruct (sessionKey _ _ _) as [k|err] eqn:Ek.
  - destruct Hs as (deps & app & a & -> & -> & Hk & Ha & Hsig & Hcsrf & Hsec & Happ & _).
    split; [done|]. exists org, w, k, a. unfold session_key. rewrite Ek.
    split_and!; try done. by rewrite Hsec.
  - rewrite Hs. split; [done|by eexists].
Qed.
End build.

(** [C31] The collector comes up exactly when it should, and as what it should. It starts iff
    ClickHouse can be reached, every statement of its schema is accepted and, when a control
    plane is configured, Postgres can be reached, takes its schema and the development key,
    and the session key is usable. Without a control plane it is then ungated and resolves
    the development key only; with one the dashboard is gated with that session key, the
    ingest path resolves keys and limits in the store, and cookies are Secure exactly over
    https. A start that fails never leaves the control-plane pool open. *)
Theorem server_comes_up_exactly `{MacLib} `{NetIP} `{DBLib} {D E} (s : surroundings D E) o q frozen d e :
  (∀ k, random s = Some k → String.length k = 32%nat) →
  match (build s o q frozen d e).1 with
  | (Ok b, held) => writer_ok s = true ∧ schema_applied s d ∧
      (dev_mode s ∧ came_up_dev s b held ∨ ¬ dev_mode s ∧ came_up_gated s e b held)
  | (Err _, held) => held = (if writer_ok s then [TheWriter] else []) ∧
      (writer_ok s = false ∨ ¬ schema_applied s d ∨
       ¬ dev_mode s ∧ ((∀ org w, ¬ control_plane_ready s e org w) ∨ ∃ err, session_key s = Err err))
  end.
Proof.
  intros Hr. unfold build, schema_applied. destruct (writer_ok s); cbn [negb fst]; [|by auto].
  destruct (ApplyMigrations (ch_exec s) (ch_files s) d) as [[[]|err] d'] eqn:Em; cbn [fst]; [|by auto].
  destruct (decide (dev_mode s)) as [Hd|Hd].
  - destruct (connect s e) as [store e']. rewrite (wiring_dev s store Hd). cbn [fst].
    destruct (assemble_dev s o q frozen _ Hd eq_refl) as (b & held & -> & Hb). auto.
  - pose proof (wiring_store s e Hd) as Hw. destruct (connect s e) as [store e'] eqn:Ec. cbn [fst] in Hw.
    destruct (buildIngestWiring (getenv s) store) as [[w store']|err]; cbn [fst]; [|by auto 6].
    destruct Hw as (org & w' & Hc & -> & ->). pose proof (assemble_gated s o q frozen e org w' Hr Hc) as Ha.
    destruct (assemble _ _ _ _ _ _) as [[b|err] held]; [auto|]. destruct Ha as [-> ?]. auto 6.
Qed.

(** A fresh deployment over https, with a control plane. *)
Definition boot_env (k : string) : string :=
  if bool_decide (k = "MAPING_POSTGRES_DSN"%string) then "postgres://localhost/maping" else prod_env k.
Definition empty_fs : FS := mkFS (λ _, Some []) (λ _, None).
Definition fresh_deployment : surroundings (list string) unit :=
  mkSurroundings _ _ boot_env None true schema_exec toy_fs true true (λ d _, (true, d)) empty_fs [] fresh_world.

Lemma server_comes_up_exactly_witness :
  let _ := toy_mac in let _ := no_ipv6 in let _ := toy_db in
  match (build fresh_deployment public_build (λ _, empty_query) (λ _, false) [] tt).1 with
  | (Ok b, held) => b_listen b = ":8080"%string ∧ came_up_gated fresh_deployment tt b held
  | (Err _, _) => False
  end.
Proof.
  cbv zeta. pose proof (@server_comes_up_exactly toy_mac no_ipv6 toy_db _ _ fresh_deployment public_build
    (λ _, empty_query) (λ _, false) [] tt) as T.
  specialize (T (λ k Hk, ltac:(discriminate Hk))).
  set (r := (@build toy_db _ _ fresh_deployment public_build (λ _, empty_query) (λ _, false) [] tt).1) in *.
  assert (Hr : match r with (Ok b, _) => b_listen b = ":8080"%string | _ => False end) by (vm_compute; reflexivity).
  destruct r as [[b|err] held]; [|done]. split; [exact Hr|].
  destruct T as (_ & _ & [[Hd _]|[_ Hg]]); [discriminate Hd|exact Hg].
Defined.
